(* ===== verification/_CoqProject ===== *)
-Q . S2P
Prelude.v
ConstTime.v
Picohash.v
HashSpec.v
HashMd5.v
HashSha1.v
HashSha256.v
HashCorrect.v
Crc32.v
SctpCrc32.v
Base64.v
Addr.v
Machine.v
StunMsg.v
StunHashes.v
StunWrite.v
StunCodec.v
StunWriteCorrect.v
StunSize.v
StunRead.v
StunReadSafe.v
StunRoundtrip.v
StunExchange.v
StunExamples.v
Turn.v
TurnTable.v
StunReceived.v
TurnInv.v
TurnOps.v
TurnTids.v
TurnMap.v
TurnLife.v
CStdio.v
Ice.v
IceSort.v
IceWf.v
IceGenerate.v
IceRoundtrip.v
IceLocal.v
Server.v
ServerSend.v
ServerInv.v
ServerAnswer.v
ServerOps.v
ServerHandlers.v
ServerRequests.v
ServerRun.v
ServerCorrect.v
ServerExamples.v
SrtpReplay.v
SrtpWindow.v
SrtpCorrect.v
SrtpExamples.v
AgentState.v
AgentOrder.v
Agent.v
AgentStep.v
AgentApi.v
AgentInv.v
AgentTurn.v
AgentSend.v
AgentTimers.v
AgentPairs.v
AgentCandidates.v
AgentBinding.v
AgentInput.v
AgentBooks.v
AgentAct.v
AgentOps.v
AgentCorrect.v
AgentAuth.v
AgentExamples.v
Conn.v
ConnInv.v
ConnMux.v
ConnMuxMap.v
ConnMuxCorrect.v
ConnPoll.v
ConnPollCorrect.v
ConnExamples.v
