(* ===== verification/Prelude.v ===== *)
(** * A verified model of the networking core of psi_esp32

    psi_esp32 is a WebRTC camera application for the ESP32-P4.  Its media and
    data travel over libjuice (ICE, STUN and TURN, in C), libdatachannel,
    libsrtp and usrsctp.  This library models the parts of that code which decide what a
    datagram means and what it may do, and proves them correct.

    ** The program and the files

    The lower layers are pure functions on bytes; the layers above keep state
    and call them.

      src/components/libjuice/src/        file of this library
      const_time.c                        ConstTime
      picohash.h, hash.c, hmac.c          Picohash; HashSpec, HashMd5, HashSha1,
                                          HashSha256, HashCorrect
      crc32.c                             Crc32
      base64.c                            Base64
      addr.c                              Addr
      stun.h                              StunMsg
      stun.c, writing                     StunWrite; StunCodec, StunWriteCorrect
      stun.c, reading and checking        StunRead; StunReadSafe
      stun.c, both                        StunHashes, StunRoundtrip,
                                          StunExchange, StunSize, StunReceived,
                                          StunExamples
      turn.c                              Turn; TurnTable, TurnInv, TurnOps,
                                          TurnTids, TurnMap, TurnLife
      ice.c, random.c (strings)           CStdio, Ice; IceSort, IceWf, IceGenerate,
                                          IceRoundtrip, IceLocal
      server.c                            Server; ServerSend, ServerInv,
                                          ServerAnswer, ServerOps, ServerHandlers,
                                          ServerRequests, ServerRun, ServerCorrect,
                                          ServerExamples
      agent.h, agent.c: state, timers     AgentState; AgentOrder
               and pairs
      agent.c: messages                   Agent
      agent.c: bookkeeping                AgentStep
      agent.c: calls of the application   AgentApi
      agent.c, what is proved             AgentInv, AgentTurn, AgentSend,
                                          AgentTimers, AgentPairs,
                                          AgentCandidates, AgentBinding,
                                          AgentInput, AgentBooks, AgentAct,
                                          AgentOps, AgentCorrect, AgentAuth,
                                          AgentExamples
      conn.c                              Conn; ConnInv
      conn_mux.c                          ConnMux; ConnMuxMap, ConnMuxCorrect
      conn_poll.c, conn_thread.c          ConnPoll; ConnPollCorrect
      all of these                        ConnExamples

      src/components/libdatachannel/deps/libsrtp/
      datatypes.c, rdb.c, rdbx.c and the replay protection of srtp.c
                                          SrtpReplay; SrtpWindow, SrtpCorrect,
                                          SrtpExamples
      key.c                               SrtpReplay, SrtpCorrect

      src/components/usrsctp/src/
      sctp_crc32.c, m_apply of user_mbuf.c
                                          SctpCrc32

    The first file of each row holds the translation; the others its
    specification and proofs, and the Examples files the concrete inputs at
    which the theorems are applied.  Definitions carry the names of the code; a
    loop or a branch that needs a name of its own is named after the function
    it belongs to ([base64_decode_loop], [crc32_bits]).  HashSpec and StunCodec
    are abstract specifications: the published hash functions, and the wire
    format as a list of attributes.

    ** How C becomes Rocq

    Integers are [Z] with the wrap-around of their width written out ([u8] to
    [u64], [s32]); the target is a 32-bit little-endian machine, so that
    [size_t], pointers and [uint_fast32_t] have 32 bits.  Memory is a list of
    bytes or words and a pointer into it an offset.  Leaving an object is
    undefined behaviour: [None], or [UB] in the type [outcome] of bodies with
    early returns ([Return]); a theorem that says a result is [Some] says that
    no such access happens.  Objects that are updated in place are passed and
    returned; in Server and in the files of the agent and of connections, where many
    calls share them, they are threaded by the state monad of Machine, which also
    counts the questions to the environment and collects what the component sends
    and reports.  An agent of a registry runs in a machine of its own, whose events
    are those of the registry with the agent's index ([on_agent]).  The table of a
    concurrency mode is the class [ConnMode] (Conn), what conn.c needs to know of a
    mode the class [ConnModeLaws] (ConnInv): the theorems on agents that come and go
    are proved against it, and ConnMuxCorrect and ConnPollCorrect discharge it.  A pointer into
    an array is an index, a pointer to an agent its index among all agents made.
    Records use the update notation at the end of this file.

    Loops are structural where the data decides.  Otherwise they have fuel that
    the proofs show to suffice: the attribute loops of stun.c one more than the
    length the header announces, since an attribute has at least four bytes
    ([stun_read_safe], [stun_check_integrity_safe]); probing in turn.c, server.c and
    conn_mux.c the size of the table ([probe_spec]); inserting into the map of
    conn_mux.c a depth of two, since growing makes room ([insert_spec]), and no
    depth when there is no memory ([mux_insert_never_returns]: the type [call] tells
    a call that has not returned from one that is undefined); searching the
    ordered arrays of turn.c their length; the decoder of base64.c one more than the length of the string
    ([base64_decode_terminates]); the search for a time slot in agent.c the
    square of one more than the number of entries, since it starts again at most
    once for each of them ([find_slot_total]); the callback of [agent_input] on
    what a relay delivers one more than the length of the datagram, since the
    payload is shorter ([input_rec_ok]).

    What the code does not define is a parameter.  [Platform] (Addr) holds the
    constants of the socket interface, with lwIP's as instance; [Hashes]
    (StunMsg) what stun.c needs of hash.c and hmac.c, implemented in
    StunHashes; [Scan] (CStdio) the points in which C libraries read numbers
    differently, with newlib's as instance; [Resolver] (Ice) getaddrinfo and
    getnameinfo; [Environment] (Server) the clock, random bytes, sockets and
    arrays that are not initialised; [AgentEnvironment] (AgentState) the same for
    the agent, with the documented behaviour the agent relies on as the class
    [AgentLaws] (AgentInv): random bytes of the length asked for, identifiers
    and channel numbers that are not drawn twice in one search, addresses and
    names that are well-formed, and a clock below 2^30 ms, about twelve days,
    within which differences of times fit an int.  Clock and random numbers of turn.c are
    arguments.

    ** What is proved

    - Hashes: MD5, SHA-1, SHA-224, SHA-256 and HMAC of picohash.h equal the
      published functions, for every way to split the input into updates.  The
      layer above them is proved against the class [StreamingHash].  CRC-32
      and the CRC32c of SCTP packets (slicing by eight, over chains of buffers) equal
      the bitwise definition.
    - Base64 and addresses: the round trip; termination and the exact limits of
      the lenient decoder, which can exceed its capacity; that equal addresses
      hash equally.
    - STUN: [stun_write] produces the wire format of StunCodec and stays in its
      buffer; [stun_read] is memory safe on all inputs, terminates and inverts
      it; [stun_check_integrity] accepts exactly the right digests.
    - TURN map: every operation of client and server, from any reachable map,
      is defined and keeps the invariant (entries are found by probing, the two
      ordered arrays index them); what each operation means for the queries
      that follow it, with lifetimes.
    - ICE: descriptions that are generated are parsed back; parsing arbitrary
      text stays in the buffer of a line and the arrays it fills and leaves a
      well-formed description; generation never leaves its buffer; sorting is the stable sort; priorities follow RFC 8445.
    - Server: every run of a server with lasting credentials is defined,
      whatever arrives; a datagram changes only allocations its sender has
      authenticated for; data is relayed only between a client and the peers it
      has permitted; a Binding request is answered, from wire to wire, with the
      address it came from.
    - Agent: every run of a session without STUN and TURN servers together
      ([session_ok]), whatever arrives and whatever is called in any order, is
      defined and keeps the invariant (entries, pairs and candidates in their
      arrays, every pointer to something, each check with a pair of its own);
      the states reported are a path of the state machine; the ordered pairs are
      sorted, transmissions are paced, the best pair is chosen.  Binding
      requests and responses count only when they are signed, and the check an
      agent sends is accepted by its peer.  The restriction is one of the theorems,
      not of the code, which does not check that the entries of both kinds of server
      fit: with both, the array can overflow.
    - Connections: agents and slots stay together in every concurrency mode, for
      agents that keep the invariant above, with its restriction ([conn_op_ok]).  With
      one thread that polls the sockets of all agents, whatever the application does
      while it waits, every run is defined, and its turn is a turn of each ready agent
      on what its own socket delivered, the others being left alone; with a thread
      for every agent, every run is defined; a limit on the datagrams of a turn only
      cuts their list.
    - Connection multiplexer: the map from addresses to agents implements a finite
      map, across deletions and growth; every run of the thread and the
      application is defined, each agent keeps its invariant and no slot and no
      address points to an agent that is gone; a known address decides which agent
      gets a datagram, an unknown one is learnt from a Binding request for the
      agent it names; the thread waits for the agent that is due first.
    - SRTP: the replay databases implement a sliding window of all indices ever
      seen; while indices stay below 2^48 no packet is accepted under an index used
      before, and none sent unless [allow_repeat_tx] allows it; a packet in reach
      is recognised under its own index, when no rollover counter is pending; how
      long a key lasts.
    - Deviations: theorems that show what the code does where it does not do
      what it means to (names with [overflow], [unnoticed], [ignores],
      [hidden], [outlived], [stun_only], [pins], [conflict],
      [never_returns], [learnt]).

    ** What is not modelled

    - Of agent.c the builds without consent freshness and with local address
      translation, agent_destroy, and threads and locks: the calls are made one
      after the other, and the resolver thread appears as the sections it runs
      locked.
    - Of conn_mux.c, conn_poll.c, conn_thread.c and conn.c the list of registries by
      port, threads and sockets themselves (poll and recvfrom are what they report;
      what interrupts them, the field for differentiated services), and locks: a
      call of the thread and a call of the application are steps of their own, in
      any order.  Callbacks that call back into the agent that makes them.
    - udp.c, log.c, timestamp.c: system calls and the C library.  The loop of the
      server appears as the sequence of its steps.
    - Of srtp.c everything but replay protection (and of key.c the limits): it combines ciphers of
      mbedTLS, which are not part of the repository.  Authentication and
      decryption appear as the status they end with.
    - Of usrsctp everything but the checksum: a third-party port of the FreeBSD
      stack, 80,000 lines over sockets, timers and locks of its own.
    - libdatachannel, the application (C++), the vendored H.264 bindings and the
      toolchain headers: not C code of the program's own logic.
    - Log output, and failing memory allocation except where a function handles
      it by a result of its own (the vectors of libsrtp) or it matters (the
      registry and the map of conn_mux.c).

    ** This file

    Outcomes of C code, machine integers, memory images, open addressing, their
    lemmas and tactics, and record update. *)

From stdpp Require Export base list numbers option.
From Stdlib Require Export ZArith Lia Bool.

#[global] Open Scope Z_scope.

(** ** Outcomes of C code

    A C function either leaves the modelled language (an access outside its
    object: [UB]), returns early with a value ([Return r]) or goes on with a
    new local state ([Next a]). *)
Inductive outcome (R A : Type) : Type :=
| UB : outcome R A
| Return (r : R) : outcome R A
| Next (a : A) : outcome R A.
Arguments UB {R A}.
Arguments Return {R A} r.
Arguments Next {R A} a.

Definition obind {R A B} (m : outcome R A) (f : A -> outcome R B) : outcome R B :=
  match m with
  | UB => UB
  | Return r => Return r
  | Next a => f a
  end.

Declare Scope c_scope.
Delimit Scope c_scope with c.
Notation "'let!' x := m 'in' k" := (obind m (fun x => k))
  (at level 10, x pattern, m at level 100, k at level 200) : c_scope.
Notation "'let?' x := m 'in' k" :=
  (match m with Some x => k | None => None end)
  (at level 10, x pattern, m at level 100, k at level 200) : c_scope.
#[global] Open Scope c_scope.

(** Running a body whose every path ends in a return. *)
Definition run {R} (m : outcome R R) : option R :=
  match m with
  | UB => None
  | Return r => Some r
  | Next r => Some r
  end.

Lemma obind_Next {R A B} (a : A) (f : A -> outcome R B) : obind (Next a) f = f a.
Proof. reflexivity. Qed.

Lemma obind_assoc {R A B C} (m : outcome R A) (f : A -> outcome R B) (g : B -> outcome R C) :
  obind (obind m f) g = obind m (fun a => obind (f a) g).
Proof. by destruct m. Qed.

(** ** Machine integers: values of [Z] with the wrap-around written out *)
Definition wrap (w : Z) (z : Z) : Z := z `mod` 2 ^ w.
Abbreviation u8 := (wrap 8).
Abbreviation u16 := (wrap 16).
Abbreviation u32 := (wrap 32).
Abbreviation u64 := (wrap 64).

(** [size_t], pointers and [unsigned long] are 32 bits wide on the target. *)
Abbreviation size_t := (wrap 32).

(** Two's complement reading of a 32-bit value, as a conversion to [int] does. *)
Definition s32 (z : Z) : Z := let x := u32 z in if x <? 2 ^ 31 then x else x - 2 ^ 32.

Definition is_byte (b : Z) : Prop := 0 <= b < 256.
Abbreviation bytes_ok := (Forall is_byte).
Definition is_byteb (b : Z) : bool := (0 <=? b) && (b <? 256).

(** A flag test [x & m] in a condition. *)
Definition flag (x m : Z) : bool := negb (Z.land x m =? 0).

Definition bswap16 (x : Z) : Z :=
  Z.lor (Z.shiftl (Z.land x 255) 8) (Z.land (Z.shiftr x 8) 255).
Definition bswap32 (x : Z) : Z :=
  Z.lor (Z.shiftl (bswap16 (Z.land x 65535)) 16) (bswap16 (Z.land (Z.shiftr x 16) 65535)).

(** The target is little-endian: network byte order is the swapped order. *)
Abbreviation htons := bswap16.
Abbreviation ntohs := bswap16.
Abbreviation htonl := bswap32.
Abbreviation ntohl := bswap32.

(** ** Memory images: lists of bytes, little-endian words *)
Definition lenZ {A} (l : list A) : Z := Z.of_nat (length l).

Fixpoint le_bytes (n : nat) (z : Z) : list Z :=
  match n with
  | O => []
  | S n' => z `mod` 256 :: le_bytes n' (z / 256)
  end.

Fixpoint le_word (bs : list Z) : Z :=
  match bs with
  | [] => 0
  | b :: bs' => b + 256 * le_word bs'
  end.

Definition be_bytes (n : nat) (z : Z) : list Z := rev (le_bytes n z).
Definition be_word (bs : list Z) : Z := le_word (rev bs).

(** [n] bytes at offset [off], when they are inside the object. *)
Definition load {A} (off n : Z) (mem : list A) : option (list A) :=
  if (0 <=? off) && (0 <=? n) && (off + n <=? lenZ mem)
  then Some (take (Z.to_nat n) (drop (Z.to_nat off) mem))
  else None.

(** Overwrite the bytes at [off], when they are inside the object. *)
Definition store {A} (off : Z) (bs mem : list A) : option (list A) :=
  if (0 <=? off) && (off + lenZ bs <=? lenZ mem)
  then Some (take (Z.to_nat off) mem ++ bs ++ drop (Z.to_nat off + length bs) mem)
  else None.

Definition load16 (off : Z) (mem : list Z) : option Z :=
  let? bs := load off 2 mem in Some (le_word bs).
Definition load32 (off : Z) (mem : list Z) : option Z :=
  let? bs := load off 4 mem in Some (le_word bs).

(** Lift a memory access into a body: outside the object is [UB]. *)
Definition acc {R A} (m : option A) : outcome R A :=
  match m with Some a => Next a | None => UB end.

(** The C string at the start of a character array: its bytes up to the NUL. *)
Fixpoint cstr (bs : list Z) : list Z :=
  match bs with
  | [] => []
  | b :: bs' => if b =? 0 then [] else b :: cstr bs'
  end.

(** ** Tactics *)
Ltac zify_bool :=
  repeat match goal with
  | H : _ && _ = true |- _ => apply andb_true_iff in H; destruct H
  | H : _ || _ = false |- _ => apply orb_false_iff in H; destruct H
  | H : negb _ = true |- _ => apply negb_true_iff in H
  | H : negb _ = false |- _ => apply negb_false_iff in H
  | H : (_ <=? _) = true |- _ => apply Z.leb_le in H
  | H : (_ <=? _) = false |- _ => apply Z.leb_gt in H
  | H : (_ <? _) = true |- _ => apply Z.ltb_lt in H
  | H : (_ <? _) = false |- _ => apply Z.ltb_ge in H
  | H : (_ =? _) = true |- _ => apply Z.eqb_eq in H
  | H : (_ =? _) = false |- _ => apply Z.eqb_neq in H
  end.

(** Case on the first boolean test or match of the goal. *)
Ltac case_test :=
  match goal with
  | |- context [if ?b then _ else _] => let E := fresh "E" in destruct b eqn:E
  end.

Ltac case_tests := repeat (case_test; zify_bool; simplify_eq/=; try done; try lia).

Ltac solve_len := unfold lenZ in *; simpl; repeat rewrite ?length_app, ?length_rev,
  ?length_take, ?length_drop, ?length_replicate; simpl; lia.

(** ** Arithmetic and word lemmas *)
Lemma wrap_range w z : 0 <= w -> 0 <= wrap w z < 2 ^ w.
Proof. intros. apply Z.mod_pos_bound. lia. Qed.

Lemma wrap_small w z : 0 <= z < 2 ^ w -> wrap w z = z.
Proof. apply Z.mod_small. Qed.

Lemma s32_small z : Z.abs z < 2 ^ 31 -> s32 z = z.
Proof. intros Hz. unfold s32. destruct (decide (0 <= z)); cbv zeta.
  - rewrite wrap_small by lia. by rewrite (proj2 (Z.ltb_lt _ _)) by lia.
  - assert (u32 z = z + 2 ^ 32) as ->.
    { unfold wrap. rewrite <- (Z.mod_add z 1) by lia. apply Z.mod_small. lia. }
    rewrite (proj2 (Z.ltb_ge _ _)) by lia. lia.
Qed.

Lemma wrap_wrap w z : wrap w (wrap w z) = wrap w z.
Proof. apply Zmod_mod. Qed.

Lemma land_ones_mod w z : 0 <= w -> Z.land z (2 ^ w - 1) = z `mod` 2 ^ w.
Proof.
  intros. rewrite <- Z.land_ones by lia. f_equal. rewrite Z.ones_equiv. lia.
Qed.

Lemma land_255 z : Z.land z 255 = z `mod` 256.
Proof. apply (land_ones_mod 8); lia. Qed.

Lemma land_65535 z : Z.land z 65535 = z `mod` 65536.
Proof. apply (land_ones_mod 16); lia. Qed.

Lemma land_3 z : Z.land z 3 = z `mod` 4.
Proof. apply (land_ones_mod 2); lia. Qed.

(** Disjoint bit fields: [lor] is addition. *)
Lemma lor_shiftl_add a b n :
  0 <= n -> 0 <= b < 2 ^ n -> Z.lor (Z.shiftl a n) b = a * 2 ^ n + b.
Proof.
  intros Hn Hb. rewrite Z.shiftl_mul_pow2 by lia.
  rewrite <- Z.add_lor_land.
  enough (Z.land (a * 2 ^ n) b = 0) by lia.
  apply Z.bits_inj'. intros i Hi. rewrite Z.land_spec, Z.bits_0.
  rewrite <- Z.shiftl_mul_pow2 by lia.
  destruct (Z.lt_ge_cases i n).
  - by rewrite Z.shiftl_spec_low.
  - rewrite andb_comm. destruct (decide (b = 0)) as [-> | Hb0].
    + by rewrite Z.bits_0.
    + rewrite Z.bits_above_log2; [done | lia |].
      assert (Z.log2 b < n) by (apply Z.log2_lt_pow2; lia). lia.
Qed.

Ltac lia_mod := Z.div_mod_to_equations; lia.

Lemma bswap16_eq x : bswap16 x = x `mod` 256 * 256 + (x / 256) `mod` 256.
Proof.
  unfold bswap16. rewrite !land_255, Z.shiftr_div_pow2 by lia.
  rewrite lor_shiftl_add; change (2 ^ 8) with 256; lia_mod.
Qed.

Lemma bswap16_range x : 0 <= bswap16 x < 65536.
Proof. rewrite bswap16_eq. lia_mod. Qed.

Lemma bswap32_eq x :
  bswap32 x = bswap16 (x `mod` 65536) * 65536 + bswap16 ((x / 65536) `mod` 65536).
Proof.
  unfold bswap32. rewrite !land_65535, Z.shiftr_div_pow2 by lia.
  rewrite lor_shiftl_add; change (2 ^ 16) with 65536; [done | lia | apply bswap16_range].
Qed.

Lemma bswap32_range x : 0 <= bswap32 x < 2 ^ 32.
Proof.
  rewrite bswap32_eq. pose proof (bswap16_range (x `mod` 65536)).
  pose proof (bswap16_range ((x / 65536) `mod` 65536)). lia.
Qed.

Lemma bswap16_involutive x : 0 <= x < 65536 -> bswap16 (bswap16 x) = x.
Proof. intros. rewrite !bswap16_eq. lia_mod. Qed.

Lemma bswap32_involutive x : 0 <= x < 2 ^ 32 -> bswap32 (bswap32 x) = x.
Proof. intros. rewrite !bswap32_eq, !bswap16_eq. lia_mod. Qed.

(** ** Byte images *)
Lemma lenZ_nonneg {A} (l : list A) : 0 <= lenZ l.
Proof. unfold lenZ. lia. Qed.
Lemma lenZ_app {A} (l k : list A) : lenZ (l ++ k) = lenZ l + lenZ k.
Proof. unfold lenZ. rewrite length_app. lia. Qed.
Lemma lenZ_cons {A} (a : A) l : lenZ (a :: l) = 1 + lenZ l.
Proof. unfold lenZ. simpl. lia. Qed.
Lemma lenZ_nil {A} : lenZ (@nil A) = 0.
Proof. done. Qed.
Lemma lenZ_replicate {A} n (a : A) : lenZ (replicate n a) = Z.of_nat n.
Proof. unfold lenZ. by rewrite length_replicate. Qed.
Lemma lenZ_drop {A} n (l : list A) : Z.of_nat n <= lenZ l -> lenZ (drop n l) = lenZ l - Z.of_nat n.
Proof. unfold lenZ. rewrite length_drop. lia. Qed.

Lemma length_le_bytes n z : length (le_bytes n z) = n.
Proof. revert z. induction n; intros; simpl; auto. Qed.
Lemma length_be_bytes n z : length (be_bytes n z) = n.
Proof. unfold be_bytes. by rewrite length_rev, length_le_bytes. Qed.
Lemma lenZ_le_bytes n z : lenZ (le_bytes n z) = Z.of_nat n.
Proof. unfold lenZ. by rewrite length_le_bytes. Qed.
Lemma lenZ_be_bytes n z : lenZ (be_bytes n z) = Z.of_nat n.
Proof. unfold lenZ. by rewrite length_be_bytes. Qed.

Create HintDb bytes.
Create Rewrite HintDb bytes.
#[export] Hint Rewrite @lenZ_app @lenZ_cons @lenZ_nil @lenZ_replicate lenZ_le_bytes lenZ_be_bytes : bytes.
Ltac lens := autorewrite with bytes in *; try lia.

Lemma bytes_le_bytes n z : bytes_ok (le_bytes n z).
Proof.
  revert z. induction n; intros; simpl; constructor; auto.
  unfold is_byte. apply Z.mod_pos_bound. lia.
Qed.
Lemma bytes_be_bytes n z : bytes_ok (be_bytes n z).
Proof. apply Forall_rev, bytes_le_bytes. Qed.
#[export] Hint Resolve bytes_le_bytes bytes_be_bytes Forall_nil_2 : bytes.

Lemma le_word_le_bytes n z : le_word (le_bytes n z) = z `mod` 2 ^ (8 * Z.of_nat n).
Proof.
  revert z. induction n as [|n IH]; intros z; simpl le_bytes; simpl le_word.
  - by rewrite Z.mod_1_r.
  - rewrite IH. replace (8 * Z.of_nat (S n)) with (8 + 8 * Z.of_nat n) by lia.
    rewrite Z.pow_add_r by lia. change (2 ^ 8) with 256.
    assert (0 < 2 ^ (8 * Z.of_nat n)) by (apply Z.pow_pos_nonneg; lia).
    rewrite Z.rem_mul_r by lia. lia.
Qed.

Lemma le_word_range bs : bytes_ok bs -> 0 <= le_word bs < 2 ^ (8 * lenZ bs).
Proof.
  induction 1 as [|b bs Hb Hbs IH]; simpl; [by vm_compute |].
  rewrite lenZ_cons. rewrite Z.mul_add_distr_l, Z.pow_add_r by (pose proof (lenZ_nonneg bs); lia).
  unfold is_byte in Hb. change (2 ^ (8 * 1)) with 256. nia.
Qed.

Lemma le_bytes_le_word bs : bytes_ok bs -> le_bytes (length bs) (le_word bs) = bs.
Proof.
  induction 1 as [|b bs Hb Hbs IH]; simpl; [done |]. unfold is_byte in Hb.
  set (w := le_word bs) in *.
  replace ((b + 256 * w) `mod` 256) with b by lia_mod.
  replace ((b + 256 * w) / 256) with w by lia_mod.
  by rewrite IH.
Qed.

Lemma be_word_be_bytes n z : be_word (be_bytes n z) = z `mod` 2 ^ (8 * Z.of_nat n).
Proof. unfold be_word, be_bytes. rewrite rev_involutive. apply le_word_le_bytes. Qed.

(** A swapped word in memory is the word in network byte order. *)
Lemma le_bytes_bswap16 x : le_bytes 2 (bswap16 x) = be_bytes 2 x.
Proof.
  rewrite bswap16_eq. unfold be_bytes. simpl.
  repeat (apply (f_equal2 cons); [lia_mod |]); done.
Qed.
Lemma le_bytes_bswap32 x : le_bytes 4 (bswap32 x) = be_bytes 4 x.
Proof.
  rewrite bswap32_eq, !bswap16_eq. unfold be_bytes. simpl.
  repeat (apply (f_equal2 cons); [lia_mod |]); done.
Qed.
#[export] Hint Rewrite le_bytes_bswap16 le_bytes_bswap32 : bytes.

(** ** Loads and stores *)
Lemma load_some {A} off n (mem bs : list A) :
  load off n mem = Some bs ->
  0 <= off /\ 0 <= n /\ off + n <= lenZ mem /\
  bs = take (Z.to_nat n) (drop (Z.to_nat off) mem) /\ lenZ bs = n.
Proof.
  unfold load. case_test; intros [= <-]. zify_bool.
  repeat split; try lia. unfold lenZ in *. rewrite length_take, length_drop. lia.
Qed.

Lemma load_ok {A} off n (mem : list A) :
  0 <= off -> 0 <= n -> off + n <= lenZ mem ->
  load off n mem = Some (take (Z.to_nat n) (drop (Z.to_nat off) mem)).
Proof. intros. unfold load. case_tests. Qed.

Lemma load_mid {A} off n (pre x post : list A) :
  off = lenZ pre -> n = lenZ x -> load off n (pre ++ x ++ post) = Some x.
Proof.
  intros -> ->. rewrite load_ok by (rewrite ?lenZ_app; pose proof (lenZ_nonneg pre);
    pose proof (lenZ_nonneg x); pose proof (lenZ_nonneg post); lia).
  unfold lenZ. rewrite !Nat2Z.id, drop_app_length, take_app_length. done.
Qed.

Lemma load_all {A} n (mem : list A) : n = lenZ mem -> load 0 n mem = Some mem.
Proof.
  intros ->. rewrite <- (app_nil_r mem) at 2. rewrite <- (app_nil_l (mem ++ [])).
  by apply load_mid.
Qed.

Lemma store_mid {A} off (bs pre old post : list A) :
  off = lenZ pre -> length old = length bs ->
  store off bs (pre ++ old ++ post) = Some (pre ++ bs ++ post).
Proof.
  intros -> Hl. unfold store.
  assert (Ho : lenZ old = lenZ bs) by (unfold lenZ; lia).
  rewrite !lenZ_app, Ho. pose proof (lenZ_nonneg pre). pose proof (lenZ_nonneg post).
  case_test; zify_bool; [|apply andb_false_iff in E as [E|E]; zify_bool; lia].
  unfold lenZ. rewrite Nat2Z.id, take_app_length. do 3 f_equal.
  by rewrite (app_assoc pre), <- Hl, <- length_app, drop_app_length.
Qed.

Lemma store_some {A} off (bs mem mem' : list A) :
  store off bs mem = Some mem' -> 0 <= off /\ off + lenZ bs <= lenZ mem /\ lenZ mem' = lenZ mem.
Proof.
  unfold store. case_test; intros [= <-]. zify_bool. split; [lia|]. split; [lia|].
  rewrite !lenZ_app. unfold lenZ in *. rewrite length_take, length_drop. lia.
Qed.

Lemma cstr_no_nul s : Forall (fun b => b <> 0) s -> cstr s = s.
Proof.
  induction 1 as [|b s Hb Hs IH]; simpl; [done|].
  case_test; zify_bool; [done | by rewrite IH].
Qed.

Lemma cstr_app_nul s rest : Forall (fun b => b <> 0) s -> cstr (s ++ 0 :: rest) = s.
Proof.
  induction 1 as [|b s Hb Hs IH]; simpl; [done|].
  case_test; zify_bool; [done | by rewrite IH].
Qed.

Lemma cstr_nonzero s : Forall (fun b => b <> 0) (cstr s).
Proof.
  induction s as [|b s IH]; simpl; [done|]. case_test; zify_bool; [done|by constructor].
Qed.

Lemma length_cstr s : (length (cstr s) <= length s)%nat.
Proof. induction s; simpl; [lia|]. case_test; simpl; lia. Qed.

#[export] Hint Resolve cstr_nonzero : bytes.

(** ** Bitwise helpers on bounded words *)
Lemma testbit_above w z i : 0 <= z < 2 ^ w -> w <= i -> Z.testbit z i = false.
Proof.
  intros [H0 H1] Hi. destruct (decide (z = 0)) as [->|Hz]; [apply Z.bits_0|].
  apply Z.bits_above_log2; [lia|]. assert (Z.log2 z < w) by (apply Z.log2_lt_pow2; lia). lia.
Qed.

Lemma bounded_by_bits w z :
  0 <= w -> 0 <= z -> (forall i, w <= i -> Z.testbit z i = false) -> z < 2 ^ w.
Proof.
  intros Hw Hz Hb. destruct (decide (z = 0)) as [->|]; [apply Z.pow_pos_nonneg; lia|].
  apply Z.log2_lt_pow2; [lia|]. apply Z.nle_gt. intros Hle.
  specialize (Hb _ Hle). by rewrite Z.bit_log2 in Hb by lia.
Qed.

Lemma lxor_range w a b : 0 <= w -> 0 <= a < 2 ^ w -> 0 <= b < 2 ^ w -> 0 <= Z.lxor a b < 2 ^ w.
Proof.
  intros Hw Ha Hb. assert (0 <= Z.lxor a b) by (apply Z.lxor_nonneg; lia).
  split; [done|]. apply bounded_by_bits; [done..|]. intros i Hi.
  by rewrite Z.lxor_spec, !(testbit_above w).
Qed.

Lemma lor_range w a b : 0 <= w -> 0 <= a < 2 ^ w -> 0 <= b < 2 ^ w -> 0 <= Z.lor a b < 2 ^ w.
Proof.
  intros Hw Ha Hb. assert (0 <= Z.lor a b) by (apply Z.lor_nonneg; lia).
  split; [done|]. apply bounded_by_bits; [done..|]. intros i Hi.
  by rewrite Z.lor_spec, !(testbit_above w).
Qed.

Lemma lxor_byte a b : is_byte a -> is_byte b -> is_byte (Z.lxor a b).
Proof. apply (lxor_range 8). lia. Qed.

Lemma lxor_cancel_r a m : Z.lxor (Z.lxor a m) m = a.
Proof. by rewrite Z.lxor_assoc, Z.lxor_nilpotent, Z.lxor_0_r. Qed.

(** ** Open addressing

    The loop by which the hash tables of libjuice look for an element at which
    to stop, from [pos] on until it is back at [key]. *)
Section Probing.
Context {T : Type} (stop : T -> bool) (l : list T).

Fixpoint probe (fuel : nat) (key pos : Z) : option (option nat) :=
  match fuel with
  | O => None
  | S fuel' =>
    let? e := l !! Z.to_nat pos in
    if stop e then Some (Some (Z.to_nat pos))
    else
      let pos := u32 (pos + 1) `mod` lenZ l in
      if pos =? key then Some None else probe fuel' key pos
  end.

(** The [k]-th element looked at, and that it is the first to stop the loop. *)
Definition probe_slot (key : Z) (k : nat) : nat := Z.to_nat ((key + Z.of_nat k) `mod` lenZ l).
Definition probe_stops (key : Z) (k : nat) : Prop :=
  Z.of_nat k < lenZ l /\ (exists e, l !! probe_slot key k = Some e /\ stop e = true) /\
  forall j e, (j < k)%nat -> l !! probe_slot key j = Some e -> stop e = false.

Lemma probe_slot_lt key k : 0 < lenZ l -> (probe_slot key k < length l)%nat.
Proof. intros Hl. unfold probe_slot. pose proof (Z.mod_pos_bound (key + Z.of_nat k) (lenZ l) Hl). unfold lenZ in *. lia. Qed.

Lemma probe_slot_covers key i : (i < length l)%nat -> exists k, Z.of_nat k < lenZ l /\ probe_slot key k = i.
Proof.
  intros Hi. assert (Hn : Z.of_nat i < lenZ l) by (unfold lenZ; lia). set (n := lenZ l) in *.
  exists (Z.to_nat ((Z.of_nat i - key) `mod` n)). unfold probe_slot. fold n.
  pose proof (Z.mod_pos_bound (Z.of_nat i - key) n ltac:(lia)). rewrite Z2Nat.id by lia. split; [lia|].
  rewrite Zplus_mod_idemp_r. replace (key + (Z.of_nat i - key)) with (Z.of_nat i) by lia. rewrite Z.mod_small by lia. lia.
Qed.

Lemma probe_loop key : 0 <= key < lenZ l -> lenZ l < 2 ^ 31 -> forall fuel k,
  (fuel + k)%nat = length l -> (0 < fuel)%nat ->
  (forall j e, (j < k)%nat -> l !! probe_slot key j = Some e -> stop e = false) ->
  (exists k', probe_stops key k' /\ probe fuel key ((key + Z.of_nat k) `mod` lenZ l) = Some (Some (probe_slot key k'))) \/
  (probe fuel key ((key + Z.of_nat k) `mod` lenZ l) = Some None /\ forall i e, l !! i = Some e -> stop e = false).
Proof.
  intros Hkey Hl. induction fuel as [|fuel IH]; intros k Hk Hpos Hbefore; [lia|].
  assert (Hn : lenZ l = Z.of_nat (length l)) by done. set (n := lenZ l) in *.
  destruct (lookup_lt_is_Some_2 l (probe_slot key k)) as [e He]; [apply probe_slot_lt; fold n; lia|].
  cbn [probe]. change (Z.to_nat ((key + Z.of_nat k) `mod` n)) with (probe_slot key k). rewrite He. cbn. destruct (stop e) eqn:Es.
  { left. exists k. split; [|done]. split; [fold n; lia|]. split; [by exists e|done]. }
  assert (Hstep : forall j e', (j < S k)%nat -> l !! probe_slot key j = Some e' -> stop e' = false).
  { intros j e' Hj He'. destruct (decide (j = k)) as [->|]; [congruence|apply (Hbefore j); [lia|done]]. }
  fold n. rewrite (wrap_small 32) by (pose proof (Z.mod_pos_bound (key + Z.of_nat k) n ltac:(lia)); lia).
  rewrite Zplus_mod_idemp_l. replace (key + Z.of_nat k + 1) with (key + Z.of_nat (S k)) by lia.
  destruct (Z.eqb_spec ((key + Z.of_nat (S k)) `mod` n) key) as [Ek|Ek].
  - right. split; [done|]. intros i e' Hi.
    assert (Hall : Z.of_nat (S k) = n).
    { destruct (Z.lt_ge_cases (Z.of_nat (S k)) n) as [Hlt|]; [|lia]. exfalso.
      revert Ek. destruct (Z.lt_ge_cases (key + Z.of_nat (S k)) n); [rewrite Z.mod_small by lia; lia|].
      rewrite <- (Z_mod_plus_full _ (-1)), Z.mod_small by lia. lia. }
    destruct (probe_slot_covers key i) as (j & Hj & Hslot); [by apply lookup_lt_Some with e'|].
    apply (Hstep j); [fold n in Hj; lia|]. by rewrite Hslot.
  - destruct fuel as [|fuel]; [|apply IH; [lia|lia|done]]. exfalso. apply Ek.
    replace (Z.of_nat (S k)) with n by lia. rewrite <- Zplus_mod_idemp_r, Z.mod_same, Z.add_0_r by lia. by apply Z.mod_small.
Qed.

(** The loop ends: at the first element that stops it, or there is none. *)
Lemma probe_spec key : 0 <= key < lenZ l -> lenZ l < 2 ^ 31 ->
  (exists k, probe_stops key k /\ probe (length l) key key = Some (Some (probe_slot key k))) \/
  (probe (length l) key key = Some None /\ forall i e, l !! i = Some e -> stop e = false).
Proof.
  intros Hkey Hl. pose proof (probe_loop key Hkey Hl (length l) 0 ltac:(lia)) as Hp.
  rewrite Z.add_0_r, Z.mod_small in Hp by lia. apply Hp; [unfold lenZ in *; lia|lia].
Qed.

Lemma probe_stops_unique key k k' : probe_stops key k -> probe_stops key k' -> k = k'.
Proof.
  intros (_ & (e & He & Hs) & Hb) (_ & (e' & He' & Hs') & Hb').
  destruct (lt_eq_lt_dec k k') as [[Hlt|]|Hlt]; [|done|].
  - by rewrite (Hb' k e Hlt He) in Hs.
  - by rewrite (Hb k' e' Hlt He') in Hs'.
Qed.

Lemma probe_first key i : 0 <= key < lenZ l -> lenZ l < 2 ^ 31 ->
  probe (length l) key key = Some (Some i) <-> exists k, probe_stops key k /\ i = probe_slot key k.
Proof.
  intros Hkey Hl. destruct (probe_spec key Hkey Hl) as [(k & Hk & ->)|[-> Hall]].
  - split; [intros [= <-]; by exists k|]. intros (k' & Hk' & ->). by rewrite (probe_stops_unique key k k').
  - split; [done|]. intros (k & (_ & (e & He & Hs) & _) & _). by rewrite (Hall _ _ He) in Hs.
Qed.

(** A search that ended at [k] still ends there when another element is written,
    unless the new one stops it earlier. *)
Lemma probe_stops_insert key k i e e' : probe_stops key k -> l !! i = Some e ->
  (probe_slot key k = i -> stop e' = true) -> (probe_slot key k <> i -> stop e = true \/ stop e' = false) ->
  Z.of_nat k < lenZ l /\ (exists x, <[i := e']> l !! probe_slot key k = Some x /\ stop x = true) /\
  forall j x, (j < k)%nat -> <[i := e']> l !! probe_slot key j = Some x -> stop x = false.
Proof.
  intros (Hk & (ek & Hek & Hstop) & Hb) Hi Heq Hne. pose proof (lookup_lt_Some _ _ _ Hi) as Hlt. split; [done|]. split.
  - destruct (decide (probe_slot key k = i)) as [Hki|Hki].
    + exists e'. rewrite Hki, list_lookup_insert_eq by done. auto.
    + exists ek. by rewrite list_lookup_insert_ne by done.
  - intros q x Hq Hx. destruct (decide (probe_slot key q = i)) as [Hqi|Hqi].
    + rewrite Hqi, list_lookup_insert_eq in Hx by done. injection Hx as <-. rewrite <- Hqi in Hi.
      pose proof (Hb q e Hq Hi) as He. destruct (decide (probe_slot key k = i)) as [Hki|Hki].
      * rewrite <- Hqi in Hki. rewrite Hki, Hi in Hek. injection Hek as <-. congruence.
      * destruct (Hne Hki); congruence.
    + rewrite list_lookup_insert_ne in Hx by done. by apply (Hb q).
Qed.
End Probing.

Lemma probe_slot_length {T} (l l' : list T) key k : length l = length l' -> probe_slot l key k = probe_slot l' key k.
Proof. intros Hl. unfold probe_slot, lenZ. by rewrite Hl. Qed.

Lemma probe_insert {T} (stop : T -> bool) l key k i e e' : probe_stops stop l key k -> l !! i = Some e ->
  (probe_slot l key k = i -> stop e' = true) -> (probe_slot l key k <> i -> stop e = true \/ stop e' = false) ->
  probe_stops stop (<[i := e']> l) key k.
Proof.
  intros Hk Hi Heq Hne. destruct (probe_stops_insert stop l key k i e e' Hk Hi Heq Hne) as (H1 & H2 & H3).
  unfold probe_stops, lenZ. rewrite length_insert. split; [done|].
  split; [destruct H2 as (x & Hx & Hs); exists x; by rewrite (probe_slot_length _ l) by apply length_insert|].
  intros j x Hj. rewrite (probe_slot_length _ l) by apply length_insert. by apply H3.
Qed.

(** The loop sees of an element only whether it stops there. *)
Lemma probe_fmap {T} (stop : T -> bool) (f : T -> T) l fuel key pos : (forall e, stop (f e) = stop e) ->
  probe stop (f <$> l) fuel key pos = probe stop l fuel key pos.
Proof.
  intros Hf. revert pos. induction fuel as [|fuel IH]; intros pos; [done|]. cbn [probe]. rewrite list_lookup_fmap.
  destruct (l !! Z.to_nat pos) as [e|]; [|done]. cbn. rewrite Hf. case_match; [done|].
  unfold lenZ. rewrite length_fmap. case_match; [done|]. apply IH.
Qed.

(** ** Record update: [r <| field := v |>] and [r <| field ::= f |>]

    A record type declares its expansion [fun r => mk (f1 r) ... (fn r)] as an
    instance of [Expand]; the updater of a field is found by replacing that
    field's projection in the expansion. *)
Class Expand (R : Type) := expand : R -> R.
Class Updater {R E : Type} (get : R -> E) := updater : (E -> E) -> R -> R.

Ltac build_updater R E get :=
  let ex := constr:(_ : Expand R) in
  exact (fun (modify__ : E -> E) (record__ : R) => ltac:(
    let body := eval hnf in (ex record__) in
    match body with context C [get record__] => let b := context C [modify__ (get record__)] in exact b end)).

#[global] Hint Extern 1 (@Updater ?R ?E ?get) => build_updater R E get : typeclass_instances.

Definition upd {R E} (get : R -> E) {u : Updater get} (f : E -> E) (r : R) : R := u f r.
Arguments upd {R E} get {u} f r /.

Declare Scope record_scope.
Notation "r <| f := v |>" := (upd f (fun _ => v) r)
  (at level 12, f constr at level 9, v constr at level 99, left associativity) : record_scope.
Notation "r <| f ::= g |>" := (upd f g r)
  (at level 12, f constr at level 9, g constr at level 99, left associativity) : record_scope.
#[global] Open Scope record_scope.
