(* ===== verification/ConstTime.v ===== *)
(** * const_time.c: comparisons whose running time does not depend on the data *)

From S2P Require Import Prelude.

(** [const_time_memcmp]: [x |= ca[i] ^ cb[i]] over [len] bytes. *)
Fixpoint const_time_memcmp_loop (n i : nat) (x : Z) (ca cb : list Z) : option Z :=
  match n with
  | O => Some x
  | S n' =>
    match ca !! i, cb !! i with
    | Some p, Some q => const_time_memcmp_loop n' (S i) (u8 (Z.lor x (Z.lxor p q))) ca cb
    | _, _ => None
    end
  end.

Definition const_time_memcmp (a b : list Z) (len : Z) : option Z :=
  const_time_memcmp_loop (Z.to_nat len) 0 0 a b.

(** [const_time_strcmp] runs to the first NUL of either string. *)
Fixpoint const_time_strcmp_loop (x : Z) (ca cb : list Z) : option Z :=
  match ca, cb with
  | p :: ca', q :: cb' =>
    let x' := u8 (Z.lor x (Z.lxor p q)) in
    if (p =? 0) || (q =? 0) then Some x' else const_time_strcmp_loop x' ca' cb'
  | _, _ => None
  end.

Definition const_time_strcmp (a b : list Z) : option Z := const_time_strcmp_loop 0 a b.

(** ** Lemmas *)
Lemma acc_zero x p q :
  is_byte x -> is_byte p -> is_byte q ->
  is_byte (u8 (Z.lor x (Z.lxor p q))) /\ (u8 (Z.lor x (Z.lxor p q)) = 0 <-> x = 0 /\ p = q).
Proof.
  intros Hx Hp Hq.
  assert (Hr : is_byte (Z.lor x (Z.lxor p q))) by (apply (lor_range 8); [lia|done|by apply lxor_byte]).
  rewrite wrap_small by apply Hr. split; [done|].
  rewrite Z.lor_eq_0_iff, Z.lxor_eq_0_iff. done.
Qed.

Lemma memcmp_loop_spec n i x ca cb :
  bytes_ok ca -> bytes_ok cb -> is_byte x ->
  (i + n <= length ca)%nat -> (i + n <= length cb)%nat ->
  exists r, const_time_memcmp_loop n i x ca cb = Some r /\ is_byte r /\
    (r = 0 <-> x = 0 /\ take n (drop i ca) = take n (drop i cb)).
Proof.
  intros Hca Hcb. revert i x. induction n as [|n IH]; intros i x Hx Hla Hlb; simpl.
  { exists x. rewrite !take_0. tauto. }
  destruct (lookup_lt_is_Some_2 ca i) as [p Hp]; [lia|].
  destruct (lookup_lt_is_Some_2 cb i) as [q Hq]; [lia|].
  rewrite Hp, Hq.
  destruct (acc_zero x p q) as [Hb Hz];
    [done | by eapply (Forall_lookup_1 _ ca) | by eapply (Forall_lookup_1 _ cb) |].
  edestruct (IH (S i)) as (r & Hr & Hrb & Hrz); [exact Hb | lia | lia |].
  exists r. split; [done|]. split; [done|]. rewrite Hrz, Hz.
  rewrite (drop_S ca _ _ Hp), (drop_S cb _ _ Hq). simpl.
  split; [intros [[-> ->] ->] | intros [-> [= -> ->]]]; done.
Qed.

(** over byte arrays of at least [len] bytes, [const_time_memcmp] stays
    inside both arrays and is zero exactly when the first [len] bytes agree. *)
Theorem const_time_memcmp_eq a b len :
  bytes_ok a -> bytes_ok b -> 0 <= len <= lenZ a -> len <= lenZ b ->
  exists r, const_time_memcmp a b len = Some r /\
    (r = 0 <-> take (Z.to_nat len) a = take (Z.to_nat len) b).
Proof.
  intros Ha Hb Hl Hl'. unfold lenZ in *.
  destruct (memcmp_loop_spec (Z.to_nat len) 0 0 a b) as (r & Hr & _ & Hz);
    [done | done | done | lia | lia |].
  exists r. split; [done|]. rewrite Hz, !drop_0. tauto.
Qed.

Lemma strcmp_loop_spec x ca cb :
  bytes_ok ca -> bytes_ok cb -> is_byte x -> In 0 ca -> In 0 cb ->
  exists r, const_time_strcmp_loop x ca cb = Some r /\ (r = 0 <-> x = 0 /\ cstr ca = cstr cb).
Proof.
  intros Hca. revert x cb. induction Hca as [|p ca Hp Hca IH]; intros x cb Hcb Hx Ha Hb; [done|].
  destruct Hcb as [|q cb Hq Hcb]; [done|]. simpl.
  destruct (acc_zero x p q) as [Hxb Hz]; [done..|].
  case_test.
  - eexists. split; [done|]. rewrite Hz. apply orb_true_iff in E as [E|E]; zify_bool; subst; simpl;
      case_tests; split; intros [? ?]; split; congruence || done.
  - zify_bool. destruct Ha as [->|Ha]; [done|]. destruct Hb as [->|Hb]; [done|].
    edestruct IH as (r & Hr & Hrz); [exact Hcb | exact Hxb | done | done |].
    exists r. split; [done|]. rewrite Hrz, Hz. case_tests.
    split; [intros [[-> ->] ->] | intros [-> [= -> ->]]]; done.
Qed.

(** on two NUL-terminated strings, [const_time_strcmp] stops within both
    arrays and is zero exactly when the strings are equal. *)
Theorem const_time_strcmp_eq a b :
  bytes_ok a -> bytes_ok b -> In 0 a -> In 0 b ->
  exists r, const_time_strcmp a b = Some r /\ (r = 0 <-> cstr a = cstr b).
Proof.
  intros Ha Hb Hza Hzb.
  destruct (strcmp_loop_spec 0 a b) as (r & Hr & Hz); [done..|].
  exists r. split; [done|]. tauto.
Qed.

Ltac bytes := repeat (apply Forall_cons_2; [unfold is_byte; lia|]); apply Forall_nil_2.

Lemma const_time_memcmp_eq_witness :
  exists r, const_time_memcmp [1; 2; 3] [1; 2; 4] 3 = Some r /\
    (r = 0 <-> take (Z.to_nat 3) [1; 2; 3] = take (Z.to_nat 3) [1; 2; 4]).
Proof. apply (const_time_memcmp_eq [1; 2; 3] [1; 2; 4] 3); [bytes | bytes | split; [lia | reflexivity || done] | done]. Defined.

Lemma const_time_strcmp_eq_witness :
  exists r, const_time_strcmp [97; 0; 5] [97; 0] = Some r /\ (r = 0 <-> cstr [97; 0; 5] = cstr [97; 0]).
Proof. apply (const_time_strcmp_eq [97; 0; 5] [97; 0]); [bytes | bytes | simpl; tauto | simpl; tauto]. Defined.
