(* ===== verification/Picohash.v ===== *)
(** * picohash.h, hash.c, hmac.c: the hash functions

    [uint_fast32_t] is 32 bits wide on the target.  Arrays are lists of bytes;
    a store outside its array is undefined behaviour ([None]).  The operations
    of picohash.h update a context in place and keep its stale buffers, so
    they take the context they initialise; the union of the three hash
    contexts is a record of its members, only one of which is ever used. *)

From S2P Require Import Prelude.

(** ** MD5 *)

(** [_picohash_md5_ctx_t]; [md5_block] is [ctx->block]. *)
Record md5_ctx := mkMd5 {
  md5_lo : Z; md5_hi : Z;
  md5_a : Z; md5_b : Z; md5_c : Z; md5_d : Z;
  md5_buffer : list Z;
  md5_block : list Z
}.
#[export] Instance md5_expand : Expand md5_ctx := fun c =>
  mkMd5 (md5_lo c) (md5_hi c) (md5_a c) (md5_b c) (md5_c c) (md5_d c) (md5_buffer c) (md5_block c).

Definition md5_F (x y z : Z) : Z := Z.lxor z (Z.land x (Z.lxor y z)).
Definition md5_G (x y z : Z) : Z := Z.lxor y (Z.land z (Z.lxor x y)).
Definition md5_H (x y z : Z) : Z := Z.lxor (Z.lxor x y) z.
Definition md5_I (x y z : Z) : Z := Z.lxor y (Z.lor x (u32 (Z.lnot z))).

(** [_PICOHASH_MD5_STEP]: the new value of its first register. *)
Definition md5_step (f : Z -> Z -> Z -> Z) (a b c d x t s : Z) : Z :=
  let a := u32 (a + (f b c d + x + t)) in
  let a := Z.lor (u32 (Z.shiftl a s)) (Z.shiftr (Z.land a 0xffffffff) (32 - s)) in
  u32 (a + b).

(** A line of [_picohash_md5_body]: the function, the register it assigns (the
    other three follow it cyclically), the block word, the constant, the
    rotation. *)
Inductive md5_reg := Ra | Rb | Rc | Rd.
Inductive md5_line := STEP (f : Z -> Z -> Z -> Z) (r : md5_reg) (n : nat) (t s : Z).
Definition md5_regs : Type := Z * Z * Z * Z.

Definition md5_steps : list md5_line := [
  STEP md5_F Ra 0 0xd76aa478 7; STEP md5_F Rd 1 0xe8c7b756 12; STEP md5_F Rc 2 0x242070db 17; STEP md5_F Rb 3 0xc1bdceee 22;
  STEP md5_F Ra 4 0xf57c0faf 7; STEP md5_F Rd 5 0x4787c62a 12; STEP md5_F Rc 6 0xa8304613 17; STEP md5_F Rb 7 0xfd469501 22;
  STEP md5_F Ra 8 0x698098d8 7; STEP md5_F Rd 9 0x8b44f7af 12; STEP md5_F Rc 10 0xffff5bb1 17; STEP md5_F Rb 11 0x895cd7be 22;
  STEP md5_F Ra 12 0x6b901122 7; STEP md5_F Rd 13 0xfd987193 12; STEP md5_F Rc 14 0xa679438e 17; STEP md5_F Rb 15 0x49b40821 22;
  STEP md5_G Ra 1 0xf61e2562 5; STEP md5_G Rd 6 0xc040b340 9; STEP md5_G Rc 11 0x265e5a51 14; STEP md5_G Rb 0 0xe9b6c7aa 20;
  STEP md5_G Ra 5 0xd62f105d 5; STEP md5_G Rd 10 0x02441453 9; STEP md5_G Rc 15 0xd8a1e681 14; STEP md5_G Rb 4 0xe7d3fbc8 20;
  STEP md5_G Ra 9 0x21e1cde6 5; STEP md5_G Rd 14 0xc33707d6 9; STEP md5_G Rc 3 0xf4d50d87 14; STEP md5_G Rb 8 0x455a14ed 20;
  STEP md5_G Ra 13 0xa9e3e905 5; STEP md5_G Rd 2 0xfcefa3f8 9; STEP md5_G Rc 7 0x676f02d9 14; STEP md5_G Rb 12 0x8d2a4c8a 20;
  STEP md5_H Ra 5 0xfffa3942 4; STEP md5_H Rd 8 0x8771f681 11; STEP md5_H Rc 11 0x6d9d6122 16; STEP md5_H Rb 14 0xfde5380c 23;
  STEP md5_H Ra 1 0xa4beea44 4; STEP md5_H Rd 4 0x4bdecfa9 11; STEP md5_H Rc 7 0xf6bb4b60 16; STEP md5_H Rb 10 0xbebfbc70 23;
  STEP md5_H Ra 13 0x289b7ec6 4; STEP md5_H Rd 0 0xeaa127fa 11; STEP md5_H Rc 3 0xd4ef3085 16; STEP md5_H Rb 6 0x04881d05 23;
  STEP md5_H Ra 9 0xd9d4d039 4; STEP md5_H Rd 12 0xe6db99e5 11; STEP md5_H Rc 15 0x1fa27cf8 16; STEP md5_H Rb 2 0xc4ac5665 23;
  STEP md5_I Ra 0 0xf4292244 6; STEP md5_I Rd 7 0x432aff97 10; STEP md5_I Rc 14 0xab9423a7 15; STEP md5_I Rb 5 0xfc93a039 21;
  STEP md5_I Ra 12 0x655b59c3 6; STEP md5_I Rd 3 0x8f0ccc92 10; STEP md5_I Rc 10 0xffeff47d 15; STEP md5_I Rb 1 0x85845dd1 21;
  STEP md5_I Ra 8 0x6fa87e4f 6; STEP md5_I Rd 15 0xfe2ce6e0 10; STEP md5_I Rc 6 0xa3014314 15; STEP md5_I Rb 13 0x4e0811a1 21;
  STEP md5_I Ra 4 0xf7537e82 6; STEP md5_I Rd 11 0xbd3af235 10; STEP md5_I Rc 2 0x2ad7d2bb 15; STEP md5_I Rb 9 0xeb86d391 21
].

Definition md5_line_run (block : list Z) (st : md5_regs) (l : md5_line) : md5_regs :=
  let '(a, b, c, d) := st in
  let 'STEP f r n t s := l in
  let x := nth n block 0 in
  match r with
  | Ra => (md5_step f a b c d x t s, b, c, d)
  | Rd => (a, b, c, md5_step f d a b c x t s)
  | Rc => (a, b, md5_step f c d a b x t s, d)
  | Rb => (a, md5_step f b c d a x t s, c, d)
  end.

(** [_PICOHASH_MD5_SET] for the sixteen words of the block at [ptr]. *)
Definition md5_set (ptr : list Z) (n : nat) : Z :=
  let p := fun k => nth (n * 4 + k) ptr 0 in
  Z.lor (Z.lor (Z.lor (p 0%nat) (Z.shiftl (p 1%nat) 8)) (Z.shiftl (p 2%nat) 16)) (Z.shiftl (p 3%nat) 24).

(** The four rounds, and the addition of the saved registers. *)
Definition md5_block_regs (block : list Z) (st : md5_regs) : md5_regs :=
  let '(sa, sb, sc, sd) := st in
  let '(a, b, c, d) := fold_left (md5_line_run block) md5_steps st in
  (u32 (a + sa), u32 (b + sb), u32 (c + sc), u32 (d + sd)).

(** [_picohash_md5_body] on [data] of [size] bytes: the context and the
    remaining data.  [fuel] bounds the iterations of the do-while loop. *)
Fixpoint md5_body_loop (fuel : nat) (st : md5_regs) (block data : list Z) (size : Z)
    : option (md5_regs * list Z * list Z) :=
  match fuel with
  | O => None
  | S fuel' =>
    let? ptr := load 0 64 data in
    let block := map (md5_set ptr) (seq 0 16) in
    let st := md5_block_regs block st in
    let data := drop 64 data in
    let size := u32 (size - 64) in
    if size =? 0 then Some (st, block, data) else md5_body_loop fuel' st block data size
  end.

Definition md5_body (ctx : md5_ctx) (data : list Z) (size : Z) : option (md5_ctx * list Z) :=
  let? (a, b, c, d, block, rest) :=
    md5_body_loop (Z.to_nat (size / 64)) (md5_a ctx, md5_b ctx, md5_c ctx, md5_d ctx) (md5_block ctx) data size in
  Some (mkMd5 (md5_lo ctx) (md5_hi ctx) a b c d (md5_buffer ctx) block, rest).

Definition md5_init (ctx : md5_ctx) : md5_ctx :=
  mkMd5 0 0 0x67452301 0xefcdab89 0x98badcfe 0x10325476 (md5_buffer ctx) (md5_block ctx).

Definition md5_set_buffer (ctx : md5_ctx) (off : Z) (bs : list Z) : option md5_ctx :=
  let? buffer := store off bs (md5_buffer ctx) in Some (ctx <| md5_buffer := buffer |>).

(** The bit counters: [lo] keeps the low 29 bits of the byte count. *)
Definition md5_count (ctx : md5_ctx) (size : Z) : md5_ctx :=
  let saved_lo := md5_lo ctx in
  let lo := Z.land (u32 (saved_lo + size)) 0x1fffffff in
  let hi := if lo <? saved_lo then u32 (md5_hi ctx + 1) else md5_hi ctx in
  ctx <| md5_lo := lo |> <| md5_hi := u32 (hi + Z.shiftr size 29) |>.

(** The end of [_picohash_md5_update], from [if (size >= 64)]. *)
Definition md5_update_tail (ctx : md5_ctx) (data : list Z) : option md5_ctx :=
  let size := lenZ data in
  let? (ctx, data) :=
    (if 64 <=? size then md5_body ctx data (Z.land size (u32 (Z.lnot 0x3f))) else Some (ctx, data)) in
  md5_set_buffer ctx 0 data.

Definition md5_update (ctx : md5_ctx) (data : list Z) : option md5_ctx :=
  let size := lenZ data in
  let used := Z.land (md5_lo ctx) 0x3f in
  let ctx := md5_count ctx size in
  if negb (used =? 0) then
    let free := 64 - used in
    if size <? free then md5_set_buffer ctx used data
    else
      let? head := load 0 free data in
      let? ctx := md5_set_buffer ctx used head in
      let? (ctx, _) := md5_body ctx (md5_buffer ctx) 64 in
      md5_update_tail ctx (drop (Z.to_nat free) data)
  else md5_update_tail ctx data.

(** The end of [_picohash_md5_final]: zeros, the bit count, the last block and
    the 16 bytes of the digest; the context is cleared. *)
Definition md5_finish (ctx : md5_ctx) (used free : Z) : option (md5_ctx * list Z) :=
  let? ctx := md5_set_buffer ctx used (replicate (Z.to_nat (free - 8)) 0) in
  let lo := u32 (Z.shiftl (md5_lo ctx) 3) in
  let hi := md5_hi ctx in
  let out := fun x => [u8 x; u8 (Z.shiftr x 8); u8 (Z.shiftr x 16); u8 (Z.shiftr x 24)] in
  let? ctx := md5_set_buffer ctx 56 (out lo ++ out hi) in
  let? (ctx, _) := md5_body ctx (md5_buffer ctx) 64 in
  Some (mkMd5 0 0 0 0 0 0 (replicate 64 0) (replicate 16 0),
        out (md5_a ctx) ++ out (md5_b ctx) ++ out (md5_c ctx) ++ out (md5_d ctx)).

Definition md5_final (ctx : md5_ctx) : option (md5_ctx * list Z) :=
  let used := Z.land (md5_lo ctx) 0x3f in
  let? ctx := md5_set_buffer ctx used [0x80] in
  let used := used + 1 in
  let free := 64 - used in
  if free <? 8 then
    let? ctx := md5_set_buffer ctx used (replicate (Z.to_nat free) 0) in
    let? (ctx, _) := md5_body ctx (md5_buffer ctx) 64 in
    md5_finish ctx 0 64
  else md5_finish ctx used free.

(** ** SHA-1 *)

(** [_picohash_sha1_ctx_t]; the word array [buffer] is its 64 bytes. *)
Record sha1_ctx := mkSha1 {
  sha1_buffer : list Z;
  sha1_state : list Z;
  sha1_byteCount : Z;
  sha1_bufferOffset : Z
}.
#[export] Instance sha1_expand : Expand sha1_ctx := fun c =>
  mkSha1 (sha1_buffer c) (sha1_state c) (sha1_byteCount c) (sha1_bufferOffset c).

(** The parameter is converted to [uint32_t]. *)
Definition sha1_rol32 (number bits : Z) : Z :=
  let number := u32 number in
  Z.lor (u32 (Z.shiftl number bits)) (Z.shiftr number (32 - bits)).

Definition sha1_regs : Type := Z * Z * Z * Z * Z.

(** [(i + k) & 15] as an index. *)
Definition ring (i : nat) (k : nat) : nat := ((i + k) mod 16)%nat.

(** One iteration of the loop of [_picohash_sha1_hash_block]. *)
Definition sha1_round (i : nat) (w : list Z) (st : sha1_regs) : list Z * sha1_regs :=
  let at_ k := nth (ring i k) w 0 in
  let w :=
    if (16 <=? i)%nat then
      let t := Z.lxor (Z.lxor (Z.lxor (at_ 13%nat) (at_ 8%nat)) (at_ 2%nat)) (at_ 0%nat) in
      <[ring i 0 := sha1_rol32 t 1]> w
    else w in
  let '(a, b, c, d, e) := st in
  let t :=
    if (i <? 20)%nat then u32 (Z.lxor d (Z.land b (Z.lxor c d)) + 0x5a827999)
    else if (i <? 40)%nat then u32 (Z.lxor (Z.lxor b c) d + 0x6ed9eba1)
    else if (i <? 60)%nat then u32 (Z.lor (Z.land b c) (Z.land d (Z.lor b c)) + 0x8f1bbcdc)
    else u32 (Z.lxor (Z.lxor b c) d + 0xca62c1d6) in
  let t := u32 (t + (sha1_rol32 a 5 + e + nth (ring i 0) w 0)) in
  (w, (t, a, sha1_rol32 b 30, c, d)).

Fixpoint sha1_rounds (n : nat) (i : nat) (w : list Z) (st : sha1_regs) : list Z * sha1_regs :=
  match n with
  | O => (w, st)
  | S n' => let '(w, st) := sha1_round i w st in sha1_rounds n' (S i) w st
  end.

(** The array [buffer] seen as sixteen words, and back. *)
Definition words_le (n : nat) (bs : list Z) : list Z :=
  map (fun i => le_word (take 4 (drop (4 * i) bs))) (seq 0 n).

Definition sha1_hash_block (s : sha1_ctx) : sha1_ctx :=
  let st n := nth n (sha1_state s) 0 in
  let '(w, (a, b, c, d, e)) :=
    sha1_rounds 80 0 (words_le 16 (sha1_buffer s)) (st 0%nat, st 1%nat, st 2%nat, st 3%nat, st 4%nat) in
  s <| sha1_buffer := flat_map (le_bytes 4) w |>
    <| sha1_state := [u32 (st 0%nat + a); u32 (st 1%nat + b); u32 (st 2%nat + c); u32 (st 3%nat + d); u32 (st 4%nat + e)] |>.

Definition sha1_add_uncounted (s : sha1_ctx) (data : Z) : option sha1_ctx :=
  let? buffer := store (Z.lxor (sha1_bufferOffset s) 3) [data] (sha1_buffer s) in
  let s := s <| sha1_buffer := buffer |> <| sha1_bufferOffset := u8 (sha1_bufferOffset s + 1) |> in
  if sha1_bufferOffset s =? 64 then Some (sha1_hash_block s <| sha1_bufferOffset := 0 |>)
  else Some s.

Definition sha1_init (s : sha1_ctx) : sha1_ctx :=
  mkSha1 (sha1_buffer s) [0x67452301; 0xefcdab89; 0x98badcfe; 0x10325476; 0xc3d2e1f0] 0 0.

Fixpoint sha1_update (s : sha1_ctx) (data : list Z) : option sha1_ctx :=
  match data with
  | [] => Some s
  | b :: data' =>
    let? s := sha1_add_uncounted (s <| sha1_byteCount := u64 (sha1_byteCount s + 1) |>) b in
    sha1_update s data'
  end.

(** [while (s->bufferOffset != 56) _picohash_sha1_add_uncounted(s, 0x00);] *)
Fixpoint sha1_pad (fuel : nat) (s : sha1_ctx) : option sha1_ctx :=
  if sha1_bufferOffset s =? 56 then Some s
  else match fuel with
  | O => None
  | S fuel' => let? s := sha1_add_uncounted s 0 in sha1_pad fuel' s
  end.

Fixpoint sha1_add_all (s : sha1_ctx) (bs : list Z) : option sha1_ctx :=
  match bs with
  | [] => Some s
  | b :: bs' => let? s := sha1_add_uncounted s b in sha1_add_all s bs'
  end.

Definition sha1_swap (x : Z) : Z :=
  Z.lor (Z.lor (Z.lor (Z.land (u32 (Z.shiftl x 24)) 0xff000000) (Z.land (u32 (Z.shiftl x 8)) 0x00ff0000))
               (Z.land (Z.shiftr x 8) 0x0000ff00)) (Z.land (Z.shiftr x 24) 0x000000ff).

Definition sha1_final (s : sha1_ctx) : option (sha1_ctx * list Z) :=
  let? s := sha1_add_uncounted s 0x80 in
  let? s := sha1_pad 64 s in
  let n := sha1_byteCount s in
  let? s := sha1_add_all s
    [u8 (Z.shiftr n 53); u8 (Z.shiftr n 45); u8 (Z.shiftr n 37); u8 (Z.shiftr n 29);
     u8 (Z.shiftr n 21); u8 (Z.shiftr n 13); u8 (Z.shiftr n 5); u8 (Z.shiftl n 3)] in
  let s := s <| sha1_state := map sha1_swap (sha1_state s) |> in
  Some (s, flat_map (le_bytes 4) (sha1_state s)).

(** ** SHA-256 and SHA-224 *)

(** [_picohash_sha256_ctx_t]. *)
Record sha256_ctx := mkSha256 {
  sha256_length : Z;
  sha256_state : list Z;
  sha256_curlen : Z;
  sha256_buf : list Z
}.
#[export] Instance sha256_expand : Expand sha256_ctx := fun c =>
  mkSha256 (sha256_length c) (sha256_state c) (sha256_curlen c) (sha256_buf c).

Definition sha256_ch (x y z : Z) : Z := Z.lxor z (Z.land x (Z.lxor y z)).
Definition sha256_maj (x y z : Z) : Z := Z.lor (Z.land (Z.lor x y) z) (Z.land x y).
Definition sha256_s (x y : Z) : Z :=
  Z.land (Z.lor (Z.shiftr (Z.land x 0xFFFFFFFF) (Z.land y 31)) (u32 (Z.shiftl x (32 - Z.land y 31)))) 0xFFFFFFFF.
Definition sha256_r (x n : Z) : Z := Z.shiftr (Z.land x 0xFFFFFFFF) n.
Definition sha256_sigma0 (x : Z) : Z := Z.lxor (Z.lxor (sha256_s x 2) (sha256_s x 13)) (sha256_s x 22).
Definition sha256_sigma1 (x : Z) : Z := Z.lxor (Z.lxor (sha256_s x 6) (sha256_s x 11)) (sha256_s x 25).
Definition sha256_gamma0 (x : Z) : Z := Z.lxor (Z.lxor (sha256_s x 7) (sha256_s x 18)) (sha256_r x 3).
Definition sha256_gamma1 (x : Z) : Z := Z.lxor (Z.lxor (sha256_s x 17) (sha256_s x 19)) (sha256_r x 10).

Definition sha256_K : list Z := Eval cbv [app] in
  [0x428a2f98; 0x71374491; 0xb5c0fbcf; 0xe9b5dba5; 0x3956c25b; 0x59f111f1; 0x923f82a4; 0xab1c5ed5] ++
  [0xd807aa98; 0x12835b01; 0x243185be; 0x550c7dc3; 0x72be5d74; 0x80deb1fe; 0x9bdc06a7; 0xc19bf174] ++
  [0xe49b69c1; 0xefbe4786; 0x0fc19dc6; 0x240ca1cc; 0x2de92c6f; 0x4a7484aa; 0x5cb0a9dc; 0x76f988da] ++
  [0x983e5152; 0xa831c66d; 0xb00327c8; 0xbf597fc7; 0xc6e00bf3; 0xd5a79147; 0x06ca6351; 0x14292967] ++
  [0x27b70a85; 0x2e1b2138; 0x4d2c6dfc; 0x53380d13; 0x650a7354; 0x766a0abb; 0x81c2c92e; 0x92722c85] ++
  [0xa2bfe8a1; 0xa81a664b; 0xc24b8b70; 0xc76c51a3; 0xd192e819; 0xd6990624; 0xf40e3585; 0x106aa070] ++
  [0x19a4c116; 0x1e376c08; 0x2748774c; 0x34b0bcb5; 0x391c0cb3; 0x4ed8aa4a; 0x5b9cca4f; 0x682e6ff3] ++
  [0x748f82ee; 0x78a5636f; 0x84c87814; 0x8cc70208; 0x90befffa; 0xa4506ceb; 0xbef9a3f7; 0xc67178f2].

Definition sha256_regs : Type := Z * Z * Z * Z * Z * Z * Z * Z.

(** [_picohash_sha256_rnd] and the shift of [S] after it. *)
Definition sha256_rnd (W : list Z) (st : sha256_regs) (i : nat) : sha256_regs :=
  let '(a, b, c, d, e, f, g, h) := st in
  let t0 := u32 (h + sha256_sigma1 e + sha256_ch e f g + nth i sha256_K 0 + nth i W 0) in
  let t1 := u32 (sha256_sigma0 a + sha256_maj a b c) in
  let d := u32 (d + t0) in
  let h := u32 (t0 + t1) in
  (h, a, b, c, d, e, f, g).

Definition sha256_load_word (buf : list Z) (i : nat) : Z :=
  let b k := nth (4 * i + k) buf 0 in
  Z.lor (Z.lor (Z.lor (Z.shiftl (b 0%nat) 24) (Z.shiftl (b 1%nat) 16)) (Z.shiftl (b 2%nat) 8)) (b 3%nat).

(** [W] grows by one word per iteration; [length W = i]. *)
Fixpoint sha256_fill (n : nat) (W : list Z) : list Z :=
  match n with
  | O => W
  | S n' =>
    let i := length W in
    let w k := nth (i - k) W 0 in
    sha256_fill n' (W ++ [u32 (sha256_gamma1 (w 2%nat) + w 7%nat + sha256_gamma0 (w 15%nat) + w 16%nat)])
  end.

(** [_picohash_sha256_compress]: the new [ctx->state]; [buf] has 64 bytes. *)
Definition sha256_compress (state buf : list Z) : list Z :=
  let W := sha256_fill 48 (map (sha256_load_word buf) (seq 0 16)) in
  let S n := nth n state 0 in
  let '(a, b, c, d, e, f, g, h) :=
    fold_left (sha256_rnd W) (seq 0 64)
      (S 0%nat, S 1%nat, S 2%nat, S 3%nat, S 4%nat, S 5%nat, S 6%nat, S 7%nat) in
  [u32 (S 0%nat + a); u32 (S 1%nat + b); u32 (S 2%nat + c); u32 (S 3%nat + d);
   u32 (S 4%nat + e); u32 (S 5%nat + f); u32 (S 6%nat + g); u32 (S 7%nat + h)].

Definition sha256_compress_buf (ctx : sha256_ctx) : sha256_ctx :=
  ctx <| sha256_state := sha256_compress (sha256_state ctx) (sha256_buf ctx) |>.

Definition sha256_init_state : list Z :=
  [0x6A09E667; 0xBB67AE85; 0x3C6EF372; 0xA54FF53A; 0x510E527F; 0x9B05688C; 0x1F83D9AB; 0x5BE0CD19].
Definition sha224_init_state : list Z :=
  [0xc1059ed8; 0x367cd507; 0x3070dd17; 0xf70e5939; 0xffc00b31; 0x68581511; 0x64f98fa7; 0xbefa4fa4].

Definition sha256_init (ctx : sha256_ctx) : sha256_ctx :=
  mkSha256 0 sha256_init_state 0 (sha256_buf ctx).
Definition sha224_init (ctx : sha256_ctx) : sha256_ctx :=
  mkSha256 0 sha224_init_state 0 (sha256_buf ctx).

(** [_picohash_sha256_update]; every iteration consumes a byte at least. *)
Fixpoint sha256_update_loop (fuel : nat) (ctx : sha256_ctx) (data : list Z) : option sha256_ctx :=
  let len := lenZ data in
  if 0 <? len then
    match fuel with
    | O => None
    | S fuel' =>
      if (sha256_curlen ctx =? 0) && (64 <=? len) then
        let ctx := ctx <| sha256_state := sha256_compress (sha256_state ctx) (take 64 data) |>
                       <| sha256_length := u64 (sha256_length ctx + 64 * 8) |> in
        sha256_update_loop fuel' ctx (drop 64 data)
      else
        let n := u32 (64 - sha256_curlen ctx) in
        let n := if len <? n then len else n in
        let? buf := store (sha256_curlen ctx) (take (Z.to_nat n) data) (sha256_buf ctx) in
        let ctx := ctx <| sha256_buf := buf |> <| sha256_curlen := u32 (sha256_curlen ctx + n) |> in
        let data := drop (Z.to_nat n) data in
        if sha256_curlen ctx =? 64 then
          let ctx := sha256_compress_buf ctx
            <| sha256_length := u64 (sha256_length ctx + 8 * 64) |> <| sha256_curlen := 0 |> in
          sha256_update_loop fuel' ctx data
        else sha256_update_loop fuel' ctx data
    end
  else Some ctx.

Definition sha256_update (ctx : sha256_ctx) (data : list Z) : option sha256_ctx :=
  sha256_update_loop (length data) ctx data.

(** [ctx->buf[ctx->curlen++] = byte;] *)
Definition sha256_push (ctx : sha256_ctx) (byte : Z) : option sha256_ctx :=
  let? buf := store (sha256_curlen ctx) [byte] (sha256_buf ctx) in
  Some (ctx <| sha256_buf := buf |> <| sha256_curlen := u32 (sha256_curlen ctx + 1) |>).

(** [while (ctx->curlen < bound) ctx->buf[ctx->curlen++] = 0;] *)
Fixpoint sha256_zeros (fuel : nat) (bound : Z) (ctx : sha256_ctx) : option sha256_ctx :=
  if sha256_curlen ctx <? bound then
    match fuel with
    | O => None
    | S fuel' => let? ctx := sha256_push ctx 0 in sha256_zeros fuel' bound ctx
    end
  else Some ctx.

(** [_picohash_sha256_do_final]; [len] is the digest size. *)
Definition sha256_do_final (ctx : sha256_ctx) (len : Z) : option (sha256_ctx * list Z) :=
  let ctx := ctx <| sha256_length := u64 (sha256_length ctx + u32 (sha256_curlen ctx * 8)) |> in
  let? ctx := sha256_push ctx 0x80 in
  let? ctx :=
    (if 56 <? sha256_curlen ctx then
       let? ctx := sha256_zeros 64 64 ctx in
       Some (sha256_compress_buf ctx <| sha256_curlen := 0 |>)
     else Some ctx) in
  let? ctx := sha256_zeros 64 56 ctx in
  let? buf := store 56 (map (fun i => u8 (Z.shiftr (sha256_length ctx) (56 - 8 * Z.of_nat i))) (seq 0 8))
                (sha256_buf ctx) in
  let ctx := sha256_compress_buf (ctx <| sha256_buf := buf |>) in
  let out x := [u8 (Z.shiftr x 24); u8 (Z.shiftr x 16); u8 (Z.shiftr x 8); u8 x] in
  Some (ctx, flat_map out (take (Z.to_nat (len / 4)) (sha256_state ctx))).

Definition sha256_final (ctx : sha256_ctx) : option (sha256_ctx * list Z) := sha256_do_final ctx 32.
Definition sha224_final (ctx : sha256_ctx) : option (sha256_ctx * list Z) := sha256_do_final ctx 28.

(** ** The generic interface *)

(** The functions the pointers [_reset], [_update] and [_final] name. *)
Inductive picohash_fn := fn_md5 | fn_sha1 | fn_sha224 | fn_sha256 | fn_hmac.

(** The union of the hash contexts. *)
Record pico_union := mkUnion {
  _md5 : md5_ctx;
  _sha1 : sha1_ctx;
  _sha256 : sha256_ctx
}.
#[export] Instance pico_union_expand : Expand pico_union := fun u => mkUnion (_md5 u) (_sha1 u) (_sha256 u).

Record picohash_ctx := mkPico {
  pico_u : pico_union;
  block_length : Z;
  digest_length : Z;
  pico_reset : picohash_fn;
  pico_update : picohash_fn;
  pico_final : picohash_fn;
  hmac_key : list Z;
  hmac_hash_reset : picohash_fn;
  hmac_hash_final : picohash_fn
}.
#[export] Instance pico_expand : Expand picohash_ctx := fun c =>
  mkPico (pico_u c) (block_length c) (digest_length c) (pico_reset c)
    (pico_update c) (pico_final c) (hmac_key c) (hmac_hash_reset c) (hmac_hash_final c).

(** Calls through the pointers to the functions of one hash, which work on
    its member of the union. *)
Definition call_reset (f : picohash_fn) (u : pico_union) : option pico_union :=
  match f with
  | fn_md5 => Some (u <| _md5 ::= md5_init |>)
  | fn_sha1 => Some (u <| _sha1 ::= sha1_init |>)
  | fn_sha224 => Some (u <| _sha256 ::= sha224_init |>)
  | fn_sha256 => Some (u <| _sha256 ::= sha256_init |>)
  | fn_hmac => None
  end.

Definition call_update (f : picohash_fn) (u : pico_union) (input : list Z) : option pico_union :=
  match f with
  | fn_md5 => let? c := md5_update (_md5 u) input in Some (u <| _md5 := c |>)
  | fn_sha1 => let? c := sha1_update (_sha1 u) input in Some (u <| _sha1 := c |>)
  | fn_sha224 | fn_sha256 => let? c := sha256_update (_sha256 u) input in Some (u <| _sha256 := c |>)
  | fn_hmac => None
  end.

Definition call_final (f : picohash_fn) (u : pico_union) : option (pico_union * list Z) :=
  match f with
  | fn_md5 => let? (c, d) := md5_final (_md5 u) in Some (u <| _md5 := c |>, d)
  | fn_sha1 => let? (c, d) := sha1_final (_sha1 u) in Some (u <| _sha1 := c |>, d)
  | fn_sha224 => let? (c, d) := sha224_final (_sha256 u) in Some (u <| _sha256 := c |>, d)
  | fn_sha256 => let? (c, d) := sha256_final (_sha256 u) in Some (u <| _sha256 := c |>, d)
  | fn_hmac => None
  end.

(** The calls on the union inside a context. *)
Definition hash_reset (f : picohash_fn) (ctx : picohash_ctx) : option picohash_ctx :=
  let? u := call_reset f (pico_u ctx) in Some (ctx <| pico_u := u |>).
Definition hash_final (f : picohash_fn) (ctx : picohash_ctx) : option (picohash_ctx * list Z) :=
  let? (u, digest) := call_final f (pico_u ctx) in Some (ctx <| pico_u := u |>, digest).

Definition picohash_init (f : picohash_fn) (digest : Z) (ctx : picohash_ctx) : option picohash_ctx :=
  hash_reset f (mkPico (pico_u ctx) 64 digest f f f (hmac_key ctx) (hmac_hash_reset ctx) (hmac_hash_final ctx)).
Definition picohash_init_md5 : picohash_ctx -> option picohash_ctx := picohash_init fn_md5 16.
Definition picohash_init_sha1 : picohash_ctx -> option picohash_ctx := picohash_init fn_sha1 20.
Definition picohash_init_sha224 : picohash_ctx -> option picohash_ctx := picohash_init fn_sha224 28.
Definition picohash_init_sha256 : picohash_ctx -> option picohash_ctx := picohash_init fn_sha256 32.

Definition picohash_update (ctx : picohash_ctx) (input : list Z) : option picohash_ctx :=
  let? u := call_update (pico_update ctx) (pico_u ctx) input in Some (ctx <| pico_u := u |>).

(** [for (i = 0; i != block_length; ++i) key[i] ^= delta;] *)
Definition hmac_xor_key (ctx : picohash_ctx) (delta : Z) : option picohash_ctx :=
  let? key := load 0 (block_length ctx) (hmac_key ctx) in
  let? key := store 0 (map (fun b => Z.lxor b delta) key) (hmac_key ctx) in
  Some (ctx <| hmac_key := key |>).

Definition hmac_apply_key (ctx : picohash_ctx) (delta : Z) : option picohash_ctx :=
  let? ctx := hmac_xor_key ctx delta in
  let? key := load 0 (block_length ctx) (hmac_key ctx) in
  let? ctx := picohash_update ctx key in
  hmac_xor_key ctx delta.

(** [_picohash_hmac_reset]. *)
Definition hmac_reset (ctx : picohash_ctx) : option picohash_ctx :=
  let? ctx := hash_reset (hmac_hash_reset ctx) ctx in
  hmac_apply_key ctx 0x36.

(** [_picohash_hmac_final]. *)
Definition hmac_final (ctx : picohash_ctx) : option (picohash_ctx * list Z) :=
  let? (ctx, inner_digest) := hash_final (hmac_hash_final ctx) ctx in
  let? ctx := hash_reset (hmac_hash_reset ctx) ctx in
  let? ctx := hmac_apply_key ctx 0x5c in
  let? inner := load 0 (digest_length ctx) inner_digest in
  let? ctx := picohash_update ctx inner in
  hash_final (hmac_hash_final ctx) ctx.

Definition picohash_final (ctx : picohash_ctx) : option (picohash_ctx * list Z) :=
  match pico_final ctx with fn_hmac => hmac_final ctx | f => hash_final f ctx end.

Definition picohash_reset (ctx : picohash_ctx) : option picohash_ctx :=
  match pico_reset ctx with fn_hmac => hmac_reset ctx | f => hash_reset f ctx end.

Definition picohash_init_hmac (initf : picohash_ctx -> option picohash_ctx) (key : list Z)
    (ctx : picohash_ctx) : option picohash_ctx :=
  let? ctx := initf ctx in
  let? k := store 0 (replicate (Z.to_nat (block_length ctx)) 0) (hmac_key ctx) in
  let ctx := ctx <| hmac_key := k |> in
  let? ctx :=
    (if block_length ctx <? lenZ key then
       let? ctx := picohash_update ctx key in
       let? (ctx, digest) := picohash_final ctx in
       let? k := store 0 digest (hmac_key ctx) in
       picohash_reset (ctx <| hmac_key := k |>)
     else
       let? k := store 0 key (hmac_key ctx) in
       Some (ctx <| hmac_key := k |>)) in
  hmac_apply_key
    (mkPico (pico_u ctx) (block_length ctx) (digest_length ctx) fn_hmac (pico_update ctx) fn_hmac
       (hmac_key ctx) (pico_reset ctx) (pico_final ctx)) 0x36.

(** ** hash.c and hmac.c; [ctx] is the uninitialised local context *)
Definition hash_with (initf : picohash_ctx -> option picohash_ctx) (ctx : picohash_ctx) (message : list Z)
    : option (list Z) :=
  let? ctx := initf ctx in
  let? ctx := picohash_update ctx message in
  let? (_, digest) := picohash_final ctx in
  Some digest.

Definition hash_md5 : picohash_ctx -> list Z -> option (list Z) := hash_with picohash_init_md5.
Definition hash_sha1 : picohash_ctx -> list Z -> option (list Z) := hash_with picohash_init_sha1.
Definition hash_sha256 : picohash_ctx -> list Z -> option (list Z) := hash_with picohash_init_sha256.

Definition hmac_with (initf : picohash_ctx -> option picohash_ctx) (ctx : picohash_ctx) (message key : list Z)
    : option (list Z) :=
  hash_with (picohash_init_hmac initf key) ctx message.
Definition hmac_sha1 : picohash_ctx -> list Z -> list Z -> option (list Z) := hmac_with picohash_init_sha1.
Definition hmac_sha256 : picohash_ctx -> list Z -> list Z -> option (list Z) := hmac_with picohash_init_sha256.
