(* ===== verification/HashSpec.v ===== *)
(** * Reference definitions of MD5 (RFC 1321), SHA-1, SHA-224, SHA-256
    (FIPS 180-4) and HMAC (RFC 2104)

    The references follow the standards: a message is padded, cut into 64-byte
    blocks, and the compression function is folded over them.  The SHA-2
    constants are computed from roots of primes, as the standard defines them. *)

From S2P Require Import Prelude.

(** ** Padding and blocks *)
Fixpoint chunks (n : nat) (m : list Z) : list (list Z) :=
  match n with
  | O => []
  | S n' => take 64 m :: chunks n' (drop 64 m)
  end.

(** The complete blocks of a message, and what follows them. *)
Definition blocks (m : list Z) : list (list Z) := chunks (length m / 64) m.
Definition rest (m : list Z) : list Z := drop (64 * (length m / 64)) m.

Definition padded (m len8 : list Z) : list Z :=
  m ++ [0x80] ++ replicate (Z.to_nat ((55 - lenZ m) `mod` 64)) 0 ++ len8.

Definition md_run {S} (compress : S -> list Z -> S) (iv : S) (m : list Z) : S :=
  fold_left compress (blocks m) iv.

Definition words_of (word : list Z -> Z) (block : list Z) : list Z :=
  map (fun i => word (take 4 (drop (4 * i) block))) (seq 0 16).

Definition rotr (n x : Z) : Z := Z.lor (Z.shiftr (u32 x) n) (u32 (Z.shiftl x (32 - n))).
Definition rotl (n x : Z) : Z := rotr (32 - n) x.

(** [f], the round function, with [Ch] and [Maj] as the standards write them. *)
Definition Ch (x y z : Z) : Z := Z.lor (Z.land x y) (Z.land (Z.lnot x) z).
Definition Parity (x y z : Z) : Z := Z.lxor (Z.lxor x y) z.
Definition Maj (x y z : Z) : Z := Z.lor (Z.lor (Z.land x y) (Z.land x z)) (Z.land y z).

(** ** MD5 *)
Definition MD5_T : list Z := [
  0xd76aa478; 0xe8c7b756; 0x242070db; 0xc1bdceee; 0xf57c0faf; 0x4787c62a; 0xa8304613; 0xfd469501;
  0x698098d8; 0x8b44f7af; 0xffff5bb1; 0x895cd7be; 0x6b901122; 0xfd987193; 0xa679438e; 0x49b40821;
  0xf61e2562; 0xc040b340; 0x265e5a51; 0xe9b6c7aa; 0xd62f105d; 0x02441453; 0xd8a1e681; 0xe7d3fbc8;
  0x21e1cde6; 0xc33707d6; 0xf4d50d87; 0x455a14ed; 0xa9e3e905; 0xfcefa3f8; 0x676f02d9; 0x8d2a4c8a;
  0xfffa3942; 0x8771f681; 0x6d9d6122; 0xfde5380c; 0xa4beea44; 0x4bdecfa9; 0xf6bb4b60; 0xbebfbc70;
  0x289b7ec6; 0xeaa127fa; 0xd4ef3085; 0x04881d05; 0xd9d4d039; 0xe6db99e5; 0x1fa27cf8; 0xc4ac5665;
  0xf4292244; 0x432aff97; 0xab9423a7; 0xfc93a039; 0x655b59c3; 0x8f0ccc92; 0xffeff47d; 0x85845dd1;
  0x6fa87e4f; 0xfe2ce6e0; 0xa3014314; 0x4e0811a1; 0xf7537e82; 0xbd3af235; 0x2ad7d2bb; 0xeb86d391 ].

(** Round function, word index and rotation of step [i]. *)
Definition MD5_f (i : nat) : Z -> Z -> Z -> Z :=
  match (i / 16)%nat with
  | 0%nat => Ch
  | 1%nat => fun x y z => Ch z x y
  | 2%nat => Parity
  | _ => fun x y z => Z.lxor y (Z.lor x (u32 (Z.lnot z)))
  end.
Definition MD5_g (i : nat) : nat :=
  match (i / 16)%nat with
  | 0%nat => i
  | 1%nat => (5 * i + 1) mod 16
  | 2%nat => (3 * i + 5) mod 16
  | _ => (7 * i) mod 16
  end.
Definition MD5_s (i : nat) : Z :=
  nth (i mod 4) (nth (i / 16) [[7; 12; 17; 22]; [5; 9; 14; 20]; [4; 11; 16; 23]; [6; 10; 15; 21]] []) 0.

Definition MD5_step (X : list Z) (st : Z * Z * Z * Z) (i : nat) : Z * Z * Z * Z :=
  let '(a, b, c, d) := st in
  (d, u32 (b + rotl (MD5_s i) (u32 (a + MD5_f i b c d + nth (MD5_g i) X 0 + nth i MD5_T 0))), b, c).

Definition MD5_compress (st : Z * Z * Z * Z) (block : list Z) : Z * Z * Z * Z :=
  let '(a, b, c, d) := st in
  let '(a', b', c', d') := fold_left (MD5_step (words_of le_word block)) (seq 0 64) st in
  (u32 (a + a'), u32 (b + b'), u32 (c + c'), u32 (d + d')).

Definition MD5_iv : Z * Z * Z * Z := (0x67452301, 0xefcdab89, 0x98badcfe, 0x10325476).
Definition MD5 (m : list Z) : list Z :=
  let '(a, b, c, d) := md_run MD5_compress MD5_iv (padded m (le_bytes 8 (8 * lenZ m))) in
  flat_map (le_bytes 4) [a; b; c; d].

(** ** SHA-1 *)
Definition SHA1_W (block : list Z) : list Z :=
  Nat.iter 64 (fun W =>
    let w k := nth (length W - k) W 0 in
    W ++ [rotl 1 (Z.lxor (Z.lxor (Z.lxor (w 3%nat) (w 8%nat)) (w 14%nat)) (w 16%nat))])
    (words_of be_word block).

(** [floor (2^30 * sqrt n)] for 2, 3, 5 and 10. *)
Definition SHA1_K (i : nat) : Z := Z.sqrt (nth (i / 20) [2; 3; 5; 10] 0 * 2 ^ 60).
Definition SHA1_f (i : nat) : Z -> Z -> Z -> Z :=
  match (i / 20)%nat with 0%nat => Ch | 2%nat => Maj | _ => Parity end.

Definition SHA1_step (W : list Z) (st : Z * Z * Z * Z * Z) (i : nat) : Z * Z * Z * Z * Z :=
  let '(a, b, c, d, e) := st in
  (u32 (rotl 5 a + SHA1_f i b c d + e + SHA1_K i + nth i W 0), a, rotl 30 b, c, d).

Definition SHA1_compress (H : list Z) (block : list Z) : list Z :=
  let h n := nth n H 0 in
  let '(a, b, c, d, e) :=
    fold_left (SHA1_step (SHA1_W block)) (seq 0 80) (h 0%nat, h 1%nat, h 2%nat, h 3%nat, h 4%nat) in
  [u32 (h 0%nat + a); u32 (h 1%nat + b); u32 (h 2%nat + c); u32 (h 3%nat + d); u32 (h 4%nat + e)].

Definition SHA1_iv : list Z := [0x67452301; 0xefcdab89; 0x98badcfe; 0x10325476; 0xc3d2e1f0].
Definition SHA1 (m : list Z) : list Z :=
  flat_map (be_bytes 4) (md_run SHA1_compress SHA1_iv (padded m (be_bytes 8 (8 * lenZ m)))).

(** ** SHA-224 and SHA-256 *)
Definition primes : list Z :=
  [2; 3; 5; 7; 11; 13; 17; 19; 23; 29; 31; 37; 41; 43; 47; 53; 59; 61; 67; 71; 73; 79; 83; 89; 97; 101;
   103; 107; 109; 113; 127; 131; 137; 139; 149; 151; 157; 163; 167; 173; 179; 181; 191; 193; 197; 199;
   211; 223; 227; 229; 233; 239; 241; 251; 257; 263; 269; 271; 277; 281; 283; 293; 307; 311].

(** The integer cube root, bit by bit from bit [n - 1]. *)
Fixpoint cbrt (n : nat) (root x : Z) : Z :=
  match n with
  | O => root
  | S n' => let r := root + 2 ^ Z.of_nat n' in cbrt n' (if r ^ 3 <=? x then r else root) x
  end.

(** The first 32 bits of the fractional parts of the cube roots of the primes. *)
Definition SHA256_K : list Z := map (fun p => u32 (cbrt 40 0 (p * 2 ^ 96))) primes.
(** The first, and the second, 32 bits of the fractional parts of square roots. *)
Definition SHA256_iv : list Z := map (fun p => u32 (Z.sqrt (p * 2 ^ 64))) (take 8 primes).
Definition SHA224_iv : list Z := map (fun p => u32 (Z.sqrt (p * 2 ^ 128))) (take 8 (drop 8 primes)).

Definition SHR (n x : Z) : Z := Z.shiftr (u32 x) n.
Definition Sigma0 (x : Z) : Z := Z.lxor (Z.lxor (rotr 2 x) (rotr 13 x)) (rotr 22 x).
Definition Sigma1 (x : Z) : Z := Z.lxor (Z.lxor (rotr 6 x) (rotr 11 x)) (rotr 25 x).
Definition sigma0 (x : Z) : Z := Z.lxor (Z.lxor (rotr 7 x) (rotr 18 x)) (SHR 3 x).
Definition sigma1 (x : Z) : Z := Z.lxor (Z.lxor (rotr 17 x) (rotr 19 x)) (SHR 10 x).

Definition SHA256_W (block : list Z) : list Z :=
  Nat.iter 48 (fun W =>
    let w k := nth (length W - k) W 0 in
    W ++ [u32 (sigma1 (w 2%nat) + w 7%nat + sigma0 (w 15%nat) + w 16%nat)])
    (words_of be_word block).

Definition SHA256_step (W : list Z) (st : Z * Z * Z * Z * Z * Z * Z * Z) (i : nat)
    : Z * Z * Z * Z * Z * Z * Z * Z :=
  let '(a, b, c, d, e, f, g, h) := st in
  let T1 := u32 (h + Sigma1 e + Ch e f g + nth i SHA256_K 0 + nth i W 0) in
  let T2 := u32 (Sigma0 a + Maj a b c) in
  (u32 (T1 + T2), a, b, c, u32 (d + T1), e, f, g).

Definition SHA256_compress (H : list Z) (block : list Z) : list Z :=
  let s n := nth n H 0 in
  let '(a, b, c, d, e, f, g, h) :=
    fold_left (SHA256_step (SHA256_W block)) (seq 0 64)
      (s 0%nat, s 1%nat, s 2%nat, s 3%nat, s 4%nat, s 5%nat, s 6%nat, s 7%nat) in
  [u32 (s 0%nat + a); u32 (s 1%nat + b); u32 (s 2%nat + c); u32 (s 3%nat + d);
   u32 (s 4%nat + e); u32 (s 5%nat + f); u32 (s 6%nat + g); u32 (s 7%nat + h)].

Definition SHA2 (iv : list Z) (words : nat) (m : list Z) : list Z :=
  flat_map (be_bytes 4) (take words (md_run SHA256_compress iv (padded m (be_bytes 8 (8 * lenZ m))))).
Definition SHA256 : list Z -> list Z := SHA2 SHA256_iv 8.
Definition SHA224 : list Z -> list Z := SHA2 SHA224_iv 7.

(** ** HMAC over a hash [H] with 64-byte blocks *)
Definition hmac_block_key (H : list Z -> list Z) (key : list Z) : list Z :=
  let k := if 64 <? lenZ key then H key else key in
  k ++ replicate (64 - length k) 0.

Definition HMAC (H : list Z -> list Z) (key m : list Z) : list Z :=
  let K := hmac_block_key H key in
  let xor_with d := map (fun b => Z.lxor b d) K in
  H (xor_with 0x5c ++ H (xor_with 0x36 ++ m)).

(** ** Lemmas on blocks *)
Lemma length_chunks n m : length (chunks n m) = n.
Proof. revert m. induction n; intros; simpl; auto. Qed.

Lemma chunks_app n k m x :
  length m = (64 * n)%nat -> chunks (n + k) (m ++ x) = chunks n m ++ chunks k x.
Proof.
  revert m. induction n as [|n IH]; intros m Hm; simpl.
  - by destruct m.
  - rewrite take_app_le, drop_app_le by lia. f_equal. apply IH. rewrite length_drop. lia.
Qed.

Lemma length_rest m : length (rest m) = (length m mod 64)%nat.
Proof. unfold rest. rewrite length_drop. pose proof (Nat.div_mod (length m) 64). lia. Qed.

Lemma length_rest_lt m : (length (rest m) < 64)%nat.
Proof. rewrite length_rest. apply Nat.mod_upper_bound. lia. Qed.

Lemma full_prefix m : exists p, m = p ++ rest m /\ length p = (64 * (length m / 64))%nat /\
  blocks m = chunks (length m / 64) p.
Proof.
  set (n := (length m / 64)%nat). exists (take (64 * n) m).
  assert (64 * n <= length m)%nat by (subst n; pose proof (Nat.div_mod (length m) 64); lia).
  assert (Hl : length (take (64 * n) m) = (64 * n)%nat) by (rewrite length_take; lia).
  split_and!; [symmetry; apply take_drop | done |].
  unfold blocks. fold n. rewrite <- (take_drop (64 * n) m) at 1.
  rewrite <- (Nat.add_0_r n) at 1. rewrite chunks_app by done. simpl. by rewrite app_nil_r.
Qed.

Lemma blocks_rest_app p x n :
  length p = (64 * n)%nat ->
  blocks (p ++ x) = chunks n p ++ blocks x /\ rest (p ++ x) = rest x.
Proof.
  intros Hp.
  assert (Hd : (length (p ++ x) / 64 = n + length x / 64)%nat).
  { rewrite length_app, Hp. rewrite Nat.add_comm, (Nat.mul_comm 64), Nat.div_add by lia. lia. }
  unfold blocks, rest. rewrite Hd. split; [by apply chunks_app|].
  rewrite Nat.mul_add_distr_l, <- drop_drop, <- Hp, drop_app_length. done.
Qed.

(** What is left over joins what follows. *)
Lemma blocks_app m x : blocks (m ++ x) = blocks m ++ blocks (rest m ++ x).
Proof.
  destruct (full_prefix m) as (p & Hm & Hp & ->). rewrite Hm at 1. rewrite <- app_assoc.
  by apply blocks_rest_app.
Qed.

Lemma rest_app m x : rest (m ++ x) = rest (rest m ++ x).
Proof.
  destruct (full_prefix m) as (p & Hm & Hp & _). rewrite Hm at 1. rewrite <- app_assoc.
  by apply (blocks_rest_app _ _ _ Hp).
Qed.

Lemma blocks_small x : (length x < 64)%nat -> blocks x = [] /\ rest x = x.
Proof. intros. unfold blocks, rest. rewrite Nat.div_small by done. done. Qed.

Lemma blocks_one b x : length b = 64%nat -> blocks (b ++ x) = b :: blocks x /\ rest (b ++ x) = rest x.
Proof.
  intros Hb. destruct (blocks_rest_app b x 1 ltac:(lia)) as [-> ->]. split; [|done].
  simpl. by rewrite take_ge by lia.
Qed.

Lemma rest_bytes m : bytes_ok m -> bytes_ok (rest m).
Proof. apply Forall_drop. Qed.

Section Run.
Context {S : Type} (compress : S -> list Z -> S) (iv : S).

Lemma md_run_app m x : md_run compress iv (m ++ x) = md_run compress (md_run compress iv m) (rest m ++ x).
Proof. unfold md_run. by rewrite blocks_app, fold_left_app. Qed.

Lemma md_run_small x : (length x < 64)%nat -> md_run compress iv x = iv.
Proof. intros. unfold md_run. by rewrite (proj1 (blocks_small x ltac:(done))). Qed.

Lemma md_run_one b x :
  length b = 64%nat -> md_run compress iv (b ++ x) = md_run compress (compress iv b) x.
Proof. intros Hb. unfold md_run. by rewrite (proj1 (blocks_one b x Hb)). Qed.
End Run.

Lemma length_pad_zeros m :
  (length (m ++ 0x80 :: replicate (Z.to_nat ((55 - lenZ m) `mod` 64)) 0) mod 64 = 56)%nat.
Proof.
  rewrite length_app. cbn [length]. rewrite length_replicate. unfold lenZ.
  apply Nat2Z.inj. rewrite Nat2Z.inj_mod, Nat2Z.inj_add, Nat2Z.inj_succ, Z2Nat.id by (apply Z.mod_pos_bound; lia).
  lia_mod.
Qed.

(** The padding completes one block or two. *)
Lemma padded_run {S} (compress : S -> list Z -> S) iv m len8 :
  length len8 = 8%nat ->
  let r := rest m in
  md_run compress iv (padded m len8) =
    if (length r <=? 55)%nat
    then compress (md_run compress iv m) (r ++ [0x80] ++ replicate (55 - length r) 0 ++ len8)
    else compress (compress (md_run compress iv m) (r ++ [0x80] ++ replicate (63 - length r) 0))
           (replicate 56 0 ++ len8).
Proof.
  intros H8 r. unfold padded. rewrite md_run_app. fold r.
  pose proof (length_rest_lt m) as Hlt. fold r in Hlt.
  assert (Hz : (Z.to_nat ((55 - lenZ m) `mod` 64) = if (length r <=? 55)%nat then 55 - length r else 119 - length r)%nat).
  { assert (Hm : lenZ m `mod` 64 = Z.of_nat (length r)) by (subst r; rewrite length_rest; unfold lenZ; by rewrite Nat2Z.inj_mod).
    case_test; [apply Nat.leb_le in E | apply Nat.leb_gt in E]; lia_mod. }
  rewrite Hz. clear Hz. case_test; [apply Nat.leb_le in E | apply Nat.leb_gt in E].
  - rewrite <- (app_nil_r (r ++ _)) at 1.
    rewrite md_run_one, md_run_small; [done | simpl; lia |].
    rewrite !length_app, length_replicate. simpl. lia.
  - replace (119 - length r)%nat with (63 - length r + 56)%nat by lia.
    rewrite replicate_add.
    replace (r ++ [0x80] ++ (replicate (63 - length r) 0 ++ replicate 56 0) ++ len8)
      with ((r ++ [0x80] ++ replicate (63 - length r) 0) ++ (replicate 56 0 ++ len8) ++ [])
      by (by rewrite app_nil_r, <- !app_assoc).
    rewrite md_run_one by (rewrite !length_app, length_replicate; simpl; lia).
    rewrite md_run_one, md_run_small; [done | simpl; lia |].
    rewrite length_app, length_replicate. lia.
Qed.

(** ** Words and bits *)
Lemma u32_eq z : u32 z = z `mod` 4294967296.
Proof. reflexivity. Qed.

Lemma land_u32 z : Z.land z 0xffffffff = u32 z.
Proof. apply (land_ones_mod 32). lia. Qed.

Lemma rotr_range n x : 0 <= n -> 0 <= rotr n x < 2 ^ 32.
Proof.
  intros. apply lor_range; [lia | | apply wrap_range; lia].
  rewrite Z.shiftr_div_pow2 by lia. pose proof (wrap_range 32 x).
  assert (0 < 2 ^ n) by (apply Z.pow_pos_nonneg; lia).
  split; [apply Z.div_pos; lia|]. apply Z.div_lt_upper_bound; [lia|]. nia.
Qed.

Lemma le_word4 b0 b1 b2 b3 :
  is_byte b0 -> is_byte b1 -> is_byte b2 -> is_byte b3 ->
  Z.lor (Z.lor (Z.lor b0 (Z.shiftl b1 8)) (Z.shiftl b2 16)) (Z.shiftl b3 24) = le_word [b0; b1; b2; b3].
Proof.
  unfold is_byte. intros.
  rewrite (Z.lor_comm b0), lor_shiftl_add by lia. change (2 ^ 8) with 256.
  rewrite (Z.lor_comm _ (Z.shiftl b2 16)), lor_shiftl_add by (change (2 ^ 16) with 65536; lia).
  change (2 ^ 16) with 65536.
  rewrite (Z.lor_comm _ (Z.shiftl b3 24)), lor_shiftl_add by (change (2 ^ 24) with 16777216; lia).
  change (2 ^ 24) with 16777216. simpl. lia.
Qed.

Lemma be_word4 b0 b1 b2 b3 :
  is_byte b0 -> is_byte b1 -> is_byte b2 -> is_byte b3 ->
  Z.lor (Z.lor (Z.lor (Z.shiftl b0 24) (Z.shiftl b1 16)) (Z.shiftl b2 8)) b3 = be_word [b0; b1; b2; b3].
Proof.
  unfold is_byte. intros. rewrite <- !Z.lor_assoc.
  rewrite (lor_shiftl_add b2) by lia. change (2 ^ 8) with 256.
  rewrite (lor_shiftl_add b1) by (change (2 ^ 16) with 65536; lia). change (2 ^ 16) with 65536.
  rewrite (lor_shiftl_add b0) by (change (2 ^ 24) with 16777216; lia). change (2 ^ 24) with 16777216.
  unfold be_word. simpl. lia.
Qed.

(** The four bytes at index [4 * i]. *)
Lemma take4_nth i (l : list Z) :
  (4 * i + 4 <= length l)%nat ->
  take 4 (drop (4 * i) l) =
  [nth (4 * i) l 0; nth (4 * i + 1) l 0; nth (4 * i + 2) l 0; nth (4 * i + 3) l 0].
Proof.
  intros Hl. rewrite <- (take_drop (4 * i) l) at 2 3 4 5.
  assert (Ht : length (take (4 * i) l) = (4 * i)%nat) by (rewrite length_take; lia).
  assert (Hd : length (drop (4 * i) l) = (length l - 4 * i)%nat) by apply length_drop.
  rewrite !app_nth2 by lia. rewrite Ht.
  replace (4 * i - 4 * i)%nat with 0%nat by lia.
  replace (4 * i + 1 - 4 * i)%nat with 1%nat by lia.
  replace (4 * i + 2 - 4 * i)%nat with 2%nat by lia.
  replace (4 * i + 3 - 4 * i)%nat with 3%nat by lia.
  destruct (drop (4 * i) l) as [|x0 [|x1 [|x2 [|x3 ?]]]]; simpl in Hd; try lia. done.
Qed.

Lemma nth_byte n (l : list Z) : bytes_ok l -> is_byte (nth n l 0).
Proof.
  intros Hl. destruct (Nat.lt_ge_cases n (length l)) as [Hn|Hn].
  - rewrite List.Forall_forall in Hl. by apply Hl, nth_In.
  - rewrite nth_overflow by lia. unfold is_byte. lia.
Qed.

Lemma map_seq_ext {A} (f g : nat -> A) n : (forall i, (i < n)%nat -> f i = g i) -> map f (seq 0 n) = map g (seq 0 n).
Proof. intros Hfg. apply map_ext_in. intros i Hi%in_seq. apply Hfg. lia. Qed.

Ltac bits :=
  intros; apply Z.bits_inj'; intros ?i ?Hi;
  repeat rewrite ?Z.lxor_spec, ?Z.lor_spec, ?Z.land_spec, ?Z.lnot_spec by lia;
  repeat match goal with |- context [Z.testbit ?x ?i] => destruct (Z.testbit x i) end; reflexivity.

Lemma lenZ_rest m : lenZ (rest m) = lenZ m `mod` 64.
Proof. unfold lenZ. rewrite length_rest. apply Nat2Z.inj_mod. Qed.

Lemma store_prefix off (bs mem : list Z) pre stale :
  mem = pre ++ stale -> off = lenZ pre -> (length bs <= length stale)%nat ->
  store off bs mem = Some (pre ++ bs ++ drop (length bs) stale).
Proof.
  intros -> Hoff Hl. rewrite <- (take_drop (length bs) stale) at 1.
  apply store_mid; [done|]. rewrite length_take. lia.
Qed.

(** ** Message schedules: lists grown by a function of their last 16 words *)
Section Schedule.
Variable g : (nat -> Z) -> Z.
Hypothesis g_ext : forall f f', (forall k, (1 <= k <= 16)%nat -> f k = f' k) -> g f = g f'.
Let extend (W : list Z) : list Z := W ++ [g (fun k => nth (length W - k) W 0)].

Lemma schedule_length n ws : length (Nat.iter n extend ws) = (length ws + n)%nat.
Proof. induction n; simpl; [lia|]. unfold extend at 1. rewrite length_app. simpl. lia. Qed.

Lemma schedule_prefix n ws t : (t < length ws)%nat -> nth t (Nat.iter n extend ws) 0 = nth t ws 0.
Proof.
  intros Ht. induction n as [|n IH]; [done|]. simpl. unfold extend at 1.
  rewrite app_nth1; [exact IH|]. rewrite schedule_length. lia.
Qed.

Lemma schedule_nth n ws t :
  (16 <= length ws <= t)%nat -> (t < length ws + n)%nat ->
  nth t (Nat.iter n extend ws) 0 = g (fun k => nth (t - k) (Nat.iter n extend ws) 0).
Proof.
  intros Hws. induction n as [|n IH]; intros Ht; [lia|]. simpl.
  set (W := Nat.iter n extend ws) in *. pose proof (schedule_length n ws) as HW. fold W in HW.
  change (extend W) with (W ++ [g (fun k => nth (length W - k) W 0)]).
  destruct (decide (t = length W)) as [->|Hne].
  - rewrite app_nth2, Nat.sub_diag by lia. simpl. apply g_ext. intros k Hk. by rewrite app_nth1 by lia.
  - rewrite app_nth1, IH by lia. apply g_ext. intros k Hk. by rewrite app_nth1 by lia.
Qed.
End Schedule.

Lemma rotl_range n x : 0 <= 32 - n -> 0 <= rotl n x < 2 ^ 32.
Proof. apply rotr_range. Qed.
