(* ===== verification/HashMd5.v ===== *)
(** * MD5 of picohash.h refines RFC 1321

    The unrolled, in-place rounds compute the reference compression, and a
    context fed by any sequence of updates holds the run of the reference over
    the complete blocks of everything received, with the remainder buffered. *)

From S2P Require Import Prelude Picohash HashSpec.

Lemma md5_set_words ptr :
  length ptr = 64%nat -> bytes_ok ptr -> map (md5_set ptr) (seq 0 16) = words_of le_word ptr.
Proof.
  intros Hl Hb. apply map_seq_ext. intros i Hi. rewrite take4_nth by lia.
  unfold md5_set. rewrite (Nat.mul_comm i), Nat.add_0_r. apply le_word4; by apply nth_byte.
Qed.

(** ** The round functions *)
Lemma md5_F_Ch x y z : md5_F x y z = Ch x y z.
Proof. unfold md5_F, Ch. revert x y z. bits. Qed.
Lemma md5_G_Ch x y z : md5_G x y z = Ch z x y.
Proof. unfold md5_G, Ch. revert x y z. bits. Qed.

Lemma md5_step_eq f a b c d x t s :
  0 < s < 32 -> md5_step f a b c d x t s = u32 (b + rotl s (u32 (a + f b c d + x + t))).
Proof.
  intros Hs. unfold md5_step, rotl, rotr. cbv zeta. rewrite land_u32.
  replace (32 - (32 - s)) with s by lia.
  replace (a + (f b c d + x + t)) with (a + f b c d + x + t) by lia.
  rewrite Z.lor_comm. f_equal. lia.
Qed.

(** ** The rounds: the register a line assigns rotates through a, d, c, b *)
Definition next_reg (r : md5_reg) : md5_reg :=
  match r with Ra => Rd | Rd => Rc | Rc => Rb | Rb => Ra end.
Definition view (r : md5_reg) (st : md5_regs) : md5_regs :=
  let '(a, b, c, d) := st in
  match r with Ra => (a, b, c, d) | Rd => (d, a, b, c) | Rc => (c, d, a, b) | Rb => (b, c, d, a) end.

Definition line_ok (r : md5_reg) (i : nat) (l : md5_line) : Prop :=
  let 'STEP f r' n t s := l in
  r' = r /\ (forall x y z, f x y z = MD5_f i x y z) /\ n = MD5_g i /\ t = nth i MD5_T 0 /\ s = MD5_s i /\ 0 < s < 32.

Fixpoint lines_ok (r : md5_reg) (i : nat) (ls : list md5_line) : Prop :=
  match ls with [] => True | l :: ls' => line_ok r i l /\ lines_ok (next_reg r) (S i) ls' end.

Lemma line_run_step X r i l st :
  line_ok r i l -> view (next_reg r) (md5_line_run X st l) = MD5_step X (view r st) i.
Proof.
  destruct l as [f r' n t s], st as [[[a b] c] d]. intros (-> & Hf & -> & -> & -> & Hs).
  destruct r; simpl; by rewrite md5_step_eq, Hf.
Qed.

Lemma lines_run X ls : forall r i st, lines_ok r i ls ->
  view (Nat.iter (length ls) next_reg r) (fold_left (md5_line_run X) ls st) =
  fold_left (MD5_step X) (seq i (length ls)) (view r st).
Proof.
  induction ls as [|l ls IH]; intros r i st Hok; [done|].
  destruct Hok as [Hl Hls]. cbn [length seq fold_left].
  rewrite <- (line_run_step X r i l st Hl), <- IH by done.
  by rewrite Nat.iter_succ_r.
Qed.

Lemma md5_steps_ok : lines_ok Ra 0 md5_steps.
Proof.
  unfold md5_steps. repeat split; try reflexivity; try (vm_compute; reflexivity).
  all: intros; first [apply md5_F_Ch | apply md5_G_Ch | reflexivity].
Qed.

Lemma md5_rounds X st : fold_left (md5_line_run X) md5_steps st = fold_left (MD5_step X) (seq 0 64) st.
Proof.
  pose proof (lines_run X md5_steps Ra 0 st md5_steps_ok) as H.
  change (length md5_steps) with 64%nat in H.
  destruct st as [[[a b] c] d]. cbn [view] in H. etransitivity; [|exact H].
  change (Nat.iter 64 next_reg Ra) with Ra.
  by destruct (fold_left (md5_line_run X) md5_steps (a, b, c, d)) as [[[? ?] ?] ?].
Qed.

(** ** The body *)
Lemma md5_block_regs_eq st block : md5_block_regs (words_of le_word block) st = MD5_compress st block.
Proof.
  unfold MD5_compress, md5_block_regs. rewrite md5_rounds.
  destruct st as [[[sa sb] sc] sd].
  generalize (fold_left (MD5_step (words_of le_word block)) (seq 0 64) (sa, sb, sc, sd)).
  intros [[[a b] c] d].
  by rewrite (Z.add_comm a), (Z.add_comm b), (Z.add_comm c), (Z.add_comm d).
Qed.

Lemma md5_body_loop_spec n : forall fuel st block p x,
  length p = (64 * n)%nat -> (1 <= n <= fuel)%nat -> bytes_ok p -> 64 * Z.of_nat n < 2 ^ 32 ->
  exists block', md5_body_loop fuel st block (p ++ x) (64 * Z.of_nat n) =
    Some (fold_left MD5_compress (chunks n p) st, block', x).
Proof.
  induction n as [|n IH]; intros [|fuel] st block p x Hp Hn Hb Hsz; try lia.
  cbn [md5_body_loop chunks fold_left].
  assert (Hp64 : length (take 64 p) = 64%nat) by (rewrite length_take; lia).
  rewrite load_ok by (unfold lenZ; rewrite ?length_app; lia).
  change (Z.to_nat 64) with 64%nat. change (Z.to_nat 0) with 0%nat.
  rewrite drop_0, take_app_le, drop_app_le by lia.
  rewrite md5_set_words by (done || by apply Forall_take). rewrite md5_block_regs_eq.
  replace (u32 (64 * Z.of_nat (S n) - 64)) with (64 * Z.of_nat n) by (rewrite wrap_small by lia; lia).
  case_test; zify_bool.
  - assert (n = 0)%nat as -> by lia. simpl chunks. rewrite drop_ge by lia. eexists. done.
  - apply IH; [rewrite length_drop; lia | lia | by apply Forall_drop | lia].
Qed.

Definition md5_state (ctx : md5_ctx) : md5_regs := (md5_a ctx, md5_b ctx, md5_c ctx, md5_d ctx).

(** [ctx] with the registers and the words of the last block changed. *)
Definition md5_with (ctx : md5_ctx) (st : md5_regs) (block : list Z) : md5_ctx :=
  let '(a, b, c, d) := st in mkMd5 (md5_lo ctx) (md5_hi ctx) a b c d (md5_buffer ctx) block.

Lemma md5_with_proj ctx st block :
  md5_state (md5_with ctx st block) = st /\ md5_lo (md5_with ctx st block) = md5_lo ctx /\
  md5_hi (md5_with ctx st block) = md5_hi ctx /\ md5_buffer (md5_with ctx st block) = md5_buffer ctx.
Proof. by destruct st as [[[? ?] ?] ?]. Qed.

Lemma md5_body_spec ctx n p x :
  length p = (64 * n)%nat -> (1 <= n)%nat -> bytes_ok p -> 64 * Z.of_nat n < 2 ^ 32 ->
  exists block, md5_body ctx (p ++ x) (64 * Z.of_nat n) =
    Some (md5_with ctx (fold_left MD5_compress (chunks n p) (md5_state ctx)) block, x).
Proof.
  intros Hp Hn Hb Hsz.
  destruct (md5_body_loop_spec n n (md5_state ctx) (md5_block ctx) p x) as [block Hbody]; [done | lia | done | done |].
  exists block. unfold md5_body.
  replace (Z.to_nat (64 * Z.of_nat n / 64)) with n by (rewrite (Z.mul_comm 64), Z.div_mul by lia; lia).
  unfold md5_state in *. rewrite Hbody.
  by destruct (fold_left MD5_compress (chunks n p) _) as [[[? ?] ?] ?].
Qed.

Lemma md5_body_block ctx b :
  length b = 64%nat -> bytes_ok b ->
  exists block, md5_body ctx b 64 = Some (md5_with ctx (MD5_compress (md5_state ctx) b) block, []).
Proof.
  intros Hl Hb. destruct (md5_body_spec ctx 1 b [] ltac:(lia) ltac:(lia) Hb ltac:(lia)) as [block H].
  exists block. rewrite app_nil_r in H. change (64 * Z.of_nat 1) with 64 in H. rewrite H.
  simpl chunks. by rewrite take_ge by lia.
Qed.

(** ** Streaming *)
#[local] Opaque MD5_compress md_run.

(** The context holds the run over the complete blocks of [m], and buffers the
    rest; [lo] and [hi] split the byte count at bit 29. *)
Record md5_repr (ctx : md5_ctx) (m : list Z) : Prop := {
  md5_repr_state : md5_state ctx = md_run MD5_compress MD5_iv m;
  md5_repr_lo : md5_lo ctx = lenZ m `mod` 2 ^ 29;
  md5_repr_hi : md5_hi ctx = (lenZ m / 2 ^ 29) `mod` 2 ^ 32;
  md5_repr_buffer : exists stale, md5_buffer ctx = rest m ++ stale /\ (length (rest m ++ stale) = 64)%nat;
  md5_repr_bytes : bytes_ok m
}.

Lemma md5_used ctx m : md5_repr ctx m -> Z.land (md5_lo ctx) 0x3f = lenZ (rest m).
Proof.
  intros Hr. rewrite (md5_repr_lo _ _ Hr), lenZ_rest. change 0x3f with (2 ^ 6 - 1).
  rewrite land_ones_mod by lia. change (2 ^ 6) with 64. change (2 ^ 29) with 536870912. lia_mod.
Qed.

Lemma md5_count_spec ctx m x :
  md5_repr ctx m ->
  md5_count ctx (lenZ x) =
    mkMd5 (lenZ (m ++ x) `mod` 2 ^ 29) ((lenZ (m ++ x) / 2 ^ 29) `mod` 2 ^ 32)
      (md5_a ctx) (md5_b ctx) (md5_c ctx) (md5_d ctx) (md5_buffer ctx) (md5_block ctx).
Proof.
  intros [_ Hlo Hhi _ _]. unfold md5_count. simpl. rewrite Hlo, Hhi, lenZ_app.
  change 0x1fffffff with (2 ^ 29 - 1). rewrite land_ones_mod, Z.shiftr_div_pow2 by lia.
  pose proof (lenZ_nonneg m). pose proof (lenZ_nonneg x).
  set (p := lenZ m) in *. set (q := lenZ x) in *. clearbody p q.
  assert (Hl : u32 (p `mod` 2 ^ 29 + q) `mod` 2 ^ 29 = (p + q) `mod` 2 ^ 29).
  { rewrite u32_eq. change (2 ^ 29) with 536870912. lia_mod. }
  rewrite Hl. f_equal. unfold wrap. case_test; zify_bool;
  change (2 ^ 29) with 536870912 in *; change (2 ^ 32) with 4294967296; lia_mod.
Qed.

Lemma land_not_63 x : 0 <= x < 2 ^ 32 -> Z.land x (u32 (Z.lnot 0x3f)) = 64 * (x / 64).
Proof.
  intros Hx. change (u32 (Z.lnot 0x3f)) with (Z.shiftl (Z.ones 26) 6).
  rewrite Z.mul_comm. change 64 with (2 ^ 6). rewrite <- Z.shiftr_div_pow2, <- Z.shiftl_mul_pow2 by lia.
  apply Z.bits_inj'. intros i Hi. rewrite Z.land_spec.
  destruct (Z.lt_ge_cases i 6).
  - by rewrite !Z.shiftl_spec_low, andb_false_r.
  - rewrite !Z.shiftl_spec, Z.shiftr_spec, Z.testbit_ones_nonneg by lia.
    replace (i - 6 + 6) with i by lia.
    destruct (Z.lt_ge_cases i 32); [|by rewrite (testbit_above 32 x i)].
    replace (i - 6 <? 26) with true by (symmetry; apply Z.ltb_lt; lia). apply andb_true_r.
Qed.

(** A context with nothing buffered: the state is the run over [m]. *)
Lemma md5_update_tail_spec ctx m x :
  length (md5_buffer ctx) = 64%nat -> rest m = [] -> bytes_ok x -> lenZ x < 2 ^ 32 ->
  md5_state ctx = md_run MD5_compress MD5_iv m ->
  exists ctx', md5_update_tail ctx x = Some ctx' /\
    md5_state ctx' = md_run MD5_compress MD5_iv (m ++ x) /\
    md5_lo ctx' = md5_lo ctx /\ md5_hi ctx' = md5_hi ctx /\
    exists stale, md5_buffer ctx' = rest (m ++ x) ++ stale /\ (length (rest (m ++ x) ++ stale) = 64)%nat.
Proof.
  intros Hbuf Hrest Hx Hlen Hst. rewrite rest_app, Hrest. simpl app. rewrite md_run_app, Hrest. simpl app.
  assert (Hlast : forall c, length (md5_buffer c) = 64%nat -> exists stale,
    md5_set_buffer c 0 (rest x) = Some (c <| md5_buffer := rest x ++ stale |>) /\ (length (rest x ++ stale) = 64)%nat).
  { intros c Hc. exists (drop (length (rest x)) (md5_buffer c)). unfold md5_set_buffer.
    pose proof (length_rest_lt x).
    rewrite (store_prefix _ _ _ [] (md5_buffer c)) by (done || lia). split; [done|].
    rewrite length_app, length_drop. lia. }
  unfold md5_update_tail. cbv zeta. case_test; zify_bool.
  - destruct (full_prefix x) as (p & Hxp & Hp & Hblocks).
    set (n := (length x / 64)%nat) in *.
    assert (Hn : (1 <= n)%nat) by (subst n; unfold lenZ in *; apply Nat.div_le_lower_bound; lia).
    assert (Hdiv : lenZ x / 64 = Z.of_nat n) by (subst n; unfold lenZ; by rewrite Nat2Z.inj_div).
    rewrite land_not_63, Hdiv by (pose proof (lenZ_nonneg x); lia).
    assert (Hpb : bytes_ok p) by (rewrite Hxp in Hx; by apply Forall_app in Hx as [? _]).
    destruct (md5_body_spec ctx n p (rest x) Hp Hn Hpb) as [block Hbody]; [rewrite <- Hdiv; lia_mod|].
    rewrite <- Hxp in Hbody. rewrite Hbody.
    set (ctx1 := md5_with _ _ _).
    destruct (md5_with_proj ctx (fold_left MD5_compress (chunks n p) (md5_state ctx)) block)
      as (H1 & H2 & H3 & H4). fold ctx1 in H1, H2, H3, H4.
    destruct (Hlast ctx1) as (stale & Hset & Hls); [by rewrite H4|]. rewrite Hset.
    eexists. split; [done|]. split_and!; [|done|done|by exists stale].
    change (md5_state (ctx1 <| md5_buffer := rest x ++ stale |>)) with (md5_state ctx1).
    rewrite H1, Hst. unfold md_run at 2. by rewrite Hblocks.
  - destruct (blocks_small x) as [_ Hr]; [unfold lenZ in *; lia|].
    destruct (Hlast ctx Hbuf) as (stale & Hset & Hls). rewrite Hr in *. rewrite Hset.
    eexists. split; [done|]. split_and!; [|done|done|by exists stale].
    rewrite md_run_small by (unfold lenZ in *; lia). done.
Qed.

Lemma md5_update_spec ctx m x :
  md5_repr ctx m -> bytes_ok x -> lenZ x < 2 ^ 32 ->
  exists ctx', md5_update ctx x = Some ctx' /\ md5_repr ctx' (m ++ x).
Proof.
  intros Hr Hx Hlen. pose proof Hr as [Hst Hlo Hhi (stale & Hbuf & Hl) Hm].
  unfold md5_update. cbv zeta. rewrite (md5_used ctx m Hr), (md5_count_spec ctx m x Hr).
  set (ctx1 := mkMd5 _ _ _ _ _ _ _ _).
  assert (Hmx : bytes_ok (m ++ x)) by (by apply Forall_app_2).
  pose proof (length_rest_lt m) as Hlt.
  assert (Hbuf1 : md5_buffer ctx1 = rest m ++ stale) by done.
  case_test; zify_bool.
  2: { (* nothing buffered *)
    assert (Hrest : rest m = []) by (destruct (rest m); [done | unfold lenZ in *; simpl in *; lia]).
    destruct (md5_update_tail_spec ctx1 m x) as (ctx' & -> & H1 & H2 & H3 & H4); [by rewrite Hbuf1 | done..|].
    exists ctx'. split; [done|]. split; [exact H1 | rewrite H2; reflexivity | rewrite H3; reflexivity | exact H4 | exact Hmx]. }
  rewrite length_app in Hl.
  case_test; zify_bool.
  - (* still less than a block *)
    assert (Hsmall : (length (rest m ++ x) < 64)%nat) by (rewrite length_app; unfold lenZ in *; lia).
    unfold md5_set_buffer. rewrite (store_prefix _ x _ (rest m) stale Hbuf1) by (done || unfold lenZ in *; lia).
    eexists. split; [done|]. split; [| done | done | | done].
    + change (md5_state ctx = md_run MD5_compress MD5_iv (m ++ x)). by rewrite md_run_app, md_run_small.
    + exists (drop (length x) stale). rewrite rest_app, (proj2 (blocks_small _ Hsmall)), <- app_assoc.
      split; [done|]. rewrite !length_app, length_drop. unfold lenZ in *. lia.
  - (* the buffer is completed and processed *)
    set (free := 64 - lenZ (rest m)) in *.
    assert (Hfree : (Z.to_nat free <= length x)%nat) by (unfold lenZ in *; lia).
    set (head := take (Z.to_nat free) x). set (tail := drop (Z.to_nat free) x).
    assert (Hhead : length head = (64 - length (rest m))%nat) by (subst head; rewrite length_take; unfold lenZ in *; lia).
    assert (Hxht : x = head ++ tail) by (symmetry; apply take_drop).
    rewrite load_ok by (unfold lenZ in *; lia). rewrite drop_0. fold head.
    unfold md5_set_buffer at 1. rewrite (store_prefix _ head _ (rest m) stale Hbuf1) by (done || lia).
    rewrite (drop_ge stale), app_nil_r by lia. cbv beta iota.
    set (b := rest m ++ head).
    assert (Hb : length b = 64%nat) by (subst b; rewrite length_app; lia).
    assert (Hbb : bytes_ok b) by (apply Forall_app_2; [by apply rest_bytes | by apply Forall_take]).
    set (ctx2 := ctx1 <| md5_buffer := b |>). change (md5_buffer ctx2) with b.
    destruct (md5_body_block ctx2 b Hb Hbb) as [block ->]. cbv beta iota.
    set (ctx3 := md5_with _ _ _).
    destruct (md5_with_proj ctx2 (MD5_compress (md5_state ctx2) b) block) as (H1 & H2 & H3 & H4).
    fold ctx3 in H1, H2, H3, H4. clearbody ctx3.
    assert (Hsplit : m ++ x = (m ++ head) ++ tail) by (rewrite <- app_assoc; by rewrite <- Hxht).
    destruct (blocks_one b [] Hb) as [_ Hrb]. rewrite app_nil_r in Hrb.
    destruct (md5_update_tail_spec ctx3 (m ++ head) tail) as (ctx' & Ht & G1 & G2 & G3 & G4).
    { by rewrite H4. }
    { by rewrite rest_app. }
    { by apply Forall_drop. }
    { subst tail. unfold lenZ in *. rewrite length_drop. lia. }
    { rewrite H1, md_run_app. fold b. rewrite <- (app_nil_r b) at 2.
      rewrite md_run_one by exact Hb. rewrite md_run_small by (simpl; lia). rewrite <- Hst. reflexivity. }
    exists ctx'. split; [exact Ht|]. rewrite <- Hsplit in G1, G4.
    split; [exact G1 | rewrite G2, H2; reflexivity | rewrite G3, H3; reflexivity | exact G4 | exact Hmx].
Qed.

(** Little-endian output of a word. *)
Lemma out_le x : [u8 x; u8 (Z.shiftr x 8); u8 (Z.shiftr x 16); u8 (Z.shiftr x 24)] = le_bytes 4 x.
Proof.
  rewrite !Z.shiftr_div_pow2 by lia. unfold wrap. simpl.
  rewrite !Z.div_div by lia. reflexivity.
Qed.

(** The two counters are the 64-bit count of bits. *)
Lemma md5_counters n :
  le_bytes 4 (u32 (Z.shiftl (n `mod` 2 ^ 29) 3)) ++ le_bytes 4 ((n / 2 ^ 29) `mod` 2 ^ 32) = le_bytes 8 (8 * n).
Proof.
  rewrite Z.shiftl_mul_pow2, u32_eq by lia. change (2 ^ 3) with 8. change (2 ^ 29) with 536870912.
  change (2 ^ 32) with 4294967296. cbn [le_bytes app].
  repeat (apply (f_equal2 cons); [lia_mod|]). reflexivity.
Qed.

Lemma md5_set_buffer_at ctx off bs pre stale :
  md5_buffer ctx = pre ++ stale -> off = lenZ pre -> (length bs <= length stale)%nat ->
  md5_set_buffer ctx off bs = Some (ctx <| md5_buffer := pre ++ bs ++ drop (length bs) stale |>).
Proof. intros H1 H2 H3. unfold md5_set_buffer. by rewrite (store_prefix off bs _ pre stale). Qed.

Lemma md5_finish_spec ctx pre stale n :
  md5_buffer ctx = pre ++ stale -> length (pre ++ stale) = 64%nat -> (length pre <= 56)%nat -> bytes_ok pre ->
  md5_lo ctx = n `mod` 2 ^ 29 -> md5_hi ctx = (n / 2 ^ 29) `mod` 2 ^ 32 ->
  exists ctx', md5_finish ctx (lenZ pre) (64 - lenZ pre) =
    Some (ctx', let '(a, b, c, d) := MD5_compress (md5_state ctx) (pre ++ replicate (56 - length pre) 0 ++ le_bytes 8 (8 * n)) in
                flat_map (le_bytes 4) [a; b; c; d]) /\ length (md5_buffer ctx') = 64%nat.
Proof.
  intros Hbuf Hl Hpre Hb Hlo Hhi. rewrite length_app in Hl. unfold md5_finish. cbv zeta.
  replace (Z.to_nat (64 - lenZ pre - 8)) with (56 - length pre)%nat by (unfold lenZ; lia).
  set (zeros := replicate (56 - length pre) 0).
  assert (Hz : length zeros = (56 - length pre)%nat) by apply length_replicate.
  rewrite (md5_set_buffer_at ctx _ zeros pre stale Hbuf) by (done || lia).
  set (ctx1 := upd md5_buffer _ _).
  change (md5_lo ctx1) with (md5_lo ctx). change (md5_hi ctx1) with (md5_hi ctx).
  rewrite !out_le, Hlo, Hhi, md5_counters.
  rewrite (md5_set_buffer_at ctx1 56 _ (pre ++ zeros) (drop (length zeros) stale)).
  2: { simpl. by rewrite app_assoc. }
  2: { unfold lenZ. rewrite length_app. lia. }
  2: { rewrite length_le_bytes, length_drop. lia. }
  rewrite (drop_ge (drop _ _)) by (rewrite length_drop, length_le_bytes; lia). rewrite app_nil_r.
  rewrite <- app_assoc. set (b := pre ++ zeros ++ le_bytes 8 (8 * n)). set (ctx2 := upd md5_buffer _ _).
  change (md5_buffer ctx2) with b.
  destruct (md5_body_block ctx2 b) as [block ->].
  { subst b. rewrite !length_app, length_le_bytes. lia. }
  { apply Forall_app_2; [done|]. apply Forall_app_2; [|apply bytes_le_bytes].
    apply Forall_replicate. unfold is_byte. lia. }
  change (md5_state ctx2) with (md5_state ctx). cbv beta iota. rewrite !out_le.
  destruct (MD5_compress (md5_state ctx) b) as [[[a b'] c] d]. simpl md5_with.
  eexists. split; reflexivity.
Qed.

Lemma md5_final_spec ctx m :
  md5_repr ctx m -> exists ctx', md5_final ctx = Some (ctx', MD5 m) /\ length (md5_buffer ctx') = 64%nat.
Proof.
  intros Hr. pose proof Hr as [Hst Hlo Hhi (stale & Hbuf & Hl) Hm].
  pose proof (length_rest_lt m) as Hlt. pose proof (rest_bytes m Hm) as Hrb.
  rewrite length_app in Hl. unfold md5_final. cbv zeta. rewrite (md5_used ctx m Hr).
  rewrite (md5_set_buffer_at ctx _ _ (rest m) stale Hbuf) by (done || (simpl; lia)).
  change (length [128]) with 1%nat. set (ctx1 := upd md5_buffer _ _).
  assert (Hbuf1 : md5_buffer ctx1 = (rest m ++ [128]) ++ drop 1 stale) by (simpl; by rewrite <- app_assoc).
  assert (Hb80 : bytes_ok (rest m ++ [128])) by (apply Forall_app_2; [done|]; repeat constructor; done).
  replace (lenZ (rest m) + 1) with (lenZ (rest m ++ [128])) by (rewrite lenZ_app; done).
  unfold MD5. rewrite padded_run by apply length_le_bytes. cbv zeta.
  case_test; zify_bool; unfold lenZ in E; rewrite length_app in E; cbn [length] in E.
  - replace (length (rest m) <=? 55)%nat with false by (symmetry; apply Nat.leb_gt; lia).
    set (free := Z.to_nat (64 - lenZ (rest m ++ [128]))).
    assert (Hfree : free = (63 - length (rest m))%nat) by (subst free; unfold lenZ; rewrite length_app; simpl; lia).
    rewrite (md5_set_buffer_at ctx1 _ _ _ _ Hbuf1) by (done || (rewrite length_replicate, length_drop; lia)).
    rewrite (drop_ge (drop _ _)) by (rewrite length_drop, length_replicate; lia). rewrite app_nil_r.
    rewrite <- app_assoc, Hfree.
    set (b := rest m ++ [128] ++ replicate (63 - length (rest m)) 0). set (ctx2 := upd md5_buffer _ _).
    change (md5_buffer ctx2) with b.
    destruct (md5_body_block ctx2 b) as [block ->].
    { subst b. rewrite !length_app, length_replicate. simpl. lia. }
    { subst b. rewrite app_assoc. apply Forall_app_2; [done|]. apply Forall_replicate. unfold is_byte. lia. }
    set (ctx3 := md5_with _ _ _).
    destruct (md5_with_proj ctx2 (MD5_compress (md5_state ctx2) b) block) as (H1 & H2 & H3 & H4).
    fold ctx3 in H1, H2, H3, H4. clearbody ctx3. cbv beta iota.
    destruct (md5_finish_spec ctx3 [] b (lenZ m)) as (ctx' & H & Hsz).
    { exact H4. }
    { subst b. rewrite !length_app, length_replicate. simpl. lia. }
    { simpl. lia. }
    { apply Forall_nil_2. }
    { rewrite H2. exact Hlo. }
    { rewrite H3. exact Hhi. }
    exists ctx'. split; [|exact Hsz]. change (lenZ []) with 0 in H. change (64 - 0) with 64 in H. rewrite H, H1.
    change (md5_state ctx2) with (md5_state ctx). rewrite Hst. reflexivity.
  - replace (length (rest m) <=? 55)%nat with true by (symmetry; apply Nat.leb_le; lia).
    destruct (md5_finish_spec ctx1 (rest m ++ [128]) (drop 1 stale) (lenZ m)) as (ctx' & H & Hsz); [done | | | done | done | done |].
    { rewrite !length_app, length_drop. simpl. lia. }
    { rewrite length_app. simpl. lia. }
    exists ctx'. split; [|exact Hsz]. rewrite H. change (md5_state ctx1) with (md5_state ctx). rewrite Hst, <- app_assoc.
    rewrite (length_app _ [128]). cbn [length].
    replace (56 - (length (rest m) + 1))%nat with (55 - length (rest m))%nat by lia. reflexivity.
Qed.

Lemma md5_init_spec ctx : length (md5_buffer ctx) = 64%nat -> md5_repr (md5_init ctx) [].
Proof.
  intros Hl. split; [reflexivity | reflexivity | reflexivity | | apply Forall_nil_2].
  exists (md5_buffer ctx). split; [reflexivity | exact Hl].
Qed.
