(* ===== verification/HashSha1.v ===== *)
(** * SHA-1 of picohash.h refines FIPS 180-4

    The code keeps the last 16 words of the schedule in the block buffer
    itself; the reference computes the 80-word schedule. *)

From S2P Require Import Prelude Picohash HashSpec.

(** ** The rounds *)
Lemma sha1_rol32_rotl x n : 0 < n < 32 -> sha1_rol32 x n = rotl n x.
Proof.
  intros Hn. unfold sha1_rol32, rotl, rotr. cbv zeta. rewrite Z.lor_comm. f_equal.
  replace (32 - (32 - n)) with n by lia. rewrite !Z.shiftl_mul_pow2 by lia.
  unfold wrap. by rewrite Zmult_mod_idemp_l.
Qed.

Definition SHA1_next (w : nat -> Z) : Z :=
  rotl 1 (Z.lxor (Z.lxor (Z.lxor (w 3%nat) (w 8%nat)) (w 14%nat)) (w 16%nat)).

Lemma SHA1_next_ext f f' : (forall k, (1 <= k <= 16)%nat -> f k = f' k) -> SHA1_next f = SHA1_next f'.
Proof. intros H. unfold SHA1_next. by rewrite !H by lia. Qed.

Lemma length_words_of word b : length (words_of word b) = 16%nat.
Proof. unfold words_of. by rewrite length_map, length_seq. Qed.

Lemma SHA1_W_nth b t : (16 <= t < 80)%nat -> nth t (SHA1_W b) 0 = SHA1_next (fun k => nth (t - k) (SHA1_W b) 0).
Proof.
  intros Ht. apply (schedule_nth SHA1_next SHA1_next_ext 64 (words_of be_word b)); rewrite length_words_of; lia.
Qed.

Lemma SHA1_W_word b t : (t < 16)%nat -> nth t (SHA1_W b) 0 = nth t (words_of be_word b) 0.
Proof. intros Ht. apply (schedule_prefix SHA1_next 64 (words_of be_word b)). rewrite length_words_of. lia. Qed.

#[local] Opaque SHA1_W.

(** The buffer holds the words of the schedule around step [i]. *)
Definition sha1_window (W w : list Z) (i : nat) : Prop :=
  length w = 16%nat /\ forall k, (i - 16 <= k < Nat.max i 16)%nat -> nth (k mod 16) w 0 = nth k W 0.

Lemma nth_insert_eq (l : list Z) i x : (i < length l)%nat -> nth i (<[i:=x]> l) 0 = x.
Proof. intros. rewrite !nth_lookup. by rewrite list_lookup_insert_eq by lia. Qed.
Lemma nth_insert_ne (l : list Z) i j x : i <> j -> nth j (<[i:=x]> l) 0 = nth j l 0.
Proof. intros. rewrite !nth_lookup. by rewrite list_lookup_insert_ne. Qed.

Lemma ring_back i j k : (16 <= i)%nat -> (j + k = 16)%nat -> ring i j = ((i - k) mod 16)%nat.
Proof.
  intros Hi Hj. unfold ring. replace (i + j)%nat with (i - k + 1 * 16)%nat by lia. by rewrite Nat.Div0.mod_add.
Qed.

Lemma mod16_inj i k : (i mod 16 = k mod 16 -> i < k + 16 -> k < i + 16 -> i = k)%nat.
Proof. pose proof (Nat.div_mod i 16). pose proof (Nat.div_mod k 16). intros. nia. Qed.

Lemma mod16_lt i : (i mod 16 < 16)%nat.
Proof. apply Nat.mod_upper_bound. lia. Qed.

Lemma nat_div_eq a b q : (b * q <= a < b * q + b)%nat -> (a / b = q)%nat.
Proof. intros. symmetry. apply (Nat.div_unique a b q (a - b * q)); lia. Qed.

Lemma sha1_f_eq i b c d :
  (i < 80)%nat ->
  (if (i <? 20)%nat then u32 (Z.lxor d (Z.land b (Z.lxor c d)) + 0x5a827999)
   else if (i <? 40)%nat then u32 (Z.lxor (Z.lxor b c) d + 0x6ed9eba1)
   else if (i <? 60)%nat then u32 (Z.lor (Z.land b c) (Z.land d (Z.lor b c)) + 0x8f1bbcdc)
   else u32 (Z.lxor (Z.lxor b c) d + 0xca62c1d6)) = u32 (SHA1_f i b c d + SHA1_K i).
Proof.
  intros Hi. unfold SHA1_f, SHA1_K.
  case_test; [apply Nat.ltb_lt in E | apply Nat.ltb_ge in E; case_test;
    [apply Nat.ltb_lt in E0 | apply Nat.ltb_ge in E0; case_test;
      [apply Nat.ltb_lt in E1 | apply Nat.ltb_ge in E1]]].
  - rewrite (nat_div_eq i 20 0) by lia. do 2 f_equal. unfold Ch. clear. revert b c d. bits.
  - rewrite (nat_div_eq i 20 1) by lia. reflexivity.
  - rewrite (nat_div_eq i 20 2) by lia. do 2 f_equal. unfold Maj. clear. revert b c d. bits.
  - rewrite (nat_div_eq i 20 3) by lia. reflexivity.
Qed.

Lemma sha1_round_step b w i st :
  (i < 80)%nat -> sha1_window (SHA1_W b) w i ->
  exists w', sha1_round i w st = (w', SHA1_step (SHA1_W b) st i) /\ sha1_window (SHA1_W b) w' (S i).
Proof.
  intros Hi [Hlen Hw]. set (W := SHA1_W b) in *.
  set (w' := if (16 <=? i)%nat
             then <[ring i 0 := sha1_rol32 (Z.lxor (Z.lxor (Z.lxor (nth (ring i 13) w 0) (nth (ring i 8) w 0))
                    (nth (ring i 2) w 0)) (nth (ring i 0) w 0)) 1]> w
             else w).
  assert (Hw' : sha1_window W w' (S i)).
  { subst w'. case_test; [apply Nat.leb_le in E | apply Nat.leb_gt in E].
    - assert (Hnew : sha1_rol32 (Z.lxor (Z.lxor (Z.lxor (nth (ring i 13) w 0) (nth (ring i 8) w 0))
                    (nth (ring i 2) w 0)) (nth (ring i 0) w 0)) 1 = nth i W 0).
      { rewrite sha1_rol32_rotl by lia. unfold W. rewrite SHA1_W_nth by lia. unfold SHA1_next. fold W.
        rewrite (ring_back i 13 3), (ring_back i 8 8), (ring_back i 2 14), (ring_back i 0 16) by lia.
        by rewrite !Hw by lia. }
      rewrite Hnew. rewrite (ring_back i 0 16) by lia.
      replace ((i - 16) mod 16)%nat with (i mod 16)%nat
        by (replace i with (i - 16 + 1 * 16)%nat at 1 by lia; by rewrite Nat.Div0.mod_add).
      split; [by rewrite length_insert|]. intros k Hk. pose proof (mod16_lt i).
      destruct (decide (k = i)) as [->|Hki].
      + by rewrite nth_insert_eq by lia.
      + rewrite nth_insert_ne by (intros Heq; apply Hki; apply mod16_inj; lia). apply Hw. lia.
    - split; [done|]. intros k Hk. apply Hw. lia. }
  exists w'. split; [|done]. unfold sha1_round. fold w'.
  destruct st as [[[[a b'] c] d] e]. rewrite sha1_f_eq by done.
  replace (nth (ring i 0) w' 0) with (nth i W 0).
  2: { symmetry. unfold ring. rewrite Nat.add_0_r. apply Hw'. lia. }
  rewrite !sha1_rol32_rotl by lia. unfold SHA1_step. fold W. do 5 f_equal.
  unfold wrap. rewrite Zplus_mod_idemp_l. f_equal. lia.
Qed.

Lemma sha1_rounds_run b n : forall i w st,
  (i + n <= 80)%nat -> sha1_window (SHA1_W b) w i ->
  exists w', sha1_rounds n i w st = (w', fold_left (SHA1_step (SHA1_W b)) (seq i n) st) /\ length w' = 16%nat.
Proof.
  induction n as [|n IH]; intros i w st Hi Hw; simpl.
  - exists w. split; [done | apply Hw].
  - destruct (sha1_round_step b w i st) as (w' & -> & Hw'); [lia | done |]. apply IH; [lia | done].
Qed.

(** ** The buffer: byte [j] of the block is at [j ^ 3] *)
Definition bx (j : nat) : nat := Z.to_nat (Z.lxor (Z.of_nat j) 3).

Lemma bx_involutive j : bx (bx j) = j.
Proof.
  unfold bx. rewrite Z2Nat.id by (apply Z.lxor_nonneg; lia). rewrite lxor_cancel_r. lia.
Qed.

Lemma bx_lt j : (j < 64)%nat -> (bx j < 64)%nat.
Proof.
  intros Hj. unfold bx. destruct (lxor_range 6 (Z.of_nat j) 3) as [H1 H2]; [lia..|].
  change (2 ^ 6) with 64 in H2. apply Nat2Z.inj_lt. rewrite Z2Nat.id by exact H1. exact H2.
Qed.

Lemma bx_word i : (i < 16)%nat ->
  bx (4 * i) = (4 * i + 3)%nat /\ bx (4 * i + 1) = (4 * i + 2)%nat /\
  bx (4 * i + 2) = (4 * i + 1)%nat /\ bx (4 * i + 3) = (4 * i)%nat.
Proof. intros Hi. do 16 (destruct i as [|i]; [done|]). lia. Qed.

Lemma words_le_be buf block :
  length buf = 64%nat -> length block = 64%nat ->
  (forall j, (j < 64)%nat -> nth (bx j) buf 0 = nth j block 0) ->
  words_le 16 buf = words_of be_word block.
Proof.
  intros Hb Hl H. apply map_seq_ext. intros i Hi. rewrite !take4_nth by lia.
  destruct (bx_word i Hi) as (H0 & H1 & H2 & H3).
  rewrite <- (H (4 * i)%nat), <- (H (4 * i + 1)%nat), <- (H (4 * i + 2)%nat), <- (H (4 * i + 3)%nat) by lia.
  by rewrite H0, H1, H2, H3.
Qed.

Lemma length_flat_le4 w : length (flat_map (le_bytes 4) w) = (4 * length w)%nat.
Proof. induction w as [|x w IH]; [done|]. cbn [flat_map]. rewrite length_app, IH, length_le_bytes. cbn [length]. lia. Qed.

Lemma sha1_hash_block_spec s block :
  length (sha1_buffer s) = 64%nat -> length block = 64%nat ->
  (forall j, (j < 64)%nat -> nth (bx j) (sha1_buffer s) 0 = nth j block 0) ->
  exists buf, sha1_hash_block s = mkSha1 buf (SHA1_compress (sha1_state s) block) (sha1_byteCount s) (sha1_bufferOffset s) /\
    length buf = 64%nat.
Proof.
  intros Hb Hl H. unfold sha1_hash_block, SHA1_compress. rewrite (words_le_be _ block) by done.
  destruct (sha1_rounds_run block 80 0 (words_of be_word block)
    (nth 0 (sha1_state s) 0, nth 1 (sha1_state s) 0, nth 2 (sha1_state s) 0, nth 3 (sha1_state s) 0, nth 4 (sha1_state s) 0))
    as (w' & Hrun & Hw'); [lia | |].
  { split; [apply length_words_of|]. intros k Hk. rewrite Nat.mod_small, SHA1_W_word by lia. done. }
  cbv zeta. rewrite Hrun. clear Hrun.
  generalize (fold_left (SHA1_step (SHA1_W block)) (seq 0 80)
    (nth 0 (sha1_state s) 0, nth 1 (sha1_state s) 0, nth 2 (sha1_state s) 0, nth 3 (sha1_state s) 0, nth 4 (sha1_state s) 0)).
  intros [[[[a b] c] d] e]. exists (flat_map (le_bytes 4) w'). split; [reflexivity|].
  rewrite length_flat_le4. lia.
Qed.
#[local] Opaque SHA1_compress md_run sha1_hash_block.

(** ** Streaming *)

(** The bytes [y] went through [_picohash_sha1_add_uncounted]. *)
Record sha1_fed (s : sha1_ctx) (y : list Z) : Prop := {
  sha1_fed_state : sha1_state s = md_run SHA1_compress SHA1_iv y;
  sha1_fed_offset : sha1_bufferOffset s = lenZ (rest y);
  sha1_fed_length : length (sha1_buffer s) = 64%nat;
  sha1_fed_buffer : forall j, (j < length (rest y))%nat -> nth (bx j) (sha1_buffer s) 0 = nth j (rest y) 0
}.

Definition sha1_repr (s : sha1_ctx) (m : list Z) : Prop :=
  sha1_fed s m /\ sha1_byteCount s = u64 (lenZ m).

Lemma store1_nth off d (mem : list Z) :
  0 <= off < lenZ mem -> exists mem', store off [d] mem = Some mem' /\ length mem' = length mem /\
    forall i, nth i mem' 0 = if (i =? Z.to_nat off)%nat then d else nth i mem 0.
Proof.
  intros Hoff. unfold store. change (lenZ [d]) with 1. change (length [d]) with 1%nat.
  replace ((0 <=? off) && (off + 1 <=? lenZ mem)) with true by (symmetry; apply andb_true_iff; split; apply Z.leb_le; lia).
  unfold lenZ in Hoff. set (o := Z.to_nat off). eexists. split; [done|]. split.
  - rewrite !length_app, length_take, length_drop. simpl. lia.
  - intros i. rewrite <- (take_drop o mem) at 3.
    assert (Ho : length (take o mem) = o) by (rewrite length_take; lia).
    case_test; [apply Nat.eqb_eq in E; subst i | apply Nat.eqb_neq in E].
    + rewrite app_nth2, Ho, Nat.sub_diag by lia. done.
    + destruct (Nat.lt_ge_cases i o); [by rewrite !app_nth1 by lia|].
      rewrite !app_nth2 by (simpl; lia). rewrite Ho. simpl length.
      rewrite <- drop_drop.
      replace (i - o)%nat with (S (i - o - 1)) by lia.
      destruct (drop o mem) as [|x l]; [by destruct (i - o - 1)%nat|]. simpl. by rewrite drop_0, Nat.sub_0_r.
Qed.

Lemma sha1_add_spec s y d :
  sha1_fed s y -> exists s', sha1_add_uncounted s d = Some s' /\ sha1_fed s' (y ++ [d]) /\
    sha1_byteCount s' = sha1_byteCount s.
Proof.
  intros [Hst Hoff Hlen Hbuf]. unfold sha1_add_uncounted.
  pose proof (length_rest_lt y) as Hlt. pose proof (bx_lt _ Hlt) as Hbx.
  destruct (store1_nth (Z.lxor (sha1_bufferOffset s) 3) d (sha1_buffer s)) as (buf & -> & Hl & Hnth).
  { rewrite Hoff. unfold lenZ, bx in *. rewrite Hlen.
    destruct (lxor_range 6 (Z.of_nat (length (rest y))) 3) as [H1 H2]; [lia..|]. lia. }
  rewrite Hoff in Hnth. change (Z.to_nat (Z.lxor (lenZ (rest y)) 3)) with (bx (length (rest y))) in Hnth.
  cbv zeta. set (s1 := upd sha1_bufferOffset _ _).
  assert (Ho1 : sha1_bufferOffset s1 = lenZ (rest y ++ [d])).
  { change (sha1_bufferOffset s1) with (u8 (sha1_bufferOffset s + 1)). rewrite Hoff, lenZ_app.
    apply wrap_small. unfold lenZ. simpl. lia. }
  change (sha1_buffer s1) with buf in *.
  assert (Hb1 : forall j, (j < length (rest y ++ [d]))%nat -> nth (bx j) buf 0 = nth j (rest y ++ [d]) 0).
  { intros j Hj. rewrite length_app in Hj. simpl in Hj. rewrite Hnth.
    case_test; [apply Nat.eqb_eq in E | apply Nat.eqb_neq in E].
    - apply (f_equal bx) in E. rewrite !bx_involutive in E. subst j.
      rewrite app_nth2, Nat.sub_diag by lia. done.
    - assert (j <> length (rest y)) by congruence. rewrite app_nth1 by lia. apply Hbuf. lia. }
  rewrite Ho1. case_test; zify_bool; unfold lenZ in E.
  - assert (Hl64 : length (rest y ++ [d]) = 64%nat) by lia.
    destruct (sha1_hash_block_spec s1 (rest y ++ [d])) as (buf' & -> & Hb'); [simpl; lia | done | |].
    { intros j Hj. apply Hb1. lia. }
    eexists. split; [reflexivity|].
    destruct (blocks_one (rest y ++ [d]) [] Hl64) as [_ Hr0]. rewrite app_nil_r in Hr0.
    split; [|reflexivity]. split.
    + change (SHA1_compress (sha1_state s) (rest y ++ [d]) = md_run SHA1_compress SHA1_iv (y ++ [d])).
      rewrite md_run_app, <- (app_nil_r (rest y ++ [d])), md_run_one by exact Hl64.
      rewrite md_run_small by (simpl; lia). rewrite app_nil_r, Hst. reflexivity.
    + rewrite rest_app, Hr0. reflexivity.
    + exact Hb'.
    + intros j Hj. rewrite rest_app, Hr0 in Hj. simpl in Hj. lia.
  - rewrite length_app in E. simpl in E.
    assert (Hs : (length (rest y ++ [d]) < 64)%nat) by (rewrite length_app; simpl; lia).
    destruct (blocks_small _ Hs) as [_ Hr]. exists s1. split; [reflexivity|]. split; [|reflexivity].
    split.
    + change (sha1_state s = md_run SHA1_compress SHA1_iv (y ++ [d])).
      rewrite md_run_app, md_run_small by exact Hs. exact Hst.
    + rewrite rest_app, Hr. exact Ho1.
    + change (length buf = 64%nat). lia.
    + rewrite rest_app, Hr. exact Hb1.
Qed.

Lemma sha1_count_fed s y n : sha1_fed s y -> sha1_fed (s <| sha1_byteCount := n |>) y.
Proof. by intros [H1 H2 H3 H4]. Qed.

Lemma sha1_update_spec x : forall s m,
  sha1_repr s m -> exists s', sha1_update s x = Some s' /\ sha1_repr s' (m ++ x).
Proof.
  induction x as [|b x IH]; intros s m [Hfed Hcount]; cbn [sha1_update].
  - rewrite app_nil_r. by exists s.
  - destruct (sha1_add_spec (s <| sha1_byteCount := u64 (sha1_byteCount s + 1) |>) m b) as (s1 & -> & Hf1 & Hc1).
    { by apply sha1_count_fed. }
    destruct (IH s1 (m ++ [b])) as (s' & -> & Hs'); [split; [exact Hf1|]|].
    + rewrite Hc1. change (u64 (sha1_byteCount s + 1) = u64 (lenZ (m ++ [b]))). rewrite Hcount, lenZ_app.
      unfold wrap. by rewrite Zplus_mod_idemp_l.
    + exists s'. split; [done|]. by rewrite <- app_assoc in Hs'.
Qed.

Lemma sha1_add_all_spec bs : forall s y,
  sha1_fed s y -> exists s', sha1_add_all s bs = Some s' /\ sha1_fed s' (y ++ bs) /\ sha1_byteCount s' = sha1_byteCount s.
Proof.
  induction bs as [|b bs IH]; intros s y Hf; cbn [sha1_add_all].
  - exists s. by rewrite app_nil_r.
  - destruct (sha1_add_spec s y b Hf) as (s1 & -> & Hf1 & Hc1).
    destruct (IH s1 (y ++ [b]) Hf1) as (s' & -> & Hf' & Hc'). exists s'.
    rewrite <- app_assoc in Hf'. split_and!; [done | exact Hf' | by rewrite Hc'].
Qed.

Lemma sha1_pad_spec k : forall fuel s y,
  (k <= fuel)%nat -> sha1_fed s y -> k = Z.to_nat ((56 - lenZ y) `mod` 64) ->
  exists s', sha1_pad fuel s = Some s' /\ sha1_fed s' (y ++ replicate k 0) /\ sha1_byteCount s' = sha1_byteCount s.
Proof.
  induction k as [|k IH]; intros fuel s y Hfuel Hf Hk.
  - assert (Ho : sha1_bufferOffset s =? 56 = true).
    { rewrite (sha1_fed_offset _ _ Hf), lenZ_rest. apply Z.eqb_eq. pose proof (Z.mod_pos_bound (56 - lenZ y) 64). lia_mod. }
    exists s. simpl. rewrite app_nil_r. destruct fuel; cbn [sha1_pad]; by rewrite Ho.
  - destruct fuel as [|fuel]; [lia|]. cbn [sha1_pad].
    assert (Ho : sha1_bufferOffset s =? 56 = false).
    { rewrite (sha1_fed_offset _ _ Hf), lenZ_rest. apply Z.eqb_neq. lia_mod. }
    rewrite Ho. destruct (sha1_add_spec s y 0 Hf) as (s1 & -> & Hf1 & Hc1).
    destruct (IH fuel s1 (y ++ [0])) as (s' & -> & Hf' & Hc'); [lia | exact Hf1 | |].
    { rewrite lenZ_app. change (lenZ [0]) with 1. lia_mod. }
    exists s'. rewrite <- app_assoc in Hf'. split_and!; [done | exact Hf' | by rewrite Hc'].
Qed.

(** ** The digest *)
Lemma land_field y k : 0 <= k -> Z.land y (Z.shiftl 255 k) = Z.shiftl ((y / 2 ^ k) `mod` 256) k.
Proof.
  intros Hk. rewrite <- land_255, <- Z.shiftr_div_pow2 by lia.
  apply Z.bits_inj'. intros i Hi. rewrite Z.land_spec. destruct (Z.lt_ge_cases i k).
  - by rewrite !Z.shiftl_spec_low, andb_false_r.
  - rewrite !Z.shiftl_spec, Z.land_spec, Z.shiftr_spec by lia. by replace (i - k + k) with i by lia.
Qed.

Lemma sha1_swap_be x : le_bytes 4 (sha1_swap x) = be_bytes 4 x.
Proof.
  unfold sha1_swap.
  change 0xff000000 with (Z.shiftl 255 24). change 0x00ff0000 with (Z.shiftl 255 16).
  change 0x0000ff00 with (Z.shiftl 255 8).
  rewrite !land_field by lia. rewrite land_255, <- !Z.lor_assoc.
  rewrite !Z.shiftr_div_pow2, (Z.shiftl_mul_pow2 x), (Z.shiftl_mul_pow2 x), !u32_eq by lia.
  change (2 ^ 24) with 16777216. change (2 ^ 16) with 65536. change (2 ^ 8) with 256.
  rewrite (lor_shiftl_add _ _ 8) by lia_mod. change (2 ^ 8) with 256.
  rewrite (lor_shiftl_add _ _ 16) by (change (2 ^ 16) with 65536; lia_mod). change (2 ^ 16) with 65536.
  rewrite (lor_shiftl_add _ _ 24) by (change (2 ^ 24) with 16777216; lia_mod). change (2 ^ 24) with 16777216.
  unfold be_bytes. cbn [le_bytes rev app]. repeat (apply (f_equal2 cons); [lia_mod|]). reflexivity.
Qed.

Lemma sha1_count_be n :
  0 <= n ->
  [u8 (Z.shiftr (u64 n) 53); u8 (Z.shiftr (u64 n) 45); u8 (Z.shiftr (u64 n) 37); u8 (Z.shiftr (u64 n) 29);
   u8 (Z.shiftr (u64 n) 21); u8 (Z.shiftr (u64 n) 13); u8 (Z.shiftr (u64 n) 5); u8 (Z.shiftl (u64 n) 3)] =
  be_bytes 8 (8 * n).
Proof.
  intros Hn. rewrite !Z.shiftr_div_pow2, Z.shiftl_mul_pow2 by lia. unfold be_bytes. cbn [le_bytes rev app].
  unfold wrap. rewrite !Z.div_div by lia.
  change (2 ^ 64) with 18446744073709551616. change (2 ^ 53) with 9007199254740992.
  change (2 ^ 45) with 35184372088832. change (2 ^ 37) with 137438953472. change (2 ^ 29) with 536870912.
  change (2 ^ 21) with 2097152. change (2 ^ 13) with 8192. change (2 ^ 5) with 32. change (2 ^ 3) with 8.
  change (2 ^ 8) with 256. simpl (256 * _).
  repeat (apply (f_equal2 cons); [lia_mod|]). reflexivity.
Qed.

Lemma flat_map_map {A B C} (f : A -> B) (g : B -> list C) l : flat_map g (map f l) = flat_map (fun x => g (f x)) l.
Proof. induction l as [|x l IH]; [done|]. simpl. by rewrite IH. Qed.

Lemma sha1_final_spec s m : 
  sha1_repr s m -> exists s', sha1_final s = Some (s', SHA1 m) /\ length (sha1_buffer s') = 64%nat.
Proof.
  intros [Hf Hc]. unfold sha1_final.
  destruct (sha1_add_spec s m 0x80 Hf) as (s1 & -> & Hf1 & Hc1).
  destruct (sha1_pad_spec (Z.to_nat ((55 - lenZ m) `mod` 64)) 64 s1 (m ++ [128])) as (s2 & -> & Hf2 & Hc2).
  { lia_mod. }
  { exact Hf1. }
  { rewrite lenZ_app. change (lenZ [128]) with 1. f_equal. f_equal. lia. }
  cbv zeta. rewrite Hc2, Hc1, Hc, sha1_count_be by apply lenZ_nonneg.
  destruct (sha1_add_all_spec (be_bytes 8 (8 * lenZ m)) s2 _ Hf2) as (s3 & -> & Hf3 & _).
  eexists (upd sha1_state _ s3). split; [|exact (sha1_fed_length _ _ Hf3)]. f_equal. f_equal.
  change (flat_map (le_bytes 4) (map sha1_swap (sha1_state s3)) = SHA1 m).
  rewrite flat_map_map, (sha1_fed_state _ _ Hf3). unfold SHA1, padded. rewrite <- !app_assoc.
  apply flat_map_ext. intros x. apply sha1_swap_be.
Qed.

Lemma sha1_init_spec s : length (sha1_buffer s) = 64%nat -> sha1_repr (sha1_init s) [].
Proof.
  intros Hl. split; [|reflexivity]. split; [reflexivity | reflexivity | exact Hl |].
  intros j Hj. simpl in Hj. lia.
Qed.
