(* ===== verification/HashSha256.v ===== *)
(** * SHA-224 and SHA-256 of picohash.h refine FIPS 180-4 *)

From S2P Require Import Prelude Picohash HashSpec.

(** ** The compression function *)
Lemma sha256_s_rotr x y : 0 <= y < 32 -> sha256_s x y = rotr y x.
Proof.
  intros Hy. unfold sha256_s. change 31 with (2 ^ 5 - 1). rewrite (land_ones_mod 5), (Z.mod_small y (2 ^ 5)) by lia.
  rewrite !land_u32. fold (rotr y x). apply wrap_small, rotr_range. lia.
Qed.

Lemma sha256_K_roots : sha256_K = SHA256_K.
Proof. vm_compute. reflexivity. Qed.

Lemma sha256_sigma_eq x :
  sha256_sigma0 x = Sigma0 x /\ sha256_sigma1 x = Sigma1 x /\
  sha256_gamma0 x = sigma0 x /\ sha256_gamma1 x = sigma1 x.
Proof.
  unfold sha256_sigma0, sha256_sigma1, sha256_gamma0, sha256_gamma1, sha256_r.
  rewrite !sha256_s_rotr, land_u32 by lia. done.
Qed.

Lemma sha256_ch_eq x y z : sha256_ch x y z = Ch x y z.
Proof. unfold sha256_ch, Ch. revert x y z. bits. Qed.
Lemma sha256_maj_eq x y z : sha256_maj x y z = Maj x y z.
Proof. unfold sha256_maj, Maj. revert x y z. bits. Qed.

Lemma sha256_rnd_eq W st i : sha256_rnd W st i = SHA256_step W st i.
Proof.
  destruct st as [[[[[[[a b] c] d] e] f] g] h]. unfold sha256_rnd, SHA256_step.
  destruct (sha256_sigma_eq e) as (_ & -> & _). destruct (sha256_sigma_eq a) as (-> & _).
  by rewrite sha256_ch_eq, sha256_maj_eq, sha256_K_roots.
Qed.

Lemma sha256_fill_eq n W :
  sha256_fill n W = Nat.iter n (fun W =>
    let w k := nth (length W - k) W 0 in
    W ++ [u32 (sigma1 (w 2%nat) + w 7%nat + sigma0 (w 15%nat) + w 16%nat)]) W.
Proof.
  revert W. induction n as [|n IH]; intros W; [done|]. rewrite Nat.iter_succ_r, <- IH. cbn [sha256_fill].
  destruct (sha256_sigma_eq (nth (length W - 2) W 0)) as (_ & _ & _ & ->).
  by destruct (sha256_sigma_eq (nth (length W - 15) W 0)) as (_ & _ & -> & _).
Qed.

Lemma sha256_load_words b :
  length b = 64%nat -> bytes_ok b -> map (sha256_load_word b) (seq 0 16) = words_of be_word b.
Proof.
  intros Hl Hb. apply map_seq_ext. intros i Hi. rewrite take4_nth by lia.
  unfold sha256_load_word. rewrite Nat.add_0_r. apply be_word4; by apply nth_byte.
Qed.

Lemma fold_left_ext {A B} (f g : A -> B -> A) (l : list B) (a : A) :
  (forall a b, f a b = g a b) -> fold_left f l a = fold_left g l a.
Proof. intros H. revert a. induction l as [|b l IH]; intros a; [done|]. simpl. by rewrite H, IH. Qed.

Lemma sha256_compress_eq st b :
  length b = 64%nat -> bytes_ok b -> sha256_compress st b = SHA256_compress st b.
Proof.
  intros Hl Hb. unfold sha256_compress, SHA256_compress, SHA256_W.
  rewrite sha256_load_words, sha256_fill_eq by done. cbv zeta.
  rewrite (fold_left_ext _ _ _ _ (sha256_rnd_eq _)). reflexivity.
Qed.
#[local] Opaque SHA256_compress sha256_compress md_run.

(** ** Streaming, for any initial value *)
Section Streaming.
Variable iv : list Z.

Record sha256_repr (ctx : sha256_ctx) (m : list Z) : Prop := {
  sha256_repr_state : sha256_state ctx = md_run SHA256_compress iv m;
  sha256_repr_length : sha256_length ctx = u64 (8 * (lenZ m - lenZ (rest m)));
  sha256_repr_curlen : sha256_curlen ctx = lenZ (rest m);
  sha256_repr_buf : exists stale, sha256_buf ctx = rest m ++ stale /\ (length (rest m ++ stale) = 64)%nat;
  sha256_repr_bytes : bytes_ok m
}.

(** A whole block straight from the input. *)
Lemma repr_block ctx m x : sha256_repr ctx m -> sha256_curlen ctx = 0 -> length x = 64%nat -> bytes_ok x ->
  sha256_repr (ctx <| sha256_state := sha256_compress (sha256_state ctx) x |> <| sha256_length := u64 (sha256_length ctx + 64 * 8) |>) (m ++ x).
Proof.
  intros [Hst Hbits Hcur (stale & Hbuf & Hl) Hm] H0 Hb Hbb.
  assert (Hrest : rest m = []) by (destruct (rest m); [done | rewrite Hcur in H0; unfold lenZ in *; simpl in *; lia]).
  destruct (blocks_one x [] Hb) as [_ Hr0]. rewrite app_nil_r in Hr0.
  assert (Hr1 : rest (m ++ x) = []) by (rewrite rest_app, Hrest; exact Hr0). split.
  - change (sha256_compress (sha256_state ctx) x = md_run SHA256_compress iv (m ++ x)).
    rewrite sha256_compress_eq, md_run_app, Hrest, Hst by done.
    rewrite <- (app_nil_r ([] ++ x)), md_run_one by exact Hb. rewrite (md_run_small _ _ []) by (simpl; lia). reflexivity.
  - change (u64 (sha256_length ctx + 64 * 8) = u64 (8 * (lenZ (m ++ x) - lenZ (rest (m ++ x))))).
    rewrite Hr1, Hbits, Hrest, lenZ_app. change (@lenZ Z []) with 0.
    replace (lenZ x) with 64 by (unfold lenZ; lia).
    unfold wrap. rewrite Zplus_mod_idemp_l. f_equal. lia.
  - rewrite Hr1. change (sha256_curlen ctx = 0). exact H0.
  - rewrite Hr1. exists (sha256_buf ctx). split; [reflexivity|]. simpl. rewrite Hbuf. exact Hl.
  - by apply Forall_app_2.
Qed.

(** Bytes that were put into the buffer: it is full, or it is not. *)
Lemma repr_full ctx ctx1 m h : sha256_repr ctx m -> bytes_ok h -> length (rest m ++ h) = 64%nat -> sha256_buf ctx1 = rest m ++ h ->
  sha256_state ctx1 = sha256_state ctx -> sha256_length ctx1 = sha256_length ctx ->
  sha256_repr (sha256_compress_buf ctx1 <| sha256_length := u64 (sha256_length ctx1 + 8 * 64) |> <| sha256_curlen := 0 |>) (m ++ h).
Proof.
  intros [Hst Hbits Hcur _ Hm] Hh Hb64 Hb1 Es En. pose proof (rest_bytes m Hm) as Hrb.
  destruct (blocks_one (rest m ++ h) [] Hb64) as [_ Hr0]. rewrite app_nil_r in Hr0.
  assert (Hr1 : rest (m ++ h) = []) by (rewrite rest_app; exact Hr0).
  assert (Hbh : bytes_ok (rest m ++ h)) by by apply Forall_app_2. split.
  - change (sha256_compress (sha256_state ctx1) (sha256_buf ctx1) = md_run SHA256_compress iv (m ++ h)).
    rewrite Hb1, Es, sha256_compress_eq, md_run_app, Hst by done.
    rewrite <- (app_nil_r (rest m ++ h)) at 2. rewrite md_run_one by exact Hb64.
    rewrite (md_run_small _ _ []) by (simpl; lia). reflexivity.
  - change (u64 (sha256_length ctx1 + 8 * 64) = u64 (8 * (lenZ (m ++ h) - lenZ (rest (m ++ h))))).
    rewrite Hr1, En, Hbits, lenZ_app. change (@lenZ Z []) with 0. rewrite length_app in Hb64.
    unfold wrap. rewrite Zplus_mod_idemp_l. f_equal. unfold lenZ. lia.
  - rewrite Hr1. reflexivity.
  - rewrite Hr1. exists (sha256_buf ctx1). split; [reflexivity|]. rewrite Hb1. exact Hb64.
  - by apply Forall_app_2.
Qed.

Lemma repr_part ctx ctx1 m h stale : sha256_repr ctx m -> bytes_ok h -> (length (rest m ++ h) < 64)%nat ->
  sha256_buf ctx1 = (rest m ++ h) ++ stale -> length ((rest m ++ h) ++ stale) = 64%nat -> sha256_curlen ctx1 = lenZ (rest m ++ h) ->
  sha256_state ctx1 = sha256_state ctx -> sha256_length ctx1 = sha256_length ctx -> sha256_repr ctx1 (m ++ h).
Proof.
  intros [Hst Hbits Hcur _ Hm] Hh Hs Hb1 Hl Hc1 Es En.
  destruct (blocks_small _ Hs) as [_ Hr1]. rewrite <- rest_app in Hr1. split.
  - rewrite Es, md_run_app, md_run_small by exact Hs. exact Hst.
  - rewrite Hr1, En, Hbits, !lenZ_app. f_equal. lia.
  - rewrite Hr1. exact Hc1.
  - rewrite Hr1. by exists stale.
  - by apply Forall_app_2.
Qed.

Lemma sha256_update_loop_spec fuel : forall ctx m x,
  (length x <= fuel)%nat -> bytes_ok x -> lenZ x < 2 ^ 32 -> sha256_repr ctx m ->
  exists ctx', sha256_update_loop fuel ctx x = Some ctx' /\ sha256_repr ctx' (m ++ x).
Proof.
  induction fuel as [|fuel IH]; intros ctx m x Hfuel Hx Hlen Hr.
  { destruct x; [|simpl in Hfuel; lia]. exists ctx. by rewrite app_nil_r. }
  cbn [sha256_update_loop]. cbv zeta. case_test; zify_bool.
  2: { destruct x; [|exfalso; unfold lenZ in E; simpl in E; lia]. exists ctx. by rewrite app_nil_r. }
  (* what is left of the input after [k] bytes *)
  assert (Hleft : forall k ctx1, (0 < k)%nat -> sha256_repr ctx1 (m ++ take k x) ->
    exists ctx', sha256_update_loop fuel ctx1 (drop k x) = Some ctx' /\ sha256_repr ctx' (m ++ x)).
  { intros k ctx1 Hk Hr1. destruct (IH ctx1 (m ++ take k x) (drop k x)) as (ctx' & Hrun & Hr'); [|by apply Forall_drop| |exact Hr1|].
    - rewrite length_drop. destruct x; cbn [length] in *; lia.
    - unfold lenZ in *. rewrite length_drop. lia.
    - exists ctx'. rewrite <- app_assoc, take_drop in Hr'. by split. }
  pose proof Hr as [_ _ Hcur (stale & Hbuf & Hl) Hm]. pose proof (length_rest_lt m) as Hlt. rewrite length_app in Hl. case_test.
  - apply andb_true_iff in E0 as [E0 E1]. zify_bool. apply (Hleft 64%nat); [lia|].
    apply repr_block; [done|done|rewrite length_take; unfold lenZ in *; lia|by apply Forall_take].
  - clear E0. set (n := (if lenZ x <? u32 (64 - sha256_curlen ctx) then lenZ x else u32 (64 - sha256_curlen ctx))).
    assert (Hn : Z.to_nat n = Nat.min (length x) (64 - length (rest m))).
    { subst n. rewrite Hcur, wrap_small by (unfold lenZ in *; lia). case_test; zify_bool; unfold lenZ in *; lia. }
    assert (Hn0 : 0 <= n) by (subst n; case_test; [lia | apply wrap_range; lia]).
    set (h := take (Z.to_nat n) x). assert (Hh : length h = Z.to_nat n) by (subst h; rewrite length_take; lia).
    rewrite (store_prefix _ h _ (rest m) stale Hbuf Hcur) by lia. set (ctx1 := upd sha256_curlen _ _).
    assert (Hk : (0 < Z.to_nat n)%nat) by (rewrite Hn; destruct x; [unfold lenZ in E; simpl in E; lia|cbn [length]; lia]).
    assert (Hc1 : sha256_curlen ctx1 = lenZ (rest m ++ h)).
    { change (u32 (sha256_curlen ctx + n) = lenZ (rest m ++ h)). rewrite Hcur, lenZ_app. rewrite wrap_small; unfold lenZ in *; lia. }
    assert (Hb1 : sha256_buf ctx1 = (rest m ++ h) ++ drop (length h) stale) by (rewrite <- app_assoc; reflexivity).
    assert (Hbh : bytes_ok h) by (by apply Forall_take).
    rewrite Hc1. case_test; zify_bool; apply Hleft; try exact Hk.
    + assert (Hb64 : length (rest m ++ h) = 64%nat) by (unfold lenZ in E0; lia).
      apply (repr_full ctx); try done. rewrite Hb1, drop_ge, app_nil_r by (rewrite length_app in Hb64; lia). reflexivity.
    + apply (repr_part ctx ctx1 m h (drop (length h) stale)); try done.
      * rewrite length_app in *. unfold lenZ in E0. rewrite length_app in E0. lia.
      * rewrite !length_app, length_drop. lia.
Qed.

(** ** The digest *)
Lemma sha256_push_spec ctx b pre stale :
  sha256_buf ctx = pre ++ stale -> sha256_curlen ctx = lenZ pre -> (length (pre ++ stale) = 64)%nat ->
  (length pre < 64)%nat ->
  sha256_push ctx b = Some (mkSha256 (sha256_length ctx) (sha256_state ctx) (lenZ (pre ++ [b])) (pre ++ b :: drop 1 stale)).
Proof.
  intros Hbuf Hcur Hl Hlt. rewrite length_app in Hl. unfold sha256_push.
  rewrite (store_prefix _ [b] _ pre stale Hbuf Hcur) by (simpl; lia).
  simpl. rewrite Hcur, lenZ_app. change (lenZ [b]) with 1.
  rewrite wrap_small by (unfold lenZ; lia). reflexivity.
Qed.

Lemma sha256_zeros_spec k : forall fuel bound ctx pre stale,
  (k <= fuel)%nat -> sha256_buf ctx = pre ++ stale -> sha256_curlen ctx = lenZ pre ->
  (length (pre ++ stale) = 64)%nat -> bound = lenZ pre + Z.of_nat k -> bound <= 64 ->
  sha256_zeros fuel bound ctx =
    Some (mkSha256 (sha256_length ctx) (sha256_state ctx) bound (pre ++ replicate k 0 ++ drop k stale)).
Proof.
  induction k as [|k IH]; intros fuel bound ctx pre stale Hf Hbuf Hcur Hl Hb Hb64.
  - assert (Hno : sha256_curlen ctx <? bound = false) by (apply Z.ltb_ge; lia).
    simpl replicate. rewrite drop_0. simpl app. rewrite <- Hbuf.
    destruct fuel; cbn [sha256_zeros]; rewrite Hno; destruct ctx; simpl in *; repeat f_equal; lia.
  - destruct fuel as [|fuel]; [lia|]. cbn [sha256_zeros].
    assert (Hlt : sha256_curlen ctx <? bound = true) by (apply Z.ltb_lt; lia). rewrite Hlt.
    assert (Hp64 : (length pre < 64)%nat) by (unfold lenZ in *; lia).
    rewrite (sha256_push_spec ctx 0 pre stale Hbuf Hcur Hl Hp64).
    rewrite (IH fuel bound _ (pre ++ [0]) (drop 1 stale)).
    + rewrite <- app_assoc, drop_drop. reflexivity.
    + lia.
    + simpl. by rewrite <- app_assoc.
    + reflexivity.
    + rewrite !length_app, length_drop. rewrite length_app in Hl. simpl. lia.
    + rewrite lenZ_app. change (lenZ [0]) with 1. lia.
    + lia.
Qed.

Lemma out_be x : [u8 (Z.shiftr x 24); u8 (Z.shiftr x 16); u8 (Z.shiftr x 8); u8 x] = be_bytes 4 x.
Proof.
  rewrite !Z.shiftr_div_pow2 by lia. unfold wrap, be_bytes. simpl.
  rewrite !Z.div_div by lia. reflexivity.
Qed.

Lemma sha256_length_bytes n :
  map (fun i => u8 (Z.shiftr (u64 n) (56 - 8 * Z.of_nat i))) (seq 0 8) = be_bytes 8 n.
Proof.
  unfold be_bytes. cbn [seq map le_bytes rev app]. rewrite !Z.shiftr_div_pow2 by lia. unfold wrap.
  rewrite !Z.div_div by lia. change (2 ^ 64) with 18446744073709551616.
  change (2 ^ (56 - 8 * Z.of_nat 0)) with 72057594037927936. change (2 ^ (56 - 8 * Z.of_nat 1)) with 281474976710656.
  change (2 ^ (56 - 8 * Z.of_nat 2)) with 1099511627776. change (2 ^ (56 - 8 * Z.of_nat 3)) with 4294967296.
  change (2 ^ (56 - 8 * Z.of_nat 4)) with 16777216. change (2 ^ (56 - 8 * Z.of_nat 5)) with 65536.
  change (2 ^ (56 - 8 * Z.of_nat 6)) with 256. change (2 ^ (56 - 8 * Z.of_nat 7)) with 1.
  change (2 ^ 8) with 256. simpl (256 * _).
  repeat (apply (f_equal2 cons); [lia_mod|]). reflexivity.
Qed.

(** The tail of [do_final] on a block that is filled up to byte 56. *)
Lemma sha256_last_block (ctx : sha256_ctx) pre stale :
  sha256_buf ctx = pre ++ stale -> sha256_curlen ctx = lenZ pre -> (length (pre ++ stale) = 64)%nat ->
  (length pre <= 56)%nat ->
  exists ctx1, sha256_zeros 64 56 ctx = Some ctx1 /\ sha256_length ctx1 = sha256_length ctx /\
    sha256_state ctx1 = sha256_state ctx /\
    forall len8, (length len8 = 8)%nat ->
      store 56 len8 (sha256_buf ctx1) = Some (pre ++ replicate (56 - length pre) 0 ++ len8).
Proof.
  intros Hbuf Hcur Hl Hpre.
  rewrite (sha256_zeros_spec (56 - length pre) 64 56 ctx pre stale) by (done || (unfold lenZ; lia)).
  eexists. split; [reflexivity|]. split; [reflexivity|]. split; [reflexivity|]. intros len8 H8. cbn [sha256_buf].
  rewrite length_app in Hl.
  rewrite (store_prefix 56 len8 _ (pre ++ replicate (56 - length pre) 0) (drop (56 - length pre) stale)).
  - rewrite drop_ge, app_nil_r by (rewrite length_drop; lia). by rewrite <- app_assoc.
  - by rewrite app_assoc.
  - unfold lenZ. rewrite length_app, length_replicate. lia.
  - rewrite length_drop. lia.
Qed.

(** Zeros until the length, the last block and the digest. *)
Lemma sha256_finish (m : list Z) len c pre st : sha256_buf c = pre ++ drop (length pre) (sha256_buf c) ->
  length (sha256_buf c) = 64%nat -> (length pre <= 56)%nat -> bytes_ok pre -> sha256_curlen c = lenZ pre ->
  sha256_state c = st -> sha256_length c = u64 (8 * lenZ m) ->
  exists ctx', (let? ctx := sha256_zeros 64 56 c in
    let? buf := store 56 (map (fun i => u8 (Z.shiftr (sha256_length ctx) (56 - 8 * Z.of_nat i))) (seq 0 8)) (sha256_buf ctx) in
    Some (sha256_compress_buf (ctx <| sha256_buf := buf |>),
      flat_map (fun x => [u8 (Z.shiftr x 24); u8 (Z.shiftr x 16); u8 (Z.shiftr x 8); u8 x])
        (take (Z.to_nat (len / 4)) (sha256_state (sha256_compress_buf (ctx <| sha256_buf := buf |>)))))) =
    Some (ctx', flat_map (be_bytes 4) (take (Z.to_nat (len / 4))
      (SHA256_compress st (pre ++ replicate (56 - length pre) 0 ++ be_bytes 8 (8 * lenZ m))))) /\
    length (sha256_buf ctx') = 64%nat.
Proof.
  intros Hcb Hcl Hp Hpb Hcc Hcs Hcn. assert (H8 : length (be_bytes 8 (8 * lenZ m)) = 8%nat) by apply length_be_bytes.
  destruct (sha256_last_block c pre (drop (length pre) (sha256_buf c)) Hcb Hcc) as (c1 & -> & Hn1 & Hs1 & Hstore);
    [rewrite <- Hcb; exact Hcl | exact Hp |].
  rewrite Hn1, Hcn, sha256_length_bytes, Hstore by exact H8.
  rewrite (flat_map_ext _ _ out_be).
  change (sha256_state (sha256_compress_buf (c1 <| sha256_buf := pre ++ replicate (56 - length pre) 0 ++ be_bytes 8 (8 * lenZ m) |>)))
    with (sha256_compress (sha256_state c1) (pre ++ replicate (56 - length pre) 0 ++ be_bytes 8 (8 * lenZ m))).
  rewrite Hs1, Hcs, sha256_compress_eq.
  2: { rewrite !length_app, length_replicate, H8. lia. }
  2: { apply Forall_app_2; [done|]. apply Forall_app_2; [|apply bytes_be_bytes].
       apply Forall_replicate. unfold is_byte. lia. }
  eexists. split; [reflexivity|].
  change (length (pre ++ replicate (56 - length pre) 0 ++ be_bytes 8 (8 * lenZ m)) = 64%nat). rewrite !length_app, length_replicate, H8. lia.
Qed.

Lemma sha256_final_spec ctx m len :
  sha256_repr ctx m ->
  exists ctx', sha256_do_final ctx len = Some (ctx',
    flat_map (be_bytes 4) (take (Z.to_nat (len / 4)) (md_run SHA256_compress iv (padded m (be_bytes 8 (8 * lenZ m)))))) /\
    length (sha256_buf ctx') = 64%nat.
Proof.
  intros [Hst Hbits Hcur (stale & Hbuf & Hl) Hm]. unfold sha256_do_final. cbv zeta.
  pose proof (length_rest_lt m) as Hlt. pose proof (rest_bytes m Hm) as Hrb.
  set (ctx0 := upd sha256_length _ _).
  assert (Hlen0 : sha256_length ctx0 = u64 (8 * lenZ m)).
  { change (u64 (sha256_length ctx + u32 (sha256_curlen ctx * 8)) = u64 (8 * lenZ m)).
    rewrite Hbits, Hcur, (wrap_small 32) by (unfold lenZ; lia). unfold wrap. rewrite Zplus_mod_idemp_l. f_equal. lia. }
  rewrite (sha256_push_spec ctx0 0x80 (rest m) stale Hbuf Hcur Hl Hlt). rewrite length_app in Hl.
  rewrite Hlen0. change (sha256_state ctx0) with (sha256_state ctx). clearbody ctx0.
  assert (Hb80 : bytes_ok (rest m ++ [128])) by (apply Forall_app_2; [done|]; repeat constructor; done).
  assert (H8 : length (be_bytes 8 (8 * lenZ m)) = 8%nat) by apply length_be_bytes.
  rewrite padded_run by exact H8. cbv zeta. cbn [sha256_curlen].
  pose proof (sha256_finish m len) as Hend.
  case_test; zify_bool; unfold lenZ in E; rewrite length_app in E; cbn [length] in E.
  - replace (length (rest m) <=? 55)%nat with false by (symmetry; apply Nat.leb_gt; lia).
    rewrite (sha256_zeros_spec (63 - length (rest m)) 64 64 _ (rest m ++ [128]) (drop 1 stale)).
    2: { lia. }
    2: { cbn [sha256_buf]. by rewrite <- app_assoc. }
    2: { reflexivity. }
    2: { rewrite !length_app, length_drop. simpl. lia. }
    2: { unfold lenZ. rewrite length_app. simpl. lia. }
    2: { lia. }
    rewrite (drop_ge (drop _ _)) by (rewrite length_drop; lia). rewrite app_nil_r, <- app_assoc.
    cbn [sha256_length sha256_state].
    set (b := rest m ++ [128] ++ replicate (63 - length (rest m)) 0).
    assert (Hb64 : length b = 64%nat) by (subst b; rewrite !length_app, length_replicate; simpl; lia).
    assert (Hbb : bytes_ok b).
    { subst b. rewrite app_assoc. apply Forall_app_2; [done|]. apply Forall_replicate. unfold is_byte. lia. }
    apply (Hend (mkSha256 (u64 (8 * lenZ m)) (sha256_compress (sha256_state ctx) b) 0 b) []
      (SHA256_compress (md_run SHA256_compress iv m) b)).
    + reflexivity.
    + exact Hb64.
    + simpl. lia.
    + apply Forall_nil_2.
    + reflexivity.
    + cbn [sha256_state]. rewrite sha256_compress_eq, Hst by done. reflexivity.
    + reflexivity.
  - replace (length (rest m) <=? 55)%nat with true by (symmetry; apply Nat.leb_le; lia).
    destruct (Hend (mkSha256 (u64 (8 * lenZ m)) (sha256_state ctx) (lenZ (rest m ++ [128])) (rest m ++ 128 :: drop 1 stale))
      (rest m ++ [128]) (md_run SHA256_compress iv m)) as (ctx' & H & Hsz).
    + cbn [sha256_buf]. replace (rest m ++ 128 :: drop 1 stale) with ((rest m ++ [128]) ++ drop 1 stale) by (by rewrite <- app_assoc).
      by rewrite drop_app_length.
    + cbn [sha256_buf]. rewrite length_app. cbn [length]. rewrite length_drop. lia.
    + rewrite length_app. simpl. lia.
    + exact Hb80.
    + reflexivity.
    + exact Hst.
    + reflexivity.
    + exists ctx'. split; [|exact Hsz]. rewrite <- app_assoc in H. rewrite (length_app _ [128]) in H. cbn [length] in H.
      replace (56 - (length (rest m) + 1))%nat with (55 - length (rest m))%nat in H by lia. exact H.
Qed.
End Streaming.

Lemma sha256_init_states : sha256_init_state = SHA256_iv /\ sha224_init_state = SHA224_iv.
Proof. split; vm_compute; reflexivity. Qed.

Lemma sha256_init_spec ctx : length (sha256_buf ctx) = 64%nat -> sha256_repr SHA256_iv (sha256_init ctx) [].
Proof.
  intros Hl. split; [exact (proj1 sha256_init_states) | reflexivity | reflexivity | | apply Forall_nil_2].
  exists (sha256_buf ctx). split; [reflexivity | exact Hl].
Qed.

Lemma sha224_init_spec ctx : length (sha256_buf ctx) = 64%nat -> sha256_repr SHA224_iv (sha224_init ctx) [].
Proof.
  intros Hl. split; [exact (proj2 sha256_init_states) | reflexivity | reflexivity | | apply Forall_nil_2].
  exists (sha256_buf ctx). split; [reflexivity | exact Hl].
Qed.
