(* ===== verification/HashCorrect.v ===== *)
(** * hash.c and hmac.c compute the standard hash functions and HMAC

    [StreamingHash] is what picohash's generic layer needs of a hash: a
    relation between a context and the bytes it received, kept by [_reset],
    [_update] and [_final].  HMAC is proved against this interface, and the
    three hashes discharge it. *)

From S2P Require Import Prelude Picohash HashSpec HashMd5 HashSha1 HashSha256.

(** The arrays of the contexts have their sizes. *)
Definition union_sized (u : pico_union) : Prop :=
  length (md5_buffer (_md5 u)) = 64%nat /\ length (sha1_buffer (_sha1 u)) = 64%nat /\
  length (sha256_buf (_sha256 u)) = 64%nat.
Definition pico_sized (ctx : picohash_ctx) : Prop :=
  union_sized (pico_u ctx) /\ length (hmac_key ctx) = 64%nat.

Class StreamingHash (f : picohash_fn) (dsize : Z) (H : list Z -> list Z) := {
  stream_repr : pico_union -> list Z -> Prop;
  stream_reset : forall u, union_sized u -> exists u', call_reset f u = Some u' /\ stream_repr u' [];
  stream_update : forall u m x, stream_repr u m -> bytes_ok x -> lenZ x < 2 ^ 32 ->
    exists u', call_update f u x = Some u' /\ stream_repr u' (m ++ x);
  stream_final : forall u m, stream_repr u m ->
    exists u', call_final f u = Some (u', H m) /\ union_sized u';
  stream_length : forall m, lenZ (H m) = dsize;
  stream_bytes : forall m, bytes_ok (H m);
  stream_dsize : 0 <= dsize <= 64
}.

(** ** Digest sizes *)
Lemma lenZ_flat_map_words (word : Z -> list Z) l :
  (forall x, lenZ (word x) = 4) -> lenZ (flat_map word l) = 4 * lenZ l.
Proof. intros Hw. induction l as [|x l IH]; [done|]. cbn [flat_map]. rewrite lenZ_app, lenZ_cons, IH, Hw. lia. Qed.

Lemma bytes_flat_map (word : Z -> list Z) l : (forall x, bytes_ok (word x)) -> bytes_ok (flat_map word l).
Proof. intros Hw. induction l as [|x l IH]; [constructor|]. cbn [flat_map]. by apply Forall_app_2. Qed.

Lemma length_md_run {S} (compress : S -> list Z -> S) (P : S -> Prop) iv m :
  P iv -> (forall st b, P (compress st b)) -> P (md_run compress iv m).
Proof.
  intros Hiv Hc. unfold md_run. generalize (blocks m). intros bs. revert iv Hiv.
  induction bs as [|b bs IH]; intros iv Hiv; [done|]. simpl. by apply IH.
Qed.

Lemma lenZ_MD5 m : lenZ (MD5 m) = 16.
Proof. unfold MD5. destruct (md_run _ _ _) as [[[a b] c] d]. by rewrite lenZ_flat_map_words. Qed.

Lemma lenZ_SHA1 m : lenZ (SHA1 m) = 20.
Proof.
  unfold SHA1. rewrite lenZ_flat_map_words by (intros; apply lenZ_be_bytes).
  rewrite (length_md_run SHA1_compress (fun st => lenZ st = 5)); [done | done |].
  intros st b. unfold SHA1_compress. by destruct (fold_left _ _ _) as [[[[? ?] ?] ?] ?].
Qed.

Lemma lenZ_SHA2_state m iv : lenZ iv = 8 -> lenZ (md_run SHA256_compress iv m) = 8.
Proof.
  intros Hiv. apply (length_md_run SHA256_compress (fun st => lenZ st = 8)); [done|].
  intros st b. unfold SHA256_compress. by destruct (fold_left _ _ _) as [[[[[[[? ?] ?] ?] ?] ?] ?] ?].
Qed.

Lemma lenZ_SHA256 m : lenZ (SHA256 m) = 32.
Proof.
  unfold SHA256, SHA2. rewrite lenZ_flat_map_words by (intros; apply lenZ_be_bytes).
  pose proof (lenZ_SHA2_state (padded m (be_bytes 8 (8 * lenZ m))) SHA256_iv eq_refl) as Hl.
  revert Hl. generalize (md_run SHA256_compress SHA256_iv (padded m (be_bytes 8 (8 * lenZ m)))).
  intros st Hl. rewrite take_ge by (unfold lenZ in Hl; lia). lia.
Qed.

(** ** The instances *)
#[local] Opaque MD5 SHA1 SHA256.

#[export] Program Instance md5_streaming : StreamingHash fn_md5 16 MD5 := {
  stream_repr u m := md5_repr (_md5 u) m /\ union_sized u
}.
Next Obligation.
  intros u Hu. eexists. split; [reflexivity|]. split; [|exact Hu]. apply md5_init_spec, Hu.
Qed.
Next Obligation.
  intros u m x [Hr Hu] Hx Hl. simpl.
  destruct (md5_update_spec _ _ _ Hr Hx Hl) as (c & -> & Hc). eexists. split; [reflexivity|]. split; [exact Hc|].
  split; [|apply Hu]. destruct (md5_repr_buffer _ _ Hc) as (? & Hb & Hbl). simpl. by rewrite Hb.
Qed.
Next Obligation.
  intros u m [Hr Hu]. simpl. destruct (md5_final_spec _ _ Hr) as (c & -> & Hc).
  eexists. split; [reflexivity|]. split; [exact Hc | apply Hu].
Qed.
Next Obligation. apply lenZ_MD5. Qed.
Next Obligation.
  intros m. with_strategy transparent [MD5] unfold MD5. destruct (md_run _ _ _) as [[[a b] c] d].
  apply bytes_flat_map. intros. apply bytes_le_bytes.
Qed.
Next Obligation. lia. Qed.

#[export] Program Instance sha1_streaming : StreamingHash fn_sha1 20 SHA1 := {
  stream_repr u m := sha1_repr (_sha1 u) m /\ union_sized u
}.
Next Obligation.
  intros u Hu. eexists. split; [reflexivity|]. split; [|exact Hu]. apply sha1_init_spec, Hu.
Qed.
Next Obligation.
  intros u m x [Hr Hu] Hx Hl. simpl.
  destruct (sha1_update_spec x _ _ Hr) as (c & -> & Hc). eexists. split; [reflexivity|]. split; [exact Hc|].
  split_and!; [apply Hu | exact (sha1_fed_length _ _ (proj1 Hc)) | apply Hu].
Qed.
Next Obligation.
  intros u m [Hr Hu]. simpl. destruct (sha1_final_spec _ _ Hr) as (c & -> & Hc).
  eexists. split; [reflexivity|]. split_and!; [apply Hu | exact Hc | apply Hu].
Qed.
Next Obligation. apply lenZ_SHA1. Qed.
Next Obligation.
  intros m. with_strategy transparent [SHA1] unfold SHA1. apply bytes_flat_map. intros. apply bytes_be_bytes.
Qed.
Next Obligation. lia. Qed.

#[export] Program Instance sha256_streaming : StreamingHash fn_sha256 32 SHA256 := {
  stream_repr u m := sha256_repr SHA256_iv (_sha256 u) m /\ union_sized u
}.
Next Obligation.
  intros u Hu. eexists. split; [reflexivity|]. split; [|exact Hu]. apply sha256_init_spec, Hu.
Qed.
Next Obligation.
  intros u m x [Hr Hu] Hx Hl. simpl. unfold sha256_update.
  destruct (sha256_update_loop_spec SHA256_iv (length x) _ _ _ (le_n _) Hx Hl Hr) as (c & -> & Hc).
  eexists. split; [reflexivity|]. split; [exact Hc|].
  destruct (sha256_repr_buf _ _ _ Hc) as (? & Hb & Hbl). split_and!; [apply Hu | apply Hu |]. simpl. by rewrite Hb.
Qed.
Next Obligation.
  intros u m [Hr Hu]. simpl. unfold sha256_final. destruct (sha256_final_spec SHA256_iv _ _ 32 Hr) as (c & -> & Hc).
  eexists. split; [reflexivity|]. split_and!; [apply Hu | apply Hu | exact Hc].
Qed.
Next Obligation. apply lenZ_SHA256. Qed.
Next Obligation.
  intros m. with_strategy transparent [SHA256] unfold SHA256, SHA2. apply bytes_flat_map. intros. apply bytes_be_bytes.
Qed.
Next Obligation. lia. Qed.

(** ** The generic layer *)
Lemma picohash_final_fn ctx :
  pico_final ctx <> fn_hmac -> picohash_final ctx = hash_final (pico_final ctx) ctx.
Proof. unfold picohash_final. by destruct (pico_final ctx). Qed.
Lemma picohash_reset_fn ctx :
  pico_reset ctx <> fn_hmac -> picohash_reset ctx = hash_reset (pico_reset ctx) ctx.
Proof. unfold picohash_reset. by destruct (pico_reset ctx). Qed.

Section Generic.
Context (f : picohash_fn) (dsize : Z) (H : list Z -> list Z) {S : StreamingHash f dsize H}.
Hypothesis f_hash : f <> fn_hmac.

(** [ctx] computes [f] over [m]. *)
Record hashing (ctx : picohash_ctx) (m : list Z) : Prop := {
  hashing_repr : stream_repr (pico_u ctx) m;
  hashing_update : pico_update ctx = f
}.

Lemma hash_reset_spec ctx :
  union_sized (pico_u ctx) ->
  exists u, hash_reset f ctx = Some (ctx <| pico_u := u |>) /\ stream_repr u [].
Proof. intros Hu. destruct (stream_reset _ Hu) as (u & E & Hr). exists u. unfold hash_reset. by rewrite E. Qed.

Lemma picohash_update_spec ctx m x :
  hashing ctx m -> bytes_ok x -> lenZ x < 2 ^ 32 ->
  exists u, picohash_update ctx x = Some (ctx <| pico_u := u |>) /\ stream_repr u (m ++ x).
Proof.
  intros [Hr Hu] Hx Hl. unfold picohash_update. rewrite Hu.
  destruct (stream_update _ _ _ Hr Hx Hl) as (u & -> & Hr'). by exists u.
Qed.

Lemma hash_final_spec ctx m :
  stream_repr (pico_u ctx) m ->
  exists u, hash_final f ctx = Some (ctx <| pico_u := u |>, H m) /\ union_sized u.
Proof. intros Hr. unfold hash_final. destruct (stream_final _ _ Hr) as (u & -> & Hs). by exists u. Qed.

Lemma picohash_init_spec ctx :
  pico_sized ctx ->
  exists u, picohash_init f dsize ctx = Some (mkPico u 64 dsize f f f (hmac_key ctx) (hmac_hash_reset ctx) (hmac_hash_final ctx)) /\
    stream_repr u [].
Proof. intros [Hu _]. unfold picohash_init. exact (hash_reset_spec (mkPico _ _ _ _ _ _ _ _ _) Hu). Qed.

Lemma picohash_final_hash ctx m :
  hashing ctx m -> pico_final ctx = f ->
  exists u, picohash_final ctx = Some (ctx <| pico_u := u |>, H m) /\ union_sized u.
Proof.
  intros [Hr Hu] Hf. rewrite picohash_final_fn; rewrite Hf; [by apply hash_final_spec | exact f_hash].
Qed.

Lemma hash_with_spec ctx m :
  pico_sized ctx -> bytes_ok m -> lenZ m < 2 ^ 32 -> hash_with (picohash_init f dsize) ctx m = Some (H m).
Proof.
  intros Hs Hm Hl. unfold hash_with. destruct (picohash_init_spec ctx Hs) as (u & -> & Hr).
  destruct (picohash_update_spec (mkPico u 64 dsize f f f (hmac_key ctx) (hmac_hash_reset ctx) (hmac_hash_final ctx)) [] m)
    as (u' & -> & Hr'); [done | done | done |].
  destruct (picohash_final_hash (mkPico u' 64 dsize f f f (hmac_key ctx) (hmac_hash_reset ctx) (hmac_hash_final ctx)) m)
    as (u'' & E & _); [done | done |].
  simpl in E. simpl. by rewrite E.
Qed.

(** *** HMAC *)
Lemma xor_key_twice k d : map (fun b => Z.lxor b d) (map (fun b => Z.lxor b d) k) = k.
Proof. rewrite map_map. rewrite <- (map_id k) at 2. apply map_ext. intros. apply lxor_cancel_r. Qed.

Lemma hmac_xor_key_spec ctx d :
  block_length ctx = 64 -> length (hmac_key ctx) = 64%nat ->
  hmac_xor_key ctx d = Some (ctx <| hmac_key := map (fun b => Z.lxor b d) (hmac_key ctx) |>).
Proof.
  intros Hb Hk. unfold hmac_xor_key. rewrite Hb, load_all by (unfold lenZ; lia).
  rewrite (store_prefix 0 _ _ [] (hmac_key ctx)) by (done || (rewrite length_map; lia)).
  rewrite length_map, drop_ge, app_nil_r by lia. done.
Qed.

Lemma xor_key_bytes k d : bytes_ok k -> is_byte d -> bytes_ok (map (fun b => Z.lxor b d) k).
Proof. induction 1; intros Hd; constructor; [by apply lxor_byte | auto]. Qed.

Lemma hmac_apply_key_spec ctx d m :
  hashing ctx m -> block_length ctx = 64 -> length (hmac_key ctx) = 64%nat -> bytes_ok (hmac_key ctx) -> is_byte d ->
  exists u, hmac_apply_key ctx d = Some (ctx <| pico_u := u |>) /\
    stream_repr u (m ++ map (fun b => Z.lxor b d) (hmac_key ctx)).
Proof.
  intros [Hr Hu] Hb Hk Hkb Hd. unfold hmac_apply_key. rewrite hmac_xor_key_spec by done.
  set (k := map _ _). set (ctx1 := upd hmac_key _ _).
  assert (Hk1 : length k = 64%nat) by (subst k; by rewrite length_map).
  change (block_length ctx1) with (block_length ctx). change (hmac_key ctx1) with k.
  rewrite Hb, load_all by (unfold lenZ; lia).
  destruct (picohash_update_spec ctx1 m k) as (u & -> & Hr'); [done | by apply xor_key_bytes | unfold lenZ; lia |].
  rewrite hmac_xor_key_spec by done. exists u. split; [|done].
  change (hmac_key (ctx1 <| pico_u := u |>)) with k. subst k. rewrite xor_key_twice. by destruct ctx.
Qed.

(** The key block: the key, or its hash, filled up with zeros. *)
Lemma hmac_init_spec ctx key :
  pico_sized ctx -> bytes_ok key -> lenZ key < 2 ^ 32 ->
  exists u, picohash_init_hmac (picohash_init f dsize) key ctx =
    Some (mkPico u 64 dsize fn_hmac f fn_hmac (hmac_block_key H key) f f) /\
    stream_repr u (map (fun b => Z.lxor b 0x36) (hmac_block_key H key)) /\
    length (hmac_block_key H key) = 64%nat /\ bytes_ok (hmac_block_key H key).
Proof.
  intros Hs Hkey Hl. unfold picohash_init_hmac. destruct (picohash_init_spec ctx Hs) as (u & -> & Hr).
  cbn [block_length hmac_key]. destruct Hs as [Hus Hkl].
  change (replicate (Z.to_nat 64) 0) with (replicate 64 0).
  rewrite (store_prefix 0 _ _ [] (hmac_key ctx)) by (done || (rewrite length_replicate; lia)).
  rewrite length_replicate, drop_ge, app_nil_r by lia. cbn [app].
  set (ctx1 := upd hmac_key _ _).
  assert (Hkey0 : forall k, lenZ k <= 64 -> store 0 k (replicate 64 0) = Some (k ++ replicate (64 - length k) 0)).
  { intros k Hk. unfold lenZ in Hk. rewrite (store_prefix 0 k _ [] (replicate 64 0)) by (done || (rewrite length_replicate; lia)).
    by rewrite drop_replicate. }
  assert (Hpad : forall k, lenZ k <= 64 -> bytes_ok k ->
    length (k ++ replicate (64 - length k) 0) = 64%nat /\ bytes_ok (k ++ replicate (64 - length k) 0)).
  { intros k Hk Hkb. split; [rewrite length_app, length_replicate; unfold lenZ in Hk; lia|].
    apply Forall_app_2; [done|]. apply Forall_replicate. unfold is_byte. lia. }
  unfold hmac_block_key. change (block_length ctx1) with 64. case_test; zify_bool.
  - destruct (picohash_update_spec ctx1 [] key) as (u1 & -> & Hr1); [done..|].
    destruct (picohash_final_hash (ctx1 <| pico_u := u1 |>) key) as (u2 & -> & Hu2); [done | done |].
    assert (HHk : lenZ (H key) <= 64) by (rewrite stream_length; pose proof stream_dsize; lia).
    change (hmac_key (ctx1 <| pico_u := u1 |> <| pico_u := u2 |>)) with (replicate 64 0). rewrite Hkey0 by done.
    set (k := H key ++ _). destruct (Hpad (H key) HHk (stream_bytes key)) as [Hlk Hbk]. fold k in Hlk, Hbk.
    set (ctx2 := upd hmac_key _ _).
    rewrite (picohash_reset_fn ctx2) by exact f_hash. change (pico_reset ctx2) with f. destruct (hash_reset_spec ctx2 Hu2) as (u3 & -> & Hr3).
    destruct (hmac_apply_key_spec (mkPico u3 64 dsize fn_hmac f fn_hmac k f f) 0x36 []) as (u4 & E4 & Hr4);
      [done | done | done | done | unfold is_byte; lia |].
    exists u4. split; [|done]. exact E4.
  - change (hmac_key ctx1) with (replicate 64 0). rewrite Hkey0 by done.
    destruct (Hpad key ltac:(lia) Hkey) as [Hlk Hbk]. set (k := key ++ _) in *.
    destruct (hmac_apply_key_spec (mkPico u 64 dsize fn_hmac f fn_hmac k f f) 0x36 []) as (u4 & E4 & Hr4);
      [done | done | done | done | unfold is_byte; lia |].
    exists u4. split; [|done]. exact E4.
Qed.

Lemma hmac_with_spec ctx m key :
  pico_sized ctx -> bytes_ok m -> lenZ m < 2 ^ 32 -> bytes_ok key -> lenZ key < 2 ^ 32 ->
  hmac_with (picohash_init f dsize) ctx m key = Some (HMAC H key m).
Proof.
  intros Hs Hm Hl Hkey Hkl. unfold hmac_with, hash_with.
  destruct (hmac_init_spec ctx key Hs Hkey Hkl) as (u & -> & Hr & Hlk & Hbk).
  set (k := hmac_block_key H key) in *.
  destruct (picohash_update_spec (mkPico u 64 dsize fn_hmac f fn_hmac k f f) (map (fun b => Z.lxor b 0x36) k) m)
    as (u1 & -> & Hr1); [done..|]. cbn.
  unfold picohash_final. cbn [pico_final]. unfold hmac_final. cbn [hmac_hash_final].
  destruct (hash_final_spec (mkPico u1 64 dsize fn_hmac f fn_hmac k f f) _ Hr1) as (u2 & -> & Hu2). cbn.
  destruct (hash_reset_spec (mkPico u2 64 dsize fn_hmac f fn_hmac k f f) Hu2) as (u3 & -> & Hr3). cbn.
  destruct (hmac_apply_key_spec (mkPico u3 64 dsize fn_hmac f fn_hmac k f f) 0x5c []) as (u4 & -> & Hr4);
    [done | done | done | done | unfold is_byte; lia |]. cbn.
  set (inner := H (map (fun b => Z.lxor b 0x36) k ++ m)).
  rewrite load_all by (symmetry; apply stream_length).
  destruct (picohash_update_spec (mkPico u4 64 dsize fn_hmac f fn_hmac k f f) (map (fun b => Z.lxor b 0x5c) k) inner)
    as (u5 & -> & Hr5); [done | apply stream_bytes | subst inner; rewrite stream_length; pose proof stream_dsize; lia |]. cbn.
  destruct (hash_final_spec (mkPico u5 64 dsize fn_hmac f fn_hmac k f f) _ Hr5) as (u6 & -> & _). reflexivity.
Qed.

(** Any sequence of updates is one update with the concatenation. *)
Lemma updates_spec xs : forall ctx m,
  hashing ctx m -> Forall (fun x => bytes_ok x /\ lenZ x < 2 ^ 32) xs ->
  exists u, fold_left (fun c x => let? c := c in picohash_update c x) xs (Some ctx) = Some (ctx <| pico_u := u |>) /\
    stream_repr u (m ++ concat xs).
Proof.
  induction xs as [|x xs IH]; intros ctx m Hc Hxs; cbn [fold_left concat].
  - exists (pico_u ctx). rewrite app_nil_r. split; [by destruct ctx | apply Hc].
  - apply Forall_cons_1 in Hxs as [[Hx Hl] Hxs].
    destruct (picohash_update_spec ctx m x Hc Hx Hl) as (u & -> & Hr).
    destruct (IH (ctx <| pico_u := u |>) (m ++ x)) as (u' & -> & Hr'); [split; [done | apply Hc] | done |].
    exists u'. rewrite app_assoc. split; [by destruct ctx | done].
Qed.
End Generic.

(** C32: hash_md5, hash_sha1 and hash_sha256 return the digests of RFC 1321 and
    FIPS 180-4 of every message, whatever garbage the local context holds: the
    in-place, unrolled and buffered code never leaves its arrays and agrees
    with the block-by-block reference. *)
Theorem hash_functions_correct ctx m :
  pico_sized ctx -> bytes_ok m -> lenZ m < 2 ^ 32 ->
  hash_md5 ctx m = Some (MD5 m) /\ hash_sha1 ctx m = Some (SHA1 m) /\ hash_sha256 ctx m = Some (SHA256 m).
Proof. intros Hs Hm Hl. by split_and!; apply (hash_with_spec _ _ _). Qed.

(** C33: hmac_sha1 and hmac_sha256 compute HMAC (RFC 2104) for every key,
    the keys longer than a block included, which are hashed first. *)
Theorem hmac_functions_correct ctx m key :
  pico_sized ctx -> bytes_ok m -> lenZ m < 2 ^ 32 -> bytes_ok key -> lenZ key < 2 ^ 32 ->
  hmac_sha1 ctx m key = Some (HMAC SHA1 key m) /\ hmac_sha256 ctx m key = Some (HMAC SHA256 key m).
Proof. intros Hs Hm Hl Hk Hkl. by split; apply (hmac_with_spec _ _ _). Qed.

(** Streaming: after any sequence of updates on an initialised context, for
    any of the hashes, the final digest is the digest of the concatenation. *)
Theorem picohash_streaming (f : picohash_fn) (dsize : Z) (H : list Z -> list Z) {S : StreamingHash f dsize H} ctx xs :
  f <> fn_hmac -> pico_sized ctx -> Forall (fun x => bytes_ok x /\ lenZ x < 2 ^ 32) xs ->
  exists ctx', (let? c := fold_left (fun c x => let? c := c in picohash_update c x) xs (picohash_init f dsize ctx) in
                picohash_final c) = Some (ctx', H (concat xs)).
Proof.
  intros Hf Hs Hxs. destruct (picohash_init_spec f dsize H ctx Hs) as (u & -> & Hr).
  set (c := mkPico u 64 dsize f f f (hmac_key ctx) (hmac_hash_reset ctx) (hmac_hash_final ctx)).
  destruct (updates_spec f dsize H xs c []) as (u' & -> & Hr'); [done | done |].
  destruct (picohash_final_hash f dsize H Hf (c <| pico_u := u' |>) (concat xs)) as (u'' & E & _); [done | done |].
  eexists. exact E.
Qed.

(** An uninitialised context. *)
Definition garbage_ctx : picohash_ctx :=
  mkPico (mkUnion (mkMd5 7 7 7 7 7 7 (replicate 64 165) (replicate 16 7)) (mkSha1 (replicate 64 90) [] 3 3)
    (mkSha256 1 [] 4 (replicate 64 60))) 0 0 fn_md5 fn_sha1 fn_hmac (replicate 64 255) fn_hmac fn_hmac.

Lemma hash_functions_correct_witness :
  hash_md5 garbage_ctx [97; 98; 99] = Some (be_bytes 16 0x900150983cd24fb0d6963f7d28e17f72) /\
  hash_sha1 garbage_ctx [97; 98; 99] = Some (be_bytes 20 0xa9993e364706816aba3e25717850c26c9cd0d89d) /\
  hash_sha256 garbage_ctx [97; 98; 99] =
    Some (be_bytes 32 0xba7816bf8f01cfea414140de5dae2223b00361a396177a9cb410ff61f20015ad).
Proof.
  replace (be_bytes 16 _) with (MD5 [97; 98; 99]) by (vm_compute; reflexivity).
  replace (be_bytes 20 _) with (SHA1 [97; 98; 99]) by (vm_compute; reflexivity).
  replace (be_bytes 32 _) with (SHA256 [97; 98; 99]) by (vm_compute; reflexivity).
  apply (hash_functions_correct garbage_ctx [97; 98; 99]).
  - repeat split.
  - repeat constructor; unfold is_byte; lia.
  - reflexivity.
Defined.

Lemma hmac_functions_correct_witness :
  hmac_sha1 garbage_ctx [97; 98; 99] (replicate 70 97) = Some (be_bytes 20 0xc3afc0144db0f084fc10e181cb0f0cae339b1356) /\
  hmac_sha256 garbage_ctx [97; 98; 99] (replicate 70 97) = Some (HMAC SHA256 (replicate 70 97) [97; 98; 99]).
Proof.
  replace (be_bytes 20 _) with (HMAC SHA1 (replicate 70 97) [97; 98; 99]) by (vm_compute; reflexivity).
  apply (hmac_functions_correct garbage_ctx [97; 98; 99] (replicate 70 97)).
  - repeat split.
  - repeat constructor; unfold is_byte; lia.
  - reflexivity.
  - apply Forall_replicate. unfold is_byte. lia.
  - reflexivity.
Defined.

Lemma picohash_streaming_witness :
  exists ctx', (let? c := fold_left (fun c x => let? c := c in picohash_update c x) [[97]; []; [98; 99]]
                            (picohash_init_sha1 garbage_ctx) in picohash_final c) =
    Some (ctx', be_bytes 20 0xa9993e364706816aba3e25717850c26c9cd0d89d).
Proof.
  replace (be_bytes 20 _) with (SHA1 (concat [[97]; []; [98; 99]])) by (vm_compute; reflexivity).
  apply (picohash_streaming fn_sha1 20 SHA1 garbage_ctx [[97]; []; [98; 99]]).
  - discriminate.
  - repeat split.
  - repeat constructor; unfold is_byte; lia.
Defined.
