(* ===== verification/Crc32.v ===== *)
(** * crc32.c: the table-driven CRC-32 of the STUN FINGERPRINT attribute *)

From S2P Require Import Prelude.

Definition CRC32_REVERSED_POLY : Z := 0xEDB88320.
Definition CRC32_INIT : Z := 0xFFFFFFFF.
Definition CRC32_XOR : Z := 0xFFFFFFFF.

(** One turn of the loop of [crc32_byte]. *)
Definition crc32_bit (crc : Z) : Z :=
  if flag crc 1 then Z.lxor (Z.shiftr crc 1) CRC32_REVERSED_POLY else Z.shiftr crc 1.

Fixpoint crc32_bits (n : nat) (crc : Z) : Z :=
  match n with
  | O => crc
  | S n' => crc32_bits n' (crc32_bit crc)
  end.

Definition crc32_byte (crc : Z) : Z := crc32_bits 8 crc.

Fixpoint crc32_table_loop (crc : Z) (p : list Z) (table : list Z) : option Z :=
  match p with
  | [] => Some crc
  | b :: p' =>
    let? t := table !! Z.to_nat (Z.lxor (u8 (Z.land crc 0xFF)) b) in
    crc32_table_loop (Z.lxor t (Z.shiftr crc 8)) p' table
  end.

Definition crc32_table (p : list Z) (table : list Z) : option Z :=
  let? crc := crc32_table_loop CRC32_INIT p table in Some (Z.lxor crc CRC32_XOR).

(** The filled static table. *)
Definition crc32_filled : list Z := (fun i => crc32_byte (Z.of_nat i)) <$> seq 0 256.

(** [juice_crc32] fills its static table on the first call; the table is the
    state the function keeps. *)
Definition juice_crc32 (table : list Z) (data : list Z) : option (Z * list Z) :=
  let? last := table !! 255%nat in
  let table' := if last =? 0 then crc32_filled else table in
  let? crc := crc32_table data table' in
  Some (crc, table').

(** The zero-initialised static table. *)
Definition crc32_zero_table : list Z := replicate 256 0.

(** ** Reference: one bit at a time, no table *)
Definition crc32_ref_step (crc b : Z) : Z := crc32_bits 8 (Z.lxor crc b).
Definition crc32_ref (data : list Z) : Z :=
  Z.lxor (fold_left crc32_ref_step data CRC32_INIT) CRC32_XOR.

(** ** Lemmas *)
Definition is_u32 (z : Z) : Prop := 0 <= z < 2 ^ 32.

Lemma lxor_u32 a b : is_u32 a -> is_u32 b -> is_u32 (Z.lxor a b).
Proof. apply (lxor_range 32). lia. Qed.

Lemma flag_1 z : flag z 1 = Z.odd z.
Proof.
  unfold flag. rewrite <- Z.bit0_odd. change 1 with (2 ^ 1 - 1).
  rewrite land_ones_mod by lia. change (2 ^ 1) with 2.
  rewrite Zmod_odd, Z.bit0_odd. by destruct (Z.odd z).
Qed.

(** *** Reflected CRCs of any polynomial *)
Section Reflected.
Variable poly : Z.

Definition reflected_bit (crc : Z) : Z := if flag crc 1 then Z.lxor (Z.shiftr crc 1) poly else Z.shiftr crc 1.

Fixpoint reflected_bits (n : nat) (crc : Z) : Z :=
  match n with
  | O => crc
  | S n' => reflected_bits n' (reflected_bit crc)
  end.

Lemma reflected_bits_u32 n z : is_u32 poly -> is_u32 z -> is_u32 (reflected_bits n z).
Proof.
  intros Hp. revert z. induction n as [|n IH]; intros z Hz; cbn [reflected_bits]; [done|]. apply IH. unfold reflected_bit.
  assert (Hs : is_u32 (Z.shiftr z 1)).
  { unfold is_u32 in *. rewrite Z.shiftr_div_pow2 by lia. change (2 ^ 1) with 2. lia_mod. }
  case_test; [by apply lxor_u32|done].
Qed.

Lemma reflected_bit_lxor a b : reflected_bit (Z.lxor a b) = Z.lxor (reflected_bit a) (reflected_bit b).
Proof.
  unfold reflected_bit. rewrite !flag_1.
  rewrite <- !Z.bit0_odd, Z.lxor_spec, Z.shiftr_lxor.
  destruct (Z.testbit a 0), (Z.testbit b 0); simpl;
    apply Z.bits_inj'; intros i Hi; rewrite !Z.lxor_spec;
    repeat match goal with |- context [Z.testbit ?x i] => destruct (Z.testbit x i) end; done.
Qed.

Lemma reflected_bits_lxor n a b :
  reflected_bits n (Z.lxor a b) = Z.lxor (reflected_bits n a) (reflected_bits n b).
Proof. revert a b. induction n as [|n IH]; intros; simpl; [done|]. by rewrite reflected_bit_lxor, IH. Qed.

Lemma reflected_bits_add n k z : reflected_bits (n + k) z = reflected_bits k (reflected_bits n z).
Proof. revert z. induction n as [|n IH]; intros z; cbn [reflected_bits Nat.add]; [done|apply IH]. Qed.

(** A word whose low [n] bits are zero is only shifted. *)
Lemma reflected_bits_shift n z : reflected_bits n (Z.shiftl z (Z.of_nat n)) = z.
Proof.
  induction n as [|n IH]; [by rewrite Z.shiftl_0_r|].
  replace (reflected_bits (S n) _) with (reflected_bits n (Z.shiftl z (Z.of_nat n))); [exact IH|].
  change (reflected_bits (S n) ?x) with (reflected_bits n (reflected_bit x)). f_equal.
  unfold reflected_bit. rewrite flag_1, <- Z.bit0_odd.
  rewrite Z.shiftl_spec_low by lia.
  rewrite Z.shiftr_shiftl_l by lia. f_equal. lia.
Qed.
End Reflected.

Lemma crc32_bits_reflected n z : crc32_bits n z = reflected_bits CRC32_REVERSED_POLY n z.
Proof. reflexivity. Qed.

Lemma crc32_bits_u32 n z : is_u32 z -> is_u32 (crc32_bits n z).
Proof. intros Hz. rewrite crc32_bits_reflected. by apply reflected_bits_u32. Qed.

Lemma crc32_bit_u32 z : is_u32 z -> is_u32 (crc32_bit z).
Proof. apply (crc32_bits_u32 1). Qed.

Lemma crc32_bit_lxor a b : crc32_bit (Z.lxor a b) = Z.lxor (crc32_bit a) (crc32_bit b).
Proof. apply reflected_bit_lxor. Qed.

Lemma crc32_bits_lxor n a b :
  crc32_bits n (Z.lxor a b) = Z.lxor (crc32_bits n a) (crc32_bits n b).
Proof. apply reflected_bits_lxor. Qed.

Lemma crc32_bits_shift n z : crc32_bits n (Z.shiftl z (Z.of_nat n)) = z.
Proof. apply reflected_bits_shift. Qed.

Lemma split_byte z : z = Z.lxor (Z.land z 0xFF) (Z.shiftl (Z.shiftr z 8) 8).
Proof.
  apply Z.bits_inj'. intros i Hi. rewrite Z.lxor_spec, Z.land_spec, Z.shiftl_spec by lia.
  change 0xFF with (Z.ones 8). destruct (Z.lt_ge_cases i 8).
  - rewrite Z.ones_spec_low by lia. rewrite Z.testbit_neg_r with (n := i - 8) by lia.
    by rewrite andb_true_r, xorb_false_r.
  - rewrite Z.ones_spec_high by lia. rewrite Z.shiftr_spec by lia.
    rewrite andb_false_r, xorb_false_l. f_equal. lia.
Qed.

(** The table step of the code is eight bit steps. *)
Lemma crc32_step_eq crc b :
  is_byte b ->
  Z.lxor (crc32_byte (Z.lxor (u8 (Z.land crc 0xFF)) b)) (Z.shiftr crc 8) = crc32_ref_step crc b.
Proof.
  intros Hb. unfold crc32_ref_step, crc32_byte.
  rewrite wrap_small by (rewrite land_255; apply Z.mod_pos_bound; lia).
  rewrite <- (crc32_bits_shift 8 (Z.shiftr crc 8)) at 1. rewrite <- crc32_bits_lxor.
  f_equal. rewrite (split_byte crc) at 3.
  rewrite !Z.lxor_assoc. f_equal. apply Z.lxor_comm.
Qed.

Lemma crc32_filled_lookup i : is_byte i -> crc32_filled !! Z.to_nat i = Some (crc32_byte i).
Proof.
  intros Hi. unfold crc32_filled, is_byte in *. rewrite list_lookup_fmap, lookup_seq_lt by lia.
  simpl. do 2 f_equal. lia.
Qed.

Lemma crc32_table_loop_eq crc p :
  bytes_ok p -> crc32_table_loop crc p crc32_filled = Some (fold_left crc32_ref_step p crc).
Proof.
  intros Hp. revert crc. induction Hp as [|b p Hb Hp IH]; intros crc; simpl; [done|].
  rewrite crc32_filled_lookup.
  - by rewrite crc32_step_eq.
  - apply lxor_byte; [|done]. apply (wrap_range 8). lia.
Qed.

Lemma juice_crc32_eq table data :
  bytes_ok data -> table = crc32_zero_table \/ table = crc32_filled ->
  juice_crc32 table data = Some (crc32_ref data, crc32_filled).
Proof.
  intros Hd Ht. unfold juice_crc32, crc32_table.
  assert (Hl : exists last, table !! 255%nat = Some last /\
                 (if last =? 0 then crc32_filled else table) = crc32_filled).
  { destruct Ht as [-> | ->]; eexists; split; reflexivity || vm_compute; reflexivity. }
  destruct Hl as (last & -> & ->). by rewrite crc32_table_loop_eq.
Qed.

(** whether or not the static table is already filled, [juice_crc32] reads
    only inside it, leaves it filled and returns the bitwise reference CRC. *)
Theorem juice_crc32_ref table data :
  bytes_ok data -> table = crc32_zero_table \/ table = crc32_filled ->
  juice_crc32 table data = Some (crc32_ref data, crc32_filled).
Proof. apply juice_crc32_eq. Qed.

Lemma juice_crc32_ref_witness :
  juice_crc32 crc32_zero_table [49; 50; 51; 52; 53; 54; 55; 56; 57] = Some (0xCBF43926, crc32_filled).
Proof.
  refine (eq_trans (juice_crc32_ref _ _ _ (or_introl eq_refl)) _).
  - repeat constructor; done.
  - vm_compute. reflexivity.
Defined.

(** ** Error detection *)
Lemma crc32_bit_inj a b : is_u32 a -> is_u32 b -> crc32_bit a = crc32_bit b -> a = b.
Proof.
  intros Ha Hb Heq.
  assert (Hx : crc32_bit (Z.lxor a b) = 0) by (rewrite crc32_bit_lxor, Heq; apply Z.lxor_nilpotent).
  assert (Hr : is_u32 (Z.lxor a b)) by (by apply lxor_range).
  apply Z.lxor_eq. revert Hx Hr. generalize (Z.lxor a b). intros x Hx Hr.
  unfold crc32_bit in Hx. rewrite flag_1, <- Z.bit0_odd in Hx.
  destruct (Z.testbit x 0) eqn:E0.
  - apply (f_equal (fun z => Z.testbit z 31)) in Hx.
    rewrite Z.lxor_spec, Z.shiftr_spec, Z.bits_0 in Hx by lia.
    rewrite (testbit_above 32) in Hx by (done || lia). by vm_compute in Hx.
  - rewrite Z.bit0_odd in E0. rewrite Z.shiftr_div_pow2 in Hx by lia. change (2 ^ 1) with 2 in Hx.
    pose proof (Zmod_odd x) as Hm. rewrite E0 in Hm. unfold is_u32 in Hr. revert Hm Hx. lia_mod.
Qed.

Lemma crc32_bits_inj n a b : is_u32 a -> is_u32 b -> crc32_bits n a = crc32_bits n b -> a = b.
Proof.
  revert a b. induction n as [|n IH]; intros a b Ha Hb; simpl; [done|].
  intros H. apply crc32_bit_inj; [done..|]. apply IH; auto using crc32_bit_u32.
Qed.

Lemma byte_u32 b : is_byte b -> is_u32 b.
Proof. unfold is_byte, is_u32. lia. Qed.
#[local] Hint Resolve byte_u32 crc32_bits_u32 : core.

Lemma crc32_ref_step_u32 crc b : is_u32 crc -> is_byte b -> is_u32 (crc32_ref_step crc b).
Proof. intros. apply crc32_bits_u32, lxor_u32; auto. Qed.

Lemma crc32_fold_u32 data crc : is_u32 crc -> bytes_ok data -> is_u32 (fold_left crc32_ref_step data crc).
Proof.
  intros Hc Hd. revert crc Hc. induction Hd; intros; simpl; auto using crc32_ref_step_u32.
Qed.

Lemma crc32_fold_inj data c1 c2 :
  bytes_ok data -> is_u32 c1 -> is_u32 c2 ->
  fold_left crc32_ref_step data c1 = fold_left crc32_ref_step data c2 -> c1 = c2.
Proof.
  intros Hd. revert c1 c2. induction Hd as [|b data Hb Hd IH]; intros c1 c2 H1 H2 H; simpl in *; [done|].
  apply IH in H; auto using crc32_ref_step_u32.
  apply crc32_bits_inj in H; [|apply lxor_u32; auto..].
  apply (f_equal (fun z => Z.lxor z b)) in H. by rewrite !lxor_cancel_r in H.
Qed.

(** two messages that differ in exactly one byte never have the same CRC. *)
Theorem crc32_detects_byte pre x y post :
  bytes_ok (pre ++ x :: post) -> is_byte y -> x <> y ->
  crc32_ref (pre ++ x :: post) <> crc32_ref (pre ++ y :: post).
Proof.
  intros Hb Hy Hne Heq. apply Forall_app in Hb as [Hpre Hb]. apply Forall_cons_1 in Hb as [Hx Hpost].
  unfold crc32_ref in Heq. apply (f_equal (fun z => Z.lxor z CRC32_XOR)) in Heq.
  rewrite !lxor_cancel_r, !fold_left_app in Heq. simpl in Heq.
  assert (Hc : is_u32 (fold_left crc32_ref_step pre CRC32_INIT)) by (by apply crc32_fold_u32).
  apply crc32_fold_inj in Heq; [|done|by apply crc32_ref_step_u32..].
  apply crc32_bits_inj in Heq; [|apply lxor_u32; auto..].
  apply Hne. apply (f_equal (Z.lxor (fold_left crc32_ref_step pre CRC32_INIT))) in Heq.
  by rewrite <- !Z.lxor_assoc, Z.lxor_nilpotent, !Z.lxor_0_l in Heq.
Qed.

Lemma crc32_detects_byte_witness : crc32_ref [1; 2; 3] <> crc32_ref [1; 7; 3].
Proof.
  apply (crc32_detects_byte [1] 2 7 [3]); [repeat constructor; done | done | done].
Defined.
