(* ===== verification/Base64.v ===== *)
(** * base64.c: the encoder and the lenient decoder *)

From S2P Require Import Prelude.

(** ** Encoder *)

(** The alphabet ["A..Za..z0..9+/"]. *)
Definition base64_tab : list Z :=
  (Z.of_nat <$> seq 65 26) ++ (Z.of_nat <$> seq 97 26) ++ (Z.of_nat <$> seq 48 10) ++ [43; 47].

Definition tab64 (i : Z) : Z := nth (Z.to_nat i) base64_tab 0.

(** The loop over whole groups of three bytes and the two tail cases;
    the result is what is written at [w], without the final NUL. *)
Fixpoint base64_encode_loop (input : list Z) : list Z :=
  match input with
  | a :: b :: c :: input' =>
    tab64 (Z.shiftr a 2)
      :: tab64 (Z.lor (Z.shiftl (Z.land a 0x03) 4) (Z.shiftr b 4))
      :: tab64 (Z.lor (Z.shiftl (Z.land b 0x0F) 2) (Z.shiftr c 6))
      :: tab64 (Z.land c 0x3F)
      :: base64_encode_loop input'
  | [a; b] =>
    [ tab64 (Z.shiftr a 2);
      tab64 (Z.lor (Z.shiftl (Z.land a 0x03) 4) (Z.shiftr b 4));
      tab64 (Z.shiftl (Z.land b 0x0F) 2);
      61 ]
  | [a] => [ tab64 (Z.shiftr a 2); tab64 (Z.shiftl (Z.land a 0x03) 4); 61; 61 ]
  | [] => []
  end.

(** [juice_base64_encode]: the bytes written to [out] and the returned value.
    [out_size] and the size computation are [size_t]. *)
Definition juice_base64_encode (data : list Z) (out_size : Z) : list Z * Z :=
  if out_size <? size_t (4 * (size_t (lenZ data + 2) / 3) + 1) then ([], -1)
  else let w := base64_encode_loop data in (w ++ [0], lenZ w).

(** ** Decoder *)

(** [isspace] of the C locale. *)
Definition isspace (c : Z) : bool := ((9 <=? c) && (c <=? 13)) || (c =? 32).

(** The value of an alphabet character, the URL alphabet included. *)
Definition base64_value (c : Z) : option Z :=
  if (65 <=? c) && (c <=? 90) then Some (c - 65)
  else if (97 <=? c) && (c <=? 122) then Some (c + 26 - 97)
  else if (48 <=? c) && (c <=? 57) then Some (c + 52 - 48)
  else if (c =? 43) || (c =? 45) then Some 62
  else if (c =? 47) || (c =? 95) then Some 63
  else None.

(** The inner loop: at most four characters into [tab], skipping spaces and
    stopping at (and consuming) ['=']. [None] is the "Invalid character"
    return. The string is the list of its characters, its end the NUL. *)
Fixpoint base64_group (inp : list Z) (tab : list Z) : option (list Z * list Z) :=
  match inp with
  | [] => Some (inp, tab)
  | c :: inp' =>
    if 4 <=? lenZ tab then Some (inp, tab)
    else if isspace c then base64_group inp' tab
    else if c =? 61 then Some (inp', tab)
    else match base64_value c with
         | Some v => base64_group inp' (tab ++ [v])
         | None => None
         end
  end.

(** The bytes one group writes: the code stores [size] bytes for [size] below 4
    and three for 4, where the space check counted [size - 1]. *)
Definition base64_emit (tab : list Z) : list Z :=
  let t i := nth i tab 0 in
  let size := lenZ tab in
  u8 (Z.lor (Z.shiftl (t 0%nat) 2) (Z.shiftr (t 1%nat) 4))
    :: (if 1 <? size then
          u8 (Z.lor (Z.shiftl (t 1%nat) 4) (Z.shiftr (t 2%nat) 2))
            :: (if 2 <? size then [u8 (Z.lor (Z.shiftl (t 2%nat) 6) (t 3%nat))] else [])
        else []).

(** The outer loop; [written] is what has been stored at [out] so far. *)
Fixpoint base64_decode_loop (fuel : nat) (inp : list Z) (out_size : Z) (written : list Z)
    : option (list Z * Z) :=
  match fuel with
  | O => None
  | S fuel' =>
    match inp with
    | [] => Some (written, lenZ written)
    | c :: _ =>
      if c =? 61 then Some (written, lenZ written)
      else match base64_group inp [] with
           | None => Some (written, -1)
           | Some (inp', tab) =>
             let size := lenZ tab in
             if 0 <? size then
               if out_size <? size - 1 then Some (written, -1)
               else base64_decode_loop fuel' inp' (out_size - (size - 1)) (written ++ base64_emit tab)
             else base64_decode_loop fuel' inp' out_size written
           end
    end
  end.

(** [juice_base64_decode]: the bytes stored at [out] and the returned value.
    Every turn consumes a character, so the string's length is fuel enough. *)
Definition juice_base64_decode (str : list Z) (out_size : Z) : option (list Z * Z) :=
  base64_decode_loop (S (length str)) str out_size [].

(** ** Lemmas *)
Lemma base64_value_tab i : 0 <= i < 64 ->
  base64_value (tab64 i) = Some i /\ isspace (tab64 i) = false /\ (tab64 i =? 61) = false /\ tab64 i <> 0.
Proof.
  intros Hi.
  assert (Hall : forallb (fun n => let c := tab64 (Z.of_nat n) in
      match base64_value c with Some v => v =? Z.of_nat n | None => false end &&
      negb (isspace c) && negb (c =? 61) && negb (c =? 0)) (seq 0 64) = true) by (vm_compute; done).
  rewrite forallb_forall in Hall. specialize (Hall (Z.to_nat i)). cbv zeta in Hall.
  rewrite Z2Nat.id in Hall by lia. rewrite in_seq in Hall.
  specialize (Hall ltac:(lia)). zify_bool.
  destruct (base64_value (tab64 i)); [|done].
  zify_bool; subst. split_and!; try done. by apply Z.eqb_neq.
Qed.

Lemma sext_ranges a b : is_byte a -> is_byte b ->
  0 <= Z.shiftr a 2 < 64 /\ 0 <= Z.land a 0x3F < 64 /\
  Z.lor (Z.shiftl (Z.land a 0x03) 4) (Z.shiftr b 4) = a `mod` 4 * 16 + b / 16 /\
  Z.lor (Z.shiftl (Z.land a 0x0F) 2) (Z.shiftr b 6) = a `mod` 16 * 4 + b / 64 /\
  Z.shiftl (Z.land a 0x03) 4 = a `mod` 4 * 16 /\ Z.shiftl (Z.land a 0x0F) 2 = a `mod` 16 * 4.
Proof.
  unfold is_byte. intros Ha Hb.
  change 0x3F with (2 ^ 6 - 1). change 0x03 with (2 ^ 2 - 1). change 0x0F with (2 ^ 4 - 1).
  rewrite !land_ones_mod by lia.
  rewrite !Z.shiftr_div_pow2 by lia.
  rewrite !lor_shiftl_add by lia_mod. rewrite !Z.shiftl_mul_pow2 by lia.
  change (2 ^ 2) with 4. change (2 ^ 4) with 16. change (2 ^ 6) with 64. repeat split; lia_mod.
Qed.

(** What a decoded group of two, three or four values holds. *)
Lemma emit_arith x y z w :
  0 <= x < 64 -> 0 <= y < 64 -> 0 <= z < 64 -> 0 <= w < 64 ->
  u8 (Z.lor (Z.shiftl x 2) (Z.shiftr y 4)) = x * 4 + y / 16 /\
  u8 (Z.lor (Z.shiftl y 4) (Z.shiftr z 2)) = y `mod` 16 * 16 + z / 4 /\
  u8 (Z.lor (Z.shiftl z 6) w) = z `mod` 4 * 64 + w.
Proof.
  intros. unfold wrap. rewrite !Z.shiftr_div_pow2 by lia.
  rewrite !lor_shiftl_add by lia_mod.
  change (2 ^ 2) with 4. change (2 ^ 4) with 16. change (2 ^ 6) with 64. change (2 ^ 8) with 256.
  repeat split; lia_mod.
Qed.

Lemma base64_group_value i inp tab :
  0 <= i < 64 -> lenZ tab < 4 ->
  base64_group (tab64 i :: inp) tab = base64_group inp (tab ++ [i]).
Proof.
  intros Hi Hl. destruct (base64_value_tab i Hi) as (Hv & Hs & He & _).
  simpl. rewrite Hs, He, Hv. case_test; zify_bool; [lia | done].
Qed.

Lemma base64_group_full inp a b c d : base64_group inp [a; b; c; d] = Some (inp, [a; b; c; d]).
Proof. by destruct inp. Qed.

Lemma base64_group_eq inp tab : lenZ tab < 4 -> base64_group (61 :: inp) tab = Some (inp, tab).
Proof. intros. simpl. case_test; zify_bool; [lia|done]. Qed.

Lemma decode_loop_step fuel i inp out_size written rest tab :
  0 <= i < 64 -> base64_group (tab64 i :: inp) [] = Some (rest, tab) -> 0 < lenZ tab ->
  lenZ tab - 1 <= out_size ->
  base64_decode_loop (S fuel) (tab64 i :: inp) out_size written =
  base64_decode_loop fuel rest (out_size - (lenZ tab - 1)) (written ++ base64_emit tab).
Proof.
  intros Hi Hg Ht Ho. destruct (base64_value_tab i Hi) as (_ & _ & He & _).
  cbn [base64_decode_loop]. rewrite He, Hg.
  destruct (0 <? lenZ tab) eqn:E1; zify_bool; [|lia].
  destruct (out_size <? lenZ tab - 1) eqn:E2; zify_bool; [lia | done].
Qed.

Lemma decode_done fuel out_size written inp :
  base64_decode_loop (S fuel) (61 :: inp) out_size written = Some (written, lenZ written).
Proof. done. Qed.

(** Induction over a list three elements at a time, as the encoder goes. *)
Lemma list_ind3 {A} (P : list A -> Prop) :
  P [] -> (forall a, P [a]) -> (forall a b, P [a; b]) ->
  (forall a b c l, P l -> P (a :: b :: c :: l)) -> forall l, P l.
Proof.
  intros H0 H1 H2 H3. enough (H : forall l, P l /\ (forall a, P (a :: l)) /\ (forall a b, P (a :: b :: l)))
    by (intros l; apply H).
  induction l as [|x l (IH0 & IH1 & IH2)]; [done|]. auto.
Qed.

Ltac group_steps :=
  repeat (rewrite base64_group_value by (solve [lia_mod | unfold lenZ; simpl; lia]); simpl app).

(** One whole group, with the numbers it is made of. *)
Lemma decode_group fuel x y z w rest out_size written :
  0 <= x < 64 -> 0 <= y < 64 -> 0 <= z < 64 -> 0 <= w < 64 -> 3 <= out_size ->
  base64_decode_loop (S fuel) (tab64 x :: tab64 y :: tab64 z :: tab64 w :: rest) out_size written =
  base64_decode_loop fuel rest (out_size - 3)
    (written ++ [x * 4 + y / 16; y `mod` 16 * 16 + z / 4; z `mod` 4 * 64 + w]).
Proof.
  intros Hx Hy Hz Hw Ho.
  erewrite decode_loop_step; [|done|group_steps; apply base64_group_full|done|unfold lenZ; simpl; lia].
  destruct (emit_arith x y z w) as (E1 & E2 & E3); [done..|].
  unfold base64_emit. simpl. by rewrite E1, E2, E3.
Qed.

(** A last group of two or three values closed by ['=']. *)
Lemma decode_tail fuel x y zs eqs out_size written :
  0 <= x < 64 -> 0 <= y < 64 -> Forall (fun z => 0 <= z < 64) zs -> (length zs <= 1)%nat ->
  eqs = [] \/ eqs = [61] -> 1 + lenZ zs <= out_size ->
  base64_decode_loop (S (S fuel)) (tab64 x :: tab64 y :: (tab64 <$> zs) ++ 61 :: eqs) out_size written =
  let w := written ++ (x * 4 + y / 16) ::
    match zs with
    | [] => [y `mod` 16 * 16]
    | z :: _ => [y `mod` 16 * 16 + z / 4; z `mod` 4 * 64]
    end in
  Some (w, lenZ w).
Proof.
  intros Hx Hy Hzs Hl Heqs Ho.
  assert (Hd : forall o w, base64_decode_loop (S fuel) eqs o w = Some (w, lenZ w))
    by (intros; destruct Heqs as [-> | ->]; done).
  destruct zs as [|z [|z' zs]]; cbn [fmap list_fmap app]; [| |simpl in Hl; lia].
  - erewrite decode_loop_step; [|done|group_steps; by apply base64_group_eq|done|unfold lenZ in *; simpl in *; lia].
    destruct (emit_arith x y 0 0) as (E1 & E2 & _); [lia..|].
    rewrite Hd. unfold base64_emit. simpl. by rewrite E1, E2, Z.add_0_r.
  - apply Forall_cons_1 in Hzs as [Hz _].
    erewrite decode_loop_step; [|done|group_steps; by apply base64_group_eq|done|unfold lenZ in *; simpl in *; lia].
    destruct (emit_arith x y z 0) as (E1 & E2 & E3); [lia..|].
    rewrite Hd. unfold base64_emit. simpl. by rewrite E1, E2, E3, Z.add_0_r.
Qed.

(** The surplus byte a decoded partial group leaves behind. *)
Definition base64_surplus (data : list Z) : list Z :=
  if lenZ data `mod` 3 =? 0 then [] else [0].

Lemma base64_surplus_cons a b c data : base64_surplus (a :: b :: c :: data) = base64_surplus data.
Proof.
  unfold base64_surplus. rewrite !lenZ_cons.
  replace (1 + (1 + (1 + lenZ data))) with (lenZ data + 1 * 3) by lia. by rewrite Z.mod_add by lia.
Qed.

Ltac tail_side := first [done | by left | by right | lia_mod | constructor; [lia_mod | done] | simpl; lia].

Lemma decode_encode_loop data : bytes_ok data -> forall fuel out_size written,
  (length (base64_encode_loop data) < fuel)%nat -> lenZ data <= out_size ->
  base64_decode_loop fuel (base64_encode_loop data) out_size written =
    let w := written ++ data ++ base64_surplus data in Some (w, lenZ w).
Proof.
  induction data as [|a|a b|a b c data IH] using list_ind3; intros Hb [|fuel] out_size written Hf Ho;
    simpl in Hf; try lia.
  - simpl. by rewrite app_nil_r.
  - apply Forall_cons_1 in Hb as [Ha _]. destruct (sext_ranges a 0 Ha ltac:(done)) as (R1 & _ & _ & _ & R5 & _).
    simpl base64_encode_loop. rewrite R5. unfold is_byte in Ha. destruct fuel; [lia|].
    rewrite (decode_tail _ _ _ [] [61]) by tail_side.
    rewrite Z.shiftr_div_pow2 by lia. change (2 ^ 2) with 4. cbv zeta. simpl.
    replace (a / 4 * 4 + a `mod` 4 * 16 / 16) with a by lia_mod.
    replace ((a `mod` 4 * 16) `mod` 16 * 16) with 0 by lia_mod. done.
  - apply Forall_cons_1 in Hb as [Ha Hb]. apply Forall_cons_1 in Hb as [Hb _].
    destruct (sext_ranges a b Ha Hb) as (R1 & _ & R3 & _).
    destruct (sext_ranges b 0 Hb ltac:(done)) as (_ & _ & _ & _ & _ & R6).
    simpl base64_encode_loop. rewrite R3, R6. unfold is_byte in Ha, Hb. destruct fuel; [lia|].
    rewrite (decode_tail _ _ _ [b `mod` 16 * 4] []) by tail_side.
    rewrite Z.shiftr_div_pow2 by lia. change (2 ^ 2) with 4. cbv zeta. simpl.
    replace (a / 4 * 4 + (a `mod` 4 * 16 + b / 16) / 16) with a by lia_mod.
    replace ((a `mod` 4 * 16 + b / 16) `mod` 16 * 16 + b `mod` 16 * 4 / 4) with b by lia_mod.
    replace ((b `mod` 16 * 4) `mod` 4 * 64) with 0 by lia_mod. done.
  - apply Forall_cons_1 in Hb as [Ha Hb]. apply Forall_cons_1 in Hb as [Hb Hc].
    apply Forall_cons_1 in Hc as [Hc Hd].
    destruct (sext_ranges a b Ha Hb) as (R1 & _ & R3 & _).
    destruct (sext_ranges b c Hb Hc) as (_ & _ & _ & R4 & _).
    destruct (sext_ranges c 0 Hc ltac:(done)) as (_ & R2 & _).
    rewrite !lenZ_cons in Ho. pose proof (lenZ_nonneg data).
    simpl base64_encode_loop. rewrite R3, R4. unfold is_byte in Ha, Hb, Hc.
    rewrite decode_group by tail_side.
    rewrite IH; [|done|lia|lia].
    rewrite Z.shiftr_div_pow2 by lia. change (2 ^ 2) with 4. change 0x3F with (2 ^ 6 - 1).
    rewrite (land_ones_mod 6) by lia. change (2 ^ 6) with 64.
    replace (a / 4 * 4 + (a `mod` 4 * 16 + b / 16) / 16) with a by lia_mod.
    replace ((a `mod` 4 * 16 + b / 16) `mod` 16 * 16 + (b `mod` 16 * 4 + c / 64) / 4) with b by lia_mod.
    replace ((b `mod` 16 * 4 + c / 64) `mod` 4 * 64 + c `mod` 64) with c by lia_mod.
    rewrite base64_surplus_cons. by rewrite <- !app_assoc.
Qed.

Lemma length_encode_loop data :
  lenZ (base64_encode_loop data) = 4 * ((lenZ data + 2) / 3).
Proof.
  induction data as [|a|a b|a b c data IH] using list_ind3; simpl base64_encode_loop; try done.
  rewrite !lenZ_cons, IH. lia_mod.
Qed.

(** C34: the encoder writes exactly [4 * ceil(n/3)] characters and a NUL within
    [out_size]; decoding them into a buffer of the data's size gives the data
    back, followed, unless 3 divides the length, by one surplus zero byte that
    is stored past the end of that buffer and counted in the returned value. *)
Theorem base64_roundtrip data out_size :
  bytes_ok data -> 4 * ((lenZ data + 2) / 3) + 1 <= out_size < 2 ^ 32 ->
  exists text, juice_base64_encode data out_size = (text ++ [0], lenZ text) /\
    lenZ text + 1 <= out_size /\
    let w := data ++ base64_surplus data in juice_base64_decode text (lenZ data) = Some (w, lenZ w).
Proof.
  intros Hb Ho. exists (base64_encode_loop data). pose proof (lenZ_nonneg data).
  rewrite length_encode_loop. unfold juice_base64_encode.
  rewrite (wrap_small 32 (lenZ data + 2)) by lia_mod.
  rewrite wrap_small by lia_mod.
  case_test; zify_bool; [lia|].
  rewrite length_encode_loop. split; [done|]. split; [lia|].
  unfold juice_base64_decode. rewrite decode_encode_loop; [done | done | lia | done].
Qed.

Lemma base64_roundtrip_witness :
  exists text, juice_base64_encode [0; 255; 77; 200] 9 = (text ++ [0], lenZ text) /\
    lenZ text + 1 <= 9 /\ juice_base64_decode text 4 = Some ([0; 255; 77; 200; 0], 5).
Proof. apply (base64_roundtrip [0; 255; 77; 200] 9); [repeat constructor; done | done]. Defined.

(** ** Termination and bounds of the decoder *)
Lemma base64_group_suffix inp tab inp' tab' :
  base64_group inp tab = Some (inp', tab') ->
  (length inp' <= length inp)%nat /\
  (lenZ tab < 4 -> inp <> [] -> (length inp' < length inp)%nat) /\ lenZ tab <= lenZ tab'.
Proof.
  revert tab. induction inp as [|c inp IH]; intros tab; simpl.
  { intros [= <- <-]. simpl; split_and!; [lia|done|lia]. }
  case_test; zify_bool; [intros [= <- <-]; simpl; split_and!; lia|].
  case_test; [intros HH; apply IH in HH as (? & ? & ?); split_and!; lia|].
  case_test; [intros [= <- <-]; split_and!; lia|].
  case_match; [|done]. intros HH; apply IH in HH as (? & ? & Hlen).
  rewrite lenZ_app, lenZ_cons, lenZ_nil in Hlen. split_and!; lia.
Qed.

Lemma base64_decode_total str out_size : exists r, juice_base64_decode str out_size = Some r.
Proof.
  unfold juice_base64_decode.
  enough (H : forall fuel inp o w, (length inp < fuel)%nat -> exists r, base64_decode_loop fuel inp o w = Some r)
    by (apply H; lia).
  induction fuel as [|fuel IH]; intros inp o w Hf; [lia|]. cbn [base64_decode_loop].
  destruct inp as [|c inp]; [by eexists|].
  case_test; [by eexists|]. destruct (base64_group (c :: inp) []) as [[inp' tab]|] eqn:Hg; [|by eexists].
  apply base64_group_suffix in Hg as (_ & Hlt & _).
  assert (length inp' < length (c :: inp))%nat by (apply Hlt; done).
  case_test; [case_test; [by eexists|]|]; apply IH; lia.
Qed.

Lemma base64_group_bound inp : forall tab inp' tab',
  base64_group inp tab = Some (inp', tab') -> lenZ tab <= 4 ->
  lenZ tab <= lenZ tab' <= 4 /\ lenZ tab' - lenZ tab <= lenZ inp - lenZ inp' /\
  (inp' = [] \/ lenZ tab' = 4 \/ lenZ tab' - lenZ tab < lenZ inp - lenZ inp').
Proof.
  induction inp as [|c inp IH]; intros tab inp' tab' E Ht; simpl in E.
  - injection E as <- <-. split_and!; try lia. by left.
  - revert E. rewrite lenZ_cons.
    case_test; [intros [= <- <-]; zify_bool; rewrite lenZ_cons; split_and!; try lia|].
    zify_bool. case_test; [intros E'; destruct (IH _ _ _ E' Ht) as (H1 & H2 & H3);
      split_and!; [lia..|]; destruct H3 as [H3|[H3|H3]]; [auto|auto|right; right; lia]|].
    case_test; [intros [= <- <-]; split_and!; try lia; right; right; lia|].
    destruct (base64_value c) as [v|]; [|done]. intros E'.
    assert (Ha : lenZ (tab ++ [v]) = lenZ tab + 1) by (rewrite lenZ_app; done).
    destruct (IH _ _ _ E' ltac:(lia)) as (H1 & H2 & H3). rewrite Ha in *.
    split_and!; [lia..|]. destruct H3 as [H3|[H3|H3]]; [auto|auto|right; right; lia].
Qed.

Lemma lenZ_emit tab : 0 < lenZ tab <= 4 -> lenZ (base64_emit tab) = Z.min 3 (lenZ tab).
Proof. intros Ht. unfold base64_emit. case_test; [case_test|]; zify_bool; rewrite ?lenZ_cons, ?lenZ_nil; lia. Qed.

Lemma base64_decode_loop_bound fuel : forall inp out_size w w' r,
  base64_decode_loop fuel inp out_size w = Some (w', r) ->
  lenZ w' - lenZ w <= lenZ inp /\ (4 <= lenZ inp -> lenZ w' - lenZ w < lenZ inp).
Proof.
  induction fuel as [|fuel IH]; intros inp out_size w w' r E; [done|]. cbn [base64_decode_loop] in E.
  destruct inp as [|c inp]; [injection E as <- <-; rewrite lenZ_nil; lia|].
  pose proof (lenZ_nonneg (c :: inp)).
  destruct (c =? 61); [injection E as <- <-; lia|].
  destruct (base64_group (c :: inp) []) as [[inp' tab]|] eqn:G; [|injection E as <- <-; lia].
  destruct (base64_group_bound _ _ _ _ G) as (H1 & H2 & H3); [rewrite lenZ_nil; lia|].
  rewrite lenZ_nil in *. pose proof (lenZ_nonneg inp').
  destruct (0 <? lenZ tab) eqn:T; zify_bool.
  - destruct (out_size <? lenZ tab - 1); [injection E as <- <-; lia|].
    destruct (IH _ _ _ _ _ E) as (I1 & I2). rewrite lenZ_app, lenZ_emit in * by lia.
    destruct H3 as [->|[H3|H3]]; rewrite ?lenZ_nil in *; lia.
  - destruct (IH _ _ _ _ _ E) as (I1 & I2). destruct H3 as [->|[H3|H3]]; rewrite ?lenZ_nil in *; lia.
Qed.

Lemma base64_decode_loop_result fuel : forall inp out_size w w' r,
  base64_decode_loop fuel inp out_size w = Some (w', r) -> r = lenZ w' \/ r = -1.
Proof.
  induction fuel as [|fuel IH]; intros inp out_size w w' r E; [done|]. cbn [base64_decode_loop] in E.
  destruct inp as [|c inp]; [injection E as <- <-; auto|].
  destruct (c =? 61); [injection E as <- <-; auto|].
  destruct (base64_group (c :: inp) []) as [[inp' tab]|]; [|injection E as <- <-; auto].
  destruct (0 <? lenZ tab); [destruct (out_size <? lenZ tab - 1); [injection E as <- <-; auto|]|]; by eapply IH.
Qed.

(** the decoder returns on every string and every buffer size; it stores no
    more bytes than the string has characters, and returns their number or -1. *)
Theorem base64_decode_terminates str out_size :
  exists w r, juice_base64_decode str out_size = Some (w, r) /\ lenZ w <= lenZ str /\ (r = lenZ w \/ r = -1).
Proof.
  destruct (base64_decode_total str out_size) as [[w r] E]. exists w, r. split; [done|].
  unfold juice_base64_decode in E. split; [|by eapply base64_decode_loop_result].
  destruct (base64_decode_loop_bound _ _ _ _ _ _ E) as [H _]. rewrite lenZ_nil in H. lia.
Qed.

(** [n] one-character groups. *)
Fixpoint lone_groups (n : nat) : list Z :=
  match n with O => [] | S n' => 65 :: 61 :: lone_groups n' end.

(** the space check lets a group of one character through for free, so the
    string ["A=A=...A="] makes the decoder store [n] bytes into a buffer of
    size zero. *)
Theorem base64_decode_overflow n :
  juice_base64_decode (lone_groups n) 0 = Some (replicate n 0, Z.of_nat n).
Proof.
  unfold juice_base64_decode.
  enough (H : forall fuel w, (length (lone_groups n) < fuel)%nat ->
      base64_decode_loop fuel (lone_groups n) 0 w = Some (w ++ replicate n 0, lenZ w + Z.of_nat n))
    by (rewrite H by lia; done).
  induction n as [|n IH]; intros [|fuel] w Hf; simpl in Hf; try lia.
  - simpl. by rewrite app_nil_r, Z.add_0_r.
  - change (lone_groups (S n)) with (tab64 0 :: 61 :: lone_groups n).
    erewrite decode_loop_step; [|done|group_steps; by apply base64_group_eq|done|done].
    change (0 - (lenZ [0] - 1)) with 0. change (base64_emit [0]) with [0].
    rewrite IH by lia. rewrite <- app_assoc, lenZ_app. change (lenZ [0]) with 1. do 2 f_equal. lia.
Qed.
