(* ===== verification/Addr.v ===== *)
(** * addr.c: socket addresses

    A [sockaddr] is one of the two families the code reads, or another family
    of which it only reads the number.  The port is the 16-bit value as it is
    stored, in network byte order; the address is its bytes.  The flow label
    and scope identifier of [sockaddr_in6], which the code never reads, are
    left out. *)

From S2P Require Import Prelude.

(** What the code takes from <sys/socket.h> and <netinet/in.h>. *)
Class Platform := {
  AF_INET : Z;
  AF_INET6 : Z;
  sizeof_sockaddr_in : Z;
  sizeof_sockaddr_in6 : Z;
  AF_distinct : AF_INET <> AF_INET6;
  AF_specified : AF_INET <> 0 /\ AF_INET6 <> 0;
  sizeof_in_pos : 0 < sizeof_sockaddr_in;
  sizeof_in6_pos : 0 < sizeof_sockaddr_in6
}.

(** The values of lwIP, the TCP/IP stack of the target. *)
Definition lwip : Platform.
Proof. refine {| AF_INET := 2; AF_INET6 := 10; sizeof_sockaddr_in := 16; sizeof_sockaddr_in6 := 28 |}; done. Defined.

Inductive sockaddr : Type :=
| sockaddr_in (sin_port : Z) (sin_addr : list Z)
| sockaddr_in6 (sin6_port : Z) (sin6_addr : list Z)
| sockaddr_other (sa_family : Z).

#[export] Instance sockaddr_eq_dec : EqDecision sockaddr.
Proof. solve_decision. Defined.

(** [addr_record_t]. *)
Record addr_record := mkRecord { addr : sockaddr; len : Z }.

#[export] Instance addr_record_eq_dec : EqDecision addr_record.
Proof. solve_decision. Defined.

(** A zeroed [addr_record_t]. *)
Definition addr_record_zero : addr_record := mkRecord (sockaddr_other 0) 0.

Section Addr.
Context `{Platform}.

Definition sa_family (sa : sockaddr) : Z :=
  match sa with
  | sockaddr_in _ _ => AF_INET
  | sockaddr_in6 _ _ => AF_INET6
  | sockaddr_other f => f
  end.

Definition sockaddr_wf (sa : sockaddr) : Prop :=
  match sa with
  | sockaddr_in p a => 0 <= p < 65536 /\ length a = 4%nat /\ bytes_ok a
  | sockaddr_in6 p a => 0 <= p < 65536 /\ length a = 16%nat /\ bytes_ok a
  | sockaddr_other f => f <> AF_INET /\ f <> AF_INET6
  end.

Definition addr_get_len (sa : sockaddr) : Z :=
  match sa with
  | sockaddr_in _ _ => sizeof_sockaddr_in
  | sockaddr_in6 _ _ => sizeof_sockaddr_in6
  | sockaddr_other _ => 0
  end.

Definition addr_get_port (sa : sockaddr) : Z :=
  match sa with
  | sockaddr_in p _ => ntohs p
  | sockaddr_in6 p _ => ntohs p
  | sockaddr_other _ => 0
  end.

(** The address with its port set, and the returned value. *)
Definition addr_set_port (sa : sockaddr) (port : Z) : sockaddr * Z :=
  match sa with
  | sockaddr_in _ a => (sockaddr_in (htons port) a, 0)
  | sockaddr_in6 _ a => (sockaddr_in6 (htons port) a, 0)
  | sockaddr_other _ => (sa, -1)
  end.

(** The <netinet/in.h> address tests. *)
Definition IN6_IS_ADDR_V4MAPPED (a : list Z) : bool :=
  bool_decide (take 12 a = replicate 10 0 ++ [255; 255]).
Definition IN6_IS_ADDR_LOOPBACK (a : list Z) : bool := bool_decide (a = replicate 15 0 ++ [1]).
Definition IN6_IS_ADDR_LINKLOCAL (a : list Z) : bool :=
  (nth 0 a 0 =? 0xFE) && (Z.land (nth 1 a 0) 0xC0 =? 0x80).

Definition all_zero (b : list Z) : bool := forallb (fun x => x =? 0) b.

Definition addr_is_any (sa : sockaddr) : bool :=
  match sa with
  | sockaddr_in _ a => all_zero a
  | sockaddr_in6 _ a =>
    if IN6_IS_ADDR_V4MAPPED a then all_zero (drop 12 a) else all_zero a
  | sockaddr_other _ => false
  end.

(** Loopback or link-local, on the four bytes of an IPv4 address. *)
Definition v4_is_local (b : list Z) : bool :=
  if nth 0 b 0 =? 127 then true
  else if (nth 0 b 0 =? 169) && (nth 1 b 0 =? 254) then true
  else false.

Definition addr_is_local (sa : sockaddr) : bool :=
  match sa with
  | sockaddr_in _ a => v4_is_local a
  | sockaddr_in6 _ a =>
    if IN6_IS_ADDR_LOOPBACK a then true
    else if IN6_IS_ADDR_LINKLOCAL a then true
    else if IN6_IS_ADDR_V4MAPPED a then v4_is_local (drop 12 a)
    else false
  | sockaddr_other _ => false
  end.

(** The rewritten address and length, and the returned flag. *)
Definition addr_unmap_inet6_v4mapped (sa : sockaddr) (len : Z) : sockaddr * Z * bool :=
  match sa with
  | sockaddr_in6 p a =>
    if IN6_IS_ADDR_V4MAPPED a
    then (sockaddr_in p (take 4 (drop 12 a)), sizeof_sockaddr_in, true)
    else (sa, len, false)
  | _ => (sa, len, false)
  end.

Definition addr_map_inet6_v4mapped (ss : sockaddr) (len : Z) : sockaddr * Z * bool :=
  match ss with
  | sockaddr_in p a =>
    (sockaddr_in6 p (replicate 10 0 ++ replicate 2 255 ++ take 4 a), sizeof_sockaddr_in6, true)
  | _ => (ss, len, false)
  end.

Definition addr_is_equal (a b : sockaddr) (compare_ports : bool) : bool :=
  match a, b with
  | sockaddr_in pa aa, sockaddr_in pb ab =>
    if negb (bool_decide (aa = ab)) then false
    else if compare_ports && negb (pa =? pb) then false else true
  | sockaddr_in6 pa aa, sockaddr_in6 pb ab =>
    if negb (bool_decide (aa = ab)) then false
    else if compare_ports && negb (pa =? pb) then false else true
  | _, _ => false
  end.

(** [unsigned long] has 32 bits. *)
Definition DJB2_INIT : Z := 5381.
Definition djb2 (hash i : Z) : Z := u32 (u32 (u32 (Z.shiftl hash 5) + hash) + i).

Definition addr_hash (sa : sockaddr) (with_port : bool) : Z :=
  let hash := djb2 DJB2_INIT (sa_family sa) in
  match sa with
  | sockaddr_in p b | sockaddr_in6 p b =>
    let hash := fold_left djb2 b hash in
    if with_port then djb2 (djb2 hash (Z.shiftr p 8)) (Z.land p 0xFF) else hash
  | sockaddr_other _ => hash
  end.

(** [addr_resolve], given what [getaddrinfo] returned: [None] for an error, or
    its list of results. The first [count] usable ones are stored. *)
Fixpoint addr_resolve_loop (ai : list addr_record) (count : Z) (ret : Z) (records : list addr_record)
    : Z * list addr_record :=
  match ai with
  | [] => (ret, records)
  | a :: ai' =>
    match addr a with
    | sockaddr_in _ _ | sockaddr_in6 _ _ =>
      addr_resolve_loop ai' count (ret + 1)
        (if lenZ records =? count then records else records ++ [a])
    | sockaddr_other _ => addr_resolve_loop ai' count ret records
    end
  end.

Definition addr_resolve (ai_list : option (list addr_record)) (count : Z) : Z * list addr_record :=
  match ai_list with
  | None => (-1, [])
  | Some ai => addr_resolve_loop ai count 0 []
  end.

Definition addr_record_is_equal (a b : addr_record) (compare_ports : bool) : bool :=
  addr_is_equal (addr a) (addr b) compare_ports.
Definition addr_record_hash (record : addr_record) (with_port : bool) : Z :=
  addr_hash (addr record) with_port.

(** ** Lemmas *)
Lemma addr_is_equal_spec a b ports :
  addr_is_equal a b ports = true <->
  match a, b with
  | sockaddr_in pa aa, sockaddr_in pb ab | sockaddr_in6 pa aa, sockaddr_in6 pb ab =>
    aa = ab /\ (ports = true -> pa = pb)
  | _, _ => False
  end.
Proof.
  destruct a as [pa aa|pa aa|fa], b as [pb ab|pb ab|fb]; simpl; try (split; done).
  all: case_bool_decide; destruct ports; simpl; try case_test; zify_bool; split; intros; try done;
    try (destruct_and?; split; auto; done); destruct_and?; try congruence; try (exfalso; auto; done).
  all: exfalso; match goal with H : true = true -> _ |- _ => specialize (H eq_refl) end; lia.
Qed.

Lemma addr_is_equal_sym a b ports : addr_is_equal a b ports = addr_is_equal b a ports.
Proof.
  apply Bool.eq_iff_eq_true. rewrite !addr_is_equal_spec.
  destruct a, b; intuition congruence.
Qed.

Lemma addr_is_equal_trans a b c ports :
  addr_is_equal a b ports = true -> addr_is_equal b c ports = true -> addr_is_equal a c ports = true.
Proof.
  rewrite !addr_is_equal_spec. destruct a, b, c; intuition congruence.
Qed.

Lemma addr_is_equal_refl a ports :
  (forall f, a <> sockaddr_other f) -> addr_is_equal a a ports = true.
Proof. intros Ha. rewrite addr_is_equal_spec. destruct a; [done..|]. by edestruct Ha. Qed.

(** Comparing with ports is finer than comparing without. *)
Lemma addr_is_equal_no_port a b ports :
  addr_is_equal a b ports = true -> addr_is_equal a b false = true.
Proof. rewrite !addr_is_equal_spec. destruct a, b; intuition congruence. Qed.

(** With ports, equality of two records is Leibniz equality of the addresses. *)
Lemma addr_is_equal_eq a b : addr_is_equal a b true = true -> a = b.
Proof. rewrite addr_is_equal_spec. destruct a, b; try done; intros [-> Hp]; by rewrite Hp. Qed.

Lemma djb2_range h i : 0 <= djb2 h i < 2 ^ 32.
Proof. apply wrap_range. lia. Qed.

Lemma addr_hash_range sa p : 0 <= addr_hash sa p < 2 ^ 32.
Proof.
  assert (Hf : forall l h, 0 <= h < 2 ^ 32 -> 0 <= fold_left djb2 l h < 2 ^ 32).
  { induction l; intros; simpl; [done|]. apply IHl, djb2_range. }
  destruct sa, p; simpl; auto using djb2_range.
Qed.

(** the address comparison is a partial equivalence, reflexive on IPv4 and
    IPv6 addresses, and equal addresses have equal hashes, with or without
    ports: what the hash tables of turn.c and conn_mux.c rely on. *)
Theorem addr_hash_respects_equal a b c ports :
  addr_is_equal a b ports = true ->
  addr_hash a ports = addr_hash b ports /\ addr_hash a false = addr_hash b false /\
  addr_is_equal b a ports = true /\ addr_is_equal a a ports = true /\
  (addr_is_equal b c ports = true -> addr_is_equal a c ports = true).
Proof.
  intros Heq. split_and!.
  - apply addr_is_equal_spec in Heq. destruct a, b; try done; destruct Heq as [-> Hp]; simpl;
      destruct ports; rewrite ?Hp; done.
  - apply addr_is_equal_no_port, addr_is_equal_spec in Heq. destruct a, b; try done; destruct Heq as [-> _]; done.
  - by rewrite addr_is_equal_sym.
  - eapply addr_is_equal_trans; [done|]. by rewrite addr_is_equal_sym.
  - by apply addr_is_equal_trans.
Qed.

(** mapping an IPv4 address into IPv6 and back gives the address and its
    length again; a mapped address keeps its port and is local or any
    exactly when the IPv4 address is. *)
Theorem addr_map_unmap sa l :
  sockaddr_wf sa -> (exists p a, sa = sockaddr_in p a) ->
  exists sa6, addr_map_inet6_v4mapped sa l = (sa6, sizeof_sockaddr_in6, true) /\
    sockaddr_wf sa6 /\
    (forall l', addr_unmap_inet6_v4mapped sa6 l' = (sa, sizeof_sockaddr_in, true)) /\
    addr_get_port sa6 = addr_get_port sa /\
    addr_is_any sa6 = addr_is_any sa /\ addr_is_local sa6 = addr_is_local sa.
Proof.
  intros Hwf (p & a & ->). destruct Hwf as (Hp & Ha & Hb).
  destruct a as [|a0 [|a1 [|a2 [|a3 [|]]]]]; try done.
  eexists. split; [done|]. simpl. split_and!; try done.
  all: repeat match goal with H : Forall _ (_ :: _) |- _ => apply Forall_cons_1 in H as [? H] end.
  all: unfold is_byte in *; repeat constructor; lia.
Qed.
End Addr.

Lemma addr_map_unmap_witness :
  exists sa6, @addr_map_inet6_v4mapped lwip (sockaddr_in 20480 [127; 0; 0; 1]) 16 = (sa6, 28, true) /\
    @sockaddr_wf lwip sa6 /\
    (forall l', @addr_unmap_inet6_v4mapped lwip sa6 l' = (sockaddr_in 20480 [127; 0; 0; 1], 16, true)) /\
    addr_get_port sa6 = 80 /\ addr_is_any sa6 = false /\ addr_is_local sa6 = true.
Proof.
  apply (@addr_map_unmap lwip (sockaddr_in 20480 [127; 0; 0; 1]) 16).
  - repeat constructor; done.
  - by do 2 eexists.
Defined.

Lemma addr_hash_respects_equal_witness :
  @addr_hash lwip (sockaddr_in 20480 [127; 0; 0; 1]) false = @addr_hash lwip (sockaddr_in 20736 [127; 0; 0; 1]) false /\
  @addr_hash lwip (sockaddr_in 20480 [127; 0; 0; 1]) false = @addr_hash lwip (sockaddr_in 20736 [127; 0; 0; 1]) false /\
  addr_is_equal (sockaddr_in 20736 [127; 0; 0; 1]) (sockaddr_in 20480 [127; 0; 0; 1]) false = true /\
  addr_is_equal (sockaddr_in 20480 [127; 0; 0; 1]) (sockaddr_in 20480 [127; 0; 0; 1]) false = true /\
  (addr_is_equal (sockaddr_in 20736 [127; 0; 0; 1]) (sockaddr_in6 80 []) false = true ->
   addr_is_equal (sockaddr_in 20480 [127; 0; 0; 1]) (sockaddr_in6 80 []) false = true).
Proof.
  apply (@addr_hash_respects_equal lwip (sockaddr_in 20480 [127; 0; 0; 1]) (sockaddr_in 20736 [127; 0; 0; 1])
           (sockaddr_in6 80 []) false). reflexivity.
Defined.
