(* ===== verification/Machine.v ===== *)
(** * A state monad for components that ask an environment and cause events

    The modules of libjuice that keep state for the life of a session (server.c,
    agent.c) are written in it.  A machine has the state [S] of the component,
    the number of questions it has asked its environment - an answer is a
    function of that number - and the events of type [E] it has caused, the last
    first.  A program that leaves the language is undefined ([None]).

    [spec x m Q]: run from [m], [x] is defined and its value and the machine it
    leaves satisfy [Q]. *)

From S2P Require Import Prelude.

Record process (S E : Type) := mkMachine { memory : S; asked : nat; events : list E }.
Arguments mkMachine {S E} memory asked events.
Arguments memory {S E} p.
Arguments asked {S E} p.
Arguments events {S E} p.

Definition prog (S E A : Type) : Type := process S E -> option (A * process S E).

Section Monad.
Context {S E : Type}.

Definition ret {A} (a : A) : prog S E A := fun m => Some (a, m).
Definition bind {A B} (x : prog S E A) (f : A -> prog S E B) : prog S E B := fun m =>
  match x m with
  | Some (a, m') => f a m'
  | None => None
  end.
Definition undefined {A} : prog S E A := fun _ => None.
Definition defined {A} (o : option A) : prog S E A := fun m =>
  match o with
  | Some a => Some (a, m)
  | None => None
  end.
Definition gets {A} (f : S -> A) : prog S E A := fun m => Some (f (memory m), m).
Definition modify (f : S -> S) : prog S E unit := fun m =>
  Some (tt, mkMachine (f (memory m)) (asked m) (events m)).
Definition ask {A} (f : nat -> A) : prog S E A := fun m =>
  Some (f (asked m), mkMachine (memory m) (Datatypes.S (asked m)) (events m)).
Definition emit (e : E) : prog S E unit := fun m =>
  Some (tt, mkMachine (memory m) (asked m) (e :: events m)).

(** A loop over a list. *)
Fixpoint each {T} (l : list T) (f : T -> prog S E unit) : prog S E unit :=
  match l with
  | [] => ret tt
  | x :: l' => bind (f x) (fun _ => each l' f)
  end.

(** ** Total correctness *)
Definition spec {A} (x : prog S E A) (m : process S E) (Q : A -> process S E -> Prop) : Prop :=
  match x m with
  | Some (a, m') => Q a m'
  | None => False
  end.

Lemma spec_mono {A} (x : prog S E A) m (Q Q' : A -> process S E -> Prop) :
  spec x m Q -> (forall a m', Q a m' -> Q' a m') -> spec x m Q'.
Proof. unfold spec. destruct (x m) as [[a m']|]; auto. Qed.

Lemma spec_bind {A B} (x : prog S E A) (f : A -> prog S E B) m Q :
  spec x m (fun a m' => spec (f a) m' Q) -> spec (bind x f) m Q.
Proof. unfold spec, bind. by destruct (x m) as [[a m']|]. Qed.

Lemma spec_ret {A} (a : A) m (Q : A -> process S E -> Prop) : Q a m -> spec (ret a) m Q.
Proof. done. Qed.

Lemma spec_gets {A} (f : S -> A) m (Q : A -> process S E -> Prop) : Q (f (memory m)) m -> spec (gets f) m Q.
Proof. done. Qed.

Lemma spec_modify f m (Q : unit -> process S E -> Prop) :
  Q tt (mkMachine (f (memory m)) (asked m) (events m)) -> spec (modify f) m Q.
Proof. done. Qed.

Lemma spec_ask {A} (f : nat -> A) m (Q : A -> process S E -> Prop) :
  Q (f (asked m)) (mkMachine (memory m) (Datatypes.S (asked m)) (events m)) -> spec (ask f) m Q.
Proof. done. Qed.

Lemma spec_emit e m (Q : unit -> process S E -> Prop) :
  Q tt (mkMachine (memory m) (asked m) (e :: events m)) -> spec (emit e) m Q.
Proof. done. Qed.

Lemma spec_defined {A} (a : A) (o : option A) m (Q : A -> process S E -> Prop) :
  o = Some a -> Q a m -> spec (defined o) m Q.
Proof. by intros ->. Qed.

(** A loop keeps a relation to the machine it started from, when its body does. *)
Lemma spec_each {T} (R : process S E -> Prop) (l : list T) (f : T -> prog S E unit) m :
  (forall x m1, x ∈ l -> R m1 -> spec (f x) m1 (fun _ m2 => R m2)) -> R m ->
  spec (each l f) m (fun _ m' => R m').
Proof.
  revert m. induction l as [|x l IH]; intros m Hf Hm; cbn [each]; [exact Hm|].
  apply spec_bind. eapply spec_mono; [apply Hf; [left|exact Hm]|]. intros [] m1 H1.
  apply IH; [|exact H1]. intros y m2 Hy. apply Hf. by right.
Qed.

(** The inverse view: what a defined run was made of. *)
Lemma bind_Some {A B} (x : prog S E A) (f : A -> prog S E B) m r :
  bind x f m = Some r -> exists a m', x m = Some (a, m') /\ f a m' = Some r.
Proof. unfold bind. destruct (x m) as [[a m']|]; [|done]. eauto. Qed.

Lemma defined_Some {A} (o : option A) (m : process S E) a m' : defined o m = Some (a, m') -> o = Some a /\ m' = m.
Proof. unfold defined. destruct o; [|done]. by intros [= -> ->]. Qed.

Lemma gets_Some {A} (f : S -> A) (m : process S E) a m' : gets f m = Some (a, m') -> a = f (memory m) /\ m' = m.
Proof. unfold gets. by intros [= <- <-]. Qed.

(** ** The new events, the last first *)
Definition emitted (m m' : process S E) (P : E -> Prop) : Prop :=
  exists es, events m' = es ++ events m /\ Forall P es.

Lemma emitted_refl m m' P : events m' = events m -> emitted m m' P.
Proof. intros Em. exists []. by split. Qed.

Lemma emitted_trans m1 m2 m3 P : emitted m1 m2 P -> emitted m2 m3 P -> emitted m1 m3 P.
Proof.
  intros (es & Es & H) (es' & Es' & H'). exists (es' ++ es). split; [by rewrite Es', Es, app_assoc|].
  by apply Forall_app_2.
Qed.

Lemma emitted_impl m m' (P Q : E -> Prop) : emitted m m' P -> (forall e, P e -> Q e) -> emitted m m' Q.
Proof. intros (es & Es & H) HPQ. exists es. split; [done|]. by apply (list.Forall_impl _ _ _ H). Qed.
End Monad.

Declare Scope machine_scope.
Notation "'let*' x := m 'in' k" := (bind m (fun x => k))
  (at level 10, x pattern, m at level 100, k at level 200) : machine_scope.
Notation "m ;; k" := (bind m (fun _ => k)) (at level 100, k at level 200, right associativity) : machine_scope.

(** One command at the head of the program. *)
Ltac step :=
  lazymatch goal with
  | |- spec (bind _ _) _ _ => apply spec_bind; step
  | |- spec (ret _) _ _ => apply spec_ret
  | |- spec (gets _) _ _ => apply spec_gets
  | |- spec (modify _) _ _ => apply spec_modify
  | |- spec (ask _) _ _ => apply spec_ask
  | |- spec (emit _) _ _ => apply spec_emit
  | |- spec (defined _) _ _ => eapply spec_defined; [eassumption|]
  | |- _ => idtac
  end.
