(* ===== verification/StunMsg.v ===== *)
(** * stun.h: the STUN message and its constants

    Character arrays hold C strings and are modelled by the string's bytes
    (without the NUL); [password_algorithms_value] by its valid prefix, whose
    length is [password_algorithms_value_size]; [peers] by its first
    [peers_size] records; the pointer [data] by the bytes it points to. *)

From S2P Require Import Prelude Addr.

Definition STUN_MAGIC : Z := 0x2112A442.
Definition STUN_FINGERPRINT_XOR : Z := 0x5354554E.
Definition STUN_CLASS_MASK : Z := 0x0110.

Definition STUN_CLASS_REQUEST : Z := 0x0000.
Definition STUN_CLASS_INDICATION : Z := 0x0010.
Definition STUN_CLASS_RESP_SUCCESS : Z := 0x0100.
Definition STUN_CLASS_RESP_ERROR : Z := 0x0110.

Definition STUN_METHOD_BINDING : Z := 0x001.
Definition STUN_METHOD_ALLOCATE : Z := 0x003.
Definition STUN_METHOD_REFRESH : Z := 0x004.
Definition STUN_METHOD_SEND : Z := 0x006.
Definition STUN_METHOD_DATA : Z := 0x007.
Definition STUN_METHOD_CREATE_PERMISSION : Z := 0x008.
Definition STUN_METHOD_CHANNEL_BIND : Z := 0x009.

Definition STUN_IS_RESPONSE (msg_class : Z) : bool := flag msg_class 0x0100.

Definition STUN_ATTR_MAPPED_ADDRESS : Z := 0x0001.
Definition STUN_ATTR_USERNAME : Z := 0x0006.
Definition STUN_ATTR_MESSAGE_INTEGRITY : Z := 0x0008.
Definition STUN_ATTR_ERROR_CODE : Z := 0x0009.
Definition STUN_ATTR_UNKNOWN_ATTRIBUTES : Z := 0x000A.
Definition STUN_ATTR_REALM : Z := 0x0014.
Definition STUN_ATTR_NONCE : Z := 0x0015.
Definition STUN_ATTR_MESSAGE_INTEGRITY_SHA256 : Z := 0x001C.
Definition STUN_ATTR_PASSWORD_ALGORITHM : Z := 0x001D.
Definition STUN_ATTR_USERHASH : Z := 0x001E.
Definition STUN_ATTR_XOR_MAPPED_ADDRESS : Z := 0x0020.
Definition STUN_ATTR_PRIORITY : Z := 0x0024.
Definition STUN_ATTR_USE_CANDIDATE : Z := 0x0025.
Definition STUN_ATTR_PASSWORD_ALGORITHMS : Z := 0x8002.
Definition STUN_ATTR_SOFTWARE : Z := 0x8022.
Definition STUN_ATTR_ALTERNATE_SERVER : Z := 0x8023.
Definition STUN_ATTR_FINGERPRINT : Z := 0x8028.
Definition STUN_ATTR_ICE_CONTROLLED : Z := 0x8029.
Definition STUN_ATTR_ICE_CONTROLLING : Z := 0x802A.
Definition STUN_ATTR_CHANNEL_NUMBER : Z := 0x000C.
Definition STUN_ATTR_LIFETIME : Z := 0x000D.
Definition STUN_ATTR_XOR_PEER_ADDRESS : Z := 0x0012.
Definition STUN_ATTR_DATA : Z := 0x0013.
Definition STUN_ATTR_XOR_RELAYED_ADDRESS : Z := 0x0016.
Definition STUN_ATTR_EVEN_PORT : Z := 0x0018.
Definition STUN_ATTR_REQUESTED_TRANSPORT : Z := 0x0019.
Definition STUN_ATTR_DONT_FRAGMENT : Z := 0x001A.
Definition STUN_ATTR_RESERVATION_TOKEN : Z := 0x0022.

Definition STUN_PASSWORD_ALGORITHM_UNSET : Z := 0.
Definition STUN_PASSWORD_ALGORITHM_MD5 : Z := 1.
Definition STUN_PASSWORD_ALGORITHM_SHA256 : Z := 2.

Definition STUN_ADDRESS_FAMILY_IPV4 : Z := 1.
Definition STUN_ADDRESS_FAMILY_IPV6 : Z := 2.

Definition STUN_ERROR_INTERNAL_VALIDATION_FAILED : Z := 599.
Definition STUN_MAX_USERNAME_LEN : Z := 513 + 1.
Definition STUN_MAX_REALM_LEN : Z := 763 + 1.
Definition STUN_MAX_NONCE_LEN : Z := 763 + 1.
Definition STUN_MAX_SOFTWARE_LEN : Z := 763 + 1.
Definition STUN_MAX_PASSWORD_LEN : Z := STUN_MAX_USERNAME_LEN.
Definition STUN_MAX_PASSWORD_ALGORITHMS_VALUE_SIZE : Z := 256.
Definition STUN_MAX_PEER_ADDRESSES : Z := 8.
Definition STUN_NONCE_COOKIE_LEN : Z := 9.
Definition STUN_SECURITY_PASSWORD_ALGORITHMS_BIT : Z := 0x01.
Definition STUN_SECURITY_USERNAME_ANONYMITY_BIT : Z := 0x02.
(** ["obMatJos2"] *)
Definition STUN_NONCE_COOKIE : list Z := [111; 98; 77; 97; 116; 74; 111; 115; 50].

Definition HASH_SHA256_SIZE : Z := 32.
Definition HMAC_SHA1_SIZE : Z := 20.
Definition HMAC_SHA256_SIZE : Z := 32.
Definition USERHASH_SIZE : Z := HASH_SHA256_SIZE.

(** [stun_credentials_t]. *)
Record stun_credentials := mkCredentials {
  username : list Z;
  realm : list Z;
  nonce : list Z;
  userhash : list Z;
  enable_userhash : bool;
  password_algorithm : Z;
  password_algorithms_value : list Z
}.

Definition stun_credentials_zero : stun_credentials :=
  mkCredentials [] [] [] (replicate 32 0) false 0 [].

(** [stun_message_t]. *)
Record stun_message := mkMessage {
  msg_class : Z;
  msg_method : Z;
  transaction_id : list Z;
  error_code : Z;
  priority : Z;
  ice_controlling : Z;
  ice_controlled : Z;
  use_candidate : bool;
  mapped : addr_record;
  credentials : stun_credentials;
  has_integrity : bool;
  has_fingerprint : bool;
  peers : list addr_record;
  relayed : addr_record;
  alternate_server : addr_record;
  data : option (list Z);
  data_size : Z;
  lifetime : Z;
  channel_number : Z;
  lifetime_set : bool;
  even_port : bool;
  next_port : bool;
  dont_fragment : bool;
  requested_transport : bool;
  reservation_token : Z
}.

(** [memset(msg, 0, sizeof( *msg))]. *)
Definition stun_message_zero : stun_message :=
  mkMessage 0 0 (replicate 12 0) 0 0 0 0 false addr_record_zero stun_credentials_zero false false [] addr_record_zero addr_record_zero None 0 0 0 false false false false false 0.

#[export] Instance stun_credentials_expand : Expand stun_credentials := fun c =>
  mkCredentials (username c) (realm c) (nonce c) (userhash c) (enable_userhash c) (password_algorithm c) (password_algorithms_value c).
#[export] Instance stun_message_expand : Expand stun_message := fun m =>
  mkMessage (msg_class m) (msg_method m) (transaction_id m) (error_code m) (priority m)
    (ice_controlling m) (ice_controlled m) (use_candidate m) (mapped m) (credentials m)
    (has_integrity m) (has_fingerprint m) (peers m) (relayed m) (alternate_server m) (data m)
    (data_size m) (lifetime m) (channel_number m) (lifetime_set m) (even_port m) (next_port m)
    (dont_fragment m) (requested_transport m) (reservation_token m).

#[export] Instance stun_credentials_eq_dec : EqDecision stun_credentials.
Proof. solve_decision. Defined.
#[export] Instance stun_message_eq_dec : EqDecision stun_message.
Proof. solve_decision. Defined.

(** ** The hash functions of hash.c and hmac.c, as stun.c uses them *)
Class Hashes := {
  hash_md5 : list Z -> list Z;
  hash_sha256 : list Z -> list Z;
  hmac_sha1 : list Z -> list Z -> list Z;     (* message, key *)
  hmac_sha256 : list Z -> list Z -> list Z;
  hash_md5_length : forall m, lenZ (hash_md5 m) = 16;
  hash_sha256_length : forall m, lenZ (hash_sha256 m) = HASH_SHA256_SIZE;
  hmac_sha1_length : forall m k, lenZ (hmac_sha1 m k) = HMAC_SHA1_SIZE;
  hmac_sha256_length : forall m k, lenZ (hmac_sha256 m k) = HMAC_SHA256_SIZE;
  hash_md5_bytes : forall m, bytes_ok (hash_md5 m);
  hash_sha256_bytes : forall m, bytes_ok (hash_sha256 m);
  hmac_sha1_bytes : forall m k, bytes_ok (hmac_sha1 m k);
  hmac_sha256_bytes : forall m k, bytes_ok (hmac_sha256 m k)
}.
