(* ===== verification/StunHashes.v ===== *)
(** * The hash interface of stun.c is implemented by hash.c and hmac.c

    [Hashes] is instantiated with the reference functions, which the code
    computes: [hash_functions_correct] and [hmac_functions_correct]. *)

From S2P Require Import Prelude HashSpec HashCorrect StunMsg.

Lemma lenZ_HMAC H n key m : (forall m, lenZ (H m) = n) -> lenZ (HMAC H key m) = n.
Proof. intros HH. apply HH. Qed.

#[export] Program Instance picohash_hashes : Hashes := {
  hash_md5 := MD5;
  hash_sha256 := SHA256;
  hmac_sha1 m k := HMAC SHA1 k m;
  hmac_sha256 m k := HMAC SHA256 k m
}.
Next Obligation. apply lenZ_MD5. Qed.
Next Obligation. apply lenZ_SHA256. Qed.
Next Obligation. intros. apply lenZ_SHA1. Qed.
Next Obligation. intros. apply lenZ_SHA256. Qed.
Next Obligation. intros. apply (stream_bytes (f := Picohash.fn_md5) (dsize := 16)). Qed.
Next Obligation. intros. apply (stream_bytes (f := Picohash.fn_sha256) (dsize := 32) (H := SHA256)). Qed.
Next Obligation. intros. apply (stream_bytes (f := Picohash.fn_sha1) (dsize := 20) (H := SHA1)). Qed.
Next Obligation. intros. apply (stream_bytes (f := Picohash.fn_sha256) (dsize := 32) (H := SHA256)). Qed.
