(* ===== verification/StunWrite.v ===== *)
(** * stun.c: writing STUN messages

    A buffer is the list of its bytes; [begin] is offset 0 and a pointer into
    it is an offset.  A store outside the buffer is undefined behaviour. *)

From S2P Require Import Prelude Addr Crc32 StunMsg.

Definition CRC32 (data : list Z) : option Z :=
  let? (crc, _) := juice_crc32 crc32_zero_table data in Some crc.

Lemma CRC32_total data : bytes_ok data -> CRC32 data = Some (crc32_ref data).
Proof. intros Hd. unfold CRC32. by rewrite juice_crc32_eq by (done || by left). Qed.

(** [htonll], the macro. *)
Definition htonll (x : Z) : Z :=
  Z.lor (Z.shiftl (htonl (u32 x)) 32) (htonl (u32 (Z.shiftr x 32))).

(** [while (len & 0x03) ++len;] in closed form. *)
Definition align32 (len : Z) : Z := len + (- len) `mod` 4.

Definition sizeof_stun_header : Z := 20.
Definition sizeof_stun_attr : Z := 4.
Definition STUN_ATTR_SIZE : Z := sizeof_stun_attr.
Definition MAX_HMAC_KEY_LEN : Z := STUN_MAX_PASSWORD_LEN.
Definition MAX_HMAC_INPUT_LEN : Z :=
  STUN_MAX_USERNAME_LEN + STUN_MAX_REALM_LEN + STUN_MAX_PASSWORD_LEN + 2.

(** The 16-byte mask: the magic cookie and the transaction ID. *)
Definition generate_mask (transaction_id : list Z) : list Z :=
  le_bytes 4 (htonl STUN_MAGIC) ++ take 12 transaction_id.

(** [snprintf(s, n, "%s", str)] with the returned length clipped to [n - 1]. *)
Definition snprintf_clip (n : Z) (str : list Z) : list Z := take (Z.to_nat (n - 1)) str.

Section Write.
Context `{Platform, Hashes}.

(** The bytes of [key] that are used: the first [generate_hmac_key(...)]. *)
Definition generate_hmac_key (msg : stun_message) (password : option (list Z)) : list Z :=
  let pw := default [] password in
  let c := credentials msg in
  match realm c with
  | _ :: _ =>
    let input := snprintf_clip MAX_HMAC_INPUT_LEN (username c ++ [58] ++ realm c ++ [58] ++ pw) in
    if password_algorithm c =? STUN_PASSWORD_ALGORITHM_SHA256 then hash_sha256 input
    else hash_md5 input
  | [] => snprintf_clip MAX_HMAC_KEY_LEN pw
  end.

Definition generate_password_algorithms_attr : list Z :=
  le_bytes 2 (htons STUN_PASSWORD_ALGORITHM_SHA256) ++ le_bytes 2 0 ++
  le_bytes 2 (htons STUN_PASSWORD_ALGORITHM_MD5) ++ le_bytes 2 0.

(** [stun_write_header] at offset [buf]: the memory and the returned value. *)
Definition stun_write_header (mem : list Z) (buf size class method : Z) (transaction_id : list Z)
    : option (list Z * Z) :=
  if size <? sizeof_stun_header then Some (mem, -1)
  else
    let type := Z.lor (u16 class) (u16 method) in
    let? tid := load 0 12 transaction_id in
    let? mem := store buf (le_bytes 2 (htons type) ++ le_bytes 2 (htons 0) ++
                           le_bytes 4 (htonl STUN_MAGIC) ++ tid) mem in
    Some (mem, sizeof_stun_header).

(** The new memory and the previous length. *)
Definition stun_update_header_length (mem : list Z) (length : Z) : option (list Z * Z) :=
  let? previous := load16 2 mem in
  let? mem := store 2 (le_bytes 2 (htons (u16 length))) mem in
  Some (mem, ntohs previous).

(** [stun_write_attr] at offset [buf]; [value] is the object read from. *)
Definition stun_write_attr (mem : list Z) (buf size type : Z) (value : list Z) (length : Z)
    : option (list Z * Z) :=
  if size <? size_t (sizeof_stun_attr + length) then Some (mem, -1)
  else
    let? mem := store buf (le_bytes 2 (htons type) ++ le_bytes 2 (htons (u16 length))) mem in
    if 0 <? length then
      let? v := load 0 length value in
      let? mem := store (buf + 4) v mem in
      let padded := align32 length in
      let? mem := store (buf + 4 + length) (replicate (Z.to_nat (padded - length)) 0) mem in
      Some (mem, sizeof_stun_attr + padded)
    else Some (mem, sizeof_stun_attr + length).

(** [stun_write_value_mapped_address] into a local array of [size] bytes:
    the returned value and the bytes it stands for (none for an error). *)
Definition stun_write_value_mapped_address (size : Z) (sa : sockaddr) (addrlen : Z) (mask : list Z)
    : Z * list Z :=
  if size <? 4 then (-1, [])
  else match sa with
  | sockaddr_in port bytes =>
    if size <? 4 + 4 then (-1, [])
    else if addrlen <? sizeof_sockaddr_in then (-1, [])
    else (4 + 4, [0; STUN_ADDRESS_FAMILY_IPV4] ++ le_bytes 2 (Z.lxor port (le_word (take 2 mask))) ++
                 zip_with Z.lxor bytes (take 4 mask))
  | sockaddr_in6 port bytes =>
    if size <? 4 + 16 then (-1, [])
    else if addrlen <? sizeof_sockaddr_in6 then (-1, [])
    else (4 + 16, [0; STUN_ADDRESS_FAMILY_IPV6] ++ le_bytes 2 (Z.lxor port (le_word (take 2 mask))) ++
                  zip_with Z.lxor bytes (take 16 mask))
  | sockaddr_other _ => (-1, [])
  end.

(** The reason phrases, as bytes. *)
Definition stun_get_error_reason (code : Z) : list Z :=
  if code =? 0 then []
  else if code =? 300 then [84;114;121;32;65;108;116;101;114;110;97;116;101]
  else if code =? 400 then [66;97;100;32;82;101;113;117;101;115;116]
  else if code =? 401 then [85;110;97;117;116;104;101;110;116;105;99;97;116;101;100]
  else if code =? 403 then [70;111;114;98;105;100;100;101;110]
  else if code =? 420 then [85;110;107;110;111;119;110;32;65;116;116;114;105;98;117;116;101]
  else if code =? 437 then [65;108;108;111;99;97;116;105;111;110;32;77;105;115;109;97;116;99;104]
  else if code =? 438 then [83;116;97;108;101;32;78;111;110;99;101]
  else if code =? 440 then [65;100;100;114;101;115;115;32;70;97;109;105;108;121;32;110;111;116;32;83;117;112;112;111;114;116;101;100]
  else if code =? 441 then [87;114;111;110;103;32;99;114;101;100;101;110;116;105;97;108;115]
  else if code =? 442 then [85;110;115;117;112;112;111;114;116;101;100;32;84;114;97;110;115;112;111;114;116;32;80;114;111;116;111;99;111;108]
  else if code =? 443 then [80;101;101;114;32;65;100;100;114;101;115;115;32;70;97;109;105;108;121;32;77;105;115;109;97;116;99;104]
  else if code =? 486 then [65;108;108;111;99;97;116;105;111;110;32;81;117;111;116;97;32;82;101;97;99;104;101;100]
  else if code =? 500 then [83;101;114;118;101;114;32;69;114;114;111;114]
  else if code =? 508 then [73;110;115;117;102;102;105;99;105;101;110;116;32;67;97;112;97;99;105;116;121]
  else [69;114;114;111;114].

(** The state of [stun_write]: the buffer and [pos]. *)
Definition wstate : Type := list Z * Z.
Definition writer : Type := wstate -> outcome (list Z * Z) wstate.

Variable size : Z.

(** [pos += len] on 32-bit pointers: adding [(size_t)-1] steps one byte back. *)
Definition ptr_add (pos len : Z) : Z := pos + s32 len.

(** [len = stun_write_attr(pos, end - pos, ...); if (len <= 0) goto overflow;
    pos += len;] where [len] is a [size_t]. *)
Definition advance (r : option (list Z * Z)) (pos : Z) : outcome (list Z * Z) wstate :=
  let! (mem, ret) := acc r in
  let len := size_t ret in
  if len <=? 0 then Return (mem, -1) else Next (mem, ptr_add pos len).

Definition put_attr (type : Z) (value : list Z) (length : Z) : writer := fun '(mem, pos) =>
  advance (stun_write_attr mem pos (size_t (size - pos)) type value length) pos.

Definition when (c : bool) (w : writer) : writer := fun st => if c then w st else Next st.
Definition seq_w (w1 w2 : writer) : writer := fun st => let! st := w1 st in w2 st.
Notation "w1 ;> w2" := (seq_w w1 w2) (at level 90, right associativity).

(** A XOR address attribute, skipped when the address cannot be written. *)
Definition put_address (type : Z) (transaction_id : list Z) (record : addr_record) : writer :=
  let '(value_len, value) :=
    stun_write_value_mapped_address 32 (addr record) (len record) (generate_mask transaction_id) in
  when (0 <? value_len) (put_attr type value value_len).

Fixpoint put_peers (transaction_id : list Z) (ps : list addr_record) : writer :=
  match ps with
  | [] => Next
  | p :: ps' =>
    when (negb (len p =? 0)) (put_address STUN_ATTR_XOR_PEER_ADDRESS transaction_id p) ;>
    put_peers transaction_id ps'
  end.

Definition is_cons (s : list Z) : bool := match s with [] => false | _ => true end.
Definition isSome {A} (o : option A) : bool := match o with Some _ => true | None => false end.

Variable msg : stun_message.
Variable password : option (list Z).
(** The bytes of the never assigned [pwa.parameters_length]. *)
Variable indeterminate : list Z.

Definition error_value : list Z :=
  le_bytes 2 0 ++ [Z.land (error_code msg / 100) 0x07; u8 (error_code msg `mod` 100)] ++
  stun_get_error_reason (error_code msg).

Definition SOFTWARE : list Z := [108; 105; 98; 106; 117; 105; 99; 101].

(** [msg_class == REQUEST || (msg_class == RESP_ERROR && (401 or 438))] *)
Definition sends_realm : bool :=
  (msg_class msg =? STUN_CLASS_REQUEST) ||
  ((msg_class msg =? STUN_CLASS_RESP_ERROR) &&
   ((error_code msg =? 401) || (error_code msg =? 438))).

Definition write_attributes : writer :=
  when (negb (error_code msg =? 0))
    (put_attr STUN_ATTR_ERROR_CODE error_value (4 + lenZ (stun_get_error_reason (error_code msg)))) ;>
  when (negb (len (mapped msg) =? 0))
    (put_address STUN_ATTR_XOR_MAPPED_ADDRESS (transaction_id msg) (mapped msg)) ;>
  when (negb (priority msg =? 0))
    (put_attr STUN_ATTR_PRIORITY (le_bytes 4 (htonl (priority msg))) 4) ;>
  when (use_candidate msg)
    (put_attr STUN_ATTR_USE_CANDIDATE [] 0) ;>
  when (negb (ice_controlling msg =? 0))
    (put_attr STUN_ATTR_ICE_CONTROLLING (le_bytes 8 (htonll (ice_controlling msg))) 8) ;>
  when (negb (ice_controlled msg =? 0))
    (put_attr STUN_ATTR_ICE_CONTROLLED (le_bytes 8 (htonll (ice_controlled msg))) 8) ;>
  when (negb (channel_number msg =? 0))
    (put_attr STUN_ATTR_CHANNEL_NUMBER (le_bytes 2 (htons (channel_number msg)) ++ le_bytes 2 0) 4) ;>
  when (lifetime_set msg || negb (lifetime msg =? 0))
    (put_attr STUN_ATTR_LIFETIME (le_bytes 4 (htonl (lifetime msg))) 4) ;>
  put_peers (transaction_id msg) (peers msg) ;>
  when (negb (len (relayed msg) =? 0))
    (put_address STUN_ATTR_XOR_RELAYED_ADDRESS (transaction_id msg) (relayed msg)) ;>
  when (isSome (data msg))
    (put_attr STUN_ATTR_DATA (default [] (data msg)) (data_size msg)) ;>
  when (even_port msg)
    (put_attr STUN_ATTR_CHANNEL_NUMBER [if next_port msg then 0x80 else 0] 1) ;>
  when (requested_transport msg)
    (put_attr STUN_ATTR_REQUESTED_TRANSPORT [17; 0; 0; 0] 4) ;>
  when (dont_fragment msg)
    (put_attr STUN_ATTR_DONT_FRAGMENT [] 0) ;>
  when (negb (reservation_token msg =? 0))
    (put_attr STUN_ATTR_RESERVATION_TOKEN (le_bytes 8 (htonll (reservation_token msg))) 8) ;>
  put_attr STUN_ATTR_SOFTWARE SOFTWARE (lenZ SOFTWARE).

Definition write_credentials : writer :=
  let c := credentials msg in
  let request := msg_class msg =? STUN_CLASS_REQUEST in
  when request
    (if enable_userhash c then put_attr STUN_ATTR_USERHASH (userhash c) USERHASH_SIZE
     else when (is_cons (username c)) (put_attr STUN_ATTR_USERNAME (username c) (lenZ (username c)))) ;>
  when sends_realm
    (when (is_cons (realm c)) (put_attr STUN_ATTR_REALM (realm c) (lenZ (realm c))) ;>
     when (is_cons (nonce c))
       (put_attr STUN_ATTR_NONCE (nonce c) (lenZ (nonce c)) ;>
        (if 0 <? password_algorithm c then
           put_attr STUN_ATTR_PASSWORD_ALGORITHMS (password_algorithms_value c)
             (lenZ (password_algorithms_value c))
         else when (negb request)
           (put_attr STUN_ATTR_PASSWORD_ALGORITHMS generate_password_algorithms_attr
             (lenZ generate_password_algorithms_attr))) ;>
        when (request && negb (password_algorithm c =? STUN_PASSWORD_ALGORITHM_UNSET))
          (put_attr STUN_ATTR_PASSWORD_ALGORITHM
             (le_bytes 2 (htons (password_algorithm c)) ++ indeterminate) 4))).

(** One MESSAGE-INTEGRITY attribute: patch the header length, authenticate
    everything written so far, append the digest. *)
Definition put_integrity (attr_begin type : Z) (hmac : list Z -> list Z -> list Z) (digest_size : Z) : writer :=
  fun '(mem, pos) =>
  let tmp_length := size_t (pos - attr_begin + STUN_ATTR_SIZE + digest_size) in
  let! (mem, _) := acc (stun_update_header_length mem tmp_length) in
  let! text := acc (load 0 (size_t pos) mem) in
  put_attr type (hmac text (generate_hmac_key msg password)) digest_size (mem, pos).

Definition write_integrity (attr_begin : Z) : writer :=
  when (negb (msg_class msg =? STUN_CLASS_INDICATION) && isSome password)
    (put_integrity attr_begin STUN_ATTR_MESSAGE_INTEGRITY hmac_sha1 HMAC_SHA1_SIZE ;>
     when (negb (password_algorithm (credentials msg) =? STUN_PASSWORD_ALGORITHM_UNSET))
       (put_integrity attr_begin STUN_ATTR_MESSAGE_INTEGRITY_SHA256 hmac_sha256 HMAC_SHA256_SIZE)).

Definition write_fingerprint (attr_begin : Z) : writer := fun '(mem, pos) =>
  let length := size_t (pos - attr_begin + STUN_ATTR_SIZE + 4) in
  if negb (Z.land length 0x03 =? 0) then Return (mem, -1)
  else
    let! (mem, _) := acc (stun_update_header_length mem length) in
    let! text := acc (load 0 (size_t pos) mem) in
    let! crc := acc (CRC32 text) in
    put_attr STUN_ATTR_FINGERPRINT (le_bytes 4 (htonl (Z.lxor crc STUN_FINGERPRINT_XOR))) 4 (mem, pos).

(** [stun_write]: the buffer and the returned value; [None] is undefined
    behaviour. *)
Definition stun_write (buf : list Z) : option (list Z * Z) :=
  run (
    let! st := advance (stun_write_header buf 0 (size_t size) (msg_class msg) (msg_method msg)
                          (transaction_id msg)) 0 in
    let attr_begin := snd st in
    (write_attributes ;> write_credentials ;> write_integrity attr_begin ;>
     write_fingerprint attr_begin) st).
End Write.
