(* ===== verification/StunWriteCorrect.v ===== *)
(** * stun_write implements the wire format

    A writer [f] appends the bytes [l] when, from any buffer whose first part
    is already written and whose rest has room, it stores [l] there and moves
    [pos] behind it. Sequences and conditionals of such writers append the
    concatenation. *)

From S2P Require Import Prelude Addr Crc32 StunMsg StunWrite StunCodec.


Lemma s32_minus1 : s32 (size_t (-1)) = -1.
Proof. reflexivity. Qed.

Lemma stun_write_attr_ok done rest t v n :
  n = lenZ v -> lenZ done + lenZ rest < 2 ^ 31 -> lenZ (tlv t v) <= lenZ rest ->
  stun_write_attr (done ++ rest) (lenZ done) (lenZ rest) t v n =
  Some (done ++ tlv t v ++ drop (length (tlv t v)) rest, lenZ (tlv t v)).
Proof.
  intros -> Hsz Hfit. rewrite lenZ_tlv in *. pose proof (align32_bounds (lenZ v)) as Hal.
  pose proof (lenZ_nonneg v). pose proof (lenZ_nonneg done).
  unfold stun_write_attr, sizeof_stun_attr. rewrite wrap_small by lia.
  destruct (lenZ rest <? 4 + lenZ v) eqn:E; zify_bool; [lia|].
  assert (Hsplit : exists r0 r1 r2 r3, rest = r0 ++ r1 ++ r2 ++ r3 /\
            length r0 = 4%nat /\ length r1 = length v /\ length r2 = length (padding (lenZ v))).
  { assert (Hp : lenZ (padding (lenZ v)) = align32 (lenZ v) - lenZ v) by apply lenZ_padding.
    exists (take 4 rest), (take (length v) (drop 4 rest)),
      (take (length (padding (lenZ v))) (drop (length v) (drop 4 rest))),
      (drop (length (padding (lenZ v))) (drop (length v) (drop 4 rest))).
    rewrite !take_drop. split; [done|].
    unfold lenZ in *. rewrite !length_take, !length_drop. split_and!; lia. }
  destruct Hsplit as (r0 & r1 & r2 & r3 & -> & L0 & L1 & L2).
  rewrite store_mid by (done || rewrite length_app, !length_le_bytes; lia).
  rewrite le_bytes_bswap16, le_bytes_bswap16.
  assert (Hlen : be_bytes 2 (u16 (lenZ v)) = be_bytes 2 (lenZ v)).
  { unfold be_bytes, wrap. f_equal. simpl. repeat (apply (f_equal2 cons); [lia_mod|]). done. }
  rewrite Hlen. unfold tlv.
  set (h := be_bytes 2 t ++ be_bytes 2 (lenZ v)).
  assert (Hh : lenZ h = 4) by (unfold h; lens).
  replace (be_bytes 2 t ++ be_bytes 2 (lenZ v) ++ v ++ padding (lenZ v)) with (h ++ v ++ padding (lenZ v))
    by (unfold h; by rewrite <- !app_assoc).
  assert (Hdrop : drop (length (h ++ v ++ padding (lenZ v))) (r0 ++ r1 ++ r2 ++ r3) = r3).
  { rewrite !app_assoc. rewrite drop_app_ge; [rewrite (proj2 (Nat.sub_0_le _ _)); [done|]|];
      rewrite !length_app, L0, L1, L2; unfold lenZ in Hh; lia. }
  rewrite Hdrop.
  destruct (0 <? lenZ v) eqn:Ev; zify_bool.
  - rewrite load_all by done.
    rewrite (app_assoc done h), store_mid by (rewrite ?lenZ_app; lia || done).
    rewrite (app_assoc (done ++ h) v). fold (padding (lenZ v)).
    rewrite store_mid by (rewrite ?lenZ_app; lia || done).
    by rewrite <- !app_assoc.
  - destruct v; [|exfalso; unfold lenZ in Ev; simpl in Ev; lia].
    destruct r1; [|done]. change (padding (lenZ (@nil Z))) with (@nil Z) in *.
    destruct r2; [|done]. done.
Qed.

(** Too little room: -1 and nothing stored. *)
Lemma stun_write_attr_full mem buf sz t v n :
  0 <= n < 2 ^ 31 -> 0 <= sz < 4 + n ->
  stun_write_attr mem buf sz t v n = Some (mem, -1).
Proof.
  intros Hn Hs. unfold stun_write_attr, sizeof_stun_attr. rewrite wrap_small by lia.
  case_tests.
Qed.

Section Writers.
Context `{Platform, Hashes}.
Variable size : Z.
Hypothesis size_ok : 0 <= size < 2 ^ 31.

Definition writes (f : writer) (l : list Z) : Prop := forall done rest,
  lenZ done + lenZ rest = size -> lenZ l <= lenZ rest ->
  f (done ++ rest, lenZ done) = Next (done ++ l ++ drop (length l) rest, lenZ (done ++ l)).

Lemma writes_nil : writes Next [].
Proof. intros done rest _ _. by rewrite drop_0, !app_nil_r. Qed.

Lemma writes_seq f g l k : writes f l -> writes g k -> writes (seq_w f g) (l ++ k).
Proof.
  intros Hf Hg done rest Hsz Hfit. unfold seq_w. rewrite lenZ_app in Hfit.
  pose proof (lenZ_nonneg k). pose proof (lenZ_nonneg l).
  rewrite Hf by lia. simpl. rewrite app_assoc. rewrite Hg.
  - by rewrite drop_drop, <- !app_assoc, length_app.
  - rewrite lenZ_app. unfold lenZ in *. rewrite length_drop. lia.
  - unfold lenZ in *. rewrite length_drop. lia.
Qed.

Lemma writes_put t v n : n = lenZ v -> writes (put_attr size t v n) (tlv t v).
Proof.
  intros Hn done rest Hsz Hfit. unfold put_attr.
  pose proof (lenZ_nonneg done). pose proof (lenZ_nonneg rest).
  replace (size - lenZ done) with (lenZ rest) by lia. rewrite (wrap_small 32 (lenZ rest)) by lia.
  rewrite stun_write_attr_ok by (done || lia). unfold advance. cbn [acc obind].
  pose proof (align32_bounds (lenZ v)). pose proof (lenZ_nonneg v). rewrite lenZ_tlv in *.
  rewrite (wrap_small 32) by lia.
  destruct (4 + align32 (lenZ v) <=? 0) eqn:E; zify_bool; [lia|].
  unfold ptr_add. rewrite s32_small by lia. by rewrite lenZ_app, lenZ_tlv.
Qed.

Lemma writes_when c f (l : attr_list) :
  (c = true -> writes f (encode_attrs l)) -> writes (when c f) (encode_attrs (if c then l else [])).
Proof. destruct c; intros Hf; [by apply Hf | apply writes_nil]. Qed.

Lemma writes_when_put c t v n : (c = true -> n = lenZ v) ->
  writes (when c (put_attr size t v n)) (encode_attrs (attr_if c t v)).
Proof.
  intros Hn. unfold attr_if. apply writes_when. intros Hc. rewrite encode_attrs_one.
  apply writes_put; auto.
Qed.

Lemma mapped_value_len sz sa l mask n v :
  stun_write_value_mapped_address sz sa l mask = (n, v) -> sockaddr_wf sa -> 16 <= lenZ mask ->
  0 < n -> n = lenZ v.
Proof.
  intros Hw Hwf Hm Hn. unfold stun_write_value_mapped_address in Hw.
  assert (Hz : forall k a, length a = k -> (k <= 16)%nat -> lenZ (zip_with Z.lxor a (take k mask)) = Z.of_nat k).
  { intros k a Ha Hk. unfold lenZ in *. rewrite length_zip_with, length_take. lia. }
  destruct sa as [p a|p a|f]; simpl in Hwf; repeat case_match; simplify_eq; try lia;
    destruct Hwf as (_ & Ha & _); rewrite !lenZ_app, lenZ_le_bytes, Hz by (done || lia); done.
Qed.

Definition tid_ok (tid : list Z) : Prop := length tid = 12%nat /\ bytes_ok tid.

Lemma mask_bytes tid : bytes_ok tid -> bytes_ok (generate_mask tid).
Proof. intros Ht. unfold generate_mask. apply Forall_app_2; [apply bytes_le_bytes|by apply Forall_take]. Qed.

Lemma mask_length tid : tid_ok tid -> lenZ (generate_mask tid) = 16.
Proof.
  intros [Ht _]. unfold generate_mask. rewrite lenZ_app, lenZ_le_bytes.
  unfold lenZ. rewrite length_take. lia.
Qed.

(** An address record that is absent or holds a well-formed address. *)
Definition record_wf (r : addr_record) : Prop := sockaddr_wf (addr r).

Lemma writes_address t tid r : tid_ok tid -> record_wf r ->
  writes (put_address size t tid r) (encode_attrs (address_attr t tid r)).
Proof.
  intros Ht Hr. unfold put_address, address_attr.
  destruct (stun_write_value_mapped_address 32 (addr r) (len r) (generate_mask tid)) as [n v] eqn:E.
  apply writes_when_put. intros Hn. zify_bool.
  eapply mapped_value_len; [done|done|by rewrite mask_length|done].
Qed.

Lemma writes_peers tid ps : tid_ok tid -> Forall record_wf ps ->
  writes (put_peers size tid ps) (encode_attrs (peer_attrs tid ps)).
Proof.
  intros Ht. induction 1 as [|p ps Hp Hps IH]; simpl; [apply writes_nil|].
  unfold peer_attrs. simpl. rewrite encode_attrs_app. apply writes_seq; [|apply IH].
  apply writes_when. intros _. by apply writes_address.
Qed.

Section Message.
Variable msg : stun_message.
Variable password : option (list Z).
Variable indeterminate : list Z.

(** What a caller of [stun_write] provides. *)
Record writable : Prop := {
  w_tid : tid_ok (transaction_id msg);
  w_mapped : record_wf (mapped msg);
  w_relayed : record_wf (relayed msg);
  w_peers : Forall record_wf (peers msg);
  w_data : isSome (data msg) = true -> data_size msg = lenZ (default [] (data msg));
  w_ice_controlling : 0 <= ice_controlling msg < 2 ^ 64;
  w_ice_controlled : 0 <= ice_controlled msg < 2 ^ 64;
  w_reservation : 0 <= reservation_token msg < 2 ^ 64;
  w_userhash : lenZ (userhash (credentials msg)) = USERHASH_SIZE;
  w_indeterminate : lenZ indeterminate = 2;
  w_bytes : bytes_ok (default [] (data msg)) /\ bytes_ok (userhash (credentials msg)) /\
    bytes_ok (username (credentials msg)) /\ bytes_ok (realm (credentials msg)) /\
    bytes_ok (nonce (credentials msg)) /\ bytes_ok (password_algorithms_value (credentials msg)) /\
    bytes_ok indeterminate
}.
Hypothesis Hw : writable.

Lemma writes_attributes : writes (write_attributes size msg) (encode_attrs (plain_attrs msg)).
Proof.
  destruct Hw. unfold write_attributes, plain_attrs.
  rewrite !htonll_bytes, !le_bytes_bswap32, !le_bytes_bswap16 by done.
  rewrite !encode_attrs_app.
  repeat apply writes_seq;
    lazymatch goal with
    | |- writes (when _ (put_address _ _ _ _)) _ => apply writes_when; intros; by apply writes_address
    | |- writes (put_peers _ _ _) _ => by apply writes_peers
    | |- writes (put_attr _ _ _ _) _ => rewrite encode_attrs_one; by apply writes_put
    | |- _ => apply writes_when_put; first [assumption | intros _; unfold error_value; lens]
    end.
Qed.

Lemma writes_credentials :
  writes (write_credentials size msg indeterminate) (encode_attrs (credential_attrs msg indeterminate)).
Proof.
  destruct Hw. unfold write_credentials, credential_attrs. rewrite le_bytes_bswap16.
  rewrite encode_attrs_app. apply writes_seq.
  - apply writes_when. intros _. case_test; [rewrite encode_attrs_one; by apply writes_put|].
    by apply writes_when_put.
  - apply writes_when. intros _. rewrite encode_attrs_app.
    apply writes_seq; [by apply writes_when_put|].
    apply writes_when. intros _. rewrite !encode_attrs_app.
    apply writes_seq; [rewrite encode_attrs_one; by apply writes_put|].
    apply writes_seq.
    + case_test; [rewrite encode_attrs_one; by apply writes_put|]. by apply writes_when_put.
    + apply writes_when_put. intros _. rewrite lenZ_app, lenZ_be_bytes. lia.
Qed.

(** ** The attributes computed from the text before them *)

(** A buffer that starts with the header and body written so far. *)
Definition started (len : Z) (body rest : list Z) : list Z := header_bytes msg len ++ body ++ rest.

Lemma lenZ_header n : lenZ (header_bytes msg n) = 20.
Proof.
  destruct Hw as [[Ht _] _ _ _ _ _ _ _ _ _ _]. unfold header_bytes. lens. unfold lenZ. rewrite Ht. lia.
Qed.

Lemma be_bytes_2_inv n : le_bytes 2 (htons (u16 n)) = be_bytes 2 n.
Proof.
  rewrite le_bytes_bswap16. unfold be_bytes, wrap. f_equal. simpl.
  repeat (apply (f_equal2 cons); [lia_mod|]). done.
Qed.

Lemma update_header n n' tl :
  exists prev, stun_update_header_length (header_bytes msg n ++ tl) n' =
    Some (header_bytes msg n' ++ tl, prev).
Proof.
  unfold stun_update_header_length, load16, header_bytes.
  set (ty := Z.lor _ _).
  rewrite <- !app_assoc. rewrite (load_mid 2 2 (be_bytes 2 ty) (be_bytes 2 n)) by done.
  rewrite be_bytes_2_inv. rewrite (store_mid 2 _ (be_bytes 2 ty) (be_bytes 2 n)) by done.
  eexists. done.
Qed.

(** One step of the tail of [stun_write]: from a started buffer to a started
    buffer with more body. *)
Definition extends (f : writer) (body ext : list Z) (n' : Z) : Prop := forall n rest,
  20 + lenZ body + lenZ rest = size -> lenZ ext <= lenZ rest ->
  f (started n body rest, 20 + lenZ body) =
  Next (started n' (body ++ ext) (drop (length ext) rest), 20 + lenZ (body ++ ext)).

Lemma put_started t v k n body rest : k = lenZ v ->
  20 + lenZ body + lenZ rest = size -> lenZ (tlv t v) <= lenZ rest ->
  put_attr size t v k (started n body rest, 20 + lenZ body) =
  Next (started n (body ++ tlv t v) (drop (length (tlv t v)) rest), 20 + lenZ (body ++ tlv t v)).
Proof.
  intros Hk Hsz Hfit. unfold started. rewrite app_assoc.
  replace (20 + lenZ body) with (lenZ (header_bytes msg n ++ body)) by (rewrite lenZ_app, lenZ_header; lia).
  rewrite writes_put by (try done; rewrite lenZ_app, lenZ_header; lia).
  rewrite <- !app_assoc. f_equal. f_equal. rewrite !lenZ_app, lenZ_header. lia.
Qed.

Lemma extends_integrity t hmac k body :
  (forall m key, lenZ (hmac m key) = k) -> 0 <= k < 64 ->
  extends (put_integrity size msg password 20 t hmac k) body
    (integrity_attr msg password t hmac k body) (lenZ body + 4 + k).
Proof.
  intros Hk Hk' n rest Hsz Hfit. pose proof (lenZ_nonneg body). pose proof (lenZ_nonneg rest).
  unfold put_integrity, STUN_ATTR_SIZE, sizeof_stun_attr.
  replace (20 + lenZ body - 20 + 4 + k) with (lenZ body + 4 + k) by lia.
  unfold integrity_attr in *.
  set (txt := covered msg body k) in *. rewrite lenZ_tlv, Hk in Hfit.
  pose proof (align32_bounds k).
  rewrite (wrap_small 32 (lenZ body + 4 + k)) by lia.
  destruct (update_header n (lenZ body + 4 + k) (body ++ rest)) as [prev Hu].
  unfold started. rewrite Hu. cbn [acc obind].
  assert (Hl : load 0 (size_t (20 + lenZ body)) (header_bytes msg (lenZ body + 4 + k) ++ body ++ rest) = Some txt).
  { rewrite wrap_small by lia. rewrite app_assoc, <- (app_nil_l (_ ++ rest)).
    apply load_mid; [done|]. unfold txt, covered. rewrite lenZ_app, lenZ_header. lia. }
  rewrite Hl. cbn [acc obind].
  apply put_started; [by rewrite Hk|lia|]. rewrite lenZ_tlv, Hk. lia.
Qed.

Lemma extends_fingerprint body :
  bytes_ok (covered msg body 4) -> lenZ body `mod` 4 = 0 ->
  extends (write_fingerprint size 20) body (fingerprint_attr msg body) (lenZ body + 8).
Proof.
  intros Hb Hal n rest Hsz Hfit. pose proof (lenZ_nonneg body). pose proof (lenZ_nonneg rest).
  unfold write_fingerprint, STUN_ATTR_SIZE, sizeof_stun_attr, fingerprint_attr in *.
  replace (20 + lenZ body - 20 + 4 + 4) with (lenZ body + 8) by lia.
  rewrite lenZ_tlv, lenZ_be_bytes in Hfit. change (align32 (Z.of_nat 4)) with 4 in Hfit.
  rewrite (wrap_small 32 (lenZ body + 8)) by lia. rewrite land_3.
  replace ((lenZ body + 8) `mod` 4 =? 0) with true by (symmetry; apply Z.eqb_eq; lia_mod).
  cbn [negb]. destruct (update_header n (lenZ body + 8) (body ++ rest)) as [prev Hu].
  unfold started. rewrite Hu. cbn [acc obind].
  assert (Hl : load 0 (size_t (20 + lenZ body)) (header_bytes msg (lenZ body + 8) ++ body ++ rest)
               = Some (covered msg body 4)).
  { rewrite wrap_small by lia. rewrite app_assoc, <- (app_nil_l (_ ++ rest)).
    unfold covered. replace (lenZ body + 4 + 4) with (lenZ body + 8) by lia.
    apply load_mid; [done|]. rewrite lenZ_app, lenZ_header. lia. }
  rewrite Hl. cbn [acc obind].
  unfold CRC32. rewrite juice_crc32_eq by (done || by left). cbn [acc obind].
  rewrite le_bytes_bswap32. fold (fingerprint_of (covered msg body 4)).
  apply put_started; [done|lia|]. rewrite lenZ_tlv, lenZ_be_bytes. change (align32 (Z.of_nat 4)) with 4. lia.
Qed.

(** ** Every byte written is a byte *)
Lemma bytes_encode (l : attr_list) : Forall (fun a => bytes_ok a.2) l -> bytes_ok (encode_attrs l).
Proof.
  induction 1 as [|[t v] l Hv Hl IH]; [done|]. rewrite encode_attrs_cons.
  apply Forall_app_2; [by apply bytes_tlv | done].
Qed.

Lemma attr_if_bytes c t v : bytes_ok v -> Forall (fun a => bytes_ok a.2) (attr_if c t v).
Proof. intros Hv. unfold attr_if. destruct c; by repeat constructor. Qed.

Lemma bytes_zip_xor a b : bytes_ok a -> bytes_ok b -> bytes_ok (zip_with Z.lxor a b).
Proof.
  intros Ha. revert b. induction Ha as [|x a Hx Ha IH]; intros b Hb; simpl; [done|].
  destruct Hb; constructor; auto using lxor_byte.
Qed.

Ltac solve_bytes :=
  repeat first [ assumption | apply Forall_nil_2 | apply Forall_app_2 | apply bytes_le_bytes
               | apply bytes_be_bytes | (apply Forall_cons_2; [done|]) ].

Lemma address_bytes t tid r : tid_ok tid -> record_wf r ->
  Forall (fun a => bytes_ok a.2) (address_attr t tid r).
Proof.
  intros [_ Ht] Hr. unfold address_attr, stun_write_value_mapped_address, record_wf in *.
  assert (Hm : bytes_ok (generate_mask tid))
    by (unfold generate_mask; apply Forall_app_2; [auto with bytes | by apply Forall_take]).
  revert Hm. generalize (generate_mask tid). intros mask Hm.
  destruct (addr r) as [p a|p a|f]; simpl in Hr; repeat case_match; simplify_eq; try (by apply Forall_nil_2);
    try (apply attr_if_bytes; by apply Forall_nil_2); apply attr_if_bytes; destruct Hr as (_ & _ & Hb);
    solve_bytes; apply bytes_zip_xor; auto using Forall_take.
Qed.

Lemma peer_bytes tid ps : tid_ok tid -> Forall record_wf ps ->
  Forall (fun a => bytes_ok a.2) (peer_attrs tid ps).
Proof.
  intros Ht. induction 1 as [|p ps Hp Hps IH]; [done|]. unfold peer_attrs. simpl.
  apply Forall_app_2; [|done]. case_test; [by apply address_bytes | done].
Qed.

Lemma reason_bytes code : bytes_ok (stun_get_error_reason code).
Proof.
  assert (Hb : forall l, forallb is_byteb l = true -> bytes_ok l).
  { intros l Hl. apply Forall_forall. intros x Hx. rewrite forallb_forall in Hl.
    specialize (Hl x Hx). unfold is_byteb in Hl.
    zify_bool. unfold is_byte. lia. }
  apply Hb. unfold stun_get_error_reason. repeat (case_test; [reflexivity|]). reflexivity.
Qed.

Lemma error_bytes : bytes_ok (error_value msg).
Proof.
  unfold error_value. rewrite !Forall_app. split_and!; auto using reason_bytes with bytes.
  constructor; [|constructor; [apply (wrap_range 8); lia|done]].
  change 7 with (2 ^ 3 - 1). rewrite land_ones_mod by lia. unfold is_byte. lia_mod.
Qed.

Lemma plain_bytes : Forall (fun a => bytes_ok a.2) (plain_attrs msg).
Proof.
  destruct Hw. unfold plain_attrs. rewrite !Forall_app. split_and!; try apply attr_if_bytes;
    auto using error_bytes, peer_bytes with bytes; try tauto;
    try (case_test; [by apply address_bytes | done]);
    try (rewrite Forall_app; split; auto with bytes; repeat constructor; done);
    try (repeat constructor; done).
  repeat constructor. all: case_test; done.
Qed.

Lemma credential_bytes : Forall (fun a => bytes_ok a.2) (credential_attrs msg indeterminate).
Proof.
  destruct Hw as [_ _ _ _ _ _ _ _ _ _ (? & ? & ? & ? & ? & ? & ?)]. unfold credential_attrs.
  assert (bytes_ok generate_password_algorithms_attr) by (repeat constructor; done).
  repeat first [ assumption | apply bytes_be_bytes | case_test | apply attr_if_bytes
               | apply Forall_app_2 | apply Forall_cons_2 | apply Forall_nil_2 ].
Qed.

Lemma header_ok n : bytes_ok (header_bytes msg n).
Proof.
  destruct Hw as [[_ Ht] _ _ _ _ _ _ _ _ _ _]. unfold header_bytes. rewrite !Forall_app. auto with bytes.
Qed.

Lemma body_facts : bytes_ok (stun_body msg password indeterminate) /\
  lenZ (stun_body msg password indeterminate) `mod` 4 = 0.
Proof.
  assert (Hb : bytes_ok (encode_attrs (plain_attrs msg ++ credential_attrs msg indeterminate)))
    by (apply bytes_encode, Forall_app_2; [apply plain_bytes | apply credential_bytes]).
  pose proof (encode_attrs_aligned (plain_attrs msg ++ credential_attrs msg indeterminate)) as Ha.
  unfold stun_body, integrity_attr. revert Hb Ha. generalize (encode_attrs (plain_attrs msg ++ credential_attrs msg indeterminate)).
  intros b Hb Ha. case_test; [|done]. case_test.
  all: rewrite ?Forall_app, ?lenZ_app, ?lenZ_tlv, ?hmac_sha1_length, ?hmac_sha256_length.
  all: split; [split_and!; auto using bytes_tlv, hmac_sha1_bytes, hmac_sha256_bytes|].
  all: change (align32 HMAC_SHA1_SIZE) with 20; change (align32 HMAC_SHA256_SIZE) with 32; lia_mod.
Qed.

(** ** The whole of [stun_write] *)
Lemma writes_started f l n body rest : writes f l ->
  20 + lenZ body + lenZ rest = size -> lenZ l <= lenZ rest ->
  f (started n body rest, 20 + lenZ body) =
  Next (started n (body ++ l) (drop (length l) rest), 20 + lenZ (body ++ l)).
Proof.
  intros Hf Hsz Hfit. unfold started. rewrite app_assoc.
  replace (20 + lenZ body) with (lenZ (header_bytes msg n ++ body)) by (rewrite lenZ_app, lenZ_header; lia).
  rewrite Hf by (try done; rewrite lenZ_app, lenZ_header; lia).
  rewrite <- !app_assoc. f_equal. f_equal. rewrite !lenZ_app, lenZ_header. lia.
Qed.

(** Header, attributes, credentials and integrity: everything but the fingerprint. *)
Lemma write_body buf :
  lenZ buf = size -> 20 + lenZ (stun_body msg password indeterminate) <= size ->
  exists n, (let! st := advance (stun_write_header buf 0 (size_t size) (msg_class msg) (msg_method msg)
                          (transaction_id msg)) 0 in
             seq_w (write_attributes size msg) (seq_w (write_credentials size msg indeterminate)
               (write_integrity size msg password (snd st))) st) =
    let body := stun_body msg password indeterminate in
    Next (started n body (drop (20 + length body) buf), 20 + lenZ body).
Proof.
  intros Hsz Hfit. set (body := stun_body msg password indeterminate) in *.
  pose proof (lenZ_nonneg body) as Hnn.
  assert (Hh : advance (stun_write_header buf 0 (size_t size) (msg_class msg) (msg_method msg)
                (transaction_id msg)) 0 = Next (started 0 [] (drop 20 buf), 20)).
  { destruct Hw as [[Ht _] _ _ _ _ _ _ _ _ _ _]. unfold stun_write_header, sizeof_stun_header.
    rewrite (wrap_small 32) by lia. destruct (size <? 20) eqn:E; zify_bool; [lia|].
    rewrite load_all by (unfold lenZ; lia).
    rewrite <- (take_drop 20 buf) at 1. rewrite <- (app_nil_l (take 20 buf ++ _)).
    rewrite !le_bytes_bswap16, le_bytes_bswap32.
    rewrite store_mid; [reflexivity|done|].
    rewrite !length_app, !length_be_bytes, length_take, Ht. unfold lenZ in Hsz. lia. }
  rewrite Hh. cbn [obind snd].
  set (base := encode_attrs (plain_attrs msg ++ credential_attrs msg indeterminate)).
  assert (Hb : exists ext, body = base ++ ext /\ forall n rest,
     20 + lenZ base + lenZ rest = size -> lenZ ext <= lenZ rest ->
     exists n', write_integrity size msg password 20 (started n base rest, 20 + lenZ base) =
       Next (started n' body (drop (length ext) rest), 20 + lenZ body)).
  { unfold body, stun_body, write_integrity, when. fold base.
    destruct (negb (msg_class msg =? STUN_CLASS_INDICATION) && isSome password) eqn:E1.
    2: { exists []. split; [by rewrite app_nil_r|]. intros n rest _ _. exists n. done. }
    set (i1 := integrity_attr msg password STUN_ATTR_MESSAGE_INTEGRITY hmac_sha1 HMAC_SHA1_SIZE base).
    destruct (negb (password_algorithm (credentials msg) =? STUN_PASSWORD_ALGORITHM_UNSET)) eqn:E2.
    - set (i2 := integrity_attr msg password STUN_ATTR_MESSAGE_INTEGRITY_SHA256 hmac_sha256 HMAC_SHA256_SIZE (base ++ i1)).
      exists (i1 ++ i2). split; [by rewrite app_assoc|]. intros n rest Hr Hf. rewrite lenZ_app in Hf.
      pose proof (lenZ_nonneg i2). pose proof (lenZ_nonneg i1).
      eexists. unfold seq_w at 1.
      rewrite (extends_integrity _ _ _ base hmac_sha1_length) by first [done | fold i1; lia]. fold i1. cbn [obind].
      rewrite (extends_integrity _ _ _ (base ++ i1) hmac_sha256_length);
        [|done|rewrite lenZ_app, lenZ_drop by (unfold lenZ in *; lia); unfold lenZ in *; lia
         |fold i2; rewrite lenZ_drop by (unfold lenZ in *; lia); unfold lenZ in *; lia].
      fold i2. by rewrite drop_drop, length_app.
    - exists i1. split; [done|]. intros n rest Hr Hf. eexists. unfold seq_w.
      rewrite (extends_integrity _ _ _ base hmac_sha1_length) by first [done | fold i1; lia]. fold i1. done. }
  destruct Hb as (ext & Hbody & Hint).
  set (l1 := encode_attrs (plain_attrs msg)). set (l2 := encode_attrs (credential_attrs msg indeterminate)).
  assert (Hbase : base = l1 ++ l2) by apply encode_attrs_app.
  assert (Hl : lenZ body = lenZ l1 + lenZ l2 + lenZ ext) by (rewrite Hbody, Hbase, !lenZ_app; lia).
  pose proof (lenZ_nonneg l1). pose proof (lenZ_nonneg l2). pose proof (lenZ_nonneg ext).
  assert (H20 : lenZ (drop 20 buf) = size - 20) by (rewrite lenZ_drop; lia).
  pose proof (writes_started _ _ 0 [] (drop 20 buf) writes_attributes) as Hattr.
  change (20 + lenZ (@nil Z)) with 20 in Hattr. unfold seq_w at 1.
  rewrite Hattr by (fold l1; lia).
  fold l1. cbn [obind app]. unfold seq_w.
  assert (H1' : lenZ (drop (length l1) (drop 20 buf)) = size - 20 - lenZ l1)
    by (rewrite lenZ_drop by (unfold lenZ in *; lia); unfold lenZ in *; lia).
  rewrite (writes_started _ _ _ _ _ writes_credentials) by (fold l2; lia). fold l2. cbn [obind].
  rewrite <- Hbase.
  assert (H2' : lenZ (drop (length l2) (drop (length l1) (drop 20 buf))) = size - 20 - lenZ l1 - lenZ l2)
    by (rewrite lenZ_drop by (unfold lenZ in *; lia); unfold lenZ in *; lia).
  destruct (Hint 0 (drop (length l2) (drop (length l1) (drop 20 buf)))) as [n' ->];
    [rewrite Hbase, lenZ_app; lia | lia |].
  exists n'. cbv zeta. rewrite !drop_drop. do 2 f_equal. f_equal. f_equal.
  rewrite Hbody, Hbase, !length_app. lia.
Qed.

Lemma covered_bytes body n : bytes_ok body -> bytes_ok (covered msg body n).
Proof. intros Hb. unfold covered. apply Forall_app_2; [apply header_ok | done]. Qed.

Lemma seq_w_assoc3 (a b c d : writer) st : seq_w a (seq_w b (seq_w c d)) st = obind (seq_w a (seq_w b c) st) d.
Proof. unfold seq_w. destruct (a st) as [| |x]; simpl; [done..|]. by destruct (b x). Qed.

(** [stun_write] is its body followed by the fingerprint. *)
Lemma stun_write_split buf :
  lenZ buf = size -> 20 + lenZ (stun_body msg password indeterminate) <= size ->
  exists n, stun_write size msg password indeterminate buf =
    let body := stun_body msg password indeterminate in
    run (write_fingerprint size 20 (started n body (drop (20 + length body) buf), 20 + lenZ body)).
Proof.
  intros Hsz Hfit. destruct (write_body buf Hsz Hfit) as [n Hn]. exists n. cbv zeta in *.
  unfold stun_write.
  destruct (advance _ 0) as [| |st] eqn:Eadv; [done..|]. cbn [obind] in *.
  assert (Hst : snd st = 20).
  { destruct st as [m0 p0]. unfold advance, stun_write_header in Eadv.
    rewrite wrap_small in Eadv by lia. unfold sizeof_stun_header in Eadv.
    destruct (size <? 20) eqn:E; zify_bool; [pose proof (lenZ_nonneg (stun_body msg password indeterminate)); lia|].
    destruct (load 0 12 (transaction_id msg)); [|done]. destruct (store 0 _ buf); [|done].
    cbn [acc obind] in Eadv. by simplify_eq/=. }
  rewrite Hst in *. rewrite seq_w_assoc3, Hn. done.
Qed.

Lemma lenZ_fingerprint body : lenZ (fingerprint_attr msg body) = 8.
Proof. unfold fingerprint_attr. rewrite lenZ_tlv, lenZ_be_bytes. reflexivity. Qed.

Lemma started_drop n body buf k : k = length body ->
  started n body (drop (20 + k) buf) = header_bytes msg n ++ body ++ drop (20 + k) buf.
Proof. done. Qed.

Lemma stun_write_encodes buf :
  lenZ buf = size -> lenZ (stun_encode msg password indeterminate) <= size ->
  stun_write size msg password indeterminate buf =
    Some (stun_encode msg password indeterminate ++
            drop (length (stun_encode msg password indeterminate)) buf,
          lenZ (stun_encode msg password indeterminate)).
Proof.
  intros Hsz Hfit. unfold stun_encode in *.
  set (body := stun_body msg password indeterminate) in *.
  destruct body_facts as [Hb Hal]. fold body in Hb, Hal. pose proof (lenZ_nonneg body).
  rewrite !lenZ_app, lenZ_fingerprint, lenZ_header in *.
  destruct (stun_write_split buf Hsz) as [n ->]; [fold body; lia|]. cbv zeta. fold body.
  assert (Hd : lenZ (drop (20 + length body) buf) = size - 20 - lenZ body)
    by (rewrite lenZ_drop by (unfold lenZ in *; lia); unfold lenZ in *; lia).
  rewrite (extends_fingerprint body (covered_bytes body 4 Hb) Hal) by (rewrite ?lenZ_fingerprint; lia).
  cbn [run]. unfold started. rewrite drop_drop, <- !app_assoc. rewrite lenZ_app, lenZ_fingerprint.
  assert (Hh : length (header_bytes msg (lenZ body + 8)) = 20%nat)
    by (pose proof (lenZ_header (lenZ body + 8)); unfold lenZ in *; lia).
  assert (Hlen : (20 + length body + length (fingerprint_attr msg body))%nat =
                 length (header_bytes msg (lenZ body + 8) ++ body ++ fingerprint_attr msg body))
    by (rewrite !length_app, Hh; lia).
  rewrite Hlen. done.
Qed.

(** C10: given a buffer with room for the message, [stun_write] stays inside it,
    stores exactly the message on the wire, leaves the rest of the buffer
    alone and returns the message's length. *)
Theorem stun_write_encode buf :
  lenZ buf = size -> lenZ (stun_encode msg password indeterminate) <= size ->
  stun_write size msg password indeterminate buf =
    Some (stun_encode msg password indeterminate ++
            drop (length (stun_encode msg password indeterminate)) buf,
          lenZ (stun_encode msg password indeterminate)).
Proof. apply stun_write_encodes. Qed.

(** when the buffer has room for everything but the fingerprint, the failed
    [stun_write_attr] is not noticed ([len] is unsigned): [stun_write] returns
    one less than the length of the unfinished message instead of -1, and the
    header announces a fingerprint that is not there. *)
Theorem stun_write_overflow_unnoticed buf :
  lenZ buf = size -> 20 + lenZ (stun_body msg password indeterminate) <= size ->
  size < lenZ (stun_encode msg password indeterminate) ->
  let body := stun_body msg password indeterminate in
  stun_write size msg password indeterminate buf =
    Some (header_bytes msg (lenZ body + 8) ++ body ++ drop (20 + length body) buf, 20 + lenZ body - 1) /\
  0 < 20 + lenZ body - 1.
Proof.
  intros Hsz Hfit Hov. cbv zeta. unfold stun_encode in Hov.
  set (body := stun_body msg password indeterminate) in *.
  destruct body_facts as [Hb Hal]. fold body in Hb, Hal. pose proof (lenZ_nonneg body).
  rewrite !lenZ_app, lenZ_fingerprint, lenZ_header in Hov. split; [|lia].
  destruct (stun_write_split buf Hsz) as [n ->]; [fold body; lia|]. cbv zeta. fold body.
  set (rest := drop (20 + length body) buf).
  unfold write_fingerprint, STUN_ATTR_SIZE, sizeof_stun_attr.
  replace (20 + lenZ body - 20 + 4 + 4) with (lenZ body + 8) by lia.
  rewrite (wrap_small 32 (lenZ body + 8)) by lia. rewrite land_3.
  replace ((lenZ body + 8) `mod` 4 =? 0) with true by (symmetry; apply Z.eqb_eq; lia_mod).
  cbn [negb]. destruct (update_header n (lenZ body + 8) (body ++ rest)) as [prev Hu].
  unfold started. rewrite Hu. cbn [acc obind].
  assert (Hl : load 0 (size_t (20 + lenZ body)) (header_bytes msg (lenZ body + 8) ++ body ++ rest)
               = Some (covered msg body 4)).
  { rewrite wrap_small by lia. rewrite app_assoc, <- (app_nil_l (_ ++ rest)).
    unfold covered. replace (lenZ body + 4 + 4) with (lenZ body + 8) by lia.
    apply load_mid; [done|]. rewrite lenZ_app, lenZ_header. lia. }
  rewrite Hl. cbn [acc obind].
  unfold CRC32. rewrite juice_crc32_eq by (by apply covered_bytes || by left). cbn [acc obind].
  unfold put_attr. rewrite stun_write_attr_full by (rewrite ?wrap_small; lia).
  unfold advance. cbn [acc obind]. change (size_t (-1)) with 4294967295. cbn [Z.leb Z.compare].
  unfold run, ptr_add. by change (s32 4294967295) with (-1).
Qed.
End Message.

(** ** Buffers too short for the header *)

(** Before the buffer, a writer only steps further back, or is undefined. *)
Definition lost (steps : Z) (f : writer) : Prop := forall mem pos,
  lenZ mem = size -> - 2 ^ 20 + steps <= pos < 0 ->
  f (mem, pos) = UB \/ exists pos', f (mem, pos) = Next (mem, pos') /\ pos - steps <= pos' < 0.

Lemma lost_put t v n : 0 <= n < 2 ^ 20 -> lost 1 (put_attr size t v n).
Proof.
  intros Hn mem pos Hm Hp. unfold put_attr. rewrite (wrap_small 32) by lia.
  destruct (Z.lt_ge_cases (size - pos) (4 + n)).
  - right. exists (pos - 1). rewrite stun_write_attr_full by lia. split; [|lia].
    unfold advance. cbn [acc obind]. change (size_t (-1)) with 4294967295. cbn [Z.leb Z.compare].
    unfold ptr_add. by change (s32 4294967295) with (-1).
  - left. unfold stun_write_attr, sizeof_stun_attr. rewrite wrap_small by lia.
    case_test; zify_bool; [lia|]. unfold store at 1.
    replace (0 <=? pos) with false by (symmetry; apply Z.leb_gt; lia). done.
Qed.

Lemma lost_when k c f : 0 <= k -> lost k f -> lost k (when c f).
Proof. intros Hk Hf mem pos Hm Hp. destruct c; [by apply Hf|]. right. exists pos. split; [done|lia]. Qed.

Lemma lost_seq k1 k2 f g : 0 <= k1 -> 0 <= k2 -> lost k1 f -> lost k2 g -> lost (k1 + k2) (seq_w f g).
Proof.
  intros Hk1 Hk2 Hf Hg mem pos Hm Hp. unfold seq_w.
  destruct (Hf mem pos) as [-> | (p1 & -> & Hp1)]; [done|lia|by left|]. simpl.
  destruct (Hg mem p1) as [-> | (p2 & -> & Hp2)]; [done|lia|by left|]. right. exists p2. split; [done|lia].
Qed.

Lemma lost_address t tid r : tid_ok tid -> record_wf r -> lost 1 (put_address size t tid r).
Proof.
  intros Ht Hr. unfold put_address.
  destruct (stun_write_value_mapped_address 32 (addr r) (len r) (generate_mask tid)) as [n v] eqn:E.
  destruct (0 <? n) eqn:Hn; zify_bool; [|intros mem pos Hm Hp; right; exists pos; split; [done|lia]].
  apply lost_put. split; [lia|]. unfold stun_write_value_mapped_address in E.
  repeat case_match; simplify_eq; lia.
Qed.

Lemma lost_peers tid ps : tid_ok tid -> Forall record_wf ps -> lost (lenZ ps) (put_peers size tid ps).
Proof.
  intros Ht. induction 1 as [|p ps Hp Hps IH]; simpl.
  - intros mem pos Hm Hpos. right. exists pos. split; [done|]. rewrite lenZ_nil. lia.
  - rewrite lenZ_cons. pose proof (lenZ_nonneg ps).
    apply lost_seq; [lia|lia| |done]. apply lost_when; [lia|]. by apply lost_address.
Qed.

Lemma lost_weaken k1 k2 f : k1 <= k2 -> lost k1 f -> lost k2 f.
Proof.
  intros Hk Hf mem pos Hm Hp. destruct (Hf mem pos) as [? | (p & ? & ?)]; [done|lia|by left|].
  right. exists p. split; [done|lia].
Qed.

(** A buffer of 11 to 19 bytes is too short for the header, but the failure
    goes unnoticed and the attributes are stored in front of the buffer. *)
Theorem stun_write_short_buffer_ub msg password indeterminate buf :
  writable msg indeterminate -> (length (peers msg) <= 8)%nat -> data_size msg < 2 ^ 20 ->
  lenZ buf = size -> 11 <= size < 20 ->
  stun_write size msg password indeterminate buf = None.
Proof.
  intros [] Hpeers Hdata Hsz Hs. unfold stun_write, stun_write_header, sizeof_stun_header.
  rewrite (wrap_small 32 size) by lia. destruct (size <? 20) eqn:E; zify_bool; [|lia].
  unfold advance at 1. cbn [acc obind]. change (size_t (-1)) with 4294967295. cbn [Z.leb Z.compare obind snd].
  unfold ptr_add. change (0 + s32 4294967295) with (-1).
  enough (Hu : write_attributes size msg (buf, -1) = UB) by (unfold seq_w at 1; by rewrite Hu).
  assert (Hdn : isSome (data msg) = true -> 0 <= data_size msg < 2 ^ 20).
  { intros Hd. rewrite w_data0 in * by done. pose proof (lenZ_nonneg (default [] (data msg))). lia. }
  assert (Hreason : 0 <= 4 + lenZ (stun_get_error_reason (error_code msg)) < 2 ^ 20).
  { unfold stun_get_error_reason. repeat (case_test; [unfold lenZ; simpl; lia|]). unfold lenZ; simpl; lia. }
  assert (Hlast : forall k f, 0 <= k <= 100 -> lost k f ->
      seq_w f (put_attr size STUN_ATTR_SOFTWARE SOFTWARE (lenZ SOFTWARE)) (buf, -1) = UB).
  { intros k f Hk Hf. unfold seq_w. destruct (Hf buf (-1)) as [-> | (p & -> & Hp)]; [done|lia|done|].
    simpl. unfold stun_write_attr, sizeof_stun_attr. change (lenZ SOFTWARE) with 8.
    change (size_t (4 + 8)) with 12. rewrite wrap_small by lia.
    destruct (size - p <? 12) eqn:E2; zify_bool; [lia|]. unfold store at 1.
    replace (0 <=? p) with false by (symmetry; apply Z.leb_gt; lia). done. }
  assert (Hassoc : forall (a b c : writer) st, seq_w a (seq_w b c) st = seq_w (seq_w a b) c st)
    by (intros; unfold seq_w; symmetry; apply obind_assoc).
  unfold write_attributes. rewrite !Hassoc. apply (Hlast (14 + lenZ (peers msg))).
  { unfold lenZ. lia. }
  pose proof (lenZ_nonneg (peers msg)).
  replace (14 + lenZ (peers msg)) with (1+1+1+1+1+1+1+1 + lenZ (peers msg) +1+1+1+1+1+1) by lia.
  repeat apply lost_seq; try lia; try (by apply lost_peers);
    try (by apply lost_when; [lia|apply lost_put; lia]);
    try (by apply lost_when; [lia|apply lost_address]).
  destruct (isSome (data msg)) eqn:Ed; [apply lost_put; auto|].
  intros mem pos Hm Hp. right. exists pos. split; [done|lia].
Qed.
End Writers.
