(* ===== verification/StunSize.v ===== *)
(** * How long the messages of libjuice are

    Bounds on the encoded attributes, and on messages with at most one peer and
    a bounded payload: they fit the buffers they are written to. *)

From S2P Require Import Prelude Addr Crc32 StunMsg StunWrite StunCodec StunWriteCorrect.

Section Size.
Context `{Platform, Hashes}.

(** ** Attributes *)
Lemma lenZ_attr_if c t v n : lenZ v <= n -> lenZ (encode_attrs (attr_if c t v)) <= 4 + align32 n.
Proof.
  intros Hn. unfold attr_if. pose proof (lenZ_nonneg v). assert (align32 (lenZ v) <= align32 n).
  { unfold align32. lia_mod. }
  destruct c; [rewrite encode_attrs_one, lenZ_tlv; lia|]. rewrite encode_attrs_nil. change (lenZ []) with 0.
  pose proof (align32_bounds n). lia.
Qed.

Lemma lenZ_address_attr t tid r : tid_ok tid -> record_wf r -> lenZ (encode_attrs (address_attr t tid r)) <= 24.
Proof.
  intros Ht Hr. unfold address_attr. destruct (stun_write_value_mapped_address _ _ _ _) as [n v] eqn:E.
  destruct (0 <? n) eqn:Hn; zify_bool; unfold attr_if; [|change (lenZ (encode_attrs [])) with 0; lia].
  assert (n <= 20) by (unfold stun_write_value_mapped_address in E; repeat case_match; simplify_eq; lia).
  pose proof (mapped_value_len _ _ _ _ _ _ E Hr) as Hl. rewrite mask_length in Hl by done.
  rewrite encode_attrs_one, lenZ_tlv, <- Hl by lia. unfold align32. lia_mod.
Qed.

Lemma lenZ_reason code : lenZ (stun_get_error_reason code) <= 32.
Proof. unfold stun_get_error_reason. repeat (case_test; [by vm_compute|]). by vm_compute. Qed.

Definition sized_attrs (n : Z) (l : attr_list) : Prop := lenZ (encode_attrs l) <= n.

Lemma sized_app n k l l' : sized_attrs n l -> sized_attrs k l' -> sized_attrs (n + k) (l ++ l').
Proof. unfold sized_attrs. rewrite encode_attrs_app, lenZ_app. lia. Qed.

Lemma sized_if c t v : lenZ v <= 8 -> sized_attrs 12 (attr_if c t v).
Proof. intros Hv. unfold sized_attrs. pose proof (lenZ_attr_if c t v 8 Hv) as Hs. by change (4 + align32 8) with 12 in Hs. Qed.

Lemma sized_error c code : sized_attrs 40 (attr_if c STUN_ATTR_ERROR_CODE (error_value code)).
Proof.
  assert (lenZ (error_value code) <= 36) as Hl.
  { unfold error_value. rewrite !lenZ_app, lenZ_le_bytes. pose proof (lenZ_reason (error_code code)).
    change (lenZ [_; _]) with 2. lia. }
  unfold sized_attrs. pose proof (lenZ_attr_if c STUN_ATTR_ERROR_CODE _ 36 Hl) as Hs. by change (4 + align32 36) with 40 in Hs.
Qed.

Lemma sized_address (c : bool) t tid r : tid_ok tid -> record_wf r -> sized_attrs 24 (if c then address_attr t tid r else []).
Proof.
  intros Ht Hr. unfold sized_attrs. destruct c; [by apply lenZ_address_attr|]. by change (lenZ (encode_attrs [])) with 0.
Qed.

Lemma lenZ_peers tid p : tid_ok tid -> Forall record_wf p -> lenZ p <= 1 -> sized_attrs 24 (peer_attrs tid p).
Proof.
  intros Ht Hp Hl. destruct p as [|r [|]]; [done| |unfold lenZ in Hl; cbn in Hl; lia].
  apply Forall_cons_1 in Hp as [Hr _]. unfold peer_attrs. cbn [fmap list_fmap concat]. rewrite app_nil_r.
  by apply sized_address.
Qed.
End Size.

Ltac sized_next n := apply (sized_app 12 n); [apply sized_if; rewrite ?lenZ_app, ?lenZ_be_bytes; done|].

Section Fits.
Context `{Platform, Hashes}.

Record sized_credentials (c : stun_credentials) : Prop := {
  sz_username : lenZ (username c) <= 513;
  sz_realm : lenZ (realm c) <= 763;
  sz_nonce : lenZ (nonce c) <= 763;
  sz_userhash : lenZ (userhash c) = USERHASH_SIZE;
  sz_algorithms : lenZ (password_algorithms_value c) <= 256
}.

(** At most one peer and [n] bytes of payload. *)
Record modest (n : Z) (msg : stun_message) : Prop := {
  mod_tid : tid_ok (transaction_id msg);
  mod_mapped : record_wf (mapped msg);
  mod_relayed : record_wf (relayed msg);
  mod_peers : lenZ (peers msg) <= 1 /\ Forall record_wf (peers msg);
  mod_data : lenZ (default [] (data msg)) <= n;
  mod_credentials : sized_credentials (credentials msg)
}.

Lemma modest_plain n msg : modest n msg -> sized_attrs (328 + align32 n) (plain_attrs msg).
Proof.
  intros [Ht Hm Hr [Hp1 Hp] Hd _]. unfold plain_attrs.
  replace (328 + align32 n) with (40 + (24 + (12 + (12 + (12 + (12 + (12 + (12 + (24 + (24 + (4 + align32 n +
    (12 + (12 + (12 + (12 + 92))))))))))))))) by lia.
  repeat first [apply sized_app; [first [apply sized_error | by apply sized_address | by apply lenZ_peers |
    apply sized_if; rewrite ?lenZ_app, ?lenZ_be_bytes; done | by apply lenZ_attr_if]|]].
  done.
Qed.

Lemma lenZ_algorithms : lenZ generate_password_algorithms_attr <= 256.
Proof. by vm_compute. Qed.

Lemma modest_credentials msg rest : sized_credentials (credentials msg) -> lenZ rest = 2 ->
  sized_attrs 2324 (credential_attrs msg rest).
Proof.
  intros [Hu Hr Hn Hh Ha] Hrest. unfold credential_attrs. cbv zeta.
  pose proof lenZ_algorithms as Halg. generalize dependent generate_password_algorithms_attr. intros algs Halg.
  apply (sized_app 520 1804).
  { destruct (_ =? _); [|done]. destruct (enable_userhash _).
    - eapply Z.le_trans; [apply (lenZ_attr_if true _ _ 32); rewrite Hh; done|done].
    - eapply Z.le_trans; [by apply (lenZ_attr_if _ _ _ 513)|done]. }
  destruct (sends_realm msg); [|done].
  apply (sized_app 768 1036); [eapply Z.le_trans; [by apply (lenZ_attr_if _ _ _ 763)|done]|].
  destruct (is_cons _); [|done].
  apply (sized_app 768 268); [eapply Z.le_trans; [by apply (lenZ_attr_if true _ _ 763)|done]|].
  apply (sized_app 260 8); [case_test; eapply Z.le_trans;
    [by apply (lenZ_attr_if true _ _ 256)|done|by apply (lenZ_attr_if _ _ _ 256)|done]|].
  eapply Z.le_trans; [apply (lenZ_attr_if _ _ _ 4); rewrite lenZ_app, lenZ_be_bytes, Hrest; done|done].
Qed.

Lemma brief_credentials msg rest : sized_credentials (credentials msg) ->
  realm (credentials msg) = [] -> nonce (credentials msg) = [] -> sized_attrs 520 (credential_attrs msg rest).
Proof.
  intros [Hu _ _ Hh _] Hr Hn. unfold credential_attrs. cbv zeta. rewrite Hr, Hn. apply (sized_app 520 0).
  { destruct (_ =? _); [|done]. destruct (enable_userhash _).
    - eapply Z.le_trans; [apply (lenZ_attr_if true _ _ 32); rewrite Hh; done|done].
    - eapply Z.le_trans; [by apply (lenZ_attr_if _ _ _ 513)|done]. }
  by destruct (sends_realm msg).
Qed.

Lemma encode_fits n k msg password rest : modest n msg -> sized_attrs k (credential_attrs msg rest) ->
  lenZ (stun_encode msg password rest) <= 416 + align32 n + k.
Proof.
  intros Hm Hc. pose proof (modest_plain n msg Hm) as Hp. unfold sized_attrs in *.
  unfold stun_encode. rewrite !lenZ_app, lenZ_fingerprint.
  assert (lenZ (header_bytes msg (lenZ (stun_body msg password rest) + 8)) = 20) as ->.
  { unfold header_bytes. rewrite !lenZ_app, !lenZ_be_bytes. destruct (mod_tid _ _ Hm) as [Ht _]. unfold lenZ. lia. }
  enough (lenZ (stun_body msg password rest) <= 388 + align32 n + k) by lia.
  unfold stun_body, integrity_attr. cbv zeta.
  repeat case_test; rewrite ?lenZ_app, ?lenZ_tlv, ?hmac_sha1_length, ?hmac_sha256_length, encode_attrs_app, lenZ_app;
    change (align32 HMAC_SHA1_SIZE) with 20; change (align32 HMAC_SHA256_SIZE) with 32; lia.
Qed.

Lemma modest_fits n msg password rest : modest n msg -> lenZ rest = 2 ->
  lenZ (stun_encode msg password rest) <= 2740 + align32 n.
Proof.
  intros Hm Hr. pose proof (encode_fits n 2324 msg password rest Hm
    (modest_credentials msg rest (mod_credentials _ _ Hm) Hr)). lia.
Qed.

Lemma brief_fits n msg password rest : modest n msg ->
  realm (credentials msg) = [] -> nonce (credentials msg) = [] ->
  lenZ (stun_encode msg password rest) <= 936 + align32 n.
Proof.
  intros Hm Hr Hn. pose proof (encode_fits n 520 msg password rest Hm
    (brief_credentials msg rest (mod_credentials _ _ Hm) Hr Hn)). lia.
Qed.
End Fits.
