(* ===== verification/StunRead.v ===== *)
(** * stun.c: reading and checking STUN messages

    The buffer is the list of its bytes, a pointer into it an offset, and
    [size] the size the caller announces.  A load outside the buffer, or
    outside the value of the attribute being read, is undefined behaviour
    ([UB], and [None] once run); every function returns the message as it
    leaves it, also when it fails. *)

From S2P Require Import Prelude Addr Base64 ConstTime StunMsg StunWrite.

Definition MAX_USERHASH_INPUT_LEN : Z := STUN_MAX_USERNAME_LEN + STUN_MAX_REALM_LEN + 1.
Definition STUN_IS_OPTIONAL_ATTR (attr_type : Z) : bool := flag attr_type 0x8000.

(** [is_stun_datagram]. *)
Definition is_stun_datagram (data : list Z) (size : Z) : option bool :=
  run (
    let! first := (if size =? 0 then Return false else let! b := acc (load 0 1 data) in
                   if flag (le_word b) 0xC0 then Return false else Next tt) in
    if size <? sizeof_stun_header then Return false
    else
      let! magic := acc (load32 4 data) in
      if negb (ntohl magic =? STUN_MAGIC) then Return false
      else
        let! len := acc (load16 2 data) in
        let length := ntohs len in
        if negb (Z.land length 0x03 =? 0) then Return false
        else if negb (size =? sizeof_stun_header + length) then Return false
        else Return true).

Section Read.
Context `{Platform, Hashes}.

(** [stun_read_value_mapped_address] on the value [data] of [size] bytes. *)
Definition stun_read_value_mapped_address (data : list Z) (size : Z) (mapped : addr_record) (mask : list Z)
    : option (addr_record * Z) :=
  run (
    let len := 4 in
    if size <? len then Return (mapped, -1)
    else
      let! b := acc (load 1 1 data) in
      let! port := acc (load16 2 data) in
      let port := Z.lxor port (le_word (take 2 mask)) in
      let family := le_word b in
      if family =? STUN_ADDRESS_FAMILY_IPV4 then
        let len := len + 4 in
        if size <? len then Return (mapped, -1)
        else
          let! a := acc (load 4 4 data) in
          Next (mkRecord (sockaddr_in port (zip_with Z.lxor a (take 4 mask))) sizeof_sockaddr_in, len)
      else if family =? STUN_ADDRESS_FAMILY_IPV6 then
        let len := len + 16 in
        if size <? len then Return (mapped, -1)
        else
          let! a := acc (load 4 16 data) in
          Next (mkRecord (sockaddr_in6 port (zip_with Z.lxor a (take 16 mask))) sizeof_sockaddr_in6, len)
      else Next (mapped, size)).

(** What reading the value of an attribute yields: [Return] for [return -1],
    [Next] for [break], with the message and the security bits. *)
Definition rstate : Type := stun_message * Z.
Definition reader : Type := outcome rstate rstate.

Definition zero_mask : list Z := replicate 16 0.

(** An address attribute that sets one record of the message. *)
Definition read_address (value : list Z) (length : Z) (record : addr_record) (mask : list Z)
    (set : addr_record -> stun_message) (bits : Z) : reader :=
  let! (r, ret) := acc (stun_read_value_mapped_address value length record mask) in
  if ret <? 0 then Return (set r, bits) else Next (set r, bits).

(** [((uint64_t)ntohl(value32[0]) << 32) | ntohl(value32[1])]. *)
Definition read64 (value : list Z) : option Z :=
  let? hi := load32 0 value in
  let? lo := load32 4 value in
  Some (Z.lor (Z.shiftl (ntohl hi) 32) (ntohl lo)).

(** The nonce and, in a response, the Security Feature bits of its cookie:
    [bytes] has room for three decoded bytes behind [bytes[0] = 0]. *)
Definition read_nonce_bits (msg : stun_message) (bits : Z) : option Z :=
  let s := nonce (credentials msg) in
  if STUN_IS_RESPONSE (msg_class msg) && (STUN_NONCE_COOKIE_LEN + 4 <? lenZ s) &&
     bool_decide (take 9 s = STUN_NONCE_COOKIE) then
    let encoded_security_bits := take 4 (drop 9 s) in
    let? (written, len) := juice_base64_decode encoded_security_bits 3 in
    let? bytes := store 1 written [0; 0; 0; 0] in
    if len =? 3 then Some (ntohl (le_word bytes)) else Some bits
  else Some bits.

Definition known_algorithm (algorithm : Z) : bool :=
  (algorithm =? STUN_PASSWORD_ALGORITHM_MD5) || (algorithm =? STUN_PASSWORD_ALGORITHM_SHA256).

(** The loop over PASSWORD-ALGORITHMS: [None] is undefined behaviour, [inl] a
    malformed list, [inr] the first known algorithm, if any. *)
Fixpoint read_algorithms (fuel : nat) (value : list Z) (pos : Z) : option (unit + option Z) :=
  let end_ := lenZ value in
  if pos <? end_ then
    match fuel with
    | O => None
    | S fuel' =>
      if end_ - pos <? 4 then Some (inl tt)
      else
        let? algorithm := load16 pos value in
        let? parameters_length := load16 (pos + 2) value in
        let padded_length := align32 (ntohs parameters_length) in
        let pos := pos + 4 in
        if end_ - pos <? padded_length then Some (inl tt)
        else
          let pos := pos + padded_length in
          if known_algorithm (ntohs algorithm) then Some (inr (Some (ntohs algorithm)))
          else read_algorithms fuel' value pos
    end
  else Some (inr None).

(** The [switch] of [stun_read_attr], from CHANNEL-NUMBER on. *)
Definition read_turn_value (type : Z) (value : list Z) (msg : stun_message) (bits : Z) : reader :=
  let length := lenZ value in
  let mask := generate_mask (transaction_id msg) in
  let fail : reader := Return (msg, bits) in
  let ok (m : stun_message) : reader := Next (m, bits) in
  if type =? STUN_ATTR_CHANNEL_NUMBER then
    if length <? 4 then fail
    else let! v := acc (load16 0 value) in ok (msg <| channel_number := ntohs v |>)
  else if type =? STUN_ATTR_LIFETIME then
    if negb (length =? 4) then fail
    else let! v := acc (load32 0 value) in ok (msg <| lifetime := ntohl v |> <| lifetime_set := true |>)
  else if type =? STUN_ATTR_XOR_PEER_ADDRESS then
    if lenZ (peers msg) <? STUN_MAX_PEER_ADDRESSES then
      let! (r, ret) := acc (stun_read_value_mapped_address value length addr_record_zero mask) in
      if ret <? 0 then fail
      else ok (if negb (len r =? 0) then msg <| peers := peers msg ++ [r] |> else msg)
    else ok msg
  else if type =? STUN_ATTR_XOR_RELAYED_ADDRESS then
    read_address value length (relayed msg) mask (fun r => msg <| relayed := r |>) bits
  else if type =? STUN_ATTR_DATA then ok (msg <| data := Some value |> <| data_size := length |>)
  else if type =? STUN_ATTR_EVEN_PORT then
    if length <? 1 then fail
    else let! v := acc (load 0 1 value) in ok (msg <| even_port := true |> <| next_port := flag (nth 0 v 0) 0x80 |>)
  else if type =? STUN_ATTR_REQUESTED_TRANSPORT then
    if length <? 4 then fail
    else
      let! v := acc (load 0 1 value) in
      if negb (nth 0 v 0 =? 17) then fail else ok (msg <| requested_transport := true |>)
  else if type =? STUN_ATTR_DONT_FRAGMENT then ok (msg <| dont_fragment := true |>)
  else if type =? STUN_ATTR_RESERVATION_TOKEN then
    if negb (length =? 8) then fail
    else let! v := acc (read64 value) in ok (msg <| reservation_token := v |>)
  else ok msg.

(** The [switch] of [stun_read_attr], from USERHASH on. *)
Definition read_ice_value (type : Z) (value : list Z) (msg : stun_message) (bits : Z) : reader :=
  let length := lenZ value in
  let c := credentials msg in
  let with_c c := msg <| credentials := c |> in
  let fail : reader := Return (msg, bits) in
  let ok (m : stun_message) : reader := Next (m, bits) in
  if type =? STUN_ATTR_USERHASH then
    if negb (length =? USERHASH_SIZE) then fail
    else ok (with_c (c <| userhash := value |> <| enable_userhash := true |>))
  else if type =? STUN_ATTR_SOFTWARE then
    if STUN_MAX_SOFTWARE_LEN <? length + 1 then fail else ok msg
  else if type =? STUN_ATTR_PRIORITY then
    if negb (length =? 4) then fail
    else let! v := acc (load32 0 value) in ok (msg <| priority := ntohl v |>)
  else if type =? STUN_ATTR_USE_CANDIDATE then ok (msg <| use_candidate := true |>)
  else if type =? STUN_ATTR_ICE_CONTROLLING then
    if negb (length =? 8) then fail
    else let! v := acc (read64 value) in ok (msg <| ice_controlling := v |>)
  else if type =? STUN_ATTR_ICE_CONTROLLED then
    if negb (length =? 8) then fail
    else let! v := acc (read64 value) in ok (msg <| ice_controlled := v |>)
  else read_turn_value type value msg bits.

(** The [switch] of [stun_read_attr], FINGERPRINT excepted. *)
Definition read_value (type : Z) (value : list Z) (msg : stun_message) (bits : Z) : reader :=
  let length := lenZ value in
  let c := credentials msg in
  let with_c c := msg <| credentials := c |> in
  let mask := generate_mask (transaction_id msg) in
  let fail : reader := Return (msg, bits) in
  let ok (m : stun_message) : reader := Next (m, bits) in
  if type =? STUN_ATTR_MAPPED_ADDRESS then
    read_address value length (mapped msg) zero_mask (fun r => msg <| mapped := r |>) bits
  else if type =? STUN_ATTR_XOR_MAPPED_ADDRESS then
    read_address value length (mapped msg) mask (fun r => msg <| mapped := r |>) bits
  else if type =? STUN_ATTR_ALTERNATE_SERVER then
    read_address value length (alternate_server msg) zero_mask (fun r => msg <| alternate_server := r |>) bits
  else if type =? STUN_ATTR_ERROR_CODE then
    if length <? 4 then fail
    else
      let! v := acc (load 2 2 value) in
      ok (msg <| error_code := Z.land (nth 0 v 0) 0x07 * 100 + nth 1 v 0 |>)
  else if type =? STUN_ATTR_UNKNOWN_ATTRIBUTES then ok msg
  else if type =? STUN_ATTR_USERNAME then
    if STUN_MAX_USERNAME_LEN <? length + 1 then fail else ok (with_c (c <| username := cstr value |>))
  else if type =? STUN_ATTR_MESSAGE_INTEGRITY then
    if negb (length =? HMAC_SHA1_SIZE) then fail else ok (msg <| has_integrity := true |>)
  else if type =? STUN_ATTR_MESSAGE_INTEGRITY_SHA256 then
    if negb (length =? HMAC_SHA256_SIZE) then fail else ok (msg <| has_integrity := true |>)
  else if type =? STUN_ATTR_REALM then
    if STUN_MAX_REALM_LEN <? length + 1 then fail else ok (with_c (c <| realm := cstr value |>))
  else if type =? STUN_ATTR_NONCE then
    if STUN_MAX_NONCE_LEN <? length + 1 then fail
    else
      let msg := with_c (c <| nonce := cstr value |>) in
      let! bits := acc (read_nonce_bits msg bits) in
      Next (msg, bits)
  else if type =? STUN_ATTR_PASSWORD_ALGORITHM then
    if length <? 4 then fail
    else if STUN_IS_RESPONSE (msg_class msg) then ok msg
    else
      let! algorithm := acc (load16 0 value) in
      ok (if known_algorithm (ntohs algorithm)
          then with_c (c <| password_algorithm := ntohs algorithm |>) else msg)
  else if type =? STUN_ATTR_PASSWORD_ALGORITHMS then
    if length <? 4 then fail
    else if STUN_MAX_PASSWORD_ALGORITHMS_VALUE_SIZE <? length then fail
    else
      let c := c <| password_algorithms_value := value |> in
      if STUN_IS_RESPONSE (msg_class msg) then ok (with_c c)
      else
        let! r := acc (read_algorithms (List.length value) value 0) in
        match r with
        | inl _ => Return (with_c c, bits)
        | inr None => ok (with_c c)
        | inr (Some algorithm) => ok (with_c (c <| password_algorithm := algorithm |>))
        end
  else read_ice_value type value msg bits.

(** FINGERPRINT at [pos]: the header length is changed for the computation and
    put back.  The new memory and whether the check succeeds. *)
Definition check_fingerprint (mem : list Z) (pos attr_begin : Z) (value : list Z) : option (list Z * bool) :=
  let tmp_length := size_t (pos - attr_begin + STUN_ATTR_SIZE + 4) in
  let? (mem, prev_length) := stun_update_header_length mem tmp_length in
  let? text := load 0 pos mem in
  let? crc := CRC32 text in
  let expected := Z.lxor crc STUN_FINGERPRINT_XOR in
  let? (mem, _) := stun_update_header_length mem prev_length in
  let? v := load32 0 value in
  Some (mem, ntohl v =? expected).

(** [stun_read_attr] at offset [pos], [size] bytes available: the memory, the
    message, the security bits and the returned value. *)
Definition stun_read_attr (mem : list Z) (pos size : Z) (msg : stun_message) (attr_begin bits : Z)
    : option (list Z * stun_message * Z * Z) :=
  run (
    if has_fingerprint msg then Return (mem, msg, bits, -1)
    else if size <? sizeof_stun_attr then Return (mem, msg, bits, -1)
    else
      let! t := acc (load16 pos mem) in
      let! l := acc (load16 (pos + 2) mem) in
      let length := ntohs l in
      let type := ntohs t in
      if size <? sizeof_stun_attr + length then Return (mem, msg, bits, -1)
      else if has_integrity msg && negb (type =? STUN_ATTR_MESSAGE_INTEGRITY) &&
              negb (type =? STUN_ATTR_MESSAGE_INTEGRITY_SHA256) && negb (type =? STUN_ATTR_FINGERPRINT)
      then Return (mem, msg, bits, sizeof_stun_attr + align32 length)
      else
        let! value := acc (load (pos + 4) length mem) in
        if type =? STUN_ATTR_FINGERPRINT then
          if negb (length =? 4) then Return (mem, msg, bits, -1)
          else
            let! (mem, ok) := acc (check_fingerprint mem pos attr_begin value) in
            if ok then Next (mem, msg <| has_fingerprint := true |>, bits, sizeof_stun_attr + align32 length)
            else Return (mem, msg, bits, -1)
        else
          match read_value type value msg bits with
          | UB => UB
          | Return (msg, bits) => Return (mem, msg, bits, -1)
          | Next (msg, bits) => Next (mem, msg, bits, sizeof_stun_attr + align32 length)
          end).

(** The loop of [stun_read]; [fuel] bounds the attributes, each of at least
    four bytes.  [inl] is a failed read, [inr] the end of the message. *)
Fixpoint stun_read_loop (fuel : nat) (mem : list Z) (pos end_ : Z) (msg : stun_message) (bits : Z)
    : option ((list Z * stun_message) + (list Z * stun_message * Z)) :=
  if pos <? end_ then
    match fuel with
    | O => None
    | S fuel' =>
      let? (mem, msg, bits, ret) := stun_read_attr mem pos (end_ - pos) msg sizeof_stun_header bits in
      if ret <=? 0 then Some (inl (mem, msg)) else stun_read_loop fuel' mem (pos + ret) end_ msg bits
    end
  else Some (inr (mem, msg, bits)).

(** The checks after the attributes. *)
Definition check_algorithms (msg : stun_message) (bits : Z) : stun_message :=
  if (msg_class msg =? STUN_CLASS_RESP_ERROR) && ((error_code msg =? 401) || (error_code msg =? 438)) &&
     flag bits STUN_SECURITY_PASSWORD_ALGORITHMS_BIT &&
     (lenZ (password_algorithms_value (credentials msg)) =? 0)
  then msg <| error_code := STUN_ERROR_INTERNAL_VALIDATION_FAILED |> else msg.

Definition select_algorithm (msg : stun_message) : stun_message :=
  let c := credentials msg in
  let reject := msg <| error_code := STUN_ERROR_INTERNAL_VALIDATION_FAILED |> in
  if negb (STUN_IS_RESPONSE (msg_class msg)) then
    if (lenZ (password_algorithms_value c) =? 0) && (password_algorithm c =? STUN_PASSWORD_ALGORITHM_UNSET)
    then msg <| credentials := c <| password_algorithm := STUN_PASSWORD_ALGORITHM_MD5 |> |>
    else if password_algorithm c =? STUN_PASSWORD_ALGORITHM_UNSET then reject
    else if lenZ (password_algorithms_value c) =? 0 then reject
    else if negb (bool_decide (password_algorithms_value c = generate_password_algorithms_attr)) then reject
    else msg
  else msg.

Definition enable_anonymity (msg : stun_message) (bits : Z) : stun_message :=
  if flag bits STUN_SECURITY_USERNAME_ANONYMITY_BIT
  then msg <| credentials := credentials msg <| enable_userhash := true |> |> else msg.

Definition stun_read_finish (msg : stun_message) (bits : Z) : stun_message :=
  enable_anonymity (select_algorithm (check_algorithms msg bits)) bits.

(** [stun_read]: the memory, the message and the returned value. *)
Definition stun_read (mem : list Z) (size : Z) : option (list Z * stun_message * Z) :=
  let msg := stun_message_zero in
  if size <? sizeof_stun_header then Some (mem, msg, -1)
  else
    let? l := load16 2 mem in
    let length := ntohs l in
    if size <? sizeof_stun_header + length then Some (mem, msg, -1)
    else
      let? t := load16 0 mem in
      let type := ntohs t in
      let? tid := load 8 12 mem in
      let msg := msg <| msg_class := Z.land type STUN_CLASS_MASK |>
                     <| msg_method := Z.land type (Z.lnot STUN_CLASS_MASK) |>
                     <| transaction_id := tid |> in
      let? r := stun_read_loop (S (Z.to_nat length)) mem sizeof_stun_header (sizeof_stun_header + length) msg 0 in
      match r with
      | inl (mem, msg) => Some (mem, msg, -1)
      | inr (mem, msg, bits) => Some (mem, stun_read_finish msg bits, sizeof_stun_header + length)
      end.

(** ** Message integrity *)

(** One integrity attribute of [digest] bytes at [pos]. *)
Definition check_hmac (mem : list Z) (pos attr_begin digest : Z) (hmac : list Z -> list Z) : option (list Z * bool) :=
  let tmp_length := size_t (pos - attr_begin + STUN_ATTR_SIZE + digest) in
  let? (mem, prev_length) := stun_update_header_length mem tmp_length in
  let? text := load 0 pos mem in
  let? (mem, _) := stun_update_header_length mem prev_length in
  let? expected_hmac := load (pos + 4) digest mem in
  let? r := const_time_memcmp (hmac text) expected_hmac digest in
  Some (mem, r =? 0).

(** The loop of [stun_check_integrity]. *)
Fixpoint check_integrity_loop (fuel : nat) (mem : list Z) (size pos end_ : Z) (key : list Z) (success : bool)
    : option (list Z * bool) :=
  if pos <? end_ then
    match fuel with
    | O => None
    | S fuel' =>
      let? t := load16 pos mem in
      let? l := load16 (pos + 2) mem in
      let attr_length := ntohs l in
      if size <? sizeof_stun_attr + attr_length then Some (mem, false)
      else
        let next := pos + sizeof_stun_attr + align32 attr_length in
        let check digest hmac :=
          if negb (attr_length =? digest) then Some (mem, false)
          else
            let? (mem, ok) := check_hmac mem pos sizeof_stun_header digest hmac in
            if ok then check_integrity_loop fuel' mem size next end_ key true else Some (mem, false) in
        if ntohs t =? STUN_ATTR_MESSAGE_INTEGRITY then check HMAC_SHA1_SIZE (fun text => hmac_sha1 text key)
        else if ntohs t =? STUN_ATTR_MESSAGE_INTEGRITY_SHA256 then check HMAC_SHA256_SIZE (fun text => hmac_sha256 text key)
        else check_integrity_loop fuel' mem size next end_ key success
    end
  else Some (mem, success).

(** [stun_check_integrity]: the memory and the verdict. *)
Definition stun_check_integrity (mem : list Z) (size : Z) (msg : stun_message) (password : list Z)
    : option (list Z * bool) :=
  if negb (has_integrity msg) then Some (mem, false)
  else
    let? l := load16 2 mem in
    let length := ntohs l in
    if size <? sizeof_stun_header + length then Some (mem, false)
    else
      let key := generate_hmac_key msg (Some password) in
      check_integrity_loop (S (Z.to_nat length)) mem size sizeof_stun_header (sizeof_stun_header + length) key false.

(** ** Nonce cookie and user hash *)

(** [stun_prepend_nonce_cookie]: the new string. *)
Definition stun_prepend_nonce_cookie (nonce : list Z) : list Z :=
  let security_bits :=
    le_bytes 4 (htonl (Z.lor STUN_SECURITY_PASSWORD_ALGORITHMS_BIT STUN_SECURITY_USERNAME_ANONYMITY_BIT)) in
  let '(encoded, _) := juice_base64_encode (drop 1 security_bits) 5 in
  snprintf_clip STUN_MAX_NONCE_LEN
    (STUN_NONCE_COOKIE ++ cstr encoded ++
     take (Z.to_nat (STUN_MAX_NONCE_LEN - (STUN_NONCE_COOKIE_LEN + 5))) nonce).

Definition stun_compute_userhash (username realm : list Z) : list Z :=
  hash_sha256 (snprintf_clip MAX_USERHASH_INPUT_LEN (username ++ [58] ++ realm)).

(** [stun_process_credentials]: the new [*dst]. *)
Definition stun_process_credentials (credentials dst : stun_credentials) : stun_credentials :=
  let user := username dst in
  let dst := credentials <| username := user |> in
  if enable_userhash credentials then dst <| userhash := stun_compute_userhash user (realm credentials) |>
  else dst.
End Read.
