(* ===== verification/StunReadSafe.v ===== *)
(** * Reading STUN messages is memory safe and terminates

    Whatever bytes arrive, [stun_read] stays inside the buffer, restores it and
    returns; and after a successful read [stun_check_integrity] walks the same
    attributes, so that its own weaker bounds checks suffice. *)

From S2P Require Import Prelude Addr Crc32 Base64 ConstTime StunMsg StunWrite StunCodec StunRead.

(** ** The four characters of a nonce cookie decode to three bytes at most *)
Lemma base64_decode_four s :
  lenZ s = 4 -> exists w r, juice_base64_decode s 3 = Some (w, r) /\ lenZ w <= 3.
Proof.
  intros Hs. destruct (base64_decode_total s 3) as [[w r] E]. exists w, r. split; [done|].
  unfold juice_base64_decode in E. destruct (base64_decode_loop_bound _ _ _ _ _ _ E) as (_ & H).
  rewrite lenZ_nil in H. lia.
Qed.

(** ** Headers are patched and put back *)
Lemma load_bytes {off n mem bs} : bytes_ok mem -> load off n mem = Some bs -> bytes_ok bs.
Proof. intros Hm (_ & _ & _ & -> & _)%load_some. by apply Forall_take, Forall_drop. Qed.

Lemma load_in {A} off n (mem : list A) :
  0 <= off -> 0 <= n -> off + n <= lenZ mem -> exists bs, load off n mem = Some bs /\ lenZ bs = n.
Proof.
  intros H1 H2 H3. eexists. rewrite load_ok by done. split; [done|]. unfold lenZ in *.
  rewrite length_take, length_drop. lia.
Qed.

Lemma load16_in off mem :
  bytes_ok mem -> 0 <= off -> off + 2 <= lenZ mem -> exists x, load16 off mem = Some x /\ 0 <= x < 65536.
Proof.
  intros Hb H1 H2. unfold load16. destruct (load_in off 2 mem) as (bs & E & Hl); [lia..|]. rewrite E.
  exists (le_word bs). split; [done|]. pose proof (le_word_range bs (load_bytes Hb E)) as Hr.
  rewrite Hl in Hr. change (2 ^ (8 * 2)) with 65536 in Hr. lia.
Qed.

Lemma ntohs_range x : 0 <= ntohs x < 65536.
Proof. apply bswap16_range. Qed.

(** The header length is replaced, and a second patch with the previous value
    gives the buffer back. *)
Lemma update_header_restore mem n :
  bytes_ok mem -> 20 <= lenZ mem ->
  exists mem1 prev, stun_update_header_length mem n = Some (mem1, prev) /\ lenZ mem1 = lenZ mem /\ bytes_ok mem1 /\
    exists prev1, stun_update_header_length mem1 prev = Some (mem, prev1).
Proof.
  intros Hb Hl.
  destruct mem as [|b0 [|b1 [|b2 [|b3 rest]]]]; unfold lenZ in Hl; simpl in Hl; try lia.
  apply Forall_cons_1 in Hb as [Hb0 Hb]. apply Forall_cons_1 in Hb as [Hb1 Hb].
  apply Forall_cons_1 in Hb as [Hb2 Hb]. apply Forall_cons_1 in Hb as [Hb3 Hb]. unfold is_byte in *.
  assert (HL : forall p q : Z, load16 2 (b0 :: b1 :: p :: q :: rest) = Some (le_word [p; q])).
  { intros. unfold load16. change (b0 :: b1 :: p :: q :: rest) with ([b0; b1] ++ [p; q] ++ rest).
    by rewrite load_mid by done. }
  assert (HS : forall p q x : Z, store 2 (le_bytes 2 x) (b0 :: b1 :: p :: q :: rest) =
     Some (b0 :: b1 :: le_bytes 2 x ++ rest)).
  { intros. change (b0 :: b1 :: p :: q :: rest) with ([b0; b1] ++ [p; q] ++ rest).
    rewrite store_mid by (done || by rewrite length_le_bytes). done. }
  unfold stun_update_header_length. rewrite HL, HS.
  assert (Hx : exists p q, le_bytes 2 (htons (u16 n)) = [p; q] /\ is_byte p /\ is_byte q).
  { pose proof (bytes_le_bytes 2 (htons (u16 n))) as Hx. eexists _, _. split; [reflexivity|].
    cbn [le_bytes] in Hx. apply Forall_cons_1 in Hx as [? Hx]. by apply Forall_cons_1 in Hx as [? _]. }
  destruct Hx as (p & q & Hx & Hp & Hq). rewrite Hx. cbn [app].
  eexists _, _. split; [reflexivity|]. split; [done|]. split.
  { by repeat apply Forall_cons_2. }
  rewrite HL, HS. eexists. do 2 f_equal.
  assert (Hw : 0 <= le_word [b2; b3] < 65536) by (simpl; lia).
  rewrite (wrap_small 16 (ntohs _)) by (pose proof (ntohs_range (le_word [b2; b3])); lia).
  rewrite bswap16_involutive by done. 
  assert (Hle : le_bytes 2 (le_word [b2; b3]) = [b2; b3])
    by (apply (le_bytes_le_word [b2; b3]); by repeat apply Forall_cons_2).
  by rewrite Hle.
Qed.

(** ** One attribute *)
Section Safe.
Context `{Platform, Hashes}.

Ltac load_value :=
  match goal with
  | |- context [load ?off ?n ?v] =>
    let bs := fresh "bs" in let E := fresh "E" in let Hl := fresh "Hl" in
    destruct (load_in off n v) as (bs & E & Hl); [lia | lia | lia |]; rewrite E
  end.

Lemma read_mapped_safe value r mask : exists r' ret,
  stun_read_value_mapped_address value (lenZ value) r mask = Some (r', ret) /\ ret <= lenZ value.
Proof.
  unfold stun_read_value_mapped_address, load16. cbv zeta.
  case_test; zify_bool; [eexists _, _; split; [done|]; pose proof (lenZ_nonneg value); lia|].
  do 2 load_value. cbn [acc obind]. case_test; [|case_test].
  - case_test; zify_bool; [eexists _, _; split; [done|lia]|]. load_value. cbn. eexists _, _. split; [done|lia].
  - case_test; zify_bool; [eexists _, _; split; [done|lia]|]. load_value. cbn. eexists _, _. split; [done|lia].
  - eexists _, _. split; [done|lia].
Qed.

Lemma read_address_safe value r mask set bits : read_address value (lenZ value) r mask set bits <> UB.
Proof.
  unfold read_address. destruct (read_mapped_safe value r mask) as (r' & ret & -> & _). cbn. by case_test.
Qed.

Lemma read64_safe value : lenZ value = 8 -> exists x, read64 value = Some x.
Proof. intros Hv. unfold read64, load32. do 2 load_value. by eexists. Qed.

Lemma read_nonce_bits_safe msg bits : exists b, read_nonce_bits msg bits = Some b.
Proof.
  unfold read_nonce_bits. cbv zeta. set (s := nonce (credentials msg)).
  destruct (_ && _ && _) eqn:Hc; [|by eexists]. zify_bool. unfold STUN_NONCE_COOKIE_LEN in *.
  destruct (base64_decode_four (take 4 (drop 9 s))) as (w & r & -> & Hw).
  { unfold lenZ in *. rewrite length_take, length_drop. lia. }
  assert (Hst : exists bytes, store 1 w [0; 0; 0; 0] = Some bytes).
  { unfold store. change (lenZ [0; 0; 0; 0]) with 4. case_test; [by eexists|].
    apply andb_false_iff in E as [E|E]; zify_bool; lia. }
  destruct Hst as [bytes ->]. case_test; by eexists.
Qed.

Lemma load16_some off v : 0 <= off -> off + 2 <= lenZ v -> exists x, load16 off v = Some x.
Proof. intros H1 H2. unfold load16. load_value. by eexists. Qed.

Lemma load32_some off v : 0 <= off -> off + 4 <= lenZ v -> exists x, load32 off v = Some x.
Proof. intros H1 H2. unfold load32. load_value. by eexists. Qed.

Lemma align32_ntohs_nonneg x : 0 <= align32 (ntohs x).
Proof. pose proof (align32_bounds (ntohs x)). pose proof (ntohs_range x). lia. Qed.

Lemma read_algorithms_safe fuel : forall value pos,
  0 <= pos -> lenZ value - pos <= Z.of_nat fuel -> exists r, read_algorithms fuel value pos = Some r.
Proof.
  induction fuel as [|fuel IH]; intros value pos Hp Hf; cbn [read_algorithms]; cbv zeta.
  - case_test; zify_bool; [lia | by eexists].
  - case_test; zify_bool; [|by eexists]. case_test; zify_bool; [by eexists|].
    destruct (load16_some pos value) as [a ->]; [lia..|]. destruct (load16_some (pos + 2) value) as [l ->]; [lia..|].
    case_test; [by eexists|]. case_test; [by eexists|].
    pose proof (align32_ntohs_nonneg l). apply IH; lia.
Qed.

Lemma read_value_safe type value msg bits : read_value type value msg bits <> UB.
Proof.
  unfold read_value, read_ice_value, read_turn_value. cbv zeta.
  repeat match goal with
  | |- context [if ?c then _ else _] => lazymatch c with type =? _ => destruct c end
  end;
  repeat first
    [ match goal with
      | |- Return _ <> UB => discriminate
      | |- Next _ <> UB => discriminate
      | |- read_address _ _ _ _ _ _ <> UB => apply read_address_safe
      | |- context [read_nonce_bits ?m ?b] =>
        let x := fresh "x" in destruct (read_nonce_bits_safe m b) as [x ->]; cbn [acc obind]
      | |- context [read64 ?v] =>
        let x := fresh "x" in destruct (read64_safe v) as [x ->]; [lia|]; cbn [acc obind]
      | |- context [read_algorithms ?f ?v ?p] =>
        let x := fresh "x" in destruct (read_algorithms_safe f v p) as [x ->]; [lia | unfold lenZ; lia |]; cbn [acc obind];
        destruct x as [|[?|]]
      | |- context [stun_read_value_mapped_address ?v _ ?r ?m] =>
        let r' := fresh "r" in let ret := fresh "ret" in
        destruct (read_mapped_safe v r m) as (r' & ret & -> & _); cbn [acc obind]
      | |- context [load16 ?o ?v] =>
        let x := fresh "x" in destruct (load16_some o v) as [x ->]; [lia | lia |]; cbn [acc obind]
      | |- context [load32 ?o ?v] =>
        let x := fresh "x" in destruct (load32_some o v) as [x ->]; [lia | lia |]; cbn [acc obind]
      end
    | load_value; cbn [acc obind]
    | case_test; zify_bool ].
Qed.

Lemma check_fingerprint_safe mem pos value :
  bytes_ok mem -> 20 <= pos <= lenZ mem -> lenZ value = 4 ->
  exists b, check_fingerprint mem pos sizeof_stun_header value = Some (mem, b).
Proof.
  intros Hb Hp Hv. unfold check_fingerprint.
  destruct (update_header_restore mem (size_t (pos - sizeof_stun_header + STUN_ATTR_SIZE + 4)) Hb) as
    (mem1 & prev & -> & Hl1 & Hb1 & prev1 & Hback); [lia|]. cbv zeta.
  destruct (load_in 0 pos mem1) as (text & E & Hlt); [lia..|]. rewrite E.
  rewrite (CRC32_total text (load_bytes Hb1 E)). rewrite Hback.
  destruct (load32_some 0 value) as [v ->]; [lia..|]. by eexists.
Qed.

(** ** The walk over the attributes *)

(** From [pos] every attribute fits before [end_]. *)
Inductive walk (mem : list Z) (end_ : Z) : Z -> Prop :=
| walk_end pos : end_ <= pos -> walk mem end_ pos
| walk_attr pos l :
    pos < end_ -> load16 (pos + 2) mem = Some l -> pos + 4 + ntohs l <= end_ ->
    walk mem end_ (pos + (4 + align32 (ntohs l))) -> walk mem end_ pos.

(** One attribute: never undefined, the buffer comes back as it was, and a
    positive result is the attribute's size, which fits. *)
Lemma stun_read_attr_safe mem pos end_ msg bits :
  bytes_ok mem -> 20 <= pos < end_ -> end_ <= lenZ mem ->
  exists msg' bits' ret, stun_read_attr mem pos (end_ - pos) msg sizeof_stun_header bits = Some (mem, msg', bits', ret) /\
    (ret = -1 \/ exists l, load16 (pos + 2) mem = Some l /\ pos + 4 + ntohs l <= end_ /\ ret = 4 + align32 (ntohs l)).
Proof.
  intros Hb Hp He. unfold stun_read_attr, sizeof_stun_attr.
  case_test; [do 3 eexists; split; [reflexivity|by left]|].
  case_test; zify_bool; [do 3 eexists; split; [reflexivity|by left]|].
  destruct (load16_some pos mem) as [t ->]; [lia..|]. destruct (load16_some (pos + 2) mem) as [l El]; [lia..|].
  rewrite El. cbn [acc obind]. cbv zeta. pose proof (ntohs_range l).
  case_test; zify_bool; [do 3 eexists; split; [reflexivity|by left]|].
  assert (Hok : exists l0, Some l = Some l0 /\ pos + 4 + ntohs l0 <= end_ /\ 4 + align32 (ntohs l) = 4 + align32 (ntohs l0))
    by (exists l; split_and!; [done|lia|done]).
  case_test; [do 3 eexists; split; [reflexivity|by right]|].
  destruct (load_in (pos + 4) (ntohs l) mem) as (value & Ev & Hlv); [lia..|]. rewrite Ev. cbn [acc obind].
  case_test.
  - case_test; zify_bool; [do 3 eexists; split; [reflexivity|by left]|].
    destruct (check_fingerprint_safe mem pos value Hb) as [b ->]; [lia..|]. cbn [acc obind].
    destruct b; do 3 eexists; (split; [reflexivity|]); [by right | by left].
  - pose proof (read_value_safe (ntohs t) value msg bits) as Hs.
    destruct (read_value (ntohs t) value msg bits) as [|[m b]|[m b]]; [done| |];
      do 3 eexists; (split; [reflexivity|]); [by left | by right].
Qed.

Lemma stun_read_loop_safe fuel : forall mem pos end_ msg bits,
  bytes_ok mem -> 20 <= pos -> end_ <= lenZ mem -> end_ - pos < Z.of_nat fuel ->
  exists msg', stun_read_loop fuel mem pos end_ msg bits = Some (inl (mem, msg')) \/
    exists bits', stun_read_loop fuel mem pos end_ msg bits = Some (inr (mem, msg', bits')) /\ walk mem end_ pos.
Proof.
  induction fuel as [|fuel IH]; intros mem pos end_ msg bits Hb Hp He Hf; cbn [stun_read_loop].
  - case_test; zify_bool; [lia|]. exists msg. right. exists bits. split; [done|]. constructor. lia.
  - case_test; zify_bool; [|exists msg; right; exists bits; split; [done|by constructor]].
    destruct (stun_read_attr_safe mem pos end_ msg bits Hb ltac:(lia) He) as (msg' & bits' & ret & -> & Hret).
    case_test; zify_bool; [by exists msg'; left|].
    destruct Hret as [->|(l & El & Hl & ->)]; [lia|]. pose proof (align32_ntohs_nonneg l).
    destruct (IH mem (pos + (4 + align32 (ntohs l))) end_ msg' bits' Hb ltac:(lia) He ltac:(lia)) as (m & [Hm|(b & Hm & Hw)]).
    + exists m. by left.
    + exists m. right. exists b. split; [done|]. by eapply walk_attr.
Qed.

(** What every call of [stun_read] does; a message that is read is walked. *)
Lemma stun_read_total mem size :
  bytes_ok mem -> 0 <= size <= lenZ mem ->
  exists msg ret, stun_read mem size = Some (mem, msg, ret) /\
    (ret = -1 \/ exists l, load16 2 mem = Some l /\ ret = 20 + ntohs l /\ ret <= size /\ walk mem ret 20).
Proof.
  intros Hb Hs. unfold stun_read. cbv zeta. unfold sizeof_stun_header.
  case_test; zify_bool; [do 2 eexists; split; [reflexivity|by left]|].
  destruct (load16_some 2 mem) as [l El]; [lia..|]. rewrite El. cbv iota beta. pose proof (ntohs_range l).
  case_test; zify_bool; [do 2 eexists; split; [reflexivity|by left]|].
  destruct (load16_some 0 mem) as [t ->]; [lia..|]. destruct (load_in 8 12 mem) as (tid & Et & _); [lia..|]. rewrite Et.
  match goal with |- context [stun_read_loop ?f ?m ?p ?e ?msg ?b] =>
    destruct (stun_read_loop_safe f m p e msg b Hb) as (msg' & [-> | (bits' & -> & Hw)]); [lia..| |] end.
  - do 2 eexists. split; [reflexivity|by left].
  - do 2 eexists. split; [reflexivity|]. right. exists l. split_and!; [done|done|lia|done].
Qed.

(** C5: Reading never leaves the buffer and always returns: for every buffer and
    every announced size within it, stun_read yields -1 or the size of the
    message, which fits, and the buffer is as it was (the header length patched
    for the fingerprint is put back). *)
Theorem stun_read_safe mem size :
  bytes_ok mem -> 0 <= size <= lenZ mem ->
  exists msg ret, stun_read mem size = Some (mem, msg, ret) /\ (ret = -1 \/ 20 <= ret <= size).
Proof.
  intros Hb Hs. destruct (stun_read_total mem size Hb Hs) as (msg & ret & E & Hret).
  exists msg, ret. split; [done|]. destruct Hret as [?|(l & _ & -> & ? & _)]; [by left|].
  pose proof (ntohs_range l). right. lia.
Qed.

(** ** Integrity *)
Lemma memcmp_total len a b :
  bytes_ok a -> bytes_ok b -> lenZ a = len -> lenZ b = len ->
  exists r, const_time_memcmp a b len = Some r /\ (r = 0 <-> a = b).
Proof.
  intros Ha Hb Hla Hlb. unfold lenZ in *.
  destruct (memcmp_loop_spec (Z.to_nat len) 0 0 a b) as (r & Hr & _ & Hz); [done | done | done | lia | lia |].
  exists r. split; [done|]. rewrite Hz, !drop_0, !take_ge by lia. tauto.
Qed.

Lemma check_hmac_safe mem pos digest hmac :
  bytes_ok mem -> 20 <= pos -> 0 <= digest -> pos + 4 + digest <= lenZ mem -> (forall t, lenZ (hmac t) = digest /\ bytes_ok (hmac t)) ->
  exists ok, check_hmac mem pos sizeof_stun_header digest hmac = Some (mem, ok).
Proof.
  intros Hb Hp Hd Hl Hh. unfold check_hmac.
  destruct (update_header_restore mem (size_t (pos - sizeof_stun_header + STUN_ATTR_SIZE + digest)) Hb) as
    (mem1 & prev & -> & Hl1 & Hb1 & prev1 & Hback); [lia|]. cbv zeta.
  destruct (load_in 0 pos mem1) as (text & E & Hlt); [lia..|]. rewrite E, Hback.
  destruct (load_in (pos + 4) digest mem) as (ex & E' & Hle); [lia..|]. rewrite E'.
  destruct (memcmp_total digest (hmac text) ex) as (r & -> & _);
    [apply Hh | exact (load_bytes Hb E') | apply Hh | exact Hle |]. by eexists.
Qed.

Lemma check_integrity_loop_safe mem size end_ key pos :
  bytes_ok mem -> size <= lenZ mem -> end_ <= size -> walk mem end_ pos ->
  forall fuel success, 20 <= pos -> end_ - pos < Z.of_nat fuel ->
  exists ok, check_integrity_loop fuel mem size pos end_ key success = Some (mem, ok).
Proof.
  intros Hb Hs He Hw. induction Hw as [pos Hend|pos l Hlt Hl Hfit Hw IH]; intros fuel success Hp Hf.
  - destruct fuel; cbn [check_integrity_loop]; (case_test; zify_bool; [lia|]); by eexists.
  - destruct fuel as [|fuel]; [lia|]. cbn [check_integrity_loop]. case_test; zify_bool; [|lia]. pose proof (ntohs_range l). pose proof (align32_bounds (ntohs l)).
    destruct (load16_some pos mem) as [t ->]; [lia..|]. rewrite Hl. unfold sizeof_stun_attr. cbv zeta.
    case_test; zify_bool; [by eexists|].
    rewrite <- Z.add_assoc.
    assert (Hnext : forall success, exists ok,
      check_integrity_loop fuel mem size (pos + (4 + align32 (ntohs l))) end_ key success = Some (mem, ok))
      by (intros; apply IH; lia).
    case_test; [|case_test; [|apply Hnext]]; (case_test; zify_bool; [by eexists|]).
    + destruct (check_hmac_safe mem pos HMAC_SHA1_SIZE (fun text => hmac_sha1 text key)) as [[] ->];
        [done | lia | done | lia | auto using hmac_sha1_length, hmac_sha1_bytes | apply Hnext | by eexists].
    + destruct (check_hmac_safe mem pos HMAC_SHA256_SIZE (fun text => hmac_sha256 text key)) as [[] ->];
        [done | lia | done | lia | auto using hmac_sha256_length, hmac_sha256_bytes | apply Hnext | by eexists].
Qed.

(** In a buffer that was read, the check is defined for every message. *)
Lemma check_integrity_total mem size msg ret msg' password :
  bytes_ok mem -> 0 <= size <= lenZ mem -> stun_read mem size = Some (mem, msg, ret) -> 0 <= ret ->
  exists ok, stun_check_integrity mem size msg' password = Some (mem, ok).
Proof.
  intros Hb Hs E Hret. destruct (stun_read_total mem size Hb Hs) as (msg0 & ret0 & E' & Hr).
  rewrite E in E'. injection E' as <- <-. destruct Hr as [->|(l & El & -> & Hfit & Hw)]; [lia|].
  unfold stun_check_integrity. case_test; [by eexists|]. rewrite El. cbv zeta.
  unfold sizeof_stun_header. case_test; zify_bool; [by eexists|]. pose proof (ntohs_range l).
  apply check_integrity_loop_safe; try done; lia.
Qed.

(** C25: The integrity check of a message that was read, in the same buffer, stays
    inside it, gives a verdict and restores the buffer, for every password. *)
Theorem stun_check_integrity_safe mem size msg ret password :
  bytes_ok mem -> 0 <= size <= lenZ mem -> stun_read mem size = Some (mem, msg, ret) -> 0 <= ret ->
  exists ok, stun_check_integrity mem size msg password = Some (mem, ok).
Proof. intros Hb Hs E Hret. by eapply check_integrity_total. Qed.
End Safe.
