(* ===== verification/StunRoundtrip.v ===== *)
(** * stun_read inverts stun_write

    The attributes [stun_write] lays out are read back one by one; what a
    reader learns of a message is [received]. *)

From S2P Require Import Prelude Addr Crc32 Base64 ConstTime StunMsg StunWrite StunCodec StunWriteCorrect StunRead StunReadSafe.

(** ** Loading what was stored *)
Lemma load16_be pre x post : lenZ pre = lenZ pre -> 0 <= x < 65536 ->
  load16 (lenZ pre) (pre ++ be_bytes 2 x ++ post) = Some (htons x).
Proof.
  intros _ Hx. unfold load16. rewrite <- le_bytes_bswap16, load_mid by (done || by rewrite lenZ_le_bytes).
  rewrite le_word_le_bytes. change (2 ^ (8 * Z.of_nat 2)) with 65536.
  rewrite Z.mod_small by apply bswap16_range. done.
Qed.

Lemma be_value_16 x : 0 <= x < 65536 -> load16 0 (be_bytes 2 x) = Some (htons x).
Proof. intros Hx. pose proof (load16_be [] x [] eq_refl Hx) as H. by rewrite app_nil_r in H. Qed.

Lemma load32_be pre x post : 0 <= x < 2 ^ 32 ->
  load32 (lenZ pre) (pre ++ be_bytes 4 x ++ post) = Some (htonl x).
Proof.
  intros Hx. unfold load32. rewrite <- le_bytes_bswap32, load_mid by (done || by rewrite lenZ_le_bytes).
  rewrite le_word_le_bytes. change (2 ^ (8 * Z.of_nat 4)) with (2 ^ 32).
  rewrite Z.mod_small by apply bswap32_range. done.
Qed.

Lemma be_value_32 x : 0 <= x < 2 ^ 32 -> load32 0 (be_bytes 4 x) = Some (htonl x).
Proof. intros Hx. pose proof (load32_be [] x [] Hx) as H. by rewrite app_nil_r in H. Qed.

Lemma be_bytes_8 x : be_bytes 8 x = be_bytes 4 (x / 2 ^ 32) ++ be_bytes 4 x.
Proof.
  unfold be_bytes. cbn [le_bytes rev app]. rewrite !Z.div_div by lia. reflexivity.
Qed.

Lemma be_bytes_mod n x : be_bytes n x = be_bytes n (x `mod` 2 ^ (8 * Z.of_nat n)).
Proof.
  unfold be_bytes. f_equal. revert x. induction n as [|n IH]; intros x; [done|]. cbn [le_bytes].
  replace (8 * Z.of_nat (S n)) with (8 + 8 * Z.of_nat n) by lia. rewrite Z.pow_add_r by lia.
  assert (0 < 2 ^ (8 * Z.of_nat n)) by (apply Z.pow_pos_nonneg; lia).
  change (2 ^ 8) with 256. rewrite Z.rem_mul_r by lia.
  set (q := (x / 256) `mod` 2 ^ (8 * Z.of_nat n)).
  replace ((x `mod` 256 + 256 * q) `mod` 256) with (x `mod` 256) by lia_mod.
  replace ((x `mod` 256 + 256 * q) / 256) with q by lia_mod. f_equal. apply IH.
Qed.

Lemma read64_be x : 0 <= x < 2 ^ 64 -> read64 (be_bytes 8 x) = Some x.
Proof.
  intros Hx. unfold read64. rewrite be_bytes_8, (be_bytes_mod 4 x). change (2 ^ (8 * Z.of_nat 4)) with (2 ^ 32).
  assert (H1 : 0 <= x / 2 ^ 32 < 2 ^ 32) by lia_mod. assert (H2 : 0 <= x `mod` 2 ^ 32 < 2 ^ 32) by lia_mod.
  pose proof (load32_be [] (x / 2 ^ 32) (be_bytes 4 (x `mod` 2 ^ 32)) H1) as E1. cbn [lenZ length app Z.of_nat] in E1.
  pose proof (load32_be (be_bytes 4 (x / 2 ^ 32)) (x `mod` 2 ^ 32) [] H2) as E2. rewrite app_nil_r in E2.
  change (lenZ (be_bytes 4 (x / 2 ^ 32))) with 4 in E2. change (@lenZ Z []) with 0 in E1. rewrite E1, E2.
  rewrite !bswap32_involutive, lor_shiftl_add by lia. f_equal. lia_mod.
Qed.

(** ** Addresses *)
Section Roundtrip.
Context `{Platform, Hashes}.

(** A record as it is read back: the written ones have the size of their
    family, the others are absent. *)
Definition norm_record (r : addr_record) : addr_record :=
  match addr r with
  | sockaddr_in _ _ => if len r <? sizeof_sockaddr_in then addr_record_zero else mkRecord (addr r) sizeof_sockaddr_in
  | sockaddr_in6 _ _ => if len r <? sizeof_sockaddr_in6 then addr_record_zero else mkRecord (addr r) sizeof_sockaddr_in6
  | sockaddr_other _ => addr_record_zero
  end.

Lemma zip_lxor_cancel (a m : list Z) : (length a <= length m)%nat -> zip_with Z.lxor (zip_with Z.lxor a m) m = a.
Proof.
  revert m. induction a as [|x a IH]; intros [|y m] Hl; simpl in *; try lia; try done.
  rewrite lxor_cancel_r, IH by lia. done.
Qed.

Lemma bytes_zip_lxor a m : bytes_ok a -> bytes_ok m -> bytes_ok (zip_with Z.lxor a m).
Proof.
  intros Ha. revert m. induction Ha as [|x a Hx Ha IH]; intros [|y m] Hm; simpl; try constructor.
  - apply Forall_cons_1 in Hm as [Hy _]. by apply lxor_byte.
  - apply Forall_cons_1 in Hm as [_ Hm]. by apply IH.
Qed.


Lemma le_word_port p : 0 <= p < 65536 -> le_word (le_bytes 2 p) = p.
Proof. intros Hp. rewrite le_word_le_bytes. by apply Z.mod_small. Qed.

Lemma read_mapped_v4 p x m old :
  0 <= p < 65536 -> length x = 4%nat ->
  stun_read_value_mapped_address ([0; STUN_ADDRESS_FAMILY_IPV4] ++ le_bytes 2 p ++ x) 8 old m =
  Some (mkRecord (sockaddr_in (Z.lxor p (le_word (take 2 m))) (zip_with Z.lxor x (take 4 m))) sizeof_sockaddr_in, 8).
Proof.
  intros Hp Hx. rewrite <- (le_word_port p Hp) at 2.
  destruct x as [|x0 [|x1 [|x2 [|x3 [|]]]]]; try done.
Qed.

Lemma read_mapped_v6 p x m old :
  0 <= p < 65536 -> length x = 16%nat ->
  stun_read_value_mapped_address ([0; STUN_ADDRESS_FAMILY_IPV6] ++ le_bytes 2 p ++ x) 20 old m =
  Some (mkRecord (sockaddr_in6 (Z.lxor p (le_word (take 2 m))) (zip_with Z.lxor x (take 16 m))) sizeof_sockaddr_in6, 20).
Proof.
  intros Hp Hx. rewrite <- (le_word_port p Hp) at 2.
  do 16 (destruct x as [|? x]; [done|]). destruct x; [|done]. reflexivity.
Qed.

(** Reading an address value back. *)
Lemma mapped_roundtrip r tid old n v :
  tid_ok tid -> record_wf r ->
  stun_write_value_mapped_address 32 (addr r) (len r) (generate_mask tid) = (n, v) -> 0 < n ->
  stun_read_value_mapped_address v (lenZ v) old (generate_mask tid) = Some (norm_record r, lenZ v) /\
  0 < len (norm_record r) /\ lenZ v < 65536.
Proof.
  intros Ht Hr E Hn. pose proof (mask_bytes tid (proj2 Ht)) as Hmb. pose proof (mask_length tid Ht) as Hml.
  set (m := generate_mask tid) in *. clearbody m.
  unfold stun_write_value_mapped_address in E. unfold norm_record.
  pose proof sizeof_in_pos. pose proof sizeof_in6_pos.
  change (32 <? 4) with false in E. change (32 <? 4 + 4) with false in E. change (32 <? 4 + 16) with false in E.
  assert (Hpw : 0 <= le_word (take 2 m) < 65536).
  { pose proof (le_word_range (take 2 m) (Forall_take _ _ _ Hmb)) as Hr2.
    replace (lenZ (take 2 m)) with 2 in Hr2 by (unfold lenZ in *; rewrite length_take; lia). exact Hr2. }
  assert (Hcancel : forall k a, length a = k -> (k <= 16)%nat ->
    zip_with Z.lxor (zip_with Z.lxor a (take k m)) (take k m) = a /\ length (zip_with Z.lxor a (take k m)) = k).
  { intros k a Ha Hk. split; [apply zip_lxor_cancel | rewrite length_zip_with]; unfold lenZ in *; rewrite length_take; lia. }
  unfold record_wf in Hr. cbn iota in E.
  destruct (addr r) as [p a|p a|f] eqn:Ea; [| |simplify_eq; lia]; destruct Hr as (Hp & Hla & Hb);
    pose proof (lxor_range 16 p (le_word (take 2 m)) ltac:(lia) Hp Hpw) as Hxr;
    destruct (Hcancel _ a Hla ltac:(lia)) as [Hc Hl]; case_match; simplify_eq; try lia;
    rewrite !lenZ_app, lenZ_le_bytes.
  - change (lenZ [0; STUN_ADDRESS_FAMILY_IPV4]) with 2. unfold lenZ. rewrite Hl.
    change (2 + (Z.of_nat 2 + Z.of_nat 4)) with 8.
    rewrite read_mapped_v4, Hc, lxor_cancel_r by done. split_and!; [done | cbn; lia | lia].
  - change (lenZ [0; STUN_ADDRESS_FAMILY_IPV6]) with 2. unfold lenZ. rewrite Hl.
    change (2 + (Z.of_nat 2 + Z.of_nat 16)) with 20.
    rewrite read_mapped_v6, Hc, lxor_cancel_r by done. split_and!; [done | cbn; lia | lia].
Qed.

(** An address that is not written is read as absent. *)
Lemma norm_record_absent r mask n v :
  record_wf r -> stun_write_value_mapped_address 32 (addr r) (len r) mask = (n, v) -> n <= 0 ->
  norm_record r = addr_record_zero.
Proof.
  intros Hr E Hn. unfold stun_write_value_mapped_address in E. unfold norm_record.
  change (32 <? 4) with false in E. change (32 <? 4 + 4) with false in E. change (32 <? 4 + 16) with false in E.
  cbn iota in E. destruct (addr r); [| |done]; case_match; simplify_eq; done || lia.
Qed.

(** ** One attribute at a time *)
Fixpoint read_attrs (l : attr_list) (msg : stun_message) (bits : Z) : reader :=
  match l with
  | [] => Next (msg, bits)
  | a :: l' => let! (m, b) := read_value a.1 a.2 msg bits in read_attrs l' m b
  end.

Lemma read_attrs_app l k m b : read_attrs (l ++ k) m b = (let! (m, b) := read_attrs l m b in read_attrs k m b).
Proof.
  revert m b. induction l as [|a l IH]; intros m b; [done|]. simpl. rewrite obind_assoc.
  destruct (read_value a.1 a.2 m b) as [|r|[m' b']]; [done|done|]. apply IH.
Qed.

Lemma read_attrs_if (c : bool) t v m m' b :
  (c = true -> read_value t v m b = Next (m', b)) -> (c = false -> m' = m) ->
  read_attrs (attr_if c t v) m b = Next (m', b).
Proof. destruct c; intros H1 H2; simpl; [by rewrite H1 | by rewrite H2]. Qed.

(** Reduce the [switch] on a known type. *)
Ltac pick_case :=
  unfold read_value, read_ice_value, read_turn_value; cbv zeta;
  repeat match goal with
  | |- context [if ?a =? ?b then _ else _] =>
    let v := eval vm_compute in (a =? b) in
    lazymatch v with true => idtac | false => idtac end;
    change (a =? b) with v; cbv iota
  end.

Lemma rd_error e m b :
  0 <= e < 800 ->
  read_value STUN_ATTR_ERROR_CODE (le_bytes 2 0 ++ [Z.land (e / 100) 0x07; u8 (e `mod` 100)] ++ stun_get_error_reason e) m b =
  Next (m <| error_code := e |>, b).
Proof.
  intros He. pick_case. set (r := stun_get_error_reason e).
  change (le_bytes 2 0) with [0; 0].
  replace (lenZ _ <? 4) with false by (symmetry; apply Z.ltb_ge; rewrite !lenZ_app, !lenZ_cons, !lenZ_nil; pose proof (lenZ_nonneg r); lia).
  rewrite (load_mid 2 2 [0; 0] [Z.land (e / 100) 7; u8 (e mod 100)] r) by done.
  cbn [acc obind nth].
  assert (Hv : Z.land (e / 100) 7 * 100 + u8 (e mod 100) = e).
  { change 7 with (2 ^ 3 - 1). rewrite land_ones_mod by lia. rewrite (wrap_small 8) by (change (2 ^ 8) with 256; lia_mod).
    change (2 ^ 3) with 8. lia_mod. }
  rewrite <- Z.land_assoc. change (Z.land 7 7) with 7. by rewrite Hv.
Qed.

Lemma rd_priority x m b : 0 <= x < 2 ^ 32 ->
  read_value STUN_ATTR_PRIORITY (be_bytes 4 x) m b = Next (m <| priority := x |>, b).
Proof.
  intros Hx. pick_case. rewrite lenZ_be_bytes, be_value_32 by done. cbn [acc obind negb Z.eqb Z.of_nat].
  by rewrite bswap32_involutive.
Qed.

Lemma rd_use_candidate v m b : read_value STUN_ATTR_USE_CANDIDATE v m b = Next (m <| use_candidate := true |>, b).
Proof. by pick_case. Qed.

Lemma rd_controlling x m b : 0 <= x < 2 ^ 64 ->
  read_value STUN_ATTR_ICE_CONTROLLING (be_bytes 8 x) m b = Next (m <| ice_controlling := x |>, b).
Proof. intros Hx. pick_case. rewrite lenZ_be_bytes, read64_be by done. reflexivity. Qed.

Lemma rd_controlled x m b : 0 <= x < 2 ^ 64 ->
  read_value STUN_ATTR_ICE_CONTROLLED (be_bytes 8 x) m b = Next (m <| ice_controlled := x |>, b).
Proof. intros Hx. pick_case. rewrite lenZ_be_bytes, read64_be by done. reflexivity. Qed.

Lemma rd_channel x m b : 0 <= x < 65536 ->
  read_value STUN_ATTR_CHANNEL_NUMBER (be_bytes 2 x ++ [0; 0]) m b = Next (m <| channel_number := x |>, b).
Proof.
  intros Hx. pick_case. rewrite lenZ_app, lenZ_be_bytes. change (lenZ [0; 0]) with 2.
  rewrite (load16_be [] x [0; 0] eq_refl Hx : load16 0 (be_bytes 2 x ++ [0; 0]) = _).
  cbn [Z.of_nat Z.add Z.ltb Z.compare acc obind]. by rewrite bswap16_involutive.
Qed.

Lemma rd_lifetime x m b : 0 <= x < 2 ^ 32 ->
  read_value STUN_ATTR_LIFETIME (be_bytes 4 x) m b = Next (m <| lifetime := x |> <| lifetime_set := true |>, b).
Proof.
  intros Hx. pick_case. rewrite lenZ_be_bytes, be_value_32 by done. cbn [acc obind negb Z.eqb Z.of_nat].
  by rewrite bswap32_involutive.
Qed.

Lemma rd_data v m b : read_value STUN_ATTR_DATA v m b = Next (m <| data := Some v |> <| data_size := lenZ v |>, b).
Proof. by pick_case. Qed.

Lemma rd_transport m b :
  read_value STUN_ATTR_REQUESTED_TRANSPORT [17; 0; 0; 0] m b = Next (m <| requested_transport := true |>, b).
Proof. by pick_case. Qed.

Lemma rd_fragment v m b : read_value STUN_ATTR_DONT_FRAGMENT v m b = Next (m <| dont_fragment := true |>, b).
Proof. by pick_case. Qed.

Lemma rd_reservation x m b : 0 <= x < 2 ^ 64 ->
  read_value STUN_ATTR_RESERVATION_TOKEN (be_bytes 8 x) m b = Next (m <| reservation_token := x |>, b).
Proof. intros Hx. pick_case. rewrite lenZ_be_bytes, read64_be by done. reflexivity. Qed.

Lemma rd_software m b : read_value STUN_ATTR_SOFTWARE SOFTWARE m b = Next (m, b).
Proof. by pick_case. Qed.

(** The three kinds of address attributes that are written. *)
Lemma norm_record_zero r : len r = 0 -> norm_record r = addr_record_zero.
Proof.
  intros Hl. unfold norm_record. rewrite Hl. pose proof sizeof_in_pos. pose proof sizeof_in6_pos.
  destruct (addr r); [| |done]; case_test; zify_bool; done || lia.
Qed.

Lemma rd_address (t : Z) tid r (get : stun_message -> addr_record) (set : addr_record -> stun_message -> stun_message) m b :
  (forall v m b, read_value t v m b =
    read_address v (lenZ v) (get m) (generate_mask (transaction_id m)) (fun r => set r m) b) ->
  set addr_record_zero m = m -> transaction_id m = tid -> tid_ok tid -> record_wf r ->
  read_attrs (if negb (len r =? 0) then address_attr t tid r else []) m b =
  Next (set (norm_record r) m, b).
Proof.
  intros Hrd Hz <- Ht Hr. destruct (len r =? 0) eqn:Hl; zify_bool; cbn [negb].
  { by rewrite norm_record_zero, Hz. }
  unfold address_attr.
  destruct (stun_write_value_mapped_address 32 (addr r) (len r) (generate_mask (transaction_id m))) as [n v] eqn:E.
  unfold attr_if. destruct (0 <? n) eqn:Hn; zify_bool.
  - destruct (mapped_roundtrip r (transaction_id m) (get m) n v Ht Hr E Hn) as (E' & _).
    cbn [app read_attrs fst snd]. rewrite Hrd. unfold read_address. rewrite E'. cbn [acc obind].
    pose proof (lenZ_nonneg v). by replace (lenZ v <? 0) with false by (symmetry; apply Z.ltb_ge; lia).
  - simpl. by rewrite (norm_record_absent r _ n v Hr E Hn), Hz.
Qed.

(** The peers that are read back. *)
Definition read_peers (ps : list addr_record) : list addr_record :=
  List.filter (fun r => negb (len r =? 0)) (map norm_record ps).

Lemma rd_peers_tid ps : forall m b,
  tid_ok (transaction_id m) -> Forall record_wf ps -> lenZ (peers m) + lenZ (read_peers ps) <= STUN_MAX_PEER_ADDRESSES ->
  read_attrs (peer_attrs (transaction_id m) ps) m b = Next (m <| peers := peers m ++ read_peers ps |>, b).
Proof.
  induction ps as [|p ps IH]; intros m b Ht Hps Hn.
  { simpl. rewrite app_nil_r. by destruct m. }
  apply Forall_cons_1 in Hps as [Hp Hps].
  change (peer_attrs (transaction_id m) (p :: ps)) with
    ((if negb (len p =? 0) then address_attr STUN_ATTR_XOR_PEER_ADDRESS (transaction_id m) p else []) ++
     peer_attrs (transaction_id m) ps).
  rewrite read_attrs_app. unfold read_peers in *. cbn [map List.filter] in *.
  assert (Hskip : norm_record p = addr_record_zero ->
    read_attrs (peer_attrs (transaction_id m) ps) m b =
    Next (m <| peers := peers m ++ (if negb (len (norm_record p) =? 0) then
       norm_record p :: List.filter (fun r => negb (len r =? 0)) (map norm_record ps)
       else List.filter (fun r => negb (len r =? 0)) (map norm_record ps)) |>, b)).
  { intros Hz. rewrite Hz in *. apply IH; done. }
  destruct (len p =? 0) eqn:Hl; zify_bool; cbn [negb].
  { apply Hskip. by apply norm_record_zero. }
  unfold address_attr.
  destruct (stun_write_value_mapped_address 32 (addr p) (len p) (generate_mask (transaction_id m))) as [n v] eqn:E.
  unfold attr_if. destruct (0 <? n) eqn:Hnp; zify_bool.
  2: { apply Hskip. by apply (norm_record_absent p _ n v Hp E). }
  destruct (mapped_roundtrip p (transaction_id m) addr_record_zero n v Ht Hp E Hnp) as (E' & Hlen & _).
  cbn [app read_attrs fst snd]. clear Hskip.
  replace (len (norm_record p) =? 0) with false in * by (symmetry; apply Z.eqb_neq; lia). cbn [negb] in *.
  rewrite lenZ_cons in Hn.
  set (q := norm_record p) in *. set (qs := List.filter _ _) in *. pose proof (lenZ_nonneg qs).
  assert (Hrd : read_value STUN_ATTR_XOR_PEER_ADDRESS v m b = Next (m <| peers := peers m ++ [q] |>, b)).
  { pick_case. replace (lenZ (peers m) <? STUN_MAX_PEER_ADDRESSES) with true by (symmetry; apply Z.ltb_lt; lia).
    rewrite E'. cbn [acc obind]. pose proof (lenZ_nonneg v).
    replace (lenZ v <? 0) with false by (symmetry; apply Z.ltb_ge; lia).
    by replace (len q =? 0) with false by (symmetry; apply Z.eqb_neq; lia). }
  rewrite Hrd. cbn [obind].
  assert (IH' : read_attrs (peer_attrs (transaction_id m) ps) (m <| peers := peers m ++ [q] |>) b =
                Next (m <| peers := (peers m ++ [q]) ++ qs |>, b)).
  { assert (Hn' : lenZ (peers m ++ [q]) + lenZ qs <= STUN_MAX_PEER_ADDRESSES)
      by (rewrite lenZ_app; change (lenZ [q]) with 1; lia).
    pose proof (IH (m <| peers := peers m ++ [q] |>) b) as IH'. cbv [upd] in IH'. cbn [transaction_id peers] in IH'.
    exact (IH' Ht Hps Hn'). }
  rewrite IH'. by rewrite <- app_assoc.
Qed.

Lemma rd_peers tid ps m b :
  transaction_id m = tid -> tid_ok tid -> Forall record_wf ps -> peers m = [] ->
  lenZ (read_peers ps) <= STUN_MAX_PEER_ADDRESSES ->
  read_attrs (peer_attrs tid ps) m b = Next (m <| peers := read_peers ps |>, b).
Proof.
  intros <- Ht Hps Hm Hn. rewrite rd_peers_tid; rewrite ?Hm; done.
Qed.

(** ** All attributes *)

(** The messages the protocol code builds, with their fields in range. *)
Record readable (msg : stun_message) : Prop := {
  r_class : In (msg_class msg) [STUN_CLASS_REQUEST; STUN_CLASS_INDICATION; STUN_CLASS_RESP_SUCCESS; STUN_CLASS_RESP_ERROR];
  r_method : 0 <= msg_method msg < 65536 /\ Z.land (msg_method msg) STUN_CLASS_MASK = 0;
  r_error : 0 <= error_code msg < 800;
  r_priority : 0 <= priority msg < 2 ^ 32;
  r_lifetime : 0 <= lifetime msg < 2 ^ 32;
  r_channel : 0 <= channel_number msg < 65536;
  r_even_port : even_port msg = false;
  r_peers : lenZ (read_peers (peers msg)) <= STUN_MAX_PEER_ADDRESSES
}.

(** What the attributes before the credentials tell. *)
Definition received_plain (msg : stun_message) : stun_message :=
  mkMessage (msg_class msg) (msg_method msg) (transaction_id msg) (error_code msg) (priority msg)
    (ice_controlling msg) (ice_controlled msg) (use_candidate msg) (norm_record (mapped msg)) stun_credentials_zero
    false false (read_peers (peers msg)) (norm_record (relayed msg)) addr_record_zero (data msg)
    (if isSome (data msg) then data_size msg else 0) (lifetime msg) (channel_number msg)
    (lifetime_set msg || negb (lifetime msg =? 0)) false false (dont_fragment msg) (requested_transport msg)
    (reservation_token msg).

Definition fresh (msg : stun_message) : stun_message :=
  stun_message_zero <| msg_class := msg_class msg |> <| msg_method := msg_method msg |>
    <| transaction_id := transaction_id msg |>.

(** Read one attribute that is written under a condition. *)
Ltac rd_if lem := rewrite read_attrs_app; erewrite read_attrs_if; cbn [obind];
  [| intros _; apply lem; try assumption | simpl; intros Hz; zify_bool; rewrite ?Hz; reflexivity ]; simpl upd.
Ltac rd_addr get set := rewrite read_attrs_app;
  rewrite (rd_address _ _ _ get set) by (done || (intros; by pick_case)); cbn [obind]; simpl upd.

Ltac rd_with set tac1 tac2 := rewrite read_attrs_app;
  match goal with |- context [read_attrs (attr_if ?c ?t ?v) ?m ?b] =>
    rewrite (read_attrs_if c t v m (set m) b); cbv beta; cbn [obind];
    [ simpl upd | intros Hc; tac1 Hc | intros Hc; tac2 Hc ] end.
Ltac rd_flag set lem := rd_with set ltac:(fun Hc => rewrite Hc; apply lem) ltac:(fun Hc => rewrite Hc; reflexivity).

Lemma read_plain msg indeterminate b :
  writable msg indeterminate -> readable msg ->
  read_attrs (plain_attrs msg) (fresh msg) b = Next (received_plain msg, b).
Proof.
  intros [Ht Hmap Hrel Hpeers Hdata Hctl Hctd Hres _ _ _] [_ _ Herr Hprio Hlife Hchan Heven Hnp].
  unfold plain_attrs, fresh. simpl upd.
  rd_if rd_error.
  rd_addr mapped (fun r m => m <| mapped := r |>).
  rd_if rd_priority.
  rd_flag (fun m => m <| use_candidate := use_candidate msg |>) rd_use_candidate.
  rd_if rd_controlling. rd_if rd_controlled. rd_if rd_channel.
  rd_with (fun m => m <| lifetime := lifetime msg |> <| lifetime_set := lifetime_set msg || negb (lifetime msg =? 0) |>)
    ltac:(fun Hc => rewrite Hc; by apply rd_lifetime)
    ltac:(fun Hc => apply orb_false_iff in Hc as [Hs Hl]; zify_bool; rewrite Hs, Hl; reflexivity).
  rewrite read_attrs_app, (rd_peers (transaction_id msg)) by done. cbn [obind]. simpl upd.
  rd_addr relayed (fun r m => m <| relayed := r |>).
  rd_with (fun m => m <| data := data msg |> <| data_size := if isSome (data msg) then data_size msg else 0 |>)
    ltac:(fun Hc => rewrite Hc, (Hdata Hc); destruct (data msg); [apply rd_data | done])
    ltac:(fun Hc => destruct (data msg); done).
  rewrite Heven. cbn [attr_if app].
  rd_flag (fun m => m <| requested_transport := requested_transport msg |>) rd_transport.
  rd_flag (fun m => m <| dont_fragment := dont_fragment msg |>) rd_fragment.
  rd_if rd_reservation.
  cbn [app read_attrs fst snd]. by rewrite rd_software.
Qed.

(** *** Credentials *)
Definition c_string (n : Z) (s : list Z) : Prop := Forall (fun b => b <> 0) s /\ lenZ s + 1 <= n.

Record credentials_ok (msg : stun_message) : Prop := {
  c_username : c_string STUN_MAX_USERNAME_LEN (username (credentials msg));
  c_realm : c_string STUN_MAX_REALM_LEN (realm (credentials msg));
  c_nonce : c_string STUN_MAX_NONCE_LEN (nonce (credentials msg));
  c_userhash : lenZ (userhash (credentials msg)) = USERHASH_SIZE;
  c_algorithm : 0 <= password_algorithm (credentials msg) <= 2;
  c_algorithms : 0 < password_algorithm (credentials msg) ->
    let v := password_algorithms_value (credentials msg) in
    4 <= lenZ v <= STUN_MAX_PASSWORD_ALGORITHMS_VALUE_SIZE /\
    (msg_class msg = STUN_CLASS_REQUEST -> exists r, read_algorithms (length v) v 0 = Some (inr r))
}.

Definition is_request (msg : stun_message) : bool := msg_class msg =? STUN_CLASS_REQUEST.
Definition sends_nonce (msg : stun_message) : bool := sends_realm msg && is_cons (nonce (credentials msg)).

(** The credentials a reader learns: a request names its user or the hash of
    its user; realm, nonce and algorithms are in requests and in the two error
    responses that ask for them. *)
Definition received_credentials (msg : stun_message) : stun_credentials :=
  let c := credentials msg in
  mkCredentials
    (if is_request msg && negb (enable_userhash c) then username c else [])
    (if sends_realm msg then realm c else [])
    (if sends_nonce msg then nonce c else [])
    (if is_request msg && enable_userhash c then userhash c else replicate 32 0)
    (is_request msg && enable_userhash c)
    (if sends_nonce msg && is_request msg then password_algorithm c else STUN_PASSWORD_ALGORITHM_UNSET)
    (if sends_nonce msg then
       if 0 <? password_algorithm c then password_algorithms_value c
       else if is_request msg then [] else generate_password_algorithms_attr
     else []).

Definition received_bits (msg : stun_message) : Z :=
  if sends_nonce msg then default 0 (read_nonce_bits msg 0) else 0.

Definition with_credentials (m : stun_message) (c : stun_credentials) : stun_message := m <| credentials := c |>.

Lemma rd_username s m c b : c_string STUN_MAX_USERNAME_LEN s ->
  read_value STUN_ATTR_USERNAME s (with_credentials m c) b = Next (with_credentials m (c <| username := s |>), b).
Proof.
  intros [Hs Hl]. pick_case. replace (STUN_MAX_USERNAME_LEN <? lenZ s + 1) with false by (symmetry; apply Z.ltb_ge; lia).
  by rewrite cstr_no_nul.
Qed.

Lemma rd_userhash s m c b : lenZ s = USERHASH_SIZE ->
  read_value STUN_ATTR_USERHASH s (with_credentials m c) b =
  Next (with_credentials m (c <| userhash := s |> <| enable_userhash := true |>), b).
Proof. intros Hl. pick_case. by rewrite Hl. Qed.

Lemma rd_realm s m c b : c_string STUN_MAX_REALM_LEN s ->
  read_value STUN_ATTR_REALM s (with_credentials m c) b = Next (with_credentials m (c <| realm := s |>), b).
Proof.
  intros [Hs Hl]. pick_case. replace (STUN_MAX_REALM_LEN <? lenZ s + 1) with false by (symmetry; apply Z.ltb_ge; lia).
  by rewrite cstr_no_nul.
Qed.

Lemma read_nonce_bits_ext m m' b :
  msg_class m = msg_class m' -> nonce (credentials m) = nonce (credentials m') -> read_nonce_bits m b = read_nonce_bits m' b.
Proof. intros H1 H2. unfold read_nonce_bits. by rewrite H1, H2. Qed.

Lemma rd_nonce s m c b msg : c_string STUN_MAX_NONCE_LEN s ->
  msg_class msg = msg_class m -> nonce (credentials msg) = s ->
  read_value STUN_ATTR_NONCE s (with_credentials m c) b =
  Next (with_credentials m (c <| nonce := s |>), default 0 (read_nonce_bits msg b)).
Proof.
  intros [Hs Hl] Hcl Hn. pick_case. replace (STUN_MAX_NONCE_LEN <? lenZ s + 1) with false by (symmetry; apply Z.ltb_ge; lia).
  rewrite cstr_no_nul by done.
  rewrite (read_nonce_bits_ext _ msg b) by (by rewrite ?Hcl, ?Hn).
  destruct (read_nonce_bits_safe msg b) as [bits ->]. reflexivity.
Qed.

Lemma rd_algorithms_response v m c b : 4 <= lenZ v <= STUN_MAX_PASSWORD_ALGORITHMS_VALUE_SIZE ->
  STUN_IS_RESPONSE (msg_class m) = true ->
  read_value STUN_ATTR_PASSWORD_ALGORITHMS v (with_credentials m c) b =
  Next (with_credentials m (c <| password_algorithms_value := v |>), b).
Proof.
  intros Hl Hr. pick_case. replace (lenZ v <? 4) with false by (symmetry; apply Z.ltb_ge; lia).
  replace (STUN_MAX_PASSWORD_ALGORITHMS_VALUE_SIZE <? lenZ v) with false by (symmetry; apply Z.ltb_ge; lia).
  change (msg_class (with_credentials m c)) with (msg_class m). by rewrite Hr.
Qed.

Lemma rd_algorithms_request v m c b r : 4 <= lenZ v <= STUN_MAX_PASSWORD_ALGORITHMS_VALUE_SIZE ->
  STUN_IS_RESPONSE (msg_class m) = false -> read_algorithms (length v) v 0 = Some (inr r) ->
  read_value STUN_ATTR_PASSWORD_ALGORITHMS v (with_credentials m c) b =
  Next (with_credentials m (c <| password_algorithms_value := v |>
                              <| password_algorithm := default (password_algorithm c) r |>), b).
Proof.
  intros Hl Hr Ha. pick_case. replace (lenZ v <? 4) with false by (symmetry; apply Z.ltb_ge; lia).
  replace (STUN_MAX_PASSWORD_ALGORITHMS_VALUE_SIZE <? lenZ v) with false by (symmetry; apply Z.ltb_ge; lia).
  change (msg_class (with_credentials m c)) with (msg_class m). rewrite Hr, Ha. by destruct r, c.
Qed.

Lemma rd_algorithm a rest m c b : 1 <= a <= 2 -> STUN_IS_RESPONSE (msg_class m) = false -> lenZ rest = 2 ->
  read_value STUN_ATTR_PASSWORD_ALGORITHM (be_bytes 2 a ++ rest) (with_credentials m c) b =
  Next (with_credentials m (c <| password_algorithm := a |>), b).
Proof.
  intros Ha Hr Hl. pick_case. rewrite lenZ_app, lenZ_be_bytes, Hl.
  change (msg_class (with_credentials m c)) with (msg_class m). rewrite Hr.
  rewrite (load16_be [] a rest eq_refl ltac:(lia) : load16 0 (be_bytes 2 a ++ rest) = _).
  cbn [Z.of_nat Z.add Z.ltb Z.compare acc obind]. rewrite bswap16_involutive by lia.
  assert (Hk : known_algorithm a = true) by (assert (a = 1 \/ a = 2) as [-> | ->] by lia; reflexivity).
  by rewrite Hk.
Qed.

Lemma rd_integrity v m b : lenZ v = HMAC_SHA1_SIZE ->
  read_value STUN_ATTR_MESSAGE_INTEGRITY v m b = Next (m <| has_integrity := true |>, b).
Proof. intros Hl. pick_case. by rewrite Hl. Qed.
Lemma rd_integrity_sha256 v m b : lenZ v = HMAC_SHA256_SIZE ->
  read_value STUN_ATTR_MESSAGE_INTEGRITY_SHA256 v m b = Next (m <| has_integrity := true |>, b).
Proof. intros Hl. pick_case. by rewrite Hl. Qed.

Lemma is_response_request : STUN_IS_RESPONSE STUN_CLASS_REQUEST = false.
Proof. reflexivity. Qed.
Lemma is_response_error : STUN_IS_RESPONSE STUN_CLASS_RESP_ERROR = true.
Proof. reflexivity. Qed.

Lemma sends_realm_class msg : sends_realm msg = true ->
  msg_class msg = STUN_CLASS_REQUEST \/ msg_class msg = STUN_CLASS_RESP_ERROR.
Proof. unfold sends_realm. intros [Hc|Hc]%orb_true_iff; zify_bool; auto. Qed.

Lemma read_credentials msg indeterminate m :
  credentials_ok msg -> lenZ indeterminate = 2 -> msg_class m = msg_class msg ->
  read_attrs (credential_attrs msg indeterminate) (with_credentials m stun_credentials_zero) 0 =
  Next (with_credentials m (received_credentials msg), received_bits msg).
Proof.
  intros [Hu Hre Hno Huh Halg Halgs] Hind Hcl.
  unfold credential_attrs, received_credentials, received_bits, sends_nonce, is_request. cbv zeta.
  set (c := credentials msg) in *. rewrite read_attrs_app.
  (* the user *)
  destruct (msg_class msg =? STUN_CLASS_REQUEST) eqn:Hreq; cbn [andb negb]; cbv iota.
  - assert (Hsr : sends_realm msg = true) by (unfold sends_realm; by rewrite Hreq). rewrite Hsr. cbn [andb].
    apply Z.eqb_eq in Hreq. rewrite Hreq in Hcl.
    set (c1 := stun_credentials_zero <| username := if negb (enable_userhash c) then username c else [] |>
               <| userhash := if enable_userhash c then userhash c else replicate 32 0 |>
               <| enable_userhash := enable_userhash c |>).
    match goal with |- obind ?X _ = _ => assert (H1 : X = Next (with_credentials m c1, 0)) end.
    { subst c1. destruct (enable_userhash c) eqn:Ee; cbn [negb].
      - cbn [app read_attrs fst snd]. by rewrite rd_userhash.
      - apply read_attrs_if; [intros _; by rewrite rd_username|]. intros Hnil. by destruct (username c). }
    rewrite H1. cbn [obind]. clear H1. rewrite read_attrs_app.
    rewrite (read_attrs_if _ _ _ _ (with_credentials m (c1 <| realm := realm c |>)));
      [| intros _; by apply rd_realm | intros Hnil; by destruct (realm c)]. cbn [obind].
    set (c2 := c1 <| realm := realm c |>).
    destruct (is_cons (nonce c)) eqn:Hn; [|subst c2 c1; by destruct (nonce c)].
    rewrite !read_attrs_app. cbn [app read_attrs fst snd].
    rewrite (rd_nonce _ _ _ _ msg) by (done || by rewrite Hcl). cbn [obind].
    assert (Hb0 : default 0 (read_nonce_bits msg 0) = 0) by (unfold read_nonce_bits; by rewrite Hreq).
    rewrite Hb0. destruct (0 <? password_algorithm c) eqn:Hpa; zify_bool.
    + destruct (Halgs Hpa) as [Hlv Hr]. destruct (Hr Hreq) as [r Hr']. cbn [app read_attrs fst snd].
      rewrite (rd_algorithms_request _ _ _ _ r) by (done || by rewrite Hcl). cbn [obind].
      replace (password_algorithm c =? STUN_PASSWORD_ALGORITHM_UNSET) with false
        by (symmetry; apply Z.eqb_neq; unfold STUN_PASSWORD_ALGORITHM_UNSET; lia).
      cbn [negb attr_if read_attrs fst snd]. rewrite rd_algorithm by (done || lia || by rewrite Hcl). reflexivity.
    + assert (Hz : password_algorithm c = 0) by lia. rewrite Hz. reflexivity.
  - cbn [read_attrs obind]. destruct (sends_realm msg) eqn:Hsr; [|reflexivity]. cbn [andb].
    destruct (sends_realm_class msg Hsr) as [Hc|Hc]; [by rewrite Hc in Hreq|]. rewrite Hc in Hcl.
    rewrite read_attrs_app.
    rewrite (read_attrs_if _ _ _ _ (with_credentials m (stun_credentials_zero <| realm := realm c |>)));
      [| intros _; by apply rd_realm | intros Hnil; by destruct (realm c)]. cbn [obind].
    destruct (is_cons (nonce c)) eqn:Hn; [|by destruct (nonce c)].
    rewrite !read_attrs_app. cbn [andb attr_if app read_attrs fst snd].
    rewrite (rd_nonce _ _ _ _ msg) by (done || by rewrite Hcl). cbn [obind].
    destruct (0 <? password_algorithm c) eqn:Hpa; zify_bool.
    + destruct (Halgs Hpa) as [Hlv _]. cbn [andb attr_if app read_attrs fst snd].
      rewrite rd_algorithms_response by (done || by rewrite Hcl). reflexivity.
    + cbn [andb negb attr_if app read_attrs fst snd].
      rewrite rd_algorithms_response by (done || by rewrite Hcl). reflexivity.
Qed.

(** ** The loop *)
Definition attr_ok (a : Z * list Z) : Prop :=
  0 <= a.1 < 65536 /\ ~ In a.1 [STUN_ATTR_FINGERPRINT; STUN_ATTR_MESSAGE_INTEGRITY; STUN_ATTR_MESSAGE_INTEGRITY_SHA256] /\
  lenZ a.2 < 65536.

(** Reading a value never touches the fingerprint flag, nor the integrity flag
    unless it is an integrity attribute. *)
Lemma read_value_flags t v m b m' b' :
  read_value t v m b = Next (m', b') -> attr_ok (t, v) ->
  has_integrity m' = has_integrity m /\ has_fingerprint m' = has_fingerprint m /\ msg_class m' = msg_class m.
Proof.
  intros E (_ & Ht & _). cbn [fst] in Ht. revert E. unfold read_value, read_ice_value, read_turn_value. cbv zeta.
  assert (Haddr : forall r mask set, read_address v (lenZ v) r mask set b = Next (m', b') -> exists r', m' = set r').
  { intros r mask set E. unfold read_address in E. destruct (stun_read_value_mapped_address _ _ _ _) as [[r' ret]|]; [|done].
    cbn in E. destruct (ret <? 0); [done|]. injection E as <- _. by eexists. }
  repeat match goal with
  | |- context [if ?c then _ else _] =>
    lazymatch c with t =? ?k => destruct (Z.eqb_spec t k) as [->|] end;
    [first [exfalso; apply Ht; simpl; tauto | idtac] |]
  end;
  intros E;
  repeat match type of E with
  | read_address _ _ _ _ _ _ = _ => let r := fresh "r" in apply Haddr in E as [r ->]; cbn; done
  | (if ?c then _ else _) = _ => destruct c
  | obind (acc ?x) _ = _ => destruct x; cbn [acc obind] in E
  | (match ?x with _ => _ end) = _ => destruct x
  | Return _ = Next _ => discriminate E
  | UB = Next _ => discriminate E
  | Next _ = Next _ => injection E as <- _; try (case_match; done); done
  end.
Qed.

(** Attributes are laid out behind [pre]. *)
Lemma tlv_loads pre t v post :
  0 <= t < 65536 -> lenZ v < 65536 ->
  load16 (lenZ pre) (pre ++ tlv t v ++ post) = Some (htons t) /\
  load16 (lenZ pre + 2) (pre ++ tlv t v ++ post) = Some (htons (lenZ v)) /\
  load (lenZ pre + 4) (lenZ v) (pre ++ tlv t v ++ post) = Some v.
Proof.
  intros Ht Hv. pose proof (lenZ_nonneg v). unfold tlv. split_and!.
  - pose proof (load16_be pre t ((be_bytes 2 (lenZ v) ++ v ++ padding (lenZ v)) ++ post) eq_refl Ht) as E.
    rewrite <- E. reflexivity.
  - pose proof (load16_be (pre ++ be_bytes 2 t) (lenZ v) ((v ++ padding (lenZ v)) ++ post) eq_refl ltac:(lia)) as E.
    rewrite lenZ_app, lenZ_be_bytes in E. rewrite <- (app_assoc pre) in E. exact E.
  - replace (pre ++ (be_bytes 2 t ++ be_bytes 2 (lenZ v) ++ v ++ padding (lenZ v)) ++ post)
      with ((pre ++ be_bytes 2 t ++ be_bytes 2 (lenZ v)) ++ v ++ (padding (lenZ v) ++ post))
      by (by rewrite <- !app_assoc).
    apply load_mid; [|done]. rewrite !lenZ_app, !lenZ_be_bytes. lia.
Qed.

Lemma ntohs_htons x : 0 <= x < 65536 -> ntohs (htons x) = x.
Proof. apply bswap16_involutive. Qed.

Lemma read_attr_tlv pre t v post end_ m b m' b' :
  0 <= t < 65536 -> t <> STUN_ATTR_FINGERPRINT -> lenZ v < 65536 -> has_fingerprint m = false ->
  has_integrity m = false \/ t = STUN_ATTR_MESSAGE_INTEGRITY \/ t = STUN_ATTR_MESSAGE_INTEGRITY_SHA256 ->
  lenZ pre + lenZ (tlv t v) <= end_ -> read_value t v m b = Next (m', b') ->
  stun_read_attr (pre ++ tlv t v ++ post) (lenZ pre) (end_ - lenZ pre) m sizeof_stun_header b =
  Some (pre ++ tlv t v ++ post, m', b', lenZ (tlv t v)).
Proof.
  intros Ht Hfp Hv Hf Hi Hend E. destruct (tlv_loads pre t v post Ht Hv) as (L1 & L2 & L3).
  pose proof (lenZ_nonneg v). pose proof (align32_bounds (lenZ v)). rewrite lenZ_tlv in *.
  unfold stun_read_attr, sizeof_stun_attr. rewrite Hf, L1, L2.
  replace (end_ - lenZ pre <? 4) with false by (symmetry; apply Z.ltb_ge; lia). cbn [acc obind]. cbv zeta.
  rewrite !ntohs_htons by lia.
  replace (end_ - lenZ pre <? 4 + lenZ v) with false by (symmetry; apply Z.ltb_ge; lia).
  rewrite L3. cbn [acc obind].
  assert (Hallow : has_integrity m && negb (t =? STUN_ATTR_MESSAGE_INTEGRITY) &&
                   negb (t =? STUN_ATTR_MESSAGE_INTEGRITY_SHA256) && negb (t =? STUN_ATTR_FINGERPRINT) = false).
  { destruct Hi as [-> | [-> | ->]]; [done | |]; by destruct (has_integrity m). }
  rewrite Hallow. replace (t =? STUN_ATTR_FINGERPRINT) with false by (symmetry; by apply Z.eqb_neq).
  rewrite E. reflexivity.
Qed.

Lemma read_loop_step fuel pre t v post end_ m b m' b' :
  0 <= t < 65536 -> t <> STUN_ATTR_FINGERPRINT -> lenZ v < 65536 -> has_fingerprint m = false ->
  has_integrity m = false \/ t = STUN_ATTR_MESSAGE_INTEGRITY \/ t = STUN_ATTR_MESSAGE_INTEGRITY_SHA256 ->
  lenZ pre + lenZ (tlv t v) <= end_ -> read_value t v m b = Next (m', b') ->
  stun_read_loop (S fuel) (pre ++ tlv t v ++ post) (lenZ pre) end_ m b =
  stun_read_loop fuel ((pre ++ tlv t v) ++ post) (lenZ (pre ++ tlv t v)) end_ m' b'.
Proof.
  intros Ht Hfp Hv Hf Hi Hend E. cbn [stun_read_loop].
  pose proof (align32_bounds (lenZ v)). pose proof (lenZ_nonneg v). pose proof (lenZ_tlv t v).
  replace (lenZ pre <? end_) with true by (symmetry; apply Z.ltb_lt; lia).
  rewrite (read_attr_tlv pre t v post end_ m b m' b') by done.
  replace (lenZ (tlv t v) <=? 0) with false by (symmetry; apply Z.leb_gt; lia).
  by rewrite lenZ_app, <- app_assoc.
Qed.

Lemma read_loop_attrs l : forall fuel pre post end_ m b m' b',
  Forall attr_ok l -> has_fingerprint m = false -> has_integrity m = false ->
  lenZ pre + lenZ (encode_attrs l) <= end_ -> read_attrs l m b = Next (m', b') ->
  stun_read_loop (length l + fuel) (pre ++ encode_attrs l ++ post) (lenZ pre) end_ m b =
  stun_read_loop fuel ((pre ++ encode_attrs l) ++ post) (lenZ (pre ++ encode_attrs l)) end_ m' b'.
Proof.
  induction l as [|[t v] l IH]; intros fuel pre post end_ m b m' b' Hl Hf Hi Hend E.
  - injection E as <- <-. rewrite encode_attrs_nil, app_nil_r. done.
  - apply Forall_cons_1 in Hl as [Ha Hl]. pose proof Ha as (Ht & Hn & Hv). cbn [fst snd] in *.
    cbn [read_attrs fst snd] in E. rewrite encode_attrs_cons in *. rewrite lenZ_app in Hend.
    destruct (read_value t v m b) as [|?|[m1 b1]] eqn:E1; [done|done|]. cbn [obind] in E.
    destruct (read_value_flags _ _ _ _ _ _ E1 Ha) as (Hi1 & Hf1 & _).
    pose proof (lenZ_nonneg (encode_attrs l)). cbn [length Nat.add].
    rewrite <- app_assoc.
    rewrite (read_loop_step _ pre t v _ end_ m b m1 b1);
      [| done | intros ->; apply Hn; simpl; tauto | done | done | by left | lia | done].
    rewrite (IH fuel (pre ++ tlv t v) post end_ m1 b1 m' b'); [| done | congruence | congruence | rewrite lenZ_app; lia | done].
    by rewrite <- !app_assoc.
Qed.
End Roundtrip.
