(* ===== verification/StunExchange.v ===== *)
(** * Writing a STUN message and reading it back

    The round trip of a whole message, and what the integrity check says of a
    message that was written. *)

From S2P Require Import Prelude Addr Crc32 Base64 ConstTime StunMsg StunWrite StunCodec StunWriteCorrect StunRead.
From S2P Require Import StunReadSafe StunRoundtrip.

Section Exchange.
Context `{Platform, Hashes}.

(** ** The attributes that are written are of the kinds the reader reads *)
Definition kind_ok (a : Z * list Z) : Prop :=
  0 <= a.1 < 65536 /\ ~ In a.1 [STUN_ATTR_FINGERPRINT; STUN_ATTR_MESSAGE_INTEGRITY; STUN_ATTR_MESSAGE_INTEGRITY_SHA256].

Lemma attr_if_kind (c : bool) t v : kind_ok (t, v) -> Forall kind_ok (attr_if c t v).
Proof. intros Hk. destruct c; repeat constructor; apply Hk. Qed.

Ltac kind := vm_compute; split; [split; [discriminate | reflexivity] | intros Hin; decompose [or] Hin; done].

Lemma address_kind t tid r : kind_ok (t, []) -> Forall kind_ok (address_attr t tid r).
Proof.
  intros Hk. unfold address_attr. destruct (stun_write_value_mapped_address _ _ _ _) as [n v]. by apply attr_if_kind.
Qed.

Lemma plain_kinds msg : Forall kind_ok (plain_attrs msg).
Proof.
  unfold plain_attrs. rewrite !Forall_app. split_and!; try (apply attr_if_kind; kind).
  - case_match; [apply address_kind; kind | constructor].
  - unfold peer_attrs. induction (peers msg) as [|p ps IH]; [constructor|]. cbn [fmap list_fmap concat].
    apply Forall_app_2; [|exact IH]. case_match; [apply address_kind; kind | constructor].
  - case_match; [apply address_kind; kind | constructor].
  - apply Forall_cons_2; [kind | apply Forall_nil_2].
Qed.

Lemma credential_kinds msg ind : Forall kind_ok (credential_attrs msg ind).
Proof.
  unfold credential_attrs. cbv zeta. apply Forall_app_2.
  - case_match; [|constructor]. case_match; [apply Forall_cons_2; [kind | apply Forall_nil_2] | apply attr_if_kind; kind].
  - case_match; [|constructor]. apply Forall_app_2; [apply attr_if_kind; kind|].
    case_match; [|constructor]. apply Forall_app_2; [apply Forall_cons_2; [kind | apply Forall_nil_2]|].
    apply Forall_app_2; [|apply attr_if_kind; kind].
    case_match; [apply Forall_cons_2; [kind | apply Forall_nil_2] | apply attr_if_kind; kind].
Qed.

Lemma encode_attrs_le a l : In a l -> lenZ a.2 <= lenZ (encode_attrs l).
Proof.
  induction l as [|[t v] l IH]; [done|]. rewrite encode_attrs_cons, lenZ_app, lenZ_tlv.
  pose proof (align32_bounds (lenZ v)). pose proof (lenZ_nonneg (encode_attrs l)). pose proof (lenZ_nonneg v).
  intros [<-|Hin]; cbn [snd]; [lia|]. pose proof (IH Hin). lia.
Qed.

Lemma kinds_attr_ok l : Forall kind_ok l -> lenZ (encode_attrs l) < 65536 -> Forall attr_ok l.
Proof.
  intros Hk Hl. rewrite List.Forall_forall in *. intros a Ha.
  destruct (Hk a Ha) as [H1 H2]. pose proof (encode_attrs_le a l Ha). split_and!; [lia | lia | done | lia].
Qed.

(** ** The header *)
Lemma land_lnot_disjoint a k : Z.land a k = 0 -> Z.land a (Z.lnot k) = a.
Proof.
  intros Hd. apply Z.bits_inj'. intros i Hi. rewrite Z.land_spec, Z.lnot_spec by lia.
  assert (Hb : Z.testbit a i && Z.testbit k i = false) by (rewrite <- Z.land_spec, Hd; apply Z.bits_0).
  destruct (Z.testbit a i), (Z.testbit k i); done.
Qed.

Definition type_of (msg : stun_message) : Z := Z.lor (u16 (msg_class msg)) (u16 (msg_method msg)).

Lemma type_facts msg : readable msg ->
  0 <= type_of msg < 65536 /\ Z.land (type_of msg) STUN_CLASS_MASK = msg_class msg /\
  Z.land (type_of msg) (Z.lnot STUN_CLASS_MASK) = msg_method msg.
Proof.
  intros [Hc [Hm Hd] _ _ _ _ _ _]. unfold type_of.
  assert (Hcr : 0 <= msg_class msg < 65536 /\ Z.land (msg_class msg) STUN_CLASS_MASK = msg_class msg /\
                Z.land (msg_class msg) (Z.lnot STUN_CLASS_MASK) = 0).
  { destruct Hc as [<-|[<-|[<-|[<-|[]]]]]; (split; [unfold STUN_CLASS_REQUEST, STUN_CLASS_INDICATION, STUN_CLASS_RESP_SUCCESS, STUN_CLASS_RESP_ERROR; lia | done]). }
  destruct Hcr as (Hcr & Hc1 & Hc2). rewrite !wrap_small by (change (2 ^ 16) with 65536; lia).
  split; [apply (lor_range 16); lia|]. rewrite !Z.land_lor_distr_l, Hc1, Hc2, Hd, (land_lnot_disjoint _ _ Hd).
  rewrite Z.lor_0_r, Z.lor_0_l. done.
Qed.

Lemma header_loads msg ind n tl :
  writable msg ind -> readable msg -> 0 <= n < 65536 ->
  load16 0 (header_bytes msg n ++ tl) = Some (htons (type_of msg)) /\
  load16 2 (header_bytes msg n ++ tl) = Some (htons n) /\
  load 8 12 (header_bytes msg n ++ tl) = Some (transaction_id msg) /\
  load32 4 (header_bytes msg n ++ tl) = Some (htonl STUN_MAGIC) /\
  lenZ (header_bytes msg n ++ tl) = 20 + lenZ tl.
Proof.
  intros Hw Hr Hn. destruct (type_facts msg Hr) as [Ht _].
  pose proof (w_tid _ _ Hw) as [Htid _]. rewrite lenZ_app, (lenZ_header msg ind Hw).
  unfold header_bytes. fold (type_of msg). rewrite <- !app_assoc. split_and!.
  - exact (load16_be [] (type_of msg) _ eq_refl Ht).
  - exact (load16_be (be_bytes 2 (type_of msg)) n _ eq_refl Hn).
  - assert (Hl : 12 = lenZ (transaction_id msg)) by (unfold lenZ; lia).
    rewrite (app_assoc (be_bytes 2 (type_of msg))), (app_assoc _ (be_bytes 4 STUN_MAGIC)).
    apply load_mid; [done | exact Hl].
  - rewrite (app_assoc (be_bytes 2 (type_of msg))).
    apply (load32_be (be_bytes 2 (type_of msg) ++ be_bytes 2 n) STUN_MAGIC). unfold STUN_MAGIC. lia.
  - lia.
Qed.

(** Patching the length of a written header, and putting it back. *)
Lemma header_update msg ind n n' tl :
  writable msg ind -> 0 <= n < 65536 ->
  stun_update_header_length (header_bytes msg n ++ tl) n' = Some (header_bytes msg n' ++ tl, n).
Proof.
  intros Hw Hn. destruct (update_header 0 ltac:(lia) msg n n' tl) as [prev E].
  assert (Hp : prev = n); [|by rewrite E, Hp].
  unfold stun_update_header_length in E.
  assert (L : load16 2 (header_bytes msg n ++ tl) = Some (htons n)).
  { unfold header_bytes. rewrite <- !app_assoc. exact (load16_be (be_bytes 2 _) n _ eq_refl Hn). }
  rewrite L in E. destruct (store 2 _ _); [|done]. injection E as _ <-. by apply ntohs_htons.
Qed.

Lemma load_prefix (pre post : list Z) : load 0 (lenZ pre) (pre ++ post) = Some pre.
Proof. exact (load_mid 0 (lenZ pre) [] pre post eq_refl eq_refl). Qed.

Lemma covered_split msg body n post :
  covered msg body n ++ post = header_bytes msg (lenZ body + 4 + n) ++ body ++ post.
Proof. unfold covered. by rewrite <- app_assoc. Qed.

Lemma lenZ_covered msg ind body n : writable msg ind -> lenZ (covered msg body n) = 20 + lenZ body.
Proof. intros Hw. unfold covered. by rewrite lenZ_app, (lenZ_header msg ind Hw). Qed.

Lemma fingerprint_range text : bytes_ok text -> 0 <= fingerprint_of text < 2 ^ 32.
Proof.
  intros Ht. unfold fingerprint_of. apply lxor_range; [lia| |unfold STUN_FINGERPRINT_XOR; lia].
  unfold crc32_ref. apply lxor_range; [lia| |unfold CRC32_XOR; lia]. apply crc32_fold_u32; [|done].
  unfold is_u32, CRC32_INIT. lia.
Qed.

(** The fingerprint of a written message is accepted and ends the message. *)
Lemma read_fingerprint msg ind body post m b fuel :
  writable msg ind -> bytes_ok body -> 0 <= lenZ body + 8 < 65536 -> has_fingerprint m = false ->
  let mem := header_bytes msg (lenZ body + 8) ++ body ++ fingerprint_attr msg body ++ post in
  stun_read_loop (S fuel) mem (20 + lenZ body) (20 + (lenZ body + 8)) m b =
  Some (inr (mem, m <| has_fingerprint := true |>, b)).
Proof.
  intros Hw Hb Hl Hf mem. pose proof (lenZ_nonneg body).
  set (fp := fingerprint_of (covered msg body 4)).
  assert (Hcb : bytes_ok (covered msg body 4)) by (by apply (covered_bytes msg ind)).
  pose proof (fingerprint_range _ Hcb) as Hfr. fold fp in Hfr.
  set (pre := header_bytes msg (lenZ body + 8) ++ body).
  assert (Hpre : lenZ pre = 20 + lenZ body) by (subst pre; by rewrite lenZ_app, (lenZ_header msg ind Hw)).
  assert (Hmem : mem = pre ++ tlv STUN_ATTR_FINGERPRINT (be_bytes 4 fp) ++ post) by (subst mem pre; by rewrite <- app_assoc).
  destruct (tlv_loads pre STUN_ATTR_FINGERPRINT (be_bytes 4 fp) post) as (L1 & L2 & L3);
    [unfold STUN_ATTR_FINGERPRINT; lia | rewrite lenZ_be_bytes; lia |]. rewrite <- Hmem, Hpre in L1, L2, L3.
  rewrite lenZ_be_bytes in L2, L3. change (Z.of_nat 4) with 4 in L2, L3.
  assert (Hattr : stun_read_attr mem (20 + lenZ body) (20 + (lenZ body + 8) - (20 + lenZ body)) m sizeof_stun_header b =
    Some (mem, m <| has_fingerprint := true |>, b, 8)).
  { unfold stun_read_attr, sizeof_stun_attr. rewrite Hf.
    replace (20 + (lenZ body + 8) - (20 + lenZ body)) with 8 by lia. cbn [Z.ltb Z.compare Pos.compare Pos.compare_cont].
    rewrite L1, L2. cbn [acc obind]. cbv zeta. rewrite !ntohs_htons by (unfold STUN_ATTR_FINGERPRINT; lia).
    change (8 <? 4 + 4) with false. cbv iota.
    rewrite !Z.eqb_refl. cbn [negb]. rewrite !andb_false_r. rewrite L3. cbn [acc obind].
    change (Z.eqb 4 4) with true. cbn [negb].
    assert (Hck : check_fingerprint mem (20 + lenZ body) sizeof_stun_header (be_bytes 4 fp) = Some (mem, true)).
    { unfold check_fingerprint, sizeof_stun_header, STUN_ATTR_SIZE, sizeof_stun_attr.
      replace (20 + lenZ body - 20 + 4 + 4) with (lenZ body + 8) by lia.
      rewrite (wrap_small 32) by lia. subst mem. rewrite (header_update msg ind) by done. cbv beta iota.
      replace (lenZ body + 8) with (lenZ body + 4 + 4) by lia. rewrite <- covered_split.
      rewrite <- (lenZ_covered msg ind body 4 Hw), load_prefix, (CRC32_total _ Hcb).
      rewrite covered_split, (header_update msg ind) by (done || lia). cbv beta iota.
      rewrite be_value_32, bswap32_involutive by done. subst fp. unfold fingerprint_of.
      by rewrite Z.eqb_refl. }
    rewrite Hck. reflexivity. }
  cbn [stun_read_loop].
  replace (20 + lenZ body <? 20 + (lenZ body + 8)) with true by (symmetry; apply Z.ltb_lt; lia).
  rewrite Hattr. cbn [Z.leb Z.compare].
  destruct fuel; cbn [stun_read_loop];
    (replace (20 + lenZ body + 8 <? 20 + (lenZ body + 8)) with false by (symmetry; apply Z.ltb_ge; lia)); done.
Qed.

(** ** The whole message *)
Definition has_hmac (msg : stun_message) (password : option (list Z)) : bool :=
  negb (msg_class msg =? STUN_CLASS_INDICATION) && isSome password.

(** What a reader learns before the final checks. *)
Definition received (msg : stun_message) (password : option (list Z)) : stun_message :=
  with_credentials (received_plain msg) (received_credentials msg)
    <| has_integrity := has_hmac msg password |> <| has_fingerprint := true |>.

(** The attributes of the body, as a list. *)
Definition body_attrs (msg : stun_message) (password : option (list Z)) (ind : list Z) : attr_list :=
  let l := plain_attrs msg ++ credential_attrs msg ind in
  if has_hmac msg password then
    let key := generate_hmac_key msg password in
    let mi := [(STUN_ATTR_MESSAGE_INTEGRITY, hmac_sha1 (covered msg (encode_attrs l) HMAC_SHA1_SIZE) key)] in
    if negb (password_algorithm (credentials msg) =? STUN_PASSWORD_ALGORITHM_UNSET)
    then l ++ mi ++ [(STUN_ATTR_MESSAGE_INTEGRITY_SHA256,
                      hmac_sha256 (covered msg (encode_attrs (l ++ mi)) HMAC_SHA256_SIZE) key)]
    else l ++ mi
  else l.

Lemma stun_body_attrs msg password ind : stun_body msg password ind = encode_attrs (body_attrs msg password ind).
Proof.
  unfold stun_body, body_attrs, has_hmac, integrity_attr. cbv zeta.
  destruct (negb (msg_class msg =? STUN_CLASS_INDICATION) && isSome password); [|done].
  destruct (negb (password_algorithm (credentials msg) =? STUN_PASSWORD_ALGORITHM_UNSET)).
  - by rewrite (encode_attrs_app _ (_ ++ _)), (encode_attrs_app [_]), !encode_attrs_one, !encode_attrs_app, encode_attrs_one, <- app_assoc.
  - by rewrite (encode_attrs_app _ [_]), encode_attrs_one.
Qed.

Lemma length_encode_attrs l : (length l <= length (encode_attrs l))%nat.
Proof.
  induction l as [|[t v] l IH]; [done|]. rewrite encode_attrs_cons, length_app. cbn [length].
  pose proof (lenZ_tlv t v) as Hl. pose proof (align32_bounds (lenZ v)). pose proof (lenZ_nonneg v). unfold lenZ in *. lia.
Qed.

Lemma read_all msg ind m :
  writable msg ind -> readable msg -> credentials_ok msg -> m = fresh msg ->
  read_attrs (plain_attrs msg ++ credential_attrs msg ind) m 0 =
  Next (with_credentials (received_plain msg) (received_credentials msg), received_bits msg).
Proof.
  intros Hw Hr Hc ->. rewrite read_attrs_app, (read_plain msg ind 0 Hw Hr). cbn [obind].
  apply (read_credentials msg ind (received_plain msg) Hc); [apply Hw | done].
Qed.

Lemma read_body msg password ind post fuel :
  writable msg ind -> readable msg -> credentials_ok msg -> lenZ (stun_body msg password ind) + 8 < 65536 ->
  let body := stun_body msg password ind in
  let h := header_bytes msg (lenZ body + 8) in
  stun_read_loop (length (body_attrs msg password ind) + fuel) (h ++ body ++ post) 20 (20 + (lenZ body + 8)) (fresh msg) 0 =
  stun_read_loop fuel (h ++ body ++ post) (20 + lenZ body) (20 + (lenZ body + 8))
    (with_credentials (received_plain msg) (received_credentials msg) <| has_integrity := has_hmac msg password |>)
    (received_bits msg).
Proof.
  intros Hw Hr Hc Hlen body h.
  assert (Hh : lenZ h = 20) by apply (lenZ_header msg ind Hw). rewrite <- Hh at 1.
  subst body. rewrite stun_body_attrs in *. unfold body_attrs in *. cbv zeta in *.
  set (l := plain_attrs msg ++ credential_attrs msg ind) in *.
  pose proof (read_all msg ind (fresh msg) Hw Hr Hc eq_refl) as Hread. fold l in Hread.
  assert (Hkinds : Forall kind_ok l) by (apply Forall_app_2; [apply plain_kinds | apply credential_kinds]).
  set (m1 := with_credentials (received_plain msg) (received_credentials msg)) in *.
  destruct (has_hmac msg password).
  2: { assert (Hok : Forall attr_ok l) by (apply kinds_attr_ok; [done|lia]).
       rewrite (read_loop_attrs l fuel h post _ _ _ m1 (received_bits msg)) by (done || lia).
       rewrite lenZ_app, Hh, <- app_assoc. done. }
  set (v1 := hmac_sha1 (covered msg (encode_attrs l) HMAC_SHA1_SIZE) (generate_hmac_key msg password)) in *.
  assert (Hv1 : lenZ v1 = HMAC_SHA1_SIZE) by apply hmac_sha1_length.
  set (mi := [(STUN_ATTR_MESSAGE_INTEGRITY, v1)]) in *.
  assert (Hmi : encode_attrs mi = tlv STUN_ATTR_MESSAGE_INTEGRITY v1) by apply encode_attrs_one.
  assert (Hfirst : forall fuel k tl, lenZ (encode_attrs l) + lenZ (encode_attrs mi) <= k -> k < 65536 ->
    stun_read_loop (length (l ++ mi) + fuel) (h ++ encode_attrs l ++ tlv STUN_ATTR_MESSAGE_INTEGRITY v1 ++ tl) (lenZ h) (20 + k) (fresh msg) 0 =
    stun_read_loop fuel (h ++ encode_attrs l ++ tlv STUN_ATTR_MESSAGE_INTEGRITY v1 ++ tl)
      (20 + (lenZ (encode_attrs l) + lenZ (encode_attrs mi))) (20 + k) (m1 <| has_integrity := true |>) (received_bits msg)).
  { intros fuel' k tl Hk Hk2. pose proof (lenZ_nonneg (encode_attrs mi)).
    assert (Hok : Forall attr_ok l) by (apply kinds_attr_ok; [done|lia]).
    rewrite length_app, <- Nat.add_assoc.
    rewrite (read_loop_attrs l _ h _ _ _ _ m1 (received_bits msg)) by (done || lia).
    cbn [length Nat.add].
    rewrite (read_loop_step _ (h ++ encode_attrs l) STUN_ATTR_MESSAGE_INTEGRITY v1 tl _ _ _ (m1 <| has_integrity := true |>) (received_bits msg));
      [| unfold STUN_ATTR_MESSAGE_INTEGRITY; lia | done | rewrite Hv1; unfold HMAC_SHA1_SIZE; lia | done | by left
       | rewrite lenZ_app, Hh, <- Hmi; lia | by apply rd_integrity ].
    rewrite !lenZ_app, Hh, <- Hmi, Z.add_assoc. by rewrite <- !app_assoc. }
  destruct (negb (password_algorithm (credentials msg) =? STUN_PASSWORD_ALGORITHM_UNSET)).
  - set (v2 := hmac_sha256 _ _) in *.
    assert (Hv2 : lenZ v2 = HMAC_SHA256_SIZE) by apply hmac_sha256_length.
    rewrite !encode_attrs_app, !Hmi, encode_attrs_one, !lenZ_app in *.
    pose proof (lenZ_nonneg (tlv STUN_ATTR_MESSAGE_INTEGRITY_SHA256 v2)).
    rewrite (app_assoc l), (length_app (l ++ mi)), <- Nat.add_assoc. cbn [length Nat.add].
    rewrite <- !app_assoc, Hfirst by lia.
    set (m2 := m1 <| has_integrity := true |>).
    pose proof (read_loop_step fuel (h ++ encode_attrs l ++ tlv STUN_ATTR_MESSAGE_INTEGRITY v1)
      STUN_ATTR_MESSAGE_INTEGRITY_SHA256 v2 post
      (20 + (lenZ (encode_attrs l) + (lenZ (tlv STUN_ATTR_MESSAGE_INTEGRITY v1) + lenZ (tlv STUN_ATTR_MESSAGE_INTEGRITY_SHA256 v2)) + 8))
      m2 (received_bits msg) m2 (received_bits msg)) as Hstep.
    rewrite !lenZ_app, Hh, <- !app_assoc in Hstep. rewrite Hstep.
    + f_equal. lia.
    + unfold STUN_ATTR_MESSAGE_INTEGRITY_SHA256. lia.
    + done.
    + rewrite Hv2. unfold HMAC_SHA256_SIZE. lia.
    + done.
    + right. by right.
    + lia.
    + by apply rd_integrity_sha256.
  - rewrite encode_attrs_app, Hmi, lenZ_app, <- !app_assoc in *. rewrite Hfirst by lia. done.
Qed.

Lemma stun_encode_layout msg password ind post :
  let body := stun_body msg password ind in
  stun_encode msg password ind ++ post =
  header_bytes msg (lenZ body + 8) ++ body ++ fingerprint_attr msg body ++ post.
Proof. unfold stun_encode. by rewrite <- !app_assoc. Qed.

Lemma lenZ_stun_encode msg password ind :
  writable msg ind -> lenZ (stun_encode msg password ind) = 20 + (lenZ (stun_body msg password ind) + 8).
Proof. intros Hw. unfold stun_encode. rewrite !lenZ_app, (lenZ_header msg ind Hw), lenZ_fingerprint. lia. Qed.

Lemma stun_read_encode msg password ind post size :
  writable msg ind -> readable msg -> credentials_ok msg -> lenZ (stun_body msg password ind) + 8 < 65536 ->
  let wire := stun_encode msg password ind in lenZ wire <= size ->
  stun_read (wire ++ post) size =
  Some (wire ++ post, stun_read_finish (received msg password) (received_bits msg), lenZ wire).
Proof.
  intros Hw Hr Hc Hlen wire Hsize. pose proof (lenZ_stun_encode msg password ind Hw) as Hwl. fold wire in Hwl.
  rewrite Hwl in *. subst wire. rewrite stun_encode_layout. cbv zeta. set (body := stun_body msg password ind) in *.
  destruct (body_facts 0 ltac:(lia) msg password ind Hw) as [Hb _]. fold body in Hb.
  pose proof (lenZ_nonneg body). pose proof (lenZ_nonneg post).
  destruct (header_loads msg ind (lenZ body + 8) (body ++ fingerprint_attr msg body ++ post) Hw Hr ltac:(lia))
    as (L0 & L2 & L8 & _ & _).
  set (mem := header_bytes msg (lenZ body + 8) ++ body ++ fingerprint_attr msg body ++ post) in *.
  unfold stun_read, sizeof_stun_header. cbv zeta.
  replace (size <? 20) with false by (symmetry; apply Z.ltb_ge; lia).
  rewrite L2, L0, L8. rewrite !ntohs_htons by (lia || apply (type_facts msg Hr)).
  replace (size <? 20 + (lenZ body + 8)) with false by (symmetry; apply Z.ltb_ge; lia).
  destruct (type_facts msg Hr) as (_ & -> & ->).
  match goal with |- context [stun_read_loop _ _ _ _ ?m0 _] => change m0 with (fresh msg) end.
  assert (Hfuel : exists k, S (Z.to_nat (lenZ body + 8)) = (length (body_attrs msg password ind) + S k)%nat).
  { pose proof (length_encode_attrs (body_attrs msg password ind)) as Hle. rewrite <- stun_body_attrs in Hle. fold body in Hle.
    exists (Z.to_nat (lenZ body + 8) - length (body_attrs msg password ind))%nat. unfold lenZ in *. lia. }
  destruct Hfuel as [k ->].
  pose proof (read_body msg password ind (fingerprint_attr msg body ++ post) (S k) Hw Hr Hc Hlen) as Hbody.
  cbv zeta in Hbody. fold body in Hbody. fold mem in Hbody. rewrite Hbody.
  pose proof (read_fingerprint msg ind body post
    (with_credentials (received_plain msg) (received_credentials msg) <| has_integrity := has_hmac msg password |>)
    (received_bits msg) k Hw Hb ltac:(lia) eq_refl) as Hfp.
  cbv zeta in Hfp. fold mem in Hfp. rewrite Hfp. reflexivity.
Qed.

(** C1: Round trip. Given a buffer with room, what stun_write stores is read back
    by stun_read as exactly the fields the wire format carries: every
    attribute, the user (or its hash), realm, nonce and algorithms, the
    integrity flag and the checked fingerprint; the rest of the buffer is ignored. *)
Theorem stun_roundtrip size msg password ind buf :
  0 <= size < 2 ^ 31 -> lenZ buf = size -> writable msg ind -> readable msg -> credentials_ok msg ->
  lenZ (stun_encode msg password ind) <= size -> lenZ (stun_encode msg password ind) < 65556 ->
  exists mem, stun_write size msg password ind buf = Some (mem, lenZ (stun_encode msg password ind)) /\
    stun_read mem size =
      Some (mem, stun_read_finish (received msg password) (received_bits msg), lenZ (stun_encode msg password ind)).
Proof.
  intros Hs Hbuf Hw Hr Hc Hfit Hlen.
  rewrite (stun_write_encodes size Hs msg password ind Hw buf Hbuf Hfit).
  eexists. split; [reflexivity|]. apply stun_read_encode; try done.
  pose proof (lenZ_stun_encode msg password ind Hw). lia.
Qed.

Lemma encode_is_datagram msg password ind post size :
  writable msg ind -> readable msg -> lenZ (stun_encode msg password ind) < 65556 ->
  msg_method msg < 0x4000 -> 0 <= size <= lenZ (stun_encode msg password ind ++ post) ->
  is_stun_datagram (stun_encode msg password ind ++ post) size = Some (size =? lenZ (stun_encode msg password ind)).
Proof.
  intros Hw Hr Hlen Hm Hsize. pose proof (lenZ_stun_encode msg password ind Hw) as Hwl.
  rewrite lenZ_app in Hsize. rewrite Hwl in *. rewrite stun_encode_layout. cbv zeta.
  set (body := stun_body msg password ind) in *.
  destruct (body_facts 0 ltac:(lia) msg password ind Hw) as [_ Hal]. fold body in Hal.
  pose proof (lenZ_nonneg body). pose proof (lenZ_nonneg post).
  destruct (header_loads msg ind (lenZ body + 8) (body ++ fingerprint_attr msg body ++ post) Hw Hr ltac:(lia))
    as (L0 & L2 & _ & L4 & Ll).
  unfold is_stun_datagram, sizeof_stun_header. case_test; zify_bool; [subst size; cbn [obind run]; f_equal; symmetry; apply Z.eqb_neq; lia|].
  assert (Hfirst : load 0 1 (header_bytes msg (lenZ body + 8) ++ body ++ fingerprint_attr msg body ++ post) =
    Some [type_of msg / 256]).
  { unfold header_bytes. fold (type_of msg).
    assert (Hbe : be_bytes 2 (type_of msg) = [type_of msg / 256; type_of msg `mod` 256]).
    { unfold be_bytes. cbn [le_bytes rev app]. destruct (type_facts msg Hr) as [? _]. do 2 f_equal. lia_mod. }
    rewrite Hbe, <- !app_assoc. exact (load_mid 0 1 [] [type_of msg / 256] _ eq_refl eq_refl). }
  rewrite Hfirst. cbn [acc obind].
  assert (Htop : flag (le_word [type_of msg / 256]) 0xC0 = false).
  { assert (Ht : type_of msg < 0x4000 /\ 0 <= type_of msg).
    { split; [|apply (type_facts msg Hr)]. unfold type_of. pose proof (r_method _ Hr) as [? _].
      pose proof (r_class _ Hr) as Hcl. rewrite (wrap_small 16 (msg_method msg)) by lia.
      apply (lor_range 14); [lia | | change (2 ^ 14) with 16384; lia].
      destruct Hcl as [<-|[<-|[<-|[<-|[]]]]]; vm_compute; split; discriminate || reflexivity. }
    unfold flag. apply negb_false_iff, Z.eqb_eq. cbn [le_word]. rewrite Z.mul_0_r, Z.add_0_r.
    change 0xC0 with (Z.shiftl 3 6). apply Z.bits_inj'. intros i Hi. rewrite Z.land_spec, Z.bits_0.
    destruct (Z.lt_ge_cases i 6); [by rewrite Z.shiftl_spec_low, andb_false_r|].
    rewrite (testbit_above 6); [done | lia_mod | done]. }
  rewrite Htop. cbn [obind]. case_test; zify_bool; [cbn [run]; f_equal; symmetry; apply Z.eqb_neq; lia|].
  rewrite L4. cbn [acc obind]. rewrite bswap32_involutive by (unfold STUN_MAGIC; lia). rewrite Z.eqb_refl. cbn [negb].
  rewrite L2. cbn [acc obind]. cbv zeta. rewrite ntohs_htons by lia.
  rewrite land_3. replace ((lenZ body + 8) `mod` 4 =? 0) with true by (symmetry; apply Z.eqb_eq; lia_mod). cbn [negb].
  by destruct (size =? 20 + (lenZ body + 8)).
Qed.

(** A written message passes the demultiplexing test of is_stun_datagram, and
    so does nothing shorter or longer, nor with another length field. *)
Theorem stun_write_is_datagram msg password ind post size :
  writable msg ind -> readable msg -> lenZ (stun_encode msg password ind) < 65556 ->
  msg_method msg < 0x4000 -> 0 <= size <= lenZ (stun_encode msg password ind ++ post) ->
  is_stun_datagram (stun_encode msg password ind ++ post) size = Some (size =? lenZ (stun_encode msg password ind)).
Proof. apply encode_is_datagram. Qed.

(** ** Integrity of a written message *)
Lemma check_loop_skip fuel pre t v post size end_ key s :
  attr_ok (t, v) -> lenZ pre + lenZ (tlv t v) <= end_ -> 20 <= lenZ pre -> end_ <= size ->
  check_integrity_loop (S fuel) (pre ++ tlv t v ++ post) size (lenZ pre) end_ key s =
  check_integrity_loop fuel ((pre ++ tlv t v) ++ post) size (lenZ (pre ++ tlv t v)) end_ key s.
Proof.
  intros (Ht & Hn & Hv) Hend Hp Hs. cbn [fst snd] in *. cbn [check_integrity_loop].
  pose proof (align32_bounds (lenZ v)). pose proof (lenZ_nonneg v). rewrite lenZ_tlv in *.
  replace (lenZ pre <? end_) with true by (symmetry; apply Z.ltb_lt; lia).
  destruct (tlv_loads pre t v post Ht Hv) as (L1 & L2 & _). rewrite L1, L2. unfold sizeof_stun_attr. cbv zeta.
  rewrite !ntohs_htons by lia.
  replace (size <? 4 + lenZ v) with false by (symmetry; apply Z.ltb_ge; lia).
  replace (t =? STUN_ATTR_MESSAGE_INTEGRITY) with false by (symmetry; apply Z.eqb_neq; intros ->; apply Hn; simpl; tauto).
  replace (t =? STUN_ATTR_MESSAGE_INTEGRITY_SHA256) with false by (symmetry; apply Z.eqb_neq; intros ->; apply Hn; simpl; tauto).
  rewrite lenZ_app, lenZ_tlv, <- app_assoc. f_equal. lia.
Qed.

Lemma check_loop_attrs l : forall fuel pre post size end_ key s,
  Forall attr_ok l -> lenZ pre + lenZ (encode_attrs l) <= end_ -> 20 <= lenZ pre -> end_ <= size ->
  check_integrity_loop (length l + fuel) (pre ++ encode_attrs l ++ post) size (lenZ pre) end_ key s =
  check_integrity_loop fuel ((pre ++ encode_attrs l) ++ post) size (lenZ (pre ++ encode_attrs l)) end_ key s.
Proof.
  induction l as [|[t v] l IH]; intros fuel pre post size end_ key s Hl Hend Hp Hs.
  - rewrite encode_attrs_nil, app_nil_r. done.
  - apply Forall_cons_1 in Hl as [Ha Hl]. rewrite encode_attrs_cons in *. rewrite lenZ_app in Hend.
    pose proof (lenZ_nonneg (encode_attrs l)). cbn [length Nat.add]. rewrite <- app_assoc.
    rewrite check_loop_skip by (done || lia).
    rewrite IH by (done || rewrite lenZ_app; pose proof (lenZ_nonneg (tlv t v)); lia).
    by rewrite <- !app_assoc.
Qed.

(** One integrity attribute of a written message: the digests are compared. *)
Lemma check_hmac_written msg ind n body t v post digest hmac :
  writable msg ind -> bytes_ok body -> 0 <= n < 65536 -> 0 <= lenZ body + 4 + digest < 65536 ->
  0 <= t < 65536 -> lenZ v = digest -> bytes_ok v -> (forall t, lenZ (hmac t) = digest /\ bytes_ok (hmac t)) ->
  check_hmac (header_bytes msg n ++ body ++ tlv t v ++ post) (20 + lenZ body) sizeof_stun_header digest hmac =
  Some (header_bytes msg n ++ body ++ tlv t v ++ post, bool_decide (hmac (covered msg body digest) = v)).
Proof.
  intros Hw Hb Hn Hd Ht Hv Hvb Hh. unfold check_hmac, sizeof_stun_header, STUN_ATTR_SIZE, sizeof_stun_attr.
  replace (20 + lenZ body - 20 + 4 + digest) with (lenZ body + 4 + digest) by lia.
  rewrite (wrap_small 32) by lia. cbv zeta. rewrite (header_update msg ind) by done. cbv beta iota.
  rewrite <- covered_split, <- (lenZ_covered msg ind body digest Hw), load_prefix.
  rewrite covered_split, (header_update msg ind) by done. cbv beta iota.
  set (pre := header_bytes msg n ++ body).
  assert (Hpre : lenZ pre = 20 + lenZ body) by (subst pre; by rewrite lenZ_app, (lenZ_header msg ind Hw)).
  destruct (tlv_loads pre t v post Ht) as (_ & _ & L3); [pose proof (lenZ_nonneg body); lia|].
  rewrite Hpre, Hv in L3. subst pre. rewrite <- app_assoc in L3.
  rewrite (lenZ_covered msg ind body digest Hw), L3.
  destruct (Hh (covered msg body digest)) as [Hl1 Hb1].
  destruct (memcmp_total digest (hmac (covered msg body digest)) v Hb1 Hvb Hl1 Hv) as (r & -> & Hr).
  do 2 f_equal. apply eq_true_iff_eq. rewrite Z.eqb_eq, bool_decide_eq_true. exact Hr.
Qed.

Lemma check_loop_hmac fuel msg ind n body t v post size end_ key s digest hmac :
  (t = STUN_ATTR_MESSAGE_INTEGRITY /\ digest = HMAC_SHA1_SIZE /\ hmac = (fun text => hmac_sha1 text key)) \/
  (t = STUN_ATTR_MESSAGE_INTEGRITY_SHA256 /\ digest = HMAC_SHA256_SIZE /\ hmac = (fun text => hmac_sha256 text key)) ->
  writable msg ind -> bytes_ok body -> 0 <= n < 65536 -> lenZ body + 4 + digest < 65536 ->
  lenZ v = digest -> bytes_ok v -> 20 + lenZ body + 4 + digest <= end_ -> end_ <= size ->
  let mem := header_bytes msg n ++ body ++ tlv t v ++ post in
  check_integrity_loop (S fuel) mem size (20 + lenZ body) end_ key s =
  if bool_decide (hmac (covered msg body digest) = v)
  then check_integrity_loop fuel mem size (20 + lenZ (body ++ tlv t v)) end_ key true
  else Some (mem, false).
Proof.
  intros Hkind Hw Hb Hn Hd Hv Hvb Hend Hs mem. pose proof (lenZ_nonneg body).
  assert (Hdig : digest = 20 \/ digest = 32) by (destruct Hkind as [(_ & -> & _)|(_ & -> & _)]; auto).
  assert (Ht : 0 <= t < 65536) by (destruct Hkind as [(-> & _)|(-> & _)]; vm_compute; split; discriminate || reflexivity).
  assert (Hh : forall txt, lenZ (hmac txt) = digest /\ bytes_ok (hmac txt)).
  { intros txt. destruct Hkind as [(_ & -> & ->)|(_ & -> & ->)];
      auto using hmac_sha1_length, hmac_sha1_bytes, hmac_sha256_length, hmac_sha256_bytes. }
  cbn [check_integrity_loop]. replace (20 + lenZ body <? end_) with true by (symmetry; apply Z.ltb_lt; lia).
  assert (Hpre : lenZ (header_bytes msg n ++ body) = 20 + lenZ body) by (by rewrite lenZ_app, (lenZ_header msg ind Hw)).
  destruct (tlv_loads (header_bytes msg n ++ body) t v post Ht) as (L1 & L2 & _); [lia|].
  rewrite Hpre, <- app_assoc in L1, L2. fold mem in L1, L2. rewrite L1, L2. unfold sizeof_stun_attr. cbv zeta.
  rewrite !ntohs_htons by lia. rewrite Hv.
  replace (size <? 4 + digest) with false by (symmetry; apply Z.ltb_ge; lia).
  assert (Hck : check_hmac mem (20 + lenZ body) sizeof_stun_header digest hmac =
                Some (mem, bool_decide (hmac (covered msg body digest) = v)))
    by (apply (check_hmac_written msg ind n body t v post digest hmac); done || lia).
  assert (Hal : align32 digest = digest) by (destruct Hdig as [-> | ->]; reflexivity).
  assert (Hnext : 20 + lenZ body + 4 + align32 digest = 20 + lenZ (body ++ tlv t v))
    by (rewrite lenZ_app, lenZ_tlv, Hv; lia).
  rewrite Hnext. destruct Hkind as [(-> & -> & ->)|(-> & -> & ->)].
  - rewrite Z.eqb_refl. cbn [negb]. change (Z.eqb HMAC_SHA1_SIZE HMAC_SHA1_SIZE) with true. cbn [negb].
    rewrite Hck. by case_bool_decide.
  - change (STUN_ATTR_MESSAGE_INTEGRITY_SHA256 =? STUN_ATTR_MESSAGE_INTEGRITY) with false. cbv iota.
    rewrite !Z.eqb_refl. cbn [negb]. change (Z.eqb HMAC_SHA256_SIZE HMAC_SHA256_SIZE) with true. cbn [negb].
    rewrite Hck. by case_bool_decide.
Qed.

(** The fingerprint at the end is skipped. *)
Lemma check_loop_end fuel msg ind body post size key s :
  writable msg ind -> bytes_ok body -> lenZ body + 8 < 65536 -> 20 + (lenZ body + 8) <= size ->
  let mem := header_bytes msg (lenZ body + 8) ++ body ++ fingerprint_attr msg body ++ post in
  check_integrity_loop (S (S fuel)) mem size (20 + lenZ body) (20 + (lenZ body + 8)) key s = Some (mem, s).
Proof.
  intros Hw Hb Hl Hs mem. pose proof (lenZ_nonneg body).
  assert (Hpre : lenZ (header_bytes msg (lenZ body + 8) ++ body) = 20 + lenZ body) by (by rewrite lenZ_app, (lenZ_header msg ind Hw)).
  subst mem. unfold fingerprint_attr. set (fp := be_bytes 4 _).
  assert (Hfp : lenZ fp = 4) by apply lenZ_be_bytes.
  destruct (tlv_loads (header_bytes msg (lenZ body + 8) ++ body) STUN_ATTR_FINGERPRINT fp post) as (L1 & L2 & _);
    [unfold STUN_ATTR_FINGERPRINT; lia | lia |]. rewrite Hpre, <- app_assoc in L1, L2. rewrite Hfp in L2.
  cbn [check_integrity_loop]. replace (20 + lenZ body <? 20 + (lenZ body + 8)) with true by (symmetry; apply Z.ltb_lt; lia).
  rewrite L1, L2. unfold sizeof_stun_attr. cbv zeta. rewrite !ntohs_htons by (unfold STUN_ATTR_FINGERPRINT; lia).
  replace (size <? 4 + 4) with false by (symmetry; apply Z.ltb_ge; lia).
  change (STUN_ATTR_FINGERPRINT =? STUN_ATTR_MESSAGE_INTEGRITY) with false.
  change (STUN_ATTR_FINGERPRINT =? STUN_ATTR_MESSAGE_INTEGRITY_SHA256) with false. cbv iota.
  change (align32 4) with 4.
  replace (20 + lenZ body + 4 + 4 <? 20 + (lenZ body + 8)) with false by (symmetry; apply Z.ltb_ge; lia). done.
Qed.

(** The digests of a written message, recomputed under [key']. *)
Definition digests_agree (msg : stun_message) (password : option (list Z)) (ind key' : list Z) : bool :=
  let b := encode_attrs (plain_attrs msg ++ credential_attrs msg ind) in
  let key := generate_hmac_key msg password in
  let b1 := b ++ integrity_attr msg password STUN_ATTR_MESSAGE_INTEGRITY hmac_sha1 HMAC_SHA1_SIZE b in
  let text := covered msg b HMAC_SHA1_SIZE in
  let text1 := covered msg b1 HMAC_SHA256_SIZE in
  bool_decide (hmac_sha1 text key' = hmac_sha1 text key) &&
  ((password_algorithm (credentials msg) =? STUN_PASSWORD_ALGORITHM_UNSET) ||
   bool_decide (hmac_sha256 text1 key' = hmac_sha256 text1 key)).

(** The attributes before the digests, and the SHA-1 digest. *)
Lemma check_loop_first k msg ind l v1 tl size len key' : writable msg ind -> Forall kind_ok l -> bytes_ok (encode_attrs l) ->
  lenZ v1 = HMAC_SHA1_SIZE -> bytes_ok v1 -> 0 <= len < 65536 -> 20 + (lenZ (encode_attrs l) + 24) <= 20 + len -> 20 + len <= size ->
  let h := header_bytes msg len in let t1 := tlv STUN_ATTR_MESSAGE_INTEGRITY v1 in
  check_integrity_loop (length l + S k) (h ++ (encode_attrs l ++ t1) ++ tl) size 20 (20 + len) key' false =
  if bool_decide (hmac_sha1 (covered msg (encode_attrs l) HMAC_SHA1_SIZE) key' = v1)
  then check_integrity_loop k (h ++ (encode_attrs l ++ t1) ++ tl) size (20 + lenZ (encode_attrs l ++ t1)) (20 + len) key' true
  else Some (h ++ (encode_attrs l ++ t1) ++ tl, false).
Proof.
  intros Hw Hkinds Hbl Hv1 Hv1b Hlen Hle Hs h t1. assert (Hh : lenZ h = 20) by apply (lenZ_header msg ind Hw).
  pose proof (lenZ_nonneg (encode_attrs l)). assert (Hok : Forall attr_ok l) by (apply kinds_attr_ok; [done|lia]).
  rewrite <- Hh at 1. rewrite <- (app_assoc (encode_attrs l)).
  rewrite (check_loop_attrs l) by (done || lia). rewrite lenZ_app, Hh, <- app_assoc. unfold t1, h.
  apply (check_loop_hmac k msg ind _ _ _ v1 tl size (20 + len) key' false HMAC_SHA1_SIZE (fun text => hmac_sha1 text key')); try done.
  1: by left.
  all: try (unfold HMAC_SHA1_SIZE; lia).
Qed.

(** The whole loop over a written message that carries digests. *)
Lemma check_loop_written fuel msg password ind post size key' :
  writable msg ind -> has_hmac msg password = true ->
  lenZ (stun_body msg password ind) + 8 < 65536 -> 20 + (lenZ (stun_body msg password ind) + 8) <= size ->
  let body := stun_body msg password ind in
  let mem := header_bytes msg (lenZ body + 8) ++ body ++ fingerprint_attr msg body ++ post in
  check_integrity_loop (length (body_attrs msg password ind) + S (S fuel)) mem size 20 (20 + (lenZ body + 8)) key' false =
  Some (mem, digests_agree msg password ind key').
Proof.
  intros Hw Hhm Hlen Hs body mem. destruct (body_facts 0 ltac:(lia) msg password ind Hw) as [Hb _]. fold body in Hb, Hlen, Hs.
  pose proof (check_loop_end fuel msg ind body post size key' true Hw Hb Hlen Hs) as Hend. cbv zeta in Hend. fold mem in Hend.
  set (h := header_bytes msg (lenZ body + 8)) in *.
  assert (Hh : lenZ h = 20) by apply (lenZ_header msg ind Hw). set (e := 20 + (lenZ body + 8)) in *.
  set (l := plain_attrs msg ++ credential_attrs msg ind).
  assert (Hkinds : Forall kind_ok l) by (apply Forall_app_2; [apply plain_kinds | apply credential_kinds]).
  assert (Hbl : bytes_ok (encode_attrs l))
    by (apply bytes_encode, Forall_app_2; [by apply (plain_bytes 0 ltac:(lia) msg ind) | by apply (credential_bytes msg ind)]).
  pose proof (lenZ_nonneg (encode_attrs l)).
  set (v1 := hmac_sha1 (covered msg (encode_attrs l) HMAC_SHA1_SIZE) (generate_hmac_key msg password)).
  assert (Hv1 : lenZ v1 = HMAC_SHA1_SIZE /\ bytes_ok v1) by (split; [apply hmac_sha1_length | apply hmac_sha1_bytes]).
  destruct Hv1 as [Hv1 Hv1b]. set (t1 := tlv STUN_ATTR_MESSAGE_INTEGRITY v1).
  assert (Hl1 : lenZ (encode_attrs l ++ t1) = lenZ (encode_attrs l) + 24) by (unfold t1; rewrite lenZ_app, lenZ_tlv, Hv1; done).
  assert (Hb1 : bytes_ok (encode_attrs l ++ t1)) by (apply Forall_app_2; [done | by apply bytes_tlv]).
  assert (Hfirst : forall k tl, 20 + lenZ (encode_attrs l ++ t1) <= e ->
    check_integrity_loop (length l + S k) (h ++ (encode_attrs l ++ t1) ++ tl) size 20 e key' false =
    if bool_decide (hmac_sha1 (covered msg (encode_attrs l) HMAC_SHA1_SIZE) key' = v1)
    then check_integrity_loop k (h ++ (encode_attrs l ++ t1) ++ tl) size (20 + lenZ (encode_attrs l ++ t1)) e key' true
    else Some (h ++ (encode_attrs l ++ t1) ++ tl, false)).
  { intros k tl Hle. apply (check_loop_first k msg ind l v1 tl size (lenZ body + 8) key'); try done; [lia|rewrite Hl1 in Hle; lia]. }
  set (key := generate_hmac_key msg password) in *.
  set (v2 := hmac_sha256 (covered msg (encode_attrs l ++ t1) HMAC_SHA256_SIZE) key).
  assert (Hv2 : lenZ v2 = HMAC_SHA256_SIZE /\ bytes_ok v2) by (split; [apply hmac_sha256_length | apply hmac_sha256_bytes]).
  destruct Hv2 as [Hv2 Hv2b]. set (t2 := tlv STUN_ATTR_MESSAGE_INTEGRITY_SHA256 v2).
  assert (Hagree : digests_agree msg password ind key' =
    bool_decide (hmac_sha1 (covered msg (encode_attrs l) HMAC_SHA1_SIZE) key' = v1) &&
    ((password_algorithm (credentials msg) =? STUN_PASSWORD_ALGORITHM_UNSET) ||
     bool_decide (hmac_sha256 (covered msg (encode_attrs l ++ t1) HMAC_SHA256_SIZE) key' = v2))) by reflexivity.
  rewrite Hagree. clear Hagree.
  destruct (password_algorithm (credentials msg) =? STUN_PASSWORD_ALGORITHM_UNSET) eqn:Halg.
  - assert (Hbody : body = encode_attrs l ++ t1).
    { unfold body, stun_body. cbv zeta. unfold has_hmac in Hhm. by rewrite Hhm, Halg. }
    assert (Hlist : length (body_attrs msg password ind) = (length l + 1)%nat).
    { unfold body_attrs. cbv zeta. rewrite Hhm, Halg. cbn [negb]. by rewrite length_app. }
    rewrite Hlist, <- Nat.add_assoc. subst mem. rewrite Hbody at 1 3. rewrite <- Hbody in Hl1 at 1.
    cbn [Nat.add]. rewrite Hfirst by (rewrite <- Hbody; lia). rewrite <- Hbody at 2. rewrite <- Hbody.
    cbn [orb]. rewrite andb_true_r. case_bool_decide; [exact Hend | done].
  - assert (Hbody : body = (encode_attrs l ++ t1) ++ t2).
    { unfold body, stun_body. cbv zeta. unfold has_hmac in Hhm. by rewrite Hhm, Halg. }
    assert (Hlist : length (body_attrs msg password ind) = (length l + 2)%nat).
    { unfold body_attrs. cbv zeta. rewrite Hhm, Halg. cbn [negb]. unfold l. rewrite !length_app. done. }
    assert (Hl2 : lenZ body = lenZ (encode_attrs l ++ t1) + 36) by (rewrite Hbody, lenZ_app; unfold t2; rewrite lenZ_tlv, Hv2; done).
    assert (Hmem : mem = h ++ (encode_attrs l ++ t1) ++ t2 ++ fingerprint_attr msg body ++ post)
      by (unfold mem; rewrite Hbody at 1; by rewrite <- app_assoc).
    rewrite Hlist, <- Nat.add_assoc. rewrite Hmem. cbn [Nat.add]. rewrite Hfirst by lia.
    cbn [orb]. case_bool_decide; [cbn [andb]|done].
    pose proof (check_loop_hmac (S (S fuel)) msg ind (lenZ body + 8) (encode_attrs l ++ t1) STUN_ATTR_MESSAGE_INTEGRITY_SHA256 v2
      (fingerprint_attr msg body ++ post) size e key' true HMAC_SHA256_SIZE (fun text => hmac_sha256 text key')
      ltac:(by right) Hw Hb1 ltac:(lia) ltac:(unfold HMAC_SHA256_SIZE; lia) Hv2 Hv2b ltac:(unfold HMAC_SHA256_SIZE; lia) Hs) as Hsecond.
    cbv zeta in Hsecond. fold h t2 in Hsecond. rewrite Hsecond, <- Hmem, <- Hbody. case_bool_decide; [exact Hend | done].
Qed.


Lemma check_integrity_written msg password ind post msg' password' :
  writable msg ind -> readable msg -> has_hmac msg password = true -> has_integrity msg' = true ->
  lenZ (stun_encode msg password ind) < 65556 ->
  let mem := stun_encode msg password ind ++ post in
  stun_check_integrity mem (lenZ mem) msg' password' =
  Some (mem, digests_agree msg password ind (generate_hmac_key msg' (Some password'))).
Proof.
  intros Hw Hr Hhm Hint Hlen mem. pose proof (lenZ_stun_encode msg password ind Hw) as Hwl.
  destruct (body_facts 0 ltac:(lia) msg password ind Hw) as [Hb _].
  assert (Hml : lenZ mem = 20 + (lenZ (stun_body msg password ind) + 8) + lenZ post) by (subst mem; by rewrite lenZ_app, Hwl).
  rewrite Hml. subst mem. rewrite stun_encode_layout. cbv zeta.
  unfold stun_check_integrity. rewrite Hint. cbn [negb].
  set (key' := generate_hmac_key msg' (Some password')).
  set (body := stun_body msg password ind) in *. pose proof (lenZ_nonneg body). pose proof (lenZ_nonneg post).
  destruct (header_loads msg ind (lenZ body + 8) (body ++ fingerprint_attr msg body ++ post) Hw Hr ltac:(lia))
    as (_ & L2 & _). rewrite L2. cbv zeta. unfold sizeof_stun_header. rewrite ntohs_htons by lia.
  replace (20 + (lenZ body + 8) + lenZ post <? 20 + (lenZ body + 8)) with false by (symmetry; apply Z.ltb_ge; lia).
  assert (Hfuel : exists k, S (Z.to_nat (lenZ body + 8)) = (length (body_attrs msg password ind) + S (S k))%nat).
  { pose proof (length_encode_attrs (body_attrs msg password ind)) as Hle. rewrite <- stun_body_attrs in Hle. fold body in Hle.
    exists (Z.to_nat (lenZ body + 7) - length (body_attrs msg password ind))%nat. revert Hle. unfold lenZ. clear. lia. }
  destruct Hfuel as [k ->]. apply (check_loop_written k msg password ind post _ key'); fold body; done || lia.
Qed.

(** C6: The integrity check of a written message accepts exactly when every digest
    it carries is the digest of the covered text under the checker's key (the
    SHA-1 digest, and the SHA-256 one when an algorithm is chosen): in
    particular a checker with the same key accepts. *)
Theorem stun_check_integrity_verdict msg password ind post msg' password' :
  writable msg ind -> readable msg -> has_hmac msg password = true -> has_integrity msg' = true ->
  lenZ (stun_encode msg password ind) < 65556 ->
  let mem := stun_encode msg password ind ++ post in
  stun_check_integrity mem (lenZ mem) msg' password' =
  Some (mem, digests_agree msg password ind (generate_hmac_key msg' (Some password'))).
Proof. apply check_integrity_written. Qed.
End Exchange.
