(* ===== verification/StunExamples.v ===== *)
(** * A concrete STUN exchange

    A long-term-credential request and a binding response, on the target's
    platform and with the hash functions of the library: the inputs at which
    the theorems on writing, reading and checking messages are applied. *)

From S2P Require Import Prelude Addr ConstTime Crc32 StunMsg StunHashes StunWrite StunCodec StunWriteCorrect.
From S2P Require Import StunRead StunReadSafe StunRoundtrip StunExchange.

#[local] Existing Instance lwip.

Definition example_tid : list Z := [1; 2; 3; 4; 5; 6; 7; 8; 9; 10; 11; 12].

(** An Allocate request: user "ab", realm "r", nonce "n", SHA-256 chosen. *)
Definition example_credentials : stun_credentials :=
  mkCredentials [97; 98] [114] [110] (replicate 32 7) false STUN_PASSWORD_ALGORITHM_SHA256
    generate_password_algorithms_attr.

Definition example_request : stun_message :=
  stun_message_zero <| msg_class := STUN_CLASS_REQUEST |> <| msg_method := STUN_METHOD_ALLOCATE |>
    <| transaction_id := example_tid |> <| lifetime := 600 |> <| requested_transport := true |>
    <| peers := [mkRecord (sockaddr_in 20480 [10; 0; 0; 1]) 16] |>
    <| credentials := example_credentials |>.

Definition example_password : option (list Z) := Some [112; 119].
Definition example_ind : list Z := [170; 171].

Ltac bytes := repeat (apply Forall_cons_2; [unfold is_byte; lia|]); apply Forall_nil_2.

Lemma example_writable : writable example_request example_ind.
Proof.
  split; try (vm_compute; (split; discriminate || reflexivity) || done).
  - split; [done|]. vm_compute. repeat constructor; done.
  - apply Forall_cons_2; [|apply Forall_nil_2]. vm_compute. split_and!; try done. repeat constructor; done.
  - split_and!; cbn; repeat constructor; done.
Qed.

Lemma example_readable : readable example_request.
Proof.
  split; try (vm_compute; (split; discriminate || reflexivity) || done).
  - cbn. tauto.
Qed.

Lemma example_credentials_ok : credentials_ok example_request.
Proof.
  split.
  1-3: split; [repeat (apply Forall_cons_2; [done|]); apply Forall_nil_2 | by vm_compute].
  - reflexivity.
  - cbn. unfold STUN_PASSWORD_ALGORITHM_SHA256. lia.
  - intros _. split; [by vm_compute|]. intros _. eexists. reflexivity.
Qed.

Lemma example_length : lenZ (stun_encode example_request example_password example_ind) = 172.
Proof. vm_compute. reflexivity. Qed.

(** ** The theorems at this request *)
Definition example_buffer (n : nat) : list Z := replicate n 255.

Lemma lenZ_example_buffer n : lenZ (example_buffer n) = Z.of_nat n.
Proof. apply lenZ_replicate. Qed.

Lemma stun_write_encode_witness :
  stun_write 200 example_request example_password example_ind (example_buffer 200) =
  Some (stun_encode example_request example_password example_ind ++
        drop (length (stun_encode example_request example_password example_ind)) (example_buffer 200),
        lenZ (stun_encode example_request example_password example_ind)).
Proof.
  apply (stun_write_encode 200 ltac:(lia) example_request example_password example_ind example_writable (example_buffer 200)).
  - apply lenZ_example_buffer.
  - rewrite example_length. lia.
Defined.

Lemma stun_roundtrip_witness :
  exists mem, stun_write 200 example_request example_password example_ind (example_buffer 200) =
      Some (mem, lenZ (stun_encode example_request example_password example_ind)) /\
    stun_read mem 200 =
      Some (mem, stun_read_finish (received example_request example_password) (received_bits example_request),
            lenZ (stun_encode example_request example_password example_ind)).
Proof.
  apply (stun_roundtrip 200 example_request example_password example_ind (example_buffer 200)).
  - lia.
  - apply lenZ_example_buffer.
  - exact example_writable.
  - exact example_readable.
  - exact example_credentials_ok.
  - rewrite example_length. lia.
  - rewrite example_length. lia.
Defined.

Lemma stun_write_is_datagram_witness :
  is_stun_datagram (stun_encode example_request example_password example_ind ++ []) 172 =
  Some (172 =? lenZ (stun_encode example_request example_password example_ind)).
Proof.
  apply (stun_write_is_datagram example_request example_password example_ind [] 172).
  - exact example_writable.
  - exact example_readable.
  - rewrite example_length. lia.
  - reflexivity.
  - rewrite app_nil_r, example_length. lia.
Defined.

Lemma stun_check_integrity_verdict_witness :
  let mem := stun_encode example_request example_password example_ind ++ [] in
  stun_check_integrity mem (lenZ mem) (received example_request example_password) [112; 119] =
  Some (mem, digests_agree example_request example_password example_ind
               (generate_hmac_key (received example_request example_password) (Some [112; 119]))).
Proof.
  apply (stun_check_integrity_verdict example_request example_password example_ind []
           (received example_request example_password) [112; 119]).
  - exact example_writable.
  - exact example_readable.
  - reflexivity.
  - reflexivity.
  - rewrite example_length. lia.
Defined.

(** A message of another program: a binding indication without attributes. *)
Definition example_indication : list Z := [0; 17; 0; 0; 33; 18; 164; 66] ++ example_tid.

Lemma example_indication_bytes : bytes_ok example_indication.
Proof. repeat (apply Forall_cons_2; [unfold is_byte; lia|]). apply Forall_nil_2. Qed.

Lemma stun_read_safe_witness :
  exists msg ret, stun_read example_indication 20 = Some (example_indication, msg, ret) /\ (ret = -1 \/ 20 <= ret <= 20).
Proof.
  apply (stun_read_safe example_indication 20).
  - exact example_indication_bytes.
  - change (lenZ example_indication) with 20. lia.
Defined.

Lemma stun_check_integrity_safe_witness :
  exists ok, stun_check_integrity example_indication 20
    (match stun_read example_indication 20 with Some (_, m, _) => m | None => stun_message_zero end) [112; 119] =
    Some (example_indication, ok).
Proof.
  apply (stun_check_integrity_safe example_indication 20 _ 20).
  - exact example_indication_bytes.
  - change (lenZ example_indication) with 20. lia.
  - reflexivity.
  - lia.
Defined.

(** ** A buffer that is too short *)
Lemma example_body_length : lenZ (stun_body example_request example_password example_ind) = 144.
Proof. vm_compute. reflexivity. Qed.

Lemma stun_write_overflow_unnoticed_witness :
  let body := stun_body example_request example_password example_ind in
  stun_write 164 example_request example_password example_ind (example_buffer 164) =
    Some (header_bytes example_request (lenZ body + 8) ++ body ++ drop (20 + length body) (example_buffer 164),
          20 + lenZ body - 1) /\
  0 < 20 + lenZ body - 1.
Proof.
  apply (stun_write_overflow_unnoticed 164 ltac:(lia) example_request example_password example_ind example_writable (example_buffer 164)).
  - apply lenZ_example_buffer.
  - rewrite example_body_length. lia.
  - rewrite example_length. lia.
Defined.

Lemma stun_write_short_buffer_ub_witness :
  stun_write 12 example_request example_password example_ind (example_buffer 12) = None.
Proof.
  apply (stun_write_short_buffer_ub 12 ltac:(lia) example_request example_password example_ind (example_buffer 12)).
  - exact example_writable.
  - cbn. lia.
  - reflexivity.
  - apply lenZ_example_buffer.
  - lia.
Defined.
