(* ===== verification/Turn.v ===== *)
(** * turn.c: the TURN state map

    The table of permissions and channel bindings that a TURN client and a TURN
    server keep: an open-addressing hash table of entries, and two arrays of
    pointers into it, ordered by channel and by transaction identifier.

    A pointer to an entry is its index.  The arrays of pointers have room for
    [map_size] pointers; each is modelled by the list of the pointers in use,
    whose length is the count the code keeps, and inserting beyond the room is
    undefined behaviour ([None]).  The time is the argument [now] of the
    operations that read the clock, and [juice_random] the list of the values
    it delivers.  Log output is left out. *)

From stdpp Require Import list.
From S2P Require Import Prelude Addr.

Definition STUN_TRANSACTION_ID_SIZE : Z := 12.

(** [memcmp] of two arrays of the same size, as a comparison. *)
Fixpoint memcmp (a b : list Z) : comparison :=
  match a, b with
  | x :: a', y :: b' => match Z.compare x y with Eq => memcmp a' b' | c => c end
  | _, _ => Eq
  end.

Definition memory_is_zero (data : list Z) : bool := forallb (fun d => d =? 0) data.

Definition random_channel_number (r : Z) : Z := Z.lor 0x4000 (Z.land r 0x0FFF).

(** ** ChannelData *)
Definition sizeof_channel_data_header : Z := 4.

Definition is_channel_data (data : list Z) (size : Z) : option bool :=
  if size =? 0 then Some false
  else
    let? b := load 0 1 data in
    Some ((64 <=? le_word b) && (le_word b <=? 79)).

Definition is_valid_channel (channel : Z) : bool := 0x4000 <=? channel.

(** [turn_wrap_channel_data] into [buffer], of which [size] bytes are announced;
    [data] is what the [data_size] bytes at the source hold at the call, which
    [memmove] copies also when the source overlaps the buffer.  The new buffer
    and the returned value. *)
Definition turn_wrap_channel_data (buffer : list Z) (size : Z) (data : list Z) (channel : Z) : option (list Z * Z) :=
  let data_size := lenZ data in
  if negb (is_valid_channel channel) then Some (buffer, -1)
  else if 65536 <=? data_size then Some (buffer, -1)
  else if size <? sizeof_channel_data_header + data_size then Some (buffer, -1)
  else
    let? buffer := store sizeof_channel_data_header data buffer in
    let? buffer := store 0 (le_bytes 2 (htons (u16 channel)) ++ le_bytes 2 (htons (u16 data_size))) buffer in
    Some (buffer, sizeof_channel_data_header + data_size).

(** ** The map *)
Inductive turn_entry_type : Type :=
| TURN_ENTRY_TYPE_EMPTY
| TURN_ENTRY_TYPE_DELETED
| TURN_ENTRY_TYPE_PERMISSION
| TURN_ENTRY_TYPE_CHANNEL.

#[export] Instance turn_entry_type_eq_dec : EqDecision turn_entry_type.
Proof. solve_decision. Defined.

(** [(int)type]. *)
Definition type_number (t : turn_entry_type) : Z :=
  match t with
  | TURN_ENTRY_TYPE_EMPTY => 0
  | TURN_ENTRY_TYPE_DELETED => 1
  | TURN_ENTRY_TYPE_PERMISSION => 2
  | TURN_ENTRY_TYPE_CHANNEL => 3
  end.

Record turn_entry := mkEntry {
  entry_type : turn_entry_type;
  entry_timestamp : Z;
  entry_record : addr_record;
  entry_tid : list Z;
  entry_channel : Z;
  entry_fresh_tid : bool
}.

Record turn_map := mkMap {
  entries : list turn_entry;
  ordered_channels : list nat;
  ordered_transaction_ids : list nat;
  map_size : Z
}.

Definition channels_count (m : turn_map) : Z := lenZ (ordered_channels m).
Definition transaction_ids_count (m : turn_map) : Z := lenZ (ordered_transaction_ids m).

#[export] Instance turn_entry_expand : Expand turn_entry := fun e =>
  mkEntry (entry_type e) (entry_timestamp e) (entry_record e) (entry_tid e) (entry_channel e) (entry_fresh_tid e).
#[export] Instance turn_map_expand : Expand turn_map := fun m =>
  mkMap (entries m) (ordered_channels m) (ordered_transaction_ids m) (map_size m).

(** A zeroed entry. *)
Definition turn_entry_zero : turn_entry :=
  mkEntry TURN_ENTRY_TYPE_EMPTY 0 addr_record_zero (replicate 12 0) 0 false.

Definition is_type (t : turn_entry_type) (e : turn_entry) : bool := bool_decide (entry_type e = t).

(** Store an entry through its pointer. *)
Definition set_entry (m : turn_map) (i : nat) (e : turn_entry) : turn_map :=
  m <| entries := <[i := e]> (entries m) |>.

(** ** Ordered arrays *)

(** The binary search both orders use; [probe pivot] compares the searched key
    with the one at [pivot].  [fuel] bounds the recursion depth. *)
Fixpoint find_ordered_rec (fuel : nat) (probe : Z -> option comparison) (begin end_ : Z) : option Z :=
  let d := end_ - begin in
  if d <=? 0 then Some begin
  else
    match fuel with
    | O => None
    | S fuel' =>
      let pivot := begin + d / 2 in
      let? c := probe pivot in
      match c with
      | Lt => find_ordered_rec fuel' probe begin pivot
      | Gt => find_ordered_rec fuel' probe (pivot + 1) end_
      | Eq => Some pivot
      end
    end.

(** The entry behind a pointer of an ordered array. *)
Definition ordered_entry (m : turn_map) (l : list nat) (pos : Z) : option turn_entry :=
  if pos <? 0 then None else let? i := l !! Z.to_nat pos in entries m !! i.

Definition find_ordered_channel_rec (m : turn_map) (channel begin end_ : Z) : option Z :=
  find_ordered_rec (Z.to_nat (end_ - begin))
    (fun pivot => let? e := ordered_entry m (ordered_channels m) pivot in Some (Z.compare channel (entry_channel e)))
    begin end_.

Definition find_ordered_channel (m : turn_map) (channel : Z) : option Z :=
  find_ordered_channel_rec m channel 0 (channels_count m).

Definition find_ordered_transaction_id_rec (m : turn_map) (tid : list Z) (begin end_ : Z) : option Z :=
  find_ordered_rec (Z.to_nat (end_ - begin))
    (fun pivot => let? e := ordered_entry m (ordered_transaction_ids m) pivot in Some (memcmp tid (entry_tid e)))
    begin end_.

Definition find_ordered_transaction_id (m : turn_map) (tid : list Z) : option Z :=
  find_ordered_transaction_id_rec m tid 0 (transaction_ids_count m).

(** The [memmove]s: take the pointer at [pos] out, or put one in. *)
Definition remove_at (l : list nat) (pos : Z) : list nat :=
  take (Z.to_nat pos) l ++ drop (S (Z.to_nat pos)) l.
Definition insert_at (m : turn_map) (l : list nat) (pos : Z) (i : nat) : option (list nat) :=
  if lenZ l <? map_size m then Some (take (Z.to_nat pos) l ++ i :: drop (Z.to_nat pos) l) else None.

Definition remove_ordered_transaction_id (m : turn_map) (tid : list Z) : option turn_map :=
  let? pos := find_ordered_transaction_id m tid in
  Some (if pos <? transaction_ids_count m
        then m <| ordered_transaction_ids := remove_at (ordered_transaction_ids m) pos |> else m).

(** ** The table *)
Section Map.
Context `{Platform}.

(** The loop of [find_entry] from [pos], until it is back at [key]. *)
Fixpoint find_entry_loop (fuel : nat) (m : turn_map) (record : addr_record) (type : turn_entry_type)
    (allow_deleted : bool) (key pos : Z) : option (option nat) :=
  match fuel with
  | O => None
  | S fuel' =>
    let? entry := entries m !! Z.to_nat pos in
    if is_type TURN_ENTRY_TYPE_EMPTY entry ||
       (is_type type entry && addr_record_is_equal (entry_record entry) record false)
    then Some (Some (Z.to_nat pos))
    else if allow_deleted && is_type TURN_ENTRY_TYPE_DELETED entry then Some (Some (Z.to_nat pos))
    else
      let pos := u32 (pos + 1) `mod` map_size m in
      if pos =? key then Some None else find_entry_loop fuel' m record type allow_deleted key pos
  end.

(** [find_entry]: [Some None] is the NULL of a full map. *)
Definition find_entry (m : turn_map) (record : addr_record) (type : turn_entry_type) (allow_deleted : bool)
    : option (option nat) :=
  if map_size m =? 0 then None
  else
    let key := u32 (addr_record_hash record false + type_number type) `mod` map_size m in
    find_entry_loop (Z.to_nat (map_size m)) m record type allow_deleted key key.

(** [update_timestamp]: the returned value and the new map. *)
Definition update_timestamp (now : Z) (m : turn_map) (type : turn_entry_type) (tid : list Z)
    (record : option addr_record) (duration : Z) : option (bool * turn_map) :=
  let stamp m i e :=
    Some (true, set_entry m i (e <| entry_timestamp := now + duration |> <| entry_fresh_tid := false |>)) in
  match record with
  | Some record =>
    let? found := find_entry m record type true in
    match found with
    | None => Some (false, m)
    | Some i =>
      let? entry := entries m !! i in
      if is_type type entry && bool_decide (entry_tid entry = tid) then Some (true, m)
      else
        let entry := if is_type type entry then entry
                     else entry <| entry_type := type |> <| entry_record := record |> in
        let? m := if negb (memory_is_zero (entry_tid entry))
                  then remove_ordered_transaction_id (set_entry m i entry) (entry_tid entry) else Some m in
        stamp m i (entry <| entry_tid := tid |>)
    end
  | None =>
    let? pos := find_ordered_transaction_id m tid in
    if pos =? transaction_ids_count m then Some (false, m)
    else
      let? i := ordered_transaction_ids m !! Z.to_nat pos in
      let? entry := entries m !! i in
      if negb (is_type type entry) || negb (bool_decide (entry_tid entry = tid)) then Some (false, m)
      else stamp m i entry
  end.

(** [turn_init_map], when the allocations succeed. *)
Definition turn_init_map (size : Z) : turn_map :=
  mkMap (replicate (Z.to_nat (size * 2)) turn_entry_zero) [] [] (size * 2).

Definition turn_set_permission (now : Z) (m : turn_map) (tid : list Z) (record : option addr_record) (duration : Z) :=
  update_timestamp now m TURN_ENTRY_TYPE_PERMISSION tid record duration.

Definition turn_has_permission (now : Z) (m : turn_map) (record : addr_record) : option bool :=
  let? found := find_entry m record TURN_ENTRY_TYPE_PERMISSION false in
  match found with
  | None => Some false
  | Some i =>
    let? entry := entries m !! i in
    if negb (is_type TURN_ENTRY_TYPE_PERMISSION entry) then Some false
    else Some (now <? entry_timestamp entry)
  end.

Definition turn_bind_channel (now : Z) (m : turn_map) (record : option addr_record) (tid : option (list Z))
    (channel duration : Z) : option (bool * turn_map) :=
  match record with
  | None => Some (false, m)
  | Some record =>
    if negb (is_valid_channel channel) then Some (false, m)
    else
      let? found := find_entry m record TURN_ENTRY_TYPE_CHANNEL true in
      match found with
      | None => Some (false, m)
      | Some i =>
        let? entry := entries m !! i in
        if is_type TURN_ENTRY_TYPE_CHANNEL entry && negb (entry_channel entry =? 0) then
          if negb (entry_channel entry =? channel) then Some (false, m)
          else Some (true, set_entry m i (entry <| entry_timestamp := now + duration |>))
        else
          let? pos := find_ordered_channel m channel in
          let? taken := if pos <? channels_count m
                        then let? other := ordered_entry m (ordered_channels m) pos in
                             Some (entry_channel other =? channel)
                        else Some false in
          if taken then Some (false, m)
          else
            let entry := if is_type TURN_ENTRY_TYPE_CHANNEL entry then entry
                         else entry <| entry_type := TURN_ENTRY_TYPE_CHANNEL |> <| entry_record := record |> in
            let? channels := insert_at m (ordered_channels m) pos i in
            let entry := entry <| entry_channel := channel |> <| entry_timestamp := now + duration |> in
            let entry := match tid with
                         | Some tid => entry <| entry_tid := tid |> <| entry_fresh_tid := true |>
                         | None => entry
                         end in
            Some (true, set_entry (m <| ordered_channels := channels |>) i entry)
      end
  end.

(** [turn_find_channel]: [None] is [false], otherwise the record. *)
Definition turn_find_channel (m : turn_map) (channel : Z) : option (option addr_record) :=
  if negb (is_valid_channel channel) then Some None
  else
    let? pos := find_ordered_channel m channel in
    if pos =? channels_count m then Some None
    else
      let? entry := ordered_entry m (ordered_channels m) pos in
      if negb (entry_channel entry =? channel) then Some None else Some (Some (entry_record entry)).

Definition turn_find_bound_channel (now : Z) (m : turn_map) (channel : Z) : option (option addr_record) :=
  if negb (is_valid_channel channel) then Some None
  else
    let? pos := find_ordered_channel m channel in
    if pos =? channels_count m then Some None
    else
      let? entry := ordered_entry m (ordered_channels m) pos in
      if negb (entry_channel entry =? channel) || (entry_timestamp entry <=? now) then Some None
      else Some (Some (entry_record entry)).

(** The first number drawn that is not bound; [None] when the numbers run out. *)
Fixpoint draw_channel (m : turn_map) (draws : list Z) : option (Z * list Z) :=
  match draws with
  | [] => None
  | r :: draws' =>
    let c := random_channel_number r in
    let? found := turn_find_channel m c in
    match found with
    | Some _ => draw_channel m draws'
    | None => Some (c, draws')
    end
  end.

(** [turn_bind_random_channel]: the channel, when bound, and the new map. *)
Definition turn_bind_random_channel (now : Z) (m : turn_map) (record : option addr_record) (draws : list Z)
    (duration : Z) : option (option Z * turn_map) :=
  let? (c, _) := draw_channel m draws in
  let? (ok, m) := turn_bind_channel now m record None c duration in
  Some (if ok : bool then Some c else None, m).

Definition turn_bind_current_channel (now : Z) (m : turn_map) (tid : list Z) (record : option addr_record) (duration : Z) :=
  update_timestamp now m TURN_ENTRY_TYPE_CHANNEL tid record duration.

Definition turn_get_channel (m : turn_map) (record : addr_record) : option (option Z) :=
  let? found := find_entry m record TURN_ENTRY_TYPE_CHANNEL false in
  match found with
  | None => Some None
  | Some i =>
    let? entry := entries m !! i in
    if negb (is_type TURN_ENTRY_TYPE_CHANNEL entry) then Some None else Some (Some (entry_channel entry))
  end.

Definition turn_get_bound_channel (now : Z) (m : turn_map) (record : addr_record) : option (option Z) :=
  let? found := find_entry m record TURN_ENTRY_TYPE_CHANNEL false in
  match found with
  | None => Some None
  | Some i =>
    let? entry := entries m !! i in
    if negb (is_type TURN_ENTRY_TYPE_CHANNEL entry) then Some None
    else if (entry_channel entry =? 0) || (entry_timestamp entry <=? now) then Some None
    else Some (Some (entry_channel entry))
  end.

(** ** Transaction identifiers *)
Definition set_transaction_id (m : turn_map) (type : turn_entry_type) (record : addr_record) (tid : list Z)
    : option (bool * turn_map) :=
  if negb (bool_decide (type = TURN_ENTRY_TYPE_PERMISSION)) && negb (bool_decide (type = TURN_ENTRY_TYPE_CHANNEL))
  then Some (false, m)
  else
    let? found := find_entry m record type true in
    match found with
    | None => Some (false, m)
    | Some i =>
      let? entry := entries m !! i in
      let? m := if is_type type entry && negb (memory_is_zero (entry_tid entry))
                then remove_ordered_transaction_id m (entry_tid entry) else Some m in
      let? pos := find_ordered_transaction_id m tid in
      let? tids := insert_at m (ordered_transaction_ids m) pos i in
      let entry := if is_type type entry then entry
                   else entry <| entry_type := type |> <| entry_record := record |> in
      Some (true, set_entry (m <| ordered_transaction_ids := tids |>) i
                    (entry <| entry_tid := tid |> <| entry_fresh_tid := true |>))
    end.

(** The entry of a transaction identifier: its pointer and its contents. *)
Definition lookup_transaction_id (m : turn_map) (tid : list Z) : option (option (nat * turn_entry)) :=
  let? pos := find_ordered_transaction_id m tid in
  if pos =? transaction_ids_count m then Some None
  else
    let? i := ordered_transaction_ids m !! Z.to_nat pos in
    let? entry := entries m !! i in
    if negb (bool_decide (entry_tid entry = tid)) then Some None else Some (Some (i, entry)).

Definition find_transaction_id (m : turn_map) (tid : list Z) : option (option addr_record) :=
  let? found := lookup_transaction_id m tid in
  Some (let? (_, entry) := found in Some (entry_record entry)).

(** The first identifier drawn that is not in use; [None] when they run out. *)
Fixpoint draw_transaction_id (m : turn_map) (draws : list (list Z)) : option (list Z * list (list Z)) :=
  match draws with
  | [] => None
  | tid :: draws' =>
    let? found := find_transaction_id m tid in
    match found with
    | Some _ => draw_transaction_id m draws'
    | None => Some (tid, draws')
    end
  end.

(** [set_random_transaction_id]: the identifier of the entry, when there is room. *)
Definition set_random_transaction_id (m : turn_map) (type : turn_entry_type) (record : addr_record)
    (draws : list (list Z)) : option (option (list Z) * turn_map) :=
  let? found := find_entry m record type false in
  let? fresh := match found with
                | None => Some None
                | Some i => let? entry := entries m !! i in
                            Some (if entry_fresh_tid entry then Some (entry_tid entry) else None)
                end in
  match fresh with
  | Some tid => Some (Some tid, m)
  | None =>
    let? (tid, _) := draw_transaction_id m draws in
    let? (ok, m) := set_transaction_id m type record tid in
    Some (if ok : bool then Some tid else None, m)
  end.

Definition turn_set_permission_transaction_id (m : turn_map) (record : addr_record) (tid : list Z) :=
  set_transaction_id m TURN_ENTRY_TYPE_PERMISSION record tid.
Definition turn_set_channel_transaction_id (m : turn_map) (record : addr_record) (tid : list Z) :=
  set_transaction_id m TURN_ENTRY_TYPE_CHANNEL record tid.
Definition turn_set_random_permission_transaction_id (m : turn_map) (record : addr_record) (draws : list (list Z)) :=
  set_random_transaction_id m TURN_ENTRY_TYPE_PERMISSION record draws.
Definition turn_set_random_channel_transaction_id (m : turn_map) (record : addr_record) (draws : list (list Z)) :=
  set_random_transaction_id m TURN_ENTRY_TYPE_CHANNEL record draws.

(** [turn_retrieve_transaction_id]: the record, and the map whose entry is no longer fresh. *)
Definition turn_retrieve_transaction_id (m : turn_map) (tid : list Z) : option (option addr_record * turn_map) :=
  let? found := lookup_transaction_id m tid in
  Some match found with
       | None => (None, m)
       | Some (i, entry) => (Some (entry_record entry), set_entry m i (entry <| entry_fresh_tid := false |>))
       end.
End Map.
