(* ===== verification/TurnTable.v ===== *)
(** * The ordered arrays, the hash table and the indexes of turn.c

    What the binary search finds in an ordered array of keys, and that
    insertion and removal where it says keep the order.  [KeyOrder] is what the
    search needs of its comparison; channels and transaction identifiers are
    its two instances.  Then what [find_entry] finds in the open-addressing
    table, how writing one entry changes it, and what the ordered arrays are as
    indexes of the entries. *)

From stdpp Require Import list sorting.
From S2P Require Import Prelude Addr Turn.

(** [dom] are the keys the code stores. *)
Class KeyOrder {K : Type} (dom : K -> Prop) (cmp : K -> K -> comparison) := {
  cmp_eq : forall a b, dom a -> dom b -> cmp a b = Eq <-> a = b;
  cmp_opp : forall a b, cmp b a = CompOpp (cmp a b);
  cmp_trans : forall a b c, dom a -> dom b -> dom c -> cmp a b = Lt -> cmp b c = Lt -> cmp a c = Lt
}.

#[export] Instance channel_order : KeyOrder (fun _ : Z => True) Z.compare.
Proof.
  split.
  - intros a b _ _. apply Z.compare_eq_iff.
  - intros a b. apply Z.compare_antisym.
  - intros a b c _ _ _. rewrite !Z.compare_lt_iff. lia.
Qed.

Definition is_tid (t : list Z) : Prop := length t = 12%nat.

Lemma memcmp_eq a b : length a = length b -> memcmp a b = Eq <-> a = b.
Proof.
  revert b. induction a as [|x a IH]; intros [|y b] Hl; simpl in *; try done.
  destruct (Z.compare_spec x y) as [->|Hlt|Hgt].
  - rewrite IH by lia. split; [by intros -> | by intros [=]].
  - split; [done|]. intros [= -> ->]. lia.
  - split; [done|]. intros [= -> ->]. lia.
Qed.

Lemma memcmp_trans a b c : length a = length b -> length b = length c ->
  memcmp a b = Lt -> memcmp b c = Lt -> memcmp a c = Lt.
Proof.
  revert b c. induction a as [|x a IH]; intros [|y b] [|z c] H1 H2; simpl in *; try done.
  destruct (Z.compare_spec x y), (Z.compare_spec y z), (Z.compare_spec x z); try done; try lia; subst.
  intros. eapply (IH b); [lia | lia | done | done].
Qed.

#[export] Instance tid_order : KeyOrder is_tid memcmp.
Proof.
  unfold is_tid. split.
  - intros a b Ha Hb. apply memcmp_eq. by rewrite Ha, Hb.
  - intros a. induction a as [|x a IH]; intros [|y b]; simpl; try done.
    rewrite (Z.compare_antisym x y). destruct (x ?= y); simpl; [apply IH | done | done].
  - intros a b c Ha Hb Hc. apply memcmp_trans; congruence.
Qed.

Section Search.
Context {K : Type} {dom : K -> Prop} {cmp : K -> K -> comparison} `{!KeyOrder dom cmp}.

Definition below (k a : K) : Prop := cmp a k = Lt.
Definition above (k a : K) : Prop := cmp k a = Lt.
Definition sorted (ks : list K) : Prop := Forall dom ks /\ StronglySorted (fun a b => cmp a b = Lt) ks.

(** [p] is where [k] is in [ks], or would be inserted. *)
Record position (k : K) (ks : list K) (p : Z) : Prop := {
  pos_range : 0 <= p <= lenZ ks;
  pos_below : Forall (below k) (take (Z.to_nat p) ks);
  pos_here : ks !! Z.to_nat p = Some k \/ Forall (above k) (drop (Z.to_nat p) ks)
}.

Lemma above_trans k a b : dom k -> dom a -> dom b -> above k a -> cmp a b = Lt -> above k b.
Proof. intros. by eapply (cmp_trans k a b). Qed.

Lemma below_trans k a b : dom k -> dom a -> dom b -> below k b -> cmp a b = Lt -> below k a.
Proof. intros. unfold below. by eapply (cmp_trans a b k). Qed.

(** The elements beside an element of a sorted list. *)
Lemma sorted_at ks i a : sorted ks -> ks !! i = Some a ->
  dom a /\ Forall (fun b => dom b /\ cmp b a = Lt) (take i ks) /\ Forall (fun b => dom b /\ cmp a b = Lt) (drop (S i) ks).
Proof.
  intros [Hd Hs] Ha. pose proof (take_drop_middle ks i a Ha) as E.
  rewrite <- E in Hs, Hd. apply StronglySorted_app in Hs as (H1 & H2 & H3). apply StronglySorted_cons in H3 as [H3 H4].
  apply Forall_app in Hd as [Hd1 Hd2]. apply Forall_cons_1 in Hd2 as [Hda Hd2].
  split; [done|]. split.
  - rewrite list.Forall_forall in *. intros b Hb. split; [by apply Hd1|]. apply H1; [done|]. by left.
  - rewrite list.Forall_forall in *. intros b Hb. split; [by apply Hd2 | by apply H3].
Qed.

Lemma find_ordered_rec_spec k ks probe : dom k -> sorted ks ->
  (forall i, 0 <= i < lenZ ks -> probe i = (let? a := ks !! Z.to_nat i in Some (cmp k a))) ->
  forall fuel b e, 0 <= b -> b <= e -> e <= lenZ ks -> e - b <= Z.of_nat fuel ->
  Forall (below k) (take (Z.to_nat b) ks) -> Forall (above k) (drop (Z.to_nat e) ks) ->
  exists p, find_ordered_rec fuel probe b e = Some p /\ position k ks p.
Proof.
  intros Hk Hks Hprobe. induction fuel as [|fuel IH]; intros b e H0 Hbe He Hf Hb Ha; cbn [find_ordered_rec].
  - assert (b = e) as <- by lia. rewrite Z.sub_diag. exists b. split; [done|]. split; [lia | done | by right].
  - case_test; zify_bool.
    { assert (b = e) as <- by lia. exists b. split; [done|]. split; [lia | done | by right]. }
    set (pivot := b + (e - b) / 2). assert (Hp : b <= pivot < e) by (subst pivot; lia_mod).
    rewrite Hprobe by lia. destruct (lookup_lt_is_Some_2 ks (Z.to_nat pivot)) as [a Hpa]; [unfold lenZ in *; lia|].
    rewrite Hpa. destruct (sorted_at ks (Z.to_nat pivot) a Hks Hpa) as (Hda & Hl & Hr).
    destruct (cmp k a) eqn:Ec.
    + apply cmp_eq in Ec as <-; [|done..]. exists pivot. split; [done|]. split; [lia | | by left].
      eapply list.Forall_impl; [exact Hl|]. intros x [_ Hx]. exact Hx.
    + apply IH; try lia; [done|]. rewrite (drop_S _ _ _ Hpa). apply Forall_cons_2; [done|].
      eapply list.Forall_impl; [exact Hr|]. intros x [Hx Hax]. by apply (above_trans k a x).
    + apply IH; try lia; [|done]. replace (Z.to_nat (pivot + 1)) with (S (Z.to_nat pivot)) by lia.
      assert (Hak : cmp a k = Lt) by (rewrite (cmp_opp k a), Ec; done).
      rewrite (take_S_r _ _ _ Hpa). apply Forall_app_2; [|by apply Forall_cons_2; [|apply Forall_nil_2]].
      eapply list.Forall_impl; [exact Hl|]. intros x [Hx Hxa]. by apply (below_trans k x a).
Qed.

Lemma cmp_irrefl a : dom a -> cmp a a <> Lt.
Proof. intros Ha. assert (cmp a a = Eq) as -> by (by apply cmp_eq). done. Qed.

Lemma position_present k ks p : dom k -> position k ks p -> k ∈ ks -> ks !! Z.to_nat p = Some k.
Proof.
  intros Hk [_ Hb [?|Ha]] Hin; [done|]. exfalso. rewrite <- (take_drop (Z.to_nat p) ks), elem_of_app in Hin.
  rewrite list.Forall_forall in Hb, Ha. destruct Hin as [Hin|Hin]; [by apply (cmp_irrefl k), Hb | by apply (cmp_irrefl k), Ha].
Qed.

Lemma position_absent k ks p : position k ks p -> k ∉ ks -> Forall (above k) (drop (Z.to_nat p) ks).
Proof. intros [_ _ [H|H]] Hn; [|done]. exfalso. by apply Hn, list_elem_of_lookup_2 with (Z.to_nat p). Qed.

Lemma sorted_insert k ks p : dom k -> sorted ks -> position k ks p -> k ∉ ks ->
  sorted (take (Z.to_nat p) ks ++ k :: drop (Z.to_nat p) ks).
Proof.
  intros Hk [Hd Hs] Hp Hn. pose proof (position_absent k ks p Hp Hn) as Ha. destruct Hp as [_ Hb _].
  split; [apply Forall_app_2; [by apply Forall_take | apply Forall_cons_2; [done | by apply Forall_drop]]|].
  rewrite <- (take_drop (Z.to_nat p) ks) in Hs. apply StronglySorted_app in Hs as (H1 & H2 & H3).
  apply StronglySorted_app_2; [|done|by apply StronglySorted_cons].
  intros x1 x2 Hx1 Hx2. apply elem_of_cons in Hx2 as [->|Hx2]; [|by apply H1].
  rewrite list.Forall_forall in Hb. by apply Hb.
Qed.

Lemma sorted_remove ks p : sorted ks -> sorted (take p ks ++ drop (S p) ks).
Proof.
  intros [Hd Hs]. split; [apply Forall_app_2; [by apply Forall_take | by apply Forall_drop]|].
  destruct (ks !! p) as [a|] eqn:E.
  - rewrite <- (take_drop_middle ks p a E) in Hs. apply StronglySorted_app in Hs as (H1 & H2 & H3).
    apply StronglySorted_cons in H3 as [_ H3]. apply StronglySorted_app_2; [|done|done].
    intros x1 x2 Hx1 Hx2. apply H1; [done|]. by right.
  - apply lookup_ge_None in E. rewrite take_ge, drop_ge by lia. by rewrite app_nil_r.
Qed.

Lemma sorted_nodup ks : sorted ks -> NoDup ks.
Proof.
  intros [Hd Hs]. induction Hs as [|a ks Hs IH Ha]; [constructor|]. apply Forall_cons_1 in Hd as [Hda Hd].
  constructor; [|by apply IH]. intros Hin. rewrite list.Forall_forall in Ha. by apply (cmp_irrefl a Hda), Ha.
Qed.
End Search.

Section Table.
Context `{Platform}.

Definition used (e : turn_entry) : Prop := entry_type e <> TURN_ENTRY_TYPE_EMPTY.
Definition inet (r : addr_record) : Prop := forall f, addr r <> sockaddr_other f.

(** The two types the operations use. *)
Definition live_type (t : turn_entry_type) : Prop := t = TURN_ENTRY_TYPE_PERMISSION \/ t = TURN_ENTRY_TYPE_CHANNEL.

Lemma is_type_true t e : is_type t e = true <-> entry_type e = t.
Proof. apply bool_decide_eq_true. Qed.
Lemma is_type_false t e : is_type t e = false <-> entry_type e <> t.
Proof. apply bool_decide_eq_false. Qed.

(** ** Probing *)

(** Where the loop of [find_entry] stops. *)
Definition stops (r : addr_record) (t : turn_entry_type) (ad : bool) (e : turn_entry) : bool :=
  is_type TURN_ENTRY_TYPE_EMPTY e || (is_type t e && addr_record_is_equal (entry_record e) r false) ||
  (ad && is_type TURN_ENTRY_TYPE_DELETED e).

(** The key of a record and type in a table of [n] entries, and the [k]-th slot probed. *)
Definition home (n : Z) (r : addr_record) (t : turn_entry_type) : Z :=
  u32 (addr_record_hash r false + type_number t) `mod` n.
Definition slot (n : Z) (r : addr_record) (t : turn_entry_type) (k : nat) : nat :=
  Z.to_nat ((home n r t + Z.of_nat k) `mod` n).

Definition sized (m : turn_map) : Prop := 0 < map_size m < 2 ^ 31 /\ length (entries m) = Z.to_nat (map_size m).

(** The slot [k] is the first at which the loop stops. *)
Definition first_stop (m : turn_map) (r : addr_record) (t : turn_entry_type) (ad : bool) (k : nat) : Prop :=
  (Z.of_nat k < map_size m) /\
  (exists e, entries m !! slot (map_size m) r t k = Some e /\ stops r t ad e = true) /\
  forall j e, (j < k)%nat -> entries m !! slot (map_size m) r t j = Some e -> stops r t ad e = false.

(** [find_entry] is the loop of the prelude. *)
Lemma find_entry_probe m r t ad : sized m ->
  find_entry m r t ad = probe (stops r t ad) (entries m) (length (entries m)) (home (map_size m) r t) (home (map_size m) r t).
Proof.
  intros [Hs Hl]. assert (Hn : lenZ (entries m) = map_size m) by (unfold lenZ; lia). unfold find_entry.
  rewrite (proj2 (Z.eqb_neq _ _)) by lia. fold (home (map_size m) r t). cbv zeta. rewrite <- Hl.
  generalize (home (map_size m) r t) at 2 4. intros pos. generalize (home (map_size m) r t). intros key.
  generalize (length (entries m)). intros fuel. revert pos. induction fuel as [|fuel IH]; intros pos; [done|].
  cbn [find_entry_loop probe]. destruct (entries m !! Z.to_nat pos) as [e|]; [|done]. cbn [mbind option_bind]. unfold stops at 1.
  destruct (is_type TURN_ENTRY_TYPE_EMPTY e || _); [done|]. cbn [orb]. destruct (ad && _); [done|].
  rewrite Hn. case_match; [done|]. apply IH.
Qed.

Lemma first_stop_probe m r t ad k : sized m ->
  first_stop m r t ad k <-> probe_stops (stops r t ad) (entries m) (home (map_size m) r t) k.
Proof. intros [Hs Hl]. unfold first_stop, probe_stops, slot, probe_slot. assert (lenZ (entries m) = map_size m) as -> by (unfold lenZ; lia). done. Qed.

Lemma slot_probe m r t k : sized m -> slot (map_size m) r t k = probe_slot (entries m) (home (map_size m) r t) k.
Proof. intros [Hs Hl]. unfold slot, probe_slot. assert (lenZ (entries m) = map_size m) as -> by (unfold lenZ; lia). done. Qed.

Lemma home_range m r t : sized m -> 0 <= home (map_size m) r t < lenZ (entries m) /\ lenZ (entries m) < 2 ^ 31.
Proof. intros [Hs Hl]. assert (lenZ (entries m) = map_size m) as -> by (unfold lenZ; lia). unfold home. lia_mod. Qed.

(** [find_entry] is total: it finds the first slot that stops it, or the table is full. *)
Lemma find_entry_spec m r t ad : sized m ->
  (exists k, first_stop m r t ad k /\ find_entry m r t ad = Some (Some (slot (map_size m) r t k))) \/
  (find_entry m r t ad = Some None /\ forall i e, entries m !! i = Some e -> stops r t ad e = false).
Proof.
  intros Hsz. destruct (home_range m r t Hsz) as [Hh Hl]. rewrite find_entry_probe by done.
  destruct (probe_spec (stops r t ad) (entries m) _ Hh Hl) as [(k & Hk & ->)|[-> Hall]]; [left|by right].
  exists k. by rewrite first_stop_probe, slot_probe.
Qed.

Lemma find_entry_first m r t ad i : sized m ->
  find_entry m r t ad = Some (Some i) <-> exists k, first_stop m r t ad k /\ i = slot (map_size m) r t k.
Proof.
  intros Hsz. destruct (find_entry_spec m r t ad Hsz) as [(k & Hk & ->) | [-> Hall]].
  - split; [intros [= <-]; by exists k|]. intros (k' & Hk' & ->). rewrite first_stop_probe in Hk, Hk' by done.
    by rewrite (probe_stops_unique _ _ _ _ _ Hk Hk').
  - split; [done|]. intros (k & (_ & (e & He & Hs) & _) & _). by rewrite (Hall _ _ He) in Hs.
Qed.

Lemma find_entry_stops m r t ad i : sized m -> find_entry m r t ad = Some (Some i) ->
  exists e, entries m !! i = Some e /\ stops r t ad e = true.
Proof. intros Hsz (k & (_ & Hk & _) & ->)%find_entry_first; done. Qed.

Lemma find_entry_none m r t ad : sized m ->
  find_entry m r t ad = Some None <-> forall i e, entries m !! i = Some e -> stops r t ad e = false.
Proof.
  intros Hsz. destruct (find_entry_spec m r t ad Hsz) as [(k & (_ & (e & He & Hs) & _) & ->) | [-> Hall]]; [|done].
  split; [done|]. intros Hall. by rewrite (Hall _ _ He) in Hs.
Qed.

(** ** Writing an entry *)
Lemma sized_set m i e : sized m -> sized (set_entry m i e).
Proof. intros [Hs Hl]. split; [done|]. cbn. by rewrite length_insert. Qed.

Lemma entries_set_eq m i e : (i < length (entries m))%nat -> entries (set_entry m i e) !! i = Some e.
Proof. intros Hi. cbn. by apply list_lookup_insert_eq. Qed.
Lemma entries_set_ne m i j e : i <> j -> entries (set_entry m i e) !! j = entries m !! j.
Proof. intros Hij. cbn. by apply list_lookup_insert_ne. Qed.

(** A search that ended at [j] still ends there, unless the new entry stops it earlier. *)
Lemma find_entry_set m i e e' r t ad j : sized m -> entries m !! i = Some e ->
  find_entry m r t ad = Some (Some j) ->
  (j = i -> stops r t ad e' = true) -> (j <> i -> stops r t ad e = true \/ stops r t ad e' = false) ->
  find_entry (set_entry m i e') r t ad = Some (Some j).
Proof.
  intros Hsz Hi Hj Heq Hne. apply find_entry_first in Hj as (k & Hk & ->); [|done].
  apply find_entry_first; [by apply sized_set|]. exists k. split; [|done]. apply first_stop_probe; [by apply sized_set|].
  rewrite first_stop_probe in Hk by done. rewrite (slot_probe m) in Heq, Hne by done. by apply (probe_insert _ _ _ _ _ e).
Qed.

(** ** Addresses that are equal are found at the same place *)
Lemma home_equal n r r' t : addr_record_is_equal r r' false = true -> home n r t = home n r' t.
Proof.
  intros Heq. unfold home, addr_record_hash. do 3 f_equal. unfold addr_record_is_equal in Heq.
  apply addr_is_equal_spec in Heq. destruct (addr r), (addr r'); try done; destruct Heq as [-> _]; done.
Qed.

Lemma equal_sym (a b : addr_record) : addr_record_is_equal a b false = addr_record_is_equal b a false.
Proof. apply addr_is_equal_sym. Qed.

Lemma equal_congr r r' x : addr_record_is_equal r r' false = true ->
  addr_record_is_equal x r false = addr_record_is_equal x r' false.
Proof.
  intros Heq. apply eq_true_iff_eq. split; intros Hx.
  - exact (addr_is_equal_trans _ _ _ _ Hx Heq).
  - rewrite equal_sym in Heq. exact (addr_is_equal_trans _ _ _ _ Hx Heq).
Qed.

Lemma equal_refl r : inet r -> addr_record_is_equal r r false = true.
Proof. intros Hi. by apply addr_is_equal_refl. Qed.

Lemma stops_equal r r' t ad e : addr_record_is_equal r r' false = true -> stops r t ad e = stops r' t ad e.
Proof. intros Heq. unfold stops. by rewrite (equal_congr r r'). Qed.

Lemma find_entry_equal m r r' t ad : sized m -> addr_record_is_equal r r' false = true ->
  find_entry m r t ad = find_entry m r' t ad.
Proof.
  intros Hsz Heq. assert (Hslot : forall k, slot (map_size m) r t k = slot (map_size m) r' t k)
    by (intros k; unfold slot; by rewrite (home_equal _ r r')).
  destruct (find_entry m r' t ad) as [[i|]|] eqn:E.
  - apply find_entry_first in E as (k & (Hk & (e & He & Hs) & Hb) & ->); [|done]. rewrite <- Hslot.
    apply find_entry_first; [done|]. exists k. split; [|done]. split; [done|]. split.
    + exists e. by rewrite Hslot, (stops_equal r r').
    + intros j e' Hj He'. rewrite (stops_equal r r') by done. apply (Hb j); [done|]. by rewrite <- Hslot.
  - apply find_entry_none; [done|]. intros i e He. rewrite (stops_equal r r') by done.
    by apply (proj1 (find_entry_none m r' t ad Hsz) E i e).
  - by destruct (find_entry_spec m r' t ad Hsz) as [(k & _ & E') | [E' _]]; rewrite E' in E.
Qed.
End Table.
