(* ===== verification/StunReceived.v ===== *)
(** * Received messages: what stun_read guarantees of their fields, whatever arrives *)

From S2P Require Import Prelude Machine Addr StunMsg StunWrite StunCodec StunWriteCorrect StunSize StunRead StunReadSafe.
From S2P Require Import TurnTable.

Section Messages.
Context `{Platform, Hashes}.

(** An address attribute, absent or read. *)
Definition received_record (r : addr_record) : Prop := record_wf r /\ (len r <> 0 -> inet r).

Definition credentials_bytes (c : stun_credentials) : Prop :=
  bytes_ok (username c) /\ bytes_ok (realm c) /\ bytes_ok (nonce c) /\ bytes_ok (password_algorithms_value c).

(** A received message, as far as the server and the agent rely on it. *)
Record message_ok (msg : stun_message) : Prop := {
  mo_tid : is_tid (transaction_id msg) /\ bytes_ok (transaction_id msg);
  mo_peers : Forall inet (peers msg);
  mo_peers_wf : Forall record_wf (peers msg);
  mo_mapped : received_record (mapped msg);
  mo_relayed : received_record (relayed msg);
  mo_alternate : received_record (alternate_server msg);
  mo_sizes : sized_credentials (credentials msg);
  mo_bytes : credentials_bytes (credentials msg);
  mo_channel : 0 <= channel_number msg < 65536;
  mo_lifetime : 0 <= lifetime msg < 2 ^ 32;
  mo_priority : 0 <= priority msg < 2 ^ 32;
  mo_data : match data msg with Some d => data_size msg = lenZ d /\ bytes_ok d | None => True end;
  mo_userhash : lenZ (userhash (credentials msg)) = USERHASH_SIZE /\ bytes_ok (userhash (credentials msg))
}.

Definition reads_ok (r : reader) : Prop :=
  match r with
  | UB => True
  | Return (m, _) | Next (m, _) => message_ok m
  end.


Lemma xor_address k a mask : bytes_ok a -> lenZ a = Z.of_nat k -> (k <= 16)%nat -> bytes_ok mask -> lenZ mask = 16 ->
  length (zip_with Z.lxor a (take k mask)) = k /\ bytes_ok (zip_with Z.lxor a (take k mask)).
Proof.
  intros Ha Hl Hk Hm Hlm. split; [rewrite length_zip_with, length_take; unfold lenZ in *; lia|].
  by apply bytes_zip_xor, Forall_take.
Qed.

Lemma xor_port data mask : bytes_ok data -> lenZ data = 2 -> bytes_ok mask -> lenZ mask = 16 ->
  0 <= Z.lxor (le_word data) (le_word (take 2 mask)) < 65536.
Proof.
  intros Hd Hl Hm Hlm. apply (lxor_range 16); [lia| |].
  - pose proof (le_word_range data Hd) as Hr. by rewrite Hl in Hr.
  - assert (bytes_ok (take 2 mask)) as Ht by by apply Forall_take.
    pose proof (le_word_range _ Ht) as Hr. replace (lenZ (take 2 mask)) with 2 in Hr; [done|].
    unfold lenZ in *. rewrite length_take. lia.
Qed.

Lemma mapped_received value n r0 mask r ret :
  bytes_ok value -> bytes_ok mask -> lenZ mask = 16 -> received_record r0 ->
  stun_read_value_mapped_address value n r0 mask = Some (r, ret) -> received_record r.
Proof.
  intros Hv Hm Hlm Hr0. unfold stun_read_value_mapped_address. cbv zeta.
  case_test; [by intros [= <- _]|]. destruct (load 1 1 value) as [f|]; [|done]. cbn [acc obind].
  unfold load16. destruct (load 2 2 value) as [port|] eqn:Ep; [|done]. cbn [acc obind].
  pose proof (load_bytes Hv Ep) as Hpb. apply load_some in Ep as (_ & _ & _ & _ & Hpl).
  pose proof (xor_port port mask Hpb Hpl Hm Hlm) as Hport.
  case_test; [|case_test; [|by intros [= <- _]]].
  - case_test; [by intros [= <- _]|]. destruct (load 4 4 value) as [a|] eqn:Ea; [|done]. cbn [acc obind run].
    pose proof (load_bytes Hv Ea) as Hab. apply load_some in Ea as (_ & _ & _ & _ & Hal).
    intros [= <- _]. destruct (xor_address 4 a mask Hab Hal ltac:(lia) Hm Hlm) as [Hl Hb].
    split; [by split|by intros _ fam].
  - case_test; [by intros [= <- _]|]. destruct (load 4 16 value) as [a|] eqn:Ea; [|done]. cbn [acc obind run].
    pose proof (load_bytes Hv Ea) as Hab. apply load_some in Ea as (_ & _ & _ & _ & Hal).
    intros [= <- _]. destruct (xor_address 16 a mask Hab Hal ltac:(lia) Hm Hlm) as [Hl Hb].
    split; [by split|by intros _ fam].
Qed.

Lemma record_zero_received : received_record addr_record_zero.
Proof. split; [split; [apply not_eq_sym, AF_specified|apply not_eq_sym, AF_specified]|done]. Qed.

Lemma zero_mask_ok : bytes_ok zero_mask /\ lenZ zero_mask = 16.
Proof. split; [by repeat constructor|done]. Qed.

Lemma message_mask msg : message_ok msg -> bytes_ok (generate_mask (transaction_id msg)) /\ lenZ (generate_mask (transaction_id msg)) = 16.
Proof. intros Hok. destruct (mo_tid _ Hok) as [Ht Hb]. split; [by apply mask_bytes|by apply mask_length]. Qed.

Lemma cstr_bytes s : bytes_ok s -> bytes_ok (cstr s).
Proof. intros Hs. induction Hs as [|b s Hb Hs IH]; cbn; [constructor|]. case_test; by constructor. Qed.

Lemma lenZ_cstr s : lenZ (cstr s) <= lenZ s.
Proof. pose proof (length_cstr s). unfold lenZ. lia. Qed.

Lemma ntohl_range x : 0 <= ntohl x < 2 ^ 32.
Proof. apply bswap32_range. Qed.

(** A branch that does not touch the fields keeps them. *)
Ltac keep := first [done | match goal with H : message_ok _ |- _ => destruct H; split; cbn; assumption end].

Ltac keep_with Hr := match goal with H : message_ok _ |- _ => destruct H; split; cbn; first [assumption | exact Hr] end.

(** A branch that changes one of the credentials. *)
Ltac keep_credentials :=
  match goal with H : message_ok _ |- _ =>
    destruct H as [? ? ? ? ? ? Hsizes Hbytes ? ? ? ? ?]; destruct Hsizes, Hbytes as (? & ? & ? & ?);
    split; cbn; try assumption;
    [split; cbn; zify_bool; try assumption; try (etransitivity; [apply lenZ_cstr|]; unfold STUN_MAX_USERNAME_LEN, STUN_MAX_REALM_LEN, STUN_MAX_NONCE_LEN, STUN_MAX_PASSWORD_ALGORITHMS_VALUE_SIZE in *; lia); try lia
    |split_and!; cbn; try assumption; try (by apply cstr_bytes)|..]
  end.

Ltac open_load :=
  match goal with
  | |- context [acc ?l] => destruct l as [?|] eqn:?; cbn [acc obind]; [|done]
  end.

Lemma read_address_ok value n r mask set bits :
  bytes_ok value -> bytes_ok mask /\ lenZ mask = 16 -> received_record r ->
  (forall r, received_record r -> message_ok (set r)) -> reads_ok (read_address value n r mask set bits).
Proof.
  intros Hv [Hm Hl] Hr Hs. unfold read_address. open_load. destruct p as [r' ret]. cbn.
  match goal with E : stun_read_value_mapped_address _ _ _ _ = _ |- _ => pose proof (mapped_received _ _ _ _ _ _ Hv Hm Hl Hr E) as Hr' end.
  by case_test; apply Hs.
Qed.

Lemma read_turn_value_ok type value msg bits :
  bytes_ok value -> message_ok msg -> reads_ok (read_turn_value type value msg bits).
Proof.
  intros Hb Hok. unfold read_turn_value. cbv zeta.
  repeat case_test; try (cbn [reads_ok]; keep); try open_load; try (cbn [reads_ok]; keep).
  - cbn. destruct Hok; split; cbn; try assumption. apply bswap16_range.
  - cbn. destruct Hok; split; cbn; try assumption. apply ntohl_range.
  - destruct p as [r ret]. case_test; zify_bool; [cbn; keep|]. case_test; zify_bool; [|cbn; keep].
    destruct (message_mask _ Hok) as [Hm Hl].
    match goal with E : stun_read_value_mapped_address _ _ _ _ = _ |- _ =>
      destruct (mapped_received _ _ _ _ _ _ Hb Hm Hl record_zero_received E) as [Hw Hi] end.
    cbn. destruct Hok; split; cbn; try assumption; (apply Forall_app_2; [done|]; by repeat constructor; auto).
  - apply read_address_ok; [done|by apply message_mask|by apply mo_relayed|]. intros r Hr. keep_with Hr.
  - cbn. destruct Hok; split; cbn; try assumption. done.
  - cbn. case_test; keep.
Qed.

Lemma read_ice_value_ok type value msg bits :
  bytes_ok value -> message_ok msg -> reads_ok (read_ice_value type value msg bits).
Proof.
  intros Hb Hok. unfold read_ice_value. cbv zeta.
  repeat (case_test; [|]); try (cbn [reads_ok]; keep); try open_load; try (cbn [reads_ok]; keep).
  - cbn. zify_bool. keep_credentials. done.
  - cbn. destruct Hok; split; cbn; try assumption. apply ntohl_range.
  - by apply read_turn_value_ok.
Qed.

Lemma read_value_ok type value msg bits :
  bytes_ok value -> message_ok msg -> reads_ok (read_value type value msg bits).
Proof.
  intros Hb Hok. unfold read_value. cbv zeta. pose proof (message_mask _ Hok) as Hmask.
  repeat (case_test; [|]); try (cbn [reads_ok]; keep);
    try (apply read_address_ok; [done|first [done|apply zero_mask_ok]|by destruct Hok|]; intros ? Hr; keep_with Hr);
    try (cbn [reads_ok]; keep_credentials); try open_load; try (cbn [reads_ok]; keep); try (by apply read_ice_value_ok).
  - cbn. keep_credentials.
  - cbn. case_test; keep_credentials.
  - repeat case_match; cbn; keep_credentials.
Qed.

Lemma read_attr_ok mem pos size msg begin bits mem' msg' bits' ret :
  bytes_ok mem -> message_ok msg -> stun_read_attr mem pos size msg begin bits = Some (mem', msg', bits', ret) ->
  message_ok msg'.
Proof.
  intros Hb Hok. unfold stun_read_attr. cbv zeta. intros E.
  repeat match type of E with context [if ?b then _ else _] =>
    lazymatch b with context [load] => fail | _ => destruct b; cbn [acc obind run] in E end
  | _ => match type of E with context [acc (load16 ?o ?v)] => destruct (load16 o v); cbn [acc obind run] in E end
  end; simplify_eq; try done.
  all: destruct (load (pos + 4) _ mem) as [value|] eqn:Ev; cbn [acc obind run] in E; [|done].
  all: pose proof (load_bytes Hb Ev) as Hv.
  all: repeat match type of E with context [if ?b then _ else _] => destruct b; cbn [acc obind run] in E end;
    simplify_eq; try done.
  - destruct (check_fingerprint _ _ _ _) as [[m []]|]; cbn [acc obind run] in E; simplify_eq; keep.
  - pose proof (read_value_ok (ntohs z) value msg bits Hv Hok) as Hr.
    destruct (read_value _ value msg bits) as [|[m b]|[m b]]; cbn [run] in E; simplify_eq; done.
Qed.

Lemma read_loop_ok fuel mem pos end_ msg bits : bytes_ok mem -> 20 <= pos -> end_ <= lenZ mem -> message_ok msg ->
  match stun_read_loop fuel mem pos end_ msg bits with
  | Some (inl (_, m)) | Some (inr (_, m, _)) => message_ok m
  | None => True
  end.
Proof.
  revert pos msg bits. induction fuel as [|fuel IH]; intros pos msg bits Hb Hp He Hok; cbn [stun_read_loop];
    (case_test; zify_bool; [|done]); [done|].
  destruct (stun_read_attr_safe mem pos end_ msg bits Hb ltac:(lia) He) as (m & b & ret & Er & Hret).
  rewrite Er. pose proof (read_attr_ok _ _ _ _ _ _ _ _ _ _ Hb Hok Er) as Hm.
  case_test; zify_bool; [done|]. apply IH; try done.
  destruct Hret as [->|(l & _ & _ & ->)]; [lia|]. pose proof (align32_ntohs_nonneg l). lia.
Qed.

Lemma finish_ok msg bits : message_ok msg -> message_ok (stun_read_finish msg bits).
Proof.
  intros Hok. unfold stun_read_finish, enable_anonymity, select_algorithm, check_algorithms.
  cbv zeta. repeat case_test; cbn; first [done | keep | keep_credentials].
Qed.

Lemma read_message_ok mem size msg ret : bytes_ok mem -> 0 <= size <= lenZ mem ->
  stun_read mem size = Some (mem, msg, ret) -> message_ok msg.
Proof.
  intros Hb Hs. unfold stun_read. cbv zeta. unfold sizeof_stun_header.
  assert (message_ok stun_message_zero) as Hz.
  { pose proof record_zero_received.
    split; cbn; try done; try (by repeat constructor); try (by split; by repeat constructor). }
  case_test; [by intros [= <- _]|]. destruct (load16 2 mem) as [l|] eqn:El; [|done].
  case_test; zify_bool; [by intros [= <- _]|]. destruct (load16 0 mem) as [t|]; [|done].
  destruct (load 8 12 mem) as [tid|] eqn:Et; [|done]. pose proof (load_bytes Hb Et) as Htb.
  apply load_some in Et as (_ & _ & _ & _ & Htl). pose proof (ntohs_range l).
  match goal with |- context [stun_read_loop ?f ?m ?p ?e ?msg ?b] =>
    pose proof (read_loop_ok f m p e msg b Hb ltac:(lia) ltac:(lia)) as Hl;
    destruct (stun_read_loop f m p e msg b) as [[[m' msg']|[[m' msg'] b']]|]; [| |done] end.
  all: intros [= -> <- <-]; try apply finish_ok; apply Hl; destruct Hz; split; cbn; try assumption.
  all: unfold is_tid, lenZ in *; split; [lia|done].
Qed.

(** A name put in by the receiver. *)
Lemma message_ok_username msg u : message_ok msg -> bytes_ok u ->
  message_ok (msg <| credentials ::= fun c => c <| username := snprintf_clip STUN_MAX_USERNAME_LEN u |> |>).
Proof.
  intros Hm Hu. keep_credentials; [|by apply Forall_take].
  unfold snprintf_clip, lenZ, STUN_MAX_USERNAME_LEN. rewrite length_take. lia.
Qed.

(** *** The payload is smaller than the message *)
Definition data_le (n : Z) (msg : stun_message) : Prop := forall d, data msg = Some d -> lenZ d <= n.

Definition reads_le (n : Z) (r : reader) : Prop :=
  match r with
  | UB => True
  | Return (m, _) | Next (m, _) => data_le n m
  end.

Lemma read_value_le n type value msg bits : data_le n msg -> lenZ value <= n -> reads_le n (read_value type value msg bits).
Proof.
  intros Hd Hv. unfold read_value, read_ice_value, read_turn_value, read_address. cbv zeta.
  repeat first [ case_test | open_load | progress case_match ]; try exact Hd.
  intros d [= <-]. exact Hv.
Qed.

Lemma read_attr_le n mem pos size msg begin bits mem' msg' bits' ret :
  data_le n msg -> size - 4 <= n -> stun_read_attr mem pos size msg begin bits = Some (mem', msg', bits', ret) -> data_le n msg'.
Proof.
  intros Hd Hn. unfold stun_read_attr, sizeof_stun_attr. cbv zeta.
  case_test; [by intros [= _ <- _ _]|]. case_test; [by intros [= _ <- _ _]|].
  destruct (load16 pos mem) as [t|]; [|done]. destruct (load16 (pos + 2) mem) as [l|]; [|done]. cbn [acc obind].
  case_test; [by intros [= _ <- _ _]|]. case_test; [by intros [= _ <- _ _]|].
  destruct (load (pos + 4) (ntohs l) mem) as [value|] eqn:Ev; [|done]. cbn [acc obind].
  apply load_some in Ev as (_ & _ & _ & _ & Hl). zify_bool.
  case_test.
  - case_test; [by intros [= _ <- _ _]|]. destruct (check_fingerprint _ _ _ _) as [[m []]|]; [| |done]; cbn [acc obind run];
      intros [= _ <- _ _]; exact Hd.
  - pose proof (read_value_le n (ntohs t) value msg bits Hd ltac:(clear - Hl Hn E1; lia)) as Hr.
    destruct (read_value _ _ _ _) as [|[m b]|[m b]]; cbn [run]; [done|..]; intros [= _ <- _ _]; exact Hr.
Qed.

Lemma read_loop_le n fuel mem pos end_ msg bits : bytes_ok mem -> 20 <= pos -> end_ <= lenZ mem ->
  data_le n msg -> end_ - 24 <= n ->
  match stun_read_loop fuel mem pos end_ msg bits with
  | Some (inl (_, m)) | Some (inr (_, m, _)) => data_le n m
  | None => True
  end.
Proof.
  revert pos msg bits. induction fuel as [|fuel IH]; intros pos msg bits Hb Hp He Hd Hn; cbn [stun_read_loop];
    (case_test; zify_bool; [|done]); [done|].
  destruct (stun_read_attr_safe mem pos end_ msg bits Hb ltac:(lia) He) as (m & b & ret & Er & Hret).
  rewrite Er. pose proof (read_attr_le n mem pos (end_ - pos) msg sizeof_stun_header bits mem m b ret Hd ltac:(lia) Er) as Hm.
  case_test; zify_bool; [done|]. apply IH; try done.
  destruct Hret as [->|(l & _ & _ & ->)]; [lia|]. pose proof (align32_ntohs_nonneg l). lia.
Qed.

Lemma finish_data msg bits : data (stun_read_finish msg bits) = data msg.
Proof.
  unfold stun_read_finish, enable_anonymity, select_algorithm, check_algorithms. cbv zeta. by repeat case_test.
Qed.

Lemma read_data_le mem size msg ret mem' : bytes_ok mem -> 0 <= size <= lenZ mem ->
  stun_read mem size = Some (mem', msg, ret) -> data_le (size - 24) msg.
Proof.
  intros Hb Hs. unfold stun_read. cbv zeta. unfold sizeof_stun_header.
  case_test; [by intros [= _ <- _]|]. destruct (load16 2 mem) as [l|]; [|done].
  case_test; zify_bool; [by intros [= _ <- _]|]. destruct (load16 0 mem) as [t|]; [|done].
  destruct (load 8 12 mem) as [tid|]; [|done]. pose proof (ntohs_range l).
  match goal with |- context [stun_read_loop ?f ?m ?p ?e ?msg ?b] =>
    assert (Hz : data_le (size - 24) msg) by done;
    pose proof (read_loop_le (size - 24) f m p e msg b Hb ltac:(lia) ltac:(lia) Hz ltac:(lia)) as Hl;
    destruct (stun_read_loop f m p e msg b) as [[[m' msg']|[[m' msg'] b']]|]; [| |done] end.
  - intros [= _ <- _]. exact Hl.
  - intros [= _ <- _]. unfold data_le. by rewrite finish_data.
Qed.

(** Whether it is one. *)
Lemma is_stun_total buf size : 0 <= size <= lenZ buf -> is_Some (is_stun_datagram buf size).
Proof.
  intros Hs. unfold is_stun_datagram, sizeof_stun_header.
  assert (Hrest : is_Some (run (if size <? 20 then Return false
    else
      let! magic := acc (load32 4 buf) in
      if negb (ntohl magic =? STUN_MAGIC) then Return false
      else
        let! len := acc (load16 2 buf) in
        let length := ntohs len in
        if negb (Z.land length 0x03 =? 0) then Return false
        else if negb (size =? 20 + length) then Return false
        else Return true))).
  { case_test; zify_bool; [by eexists|]. unfold load32, load16. rewrite !load_ok by lia. cbn [obind acc].
    case_test; [by eexists|]. cbv zeta. case_test; [by eexists|]. case_test; by eexists. }
  case_test; zify_bool; [by eexists|]. rewrite load_ok by lia. cbn [obind acc]. case_test; [by eexists|]. exact Hrest.
Qed.
End Messages.
