(* ===== verification/TurnInv.v ===== *)
(** * The invariant of the TURN map

    [table_ok]: every entry in use is where [find_entry] looks for it.
    [index_ok]: an ordered array holds pointers to exactly the entries that
    carry a key, in the order of their keys. *)

From stdpp Require Import list sorting.
From S2P Require Import Prelude Addr Turn TurnTable.

Section Inv.
Context `{Platform}.

Record entry_ok (e : turn_entry) : Prop := {
  e_empty : entry_type e = TURN_ENTRY_TYPE_EMPTY -> e = turn_entry_zero;
  e_live : entry_type e = TURN_ENTRY_TYPE_EMPTY \/ live_type (entry_type e);
  e_tid : is_tid (entry_tid e);
  e_channel : entry_channel e = 0 \/ (entry_type e = TURN_ENTRY_TYPE_CHANNEL /\ 0x4000 <= entry_channel e < 65536)
}.

Record table_ok (m : turn_map) : Prop := {
  t_sized : sized m;
  t_entry : forall i e, entries m !! i = Some e -> entry_ok e;
  t_found : forall i e, entries m !! i = Some e -> used e ->
    inet (entry_record e) /\ forall ad, find_entry m (entry_record e) (entry_type e) ad = Some (Some i)
}.

Lemma entry_ok_zero : entry_ok turn_entry_zero.
Proof. split; [done | by left | done | by left]. Qed.

Lemma live_used t e : live_type t -> entry_type e = t -> used e.
Proof. unfold used. intros [-> | ->] ->; done. Qed.

Lemma stops_match r t ad e : entry_ok e -> live_type t ->
  stops r t ad e = true <->
  entry_type e = TURN_ENTRY_TYPE_EMPTY \/ (entry_type e = t /\ addr_record_is_equal (entry_record e) r false = true).
Proof.
  intros He Ht. unfold stops. rewrite !orb_true_iff, !andb_true_iff, !is_type_true.
  split; [|tauto]. intros [?|[_ Hd]]; [done|]. exfalso.
  destruct (e_live e He) as [E|[E|E]]; rewrite E in Hd; done.
Qed.

(** What a search finds: the entry of the address, a free slot, or nothing. *)
Inductive found (m : turn_map) (r : addr_record) (t : turn_entry_type) : option nat -> Prop :=
| found_entry i e :
    entries m !! i = Some e -> entry_type e = t -> addr_record_is_equal (entry_record e) r false = true ->
    found m r t (Some i)
| found_free i :
    entries m !! i = Some turn_entry_zero ->
    (forall j e, entries m !! j = Some e -> entry_type e = t -> addr_record_is_equal (entry_record e) r false = false) ->
    found m r t (Some i)
| found_full :
    (forall j e, entries m !! j = Some e -> used e) ->
    (forall j e, entries m !! j = Some e -> entry_type e = t -> addr_record_is_equal (entry_record e) r false = false) ->
    found m r t None.

Lemma find_entry_found m r t ad : table_ok m -> live_type t ->
  exists f, find_entry m r t ad = Some f /\ found m r t f.
Proof.
  intros Hok Ht. pose proof (t_sized m Hok) as Hsz.
  assert (Hother : forall f, find_entry m r t ad = Some f ->
      (forall j e, f = Some j -> entries m !! j = Some e -> entry_type e <> t) ->
      forall j e, entries m !! j = Some e -> entry_type e = t -> addr_record_is_equal (entry_record e) r false = false).
  { intros f Hf Hj j e He Hte. destruct (addr_record_is_equal (entry_record e) r false) eqn:Eq; [exfalso|done].
    destruct (t_found m Hok j e He) as [_ Hfind]; [by eapply live_used|]. specialize (Hfind ad).
    rewrite Hte, (find_entry_equal m _ r) in Hfind by done. rewrite Hf in Hfind. injection Hfind as ->. by apply (Hj j e). }
  destruct (find_entry_spec m r t ad Hsz) as [(k & Hk & Ef) | [Ef Hall]].
  - destruct (find_entry_stops m r t ad _ Hsz Ef) as (e & He & Hs). exists (Some (slot (map_size m) r t k)). split; [done|].
    pose proof (t_entry m Hok _ _ He) as Heok. apply stops_match in Hs as [Hs|[Hs Heq]]; [| |done|done].
    + pose proof (e_empty e Heok Hs) as ->. apply found_free; [done|]. apply (Hother _ Ef).
      intros j e [= <-] He'. rewrite He in He'. injection He' as <-. by destruct Ht as [-> | ->].
    + by eapply found_entry.
  - exists None. split; [done|]. apply found_full; [|by apply (Hother _ Ef)].
    intros j e He Hemp. specialize (Hall j e He). unfold stops in Hall.
    assert (Hty : is_type TURN_ENTRY_TYPE_EMPTY e = true) by (by apply is_type_true). rewrite Hty in Hall. done.
Qed.

(** An entry in use is the only one with its type and address. *)
Lemma entry_unique m i j e e' : table_ok m -> entries m !! i = Some e -> entries m !! j = Some e' -> used e ->
  entry_type e = entry_type e' -> addr_record_is_equal (entry_record e) (entry_record e') false = true -> i = j.
Proof.
  intros Hok Hi Hj Hu Ht Heq. assert (Hu' : used e') by (unfold used in *; congruence).
  destruct (t_found m Hok i e Hi Hu) as [_ F1]. destruct (t_found m Hok j e' Hj Hu') as [_ F2].
  specialize (F1 false). specialize (F2 false). rewrite Ht, (find_entry_equal m _ (entry_record e')) in F1; [|apply Hok|done].
  congruence.
Qed.

(** Rewriting an entry in use, of the same type and record. *)
Lemma table_keep m i e e' : table_ok m -> entries m !! i = Some e -> used e -> entry_ok e' ->
  entry_type e' = entry_type e -> entry_record e' = entry_record e -> table_ok (set_entry m i e').
Proof.
  intros Hok Hi Hu He' Ht Hr. pose proof (lookup_lt_Some _ _ _ Hi) as Hlt.
  assert (Hstops : forall r t ad, stops r t ad e' = stops r t ad e) by (intros; unfold stops, is_type; by rewrite Ht, Hr).
  assert (Hfind : forall j ej r t ad, entries m !! j = Some ej -> find_entry m r t ad = Some (Some j) ->
    find_entry (set_entry m i e') r t ad = Some (Some j)).
  { intros j ej r t ad Hej Hf. apply (find_entry_set m i e); [apply Hok | done | done | |].
    - intros ->. destruct (find_entry_stops m r t ad i (t_sized m Hok) Hf) as (e0 & He0 & Hs).
      rewrite Hi in He0. injection He0 as <-. by rewrite Hstops.
    - intros _. rewrite Hstops. destruct (stops r t ad e); auto. }
  split.
  - apply sized_set, Hok.
  - intros j ej Hj. destruct (decide (j = i)) as [->|]; [rewrite entries_set_eq in Hj by done; congruence|].
    rewrite entries_set_ne in Hj by done. by apply (t_entry m Hok j).
  - intros j ej Hj Huj. destruct (decide (j = i)) as [->|].
    + rewrite entries_set_eq in Hj by done. injection Hj as <-. rewrite Ht, Hr.
      destruct (t_found m Hok i e Hi Hu) as [Hin Hf]. split; [done|]. intros ad. by apply (Hfind i e).
    + rewrite entries_set_ne in Hj by done. destruct (t_found m Hok j ej Hj Huj) as [Hin Hf].
      split; [done|]. intros ad. by apply (Hfind j ej).
Qed.

(** Filling the free slot that a search found. *)
Lemma table_fill m i e' ad : table_ok m -> entries m !! i = Some turn_entry_zero -> entry_ok e' -> used e' ->
  inet (entry_record e') -> find_entry m (entry_record e') (entry_type e') ad = Some (Some i) ->
  (forall j e, entries m !! j = Some e -> entry_type e = entry_type e' ->
     addr_record_is_equal (entry_record e) (entry_record e') false = false) ->
  table_ok (set_entry m i e').
Proof.
  intros Hok Hi He' Hu Hin Hf Hno. pose proof (lookup_lt_Some _ _ _ Hi) as Hlt. pose proof (t_sized m Hok) as Hsz.
  assert (Hzero : forall r t ad, stops r t ad turn_entry_zero = true) by done.
  assert (Hlive : live_type (entry_type e')) by (destruct (e_live e' He') as [E|E]; [by elim Hu | done]).
  split.
  - by apply sized_set.
  - intros j ej Hj. destruct (decide (j = i)) as [->|]; [rewrite entries_set_eq in Hj by done; congruence|].
    rewrite entries_set_ne in Hj by done. by apply (t_entry m Hok j).
  - intros j ej Hj Huj. destruct (decide (j = i)) as [->|].
    + rewrite entries_set_eq in Hj by done. injection Hj as <-. split; [done|]. intros ad'.
      assert (Hf' : find_entry m (entry_record e') (entry_type e') ad' = Some (Some i)).
      { apply find_entry_first in Hf as (k & (Hk & (ek & Hek & Hs) & Hb) & ->); [|done].
        apply find_entry_first; [done|]. exists k. split; [|done]. split; [done|]. split.
        - exists ek. split; [done|]. by rewrite Hi in Hek; injection Hek as <-.
        - intros q eq Hq Heq. pose proof (Hb q eq Hq Heq) as Hns. pose proof (t_entry m Hok _ _ Heq) as Heok.
          destruct (stops _ _ ad' eq) eqn:E; [exfalso|done]. apply stops_match in E; [|done..].
          rewrite (proj2 (stops_match _ _ ad eq Heok Hlive) E) in Hns. done. }
      apply (find_entry_set m i turn_entry_zero); [done | done | done | | by left].
      intros _. apply stops_match; [done|done|]. right. split; [done|]. by apply equal_refl.
    + rewrite entries_set_ne in Hj by done. destruct (t_found m Hok j ej Hj Huj) as [Hinj Hfj].
      split; [done|]. intros ad'. apply (find_entry_set m i turn_entry_zero); [done | done | apply Hfj | done | by left].
Qed.

(** The ordered arrays play no part in the searches. *)
Lemma find_entry_entries m m' r t ad : entries m' = entries m -> map_size m' = map_size m ->
  find_entry m' r t ad = find_entry m r t ad.
Proof.
  intros He Hs. unfold find_entry. rewrite Hs. destruct (map_size m =? 0); [done|]. cbv zeta.
  generalize (u32 (addr_record_hash r false + type_number t) `mod` map_size m) at 1 3 as key.
  generalize (u32 (addr_record_hash r false + type_number t) `mod` map_size m) as pos.
  induction (Z.to_nat (map_size m)) as [|fuel IH]; intros pos key; cbn [find_entry_loop]; [done|].
  rewrite He, Hs. destruct (entries m !! Z.to_nat pos); [|done]. by rewrite IH.
Qed.

Lemma table_entries m m' : entries m' = entries m -> map_size m' = map_size m -> table_ok m -> table_ok m'.
Proof.
  intros He Hs [[H1 H2] H3 H4]. split.
  - split; [by rewrite Hs | by rewrite He, Hs].
  - by rewrite He.
  - rewrite He. intros i e Hi Hu. destruct (H4 i e Hi Hu) as [? Hf]. split; [done|]. intros ad.
    by rewrite (find_entry_entries m m').
Qed.
End Inv.

(** ** Indexes *)
Section Index.
Context {K : Type} {dom : K -> Prop} {cmp : K -> K -> comparison} `{!KeyOrder dom cmp}.

(** The key of an entry, and which entries the index covers. *)
Context (keyf : turn_entry -> K) (live : nat -> turn_entry -> Prop).

Definition entry_at (m : turn_map) (i : nat) : turn_entry := default turn_entry_zero (entries m !! i).
Definition keys (m : turn_map) (l : list nat) : list K := (fun i => keyf (entry_at m i)) <$> l.

Record index_ok (m : turn_map) (l : list nat) : Prop := {
  i_sorted : sorted (dom := dom) (cmp := cmp) (keys m l);
  i_elem : forall i, i ∈ l <-> exists e, entries m !! i = Some e /\ live i e
}.

Lemma entry_at_lookup m i e : entries m !! i = Some e -> entry_at m i = e.
Proof. intros E. unfold entry_at. by rewrite E. Qed.

Lemma lenZ_keys m l : lenZ (keys m l) = lenZ l.
Proof. unfold keys, lenZ. by rewrite length_fmap. Qed.

(** The search through the pointers is a search in the list of keys. *)
Lemma index_search m l k : index_ok m l -> dom k ->
  exists p, find_ordered_rec (Z.to_nat (lenZ l - 0))
    (fun pivot => let? e := ordered_entry m l pivot in Some (cmp k (keyf e))) 0 (lenZ l) = Some p /\
    position (cmp := cmp) k (keys m l) p.
Proof.
  intros [Hs Hi] Hk. rewrite <- (lenZ_keys m l).
  pose proof (lenZ_nonneg (keys m l)).
  apply find_ordered_rec_spec; try done; try lia.
  - intros i Hir. unfold ordered_entry. rewrite lenZ_keys in Hir.
    replace (i <? 0) with false by (symmetry; apply Z.ltb_ge; lia).
    unfold keys. rewrite list_lookup_fmap. destruct (lookup_lt_is_Some_2 l (Z.to_nat i)) as [j Hj]; [unfold lenZ in *; lia|].
    rewrite Hj. cbn [fmap option_fmap option_map]. destruct (proj1 (Hi j)) as (e & He & _); [by eapply list_elem_of_lookup_2|].
    rewrite He. by rewrite (entry_at_lookup m j e).
  - rewrite drop_ge by (unfold lenZ; lia). constructor.
Qed.

(** A key that is found is that of a covered entry; one that is not is of none. *)
Lemma index_here m l k p : index_ok m l -> keys m l !! Z.to_nat p = Some k ->
  exists i e, l !! Z.to_nat p = Some i /\ entries m !! i = Some e /\ live i e /\ keyf e = k.
Proof.
  intros [Hs Hi] Hk. unfold keys in Hk. rewrite list_lookup_fmap in Hk. destruct (l !! Z.to_nat p) as [i|] eqn:E; [|done].
  cbn in Hk. injection Hk as <-. destruct (proj1 (Hi i)) as (e & He & Hl); [by eapply list_elem_of_lookup_2|].
  exists i, e. by rewrite (entry_at_lookup m i e).
Qed.

Lemma index_keys m l i e : index_ok m l -> entries m !! i = Some e -> live i e -> keyf e ∈ keys m l.
Proof.
  intros [Hs Hi] He Hl. unfold keys. apply list_elem_of_fmap. exists i. rewrite (entry_at_lookup m i e) by done.
  split; [done|]. apply Hi. by exists e.
Qed.

Lemma index_nodup m l : index_ok m l -> NoDup l.
Proof. intros [Hs _]. eapply NoDup_fmap_1. by apply (sorted_nodup (K := K) (dom := dom) (cmp := cmp)). Qed.

(** Two covered entries have different keys. *)
Lemma index_inj m l i j e e' : index_ok m l -> entries m !! i = Some e -> live i e ->
  entries m !! j = Some e' -> live j e' -> keyf e = keyf e' -> i = j.
Proof.
  intros Hix Hi Hli Hj Hlj Hk. pose proof (sorted_nodup _ (i_sorted _ _ Hix)) as Hnd.
  assert (Hi' : i ∈ l) by (apply Hix; by exists e). assert (Hj' : j ∈ l) by (apply Hix; by exists e').
  apply list_elem_of_lookup in Hi' as [a Ha]. apply list_elem_of_lookup in Hj' as [b Hb].
  assert (Hab : a = b); [|congruence]. apply (NoDup_lookup (keys m l) a b (keyf e)); [done| |].
  - unfold keys. by rewrite list_lookup_fmap, Ha; cbn; rewrite (entry_at_lookup m i e).
  - unfold keys. by rewrite list_lookup_fmap, Hb; cbn; rewrite (entry_at_lookup m j e'), Hk.
Qed.

Lemma index_entries m m' l : entries m' = entries m -> index_ok m l -> index_ok m' l.
Proof.
  intros He [Hs Hl]. assert (Hk : keys m' l = keys m l) by (unfold keys, entry_at; by rewrite He).
  split; [by rewrite Hk | by rewrite He].
Qed.

Lemma keys_set m l i e : i ∉ l -> keys (set_entry m i e) l = keys m l.
Proof.
  intros Hn. unfold keys. apply list_fmap_ext. intros k j Hj. f_equal. unfold entry_at. f_equal.
  apply entries_set_ne. intros ->. by apply Hn, list_elem_of_lookup_2 with k.
Qed.
End Index.

(** ** Updating an index *)
Section Update.
Context {K : Type} {dom : K -> Prop} {cmp : K -> K -> comparison} `{!KeyOrder dom cmp}.
Context (keyf : turn_entry -> K).
Abbreviation ok := (index_ok (dom := dom) (cmp := cmp) keyf).

(** Every covered entry but the one at [i]. *)
Definition but (i : nat) (live : nat -> turn_entry -> Prop) : nat -> turn_entry -> Prop :=
  fun j e => live j e /\ j <> i.

Lemma index_but i e live m l : entries m !! i = Some e -> ~ live i e -> ok live m l -> ok (but i live) m l.
Proof.
  intros Hi Hn [Hs Hl]. split; [done|]. intros j. rewrite Hl. unfold but. split; intros (e' & He' & ?).
  - exists e'. split_and!; try done. intros ->. congruence.
  - exists e'. tauto.
Qed.

Lemma index_keep i e e' live m l : ok live m l -> entries m !! i = Some e ->
  (live i e' <-> live i e) -> (live i e -> keyf e' = keyf e) -> ok live (set_entry m i e') l.
Proof.
  intros Hix Hi Hlive Hkey. pose proof (lookup_lt_Some _ _ _ Hi) as Hlt. destruct Hix as [Hs Hl].
  assert (Hkeys : keys keyf (set_entry m i e') l = keys keyf m l).
  { unfold keys. apply list_fmap_ext. intros k j Hj. destruct (decide (j = i)) as [->|].
    - rewrite (entry_at_lookup _ i e'), (entry_at_lookup m i e) by (done || by apply entries_set_eq). apply Hkey.
      destruct (proj1 (Hl i)) as (e0 & He0 & ?); [by eapply list_elem_of_lookup_2|]. congruence.
    - unfold entry_at. by rewrite entries_set_ne. }
  split; [by rewrite Hkeys|]. intros j. rewrite Hl. destruct (decide (j = i)) as [->|].
  - rewrite entries_set_eq by done. split.
    + intros (e0 & He0 & ?). rewrite Hi in He0. injection He0 as <-. exists e'. tauto.
    + intros (e0 & [= <-] & ?). exists e. tauto.
  - by rewrite entries_set_ne.
Qed.

Lemma index_insert i e' k p live m l : ok (but i live) m l -> (i < length (entries m))%nat ->
  dom k -> position (cmp := cmp) k (keys keyf m l) p -> k ∉ keys keyf m l -> keyf e' = k -> live i e' ->
  ok live (set_entry m i e') (take (Z.to_nat p) l ++ i :: drop (Z.to_nat p) l).
Proof.
  intros Hix Hi Hk Hp Hn Hke Hlive. destruct Hix as [Hs Hl].
  assert (Hil : i ∉ l) by (intros Hin; apply Hl in Hin as (? & _ & _ & ?); done).
  assert (Hkeys : keys keyf (set_entry m i e') (take (Z.to_nat p) l ++ i :: drop (Z.to_nat p) l) =
    take (Z.to_nat p) (keys keyf m l) ++ k :: drop (Z.to_nat p) (keys keyf m l)).
  { rewrite <- (keys_set keyf m l i e' Hil). unfold keys. rewrite fmap_app, fmap_cons, fmap_take, fmap_drop.
    by rewrite (entry_at_lookup _ i e'), Hke by (by apply entries_set_eq). }
  split.
  - rewrite Hkeys. by apply sorted_insert.
  - intros j. rewrite elem_of_app, elem_of_cons.
    assert (Hjl : j ∈ take (Z.to_nat p) l \/ j ∈ drop (Z.to_nat p) l <-> j ∈ l)
      by (rewrite <- elem_of_app; by rewrite take_drop).
    destruct (decide (j = i)) as [->|Hne].
    + rewrite entries_set_eq by done. split; [intros _; by exists e' | intros _; right; by left].
    + rewrite entries_set_ne by done. split.
      * intros Hj. assert (Hin : j ∈ l) by (apply Hjl; tauto). apply Hl in Hin as (e & He & ? & _). by exists e.
      * intros (e & He & Hle). assert (Hin : j ∈ l) by (apply Hl; by exists e). tauto.
Qed.

Lemma insert_at_ok i m l live p : ok (but i live) m l -> sized m -> (i < length (entries m))%nat ->
  insert_at m l p i = Some (take (Z.to_nat p) l ++ i :: drop (Z.to_nat p) l).
Proof.
  intros Hix [_ Hsz] Hi. unfold insert_at. pose proof (index_nodup _ _ m l Hix) as Hnd. destruct Hix as [Hs Hl].
  enough (length (i :: l) <= length (entries m))%nat as Hle
    by (cbn [length] in Hle; replace (lenZ l <? map_size m) with true by (symmetry; apply Z.ltb_lt; unfold lenZ; lia); done).
  rewrite <- (length_seq (length (entries m)) 0). apply submseteq_length, NoDup_submseteq.
  - constructor; [|done]. intros Hin. apply Hl in Hin as (? & _ & _ & ?). done.
  - intros j Hj. apply elem_of_seq. apply elem_of_cons in Hj as [->|Hj]; [lia|].
    apply Hl in Hj as (e & He & _). apply lookup_lt_Some in He. lia.
Qed.

Lemma elem_of_remove {A} (l : list A) p a j : NoDup l -> l !! p = Some a -> j ∈ take p l ++ drop (S p) l <-> j ∈ l /\ j <> a.
Proof.
  intros Hnd Hp. pose proof (take_drop_middle l p a Hp) as E. rewrite <- E in Hnd at 1.
  apply list.NoDup_app in Hnd as (_ & H1 & H2). apply list.NoDup_cons in H2 as [H2 _].
  rewrite <- E at 3. rewrite !elem_of_app, elem_of_cons. split.
  - intros [Hj|Hj]; split; try tauto; intros ->; [|done]. apply (H1 _ Hj). by left.
  - tauto.
Qed.

Lemma index_remove i e live m l p : ok live m l -> entries m !! i = Some e -> live i e ->
  keys keyf m l !! Z.to_nat p = Some (keyf e) -> ok (but i live) m (remove_at l p).
Proof.
  intros Hix Hi Hlive Hp. pose proof (index_nodup _ _ m l Hix) as Hnd.
  destruct (index_here _ _ m l _ p Hix Hp) as (j & e' & Hlj & Hj & Hlj' & Hk).
  assert (j = i) as -> by (by eapply (index_inj keyf live m l)).
  destruct Hix as [Hs Hl]. unfold remove_at. split.
  - unfold keys. rewrite fmap_app, fmap_take, fmap_drop. by apply sorted_remove.
  - intros j. rewrite (elem_of_remove l _ i) by done. rewrite Hl. unfold but. split.
    + intros [(e0 & ? & ?) ?]. by exists e0.
    + intros (e0 & ? & ? & ?). split; [by exists e0 | done].
Qed.
End Update.
