(* ===== verification/TurnOps.v ===== *)
(** * The operations of the TURN map

    [view] is the table as a client of turn.c sees it: at most one entry for a
    type and an address, ports apart.  Every operation on entries, channels and
    permissions is specified by what it does to the view, and shown to be defined
    and to keep the invariant. *)

From stdpp Require Import list sorting.
From S2P Require Import Prelude Addr Turn TurnTable TurnInv.

Section Correct.
Context `{Platform}.

Definition view (m : turn_map) (t : turn_entry_type) (r : addr_record) : option turn_entry :=
  match find_entry m r t false with
  | Some (Some i) => let? e := entries m !! i in if is_type t e then Some e else None
  | _ => None
  end.

Lemma view_entries m m' t r : entries m' = entries m -> map_size m' = map_size m -> view m' t r = view m t r.
Proof. intros He Hs. unfold view. by rewrite (find_entry_entries m m'), He. Qed.

Definition matches (t : turn_entry_type) (r : addr_record) (e : turn_entry) : Prop :=
  entry_type e = t /\ addr_record_is_equal (entry_record e) r false = true.

Lemma view_some m t r e : table_ok m -> live_type t ->
  view m t r = Some e <-> exists i, entries m !! i = Some e /\ matches t r e.
Proof.
  intros Hok Ht. unfold view, matches. destruct (find_entry_found m r t false Hok Ht) as (f & -> & Hf).
  destruct Hf as [i e0 Hi Hte Heq | i Hi Hno | _ Hno].
  - rewrite Hi. assert (is_type t e0 = true) as -> by (by apply is_type_true). split.
    + intros [= <-]. by exists i.
    + intros (j & Hj & Htj & Hej). f_equal. assert (i = j) as <-; [|congruence].
      apply (entry_unique m i j e0 e); try done; [by eapply live_used | congruence|].
      rewrite equal_sym in Hej. apply (addr_is_equal_trans _ _ _ _ Heq Hej).
  - rewrite Hi. assert (is_type t turn_entry_zero = false) as ->
      by (apply is_type_false; by destruct Ht as [-> | ->]).
    split; [done|]. intros (j & Hj & Htj & Hej). by rewrite (Hno j e) in Hej.
  - split; [done|]. intros (j & Hj & Htj & Hej). by rewrite (Hno j e) in Hej.
Qed.

Lemma view_none m t r : table_ok m -> live_type t ->
  view m t r = None <-> forall i e, entries m !! i = Some e -> ~ matches t r e.
Proof.
  intros Hok Ht. split.
  - intros Hv i e He Hm. assert (Hs : view m t r = Some e) by (apply view_some; [done|done|by exists i]). congruence.
  - intros Hno. destruct (view m t r) as [e|] eqn:E; [|done]. apply view_some in E as (i & He & Hm); [|done..]. by elim (Hno i e).
Qed.

(** The slot an operation writes: the entry of the address, or the free slot of the search. *)
Record slot_for (m : turn_map) (r : addr_record) (t : turn_entry_type) (i : nat) (e : turn_entry) : Prop := {
  s_entry : entries m !! i = Some e;
  s_case : matches t r e \/ (e = turn_entry_zero /\ find_entry m r t true = Some (Some i))
}.

Definition full (m : turn_map) : Prop := forall j e, entries m !! j = Some e -> used e.

Lemma find_entry_ad m r t : table_ok m -> live_type t -> find_entry m r t true = find_entry m r t false.
Proof.
  intros Hok Ht. pose proof (t_sized m Hok) as Hsz.
  assert (Hst : forall i e, entries m !! i = Some e -> stops r t true e = stops r t false e).
  { intros i e He. pose proof (t_entry m Hok i e He) as Heok. apply eq_true_iff_eq.
    rewrite !stops_match by done. done. }
  destruct (find_entry m r t false) as [[i|]|] eqn:E.
  - apply find_entry_first in E as (k & (Hk & (e & He & Hs) & Hb) & ->); [|done]. apply find_entry_first; [done|].
    exists k. split; [|done]. split; [done|]. split; [exists e; split; [done|]; by rewrite (Hst _ e He)|].
    intros j ej Hj Hej. rewrite (Hst _ ej Hej). by apply (Hb j).
  - apply find_entry_none; [done|]. intros i e He. rewrite (Hst i e He). by apply (proj1 (find_entry_none m r t false Hsz) E i).
  - by destruct (find_entry_spec m r t false Hsz) as [(k & _ & E') | [E' _]]; rewrite E' in E.
Qed.

Lemma find_entry_slot m r t : table_ok m -> live_type t ->
  (find_entry m r t true = Some None /\ view m t r = None /\ full m) \/
  (exists i e, find_entry m r t true = Some (Some i) /\ slot_for m r t i e /\
     view m t r = if is_type t e then Some e else None).
Proof.
  intros Hok Ht. destruct (find_entry_found m r t true Hok Ht) as (f & Ef & Hf).
  destruct Hf as [i e Hi Hte Heq | i Hi Hno | Hfull Hno].
  - right. exists i, e. split_and!; [done | by split; [|left] |].
    assert (is_type t e = true) as -> by (by apply is_type_true). apply view_some; [done|done|by exists i].
  - right. exists i, turn_entry_zero. split_and!; [done | by split; [|right] |].
    assert (is_type t turn_entry_zero = false) as -> by (apply is_type_false; by destruct Ht as [-> | ->]).
    apply view_none; [done|done|]. intros j e He [Hte Heq]. by rewrite (Hno j e) in Heq.
  - left. split_and!; [done | | done]. apply view_none; [done|done|]. intros j e He [Hte Heq]. by rewrite (Hno j e) in Heq.
Qed.

(** The view with the entry of one type and address replaced. *)
Definition viewed (v : turn_entry_type -> addr_record -> option turn_entry) (t : turn_entry_type) (r : addr_record)
    (e : turn_entry) (t' : turn_entry_type) (r' : addr_record) : option turn_entry :=
  if bool_decide (t' = t) && addr_record_is_equal r r' false then Some e else v t' r'.

Lemma slot_no_match m r t i : table_ok m -> live_type t -> entries m !! i = Some turn_entry_zero ->
  find_entry m r t true = Some (Some i) -> forall j e, entries m !! j = Some e -> ~ matches t r e.
Proof.
  intros Hok Ht Hi Hf. apply view_none; [done|done|]. unfold view. rewrite find_entry_ad in Hf by done. rewrite Hf, Hi.
  assert (is_type t turn_entry_zero = false) as -> by (apply is_type_false; by destruct Ht as [-> | ->]). done.
Qed.

(** Writing the slot of a type and address changes the view there, and nowhere else. *)
Lemma table_write m r t i e0 e' : table_ok m -> live_type t -> inet r -> slot_for m r t i e0 ->
  entry_ok e' -> entry_type e' = t -> entry_record e' = (if is_type t e0 then entry_record e0 else r) ->
  table_ok (set_entry m i e') /\
  forall t' r', live_type t' -> view (set_entry m i e') t' r' = viewed (view m) t r e' t' r'.
Proof.
  intros Hok Ht Hr [Hi Hcase] He' Hte Hre. pose proof (lookup_lt_Some _ _ _ Hi) as Hlt.
  assert (Hm' : matches t r e').
  { split; [done|]. destruct Hcase as [[Ht0 Heq]|[-> _]].
    - rewrite Hre. assert (is_type t e0 = true) as -> by (by apply is_type_true). done.
    - rewrite Hre. assert (is_type t turn_entry_zero = false) as -> by (apply is_type_false; by destruct Ht as [-> | ->]).
      by apply equal_refl. }
  assert (Hu' : used e') by (by eapply live_used).
  assert (Hok' : table_ok (set_entry m i e')).
  { destruct Hcase as [[Ht0 Heq]|[-> Hf]].
    - apply (table_keep m i e0); try done; [by eapply live_used | congruence|].
      rewrite Hre. assert (is_type t e0 = true) as -> by (by apply is_type_true). done.
    - assert (Hrr : entry_record e' = r).
      { rewrite Hre. assert (is_type t turn_entry_zero = false) as -> by (apply is_type_false; by destruct Ht as [-> | ->]). done. }
      apply (table_fill m i e' true); try done; rewrite ?Hrr, ?Hte; try done.
      intros j e He Htj. apply not_true_is_false. intros Heq.
      by apply (slot_no_match m r t i Hok Ht Hi Hf j e He). }
  split; [done|]. intros t' r' Ht'. unfold viewed.
  destruct (bool_decide (t' = t) && addr_record_is_equal r r' false) eqn:E.
  - apply andb_true_iff in E as [Et Er]. apply bool_decide_eq_true in Et as ->.
    apply view_some; [done|done|]. exists i. rewrite entries_set_eq by done. split; [done|].
    destruct Hm' as [_ Heq]. split; [done|]. exact (addr_is_equal_trans _ _ _ _ Heq Er).
  - assert (Hno : forall e, e = e0 \/ e = e' -> ~ matches t' r' e).
    { intros e He [Hte' Hee']. assert (Hm : matches t r e \/ e = turn_entry_zero).
      { destruct He as [-> | ->]; [destruct Hcase as [?|[? _]]; auto | by left]. }
      destruct Hm as [[Htt Hrr] | ->]; [|by destruct Ht' as [-> | ->]].
      assert (t' = t) as -> by congruence. rewrite bool_decide_eq_true_2 in E by done. cbn [andb] in E.
      rewrite equal_sym in Hrr. by rewrite (addr_is_equal_trans _ _ _ _ Hrr Hee' : addr_record_is_equal r r' false = true) in E. }
    assert (Hiff : forall e, view (set_entry m i e') t' r' = Some e <-> view m t' r' = Some e).
    { intros e. rewrite !view_some by done. split; intros (j & Hj & Hm); exists j; (split; [|done]).
      - destruct (decide (j = i)) as [->|]; [|by rewrite entries_set_ne in Hj].
        rewrite entries_set_eq in Hj by done. injection Hj as <-. by elim (Hno e'); [right|].
      - destruct (decide (j = i)) as [->|]; [|by rewrite entries_set_ne].
        rewrite Hi in Hj. injection Hj as <-. by elim (Hno e0); [left|]. }
    destruct (view m t' r') as [e|] eqn:Ev; [by apply Hiff|].
    destruct (view (set_entry m i e') t' r') as [e|] eqn:Ev'; [symmetry; by apply Hiff|done].
Qed.
End Correct.

Section Ops.
Context `{Platform}.

Definition chan_live (_ : nat) (e : turn_entry) : Prop := entry_channel e <> 0.
Definition tid_live (_ : nat) (e : turn_entry) : Prop := memory_is_zero (entry_tid e) = false.

Definition channels_ok (m : turn_map) : Prop :=
  index_ok (dom := fun _ => True) (cmp := Z.compare) entry_channel chan_live m (ordered_channels m).
Definition tids_ok (m : turn_map) : Prop :=
  index_ok (dom := is_tid) (cmp := memcmp) entry_tid tid_live m (ordered_transaction_ids m).

Record map_ok (m : turn_map) : Prop := { m_table : table_ok m; m_channels : channels_ok m }.

(** A map of the client, which orders its transaction identifiers, and one of
    the server, which does not use the order. *)
Record client_ok (m : turn_map) : Prop := { cl_map : map_ok m; cl_tids : tids_ok m }.
Record server_ok (m : turn_map) : Prop := { sv_map : map_ok m; sv_tids : ordered_transaction_ids m = [] }.

(** ** Channels *)

(** The entry bound to a channel, by a search through the whole table. *)
Definition owner (m : turn_map) (c : Z) : option turn_entry := List.find (fun e => entry_channel e =? c) (entries m).

Lemma owner_some m c e : channels_ok m -> c <> 0 ->
  owner m c = Some e <-> exists i, entries m !! i = Some e /\ entry_channel e = c.
Proof.
  intros Hix Hc. unfold owner. split.
  - intros Hf. apply List.find_some in Hf as [Hin Hch]. zify_bool.
    apply list_elem_of_In, list_elem_of_lookup in Hin as [i Hi]. by exists i.
  - intros (i & Hi & Hch). destruct (List.find _ (entries m)) as [e'|] eqn:E.
    + apply List.find_some in E as [Hin Hch']. zify_bool.
      apply list_elem_of_In, list_elem_of_lookup in Hin as [j Hj]. assert (i = j) as <-; [|congruence].
      apply (index_inj entry_channel chan_live m _ i j e e' Hix); unfold chan_live; congruence.
    + pose proof (List.find_none _ _ E e) as Hn. cbv beta in Hn. rewrite Hch, Z.eqb_refl in Hn.
      discriminate Hn. by apply list_elem_of_In, list_elem_of_lookup_2 with i.
Qed.

Lemma owner_none m c : owner m c = None <-> forall i e, entries m !! i = Some e -> entry_channel e <> c.
Proof.
  unfold owner. split.
  - intros Hf i e Hi Hch. pose proof (List.find_none _ _ Hf e) as Hn. cbv beta in Hn.
    rewrite Hch, Z.eqb_refl in Hn. discriminate Hn. by apply list_elem_of_In, list_elem_of_lookup_2 with i.
  - intros Hn. destruct (List.find _ _) as [e|] eqn:E; [|done]. apply List.find_some in E as [Hin Hch]. zify_bool.
    apply list_elem_of_In, list_elem_of_lookup in Hin as [i Hi]. by elim (Hn i e).
Qed.

(** The position the code computes for a channel, and the owner it finds there. *)
Lemma find_channel_owner m c : map_ok m -> c <> 0 ->
  exists p, find_ordered_channel m c = Some p /\
    position (cmp := Z.compare) c (keys entry_channel m (ordered_channels m)) p /\
    match owner m c with
    | Some e => p < channels_count m /\ ordered_entry m (ordered_channels m) p = Some e /\ entry_channel e = c
    | None => c ∉ keys entry_channel m (ordered_channels m) /\
              forall e, p < channels_count m -> ordered_entry m (ordered_channels m) p = Some e -> entry_channel e <> c
    end.
Proof.
  intros [Ht Hix] Hc. destruct (index_search entry_channel chan_live m _ c Hix I) as (p & Hp & Hpos).
  exists p. split; [done|]. split; [done|].
  assert (Hat : forall e, p < channels_count m -> ordered_entry m (ordered_channels m) p = Some e ->
                keys entry_channel m (ordered_channels m) !! Z.to_nat p = Some (entry_channel e)).
  { intros e Hlt. unfold ordered_entry. destruct (p <? 0) eqn:E0; [done|]. unfold keys. rewrite list_lookup_fmap.
    destruct (ordered_channels m !! Z.to_nat p) as [i|]; [|done]. intros He. cbn. by rewrite (entry_at_lookup m i e). }
  destruct (owner m c) as [e|] eqn:Eo.
  - apply owner_some in Eo as (i & Hi & Hch); [|done..].
    assert (Hin : c ∈ keys entry_channel m (ordered_channels m)).
    { rewrite <- Hch. by apply (index_keys entry_channel chan_live m _ i e Hix Hi); unfold chan_live; rewrite Hch. }
    pose proof (position_present c _ p I Hpos Hin) as Hk. pose proof (lookup_lt_Some _ _ _ Hk) as Hlt.
    destruct (index_here entry_channel chan_live m _ c p Hix Hk) as (j & e' & Hl & Hj & Hlive & Hch').
    assert (i = j) as <- by (apply (index_inj entry_channel chan_live m _ i j e e' Hix); unfold chan_live in *; congruence).
    destruct Hpos as [Hr _ _]. unfold keys in Hlt. rewrite length_fmap in Hlt.
    split; [unfold channels_count, lenZ; lia|].
    split; [|done]. unfold ordered_entry. replace (p <? 0) with false by (symmetry; apply Z.ltb_ge; lia). by rewrite Hl.
  - assert (Hnk : c ∉ keys entry_channel m (ordered_channels m)).
    { intros Hin. apply list_elem_of_lookup in Hin as [q Hq].
      destruct (index_here entry_channel chan_live m _ c (Z.of_nat q) Hix) as (j & e & _ & Hj & _ & Hch); [by rewrite Nat2Z.id|].
      by apply (proj1 (owner_none m c) Eo j e). }
    split; [done|]. intros e Hlt He Hch. apply Hnk. rewrite <- Hch. eapply list_elem_of_lookup_2. by apply Hat.
Qed.

Lemma is_valid_range c : is_valid_channel c = true <-> 0x4000 <= c.
Proof. unfold is_valid_channel. apply Z.leb_le. Qed.

(** The binary search returns what a search through the table would. *)
Lemma turn_find_channel_owner m c : map_ok m -> is_valid_channel c = true ->
  turn_find_channel m c = Some (entry_record <$> owner m c).
Proof.
  intros Hok Hv. unfold turn_find_channel. rewrite Hv. cbn [negb]. apply is_valid_range in Hv.
  destruct (find_channel_owner m c Hok ltac:(lia)) as (p & -> & Hpos & Ho). pose proof (pos_range _ _ _ Hpos) as Hr.
  rewrite lenZ_keys in Hr. unfold channels_count in *.
  case_test; zify_bool; destruct (owner m c) as [e|].
  - lia.
  - done.
  - destruct Ho as (_ & -> & ->). by rewrite Z.eqb_refl.
  - destruct Ho as [_ Ho]. destruct (ordered_entry m (ordered_channels m) p) as [e|] eqn:Ee.
    + replace (entry_channel e =? c) with false; [done|]. symmetry. apply Z.eqb_neq. apply Ho; [lia|done].
    + exfalso. unfold ordered_entry in Ee. replace (p <? 0) with false in Ee by (symmetry; apply Z.ltb_ge; lia).
      destruct (lookup_lt_is_Some_2 (ordered_channels m) (Z.to_nat p)) as [i Hi]; [unfold lenZ in *; lia|]. rewrite Hi in Ee.
      destruct (proj1 (i_elem _ _ _ _ (m_channels m Hok) i)) as (e & He & _); [by eapply list_elem_of_lookup_2|]. congruence.
Qed.

(** ** The queries read the view *)
Lemma turn_get_channel_view m r : table_ok m -> turn_get_channel m r = Some (entry_channel <$> view m TURN_ENTRY_TYPE_CHANNEL r).
Proof.
  intros Hok. unfold turn_get_channel, view. destruct (find_entry_found m r TURN_ENTRY_TYPE_CHANNEL false Hok) as (f & -> & Hf); [by right|].
  destruct f as [i|]; [|done]. assert (Hl : exists e, entries m !! i = Some e) by (inversion Hf; by eexists).
  destruct Hl as [e ->]. by destruct (is_type _ e).
Qed.

Lemma turn_get_bound_channel_view now m r : table_ok m ->
  turn_get_bound_channel now m r =
  Some (let? e := view m TURN_ENTRY_TYPE_CHANNEL r in
        if (entry_channel e =? 0) || (entry_timestamp e <=? now) then None else Some (entry_channel e)).
Proof.
  intros Hok. unfold turn_get_bound_channel, view. destruct (find_entry_found m r TURN_ENTRY_TYPE_CHANNEL false Hok) as (f & -> & Hf); [by right|].
  destruct f as [i|]; [|done]. assert (Hl : exists e, entries m !! i = Some e) by (inversion Hf; by eexists).
  destruct Hl as [e ->]. destruct (is_type _ e); [|done]. cbn [negb]. by destruct (_ || _).
Qed.

Lemma turn_has_permission_view now m r : table_ok m ->
  turn_has_permission now m r =
  Some match view m TURN_ENTRY_TYPE_PERMISSION r with Some e => now <? entry_timestamp e | None => false end.
Proof.
  intros Hok. unfold turn_has_permission, view. destruct (find_entry_found m r TURN_ENTRY_TYPE_PERMISSION false Hok) as (f & -> & Hf); [by left|].
  destruct f as [i|]; [|done]. assert (Hl : exists e, entries m !! i = Some e) by (inversion Hf; by eexists).
  destruct Hl as [e ->]. by destruct (is_type _ e).
Qed.

(** ** Writing an entry without changing its channel *)
Lemma map_write m r t i e0 e' : map_ok m -> live_type t -> inet r -> slot_for m r t i e0 ->
  entry_ok e' -> entry_type e' = t -> entry_record e' = (if is_type t e0 then entry_record e0 else r) ->
  entry_channel e' = entry_channel e0 ->
  map_ok (set_entry m i e') /\
  (forall t' r', live_type t' -> view (set_entry m i e') t' r' = viewed (view m) t r e' t' r') /\
  (forall c, c <> 0 -> owner (set_entry m i e') c = if entry_channel e0 =? c then Some e' else owner m c).
Proof.
  intros [Ht Hix] Hlt Hr Hslot He' Hte Hre Hch. pose proof (s_entry _ _ _ _ _ Hslot) as Hi.
  destruct (table_write m r t i e0 e' Ht Hlt Hr Hslot He' Hte Hre) as [Ht' Hview].
  assert (Hix' : channels_ok (set_entry m i e')).
  { apply (index_keep entry_channel i e0 e' chan_live m); [done | done | by unfold chan_live; rewrite Hch | done]. }
  split; [by split|]. split; [done|]. intros c Hc. pose proof (lookup_lt_Some _ _ _ Hi) as Hl.
  case_test; zify_bool.
  - apply owner_some; [done|done|]. exists i. rewrite entries_set_eq by done. split; [done|congruence].
  - destruct (owner m c) as [e|] eqn:Eo.
    + apply owner_some in Eo as (j & Hj & Hcj); [|done..]. apply owner_some; [done|done|]. exists j.
      rewrite entries_set_ne by congruence. done.
    + apply owner_none. intros j e Hj. destruct (decide (j = i)) as [->|].
      * rewrite entries_set_eq in Hj by done. injection Hj as <-. congruence.
      * rewrite entries_set_ne in Hj by done. by apply (proj1 (owner_none m c) Eo j).
Qed.

Lemma tids_write m i e0 e' : tids_ok m -> entries m !! i = Some e0 -> entry_tid e' = entry_tid e0 -> tids_ok (set_entry m i e').
Proof.
  intros Hix Hi Ht. apply (index_keep entry_tid i e0 e' tid_live m); [done | done | by unfold tid_live; rewrite Ht | done].
Qed.

(** ** Binding a channel *)
Definition bound_to (now : Z) (r : addr_record) (c d : Z) (e : turn_entry) : Prop :=
  matches TURN_ENTRY_TYPE_CHANNEL r e /\ entry_channel e = c /\ entry_timestamp e = now + d.

(** What a successful binding of [c] to [r] changes: the entry of [r] and the owner of [c]. *)
Definition binds (m m' : turn_map) (r : addr_record) (c : Z) (e : turn_entry) : Prop :=
  (forall t' r', live_type t' -> view m' t' r' = viewed (view m) TURN_ENTRY_TYPE_CHANNEL r e t' r') /\
  (forall c', c' <> 0 -> owner m' c' = if c =? c' then Some e else owner m c').

(** The entry that a search found free or without a channel gets the channel. *)
Lemma map_bind m r i e0 e' c p : map_ok m -> inet r -> slot_for m r TURN_ENTRY_TYPE_CHANNEL i e0 ->
  entry_channel e0 = 0 -> 0x4000 <= c < 65536 -> owner m c = None ->
  position (cmp := Z.compare) c (keys entry_channel m (ordered_channels m)) p ->
  c ∉ keys entry_channel m (ordered_channels m) ->
  is_tid (entry_tid e') -> entry_type e' = TURN_ENTRY_TYPE_CHANNEL -> entry_channel e' = c ->
  entry_record e' = (if is_type TURN_ENTRY_TYPE_CHANNEL e0 then entry_record e0 else r) ->
  exists l, insert_at m (ordered_channels m) p i = Some l /\
    let m' := set_entry (m <| ordered_channels := l |>) i e' in
    map_ok m' /\ binds m m' r c e'.
Proof.
  intros Hok Hr Hslot Hc0 Hc Ho Hpos Hn Htid Hte Hch Hre. pose proof Hok as [Ht Hix].
  pose proof (s_entry _ _ _ _ _ Hslot) as Hi. pose proof (lookup_lt_Some _ _ _ Hi) as Hl.
  assert (He' : entry_ok e').
  { split; [by rewrite Hte | right; by right | done | right; rewrite Hch; split; [done|lia] ]. }
  assert (Hlive : live_type TURN_ENTRY_TYPE_CHANNEL) by (by right).
  destruct (table_write m r _ i e0 e' Ht Hlive Hr Hslot He' Hte Hre) as [Ht' Hview].
  assert (Hbut : index_ok (dom := fun _ => True) (cmp := Z.compare) entry_channel (but i chan_live) m (ordered_channels m))
    by (apply (index_but entry_channel i e0); [done | unfold chan_live; lia | done]).
  eexists. split; [apply (insert_at_ok entry_channel i m _ chan_live p Hbut); [apply Ht | done]|]. cbv zeta.
  assert (Hix' : channels_ok (set_entry (m <| ordered_channels := take (Z.to_nat p) (ordered_channels m) ++ i :: drop (Z.to_nat p) (ordered_channels m) |>) i e')).
  { apply (index_entries _ _ (set_entry m i e')); [done|].
    apply (index_insert entry_channel i e' c p chan_live m (ordered_channels m) Hbut); try done. unfold chan_live. lia. }
  split; [split; [by apply (table_entries (set_entry m i e')) | exact Hix']|].
  split; [intros t' r' Ht0; rewrite <- (Hview t' r' Ht0); by apply view_entries|]. intros c' Hc'. case_test; zify_bool.
  - apply owner_some; [done | done |]. exists i. rewrite entries_set_eq by done. split; [done|congruence].
  - destruct (owner m c') as [e|] eqn:Eo.
    + apply owner_some in Eo as (j & Hj & Hcj); [|done..]. apply owner_some; [done|done|]. exists j.
      rewrite entries_set_ne; [done|]. congruence.
    + apply owner_none. intros j e Hj. destruct (decide (j = i)) as [->|].
      * rewrite entries_set_eq in Hj by done. injection Hj as <-. congruence.
      * rewrite entries_set_ne in Hj by done. by apply (proj1 (owner_none m c') Eo j).
Qed.

(** Why a binding is refused. *)
Inductive bind_refused (m : turn_map) (r : addr_record) (c : Z) : Prop :=
| refused_invalid : is_valid_channel c = false -> bind_refused m r c
| refused_other_channel e : view m TURN_ENTRY_TYPE_CHANNEL r = Some e -> entry_channel e <> 0 -> entry_channel e <> c -> bind_refused m r c
| refused_other_record e : owner m c = Some e -> ~ matches TURN_ENTRY_TYPE_CHANNEL r e -> bind_refused m r c
| refused_full : view m TURN_ENTRY_TYPE_CHANNEL r = None -> full m -> bind_refused m r c.

(** Where a channel that nobody has would be there is another, or the end. *)
Lemma channel_free m c p : map_ok m -> position (cmp := Z.compare) c (keys entry_channel m (ordered_channels m)) p ->
  (forall e, p < channels_count m -> ordered_entry m (ordered_channels m) p = Some e -> entry_channel e <> c) ->
  (if p <? channels_count m then let? other := ordered_entry m (ordered_channels m) p in Some (entry_channel other =? c) else Some false) = Some false.
Proof.
  intros Hok Hpos Ho. case_test; zify_bool; [|done]. destruct (ordered_entry m (ordered_channels m) p) as [e|] eqn:Ee.
  - f_equal. apply Z.eqb_neq. by apply Ho.
  - exfalso. pose proof (pos_range _ _ _ Hpos) as Hr'. unfold ordered_entry in Ee.
    replace (p <? 0) with false in Ee by (symmetry; apply Z.ltb_ge; lia).
    destruct (lookup_lt_is_Some_2 (ordered_channels m) (Z.to_nat p)) as [j Hj]; [unfold channels_count, lenZ in *; lia|].
    rewrite Hj in Ee. destruct (proj1 (i_elem _ _ _ _ (m_channels m Hok) j)) as (e & He & _); [by eapply list_elem_of_lookup_2|]. congruence.
Qed.

Lemma bind_channel_spec now m r tid c d : map_ok m -> inet r -> 0 <= c < 65536 ->
  (forall t, tid = Some t -> is_tid t) ->
  exists ok m', turn_bind_channel now m (Some r) tid c d = Some (ok, m') /\ map_ok m' /\
    ordered_transaction_ids m' = ordered_transaction_ids m /\ (tid = None -> tids_ok m -> tids_ok m') /\
    if ok : bool then exists e, bound_to now r c d e /\ binds m m' r c e
    else m' = m /\ bind_refused m r c.
Proof.
  intros Hok Hr Hc Htid. unfold turn_bind_channel. destruct (is_valid_channel c) eqn:Hv; cbn [negb].
  2: { exists false, m. split_and!; try done. by apply refused_invalid. }
  apply is_valid_range in Hv. pose proof (m_table m Hok) as Ht. assert (Hlive : live_type TURN_ENTRY_TYPE_CHANNEL) by (by right).
  destruct (find_entry_slot m r TURN_ENTRY_TYPE_CHANNEL Ht Hlive) as [(-> & Hvw & Hfull) | (i & e0 & -> & Hslot & Hvw)].
  { exists false, m. split_and!; try done. by apply refused_full. }
  pose proof (s_entry _ _ _ _ _ Hslot) as Hi. rewrite Hi. pose proof (t_entry m Ht i e0 Hi) as He0.
  destruct (is_type TURN_ENTRY_TYPE_CHANNEL e0 && negb (entry_channel e0 =? 0)) eqn:Eb.
  - zify_bool. destruct (entry_channel e0 =? c) eqn:Ec; cbn [negb]; zify_bool.
    2: { exists false, m. split_and!; try done. rewrite H0 in Hvw. by eapply refused_other_channel. }
    set (e' := e0 <| entry_timestamp := now + d |>).
    destruct (map_write m r TURN_ENTRY_TYPE_CHANNEL i e0 e' Hok Hlive Hr Hslot) as (Hok' & Hview & Hown).
    { destruct He0. split; done || auto. intros Hemp. apply is_type_true in H0. cbn in Hemp. congruence. }
    { by apply is_type_true. } { by rewrite H0. } { done. }
    exists true, (set_entry m i e'). split_and!; try done. { intros _ Htids. by apply (tids_write m i e0 e'). }
    exists e'. split; [|split; [done | by rewrite <- Ec]]. split_and!; try done. split; [by apply is_type_true|].
    destruct Hslot as [_ [[_ ?]|[-> _]]]; done.
  - assert (Hc0 : entry_channel e0 = 0).
    { destruct (e_channel e0 He0) as [?|[Hty ?]]; [done|]. apply andb_false_iff in Eb as [Eb|Eb].
      - apply is_type_false in Eb. done.
      - zify_bool. done. }
    destruct (find_channel_owner m c Hok ltac:(lia)) as (p & -> & Hpos & Ho).
    destruct (owner m c) as [eo|] eqn:Eo.
    + destruct Ho as (Hlt & Hoe & Hch). replace (p <? channels_count m) with true by (symmetry; by apply Z.ltb_lt).
      rewrite Hoe, Hch, Z.eqb_refl. exists false, m. split_and!; try done. apply (refused_other_record m r c eo); [done|].
      intros [Hty Heq]. apply owner_some in Eo as (j & Hj & Hcj); [|apply Hok|lia].
      destruct Hslot as [_ [[Hty0 Heq0]|[-> Hf]]].
      * assert (i = j) as <-; [|rewrite Hi in Hj; simplify_eq; lia].
        apply (entry_unique m i j e0 eo); try done; [by eapply live_used | congruence|].
        rewrite equal_sym in Heq. exact (addr_is_equal_trans _ _ _ _ Heq0 Heq).
      * by apply (slot_no_match m r _ i Ht Hlive Hi Hf j eo Hj).
    + destruct Ho as [Hn Ho].
      rewrite (channel_free m c p Hok Hpos Ho). set (e1 := if is_type TURN_ENTRY_TYPE_CHANNEL e0 then e0 else _).
      set (e2 := e1 <| entry_channel := c |> <| entry_timestamp := now + d |>).
      set (e' := match tid with Some tid => e2 <| entry_tid := tid |> <| entry_fresh_tid := true |> | None => e2 end).
      assert (Hf : entry_type e' = TURN_ENTRY_TYPE_CHANNEL /\ entry_channel e' = c /\ entry_timestamp e' = now + d /\
        entry_record e' = (if is_type TURN_ENTRY_TYPE_CHANNEL e0 then entry_record e0 else r) /\ is_tid (entry_tid e') /\
        (tid = None -> entry_tid e' = entry_tid e0)).
      { pose proof (e_tid e0 He0) as Ht0. subst e' e2 e1. destruct (is_type TURN_ENTRY_TYPE_CHANNEL e0) eqn:Ety;
          [apply is_type_true in Ety|]; (destruct tid as [t|]; cbn; split_and!; auto; try (by intros [=])). }
      destruct Hf as (Hf1 & Hf2 & Hf3 & Hf4 & Hf5 & Hf6).
      destruct (map_bind m r i e0 e' c p Hok Hr Hslot Hc0 ltac:(lia) Eo Hpos Hn Hf5 Hf1 Hf2 Hf4) as (l & -> & Hok' & Hbinds).
      eexists true, _. split; [reflexivity|]. split; [exact Hok'|]. split; [done|].
      split; [intros Hnone Htids; apply (index_entries _ _ (set_entry m i e')); [done|]; exact (tids_write m i e0 e' Htids Hi (Hf6 Hnone))|].
      exists e'. split; [|exact Hbinds]. split_and!; try done. split; [done|]. rewrite Hf4.
      destruct (is_type TURN_ENTRY_TYPE_CHANNEL e0) eqn:Ety; [|by apply equal_refl].
      destruct Hslot as [_ [[_ ?]|[-> _]]]; done.
Qed.
End Ops.
