(* ===== verification/TurnTids.v ===== *)
(** * The TURN map: transaction identifiers *)

From stdpp Require Import list sorting.
From S2P Require Import Prelude Addr Turn TurnTable TurnInv TurnOps.

Section Tids.
Context `{Platform}.

(** No transaction carries the identifier; zeros are the absence of one. *)
Definition unused (m : turn_map) (tid : list Z) : Prop :=
  forall i e, entries m !! i = Some e -> memory_is_zero (entry_tid e) = false -> entry_tid e <> tid.

(** An identifier that a transaction can have. *)
Definition proper_tid (tid : list Z) : Prop := is_tid tid /\ memory_is_zero tid = false.

Lemma find_tid_spec live m tid : index_ok (dom := is_tid) (cmp := memcmp) entry_tid live m (ordered_transaction_ids m) ->
  is_tid tid -> exists p, find_ordered_transaction_id m tid = Some p /\
    position (cmp := memcmp) tid (keys entry_tid m (ordered_transaction_ids m)) p.
Proof. intros Hix Ht. exact (index_search entry_tid live m _ tid Hix Ht). Qed.

Lemma lookup_tid_spec m tid : tids_ok m -> is_tid tid ->
  exists p res, find_ordered_transaction_id m tid = Some p /\
    position (cmp := memcmp) tid (keys entry_tid m (ordered_transaction_ids m)) p /\
    lookup_transaction_id m tid = Some res /\
    match res with
    | Some (i, e) => entries m !! i = Some e /\ memory_is_zero (entry_tid e) = false /\ entry_tid e = tid /\
                     keys entry_tid m (ordered_transaction_ids m) !! Z.to_nat p = Some tid
    | None => unused m tid /\ tid ∉ keys entry_tid m (ordered_transaction_ids m)
    end.
Proof.
  intros Hix Ht. destruct (find_tid_spec _ m tid Hix Ht) as (p & Hp & Hpos). unfold lookup_transaction_id.
  exists p. rewrite Hp. pose proof (pos_range _ _ _ Hpos) as Hr. rewrite lenZ_keys in Hr. unfold transaction_ids_count.
  assert (Hun : tid ∉ keys entry_tid m (ordered_transaction_ids m) -> unused m tid).
  { intros Hn i e Hi Hnz Hte. apply Hn. rewrite <- Hte. by apply (index_keys entry_tid tid_live m _ i e Hix Hi). }
  assert (Hin : forall i, ordered_transaction_ids m !! Z.to_nat p = Some i ->
    exists e, entries m !! i = Some e /\ keys entry_tid m (ordered_transaction_ids m) !! Z.to_nat p = Some (entry_tid e)).
  { intros i Hi. destruct (proj1 (i_elem _ _ _ _ Hix i)) as (e & He & _); [by eapply list_elem_of_lookup_2|].
    exists e. split; [done|]. unfold keys. rewrite list_lookup_fmap, Hi. cbn. by rewrite (entry_at_lookup m i e). }
  destruct (decide (tid ∈ keys entry_tid m (ordered_transaction_ids m))) as [Hk|Hk].
  - pose proof (position_present tid _ p Ht Hpos Hk) as Hkp.
    destruct (index_here entry_tid tid_live m _ tid p Hix Hkp) as (i & e & Hl & Hi & Hnz & Hte).
    exists (Some (i, e)). pose proof (lookup_lt_Some _ _ _ Hl) as Hlt.
    replace (p =? lenZ (ordered_transaction_ids m)) with false by (symmetry; apply Z.eqb_neq; unfold lenZ; lia).
    rewrite Hl, Hi, bool_decide_eq_true_2 by done. by split_and!.
  - exists None. split; [done|]. split; [done|]. split; [|by split; [apply Hun|]].
    case_test; zify_bool; [done|]. destruct (lookup_lt_is_Some_2 (ordered_transaction_ids m) (Z.to_nat p)) as [i Hi]; [unfold lenZ in *; lia|].
    rewrite Hi. destruct (Hin i Hi) as (e & He & Hke). rewrite He, bool_decide_eq_false_2; [done|].
    intros Hte. apply Hk. rewrite <- Hte. by eapply list_elem_of_lookup_2.
Qed.

(** ** A fresh identifier for a type and address *)

(** The entry keeps everything but the identifier. *)
Definition same_but_tid (t : turn_entry_type) (r : addr_record) (v : option turn_entry) (e : turn_entry) : Prop :=
  matches t r e /\ entry_channel e = default 0 (entry_channel <$> v) /\ entry_timestamp e = default 0 (entry_timestamp <$> v).

Lemma slot_default m r t i e : slot_for m r t i e -> live_type t -> entry_ok e ->
  entry_channel e = default 0 (entry_channel <$> (if is_type t e then Some e else None)) /\
  entry_timestamp e = default 0 (entry_timestamp <$> (if is_type t e then Some e else None)).
Proof.
  intros [_ [[Ht _]|[-> _]]] Hl He.
  - assert (is_type t e = true) as -> by (by apply is_type_true). done.
  - assert (is_type t turn_entry_zero = false) as -> by (apply is_type_false; by destruct Hl as [-> | ->]). done.
Qed.

(** The old identifier of the slot, if any, leaves the order. *)
Lemma old_tid_leaves m t r i e0 : map_ok m -> tids_ok m -> slot_for m r t i e0 ->
  exists l1, (if is_type t e0 && negb (memory_is_zero (entry_tid e0))
    then remove_ordered_transaction_id m (entry_tid e0) else Some m) = Some (m <| ordered_transaction_ids := l1 |>) /\
    index_ok (dom := is_tid) (cmp := memcmp) entry_tid (but i tid_live) m l1.
Proof.
  intros Hok Htids Hslot. pose proof (s_entry _ _ _ _ _ Hslot) as Hi. pose proof (t_entry m (m_table m Hok) i e0 Hi) as He0.
  destruct (is_type t e0 && negb (memory_is_zero (entry_tid e0))) eqn:Eb.
  - zify_bool. destruct (lookup_tid_spec m (entry_tid e0) Htids (e_tid e0 He0)) as (p & res & Hp & Hpos & _ & Hres).
    unfold remove_ordered_transaction_id. rewrite Hp. unfold transaction_ids_count.
    destruct res as [[j ej]|]; [|destruct Hres as [Hres _]; by elim (Hres i e0)].
    destruct Hres as (_ & _ & _ & Hk). pose proof (lookup_lt_Some _ _ _ Hk) as Hkl. unfold keys in Hkl. rewrite length_fmap in Hkl.
    pose proof (pos_range _ _ _ Hpos) as Hr'.
    replace (p <? lenZ (ordered_transaction_ids m)) with true by (symmetry; apply Z.ltb_lt; unfold lenZ; lia).
    exists (remove_at (ordered_transaction_ids m) p). split; [done|].
    by apply (index_remove entry_tid i e0 tid_live m _ p Htids Hi).
  - exists (ordered_transaction_ids m). split; [by destruct m|]. apply (index_but entry_tid i e0); [done| |done].
    unfold tid_live. apply andb_false_iff in Eb as [Eb|Eb].
    + destruct Hslot as [_ [[Ht0 _]|[-> _]]]; [by apply is_type_false in Eb | done].
    + zify_bool. congruence.
Qed.

Lemma set_tid_spec m t r tid : client_ok m -> live_type t -> inet r -> proper_tid tid -> unused m tid ->
  exists ok m', set_transaction_id m t r tid = Some (ok, m') /\ client_ok m' /\
    if ok : bool then exists e, entry_tid e = tid /\ entry_fresh_tid e = true /\ same_but_tid t r (view m t r) e /\
      (forall t' r', live_type t' -> view m' t' r' = viewed (view m) t r e t' r')
    else m' = m /\ view m t r = None /\ full m.
Proof.
  intros [Hok Htids] Hl Hr [Htid Hnz] Hun. unfold set_transaction_id.
  assert (Hty : negb (bool_decide (t = TURN_ENTRY_TYPE_PERMISSION)) && negb (bool_decide (t = TURN_ENTRY_TYPE_CHANNEL)) = false)
    by (by destruct Hl as [-> | ->]). rewrite Hty. pose proof (m_table m Hok) as Htab.
  destruct (find_entry_slot m r t Htab Hl) as [(-> & Hvw & Hfull) | (i & e0 & -> & Hslot & Hvw)].
  { exists false, m. by split_and!. }
  pose proof (s_entry _ _ _ _ _ Hslot) as Hi. rewrite Hi. pose proof (t_entry m Htab i e0 Hi) as He0.
  pose proof (lookup_lt_Some _ _ _ Hi) as Hlt.
  pose proof (old_tid_leaves m t r i e0 Hok Htids Hslot) as Hrem.
  destruct Hrem as (l1 & -> & Hix1). set (m1 := m <| ordered_transaction_ids := l1 |>).
  destruct (find_tid_spec (but i tid_live) m1 tid) as (p & Hp & Hpos); [by apply (index_entries entry_tid (but i tid_live) m m1)|done|].
  rewrite Hp. assert (Hn : tid ∉ keys entry_tid m l1).
  { intros Hin. apply list_elem_of_lookup in Hin as [q Hq].
    destruct (index_here entry_tid _ m l1 tid (Z.of_nat q) Hix1) as (j & ej & _ & Hj & [Hlj _] & Htj); [by rewrite Nat2Z.id|].
    by apply (Hun j ej). }
  assert (Hins : insert_at m1 (ordered_transaction_ids m1) p i = Some (take (Z.to_nat p) l1 ++ i :: drop (Z.to_nat p) l1)).
  { exact (insert_at_ok entry_tid i m l1 tid_live p Hix1 (t_sized m Htab) Hlt). }
  rewrite Hins. set (l2 := take (Z.to_nat p) l1 ++ i :: drop (Z.to_nat p) l1).
  set (e1 := if is_type t e0 then e0 else _).
  set (e' := e1 <| entry_tid := tid |> <| entry_fresh_tid := true |>).
  destruct (slot_default m r t i e0 Hslot Hl He0) as [Hdc Hdt].
  assert (Hf : entry_type e' = t /\ entry_channel e' = entry_channel e0 /\ entry_timestamp e' = entry_timestamp e0 /\
    entry_record e' = (if is_type t e0 then entry_record e0 else r)).
  { subst e' e1. destruct (is_type t e0) eqn:Ety; [apply is_type_true in Ety|]; by cbn. }
  destruct Hf as (Hf1 & Hf2 & Hf3 & Hf4).
  assert (He' : entry_ok e').
  { split; [rewrite Hf1; by destruct Hl as [-> | ->] | rewrite Hf1; by right | done | rewrite Hf1, Hf2].
    destruct (e_channel e0 He0) as [?|[Hty0 ?]]; [by left|]. right. split; [|done].
    destruct Hslot as [_ [[? _]|[-> _]]]; [congruence | done]. }
  destruct (map_write m r t i e0 e' Hok Hl Hr Hslot He' Hf1 Hf4 Hf2) as (Hok' & Hview & _).
  assert (Hm' : matches t r e').
  { split; [done|]. rewrite Hf4. destruct Hslot as [_ [[Ht0 Heq]|[-> _]]].
    - assert (is_type t e0 = true) as -> by (by apply is_type_true). done.
    - assert (is_type t turn_entry_zero = false) as -> by (apply is_type_false; by destruct Hl as [-> | ->]).
      by apply equal_refl. }
  eexists true, _. split; [reflexivity|]. set (m' := set_entry (m1 <| ordered_transaction_ids := l2 |>) i e').
  assert (Hentries : entries m' = entries (set_entry m i e')) by done.
  split.
  { split; [split|].
    - by apply (table_entries (set_entry m i e')); [done | done | apply Hok'].
    - by apply (index_entries entry_channel chan_live (set_entry m i e')); [|apply Hok'].
    - apply (index_entries entry_tid tid_live (set_entry m i e')); [done|].
      by apply (index_insert entry_tid i e' tid p tid_live m l1 Hix1). }
  exists e'. split; [done|]. split; [done|]. split.
  - split; [done|]. by rewrite Hvw, Hf2, Hf3.
  - intros t' r' Hl'. rewrite <- (Hview t' r' Hl'). by apply view_entries.
Qed.

(** ** Looking an identifier up *)
Lemma lookup_tid_entry m tid i e : tids_ok m -> is_tid tid -> entries m !! i = Some e ->
  memory_is_zero (entry_tid e) = false -> entry_tid e = tid ->
  lookup_transaction_id m tid = Some (Some (i, e)).
Proof.
  intros Hix Hp Hi Hnz Hte. destruct (lookup_tid_spec m tid Hix Hp) as (p & res & _ & _ & -> & Hres).
  destruct res as [[j ej]|]; [|destruct Hres as [Hu _]; by elim (Hu i e)]. destruct Hres as (Hj & Hnzj & Htj & _).
  assert (i = j) as <-; [|congruence].
  apply (index_inj entry_tid tid_live m _ i j e ej Hix); unfold tid_live; congruence.
Qed.

Lemma find_tid_unused m tid : tids_ok m -> is_tid tid ->
  exists res, find_transaction_id m tid = Some res /\ (res = None <-> unused m tid).
Proof.
  intros Hix Hp. unfold find_transaction_id. destruct (lookup_tid_spec m tid Hix Hp) as (p & res & _ & _ & -> & Hres).
  eexists. split; [reflexivity|]. destruct res as [[i e]|].
  - destruct Hres as (Hi & Hnz & Ht & _). split; [done|]. intros Hu. by elim (Hu i e).
  - destruct Hres. by split.
Qed.

(** Among the identifiers drawn, one that is not in use is chosen. *)
Lemma draw_tid_spec m draws : tids_ok m -> Forall proper_tid draws -> Exists (unused m) draws ->
  exists tid rest, draw_transaction_id m draws = Some (tid, rest) /\ proper_tid tid /\ unused m tid.
Proof.
  intros Hix Hd. induction Hd as [|tid draws Hp Hd IH]; intros Hex; [by apply Exists_nil in Hex|].
  cbn [draw_transaction_id]. destruct (find_tid_unused m tid Hix (proj1 Hp)) as (res & -> & Hres).
  destruct res as [r|].
  - apply IH. apply Exists_cons in Hex as [Hu|?]; [|done]. by apply Hres in Hu.
  - exists tid, draws. split; [done|]. split; [done|]. by apply Hres.
Qed.

(** The slot of an entry in use. *)
Lemma slot_of_entry m i e : table_ok m -> entries m !! i = Some e -> live_type (entry_type e) ->
  inet (entry_record e) /\ slot_for m (entry_record e) (entry_type e) i e /\ matches (entry_type e) (entry_record e) e.
Proof.
  intros Hok Hi Hl. destruct (t_found m Hok i e Hi) as [Hin _]; [by eapply live_used|].
  assert (Hm : matches (entry_type e) (entry_record e) e) by (split; [done | by apply equal_refl]).
  split; [done|]. split; [|done]. split; [done|by left].
Qed.

(** Stamping an entry in use, whatever the operation. *)
Lemma stamp_entry m i e e' : map_ok m -> entries m !! i = Some e -> live_type (entry_type e) -> is_tid (entry_tid e') ->
  entry_type e' = entry_type e -> entry_record e' = entry_record e -> entry_channel e' = entry_channel e ->
  map_ok (set_entry m i e') /\ view m (entry_type e) (entry_record e) = Some e /\
  (forall t' r', live_type t' -> view (set_entry m i e') t' r' = viewed (view m) (entry_type e) (entry_record e) e' t' r').
Proof.
  intros Hok Hi Hl Htid Ht Hr Hc. destruct (slot_of_entry m i e (m_table m Hok) Hi Hl) as (Hin & Hslot & Hm).
  pose proof (t_entry m (m_table m Hok) i e Hi) as He.
  assert (He' : entry_ok e').
  { split; [rewrite Ht; by destruct Hl as [-> | ->] | rewrite Ht; by right | done | rewrite Ht, Hc; apply He]. }
  destruct (map_write m (entry_record e) (entry_type e) i e e' Hok Hl Hin Hslot He' Ht) as (Hok' & Hview & _); [|done|].
  - assert (is_type (entry_type e) e = true) as -> by (by apply is_type_true). done.
  - split; [done|]. split; [|done]. apply view_some; [apply Hok | done | by exists i].
Qed.

Lemma live_of_tid m i e : map_ok m -> entries m !! i = Some e -> memory_is_zero (entry_tid e) = false ->
  live_type (entry_type e).
Proof.
  intros Hok Hi Hz. pose proof (t_entry m (m_table m Hok) i e Hi) as He.
  destruct (e_live e He) as [Hemp|]; [|done]. by pose proof (e_empty e He Hemp) as ->.
Qed.

(** ** Stamping by transaction identifier *)
Lemma update_tid_spec now m t tid d : client_ok m -> live_type t -> is_tid tid ->
  exists ok m', update_timestamp now m t tid None d = Some (ok, m') /\ client_ok m' /\
    if ok : bool then exists i e, entries m !! i = Some e /\ entry_tid e = tid /\ entry_type e = t /\
      view m t (entry_record e) = Some e /\
      forall t' r', live_type t' -> view m' t' r' =
        viewed (view m) t (entry_record e) (e <| entry_timestamp := now + d |> <| entry_fresh_tid := false |>) t' r'
    else m' = m /\ forall i e, entries m !! i = Some e -> memory_is_zero (entry_tid e) = false ->
                                entry_tid e = tid -> entry_type e <> t.
Proof.
  intros [Hok Htids] Hl Hp. destruct (lookup_tid_spec m tid Htids Hp) as (p & res & Hfp & Hpos & Hlook & Hres).
  unfold update_timestamp. rewrite Hfp. unfold lookup_transaction_id in Hlook. rewrite Hfp in Hlook.
  destruct (p =? transaction_ids_count m).
  { injection Hlook as <-. exists false, m. split_and!; try done. destruct Hres as [Hu _]. intros i e Hi Hnz Hte. by elim (Hu i e). }
  destruct (ordered_transaction_ids m !! Z.to_nat p) as [i|]; [|done].
  destruct (entries m !! i) as [e|] eqn:Hi; [|done].
  destruct (bool_decide (entry_tid e = tid)) eqn:Etid; cbn [negb] in Hlook; cbn [negb].
  2: { injection Hlook as <-. rewrite orb_true_r. exists false, m. split_and!; try done.
       destruct Hres as [Hu _]. intros j ej Hj Hnz Hte. by elim (Hu j ej). }
  injection Hlook as <-. destruct Hres as (_ & Hnz & Hte & _).
  assert (Hle : live_type (entry_type e)) by (by eapply live_of_tid).
  destruct (is_type t e) eqn:Ety; cbn [negb orb].
  2: { apply is_type_false in Ety. exists false, m. split_and!; try done. intros j ej Hj Hnzj Htj.
       pose proof (lookup_tid_entry m tid j ej Htids Hp Hj Hnzj Htj) as E1.
       pose proof (lookup_tid_entry m tid i e Htids Hp Hi Hnz Hte) as E2. congruence. }
  apply is_type_true in Ety. set (e' := e <| entry_timestamp := now + d |> <| entry_fresh_tid := false |>).
  destruct (stamp_entry m i e e' Hok Hi Hle) as (Hok' & Hv & Hview); try done.
  { apply (t_entry m (m_table m Hok) i e Hi). }
  exists true, (set_entry m i e'). split; [done|]. split; [split; [done|by apply (tids_write m i e e')]|].
  exists i, e. rewrite <- Ety. done.
Qed.

Lemma retrieve_spec m tid : client_ok m -> is_tid tid ->
  exists res m', turn_retrieve_transaction_id m tid = Some (res, m') /\ client_ok m' /\
    match res with
    | Some r => exists i e, entries m !! i = Some e /\ entry_tid e = tid /\ r = entry_record e /\ inet r /\
        forall t' r', live_type t' -> view m' t' r' =
          viewed (view m) (entry_type e) r (e <| entry_fresh_tid := false |>) t' r'
    | None => m' = m /\ unused m tid
    end.
Proof.
  intros [Hok Htids] Hp. unfold turn_retrieve_transaction_id.
  destruct (lookup_tid_spec m tid Htids Hp) as (p & res & _ & _ & -> & Hres).
  destruct res as [[i e]|]; [|exists None, m; by destruct Hres].
  destruct Hres as (Hi & Hnz & Hte & _). assert (Hle : live_type (entry_type e)) by (by eapply live_of_tid).
  set (e' := e <| entry_fresh_tid := false |>).
  destruct (stamp_entry m i e e' Hok Hi Hle) as (Hok' & Hv & Hview); try done.
  { apply (t_entry m (m_table m Hok) i e Hi). }
  exists (Some (entry_record e)), (set_entry m i e'). split; [done|].
  split; [split; [done|by apply (tids_write m i e e')]|]. exists i, e. split_and!; try done.
  apply (t_found m (m_table m Hok) i e Hi). by eapply live_used.
Qed.

(** A random identifier: the fresh one the entry has, or one that was not in use. *)
Lemma set_random_tid_spec m t r draws : client_ok m -> live_type t -> inet r ->
  Forall proper_tid draws -> Exists (unused m) draws ->
  exists res m', set_random_transaction_id m t r draws = Some (res, m') /\ client_ok m' /\
    match res with
    | Some tid =>
      (exists e, view m t r = Some e /\ entry_fresh_tid e = true /\ entry_tid e = tid /\ m' = m) \/
      (unused m tid /\ proper_tid tid /\
       exists e, entry_tid e = tid /\ entry_fresh_tid e = true /\ same_but_tid t r (view m t r) e /\
         forall t' r', live_type t' -> view m' t' r' = viewed (view m) t r e t' r')
    | None => m' = m /\ view m t r = None /\ full m
    end.
Proof.
  intros Hcl Hl Hr Hd Hex. pose proof Hcl as [Hok Htids]. unfold set_random_transaction_id.
  rewrite <- find_entry_ad by (apply Hok || done).
  assert (Hset : forall (X : option (option (list Z))), X = Some None ->
    exists res m', (let? fresh := X in match fresh with
       | Some tid => Some (Some tid, m)
       | None => let? (tid, _) := draw_transaction_id m draws in
                 let? (ok, m) := set_transaction_id m t r tid in Some (if ok : bool then Some tid else None, m) end) = Some (res, m') /\
      client_ok m' /\
      match res with
      | Some tid => unused m tid /\ proper_tid tid /\
         exists e, entry_tid e = tid /\ entry_fresh_tid e = true /\ same_but_tid t r (view m t r) e /\
         forall t' r', live_type t' -> view m' t' r' = viewed (view m) t r e t' r'
      | None => m' = m /\ view m t r = None /\ full m
      end).
  { intros X ->. destruct (draw_tid_spec m draws Htids Hd Hex) as (tid & rest & -> & Hp & Hu).
    destruct (set_tid_spec m t r tid Hcl Hl Hr Hp Hu) as (ok & m' & -> & Hcl' & Hpost).
    destruct ok; eexists _, m'; (split; [reflexivity|]); (split; [done|]); [|exact Hpost]. by split_and!. }
  destruct (find_entry_slot m r t (m_table m Hok) Hl) as [(-> & _) | (i & e & -> & Hslot & Hvw)].
  { destruct (Hset (Some None) eq_refl) as (res & m' & E & Hcl' & Hpost). exists res, m'. split; [exact E|]. split; [done|].
    destruct res; [by right|done]. }
  rewrite (s_entry _ _ _ _ _ Hslot). destruct (entry_fresh_tid e) eqn:Ef.
  - exists (Some (entry_tid e)), m. split; [done|]. split; [done|]. left. exists e.
    destruct Hslot as [_ [[Ht _]|[-> _]]]; [|done]. assert (Hty : is_type t e = true) by (by apply is_type_true).
    by rewrite Hvw, Hty.
  - destruct (Hset (Some None) eq_refl) as (res & m' & E & Hcl' & Hpost). exists res, m'. split; [exact E|]. split; [done|].
    destruct res; [by right|done].
Qed.

(** ** Stamping by address, on the server *)
Lemma remove_tid_empty m tid : ordered_transaction_ids m = [] -> remove_ordered_transaction_id m tid = Some m.
Proof.
  intros E. unfold remove_ordered_transaction_id, find_ordered_transaction_id, find_ordered_transaction_id_rec, transaction_ids_count.
  by rewrite E.
Qed.

Lemma update_record_spec now m t r tid d : server_ok m -> live_type t -> inet r -> is_tid tid ->
  exists ok m', update_timestamp now m t tid (Some r) d = Some (ok, m') /\ server_ok m' /\
    if ok : bool then
      (exists e, view m t r = Some e /\ entry_tid e = tid /\ m' = m) \/
      (exists e, matches t r e /\ entry_tid e = tid /\ entry_timestamp e = now + d /\
         forall t' r', live_type t' -> view m' t' r' = viewed (view m) t r e t' r')
    else m' = m /\ view m t r = None /\ full m.
Proof.
  intros [Hok Hnil] Hl Hr Htid. unfold update_timestamp. pose proof (m_table m Hok) as Htab.
  destruct (find_entry_slot m r t Htab Hl) as [(-> & Hvw & Hfull) | (i & e0 & -> & Hslot & Hvw)].
  { exists false, m. by split_and!. }
  pose proof (s_entry _ _ _ _ _ Hslot) as Hi. rewrite Hi. pose proof (t_entry m Htab i e0 Hi) as He0.
  destruct (is_type t e0 && bool_decide (entry_tid e0 = tid)) eqn:Eb.
  { apply andb_true_iff in Eb as [Ety Et]. apply bool_decide_eq_true in Et. exists true, m.
    split; [done|]. split; [done|]. left. exists e0. by rewrite Hvw, Ety. }
  set (e1 := if is_type t e0 then e0 else _).
  assert (Hrem : exists m1, (if negb (memory_is_zero (entry_tid e1)) then remove_ordered_transaction_id (set_entry m i e1) (entry_tid e1) else Some m) = Some m1 /\
    forall e, set_entry m1 i e = set_entry m i e).
  { destruct (negb _).
    - rewrite remove_tid_empty by done. eexists. split; [done|]. intros e. unfold set_entry. destruct m. cbn.
      unfold upd, updater. cbn. f_equal. apply list_insert_insert_eq.
    - by exists m. }
  destruct Hrem as (m1 & -> & Hm1). rewrite Hm1.
  set (e' := e1 <| entry_tid := tid |> <| entry_timestamp := now + d |> <| entry_fresh_tid := false |>).
  assert (Hf : entry_type e' = t /\ entry_channel e' = entry_channel e0 /\
    entry_record e' = (if is_type t e0 then entry_record e0 else r)).
  { subst e' e1. destruct (is_type t e0) eqn:Ety; [apply is_type_true in Ety|]; by cbn. }
  destruct Hf as (Hf1 & Hf2 & Hf3).
  assert (He' : entry_ok e').
  { split; [rewrite Hf1; by destruct Hl as [-> | ->] | rewrite Hf1; by right | done | rewrite Hf1, Hf2].
    destruct (e_channel e0 He0) as [?|[Hty0 ?]]; [by left|]. right. split; [|done].
    destruct Hslot as [_ [[? _]|[-> _]]]; [congruence | done]. }
  destruct (map_write m r t i e0 e' Hok Hl Hr Hslot He' Hf1 Hf3 Hf2) as (Hok' & Hview & _).
  exists true, (set_entry m i e'). split; [done|]. split; [by split|]. right. exists e'.
  split; [|done]. split; [done|]. rewrite Hf3. destruct Hslot as [_ [[Ht0 Heq]|[-> _]]].
  - assert (is_type t e0 = true) as -> by (by apply is_type_true). done.
  - assert (is_type t turn_entry_zero = false) as -> by (apply is_type_false; by destruct Hl as [-> | ->]).
    by apply equal_refl.
Qed.
End Tids.
