(* ===== verification/TurnMap.v ===== *)
(** * The TURN map as its clients see it

    Runs of the operations a TURN client and a TURN server perform, the
    lifetime of permissions and channel bindings, and the framing of
    ChannelData. *)

From stdpp Require Import list sorting.
From S2P Require Import Prelude Addr Turn TurnTable TurnInv TurnOps TurnTids.

(** ** ChannelData *)

(** turn_wrap_channel_data stays in the buffer and stores channel, length and
    data in network order when the channel is at least 0x4000 and everything
    fits, and otherwise returns -1 without storing anything; what it stores is
    recognised by is_channel_data exactly for the channels below 0x5000. *)
Theorem turn_wrap_channel_data_correct buffer size data channel :
  bytes_ok data -> 0 <= size <= lenZ buffer -> 0 <= channel < 65536 ->
  turn_wrap_channel_data buffer size data channel =
    Some (if is_valid_channel channel && (lenZ data <? 65536) && (4 + lenZ data <=? size)
          then (be_bytes 2 channel ++ be_bytes 2 (lenZ data) ++ data ++ drop (4 + length data) buffer, 4 + lenZ data)
          else (buffer, -1)) /\
  forall rest, is_valid_channel channel = true ->
    is_channel_data (be_bytes 2 channel ++ rest) (2 + lenZ rest) = Some (channel <? 0x5000).
Proof.
  intros Hd Hs Hc. pose proof (lenZ_nonneg data). split.
  - unfold turn_wrap_channel_data, sizeof_channel_data_header.
    destruct (is_valid_channel channel) eqn:Hv; cbn [negb andb]; [|done].
    destruct (lenZ data <? 65536) eqn:El; zify_bool.
    2: { replace (65536 <=? lenZ data) with true by (symmetry; apply Z.leb_le; lia). done. }
    replace (65536 <=? lenZ data) with false by (symmetry; apply Z.leb_gt; lia).
    destruct (4 + lenZ data <=? size) eqn:Ef; zify_bool; cbn [andb].
    2: { replace (size <? 4 + lenZ data) with true by (symmetry; apply Z.ltb_lt; lia). done. }
    replace (size <? 4 + lenZ data) with false by (symmetry; apply Z.ltb_ge; lia).
    rewrite !wrap_small by lia. rewrite !le_bytes_bswap16.
    destruct buffer as [|b0 [|b1 [|b2 [|b3 tl]]]]; try (unfold lenZ in *; simpl in *; lia).
    assert (Htl : lenZ data <= lenZ tl) by (revert Hs; rewrite !lenZ_cons; lia).
    assert (E1 : store 4 data (b0 :: b1 :: b2 :: b3 :: tl) = Some ([b0; b1; b2; b3] ++ data ++ drop (length data) tl)).
    { unfold store. rewrite !lenZ_cons. replace (_ && _) with true by (symmetry; apply andb_true_iff; split; apply Z.leb_le; lia).
      do 2 f_equal. }
    rewrite E1. unfold store. rewrite !lenZ_app, lenZ_drop by (unfold lenZ in *; lia). rewrite !lenZ_be_bytes.
    replace (_ && _) with true by (symmetry; apply andb_true_iff; split; apply Z.leb_le; unfold lenZ in *; simpl in *; lia).
    reflexivity.
  - intros rest Hv. unfold is_channel_data. pose proof (lenZ_nonneg rest).
    replace (2 + lenZ rest =? 0) with false by (symmetry; apply Z.eqb_neq; lia).
    assert (Hbe : be_bytes 2 channel = [channel / 256; channel `mod` 256]).
    { unfold be_bytes. cbn [le_bytes rev app]. do 2 f_equal. lia_mod. }
    rewrite Hbe. change (load 0 1 ([channel / 256; channel `mod` 256] ++ rest)) with (load 0 (lenZ [channel / 256]) ([] ++ [channel / 256] ++ ([channel `mod` 256] ++ rest))).
    rewrite load_mid by done. cbn [le_word]. f_equal. unfold is_valid_channel in Hv. zify_bool.
    apply eq_true_iff_eq. rewrite andb_true_iff, !Z.leb_le, Z.ltb_lt. lia_mod.
Qed.

Lemma store_ok {A} off (bs mem : list A) : 0 <= off -> off + lenZ bs <= lenZ mem ->
  exists mem', store off bs mem = Some mem' /\ lenZ mem' = lenZ mem.
Proof.
  intros Ho Hl. pose proof (lenZ_nonneg bs). destruct (store off bs mem) as [mem'|] eqn:Es.
  - exists mem'. split; [done|]. apply store_some in Es; tauto.
  - unfold store in Es. rewrite (proj2 (andb_true_iff _ _)) in Es; [done|]. split; apply Z.leb_le; lia.
Qed.

(** Whatever the channel and the data, the buffer is not left. *)
Lemma wrap_total buffer data channel : exists buffer' size,
  turn_wrap_channel_data buffer (lenZ buffer) data channel = Some (buffer', size) /\
  lenZ buffer' = lenZ buffer /\ size <= lenZ buffer.
Proof.
  unfold turn_wrap_channel_data. cbv zeta. pose proof (lenZ_nonneg data). pose proof (lenZ_nonneg buffer).
  unfold sizeof_channel_data_header in *.
  case_test; [by eexists _, _; split_and!; [done|done|lia]|]. case_test; [by eexists _, _; split_and!; [done|done|lia]|].
  case_test; [by eexists _, _; split_and!; [done|done|lia]|]. zify_bool.
  destruct (store_ok 4 data buffer) as (b1 & -> & Hl1); [lia|lia|]. cbn [obind].
  destruct (store_ok 0 (le_bytes 2 (htons (u16 channel)) ++ le_bytes 2 (htons (u16 (lenZ data)))) b1) as (b2 & -> & Hl2);
    [lia|rewrite lenZ_app, !lenZ_le_bytes; lia|].
  exists b2, (4 + lenZ data). split; [done|]. lia.
Qed.

(** ** Runs of operations *)
(** The branches that return [Some _]. *)
Ltac size_kept :=
  repeat match goal with
  | H : (match ?x with _ => _ end) = Some _ |- _ => destruct x eqn:?; try discriminate H
  | H : (match ?x with _ => _ end) = (_, _) |- _ => destruct x eqn:?
  | H : Some _ = Some _ |- _ => injection H as H; subst
  | H : (_, _) = (_, _) |- _ => injection H as ?; subst
  end; try (repeat case_match; done).

Section Runs.
Context `{Platform}.

(** Among more distinct keys than entries, one is the key of no entry. *)
Lemma spare_key {K} `{EqDecision K} (keyf : turn_entry -> K) m ks : NoDup ks -> (length (entries m) < length ks)%nat ->
  Exists (fun k => forall i e, entries m !! i = Some e -> keyf e <> k) ks.
Proof.
  intros Hnd Hlen. destruct (decide (Forall (fun k => k ∈ (keyf <$> entries m)) ks)) as [Hall|Hex].
  - exfalso. assert (Hsub : ks ⊆+ (keyf <$> entries m)) by (apply NoDup_submseteq; [done|]; by apply list.Forall_forall).
    apply submseteq_length in Hsub. rewrite length_fmap in Hsub. lia.
  - apply not_Forall_Exists in Hex; [|intros k; apply _]. eapply list.Exists_impl; [exact Hex|].
    intros k Hk i e Hi He. apply Hk. rewrite <- He. apply list_elem_of_fmap. exists e. split; [done|].
    by eapply list_elem_of_lookup_2.
Qed.

Lemma random_channel_range r : 0x4000 <= random_channel_number r < 0x5000.
Proof.
  assert (E : random_channel_number r = 4 * 4096 + r `mod` 4096); [|lia_mod].
  unfold random_channel_number. change 0x4000 with (Z.shiftl 4 12). change 0x0FFF with (2 ^ 12 - 1).
  rewrite land_ones_mod by lia. apply (lor_shiftl_add 4 _ 12); [lia|]. change (2 ^ 12) with 4096. lia_mod.
Qed.

(** The first number drawn whose channel is not bound. *)
Lemma draw_channel_spec m draws : map_ok m -> Exists (fun r => owner m (random_channel_number r) = None) draws ->
  exists c rest, draw_channel m draws = Some (c, rest) /\ owner m c = None /\ 0x4000 <= c < 0x5000.
Proof.
  intros Hok Hex. induction draws as [|r draws IH]; [by apply Exists_nil in Hex|]. cbn [draw_channel].
  pose proof (random_channel_range r) as Hr.
  rewrite turn_find_channel_owner by (done || unfold is_valid_channel; apply Z.leb_le; lia).
  destruct (owner m (random_channel_number r)) as [e|] eqn:Eo; cbn.
  - apply IH. apply Exists_cons in Hex as [?|?]; [congruence|done].
  - by exists (random_channel_number r), draws.
Qed.

(** *** Operations keep the size of the table *)
Lemma remove_tid_size m tid m' : remove_ordered_transaction_id m tid = Some m' -> map_size m' = map_size m.
Proof. unfold remove_ordered_transaction_id. intros E. size_kept. Qed.

Lemma update_timestamp_size now m t tid r d ok m' : update_timestamp now m t tid r d = Some (ok, m') -> map_size m' = map_size m.
Proof.
  unfold update_timestamp. intros E. size_kept; cbn;
    match goal with H : remove_ordered_transaction_id _ _ = Some _ |- _ => by apply remove_tid_size in H end.
Qed.

Lemma bind_channel_size now m r tid c d ok m' : turn_bind_channel now m r tid c d = Some (ok, m') -> map_size m' = map_size m.
Proof. unfold turn_bind_channel. intros E. size_kept. Qed.

Lemma set_tid_size m t r tid ok m' : set_transaction_id m t r tid = Some (ok, m') -> map_size m' = map_size m.
Proof.
  unfold set_transaction_id. intros E. size_kept; cbn;
    match goal with H : remove_ordered_transaction_id _ _ = Some _ |- _ => by apply remove_tid_size in H end.
Qed.

Lemma set_random_size m t r draws res m' : set_random_transaction_id m t r draws = Some (res, m') -> map_size m' = map_size m.
Proof. unfold set_random_transaction_id. intros E. size_kept; by eapply set_tid_size. Qed.

Lemma retrieve_size m tid res m' : turn_retrieve_transaction_id m tid = Some (res, m') -> map_size m' = map_size m.
Proof. unfold turn_retrieve_transaction_id. intros E. size_kept. Qed.

(** *** The client of agent.c *)
Inductive client_op : Type :=
| PermissionId (r : addr_record) (draws : list (list Z))
| ChannelId (r : addr_record) (draws : list (list Z))
| BindRandom (now : Z) (r : addr_record) (draws : list Z) (d : Z)
| Permit (now : Z) (tid : list Z) (d : Z)
| BindCurrent (now : Z) (tid : list Z) (d : Z)
| Retrieve (tid : list Z).

Definition client_exec (m : turn_map) (op : client_op) : option turn_map :=
  match op with
  | PermissionId r draws => snd <$> turn_set_random_permission_transaction_id m r draws
  | ChannelId r draws => snd <$> turn_set_random_channel_transaction_id m r draws
  | BindRandom now r draws d => snd <$> turn_bind_random_channel now m (Some r) draws d
  | Permit now tid d => snd <$> turn_set_permission now m tid None d
  | BindCurrent now tid d => snd <$> turn_bind_current_channel now m tid None d
  | Retrieve tid => snd <$> turn_retrieve_transaction_id m tid
  end.

(** What the random generator and the network deliver: IPv4 or IPv6 records,
    identifiers of twelve bytes, and enough different random values. *)
Definition draws_ok (n : Z) (draws : list (list Z)) : Prop := Forall proper_tid draws /\ NoDup draws /\ n < lenZ draws.

Definition client_op_ok (n : Z) (op : client_op) : Prop :=
  match op with
  | PermissionId r draws | ChannelId r draws => inet r /\ draws_ok n draws
  | BindRandom _ r draws _ => inet r /\ NoDup (random_channel_number <$> draws) /\ n < lenZ draws
  | Permit _ tid _ | BindCurrent _ tid _ | Retrieve tid => is_tid tid
  end.

Definition exec_all {Op : Type} (exec : turn_map -> Op -> option turn_map) (m : turn_map) (ops : list Op) : option turn_map :=
  fold_left (fun m op => let? m := m in exec m op) ops (Some m).

Lemma exec_all_ok {Op} (exec : turn_map -> Op -> option turn_map) (Inv : turn_map -> Prop) (ok : Op -> Prop) :
  (forall m op, Inv m -> ok op -> exists m', exec m op = Some m' /\ Inv m') ->
  forall ops m, Inv m -> Forall ok ops -> exists m', exec_all exec m ops = Some m' /\ Inv m'.
Proof.
  intros Hstep ops. induction ops as [|op ops IH]; intros m Hm Hok; [by exists m|].
  apply Forall_cons_1 in Hok as [Hop Hok]. destruct (Hstep m op Hm Hop) as (m1 & E & Hm1).
  destruct (IH m1 Hm1 Hok) as (m' & E' & Hm'). exists m'. split; [|done].
  unfold exec_all in *. cbn [fold_left]. by rewrite E.
Qed.

Lemma draws_unused m draws : sized m -> draws_ok (map_size m) draws -> Exists (unused m) draws.
Proof.
  intros [Hs Hl] (_ & Hnd & Hlen).
  assert (Hex : Exists (fun k => forall i e, entries m !! i = Some e -> entry_tid e <> k) draws)
    by (apply (spare_key entry_tid); [done | unfold lenZ in *; lia]).
  eapply list.Exists_impl; [exact Hex|]. intros k Hk i e Hi _. by apply (Hk i).
Qed.

Lemma client_exec_ok n m op : client_ok m /\ map_size m = n -> client_op_ok n op ->
  exists m', client_exec m op = Some m' /\ client_ok m' /\ map_size m' = n.
Proof.
  intros [Hcl <-] Hop. pose proof Hcl as [Hok Htids]. pose proof (t_sized m (m_table m Hok)) as Hsz.
  destruct op as [r draws|r draws|now r draws d|now tid d|now tid d|tid]; cbn [client_exec client_op_ok] in *.
  - destruct Hop as [Hr Hd]. pose proof (draws_unused m draws Hsz Hd) as Hex. destruct Hd as [Hd _].
    destruct (set_random_tid_spec m TURN_ENTRY_TYPE_PERMISSION r draws Hcl ltac:(by left) Hr Hd Hex) as (res & m' & E & Hcl' & _).
    exists m'. unfold turn_set_random_permission_transaction_id. rewrite E. split_and!; [done | done | by eapply set_random_size].
  - destruct Hop as [Hr Hd]. pose proof (draws_unused m draws Hsz Hd) as Hex. destruct Hd as [Hd _].
    destruct (set_random_tid_spec m TURN_ENTRY_TYPE_CHANNEL r draws Hcl ltac:(by right) Hr Hd Hex) as (res & m' & E & Hcl' & _).
    exists m'. unfold turn_set_random_channel_transaction_id. rewrite E. split_and!; [done | done | by eapply set_random_size].
  - destruct Hop as (Hr & Hnd & Hlen). unfold turn_bind_random_channel.
    assert (Hex : Exists (fun r => owner m (random_channel_number r) = None) draws).
    { assert (Hex : Exists (fun k => forall i e, entries m !! i = Some e -> entry_channel e <> k) (random_channel_number <$> draws))
        by (apply (spare_key entry_channel); [done | rewrite length_fmap; destruct Hsz; unfold lenZ in *; lia]).
      apply Exists_fmap in Hex. eapply list.Exists_impl; [exact Hex|]. intros k Hk. by apply owner_none. }
    destruct (draw_channel_spec m draws Hok Hex) as (c & rest & -> & _ & Hc).
    destruct (bind_channel_spec now m r None c d Hok Hr ltac:(lia) ltac:(done)) as (ok & m' & E & Hok' & _ & Htids' & _).
    rewrite E. exists m'. split; [done|]. split; [by split; [|apply Htids']|]. by eapply bind_channel_size.
  - unfold turn_set_permission. destruct (update_tid_spec now m TURN_ENTRY_TYPE_PERMISSION tid d Hcl ltac:(by left) Hop) as (ok & m' & E & Hcl' & _).
    exists m'. rewrite E. split_and!; [done | done | by eapply update_timestamp_size].
  - unfold turn_bind_current_channel. destruct (update_tid_spec now m TURN_ENTRY_TYPE_CHANNEL tid d Hcl ltac:(by right) Hop) as (ok & m' & E & Hcl' & _).
    exists m'. rewrite E. split_and!; [done | done | by eapply update_timestamp_size].
  - destruct (retrieve_spec m tid Hcl Hop) as (res & m' & E & Hcl' & _).
    exists m'. rewrite E. split_and!; [done | done | by eapply retrieve_size].
Qed.

(** A new map. *)
Lemma init_ok size : 0 < size < 2 ^ 30 -> client_ok (turn_init_map size) /\ server_ok (turn_init_map size).
Proof.
  intros Hs. assert (Hz : forall i e, entries (turn_init_map size) !! i = Some e -> e = turn_entry_zero).
  { intros i e Hi. cbn in Hi. by apply lookup_replicate in Hi as [-> _]. }
  assert (Hok : map_ok (turn_init_map size)).
  { split; [split|].
    - split; [cbn; lia|]. cbn. by rewrite length_replicate.
    - intros i e Hi. rewrite (Hz i e Hi). apply entry_ok_zero.
    - intros i e Hi Hu. by rewrite (Hz i e Hi) in Hu.
    - split; [split; constructor|]. intros i. split; [by intros ?%not_elem_of_nil|].
      intros (e & Hi & Hl). unfold chan_live in Hl. by rewrite (Hz i e Hi) in Hl. }
  split; [split; [done|] | by split].
  split; [split; constructor|]. intros i. split; [by intros ?%not_elem_of_nil|].
  intros (e & Hi & Hl). unfold tid_live in Hl. by rewrite (Hz i e Hi) in Hl.
Qed.

(** C8: Any run of client operations on a new map is defined (no access outside
    the arrays, every loop ends) and keeps the map consistent: each entry is
    where find_entry finds it, and the two ordered arrays index the entries
    with a channel, and with a transaction identifier, in order. *)
Theorem turn_client_safe size ops : 0 < size < 2 ^ 30 -> Forall (client_op_ok (size * 2)) ops ->
  exists m, exec_all client_exec (turn_init_map size) ops = Some m /\ client_ok m /\ map_size m = size * 2.
Proof.
  intros Hs Hops. apply (exec_all_ok client_exec (fun m => client_ok m /\ map_size m = size * 2) (client_op_ok (size * 2)));
    [|split; [by apply init_ok | done]|done]. intros m op Hm Hop. by apply client_exec_ok.
Qed.

(** *** The server of server.c *)
Inductive server_op : Type :=
| SetPermission (now : Z) (tid : list Z) (r : addr_record) (d : Z)
| BindChannel (now : Z) (r : addr_record) (tid : list Z) (c d : Z).

Definition server_exec (m : turn_map) (op : server_op) : option turn_map :=
  match op with
  | SetPermission now tid r d => snd <$> turn_set_permission now m tid (Some r) d
  | BindChannel now r tid c d => snd <$> turn_bind_channel now m (Some r) (Some tid) c d
  end.

Definition server_op_ok (op : server_op) : Prop :=
  match op with
  | SetPermission _ tid r _ => is_tid tid /\ inet r
  | BindChannel _ r tid c _ => is_tid tid /\ inet r /\ 0 <= c < 65536
  end.

Lemma server_exec_ok m op : server_ok m -> server_op_ok op -> exists m', server_exec m op = Some m' /\ server_ok m'.
Proof.
  intros Hsv Hop. destruct op as [now tid r d|now r tid c d]; cbn [server_exec server_op_ok] in *.
  - destruct Hop as [Ht Hr]. unfold turn_set_permission.
    destruct (update_record_spec now m TURN_ENTRY_TYPE_PERMISSION r tid d Hsv ltac:(by left) Hr Ht) as (ok & m' & -> & Hsv' & _).
    by exists m'.
  - destruct Hop as (Ht & Hr & Hc). pose proof Hsv as [Hok Hnil].
    destruct (bind_channel_spec now m r (Some tid) c d Hok Hr Hc) as (ok & m' & -> & Hok' & Htids & _); [by intros t [= <-]|].
    exists m'. split; [done|]. split; [done|]. by rewrite Htids.
Qed.

(** C7: Any run of server operations on a new map, requests of hostile clients
    included, is defined and keeps the map consistent. *)
Theorem turn_server_safe size ops : 0 < size < 2 ^ 30 -> Forall server_op_ok ops ->
  exists m, exec_all server_exec (turn_init_map size) ops = Some m /\ server_ok m.
Proof.
  intros Hs Hops. apply (exec_all_ok server_exec server_ok server_op_ok); [|by apply init_ok|done].
  intros m op. apply server_exec_ok.
Qed.
End Runs.
