(* ===== verification/TurnLife.v ===== *)
(** * Lifetimes of permissions and channel bindings

    What an operation on the TURN map means for the queries that follow it, and
    the theorems on the map at a concrete map of two peers. *)

From stdpp Require Import list sorting.
From S2P Require Import Prelude Addr Turn TurnTable TurnInv TurnOps TurnTids TurnMap.

Section Life.
Context `{Platform}.

Abbreviation same_address := (fun r r' => addr_record_is_equal r r' false).

Lemma viewed_same v t r e r' : same_address r r' = true -> viewed v t r e t r' = Some e.
Proof. intros Heq. unfold viewed. by rewrite bool_decide_eq_true_2, Heq. Qed.

Lemma viewed_other v t r e t' r' : t' <> t \/ same_address r r' = false -> viewed v t r e t' r' = v t' r'.
Proof.
  intros Hne. unfold viewed. destruct Hne as [Hne|Hne]; [by rewrite bool_decide_eq_false_2|].
  by rewrite Hne, andb_false_r.
Qed.

Lemma turn_find_bound_channel_owner now m c : map_ok m -> is_valid_channel c = true ->
  turn_find_bound_channel now m c =
  Some (let? e := owner m c in if entry_timestamp e <=? now then None else Some (entry_record e)).
Proof.
  intros Hok Hv. pose proof (turn_find_channel_owner m c Hok Hv) as Hf. unfold turn_find_channel in Hf.
  unfold turn_find_bound_channel. rewrite Hv in *. cbn [negb] in *. apply is_valid_range in Hv.
  destruct (find_channel_owner m c Hok ltac:(lia)) as (p & Hp & _ & Ho). rewrite Hp in *.
  destruct (p =? channels_count m).
  - destruct (owner m c); [done|done].
  - destruct (owner m c) as [e|].
    + destruct Ho as (_ & -> & ->). rewrite Z.eqb_refl. cbn [negb orb]. by case_test.
    + destruct (ordered_entry m (ordered_channels m) p) as [e|]; [|done].
      destruct (entry_channel e =? c); cbn [negb orb] in *; done.
Qed.

(** C27: Channel bindings. turn_bind_channel is defined; when it succeeds the
    channel is found from the address, whatever the port, and the address from
    the channel, exactly until the timestamp given, while every other address,
    channel and permission is as before; when it is refused nothing changes,
    and it is refused only for an invalid channel, an address that has another
    channel, a channel of another address, or a full table. *)
Theorem turn_bind_channel_correct now m r tid c d :
  map_ok m -> inet r -> 0 <= c < 65536 -> (forall t, tid = Some t -> is_tid t) ->
  exists ok m', turn_bind_channel now m (Some r) tid c d = Some (ok, m') /\ map_ok m' /\
    if ok : bool then
      (exists r0, same_address r0 r = true /\
         (forall t, turn_find_bound_channel t m' c = Some (if now + d <=? t then None else Some r0))) /\
      (forall r', same_address r r' = true ->
         turn_get_channel m' r' = Some (Some c) /\
         forall t, turn_get_bound_channel t m' r' = Some (if now + d <=? t then None else Some c)) /\
      (forall r', same_address r r' = false -> turn_get_channel m' r' = turn_get_channel m r') /\
      (forall t r', turn_has_permission t m' r' = turn_has_permission t m r') /\
      (forall t c', c' <> c -> turn_find_bound_channel t m' c' = turn_find_bound_channel t m c')
    else m' = m /\ bind_refused m r c.
Proof.
  intros Hok Hr Hc Htid. destruct (bind_channel_spec now m r tid c d Hok Hr Hc Htid) as (ok & m' & E & Hok' & _ & _ & Hpost).
  exists ok, m'. split; [done|]. split; [done|]. destruct ok; [|done].
  destruct Hpost as (e & ([Hte Heq] & Hch & Hts) & Hview & Hown).
  pose proof (m_table m Hok) as Ht. pose proof (m_table m' Hok') as Ht'.
  assert (He : exists i, entries m' !! i = Some e /\ matches TURN_ENTRY_TYPE_CHANNEL r e).
  { apply view_some; [done | by right|]. rewrite Hview by (by right). apply viewed_same, equal_refl. done. }
  destruct He as (i & Hi & _). destruct (e_channel e (t_entry m' Ht' i e Hi)) as [Hc0|[_ Hcr]].
  { exfalso. unfold turn_bind_channel in E. destruct (is_valid_channel c) eqn:Hv; [|done]. apply is_valid_range in Hv. lia. }
  assert (Hvalid : is_valid_channel c = true) by (apply is_valid_range; lia).
  split_and!.
  - exists (entry_record e). split; [done|]. intros t. rewrite turn_find_bound_channel_owner by done.
    rewrite Hown by lia. rewrite Z.eqb_refl, Hts. done.
  - intros r' Hr'. rewrite turn_get_channel_view by done. rewrite Hview, viewed_same by (done || by right).
    split; [by rewrite <- Hch|]. intros t. rewrite turn_get_bound_channel_view by done.
    rewrite Hview, viewed_same by (done || by right). rewrite Hts, Hch.
    replace (c =? 0) with false by (symmetry; apply Z.eqb_neq; lia). done.
  - intros r' Hr'. rewrite !turn_get_channel_view by done. rewrite Hview by (by right). rewrite viewed_other by auto. done.
  - intros t r'. rewrite !turn_has_permission_view by done. rewrite Hview by (by left). rewrite viewed_other by (by left). done.
  - intros t c' Hne. destruct (is_valid_channel c') eqn:Hv; [|unfold turn_find_bound_channel; by rewrite Hv].
    rewrite !turn_find_bound_channel_owner by done. apply is_valid_range in Hv. rewrite Hown by lia.
    by replace (c =? c') with false by (symmetry; apply Z.eqb_neq; lia).
Qed.

(** C28: Permissions, on the server. Setting one with a new transaction identifier
    permits the address, whatever the port, exactly until the timestamp given;
    repeating the identifier of the entry changes nothing; other addresses and
    the channels are as before; it fails only for a new address in a full table. *)
Theorem turn_set_permission_correct now m tid r d :
  server_ok m -> inet r -> is_tid tid ->
  exists ok m', turn_set_permission now m tid (Some r) d = Some (ok, m') /\ server_ok m' /\
    if ok : bool then
      (m' = m /\ exists e, view m TURN_ENTRY_TYPE_PERMISSION r = Some e /\ entry_tid e = tid) \/
      ((forall r' t, same_address r r' = true -> turn_has_permission t m' r' = Some (t <? now + d)) /\
       (forall r' t, same_address r r' = false -> turn_has_permission t m' r' = turn_has_permission t m r') /\
       (forall r', turn_get_channel m' r' = turn_get_channel m r'))
    else m' = m /\ full m /\ turn_has_permission now m r = Some false.
Proof.
  intros Hsv Hr Htid. unfold turn_set_permission. assert (Hl : live_type TURN_ENTRY_TYPE_PERMISSION) by (by left).
  destruct (update_record_spec now m TURN_ENTRY_TYPE_PERMISSION r tid d Hsv Hl Hr Htid) as (ok & m' & E & Hsv' & Hpost).
  exists ok, m'. split; [done|]. split; [done|]. pose proof (m_table m (sv_map m Hsv)) as Ht.
  pose proof (m_table m' (sv_map m' Hsv')) as Ht'. destruct ok.
  - destruct Hpost as [(e & Hv & Hte & ->) | (e & _ & _ & Hts & Hview)]; [left; split; [done|by exists e]|right].
    split_and!.
    + intros r' t Hr'. rewrite turn_has_permission_view by done. by rewrite Hview, viewed_same, Hts.
    + intros r' t Hr'. rewrite !turn_has_permission_view by done. rewrite Hview by done. rewrite viewed_other by auto. done.
    + intros r'. rewrite !turn_get_channel_view by done. rewrite Hview by (by right). rewrite viewed_other by (by left). done.
  - destruct Hpost as (-> & Hv & Hf). split_and!; [done|done|]. rewrite turn_has_permission_view by done. by rewrite Hv.
Qed.

(** C29: A transaction of the client. After turn_set_random_permission_transaction_id
    gave an identifier for an address, the success response that carries it
    permits the address until the timestamp given, and changes no other
    permission and no channel. *)
Theorem turn_permission_transaction m r draws tid m1 now d :
  client_ok m -> inet r -> draws_ok (map_size m) draws ->
  turn_set_random_permission_transaction_id m r draws = Some (Some tid, m1) -> memory_is_zero tid = false ->
  exists m2, turn_set_permission now m1 tid None d = Some (true, m2) /\ client_ok m2 /\
    (forall t r', same_address r r' = true -> turn_has_permission t m2 r' = Some (t <? now + d)) /\
    (forall t r', same_address r r' = false -> turn_has_permission t m2 r' = turn_has_permission t m r') /\
    (forall r', turn_get_channel m2 r' = turn_get_channel m r').
Proof.
  intros Hcl Hr Hd E Hnz. assert (Hl : live_type TURN_ENTRY_TYPE_PERMISSION) by (by left).
  pose proof (m_table m (cl_map m Hcl)) as Ht. pose proof (draws_unused m draws (t_sized m Ht) Hd) as Hex.
  destruct Hd as [Hp _].
  destruct (set_random_tid_spec m TURN_ENTRY_TYPE_PERMISSION r draws Hcl Hl Hr Hp Hex) as (res & m' & E' & Hcl1 & Hpost).
  unfold turn_set_random_permission_transaction_id in E. rewrite E in E'. injection E' as <- <-.
  assert (He : exists e, entry_tid e = tid /\ view m1 TURN_ENTRY_TYPE_PERMISSION r = Some e /\
    forall t' r', live_type t' -> t' <> TURN_ENTRY_TYPE_PERMISSION \/ same_address r r' = false -> view m1 t' r' = view m t' r').
  { destruct Hpost as [(e & Hv & _ & Hte & ->) | (_ & _ & e & Hte & _ & _ & Hview)]; exists e; split_and!; try done.
    - rewrite Hview by done. by apply viewed_same, equal_refl.
    - intros t' r' Hl' Hne. rewrite Hview by done. by apply viewed_other. }
  destruct He as (e & Hte & Hv & Hother). pose proof (m_table m1 (cl_map m1 Hcl1)) as Ht1.
  apply view_some in Hv as (i & Hi & Hm & Heq); [|done|done].
  assert (His : is_tid tid) by (rewrite <- Hte; apply (t_entry m1 Ht1 i e Hi)).
  destruct (update_tid_spec now m1 TURN_ENTRY_TYPE_PERMISSION tid d Hcl1 Hl His) as (ok & m2 & E2 & Hcl2 & Hpost2).
  destruct ok; [|destruct Hpost2 as [_ Hno]; elim (Hno i e); congruence].
  destruct Hpost2 as (j & e' & Hj & Hte' & Hty' & Hv' & Hview2).
  assert (e = e') as <-.
  { assert (i = j) as <-; [|congruence].
    apply (index_inj (dom := is_tid) (cmp := memcmp) entry_tid tid_live m1 _ i j e e' (cl_tids m1 Hcl1));
      unfold tid_live; congruence. }
  pose proof (m_table m2 (cl_map m2 Hcl2)) as Ht2. exists m2. split; [done|]. split; [done|].
  assert (Hsame : forall r', same_address (entry_record e) r' = same_address r r').
  { intros r'. apply eq_true_iff_eq. split; intros Hx.
    - rewrite equal_sym in Heq. exact (addr_is_equal_trans _ _ _ _ Heq Hx).
    - exact (addr_is_equal_trans _ _ _ _ Heq Hx). }
  split_and!.
  - intros t r' Hr'. rewrite turn_has_permission_view by done. rewrite Hview2, viewed_same; [done | by rewrite Hsame | done].
  - intros t r' Hr'. rewrite !turn_has_permission_view by done. rewrite Hview2 by done.
    rewrite viewed_other by (rewrite Hsame; auto). by rewrite Hother by auto.
  - intros r'. rewrite !turn_get_channel_view by done. rewrite Hview2 by (by right).
    rewrite viewed_other by (by left). rewrite Hother; [done | by right | by left].
Qed.

(** Channels are kept per address, not per transport address: once a channel
    is bound to a peer, a peer at another port of the same host is given that
    channel, data on the channel goes to the first port, and the second peer
    cannot get a channel of its own. *)
Theorem turn_channel_ignores_port now m a p p' l tid c c' d m' :
  map_ok m -> p <> p' -> 0 <= c < 65536 -> 0 <= c' < 65536 -> c' <> c -> 0 < d -> (forall t, tid = Some t -> is_tid t) ->
  view m TURN_ENTRY_TYPE_CHANNEL (mkRecord (sockaddr_in p a) l) = None ->
  turn_bind_channel now m (Some (mkRecord (sockaddr_in p a) l)) tid c d = Some (true, m') ->
  turn_get_bound_channel now m' (mkRecord (sockaddr_in p' a) l) = Some (Some c) /\
  turn_find_bound_channel now m' c = Some (Some (mkRecord (sockaddr_in p a) l)) /\
  turn_bind_channel now m' (Some (mkRecord (sockaddr_in p' a) l)) tid c' d = Some (false, m').
Proof.
  intros Hok Hp Hc Hc' Hne Hd Htid Hnone E. set (r := mkRecord (sockaddr_in p a) l) in *. set (r' := mkRecord (sockaddr_in p' a) l).
  assert (Hr : inet r) by (intros f; done). assert (Hr' : inet r') by (intros f; done).
  assert (Hsame : addr_record_is_equal r r' false = true) by (apply addr_is_equal_spec; done).
  assert (Hv0 : is_valid_channel c = true) by (unfold turn_bind_channel in E; destruct (is_valid_channel c); [done|discriminate E]).
  assert (Hrec : exists i, find_entry m r TURN_ENTRY_TYPE_CHANNEL true = Some (Some i) /\ entries m !! i = Some turn_entry_zero).
  { destruct (find_entry_slot m r TURN_ENTRY_TYPE_CHANNEL (m_table m Hok)) as [(Hf & _) | (i & e & Hf & Hslot & Hvw)]; [by right| |].
    - unfold turn_bind_channel in E. rewrite Hv0, Hf in E. done.
    - rewrite Hnone in Hvw. exists i. split; [done|]. destruct Hslot as [Hi [[Hty _]|[-> _]]]; [|done].
      assert (Ht : is_type TURN_ENTRY_TYPE_CHANNEL e = true) by (by apply is_type_true). by rewrite Ht in Hvw. }
  destruct (bind_channel_spec now m r tid c d Hok Hr Hc Htid) as (ok & m1 & E1 & Hok' & _ & _ & Hpost).
  rewrite E in E1. injection E1 as <- <-. destruct Hpost as (e & ([Hte Heq] & Hch & Hts) & Hview & Hown).
  pose proof (m_table m' Hok') as Ht'. apply is_valid_range in Hv0 as Hv0'.
  assert (Hview' : view m' TURN_ENTRY_TYPE_CHANNEL r' = Some e) by (rewrite Hview by (by right); by apply viewed_same).
  assert (Hre : entry_record e = r).
  { destruct Hrec as (i & Hf & Hi). unfold turn_bind_channel in E. rewrite Hv0, Hf, Hi in E. cbn [negb andb is_type] in E.
    change (is_type TURN_ENTRY_TYPE_CHANNEL turn_entry_zero) with false in E. cbn [andb] in E.
    destruct (find_ordered_channel m c); [|done]. destruct (if z <? channels_count m then _ else _) as [[|]|]; [done| |done].
    destruct (insert_at m _ _ i) as [l'|]; [|done]. injection E as <-.
    assert (Hown' := Hown c ltac:(lia)). rewrite Z.eqb_refl in Hown'.
    apply owner_some in Hown' as (j & Hj & _); [|apply Hok'|lia].
    pose proof (lookup_lt_Some _ _ _ Hi) as Hlt.
    assert (Hij : i = j).
    { destruct (decide (i = j)); [done|]. exfalso.
      rewrite entries_set_ne in Hj by done. cbn in Hj.

      assert (Hm : view m TURN_ENTRY_TYPE_CHANNEL r = Some e) by (apply view_some; [apply Hok | by right | by exists j]). congruence. }
    subst j. rewrite entries_set_eq in Hj by done. destruct tid; injection Hj as <-; done. }
  split; [|split].
  - rewrite turn_get_bound_channel_view, Hview' by done. rewrite Hch, Hts.
    replace (c =? 0) with false by (symmetry; apply Z.eqb_neq; lia).
    by replace (now + d <=? now) with false by (symmetry; apply Z.leb_gt; lia).
  - rewrite turn_find_bound_channel_owner by done. rewrite Hown by lia. rewrite Z.eqb_refl, Hts, Hre.
    by replace (now + d <=? now) with false by (symmetry; apply Z.leb_gt; lia).
  - destruct (bind_channel_spec now m' r' tid c' d Hok' Hr' Hc' Htid) as (ok & m2 & E2 & _ & _ & _ & Hpost2).
    rewrite E2. destruct ok; [exfalso|by destruct Hpost2 as [-> _]].
    apply view_some in Hview' as (i & Hi & _ & Heq'); [|done | by right].
    unfold turn_bind_channel in E2. destruct (is_valid_channel c'); [|done]. cbn [negb] in E2.
    destruct (t_found m' Ht' i e Hi) as [_ Hf]; [by eapply live_used; [right|]|]. specialize (Hf true). rewrite Hte in Hf.
    rewrite (find_entry_equal m' _ r') in Hf by (done || apply Ht'). rewrite Hf, Hi in E2.
    assert (Hty : is_type TURN_ENTRY_TYPE_CHANNEL e = true) by (by apply is_type_true). rewrite Hty, Hch in E2.
    replace (c =? 0) with false in E2 by (symmetry; apply Z.eqb_neq; lia).
    replace (c =? c') with false in E2 by (symmetry; apply Z.eqb_neq; lia). done.
Qed.
End Life.

(** ** A map of two peers on the target's platform *)
#[local] Existing Instance lwip.

Definition example_peer (port : Z) : addr_record := mkRecord (sockaddr_in port [10; 0; 0; 1]) 16.
Definition example_draws : list (list Z) := (fun k => replicate 12 k) <$> [1; 2; 3; 4; 5].
Definition example_map : turn_map := turn_init_map 2.

Lemma example_inet port : inet (example_peer port).
Proof. intros f. discriminate. Qed.

Lemma example_draws_ok : draws_ok 4 example_draws.
Proof.
  split; [|split].
  - repeat (apply Forall_cons_2; [split; reflexivity|]). apply Forall_nil_2.
  - apply (bool_decide_unpack (NoDup example_draws)). vm_compute. exact I.
  - reflexivity.
Qed.

Lemma example_map_ok : client_ok example_map /\ server_ok example_map.
Proof. apply init_ok. lia. Qed.

Lemma turn_wrap_channel_data_correct_witness :
  turn_wrap_channel_data (replicate 10 0) 8 [1; 2] 0x4001 =
    Some (if is_valid_channel 0x4001 && (lenZ [1; 2] <? 65536) && (4 + lenZ [1; 2] <=? 8)
          then (be_bytes 2 0x4001 ++ be_bytes 2 (lenZ [1; 2]) ++ [1; 2] ++ drop (4 + 2) (replicate 10 0), 4 + lenZ [1; 2])
          else (replicate 10 0, -1)) /\
  forall rest, is_valid_channel 0x4001 = true ->
    is_channel_data (be_bytes 2 0x4001 ++ rest) (2 + lenZ rest) = Some (0x4001 <? 0x5000).
Proof.
  apply (turn_wrap_channel_data_correct (replicate 10 0) 8 [1; 2] 0x4001).
  - repeat (apply Forall_cons_2; [unfold is_byte; lia|]). apply Forall_nil_2.
  - rewrite lenZ_replicate. lia.
  - lia.
Defined.

Lemma turn_client_safe_witness :
  exists m, exec_all client_exec (turn_init_map 2)
    [PermissionId (example_peer 80) example_draws; Permit 100 (replicate 12 1) 60; Retrieve (replicate 12 9)] = Some m /\
    client_ok m /\ map_size m = 2 * 2.
Proof.
  apply (turn_client_safe 2); [lia|].
  apply Forall_cons_2; [split; [apply example_inet | apply example_draws_ok]|].
  apply Forall_cons_2; [reflexivity|]. apply Forall_cons_2; [reflexivity | apply Forall_nil_2].
Defined.

Lemma turn_server_safe_witness :
  exists m, exec_all server_exec (turn_init_map 2)
    [BindChannel 100 (example_peer 80) (replicate 12 1) 0x4000 600; SetPermission 100 (replicate 12 1) (example_peer 80) 300] = Some m /\
    server_ok m.
Proof.
  apply (turn_server_safe 2); [lia|].
  apply Forall_cons_2; [split; [reflexivity | split; [apply example_inet | lia]]|].
  apply Forall_cons_2; [split; [reflexivity | apply example_inet] | apply Forall_nil_2].
Defined.

Lemma turn_bind_channel_correct_witness :
  exists ok m', turn_bind_channel 100 example_map (Some (example_peer 80)) None 0x4000 600 = Some (ok, m') /\ map_ok m' /\
    if ok : bool then
      (exists r0, addr_record_is_equal r0 (example_peer 80) false = true /\
         (forall t, turn_find_bound_channel t m' 0x4000 = Some (if 100 + 600 <=? t then None else Some r0))) /\
      (forall r', addr_record_is_equal (example_peer 80) r' false = true ->
         turn_get_channel m' r' = Some (Some 0x4000) /\
         forall t, turn_get_bound_channel t m' r' = Some (if 100 + 600 <=? t then None else Some 0x4000)) /\
      (forall r', addr_record_is_equal (example_peer 80) r' false = false -> turn_get_channel m' r' = turn_get_channel example_map r') /\
      (forall t r', turn_has_permission t m' r' = turn_has_permission t example_map r') /\
      (forall t c', c' <> 0x4000 -> turn_find_bound_channel t m' c' = turn_find_bound_channel t example_map c')
    else m' = example_map /\ bind_refused example_map (example_peer 80) 0x4000.
Proof.
  apply (turn_bind_channel_correct 100 example_map (example_peer 80) None 0x4000 600).
  - apply example_map_ok.
  - apply example_inet.
  - lia.
  - intros t E. discriminate E.
Defined.

Lemma turn_set_permission_correct_witness :
  exists ok m', turn_set_permission 100 example_map (replicate 12 1) (Some (example_peer 80)) 300 = Some (ok, m') /\ server_ok m' /\
    if ok : bool then
      (m' = example_map /\ exists e, view example_map TURN_ENTRY_TYPE_PERMISSION (example_peer 80) = Some e /\ entry_tid e = replicate 12 1) \/
      ((forall r' t, addr_record_is_equal (example_peer 80) r' false = true -> turn_has_permission t m' r' = Some (t <? 100 + 300)) /\
       (forall r' t, addr_record_is_equal (example_peer 80) r' false = false -> turn_has_permission t m' r' = turn_has_permission t example_map r') /\
       (forall r', turn_get_channel m' r' = turn_get_channel example_map r'))
    else m' = example_map /\ full example_map /\ turn_has_permission 100 example_map (example_peer 80) = Some false.
Proof.
  apply (turn_set_permission_correct 100 example_map (replicate 12 1) (example_peer 80) 300).
  - apply example_map_ok.
  - apply example_inet.
  - reflexivity.
Defined.

Definition example_requested : turn_map :=
  match turn_set_random_permission_transaction_id example_map (example_peer 80) example_draws with
  | Some (_, m) => m
  | None => example_map
  end.

Lemma turn_permission_transaction_witness :
  exists m2, turn_set_permission 100 example_requested (replicate 12 1) None 150 = Some (true, m2) /\ client_ok m2 /\
    (forall t r', addr_record_is_equal (example_peer 80) r' false = true -> turn_has_permission t m2 r' = Some (t <? 100 + 150)) /\
    (forall t r', addr_record_is_equal (example_peer 80) r' false = false -> turn_has_permission t m2 r' = turn_has_permission t example_map r') /\
    (forall r', turn_get_channel m2 r' = turn_get_channel example_map r').
Proof.
  apply (turn_permission_transaction example_map (example_peer 80) example_draws (replicate 12 1) example_requested 100 150).
  - apply example_map_ok.
  - apply example_inet.
  - apply example_draws_ok.
  - vm_compute. reflexivity.
  - reflexivity.
Defined.

Definition example_bound : turn_map :=
  match turn_bind_channel 100 example_map (Some (example_peer 80)) None 0x4000 600 with
  | Some (_, m) => m
  | None => example_map
  end.

Lemma turn_channel_ignores_port_witness :
  turn_get_bound_channel 100 example_bound (example_peer 81) = Some (Some 0x4000) /\
  turn_find_bound_channel 100 example_bound 0x4000 = Some (Some (example_peer 80)) /\
  turn_bind_channel 100 example_bound (Some (example_peer 81)) None 0x4001 600 = Some (false, example_bound).
Proof.
  apply (turn_channel_ignores_port 100 example_map [10; 0; 0; 1] 80 81 16 None 0x4000 0x4001 600 example_bound).
  - apply example_map_ok.
  - lia.
  - lia.
  - lia.
  - lia.
  - lia.
  - intros t E. discriminate E.
  - vm_compute. reflexivity.
  - vm_compute. reflexivity.
Defined.
