(* ===== verification/CStdio.v ===== *)
(** * C library strings: prefixes, [sscanf] and [snprintf]

    The part of <ctype.h>, <string.h> and <stdio.h> that the session
    descriptions use.  A string is the list of its characters, without the
    NUL; a formatted conversion is a directive. *)

From Stdlib Require Import Strings.String Strings.Ascii.
From S2P Require Import Prelude Base64.

(** A string literal. *)
Definition lit (s : String.string) : list Z :=
  map (fun a => Z.of_nat (Ascii.nat_of_ascii a)) (String.list_ascii_of_string s).
Arguments lit s%_string_scope.

(** ** Characters of the C locale *)
Definition isdigit (c : Z) : bool := (48 <=? c) && (c <=? 57).
Definition isupper (c : Z) : bool := (65 <=? c) && (c <=? 90).
Definition islower (c : Z) : bool := (97 <=? c) && (c <=? 122).
Definition isalpha (c : Z) : bool := isupper c || islower c.
Definition toupper (c : Z) : Z := if islower c then c - 32 else c.
Definition tolower (c : Z) : Z := if isupper c then c + 32 else c.

(** ** Prefixes *)

(** What follows [prefix], when the string starts with it. *)
Fixpoint strip (prefix str : list Z) : option (list Z) :=
  match prefix, str with
  | [], _ => Some str
  | p :: prefix', c :: str' => if p =? c then strip prefix' str' else None
  | _ :: _, [] => None
  end.

(** The longest prefix of characters that satisfy [f], and the rest. *)
Fixpoint span (f : Z -> bool) (str : list Z) : list Z * list Z :=
  match str with
  | c :: str' => if f c then let '(a, b) := span f str' in (c :: a, b) else ([], str)
  | [] => ([], [])
  end.

(** ** Decimal numerals *)
Definition digits_value (ds : list Z) : Z := fold_left (fun v c => 10 * v + (c - 48)) ds 0.

(** The digits of [z], the last one first; [n] bounds their number. *)
Fixpoint rev_digits (n : nat) (z : Z) : list Z :=
  match n with
  | O => []
  | S n' => (48 + z `mod` 10) :: (if z / 10 =? 0 then [] else rev_digits n' (z / 10))
  end.

(** The conversion ["%u"]: a 32-bit value has ten digits at most. *)
Definition print_u (z : Z) : list Z := rev (rev_digits 10 (u32 z)).

(** ** [sscanf] *)

(** C leaves the value open that ["%d"] or ["%u"] stores for a number outside
    the range of its type; it is some value of the type. *)
Class Scan := {
  int_overflow : Z -> Z;
  uint_overflow : Z -> Z;
  int_overflow_range z : - 2 ^ 31 <= int_overflow z < 2 ^ 31;
  uint_overflow_range z : 0 <= uint_overflow z < 2 ^ 32
}.

(** The C library of the target saturates. *)
Definition newlib : Scan.
Proof.
  refine {| int_overflow z := if z <? 0 then - 2 ^ 31 else 2 ^ 31 - 1; uint_overflow _ := 2 ^ 32 - 1 |};
    intros z; [destruct (z <? 0)|]; lia.
Defined.

Inductive directive : Type :=
| Space                     (** white space in the format *)
| Literal (s : list Z)      (** characters to match *)
| Word (width : Z)          (** ["%<width>s"] *)
| Int                       (** ["%d"] *)
| Uint.                     (** ["%u"] *)

Inductive scanned : Type :=
| Str (s : list Z)
| Num (z : Z).

Section Sscanf.
Context `{Scan}.

Definition stored_int (z : Z) : Z := if (- 2 ^ 31 <=? z) && (z <? 2 ^ 31) then z else int_overflow z.
Definition stored_uint (z : Z) : Z := if (- 2 ^ 32 <? z) && (z <? 2 ^ 32) then u32 z else uint_overflow z.

Definition skip_spaces (str : list Z) : list Z := snd (span isspace str).

(** An optional sign and a numeral. *)
Definition scan_number (str : list Z) : option (Z * list Z) :=
  let '(sign, str) :=
    match str with
    | c :: str' => if c =? 45 then (-1, str') else if c =? 43 then (1, str') else (1, str)
    | [] => (1, [])
    end in
  match span isdigit str with
  | ([], _) => None
  | (ds, rest) => Some (sign * digits_value ds, rest)
  end.

(** The word and the rest: at most [width] characters, at least one. *)
Definition scan_word (width : Z) (str : list Z) : option (list Z * list Z) :=
  let '(w, rest) := span (fun c => negb (isspace c)) str in
  match w with
  | [] => None
  | _ => Some (take (Z.to_nat width) w, drop (Z.to_nat width) w ++ rest)
  end.

(** The values stored, up to the first directive that fails; [sscanf] returns
    their number, or EOF when there is none and the string has ended. *)
Fixpoint sscanf (str : list Z) (format : list directive) : list scanned :=
  match format with
  | [] => []
  | Space :: format' => sscanf (skip_spaces str) format'
  | Literal s :: format' =>
    match strip s str with
    | Some rest => sscanf rest format'
    | None => []
    end
  | Word width :: format' =>
    match scan_word width (skip_spaces str) with
    | Some (w, rest) => Str w :: sscanf rest format'
    | None => []
    end
  | Int :: format' =>
    match scan_number (skip_spaces str) with
    | Some (z, rest) => Num (stored_int z) :: sscanf rest format'
    | None => []
    end
  | Uint :: format' =>
    match scan_number (skip_spaces str) with
    | Some (z, rest) => Num (stored_uint z) :: sscanf rest format'
    | None => []
    end
  end.
End Sscanf.

(** ** [snprintf] of the formatted text [str] at [off], room for [n]
    characters: the memory and the returned value. *)
Definition snprintf (mem : list Z) (off n : Z) (str : list Z) : option (list Z * Z) :=
  if n =? 0 then Some (mem, lenZ str)
  else let? mem := store off (take (Z.to_nat (n - 1)) str ++ [0]) mem in Some (mem, lenZ str).

(** ** Lemmas *)
Lemma strip_app p s : strip p (p ++ s) = Some s.
Proof. induction p as [|c p IH]; simpl; [done|]. by rewrite Z.eqb_refl. Qed.

Lemma strip_Some p s r : strip p s = Some r -> s = p ++ r.
Proof.
  revert s. induction p as [|c p IH]; intros [|d s]; simpl; intros Hs; simplify_eq; try done.
  destruct (c =? d) eqn:E; [|done]. apply Z.eqb_eq in E. subst. f_equal. auto.
Qed.

Lemma span_all f a b : Forall (fun c => f c = true) a -> hd_error b = None \/ (exists c, hd_error b = Some c /\ f c = false) ->
  span f (a ++ b) = (a, b).
Proof.
  intros Ha Hb. induction Ha as [|c a Hc Ha IH]; simpl.
  - destruct b as [|c b]; [done|]. destruct Hb as [?|(? & [= <-] & Hf)]; [done|]. simpl. by rewrite Hf.
  - by rewrite Hc, IH.
Qed.

Lemma span_app f s : fst (span f s) ++ snd (span f s) = s.
Proof.
  induction s as [|c s IH]; simpl; [done|]. destruct (f c); [|done].
  destruct (span f s); simpl in *. congruence.
Qed.

Lemma span_sat f s : Forall (fun c => f c = true) (fst (span f s)).
Proof.
  induction s as [|c s IH]; simpl; [constructor|]. destruct (f c) eqn:Ef; [|constructor].
  destruct (span f s); simpl in *. by constructor.
Qed.

Lemma fold_left_digits ds v : fold_left (fun v c => 10 * v + (c - 48)) ds v = v * 10 ^ lenZ ds + digits_value ds.
Proof.
  unfold digits_value. revert v. induction ds as [|d ds IH]; intros v; cbn [fold_left].
  - rewrite lenZ_nil. lia.
  - rewrite IH, (IH (10 * 0 + (d - 48))), lenZ_cons.
    rewrite Z.pow_add_r by (pose proof (lenZ_nonneg ds); lia). lia.
Qed.

Lemma digits_value_snoc ds d : digits_value (ds ++ [d]) = 10 * digits_value ds + (d - 48).
Proof. unfold digits_value. by rewrite fold_left_app. Qed.

Lemma rev_digits_value n z : 0 <= z < 10 ^ Z.of_nat n -> digits_value (rev (rev_digits n z)) = z.
Proof.
  revert z. induction n as [|n IH]; intros z Hz; cbn [rev_digits].
  - simpl in *. unfold digits_value. simpl. lia.
  - cbn [rev]. rewrite digits_value_snoc.
    assert (Hn : 10 ^ Z.of_nat (S n) = 10 * 10 ^ Z.of_nat n).
    { rewrite Nat2Z.inj_succ, Z.pow_succ_r by lia. done. }
    case_test; zify_bool.
    + cbn [rev]. unfold digits_value. simpl. lia_mod.
    + rewrite IH by (split; [lia_mod|]; apply Z.div_lt_upper_bound; lia). lia_mod.
Qed.

Lemma rev_digits_digit n z : Forall (fun c => isdigit c = true) (rev_digits n z).
Proof.
  revert z. induction n as [|n IH]; intros z; cbn [rev_digits]; [constructor|]. constructor.
  - unfold isdigit. apply andb_true_intro. split; apply Z.leb_le; lia_mod.
  - case_test; [constructor|apply IH].
Qed.

Lemma length_rev_digits n z : (length (rev_digits n z) <= n)%nat.
Proof.
  revert z. induction n as [|n IH]; intros z; cbn [rev_digits]; [simpl; lia|].
  simpl. case_test; simpl; [lia|]. specialize (IH (z / 10)). lia.
Qed.

Lemma print_u_value z : 0 <= z < 2 ^ 32 -> digits_value (print_u z) = z.
Proof. intros Hz. unfold print_u. rewrite wrap_small by lia. apply rev_digits_value. lia. Qed.

Lemma print_u_digits z : Forall (fun c => isdigit c = true) (print_u z).
Proof. apply Forall_rev, rev_digits_digit. Qed.

Lemma print_u_length z : (1 <= length (print_u z) <= 10)%nat.
Proof.
  unfold print_u. rewrite length_rev. split; [cbn [rev_digits length]; lia|apply length_rev_digits].
Qed.
