(* ===== verification/Ice.v ===== *)
(** * ice.c: candidates, priorities and session descriptions

    Character arrays of candidates and descriptions are modelled by the C
    strings they hold; what a conversion stores is checked against the size of
    the array ([store_string]).  The buffer of a line of [ice_parse_sdp] is a
    memory, whose contents are indeterminate at first, with a counter.  The
    candidates of a description are the first [candidates_count] of its array.
    Pointers to candidates are indices or, in a pair, the candidates they point
    to.  Log output is left out. *)

From Stdlib Require Import Strings.String.
From S2P Require Import Prelude Base64 CStdio Addr.

(** ** ice.h *)
Definition ICE_MAX_CANDIDATES_COUNT : Z := 20.

Inductive ice_candidate_type : Type :=
| ICE_CANDIDATE_TYPE_UNKNOWN
| ICE_CANDIDATE_TYPE_HOST
| ICE_CANDIDATE_TYPE_SERVER_REFLEXIVE
| ICE_CANDIDATE_TYPE_PEER_REFLEXIVE
| ICE_CANDIDATE_TYPE_RELAYED.

#[export] Instance ice_candidate_type_eq_dec : EqDecision ice_candidate_type.
Proof. solve_decision. Defined.

Definition ICE_CANDIDATE_PREF_HOST : Z := 126.
Definition ICE_CANDIDATE_PREF_PEER_REFLEXIVE : Z := 110.
Definition ICE_CANDIDATE_PREF_SERVER_REFLEXIVE : Z := 100.
Definition ICE_CANDIDATE_PREF_RELAYED : Z := 0.

Record ice_candidate := mkCandidate {
  type : ice_candidate_type;
  priority : Z;
  component : Z;
  foundation : list Z;
  transport : list Z;
  hostname : list Z;
  service : list Z;
  resolved : addr_record
}.

Record ice_description := mkDescription {
  ice_ufrag : list Z;
  ice_pwd : list Z;
  ice_lite : bool;
  candidates : list ice_candidate;
  finished : bool
}.

Definition candidates_count (d : ice_description) : Z := lenZ (candidates d).

Inductive ice_candidate_pair_state : Type :=
| ICE_CANDIDATE_PAIR_STATE_PENDING
| ICE_CANDIDATE_PAIR_STATE_SUCCEEDED
| ICE_CANDIDATE_PAIR_STATE_FAILED
| ICE_CANDIDATE_PAIR_STATE_FROZEN.

Record ice_candidate_pair := mkPair {
  local : option ice_candidate;
  remote : option ice_candidate;
  pair_priority : Z;
  pair_state : ice_candidate_pair_state;
  nominated : bool;
  nomination_requested : bool;
  consent_expiry : Z
}.

Inductive ice_resolve_mode : Type := ICE_RESOLVE_MODE_SIMPLE | ICE_RESOLVE_MODE_LOOKUP.

Definition ICE_PARSE_ERROR : Z := -1.
Definition ICE_PARSE_IGNORED : Z := -2.
Definition ICE_PARSE_MISSING_UFRAG : Z := -3.
Definition ICE_PARSE_MISSING_PWD : Z := -4.

#[export] Instance ice_candidate_expand : Expand ice_candidate := fun c =>
  mkCandidate (type c) (priority c) (component c) (foundation c) (transport c) (hostname c) (service c) (resolved c).
#[export] Instance ice_description_expand : Expand ice_description := fun d =>
  mkDescription (ice_ufrag d) (ice_pwd d) (ice_lite d) (candidates d) (finished d).
#[export] Instance ice_candidate_pair_expand : Expand ice_candidate_pair := fun p =>
  mkPair (local p) (remote p) (pair_priority p) (pair_state p) (nominated p) (nomination_requested p) (consent_expiry p).

(** The objects that [memset] leaves. *)
Definition ice_candidate_zero : ice_candidate :=
  mkCandidate ICE_CANDIDATE_TYPE_UNKNOWN 0 0 [] [] [] [] addr_record_zero.
Definition ice_description_zero : ice_description := mkDescription [] [] false [] false.
Definition ice_candidate_pair_zero : ice_candidate_pair :=
  mkPair None None 0 ICE_CANDIDATE_PAIR_STATE_PENDING false false 0.

(** ** ice.c *)
Definition BUFFER_SIZE : Z := 1024.
Definition CLAMP (x low high : Z) : Z := if x >? high then high else if x <? low then low else x.

(** What the code takes from <netdb.h>: the results of [getaddrinfo] for a name
    and a service, numeric only or not, and the texts of [getnameinfo]. *)
Class Resolver := {
  getaddrinfo : bool -> list Z -> list Z -> option (list addr_record);
  getnameinfo : addr_record -> option (list Z * list Z)
}.

Definition skip_prefix (str prefix : list Z) : list Z :=
  match strip prefix str with
  | Some rest => rest
  | None => str
  end.

(** The value of [*end] and the result. *)
Definition match_prefix (str prefix : list Z) : list Z * bool :=
  let end_ := skip_prefix str prefix in
  (end_, negb (bool_decide (end_ = str)) || bool_decide (prefix = [])).

Section Ice.
Context `{Platform, Scan, Resolver}.

(** *** Priorities *)
Definition type_preference (t : ice_candidate_type) : Z :=
  match t with
  | ICE_CANDIDATE_TYPE_HOST => ICE_CANDIDATE_PREF_HOST
  | ICE_CANDIDATE_TYPE_PEER_REFLEXIVE => ICE_CANDIDATE_PREF_PEER_REFLEXIVE
  | ICE_CANDIDATE_TYPE_SERVER_REFLEXIVE => ICE_CANDIDATE_PREF_SERVER_REFLEXIVE
  | ICE_CANDIDATE_TYPE_RELAYED => ICE_CANDIDATE_PREF_RELAYED
  | ICE_CANDIDATE_TYPE_UNKNOWN => 0
  end.

Definition ice_compute_priority (t : ice_candidate_type) (family component index : Z) : Z :=
  let p := u32 (0 + type_preference t) in
  let p := u32 (Z.shiftl p 16) in
  let p := if family =? AF_INET then u32 (p + 32767)
           else if family =? AF_INET6 then u32 (p + 65535)
           else p in
  let p := u32 (p - CLAMP index 0 32767) in
  let p := u32 (Z.shiftl p 8) in
  u32 (p + (256 - CLAMP component 1 256)).

(** The pair, updated, and the returned value. *)
Definition ice_update_candidate_pair (pair : ice_candidate_pair) (is_controlling : bool) : ice_candidate_pair * Z :=
  let host c := ice_compute_priority ICE_CANDIDATE_TYPE_HOST (sa_family (addr (resolved c))) (component c) 0 in
  let update local_priority remote_priority :=
    let g := if is_controlling then local_priority else remote_priority in
    let d := if is_controlling then remote_priority else local_priority in
    let min := if g <? d then g else d in
    let max := if g >? d then g else d in
    pair <| pair_priority := u64 (u64 (u64 (Z.shiftl min 32) + u64 (Z.shiftl max 1)) + (if g >? d then 1 else 0)) |> in
  match local pair, remote pair with
  | None, None => (pair, 0)
  | Some l, Some r => (update (priority l) (priority r), 0)
  | Some l, None => (update (priority l) (host l), 0)
  | None, Some r => (update (host r) (priority r), 0)
  end.

(** The pair, when it is filled, and the returned value. *)
Definition ice_create_candidate_pair (l r : option ice_candidate) (is_controlling : bool)
    (pair : ice_candidate_pair) : ice_candidate_pair * Z :=
  let mismatch :=
    match l, r with
    | Some l, Some r => negb (sa_family (addr (resolved l)) =? sa_family (addr (resolved r)))
    | _, _ => false
    end in
  if mismatch then (pair, -1)
  else ice_update_candidate_pair
         (ice_candidate_pair_zero <| local := l |> <| remote := r |>
            <| pair_state := ICE_CANDIDATE_PAIR_STATE_FROZEN |>) is_controlling.

(** *** The candidates of a description *)

(** The candidate, whose foundation may be filled in, the description and the
    returned value. *)
Definition ice_add_candidate (candidate : ice_candidate) (description : ice_description)
    : ice_candidate * ice_description * Z :=
  if bool_decide (type candidate = ICE_CANDIDATE_TYPE_UNKNOWN) then (candidate, description, -1)
  else if ICE_MAX_CANDIDATES_COUNT <=? candidates_count description then (candidate, description, -1)
  else
    let candidate :=
      if bool_decide (foundation candidate = lit "-")
      then candidate <| foundation := take 31 (print_u (candidates_count description + 1)) |>
      else candidate in
    (candidate, description <| candidates ::= fun l => l ++ [candidate] |>, 0).

(** The inner loop of [ice_sort_candidates]: elements before [next] are moved
    up while their priority is smaller.  The array and the free place. *)
Fixpoint sort_shift (l : list ice_candidate) (p : Z) (next : nat) : option (list ice_candidate * nat) :=
  match next with
  | O => Some (l, O)
  | S prev =>
    let? c := l !! prev in
    if priority c <? p then sort_shift (<[next := c]> l) p prev else Some (l, next)
  end.

(** The outer loop, for [n] values of [cur]. *)
Fixpoint sort_loop (n : nat) (l : list ice_candidate) (cur : nat) : option (list ice_candidate) :=
  match n with
  | O => Some l
  | S n' =>
    let? tmp := l !! cur in
    let? (l, pos) := sort_shift l (priority tmp) cur in
    let l := if bool_decide (pos = cur) then l else <[pos := tmp]> l in
    sort_loop n' l (S cur)
  end.

Definition ice_sort_candidates (description : ice_description) : option ice_description :=
  let l := candidates description in
  let? l := sort_loop (length l - 1) l 1 in
  Some (description <| candidates := l |>).

(** The index of the candidate found. *)
Fixpoint find_from_addr (l : list ice_candidate) (record : addr_record) (t : ice_candidate_type) (i : nat) : option nat :=
  match l with
  | [] => None
  | cur :: l' =>
    if (bool_decide (t = ICE_CANDIDATE_TYPE_UNKNOWN) || bool_decide (type cur = t)) &&
       addr_is_equal (addr record) (addr (resolved cur)) true
    then Some i
    else find_from_addr l' record t (S i)
  end.

Definition ice_find_candidate_from_addr (description : ice_description) (record : addr_record)
    (t : ice_candidate_type) : option nat :=
  find_from_addr (candidates description) record t 0.

Definition ice_candidates_count (description : ice_description) (t : ice_candidate_type) : Z :=
  fold_left (fun count candidate => if bool_decide (type candidate = t) then count + 1 else count)
    (candidates description) 0.

(** *** Resolution *)
Fixpoint first_inet (ai : list addr_record) : option addr_record :=
  match ai with
  | [] => None
  | a :: ai' =>
    if (sa_family (addr a) =? AF_INET) || (sa_family (addr a) =? AF_INET6) then Some a else first_inet ai'
  end.

Definition ice_resolve_candidate (candidate : ice_candidate) (mode : ice_resolve_mode) : ice_candidate * Z :=
  let numeric := match mode with ICE_RESOLVE_MODE_LOOKUP => false | ICE_RESOLVE_MODE_SIMPLE => true end in
  match getaddrinfo numeric (hostname candidate) (service candidate) with
  | None => (candidate <| resolved ::= fun r => mkRecord (addr r) 0 |>, -1)
  | Some ai_list =>
    match first_inet ai_list with
    | Some ai => (candidate <| resolved := ai |>, 0)
    | None => (candidate, 0)
    end
  end.

Definition ice_create_local_candidate (t : ice_candidate_type) (comp index : Z) (record : addr_record)
    : ice_candidate * Z :=
  let candidate := ice_candidate_zero <| type := t |> <| component := comp |> <| resolved := record |>
                     <| foundation := lit "-" |> in
  let candidate := candidate <| priority :=
    ice_compute_priority t (sa_family (addr record)) comp index |> in
  match getnameinfo record with
  | Some (host, serv) => (candidate <| hostname := host |> <| service := serv |>, 0)
  | None => (candidate, -1)
  end.

(** *** Parsing *)
Definition candidate_format : list directive :=
  [Word 32; Space; Int; Space; Word 32; Space; Uint; Space; Word 256; Space; Word 32;
   Space; Literal (lit "typ"); Space; Word 32].

(** The characters of a conversion and their NUL, in an array of [n]. *)
Definition store_string (n : Z) (str : list Z) : option (list Z) :=
  if lenZ str + 1 <=? n then Some str else None.

(** What the conversions of [candidate_format] store, in order; the third and
    the last one fill the arrays [transport] and [type] of the function. *)
Definition store_field (c : ice_candidate) (i : nat) (v : scanned) : option ice_candidate :=
  match i, v with
  | 0%nat, Str s => let? s := store_string (32 + 1) s in Some (c <| foundation := s |>)
  | 1%nat, Num z => Some (c <| component := z |>)
  | 2%nat, Str s => let? _ := store_string (32 + 1) s in Some c
  | 3%nat, Num z => Some (c <| priority := z |>)
  | 4%nat, Str s => let? s := store_string (256 + 1) s in Some (c <| hostname := s |>)
  | 5%nat, Str s => let? s := store_string (32 + 1) s in Some (c <| service := s |>)
  | 6%nat, Str s => let? _ := store_string (32 + 1) s in Some c
  | _, _ => None
  end.

Fixpoint store_fields (c : ice_candidate) (i : nat) (vs : list scanned) : option ice_candidate :=
  match vs with
  | [] => Some c
  | v :: vs' => let? c := store_field c i v in store_fields c (S i) vs'
  end.

Definition scanned_str (vs : list scanned) (i : nat) : list Z :=
  match vs !! i with Some (Str s) => s | _ => [] end.

Definition parse_sdp_candidate (line : list Z) : option (ice_candidate * Z) :=
  let line := skip_prefix line (lit "a=") in
  let line := skip_prefix line (lit "candidate:") in
  let vs := sscanf line candidate_format in
  let? candidate := store_fields ice_candidate_zero 0 vs in
  if negb (length vs =? 7)%nat then Some (candidate, ICE_PARSE_ERROR)
  else
    let transport := map toupper (scanned_str vs 2) in
    let t := map tolower (scanned_str vs 6) in
    let parsed t' :=
      let candidate := candidate <| type := t' |> in
      if bool_decide (transport = lit "UDP") then Some (candidate, 0) else Some (candidate, ICE_PARSE_IGNORED) in
    if bool_decide (t = lit "host") then parsed ICE_CANDIDATE_TYPE_HOST
    else if bool_decide (t = lit "srflx") then parsed ICE_CANDIDATE_TYPE_SERVER_REFLEXIVE
    else if bool_decide (t = lit "relay") then parsed ICE_CANDIDATE_TYPE_RELAYED
    else Some (candidate, ICE_PARSE_IGNORED).

(** The candidate, when it is written to, and the returned value. *)
Definition ice_parse_candidate_sdp (line : list Z) (candidate : ice_candidate) : option (ice_candidate * Z) :=
  let '(_, matched) := match_prefix line (lit "a=candidate:") in
  if matched then
    let? (candidate, ret) := parse_sdp_candidate line in
    if ret <? 0 then Some (candidate, ret)
    else Some (fst (ice_resolve_candidate candidate ICE_RESOLVE_MODE_SIMPLE), 0)
  else Some (candidate, ICE_PARSE_ERROR).

(** ["%256s"] into a field that keeps its value when there is no word. *)
Definition scan_field (arg old : list Z) : option (list Z) :=
  match sscanf arg [Word 256] with
  | Str s :: _ => store_string (256 + 1) s
  | _ => Some old
  end.

Definition parse_sdp_line (line : list Z) (description : ice_description) : option (ice_description * Z) :=
  let '(arg, matched) := match_prefix line (lit "a=ice-ufrag:") in
  if matched then
    let? s := scan_field arg (ice_ufrag description) in Some (description <| ice_ufrag := s |>, 0) else
  let '(arg, matched) := match_prefix line (lit "a=ice-pwd:") in
  if matched then
    let? s := scan_field arg (ice_pwd description) in Some (description <| ice_pwd := s |>, 0) else
  let '(arg, matched) := match_prefix line (lit "a=ice-lite") in
  if matched then Some (description <| ice_lite := true |>, 0) else
  let '(arg, matched) := match_prefix line (lit "a=end-of-candidates") in
  if matched then Some (description <| finished := true |>, 0) else
  let? (candidate, ret) := ice_parse_candidate_sdp line ice_candidate_zero in
  if ret =? 0 then
    let '(_, description, _) := ice_add_candidate candidate description in Some (description, 0)
  else Some (description, ICE_PARSE_IGNORED).

(** The loop of [ice_parse_sdp] on the rest of the text, with the memory of
    [buffer] and [size]: a character or a NUL behind its end is [None]. *)
Fixpoint parse_sdp_loop (sdp buffer : list Z) (size : Z) (description : ice_description)
    : option (ice_description * Z) :=
  match sdp with
  | [] => Some (description, 0)
  | c :: sdp' =>
    if c =? 10 then
      if size =? 0 then parse_sdp_loop sdp' buffer size description
      else
        let? buffer := store size [0] buffer in
        let? (description, ret) := parse_sdp_line (cstr buffer) description in
        if ret =? ICE_PARSE_ERROR then Some (description, ICE_PARSE_ERROR)
        else parse_sdp_loop sdp' buffer 0 description
    else if negb (c =? 13) && (size + 1 <? BUFFER_SIZE) then
      let? buffer := store size [c] buffer in
      parse_sdp_loop sdp' buffer (size + 1) description
    else parse_sdp_loop sdp' buffer size description
  end.

(** [buffer] is the array of the function, of [BUFFER_SIZE] characters. *)
Definition ice_parse_sdp (buffer sdp : list Z) : option (ice_description * Z) :=
  let? (description, ret) := parse_sdp_loop sdp buffer 0 ice_description_zero in
  if ret =? ICE_PARSE_ERROR then Some (description, ret)
  else
    let? description := ice_sort_candidates description in
    if bool_decide (ice_ufrag description = []) then Some (description, ICE_PARSE_MISSING_UFRAG)
    else if bool_decide (ice_pwd description = []) then Some (description, ICE_PARSE_MISSING_PWD)
    else Some (description, 0).

(** *** Generation *)
Definition type_text (t : ice_candidate_type) : option (list Z * option (list Z)) :=
  match t with
  | ICE_CANDIDATE_TYPE_HOST => Some (lit "host", None)
  | ICE_CANDIDATE_TYPE_PEER_REFLEXIVE => Some (lit "prflx", None)
  | ICE_CANDIDATE_TYPE_SERVER_REFLEXIVE => Some (lit "srflx", Some (lit "raddr 0.0.0.0 rport 0"))
  | ICE_CANDIDATE_TYPE_RELAYED => Some (lit "relay", Some (lit "raddr 0.0.0.0 rport 0"))
  | ICE_CANDIDATE_TYPE_UNKNOWN => None
  end.

(** The formatted text of a candidate. *)
Definition candidate_text (candidate : ice_candidate) (t : list Z) (suffix : option (list Z)) : list Z :=
  lit "a=candidate:" ++ foundation candidate ++ lit " " ++ print_u (component candidate) ++ lit " UDP " ++
  print_u (priority candidate) ++ lit " " ++ hostname candidate ++ lit " " ++ service candidate ++
  lit " typ " ++ t ++ match suffix with Some s => lit " " ++ s | None => [] end.

(** The buffer and the returned value. *)
Definition ice_generate_candidate_sdp (candidate : ice_candidate) (buffer : list Z) (size : Z) : option (list Z * Z) :=
  match type_text (type candidate) with
  | None => Some (buffer, -1)
  | Some (t, suffix) => snprintf buffer 0 size (candidate_text candidate t suffix)
  end.

Definition crlf : list Z := [13; 10].

(** One line of the description at [begin]: the memory, [begin] and [len]. *)
Definition put_line (mem : list Z) (begin end_ len : Z) (text : list Z) : option (list Z * Z * Z) :=
  let? (mem, ret) := snprintf mem begin (end_ - begin) text in
  Some (mem,
        if begin <? end_ then begin + (if ret >=? end_ - begin then end_ - begin - 1 else ret) else begin,
        len + ret).

(** The rounds of [ice_generate_sdp] for the candidates. [tmp] is the scratch
    array, whose contents are indeterminate before the first round. *)
Fixpoint put_candidates (cs : list ice_candidate) (tmp mem : list Z) (begin end_ len : Z) : option (list Z * Z * Z) :=
  match cs with
  | [] => Some (mem, begin, len)
  | candidate :: cs' =>
    if bool_decide (type candidate = ICE_CANDIDATE_TYPE_UNKNOWN) ||
       bool_decide (type candidate = ICE_CANDIDATE_TYPE_PEER_REFLEXIVE)
    then put_candidates cs' tmp mem begin end_ len
    else
      let? (tmp', ret) := ice_generate_candidate_sdp candidate tmp BUFFER_SIZE in
      if ret <? 0 then put_candidates cs' tmp mem begin end_ len
      else
        let? (mem, begin, len) := put_line mem begin end_ len (cstr tmp' ++ crlf) in
        put_candidates cs' tmp mem begin end_ len
  end.

(** Round 0. *)
Definition put_description (d : ice_description) (mem : list Z) (begin end_ len : Z) : option (list Z * Z * Z) :=
  let? (mem, ret) := snprintf mem begin (end_ - begin)
    (lit "a=ice-ufrag:" ++ ice_ufrag d ++ crlf ++ lit "a=ice-pwd:" ++ ice_pwd d ++ crlf) in
  let? (mem, ret) :=
    if ice_lite d then snprintf mem begin (end_ - begin) (lit "a=ice-lite" ++ crlf) else Some (mem, ret) in
  Some (mem,
        if begin <? end_ then begin + (if ret >=? end_ - begin then end_ - begin - 1 else ret) else begin,
        len + ret).

Definition ice_generate_sdp (d : ice_description) (tmp mem : list Z) (buffer size : Z) : option (list Z * Z) :=
  if bool_decide (ice_ufrag d = []) || bool_decide (ice_pwd d = []) then Some (mem, -1)
  else
    let end_ := buffer + size in
    let? (mem, begin, len) := put_description d mem buffer end_ 0 in
    let? (mem, begin, len) := put_candidates (candidates d) tmp mem begin end_ len in
    let? (mem, begin, len) := put_line mem begin end_ len
      (if finished d then lit "a=end-of-candidates" ++ crlf ++ lit "a=ice-options:ice2" ++ crlf
       else lit "a=ice-options:ice2,trickle" ++ crlf) in
    Some (mem, len).

End Ice.

(** *** Local descriptions *)

(** random.c: one random byte for each character. *)
Definition juice_random_str64 (bytes : list Z) (size : Z) : list Z :=
  map (fun byte => tab64 (Z.land byte 0x3F)) (take (Z.to_nat (size - 1)) bytes).

(** The description for the random bytes drawn. *)
Definition ice_create_local_description (draws : list Z) : ice_description * Z :=
  (ice_description_zero <| ice_ufrag := juice_random_str64 draws (4 + 1) |>
     <| ice_pwd := juice_random_str64 (drop 4 draws) (22 + 1) |> <| ice_lite := false |>
     <| candidates := [] |> <| finished := false |>, 0).

Definition ice_is_valid_string (str : option (list Z)) : bool :=
  match str with
  | None => false
  | Some s => forallb (fun c => isalpha c || isdigit c || (c =? 43) || (c =? 47)) s
  end.
