(* ===== verification/IceSort.v ===== *)
(** * Candidates: their priorities and their order

    The priorities of candidates and pairs follow RFC 8445 without overflow; the
    candidates of a description are sorted by them, added and found. *)

From S2P Require Import Prelude CStdio Addr Ice.
From stdpp Require Import sorting list.
#[local] Open Scope Z_scope.

Lemma CLAMP_range x low high : low <= high -> low <= CLAMP x low high <= high.
Proof. intros. unfold CLAMP. rewrite Z.gtb_ltb. case_tests. Qed.

Lemma CLAMP_id x low high : low <= x <= high -> CLAMP x low high = x.
Proof. intros. unfold CLAMP. rewrite Z.gtb_ltb. case_tests. Qed.

(** Remove the wrap-arounds that cannot happen, the innermost first. *)
Ltac unwrap :=
  repeat match goal with |- context [wrap ?w ?z] =>
    lazymatch z with context [wrap _ _] => fail | _ => rewrite (wrap_small w z) by lia end
  end.

Section Priority.
Context `{Platform, Scan, Resolver}.

(** The part of the local preference that the family gives. *)
Definition family_preference (family : Z) : Z := if family =? AF_INET then 32767 else 65535.

(** Types of candidates an agent announces, families a candidate has. *)
Definition known_type (t : ice_candidate_type) : Prop := t <> ICE_CANDIDATE_TYPE_UNKNOWN.
Definition known_family (family : Z) : Prop := family = AF_INET \/ family = AF_INET6.

(** RFC 8445, section 5.1.2.1. *)
Definition rfc_priority (type_pref local_pref component : Z) : Z :=
  2 ^ 24 * type_pref + 2 ^ 8 * local_pref + (256 - component).

(** RFC 8445, section 6.1.2.3, for the controlling agent's [g] and the
    controlled agent's [d]. *)
Definition rfc_pair_priority (g d : Z) : Z :=
  2 ^ 32 * Z.min g d + 2 * Z.max g d + (if g >? d then 1 else 0).

Lemma type_preference_range t : 0 <= type_preference t <= 126.
Proof. destruct t; vm_compute; split; discriminate. Qed.

Lemma type_preference_inj t t' :
  known_type t -> known_type t' -> type_preference t = type_preference t' -> t = t'.
Proof. destruct t, t'; try done; intros ?? [=]; done. Qed.

Lemma compute_priority t family component index : known_family family ->
  ice_compute_priority t family component index =
  rfc_priority (type_preference t) (family_preference family - CLAMP index 0 32767) (CLAMP component 1 256).
Proof.
  intros Hf. unfold ice_compute_priority, rfc_priority, family_preference.
  pose proof (type_preference_range t). pose proof (CLAMP_range index 0 32767 ltac:(lia)).
  pose proof (CLAMP_range component 1 256 ltac:(lia)).
  generalize dependent (CLAMP component 1 256). generalize dependent (CLAMP index 0 32767).
  generalize dependent (type_preference t). intros tp Htp i Hi c Hc.
  cbv zeta. rewrite !Z.shiftl_mul_pow2 by lia.
  pose proof AF_distinct as Hd. destruct Hf as [-> | ->].
  - rewrite Z.eqb_refl. unwrap. lia.
  - replace (AF_INET6 =? AF_INET) with false by (symmetry; apply Z.eqb_neq; congruence).
    rewrite Z.eqb_refl. unwrap. lia.
Qed.

Lemma family_preference_range family index :
  0 <= family_preference family - CLAMP index 0 32767 <= 65535.
Proof.
  pose proof (CLAMP_range index 0 32767 ltac:(lia)). unfold family_preference. case_test; lia.
Qed.

Lemma compute_priority_range t family component index : known_family family ->
  0 <= ice_compute_priority t family component index < 2 ^ 31.
Proof.
  intros Hf. rewrite compute_priority by done. unfold rfc_priority.
  pose proof (type_preference_range t). pose proof (family_preference_range family index).
  pose proof (CLAMP_range component 1 256 ltac:(lia)). lia.
Qed.

(** The priority of a candidate with an Internet address is the formula of
    RFC 8445, computed without wrapping for every index and component, and
    fits the 31 bits the RFC allows. *)
Theorem ice_compute_priority_rfc t family component index :
  known_family family ->
  ice_compute_priority t family component index =
    rfc_priority (type_preference t) (family_preference family - CLAMP index 0 32767) (CLAMP component 1 256) /\
  0 <= ice_compute_priority t family component index < 2 ^ 31.
Proof. intros Hf. split; [by apply compute_priority|by apply compute_priority_range]. Qed.

(** candidates that differ in type, address family, index or component have
    different priorities, and a candidate of a preferred type is above every
    candidate of another type, whatever their families, indices and components. *)
Theorem ice_compute_priority_order t family component index t' family' component' index' :
  known_type t -> known_type t' -> known_family family -> known_family family' ->
  0 <= index <= 32767 -> 0 <= index' <= 32767 -> 1 <= component <= 256 -> 1 <= component' <= 256 ->
  (ice_compute_priority t family component index = ice_compute_priority t' family' component' index' ->
   t = t' /\ family = family' /\ component = component' /\ index = index') /\
  (type_preference t' < type_preference t ->
   ice_compute_priority t' family' component' index' < ice_compute_priority t family component index).
Proof.
  intros Ht Ht' Hf Hf' Hi Hi' Hc Hc'. rewrite !compute_priority by done.
  rewrite !CLAMP_id by lia. unfold rfc_priority, family_preference.
  pose proof AF_distinct as Hd. split.
  - intros Heq. assert (type_preference t = type_preference t') as Htp.
    { revert Heq. repeat case_test; lia. }
    rewrite Htp in Heq. split; [by apply type_preference_inj|].
    destruct Hf as [-> | ->], Hf' as [-> | ->]; revert Heq; repeat case_test; zify_bool; intros;
      split_and?; congruence || lia.
  - intros Hlt. repeat case_test; lia.
Qed.

(** The priorities of the two ends, that of a missing end computed for a host
    candidate in the family of the other. *)
Definition end_priority (c other : option ice_candidate) : Z :=
  match c, other with
  | Some c, _ => priority c
  | None, Some o => ice_compute_priority ICE_CANDIDATE_TYPE_HOST (sa_family (addr (resolved o))) (component o) 0
  | None, None => 0
  end.

Lemma pair_formula g d :
  0 <= g < 2 ^ 32 -> 0 <= d < 2 ^ 32 -> Z.min g d < 2 ^ 31 ->
  let min := if g <? d then g else d in
  let max := if g >? d then g else d in
  u64 (u64 (u64 (Z.shiftl min 32) + u64 (Z.shiftl max 1)) + (if g >? d then 1 else 0)) = rfc_pair_priority g d.
Proof.
  intros Hg Hd Hm. cbv zeta. unfold rfc_pair_priority. rewrite !Z.shiftl_mul_pow2 by lia.
  rewrite Z.gtb_ltb. destruct (g <? d) eqn:E1, (d <? g) eqn:E2; zify_bool; try lia.
  all: unwrap; lia.
Qed.

Lemma update_pair pair is_controlling :
  is_Some (local pair) \/ is_Some (remote pair) ->
  let l := end_priority (local pair) (remote pair) in
  let r := end_priority (remote pair) (local pair) in
  0 <= l < 2 ^ 32 -> 0 <= r < 2 ^ 32 -> Z.min l r < 2 ^ 31 ->
  ice_update_candidate_pair pair is_controlling =
  (pair <| pair_priority := if is_controlling then rfc_pair_priority l r else rfc_pair_priority r l |>, 0).
Proof.
  destruct pair as [[l|] [r|] ?????]; cbn [Ice.local Ice.remote end_priority]; intros Hs; cbv zeta;
    intros Hl Hr Hm; try (destruct Hs as [[? [=]] | [? [=]]]).
  all: unfold ice_update_candidate_pair; cbn [Ice.local Ice.remote]; f_equal; unfold upd, updater; f_equal.
  all: destruct is_controlling; apply pair_formula; try done; by rewrite Z.min_comm.
Qed.

(** the priority of a pair is the 64-bit formula of RFC 8445, without
    wrapping whatever 32-bit priority the peer announced, as long as the own
    candidate has a 31-bit priority; and the two agents, one controlling and one
    controlled, each seeing its own candidate as the local one, agree on it. *)
Theorem ice_pair_priority_agreed (mine theirs : ice_candidate) (pair pair' : ice_candidate_pair) :
  sa_family (addr (resolved mine)) = sa_family (addr (resolved theirs)) ->
  0 <= priority mine < 2 ^ 31 -> 0 <= priority theirs < 2 ^ 32 ->
  exists p p', ice_create_candidate_pair (Some mine) (Some theirs) true pair = (p, 0) /\
    ice_create_candidate_pair (Some theirs) (Some mine) false pair' = (p', 0) /\
    pair_priority p = rfc_pair_priority (priority mine) (priority theirs) /\
    pair_priority p' = pair_priority p /\
    0 <= pair_priority p < 2 ^ 64 /\
    pair_state p = ICE_CANDIDATE_PAIR_STATE_FROZEN /\ nominated p = false.
Proof.
  intros Hf Hm Ht. unfold ice_create_candidate_pair. rewrite Hf, Z.eqb_refl. cbn [negb].
  rewrite !update_pair; cbn [Ice.local Ice.remote end_priority upd updater]; try (eauto; lia).
  eexists _, _. split; [reflexivity|]. split; [reflexivity|]. cbn. split_and!; try done.
  all: unfold rfc_pair_priority; rewrite Z.gtb_ltb; case_test; zify_bool; lia.
Qed.

(** A pair with only one end takes for the other the priority of a host
    candidate in the same family and component; no pair of known families
    wraps, and a mismatch of families is refused with the pair unchanged. *)
Theorem ice_create_candidate_pair_spec l r is_controlling pair :
  (forall c, l = Some c \/ r = Some c ->
    0 <= priority c < 2 ^ 31 /\ known_family (sa_family (addr (resolved c)))) ->
  ice_create_candidate_pair l r is_controlling pair =
  match l, r with
  | None, None => (ice_candidate_pair_zero <| pair_state := ICE_CANDIDATE_PAIR_STATE_FROZEN |>, 0)
  | _, _ =>
    if match l, r with
       | Some a, Some b => bool_decide (sa_family (addr (resolved a)) <> sa_family (addr (resolved b)))
       | _, _ => false
       end
    then (pair, -1)
    else
      let g := if is_controlling then end_priority l r else end_priority r l in
      let d := if is_controlling then end_priority r l else end_priority l r in
      (mkPair l r (rfc_pair_priority g d) ICE_CANDIDATE_PAIR_STATE_FROZEN false false 0, 0)
  end.
Proof.
  intros Hc. assert (Hend : forall a b, (a = l /\ b = r) \/ (a = r /\ b = l) ->
    is_Some a \/ is_Some b -> 0 <= end_priority a b < 2 ^ 31).
  { intros a b Hab Hs. destruct a as [a|], b as [b|]; cbn [end_priority].
    1,2: destruct (Hc a) as [? _]; [destruct Hab as [[? ?]|[? ?]]; subst; auto|lia].
    - destruct (Hc b) as [_ ?]; [destruct Hab as [[? ?]|[? ?]]; subst; auto|by apply compute_priority_range].
    - by destruct Hs as [[? [=]] | [? [=]]]. }
  destruct l as [l|], r as [r|]; [ | | |done].
  2,3: unfold ice_create_candidate_pair.
  1: { unfold ice_create_candidate_pair. case_bool_decide as Hd; simpl negb.
       - by rewrite (proj2 (Z.eqb_neq _ _) Hd).
       - rewrite (proj2 (Z.eqb_eq _ _)) by exact Hd. cbn [negb].
         pose proof (Hend (Some l) (Some r) ltac:(auto) ltac:(eauto)).
         pose proof (Hend (Some r) (Some l) ltac:(auto) ltac:(eauto)).
         rewrite update_pair; cbn [Ice.local Ice.remote upd updater]; [|eauto|lia..].
         by destruct is_controlling. }
  all: match goal with |- context [ice_update_candidate_pair ?p] =>
    pose proof (Hend (Ice.local p) (Ice.remote p) ltac:(simpl; auto) ltac:(simpl; eauto));
    pose proof (Hend (Ice.remote p) (Ice.local p) ltac:(simpl; auto) ltac:(simpl; eauto)) end.
  all: rewrite update_pair; cbn [Ice.local Ice.remote upd updater] in *; [|eauto|lia..].
  all: by destruct is_controlling.
Qed.

End Priority.

(** In order of decreasing priority. *)
Definition above (a b : ice_candidate) : Prop := priority b <= priority a.
Abbreviation by_priority := (StronglySorted above).

(** The candidates of priority [p], in order. *)
Definition of_priority (p : Z) (l : list ice_candidate) : list ice_candidate :=
  filter (fun c => priority c = p) l.

(** A stable sort: the same candidates by decreasing priority, those of equal
    priority in the order they had. *)
Definition stable_sort_of (l l' : list ice_candidate) : Prop :=
  l' ≡ₚ l /\ by_priority l' /\ forall p, of_priority p l' = of_priority p l.

Lemma of_priority_cons p c l :
  of_priority p (c :: l) = if decide (priority c = p) then c :: of_priority p l else of_priority p l.
Proof. unfold of_priority. by rewrite filter_cons. Qed.

Lemma of_priority_app p l k : of_priority p (l ++ k) = of_priority p l ++ of_priority p k.
Proof. apply filter_app. Qed.

Lemma of_priority_none p l : Forall (fun c => priority c < p) l -> of_priority p l = [].
Proof.
  induction 1 as [|c l Hc Hl IH]; [done|]. rewrite of_priority_cons, decide_False by lia. done.
Qed.

(** ** The inner loop *)
Lemma sort_shift_spec p s y t :
  exists a b z, s = a ++ b /\ Forall (fun c => priority c < p) b /\
    (forall c, last a = Some c -> p <= priority c) /\
    sort_shift (s ++ y :: t) p (length s) = Some (a ++ z :: b ++ t, length a) /\
    (b = [] -> z = y).
Proof.
  revert y t. induction s as [|c s IH] using rev_ind; intros y t.
  - exists [], [], y. cbn. split_and!; auto; discriminate.
  - rewrite length_app, Nat.add_1_r. cbn [sort_shift].
    rewrite <- app_assoc. cbn [app]. rewrite list_lookup_middle by done.
    case_test; zify_bool.
    + replace (<[S (length s) := c]> (s ++ c :: y :: t)) with (s ++ c :: c :: t).
      2: { rewrite insert_app_r_alt by lia. by replace (S (length s) - length s)%nat with 1%nat by lia. }
      destruct (IH c (c :: t)) as (a & b & z & -> & Hb & Ha & -> & _).
      exists a, (b ++ [c]), z. rewrite <- !app_assoc. cbn [app]. split_and!; auto.
      * by apply Forall_app_2, Forall_cons_2.
      * by destruct b.
    + exists (s ++ [c]), [], y. rewrite app_nil_r, <- app_assoc, length_app, Nat.add_1_r. split_and!; auto.
      intros c'. rewrite last_snoc. intros [= <-]. lia.
Qed.

Lemma by_priority_last a (c : ice_candidate) p :
  by_priority a -> (forall c, last a = Some c -> p <= priority c) -> Forall (fun c => p <= priority c) a.
Proof.
  intros Hs Hl. destruct a as [|x a _] using rev_ind; [constructor|].
  rewrite last_snoc in Hl. specialize (Hl _ eq_refl). apply Forall_app_2; [|by repeat constructor].
  apply list.Forall_forall. intros d Hd.
  pose proof (StronglySorted_app_1_elem_of _ _ _ d x Hs Hd (proj2 (list_elem_of_singleton _ _) eq_refl)) as Hx. unfold above in Hx. lia.
Qed.

(** ** One round of the outer loop *)
Lemma sort_round s x t :
  by_priority s ->
  exists s', by_priority s' /\ s' ≡ₚ s ++ [x] /\ (forall p, of_priority p s' = of_priority p (s ++ [x])) /\
    forall n, sort_loop (S n) (s ++ x :: t) (length s) = sort_loop n (s' ++ t) (S (length s)).
Proof.
  intros Hs. destruct (sort_shift_spec (priority x) s x t) as (a & b & z & -> & Hb & Ha & Hsh & Hz).
  pose proof Hs as Hs0. apply StronglySorted_app in Hs0 as (Hab & Hsa & Hsb).
  apply by_priority_last in Ha; [|done..].
  exists (a ++ x :: b). split_and!.
  - apply StronglySorted_app_2; [|done|].
    + intros c d Hc Hd. apply elem_of_cons in Hd as [->|Hd]; [|by apply Hab].
      unfold above. rewrite list.Forall_forall in Ha. auto.
    + apply StronglySorted_cons. split; [|done]. apply (list.Forall_impl _ _ _ Hb).
      intros c Hc. unfold above. lia.
  - by rewrite <- app_assoc, <- Permutation_middle, Permutation_cons_append, <- app_assoc.
  - intros p. rewrite !of_priority_app, <- app_assoc, of_priority_cons, (of_priority_cons p x []). f_equal.
    destruct (decide (priority x = p)) as [<-|Hp]; [|by rewrite app_nil_r].
    by rewrite (of_priority_none _ b).
  - intros n. cbn [sort_loop]. rewrite list_lookup_middle by done. rewrite Hsh.
    case_bool_decide as Hp.
    + rewrite length_app in Hp. destruct b as [|? b]; [|cbn in Hp; lia]. rewrite Hz by done.
      cbn [app]. by rewrite <- app_assoc.
    + rewrite insert_app_r_alt by lia. rewrite Nat.sub_diag. cbn [insert list_insert].
      by rewrite <- app_assoc.
Qed.

Lemma sort_loop_spec t s :
  by_priority s ->
  exists l, sort_loop (length t) (s ++ t) (length s) = Some l /\ stable_sort_of (s ++ t) l.
Proof.
  revert s. induction t as [|x t IH]; intros s Hs.
  - exists s. cbn. rewrite app_nil_r. split; [done|]. by split.
  - destruct (sort_round s x t Hs) as (s' & Hs' & Hp & Hf & Hl). cbn [length]. rewrite Hl.
    assert (length s' = S (length s)) as <- by (rewrite Hp, length_app; simpl; lia).
    destruct (IH s' Hs') as (l & -> & H1 & H2 & H3). exists l. split; [done|]. split_and!; [|done|].
    + by rewrite H1, Hp, <- app_assoc.
    + intros p. rewrite H3. by rewrite of_priority_app, Hf, <- of_priority_app, <- app_assoc.
Qed.

Lemma sort_candidates_spec d :
  exists l, ice_sort_candidates d = Some (d <| candidates := l |>) /\ stable_sort_of (candidates d) l.
Proof.
  unfold ice_sort_candidates. destruct (candidates d) as [|x t].
  - exists []. split; [done|]. split_and!; [done|constructor|done].
  - cbn [length]. rewrite Nat.sub_succ, Nat.sub_0_r.
    destruct (sort_loop_spec t [x]) as (l & Hl & Hs); [by repeat constructor|].
    cbn [app length] in Hl. rewrite Hl. by exists l.
Qed.

(** ** A stable sort is determined by its input *)
Lemma by_priority_unique l l' :
  by_priority l -> by_priority l' -> (forall p, of_priority p l = of_priority p l') -> l = l'.
Proof.
  revert l'. induction l as [|c l IH]; intros [|c' l'] Hl Hl' Hf; [done| | |].
  - specialize (Hf (priority c')). rewrite of_priority_cons in Hf. by rewrite decide_True in Hf.
  - specialize (Hf (priority c)). rewrite of_priority_cons in Hf. by rewrite decide_True in Hf.
  - apply StronglySorted_cons in Hl as [Hc Hl]. apply StronglySorted_cons in Hl' as [Hc' Hl'].
    assert (Hin : forall a m b k, a :: of_priority (priority a) m = of_priority (priority a) (b :: k) ->
      a ∈ b :: k).
    { intros a m b k E. unfold of_priority in E.
      assert (a ∈ filter (fun c => priority c = priority a) (b :: k)) as Hi by (rewrite <- E; apply list_elem_of_here).
      apply list_elem_of_filter in Hi as [_ Hi]. exact Hi. }
    assert (priority c = priority c') as Hp.
    { rewrite list.Forall_forall in Hc, Hc'. unfold above in *. apply Z.le_antisymm.
      - pose proof (Hf (priority c)) as E. rewrite of_priority_cons, decide_True in E by done.
        apply Hin in E. apply elem_of_cons in E as [-> | E]; [lia|]. specialize (Hc' _ E). lia.
      - pose proof (Hf (priority c')) as E. symmetry in E.
        rewrite of_priority_cons, decide_True in E by done.
        apply Hin in E. apply elem_of_cons in E as [-> | E]; [lia|]. specialize (Hc _ E). lia. }
    pose proof (Hf (priority c)) as E. rewrite !of_priority_cons, !decide_True in E by done.
    injection E as <- _. f_equal. apply IH; [done..|]. intros p. specialize (Hf p).
    rewrite !of_priority_cons in Hf. by destruct (decide (priority c = p)); [injection Hf|].
Qed.

(** the in-place insertion sort stays inside the array and leaves the
    stable sort of the candidates by decreasing priority; that list is the only
    one that is such a sort, and the other fields keep their values. *)
Theorem ice_sort_candidates_stable d :
  exists l, ice_sort_candidates d = Some (d <| candidates := l |>) /\
    forall l', stable_sort_of (candidates d) l' <-> l' = l.
Proof.
  destruct (sort_candidates_spec d) as (l & Hl & Hp & Hs & Hf). exists l. split; [done|].
  intros l'. split; [|intros ->; done].
  intros (_ & Hs' & Hf'). apply by_priority_unique; [done..|]. intros p. by rewrite Hf, Hf'.
Qed.

Section Find.
Context `{Platform}.

Definition candidate_matches (record : addr_record) (t : ice_candidate_type) (c : ice_candidate) : Prop :=
  (t = ICE_CANDIDATE_TYPE_UNKNOWN \/ type c = t) /\ addr_is_equal (addr record) (addr (resolved c)) true = true.

#[export] Instance candidate_matches_dec record t c : Decision (candidate_matches record t c).
Proof. unfold candidate_matches. apply _. Defined.

Lemma find_from_addr_spec l record t i :
  find_from_addr l record t i = (fun p => (i + p.1)%nat) <$> list_find (candidate_matches record t) l.
Proof.
  revert i. induction l as [|c l IH]; intros i; cbn [find_from_addr list_find]; [done|].
  unfold candidate_matches at 1. destruct (decide _) as [[Ht Ha]|Hn].
  - rewrite Ha. cbn [fmap option_fmap option_map fst]. rewrite Nat.add_0_r, andb_true_r.
    destruct Ht as [-> | Ht]; [done|]. rewrite (bool_decide_true (type c = t)), orb_true_r by done. done.
  - destruct (_ && _) eqn:E.
    + exfalso. apply Hn. apply andb_true_iff in E as [E ->]. apply orb_true_iff in E as [E|E];
        apply bool_decide_eq_true in E; auto.
    + rewrite IH. destruct (list_find _ l) as [[j x]|]; cbn; [|done]. f_equal. lia.
Qed.

Lemma fold_count l t n :
  fold_left (fun count candidate => if bool_decide (type candidate = t) then count + 1 else count) l n =
  n + lenZ (filter (fun c => type c = t) l).
Proof.
  revert n. induction l as [|c l IH]; intros n; cbn [fold_left].
  - change (lenZ (filter _ _)) with 0. lia.
  - rewrite IH, filter_cons. case_bool_decide; [rewrite decide_True by done|rewrite decide_False by done];
      rewrite ?lenZ_cons; lia.
Qed.

(** The search returns the first candidate of the given type, or of any
    type for the unknown one, whose address and port are those of the record,
    and nothing exactly when there is none; the count is that of the type. *)
Theorem ice_find_candidate_spec d record t :
  match ice_find_candidate_from_addr d record t with
  | Some i => exists c, candidates d !! i = Some c /\ candidate_matches record t c /\
      forall j c', (j < i)%nat -> candidates d !! j = Some c' -> ~ candidate_matches record t c'
  | None => Forall (fun c => ~ candidate_matches record t c) (candidates d)
  end /\
  ice_candidates_count d t = lenZ (filter (fun c => type c = t) (candidates d)).
Proof.
  split; [|apply fold_count].
  unfold ice_find_candidate_from_addr. rewrite find_from_addr_spec.
  destruct (list_find _ _) as [[i c]|] eqn:E; cbn.
  - apply list_find_Some in E as (Hi & Hm & Hj). exists c. split_and!; auto.
    intros j c' Hlt Hc'. by apply (Hj j c').
  - by apply list_find_None in E.
Qed.

End Find.
