(* ===== verification/IceWf.v ===== *)
(** * Well-formed descriptions: what parsing and adding candidates keep *)

From Stdlib Require Import Strings.String.
From S2P Require Import Prelude Base64 CStdio Addr Ice IceSort.

(** A C string in an array with room for [n] characters. *)
Definition cstring (n : Z) (s : list Z) : Prop := lenZ s <= n /\ Forall (fun c => c <> 0) s.

Lemma cstring_nil n : 0 <= n -> cstring n [].
Proof. intros. split; [rewrite lenZ_nil; lia|constructor]. Qed.

Lemma print_u_cstring z : cstring 32 (print_u z).
Proof.
  split.
  - destruct (print_u_length z). unfold lenZ. lia.
  - apply (list.Forall_impl _ _ _ (print_u_digits z)). by intros x Hx ->.
Qed.

(** A candidate that a description may hold. *)
Record candidate_ok (c : ice_candidate) : Prop := {
  ok_type : type c <> ICE_CANDIDATE_TYPE_UNKNOWN;
  ok_priority : 0 <= priority c < 2 ^ 32;
  ok_component : - 2 ^ 31 <= component c < 2 ^ 31;
  ok_foundation : cstring 32 (foundation c);
  ok_transport : cstring 32 (transport c);
  ok_hostname : cstring 256 (hostname c);
  ok_service : cstring 32 (service c)
}.

Record description_ok (d : ice_description) : Prop := {
  ok_ufrag : cstring 256 (ice_ufrag d);
  ok_pwd : cstring 256 (ice_pwd d);
  ok_count : 0 <= candidates_count d <= ICE_MAX_CANDIDATES_COUNT;
  ok_candidates : Forall candidate_ok (candidates d)
}.

(** ** What the conversions of [sscanf] store *)
Definition fits (f : directive) (v : scanned) : Prop :=
  match f, v with
  | Word width, Str s => cstring width s
  | Int, Num z => - 2 ^ 31 <= z < 2 ^ 31
  | Uint, Num z => 0 <= z < 2 ^ 32
  | _, _ => False
  end.

Definition is_conversion (f : directive) : bool :=
  match f with Word _ | Int | Uint => true | Space | Literal _ => false end.

Abbreviation nul_free := (Forall (fun c : Z => c <> 0)).

Lemma span_nul_free f s : nul_free s -> nul_free (fst (span f s)) /\ nul_free (snd (span f s)).
Proof. intros Hs. rewrite <- (span_app f s) in Hs. by apply list.Forall_app in Hs. Qed.

Lemma scan_word_fits width s w rest :
  0 <= width -> nul_free s -> scan_word width s = Some (w, rest) -> cstring width w /\ nul_free rest.
Proof.
  unfold scan_word. intros Hw Hs.
  destruct (span_nul_free (fun c => negb (isspace c)) s Hs) as [H1 H2].
  destruct (span _ s) as [w' r]. cbn [fst snd] in *. intros Hsome.
  assert (w = take (Z.to_nat width) w' /\ rest = drop (Z.to_nat width) w' ++ r) as [-> ->]
    by (destruct w'; [done|by injection Hsome as <- <-]).
  repeat split.
  - unfold lenZ. rewrite length_take. lia.
  - by apply Forall_take.
  - apply Forall_app_2; [by apply Forall_drop|done].
Qed.

Lemma skip_spaces_nul_free s : nul_free s -> nul_free (skip_spaces s).
Proof. apply span_nul_free. Qed.

Lemma scan_number_nul_free s z rest : nul_free s -> scan_number s = Some (z, rest) -> nul_free rest.
Proof.
  unfold scan_number. intros Hs.
  destruct (match s with [] => _ | _ => _ end) as [sign s'] eqn:E.
  assert (nul_free s') as Hs'.
  { destruct s as [|c s]; [by simplify_eq|]. apply Forall_cons_1 in Hs as [Hc Hs].
    repeat case_match; simplify_eq; auto. }
  destruct (span_nul_free isdigit s' Hs') as [H1 H2]. destruct (span isdigit s') as [[|d ds] r]; [done|].
  by intros [= _ <-].
Qed.

Section Wf.
Context `{Platform, Scan, Resolver}.

Lemma stored_int_range z : - 2 ^ 31 <= stored_int z < 2 ^ 31.
Proof. unfold stored_int. case_test; zify_bool; [lia|apply int_overflow_range]. Qed.

Lemma stored_uint_range z : 0 <= stored_uint z < 2 ^ 32.
Proof. unfold stored_uint. case_test; zify_bool; [by apply wrap_range|apply uint_overflow_range]. Qed.

Lemma sscanf_fits fs s :
  Forall (fun f => forall n, f = Word n -> 0 <= n) fs -> nul_free s ->
  exists k, Forall2 fits (take k (filter is_conversion fs)) (sscanf s fs).
Proof.
  intros Hf. revert s. induction Hf as [|f fs Hf Hfs IH]; intros s Hs; [by exists 0%nat; constructor|].
  pose proof (skip_spaces_nul_free s Hs) as Hk.
  destruct f; cbn [sscanf filter list_filter]; rewrite ?filter_cons; cbn [is_conversion].
  - rewrite decide_False by auto. auto.
  - rewrite decide_False by auto. destruct (strip s0 s) as [r|] eqn:E; [|by exists 0%nat; constructor].
    apply strip_Some in E as ->. apply list.Forall_app in Hs as [_ Hr]. auto.
  - rewrite decide_True by done. destruct (scan_word _ _) as [[w r]|] eqn:E; [|by exists 0%nat; constructor].
    apply scan_word_fits in E as [Hw Hr]; [|by apply Hf|done]. destruct (IH r Hr) as [k ?].
    exists (S k). by constructor.
  - rewrite decide_True by done. destruct (scan_number _) as [[z r]|] eqn:E; [|by exists 0%nat; constructor].
    apply scan_number_nul_free in E; [|done]. destruct (IH r E) as [k ?].
    exists (S k). constructor; [apply stored_int_range|done].
  - rewrite decide_True by done. destruct (scan_number _) as [[z r]|] eqn:E; [|by exists 0%nat; constructor].
    apply scan_number_nul_free in E; [|done]. destruct (IH r E) as [k ?].
    exists (S k). constructor; [apply stored_uint_range|done].
Qed.

(** ** Candidates *)
Lemma skip_prefix_nul_free s p : nul_free s -> nul_free (skip_prefix s p).
Proof.
  unfold skip_prefix. intros Hs. destruct (strip p s) as [r|] eqn:E; [|done].
  apply strip_Some in E as ->. by apply list.Forall_app in Hs as [_ ?].
Qed.

Lemma store_string_fits n s : cstring n s -> store_string (n + 1) s = Some s.
Proof. intros [Hs _]. unfold store_string. by rewrite (proj2 (Z.leb_le _ _)) by lia. Qed.

Definition conversions : list directive := filter is_conversion candidate_format.

(** A conversion stays in the array it fills. *)
Lemma store_field_fits c i f v : conversions !! i = Some f -> fits f v ->
  exists c', store_field c i v = Some c' /\ resolved c' = resolved c.
Proof.
  change conversions with [Word 32; Int; Word 32; Uint; Word 256; Word 32; Word 32]. intros Hi Hv.
  do 7 (destruct i as [|i]; [injection Hi as <-; destruct v; try done; cbn [fits] in Hv; cbn [store_field];
    try (rewrite (store_string_fits _ _ Hv)); by eexists|]). done.
Qed.

Lemma store_fields_fit k vs c i : Forall2 fits (take k (drop i conversions)) vs ->
  exists c', store_fields c i vs = Some c' /\ resolved c' = resolved c.
Proof.
  revert k c i. induction vs as [|v vs IH]; intros k c i Hf; cbn [store_fields]; [by eexists|].
  destruct k as [|k]; [inversion Hf|]. destruct (conversions !! i) as [f|] eqn:Ei.
  - rewrite (drop_S _ _ _ Ei) in Hf. cbn [take] in Hf. apply list.Forall2_cons in Hf as [Hv Hvs].
    destruct (store_field_fits c i f v Ei Hv) as (c1 & -> & Hr). destruct (IH k c1 (S i) Hvs) as (c' & -> & Hr').
    exists c'. by rewrite Hr'.
  - apply lookup_ge_None in Ei. rewrite drop_ge, take_nil in Hf by done. inversion Hf.
Qed.

(** The conversions of a candidate line. *)
Lemma candidate_scan line : nul_free line -> exists k, Forall2 fits (take k conversions) (sscanf line candidate_format).
Proof.
  intros Hl. apply sscanf_fits; [|done]. apply list.Forall_forall. intros f Hf n ->. revert Hf. unfold candidate_format.
  rewrite !elem_of_cons, elem_of_nil. intros Hf. repeat destruct Hf as [[= ->]|Hf]; lia || done.
Qed.

Lemma parse_sdp_candidate_cases line : nul_free line ->
  exists c ret, parse_sdp_candidate line = Some (c, ret) /\ resolved c = addr_record_zero /\
  ((ret = 0 /\ candidate_ok c) \/ ret = ICE_PARSE_ERROR \/ ret = ICE_PARSE_IGNORED).
Proof.
  intros Hl. unfold parse_sdp_candidate. cbv zeta.
  set (l := skip_prefix (skip_prefix line _) _).
  assert (nul_free l) as Hn by (by apply skip_prefix_nul_free, skip_prefix_nul_free).
  destruct (candidate_scan l Hn) as [k Hk].
  destruct (store_fields_fit k _ ice_candidate_zero 0 Hk) as (c & Ec & Hr). rewrite Ec.
  destruct (negb _) eqn:El; [eauto 10|]. zify_bool. apply Nat.eqb_eq in El.
  pose proof (Forall2_length Hk) as Hlen. rewrite El in Hlen.
  change conversions with [Word 32; Int; Word 32; Uint; Word 256; Word 32; Word 32] in Hk, Hlen.
  rewrite length_take in Hlen. rewrite take_ge in Hk by (cbn [length] in *; lia).
  destruct (sscanf l candidate_format) as [|[s1|] [|[|z1] [|[s2|] [|[|z2] [|[s3|] [|[s4|] [|[s5|] [|]]]]]]]];
    try discriminate; repeat (apply list.Forall2_cons in Hk as [? Hk]); cbn [fits] in *; try done.
  cbn [store_fields store_field scanned_str lookup list_lookup] in *.
  rewrite !store_string_fits in Ec by done. injection Ec as <-. cbn [upd updater] in *.
  repeat case_bool_decide; eexists _, _; (split; [reflexivity|]); (split; [done|]); auto; left;
    (split; [done|]); (split; [done| cbn; try done ..]); by apply cstring_nil.
Qed.

Lemma resolve_candidate_ok c mode : candidate_ok c -> candidate_ok (fst (ice_resolve_candidate c mode)).
Proof.
  intros [? ? ? ? ? ? ?]. unfold ice_resolve_candidate. repeat case_match; by split.
Qed.

Lemma parse_candidate_cases line c0 : nul_free line ->
  exists c ret, ice_parse_candidate_sdp line c0 = Some (c, ret) /\
  ((ret = 0 /\ candidate_ok c) \/ ret = ICE_PARSE_ERROR \/ ret = ICE_PARSE_IGNORED).
Proof.
  intros Hl. unfold ice_parse_candidate_sdp. destruct (match_prefix line _) as [arg []]; [|by eauto 10].
  destruct (parse_sdp_candidate_cases line Hl) as (c & ret & -> & _ & Hc).
  destruct Hc as [[-> Hc]|[-> | ->]]; cbn [Z.ltb Z.compare ICE_PARSE_ERROR ICE_PARSE_IGNORED]; [|by eauto 10..].
  eexists _, 0. split; [done|]. left. split; [done|]. by apply resolve_candidate_ok.
Qed.

(** Adding a well-formed candidate appends it, numbering a foundation left open
    by its place, until the description holds twenty; a full description refuses
    and is unchanged. *)
Lemma add_candidate_ok c d : candidate_ok c -> description_ok d ->
  let '(c', d', ret) := ice_add_candidate c d in
  description_ok d' /\
  ((ret = 0 /\ candidates_count d < ICE_MAX_CANDIDATES_COUNT /\ candidates d' = candidates d ++ [c'] /\
    foundation c' = (if bool_decide (foundation c = lit "-") then print_u (candidates_count d + 1) else foundation c)) \/
   (ret = -1 /\ candidates_count d = ICE_MAX_CANDIDATES_COUNT /\ d' = d)).
Proof.
  intros Hc Hd. unfold ice_add_candidate. rewrite bool_decide_false by apply Hc.
  pose proof (ok_count _ Hd) as Hn. case_test; zify_bool; [split; [done|]; right; split_and!; try done; unfold candidates_count in *; lia|].
  assert (Hpu : take 31 (print_u (candidates_count d + 1)) = print_u (candidates_count d + 1)).
  { apply take_ge. destruct (print_u_length (candidates_count d + 1)). lia. }
  assert (candidate_ok (if bool_decide (foundation c = lit "-")
    then c <| foundation := take 31 (print_u (candidates_count d + 1)) |> else c)) as Hok.
  { case_bool_decide; [|done]. rewrite Hpu. destruct Hc; split; first [assumption | exact (print_u_cstring _)]. }
  split; [|left; split_and!; try done].
  - destruct Hd. split; cbn; try done.
    + clear - E ok_count0. set (c1 := if bool_decide _ then _ else _). clearbody c1.
      unfold candidates_count in *. cbn [candidates]. rewrite lenZ_app. change (lenZ [c1]) with 1.
      pose proof (lenZ_nonneg (candidates d)). lia.
    + apply Forall_app_2; [done|]. by constructor.
  - case_bool_decide; [exact Hpu|done].
Qed.

(** ** Lines and descriptions *)
Lemma match_prefix_nul_free s p : nul_free s -> nul_free (fst (match_prefix s p)).
Proof. apply skip_prefix_nul_free. Qed.

Lemma scan_field_ok arg old : nul_free arg -> cstring 256 old ->
  exists s, scan_field arg old = Some s /\ cstring 256 s.
Proof.
  intros Ha Ho. unfold scan_field.
  destruct (sscanf_fits [Word 256] arg) as [k Hk]; [by repeat constructor; intros n [= <-]|done|].
  destruct (sscanf arg [Word 256]) as [|[s|] vs]; [by eauto| |by eauto].
  destruct k as [|k]; cbn in Hk; [inversion Hk|]. apply list.Forall2_cons in Hk as [Hs _].
  exists s. split; [|done]. by apply (store_string_fits 256).
Qed.

Lemma parse_sdp_line_ok line d : nul_free line -> description_ok d ->
  exists d' ret, parse_sdp_line line d = Some (d', ret) /\ description_ok d' /\ (ret = 0 \/ ret = ICE_PARSE_IGNORED).
Proof.
  intros Hl Hd. unfold parse_sdp_line.
  pose proof (match_prefix_nul_free line (lit "a=ice-ufrag:") Hl) as Hm1.
  pose proof (match_prefix_nul_free line (lit "a=ice-pwd:") Hl) as Hm2.
  destruct (match_prefix line (lit "a=ice-ufrag:")) as [a1 [|]].
  { destruct (scan_field_ok a1 (ice_ufrag d) Hm1 (ok_ufrag _ Hd)) as (s & -> & Hs).
    eexists _, 0. split; [done|]. split; [by destruct Hd|auto]. }
  destruct (match_prefix line (lit "a=ice-pwd:")) as [a2 [|]].
  { destruct (scan_field_ok a2 (ice_pwd d) Hm2 (ok_pwd _ Hd)) as (s & -> & Hs).
    eexists _, 0. split; [done|]. split; [by destruct Hd|auto]. }
  destruct (match_prefix line _) as [a3 [|]]; [eexists _, 0; split; [done|]; split; [by destruct Hd|auto]|].
  destruct (match_prefix line _) as [a4 [|]]; [eexists _, 0; split; [done|]; split; [by destruct Hd|auto]|].
  destruct (parse_candidate_cases line ice_candidate_zero Hl) as (c & ret & -> & Hc).
  destruct Hc as [[-> Hc]|[-> | ->]]; cbn [Z.eqb ICE_PARSE_ERROR ICE_PARSE_IGNORED]; [|by eauto 10..].
  pose proof (add_candidate_ok c d Hc Hd) as Ha. destruct (ice_add_candidate c d) as [[c' d'] ret'].
  destruct Ha as [Ha _]. eauto 10.
Qed.

(** The loop over the lines, without its buffer: [chars] are the characters of
    the line so far, which stay fewer than the buffer has room for. *)
Fixpoint text_lines (sdp chars : list Z) (description : ice_description) : option (ice_description * Z) :=
  match sdp with
  | [] => Some (description, 0)
  | c :: sdp' =>
    if c =? 10 then
      if lenZ chars =? 0 then text_lines sdp' chars description
      else
        let? (description, ret) := parse_sdp_line (cstr (chars ++ [0])) description in
        if ret =? ICE_PARSE_ERROR then Some (description, ICE_PARSE_ERROR)
        else text_lines sdp' [] description
    else if negb (c =? 13) && (lenZ chars + 1 <? BUFFER_SIZE)
      then text_lines sdp' (chars ++ [c]) description
      else text_lines sdp' chars description
  end.

Lemma cstr_ended s rest : cstr (s ++ 0 :: rest) = cstr (s ++ [0]).
Proof. induction s as [|c s IH]; cbn; [done|]. case_test; [done|by rewrite IH]. Qed.

(** The loop stays in its buffer and does what the text says: the buffer holds
    the characters of the line, whatever is behind them. *)
Lemma parse_sdp_loop_lines sdp chars rest d : lenZ chars < BUFFER_SIZE -> lenZ (chars ++ rest) = BUFFER_SIZE ->
  parse_sdp_loop sdp (chars ++ rest) (lenZ chars) d = text_lines sdp chars d.
Proof.
  revert chars rest d. induction sdp as [|c sdp IH]; intros chars rest d Hc Hl; cbn [parse_sdp_loop text_lines]; [done|].
  destruct rest as [|r rest]; [rewrite app_nil_r in Hl; lia|].
  assert (Hstore : forall x, store (lenZ chars) [x] (chars ++ r :: rest) = Some (chars ++ x :: rest))
    by (intros x; by apply (store_mid (lenZ chars) [x] chars [r] rest)).
  destruct (c =? 10); [destruct (lenZ chars =? 0); [by apply IH|]|].
  - rewrite Hstore, cstr_ended. destruct (parse_sdp_line _ d) as [[d' ret]|]; [|done]. case_test; [done|].
    apply (IH [] (chars ++ 0 :: rest)); [done|]. change (lenZ (chars ++ 0 :: rest) = BUFFER_SIZE).
    rewrite lenZ_app, lenZ_cons in *. exact Hl.
  - destruct (negb _ && _) eqn:E; [|by apply IH]. zify_bool. rewrite Hstore.
    assert (Hlen : lenZ (chars ++ [c]) = lenZ chars + 1) by (rewrite lenZ_app; done).
    rewrite (app_assoc chars [c] rest : chars ++ c :: rest = _), <- Hlen. apply IH; [lia|].
    rewrite !lenZ_app, lenZ_cons in *. rewrite lenZ_nil. lia.
Qed.

Lemma parse_sdp_lines sdp buffer d : lenZ buffer = BUFFER_SIZE -> parse_sdp_loop sdp buffer 0 d = text_lines sdp [] d.
Proof. by apply (parse_sdp_loop_lines sdp []). Qed.

Lemma text_lines_ok sdp chars d : nul_free sdp -> nul_free chars -> description_ok d ->
  exists d', text_lines sdp chars d = Some (d', 0) /\ description_ok d'.
Proof.
  intros Hs. revert chars d. induction Hs as [|c sdp Hc Hs IH]; intros chars d Hb Hd; cbn [text_lines]; [by eauto|].
  destruct (c =? 10); [destruct (lenZ chars =? 0); [auto|]|destruct (negb _ && _); auto].
  - destruct (parse_sdp_line_ok (cstr (chars ++ [0])) d) as (d' & ret & -> & Hd' & Hr); [apply cstr_nonzero|done|].
    destruct Hr as [-> | ->]; (apply IH; [constructor|done]).
  - apply IH; [|done]. apply Forall_app_2; [done|]. by constructor.
Qed.

(** C26: on every text, parsing a session description stays inside the buffer
    of a line, whatever is in it at first, and inside the arrays of the
    candidates and of the description, and ends with one of the results 0, missing
    user fragment and missing password - never a parse error; it leaves a
    well-formed description: at most twenty candidates of a known type, with
    their numbers in the range of their C types and their strings within their
    arrays, by decreasing priority. *)
Theorem ice_parse_sdp_well_formed buffer sdp :
  lenZ buffer = BUFFER_SIZE -> nul_free sdp ->
  exists d ret, ice_parse_sdp buffer sdp = Some (d, ret) /\ description_ok d /\ by_priority (candidates d) /\
    ret = (if bool_decide (ice_ufrag d = []) then ICE_PARSE_MISSING_UFRAG
           else if bool_decide (ice_pwd d = []) then ICE_PARSE_MISSING_PWD else 0).
Proof.
  intros Hb Hs. unfold ice_parse_sdp. rewrite parse_sdp_lines by done.
  assert (description_ok ice_description_zero) as Hz.
  { split; cbn; try (by apply cstring_nil); [split; discriminate|constructor]. }
  destruct (text_lines_ok sdp [] ice_description_zero Hs (Forall_nil_2 _) Hz) as (d & -> & Hd).
  destruct (sort_candidates_spec d) as (l & -> & Hp & Hl & _). cbn [Z.eqb ICE_PARSE_ERROR].
  set (d' := d <| candidates := l |>).
  assert (description_ok d') as Hd'.
  { destruct Hd as [Hd1 Hd2 Hd3 Hd4]. split; cbn; try done.
    - unfold candidates_count, lenZ in *. cbn. by rewrite Hp.
    - by rewrite Hp. }
  exists d'. repeat case_bool_decide; eauto.
Qed.

End Wf.
