(* ===== verification/IceGenerate.v ===== *)
(** * Generated descriptions: the text, cut at the end of the buffer *)

From Stdlib Require Import Strings.String.
From S2P Require Import Prelude Base64 CStdio Addr Ice IceSort IceWf.

(** ** The text of a description *)
Definition announced (c : ice_candidate) : Prop :=
  type c <> ICE_CANDIDATE_TYPE_UNKNOWN /\ type c <> ICE_CANDIDATE_TYPE_PEER_REFLEXIVE.

#[export] Instance announced_dec c : Decision (announced c).
Proof. unfold announced. apply _. Defined.

Definition candidate_line (c : ice_candidate) : list Z :=
  match type_text (type c) with
  | Some (t, suffix) => candidate_text c t suffix
  | None => []
  end.

Definition credentials_text (d : ice_description) : list Z :=
  lit "a=ice-ufrag:" ++ ice_ufrag d ++ crlf ++ lit "a=ice-pwd:" ++ ice_pwd d ++ crlf.

(** The first lines: a lite agent's flag takes the place of its credentials. *)
Definition head_text (d : ice_description) : list Z :=
  if ice_lite d then lit "a=ice-lite" ++ crlf else credentials_text d.

Fixpoint candidates_text (cs : list ice_candidate) : list Z :=
  match cs with
  | [] => []
  | c :: cs' => (if decide (announced c) then candidate_line c ++ crlf else []) ++ candidates_text cs'
  end.

Definition options_text (d : ice_description) : list Z :=
  if finished d then lit "a=end-of-candidates" ++ crlf ++ lit "a=ice-options:ice2" ++ crlf
  else lit "a=ice-options:ice2,trickle" ++ crlf.

Definition sdp_text (d : ice_description) : list Z :=
  head_text d ++ candidates_text (candidates d) ++ options_text d.

(** ** The buffer *)

(** [text], or what fits of it, stands at [buffer] with its NUL, and [begin]
    points to the NUL; outside the buffer the memory is [mem0]. *)
Definition written (mem0 : list Z) (buffer size : Z) (text mem : list Z) (begin : Z) : Prop :=
  begin = buffer + Z.min (lenZ text) (Z.max 0 (size - 1)) /\
  exists tail, mem = take (Z.to_nat buffer) mem0 ++ take (Z.to_nat (size - 1)) text ++ tail ++
                       drop (Z.to_nat (buffer + size)) mem0 /\
    lenZ (take (Z.to_nat (size - 1)) text) + lenZ tail = size /\
    (text <> [] -> 0 < size -> hd_error tail = Some 0).

Lemma lenZ_take {A} n (l : list A) : lenZ (take (Z.to_nat n) l) = Z.min (Z.max 0 n) (lenZ l).
Proof. unfold lenZ. rewrite length_take. lia. Qed.

Lemma written_start mem0 buffer size :
  0 <= buffer -> 0 <= size -> buffer + size <= lenZ mem0 -> written mem0 buffer size [] mem0 buffer.
Proof.
  intros Hb Hs Hm. split; [rewrite lenZ_nil; lia|].
  exists (take (Z.to_nat size) (drop (Z.to_nat buffer) mem0)). split_and!.
  - rewrite take_nil. cbn [app]. rewrite Z2Nat.inj_add by lia. rewrite <- drop_drop, !take_drop. done.
  - rewrite take_nil, lenZ_nil, lenZ_take, lenZ_drop; lia.
  - done.
Qed.

Lemma written_frame mem0 buffer size text mem begin :
  0 <= buffer -> 0 <= size -> buffer + size <= lenZ mem0 -> written mem0 buffer size text mem begin ->
  lenZ mem = lenZ mem0 /\
  take (Z.to_nat buffer) mem = take (Z.to_nat buffer) mem0 /\
  drop (Z.to_nat (buffer + size)) mem = drop (Z.to_nat (buffer + size)) mem0.
Proof.
  intros Hb Hs Hm (_ & tail & -> & Ht & _).
  assert (lenZ (take (Z.to_nat buffer) mem0) = buffer) as Hpre by (rewrite lenZ_take; lia). split_and!.
  - rewrite !lenZ_app, lenZ_drop by (unfold lenZ in *; lia). lia.
  - apply take_app_length'. unfold lenZ in *. lia.
  - rewrite !app_assoc. apply drop_app_length'. rewrite !length_app. unfold lenZ in *. lia.
Qed.

(** One [snprintf] at [begin] with the room that is left. *)
Lemma snprintf_step mem0 buffer size text mem begin line :
  0 <= buffer -> 0 <= size -> buffer + size <= lenZ mem0 ->
  written mem0 buffer size text mem begin ->
  exists mem', snprintf mem begin (buffer + size - begin) line = Some (mem', lenZ line) /\
    forall begin', begin' = buffer + Z.min (lenZ (text ++ line)) (Z.max 0 (size - 1)) ->
      written mem0 buffer size (text ++ line) mem' begin'.
Proof.
  intros Hb Hs Hm (-> & tail & -> & Ht & Hz). unfold snprintf.
  pose proof (lenZ_nonneg text). pose proof (lenZ_nonneg tail). rewrite lenZ_take in Ht. case_test; zify_bool.
  - assert (size = 0) as -> by lia. eexists. split; [done|]. intros begin' ->. split; [done|].
    exists []. assert (tail = []) as -> by (apply length_zero_iff_nil; unfold lenZ in *; lia).
    split_and!; [done..|lia].
  - assert (0 < size) as Hs0 by lia.
    set (k := buffer + size - _ - 1). set (out := take (Z.to_nat k) line ++ [0]).
    assert (lenZ out <= lenZ tail) as Hlen.
    { unfold out. rewrite lenZ_app, lenZ_take. change (lenZ [0]) with 1. lia. }
    rewrite <- (take_drop (length out) tail), <- app_assoc, app_assoc.
    rewrite store_mid.
    + eexists. split; [reflexivity|]. intros begin' ->. split; [done|].
      exists ([0] ++ drop (length out) tail). split_and!.
      * unfold out. rewrite <- !app_assoc. f_equal.
        rewrite take_app. rewrite <- app_assoc. f_equal. f_equal. f_equal. unfold lenZ in *. lia.
      * rewrite lenZ_app, lenZ_drop, lenZ_take, !lenZ_app by (unfold lenZ in *; lia). change (lenZ [0]) with 1.
        fold (lenZ out). unfold out at 1. rewrite lenZ_app, lenZ_take. change (lenZ [0]) with 1.
        subst k. pose proof (lenZ_nonneg line). lia.
      * done.
    + rewrite lenZ_app, !lenZ_take. unfold lenZ in *. lia.
    + rewrite length_take. unfold lenZ in *. lia.
Qed.

Lemma put_line_step mem0 buffer size text mem begin len line :
  0 <= buffer -> 0 <= size -> buffer + size <= lenZ mem0 ->
  written mem0 buffer size text mem begin ->
  exists mem' begin', put_line mem begin (buffer + size) len line = Some (mem', begin', len + lenZ line) /\
    written mem0 buffer size (text ++ line) mem' begin'.
Proof.
  intros Hb Hs Hm Hw. destruct (snprintf_step _ _ _ _ _ _ line Hb Hs Hm Hw) as (mem' & Hp & Hw').
  unfold put_line. rewrite Hp. eexists _, _. split; [reflexivity|]. apply Hw'.
  destruct Hw as [-> _]. rewrite lenZ_app. pose proof (lenZ_nonneg text). pose proof (lenZ_nonneg line).
  rewrite Z.geb_leb. repeat case_test; zify_bool; lia.
Qed.

(** ** Candidates *)
Lemma nul_free_bool s : forallb (fun c => negb (c =? 0)) s = true -> nul_free s.
Proof.
  intros Hf. apply List.Forall_forall. rewrite forallb_forall in Hf. intros c Hc.
  specialize (Hf _ Hc). by zify_bool.
Qed.

Lemma lit_nul_free s : forallb (fun c => negb (c =? 0)) (lit s) = true -> nul_free (lit s).
Proof. apply nul_free_bool. Qed.

Lemma type_text_cases t : t <> ICE_CANDIDATE_TYPE_UNKNOWN ->
  exists name suffix, type_text t = Some (name, suffix) /\ lenZ name <= 5 /\ nul_free name /\
    lenZ (match suffix with Some s => lit " " ++ s | None => [] end) <= 22 /\
    nul_free (match suffix with Some s => lit " " ++ s | None => [] end).
Proof.
  destruct t; [done|..]; intros _; eexists _, _; (split; [reflexivity|]); split_and!;
    try (by vm_compute); try (by repeat constructor).
Qed.

Lemma candidate_line_cstring c : candidate_ok c -> cstring 1023 (candidate_line c).
Proof.
  intros [Ht _ _ [Hf1 Hf2] _ [Hh1 Hh2] [Hs1 Hs2]]. unfold candidate_line, candidate_text.
  destruct (type_text_cases _ Ht) as (name & suffix & -> & Hn1 & Hn2 & Hx1 & Hx2).
  destruct (print_u_cstring (component c)) as [_ Hc2]. destruct (print_u_cstring (priority c)) as [_ Hp2].
  pose proof (print_u_length (component c)). pose proof (print_u_length (priority c)). split.
  - rewrite !lenZ_app. change (lenZ (lit "a=candidate:")) with 12. change (lenZ (lit " UDP ")) with 5.
    change (lenZ (lit " typ ")) with 5. change (lenZ (lit " ")) with 1. unfold lenZ in *. lia.
  - repeat first [assumption | by apply lit_nul_free | apply Forall_app_2].
Qed.

Lemma generate_candidate_line size c tmp : candidate_ok c -> BUFFER_SIZE <= size -> lenZ tmp = size ->
  exists tmp', ice_generate_candidate_sdp c tmp size = Some (tmp', lenZ (candidate_line c)) /\
    cstr tmp' = candidate_line c /\ lenZ tmp' = size.
Proof.
  intros Hok Hsize Hl. unfold BUFFER_SIZE in Hsize. destruct (candidate_line_cstring c Hok) as [H1 H2].
  unfold ice_generate_candidate_sdp, candidate_line in *.
  destruct (type_text_cases _ (ok_type _ Hok)) as (name & suffix & Ht & _). rewrite Ht in *.
  set (text := candidate_text c name suffix) in *. unfold snprintf.
  rewrite (proj2 (Z.eqb_neq _ _)) by lia. cbn iota.
  rewrite (take_ge text) by (unfold lenZ in *; lia).
  rewrite <- (take_drop (length (text ++ [0])) tmp), <- (app_nil_l (_ ++ drop _ _)).
  rewrite store_mid.
  - eexists. split; [reflexivity|]. cbn [app]. rewrite <- app_assoc. split; [by apply cstr_app_nul|].
    rewrite !lenZ_app, lenZ_drop by (unfold lenZ in *; rewrite length_app; cbn [length]; lia). change (lenZ [0]) with 1.
    unfold lenZ in *. rewrite length_app. cbn [length]. lia.
  - done.
  - rewrite length_take, length_app. unfold lenZ in *. cbn [length]. lia.
Qed.

Lemma put_candidates_step mem0 buffer size tmp cs text mem begin len :
  0 <= buffer -> 0 <= size -> buffer + size <= lenZ mem0 ->
  lenZ tmp = BUFFER_SIZE -> Forall candidate_ok cs ->
  written mem0 buffer size text mem begin ->
  exists mem' begin',
    put_candidates cs tmp mem begin (buffer + size) len = Some (mem', begin', len + lenZ (candidates_text cs)) /\
    written mem0 buffer size (text ++ candidates_text cs) mem' begin'.
Proof.
  intros Hb Hs Hm Htmp Hcs. revert text mem begin len.
  induction Hcs as [|c cs Hc Hcs IH]; intros text mem begin len Hw; cbn [put_candidates candidates_text].
  - eexists _, _. rewrite app_nil_r, lenZ_nil, Z.add_0_r. by split.
  - assert (bool_decide (type c = ICE_CANDIDATE_TYPE_UNKNOWN) || bool_decide (type c = ICE_CANDIDATE_TYPE_PEER_REFLEXIVE)
      = negb (bool_decide (announced c))) as ->.
    { unfold announced. repeat case_bool_decide; simpl; tauto. }
    case_bool_decide as Ha; cbn [negb].
    + rewrite decide_True by done. destruct (generate_candidate_line BUFFER_SIZE c tmp Hc ltac:(done) Htmp) as (tmp' & -> & Hstr & _).
      pose proof (lenZ_nonneg (candidate_line c)). rewrite (proj2 (Z.ltb_ge _ _)) by lia. rewrite Hstr.
      destruct (put_line_step _ _ _ _ _ _ len (candidate_line c ++ crlf) Hb Hs Hm Hw) as (mem1 & begin1 & -> & Hw1).
      destruct (IH _ _ _ (len + lenZ (candidate_line c ++ crlf)) Hw1) as (mem2 & begin2 & -> & Hw2).
      eexists _, _. rewrite (app_assoc text). split; [|exact Hw2].
      by rewrite (lenZ_app (candidate_line c ++ crlf)), Z.add_assoc.
    + rewrite decide_False by done. cbn [app]. by apply IH.
Qed.

(** ** Whole descriptions *)
Lemma put_description_step mem0 buffer size d :
  0 <= buffer -> 0 <= size -> buffer + size <= lenZ mem0 ->
  exists mem' begin', put_description d mem0 buffer (buffer + size) 0 = Some (mem', begin', lenZ (head_text d)) /\
    written mem0 buffer size (head_text d) mem' begin'.
Proof.
  intros Hb Hs Hm. pose proof (written_start _ _ _ Hb Hs Hm) as Hw.
  unfold put_description, head_text. fold (credentials_text d).
  destruct (snprintf_step _ _ _ _ _ _ (credentials_text d) Hb Hs Hm Hw) as (mem1 & -> & Hw1).
  cbn [app] in Hw1. destruct (ice_lite d).
  - (* the second text is written where the first one began *)
    set (flag := lit "a=ice-lite" ++ crlf) in *.
    assert (exists mem2, snprintf mem1 buffer (buffer + size - buffer) flag = Some (mem2, lenZ flag) /\
      forall b, b = buffer + Z.min (lenZ flag) (Z.max 0 (size - 1)) -> written mem0 buffer size flag mem2 b)
      as (mem2 & -> & Hw2).
    { destruct (written_frame _ _ _ _ _ _ Hb Hs Hm (Hw1 _ eq_refl)) as (Hl1 & Htake & Hdrop).
      assert (buffer + size <= lenZ mem1) as Hm1 by lia.
      destruct (snprintf_step mem1 buffer size [] mem1 buffer flag Hb Hs Hm1
        (written_start _ _ _ Hb Hs Hm1)) as (mem2 & Hp & Hw2).
      exists mem2. split; [done|]. intros b Hb'. destruct (Hw2 b Hb') as (Hbeg & tail2 & Heq & Ht2 & Hz2).
      split; [done|]. exists tail2. by rewrite Htake, Hdrop in Heq. }
    eexists _, _. split; [reflexivity|]. apply Hw2.
    pose proof (lenZ_nonneg flag). rewrite Z.geb_leb. repeat case_test; zify_bool; lia.
  - eexists _, _. split; [reflexivity|]. apply Hw1.
    pose proof (lenZ_nonneg (credentials_text d)). rewrite Z.geb_leb. repeat case_test; zify_bool; lia.
Qed.

Lemma generate_sdp_spec d tmp mem0 buffer size :
  Forall candidate_ok (candidates d) -> lenZ tmp = BUFFER_SIZE -> ice_ufrag d <> [] -> ice_pwd d <> [] ->
  0 <= buffer -> 0 <= size -> buffer + size <= lenZ mem0 ->
  exists mem' begin', ice_generate_sdp d tmp mem0 buffer size = Some (mem', lenZ (sdp_text d)) /\
    written mem0 buffer size (sdp_text d) mem' begin'.
Proof.
  intros Hc Htmp Hu Hp Hb Hs Hm. unfold ice_generate_sdp. rewrite !bool_decide_false by done. cbn [orb].
  destruct (put_description_step mem0 buffer size d Hb Hs Hm) as (m1 & b1 & -> & Hw1).
  destruct (put_candidates_step mem0 buffer size tmp (candidates d) _ m1 b1 (lenZ (head_text d)) Hb Hs Hm Htmp Hc Hw1)
    as (m2 & b2 & -> & Hw2).
  fold (options_text d).
  destruct (put_line_step mem0 buffer size _ m2 b2 (lenZ (head_text d) + lenZ (candidates_text (candidates d)))
    (options_text d) Hb Hs Hm Hw2) as (m3 & b3 & -> & Hw3).
  eexists _, _. unfold sdp_text. rewrite app_assoc, !lenZ_app. split; [reflexivity|exact Hw3].
Qed.

Lemma sdp_text_nonempty d : sdp_text d <> [].
Proof. unfold sdp_text, head_text, credentials_text. by destruct (ice_lite d). Qed.

(** C35: for a description with credentials and well-formed candidates, and every
    size of the buffer, the generator stores nothing outside the buffer, returns
    the length of the whole text, and leaves in a buffer that is not empty the
    text cut to its room and a NUL, what follows the buffer being untouched. *)
Theorem ice_generate_sdp_bounded d tmp mem buffer size :
  Forall candidate_ok (candidates d) -> lenZ tmp = BUFFER_SIZE -> ice_ufrag d <> [] -> ice_pwd d <> [] ->
  0 <= buffer -> 0 <= size -> buffer + size <= lenZ mem ->
  exists mem', ice_generate_sdp d tmp mem buffer size = Some (mem', lenZ (sdp_text d)) /\
    lenZ mem' = lenZ mem /\
    take (Z.to_nat buffer) mem' = take (Z.to_nat buffer) mem /\
    drop (Z.to_nat (buffer + size)) mem' = drop (Z.to_nat (buffer + size)) mem /\
    (0 < size -> exists rest, drop (Z.to_nat buffer) mem' = take (Z.to_nat (size - 1)) (sdp_text d) ++ 0 :: rest).
Proof.
  intros Hc Htmp Hu Hp Hb Hs Hm.
  destruct (generate_sdp_spec d tmp mem buffer size Hc Htmp Hu Hp Hb Hs Hm) as (mem' & b & -> & Hw).
  destruct (written_frame _ _ _ _ _ _ Hb Hs Hm Hw) as (Hl & Ht & Hd). exists mem'. split_and!; try done.
  intros Hs0. destruct Hw as (_ & tail & -> & _ & Hz). specialize (Hz (sdp_text_nonempty d) Hs0).
  destruct tail as [|z tail]; [done|]. injection Hz as ->. eexists.
  rewrite drop_app_length'; [reflexivity|]. rewrite length_take. unfold lenZ in *. lia.
Qed.
