(* ===== verification/IceRoundtrip.v ===== *)
(** * A generated description is parsed back *)

From Stdlib Require Import Strings.String.
From S2P Require Import Prelude Base64 CStdio Addr Ice IceSort IceWf IceGenerate.

(** ** Words and numerals *)

(** A text that ["%<n>s"] reads as one word. *)
Definition word (n : Z) (s : list Z) : Prop :=
  s <> [] /\ lenZ s <= n /\ Forall (fun c => isspace c = false /\ c <> 0) s.

(** The end of the text, or white space. *)
Definition delimited (rest : list Z) : Prop :=
  match rest with [] => True | c :: _ => isspace c = true end.

Lemma skip_spaces_word c s : isspace c = false -> skip_spaces (c :: s) = c :: s.
Proof. intros Hc. unfold skip_spaces. cbn [span]. by rewrite Hc. Qed.

Lemma span_delimited f w rest :
  Forall (fun c => f c = true) w -> delimited rest -> (forall c, isspace c = true -> f c = false) ->
  span f (w ++ rest) = (w, rest).
Proof.
  intros Hw Hr Hf. apply span_all; [done|]. destruct rest as [|c rest]; [by left|right]. eauto.
Qed.

Lemma word_head n w : word n w -> exists c w', w = c :: w' /\ isspace c = false.
Proof. intros (Hne & _ & Hw). destruct w as [|c w]; [done|]. apply Forall_cons_1 in Hw as [[? ?] ?]. eauto. Qed.

Lemma print_u_head z : exists c w, print_u z = c :: w /\ isdigit c = true /\ isspace c = false.
Proof.
  pose proof (print_u_digits z) as Hd. pose proof (print_u_length z) as Hl.
  destruct (print_u z) as [|c w]; [cbn in Hl; lia|]. apply Forall_cons_1 in Hd as [Hc _].
  exists c, w. split_and!; [done..|]. unfold isdigit, isspace in *. zify_bool.
  apply orb_false_iff. split; [apply andb_false_iff; right; apply Z.leb_gt|apply Z.eqb_neq]; lia.
Qed.

Lemma scan_word_of n w rest : word n w -> delimited rest -> scan_word n (skip_spaces (w ++ rest)) = Some (w, rest).
Proof.
  intros Hw Hr. destruct (word_head n w Hw) as (c & w' & -> & Hc). destruct Hw as (_ & Hl & Hw).
  cbn [app]. rewrite skip_spaces_word by done. unfold scan_word.
  change (c :: w' ++ rest) with ((c :: w') ++ rest). rewrite span_delimited; [|..].
  - unfold lenZ in Hl. rewrite take_ge, drop_ge by lia. done.
  - apply (list.Forall_impl _ _ _ Hw). by intros x [-> _].
  - done.
  - by intros x ->.
Qed.

Lemma scan_number_of z rest : 0 <= z < 2 ^ 32 -> delimited rest ->
  scan_number (skip_spaces (print_u z ++ rest)) = Some (z, rest).
Proof.
  intros Hz Hr. pose proof (print_u_value z Hz) as Hv. pose proof (print_u_digits z) as Hd.
  destruct (print_u_head z) as (c & w & E & Hc & Hs). rewrite E in *.
  cbn [app]. rewrite skip_spaces_word by done. unfold scan_number.
  assert ((c =? 45) = false /\ (c =? 43) = false) as [-> ->].
  { unfold isdigit in Hc. zify_bool. split; apply Z.eqb_neq; lia. }
  change (c :: w ++ rest) with ((c :: w) ++ rest). rewrite span_delimited; [by rewrite Hv, Z.mul_1_l|done..|].
  intros x Hx. unfold isspace, isdigit in *. apply andb_false_iff.
  apply orb_true_iff in Hx as [Hx|Hx]; zify_bool; left; apply Z.leb_gt; lia.
Qed.

Section Roundtrip.
Context `{Platform, Scan, Resolver}.

Lemma sscanf_word n w rest fs : word n w -> delimited rest -> sscanf (w ++ rest) (Word n :: fs) = Str w :: sscanf rest fs.
Proof. intros. cbn [sscanf]. by rewrite scan_word_of. Qed.

Lemma sscanf_int z rest fs : 0 <= z < 2 ^ 31 -> delimited rest ->
  sscanf (print_u z ++ rest) (Int :: fs) = Num z :: sscanf rest fs.
Proof.
  intros. cbn [sscanf]. rewrite scan_number_of by (done || lia). unfold stored_int.
  by rewrite (proj2 (Z.leb_le _ _)), (proj2 (Z.ltb_lt _ _)) by lia.
Qed.

Lemma sscanf_uint z rest fs : 0 <= z < 2 ^ 32 -> delimited rest ->
  sscanf (print_u z ++ rest) (Uint :: fs) = Num z :: sscanf rest fs.
Proof.
  intros. cbn [sscanf]. rewrite scan_number_of by done. unfold stored_uint.
  rewrite (proj2 (Z.ltb_lt _ _)), (proj2 (Z.ltb_lt z _)) by lia. cbn [andb]. by rewrite wrap_small.
Qed.

Lemma sscanf_literal s rest fs : sscanf (s ++ rest) (Literal s :: fs) = sscanf rest fs.
Proof. cbn [sscanf]. by rewrite strip_app. Qed.

(** One blank, then something that is not white space. *)
Lemma sscanf_space s c fs : hd_error s = Some c -> isspace c = false ->
  sscanf (lit " " ++ s) (Space :: fs) = sscanf s fs.
Proof.
  destruct s as [|c' s]; [done|]. intros [= ->] Hc. cbn [sscanf]. f_equal.
  unfold skip_spaces. cbn. by rewrite Hc.
Qed.

Lemma hd_word n w rest : word n w -> exists c, hd_error (w ++ rest) = Some c /\ isspace c = false.
Proof. intros Hw. destruct (word_head n w Hw) as (c & w' & -> & Hc). by exists c. Qed.

Lemma hd_print_u z rest : exists c, hd_error (print_u z ++ rest) = Some c /\ isspace c = false.
Proof. destruct (print_u_head z) as (c & w & -> & _ & Hc). by exists c. Qed.

(** ** Prefixes *)
Lemma match_prefix_app p x : p <> [] -> match_prefix (p ++ x) p = (x, true).
Proof.
  intros Hp. unfold match_prefix, skip_prefix. rewrite strip_app, bool_decide_false; [done|].
  intros E. apply (f_equal (length (A:=Z))) in E. rewrite length_app in E. destruct p; [done|cbn in E; lia].
Qed.

Lemma match_prefix_none s p : strip p s = None -> match_prefix s p = (s, false).
Proof.
  intros E. unfold match_prefix, skip_prefix. rewrite E, bool_decide_true by done.
  rewrite bool_decide_false; [done|]. intros ->. by destruct s.
Qed.

(** ** Lines *)
Lemma text_lines_chars line rest buffer d :
  Forall (fun c => isspace c = false) line \/ Forall (fun c => c <> 10 /\ c <> 13) line ->
  lenZ buffer + lenZ line <= 1023 ->
  text_lines (line ++ rest) buffer d = text_lines rest (buffer ++ line) d.
Proof.
  intros Hl. assert (Forall (fun c => c <> 10 /\ c <> 13) line) as Hl'.
  { destruct Hl as [Hl|Hl]; [|done]. apply (list.Forall_impl _ _ _ Hl). intros c Hc.
    split; intros ->; discriminate. }
  clear Hl. revert buffer. induction Hl' as [|c line [Hc1 Hc2] Hl IH]; intros buffer Hlen.
  - by rewrite app_nil_r.
  - cbn [app text_lines]. rewrite lenZ_cons in Hlen. pose proof (lenZ_nonneg line).
    rewrite (proj2 (Z.eqb_neq c 10)), (proj2 (Z.eqb_neq c 13)) by done.
    unfold BUFFER_SIZE. rewrite (proj2 (Z.ltb_lt _ _)) by lia. cbn [negb andb].
    rewrite IH; [by rewrite <- app_assoc|]. rewrite lenZ_app, lenZ_cons. change (lenZ []) with 0. lia.
Qed.

(** Characters that a line may have. *)
Definition line_ok (line : list Z) : Prop :=
  line <> [] /\ lenZ line <= 1023 /\ Forall (fun c => c <> 10 /\ c <> 13) line /\ nul_free line.

Lemma text_lines_line line rest d d' ret :
  line_ok line -> parse_sdp_line line d = Some (d', ret) -> ret <> ICE_PARSE_ERROR ->
  text_lines (line ++ crlf ++ rest) [] d = text_lines rest [] d'.
Proof.
  intros (Hne & Hlen & Hl & Hn) Hp Hr. rewrite text_lines_chars; [|by right|done].
  cbn [app crlf text_lines]. change (13 =? 10) with false. change (10 =? 10) with true.
  change (negb (13 =? 13)) with false. cbn [andb].
  rewrite (proj2 (Z.eqb_neq _ _)) by (destruct line; [done|]; rewrite lenZ_cons; pose proof (lenZ_nonneg line); lia).
  rewrite cstr_app_nul by done. rewrite Hp, (proj2 (Z.eqb_neq _ _)) by done. done.
Qed.

Lemma word_line n w : word n w -> Forall (fun c => c <> 10 /\ c <> 13) w /\ nul_free w.
Proof.
  intros (_ & _ & Hw). split; apply (list.Forall_impl _ _ _ Hw); intros c [Hc Hz]; [|done].
  split; intros ->; discriminate.
Qed.

Lemma print_u_line z : Forall (fun c => c <> 10 /\ c <> 13) (print_u z) /\ nul_free (print_u z).
Proof.
  split; [|apply print_u_cstring]. apply (list.Forall_impl _ _ _ (print_u_digits z)).
  intros c Hc. split; intros ->; discriminate.
Qed.

Lemma credential_line p w : word 256 w ->
  (p = lit "a=ice-ufrag:" \/ p = lit "a=ice-pwd:") -> line_ok (p ++ w).
Proof.
  intros Hw Hp. destruct (word_line _ _ Hw) as [H1' H2']. destruct Hw as (Hne & Hl & Hw). split_and!.
  - by destruct Hp as [-> | ->].
  - rewrite lenZ_app. destruct Hp as [-> | ->];
      [change (lenZ _) with 12 at 1|change (lenZ _) with 10 at 1]; lia.
  - apply Forall_app_2; [|done]. destruct Hp as [-> | ->]; by repeat constructor.
  - apply Forall_app_2; [|done]. destruct Hp as [-> | ->]; by repeat constructor.
Qed.

Lemma word_cstring n w : word n w -> cstring n w.
Proof. intros Hw. split; [apply Hw|]. by eapply word_line. Qed.

Lemma scan_field_word w old : word 256 w -> scan_field w old = Some w.
Proof.
  intros Hw. unfold scan_field. rewrite <- (app_nil_r w) at 1. rewrite sscanf_word by done.
  by apply (store_string_fits 256), word_cstring.
Qed.

Lemma parse_ufrag_line w d : word 256 w ->
  parse_sdp_line (lit "a=ice-ufrag:" ++ w) d = Some (d <| ice_ufrag := w |>, 0).
Proof.
  intros Hw. unfold parse_sdp_line. rewrite match_prefix_app by done.
  by rewrite scan_field_word.
Qed.

Lemma parse_pwd_line w d : word 256 w ->
  parse_sdp_line (lit "a=ice-pwd:" ++ w) d = Some (d <| ice_pwd := w |>, 0).
Proof.
  intros Hw. unfold parse_sdp_line. rewrite match_prefix_none by done. rewrite match_prefix_app by done.
  by rewrite scan_field_word.
Qed.

(** ** Candidates *)

(** A candidate whose line the parser reads back. *)
Record printable (c : ice_candidate) : Prop := {
  pr_announced : announced c;
  pr_foundation : word 32 (foundation c);
  pr_numbered : foundation c <> lit "-";
  pr_component : 0 <= component c < 2 ^ 31;
  pr_priority : 0 <= priority c < 2 ^ 32;
  pr_hostname : word 256 (hostname c);
  pr_service : word 32 (service c)
}.

(** What the peer knows of it: the address is what the names resolve to. *)
Definition received (c : ice_candidate) : ice_candidate :=
  fst (ice_resolve_candidate (c <| transport := [] |> <| resolved := addr_record_zero |>) ICE_RESOLVE_MODE_SIMPLE).

Lemma received_fields c : type (received c) = type c /\ foundation (received c) = foundation c.
Proof. unfold received, ice_resolve_candidate. repeat case_match; done. Qed.

Lemma type_text_announced t name suffix : type_text t = Some (name, suffix) ->
  t <> ICE_CANDIDATE_TYPE_PEER_REFLEXIVE ->
  word 32 name /\ delimited (match suffix with Some s => lit " " ++ s | None => [] end) /\
  ((t = ICE_CANDIDATE_TYPE_HOST /\ name = lit "host") \/
   (t = ICE_CANDIDATE_TYPE_SERVER_REFLEXIVE /\ name = lit "srflx") \/
   (t = ICE_CANDIDATE_TYPE_RELAYED /\ name = lit "relay")).
Proof.
  destruct t; intros [= <- <-] Ht; try done; (split; [split; [done|]; split; [done|]; by repeat constructor|]);
    (split; [done|]); auto.
Qed.

Lemma scan_candidate c name suffix : printable c -> type_text (type c) = Some (name, suffix) ->
  sscanf (foundation c ++ lit " " ++ print_u (component c) ++ lit " UDP " ++ print_u (priority c) ++ lit " " ++
          hostname c ++ lit " " ++ service c ++ lit " typ " ++ name ++
          match suffix with Some s => lit " " ++ s | None => [] end) candidate_format =
  [Str (foundation c); Num (component c); Str (lit "UDP"); Num (priority c); Str (hostname c); Str (service c); Str name].
Proof.
  intros [[_ Ht] Hf _ Hc Hp Hh Hs] Hty. destruct (type_text_announced _ _ _ Hty Ht) as (Hn & Hd & _).
  set (tail := match suffix with Some _ => _ | None => _ end) in *. clearbody tail.
  unfold candidate_format. change (lit " UDP ") with (lit " " ++ lit "UDP" ++ lit " ").
  change (lit " typ ") with (lit " " ++ lit "typ" ++ lit " "). rewrite <- !app_assoc.
  assert (word 32 (lit "UDP")) as Hu by (split; [done|]; split; [done|]; by repeat constructor).
  rewrite sscanf_word by done.
  destruct (hd_print_u (component c) (lit " " ++ lit "UDP" ++ lit " " ++ print_u (priority c) ++ lit " " ++
    hostname c ++ lit " " ++ service c ++ lit " " ++ lit "typ" ++ lit " " ++ name ++ tail)) as (h1 & Hh1 & Hs1).
  rewrite (sscanf_space _ _ _ Hh1 Hs1), sscanf_int by done.
  rewrite (sscanf_space _ 85) by done. rewrite sscanf_word by done.
  destruct (hd_print_u (priority c) (lit " " ++ hostname c ++ lit " " ++ service c ++ lit " " ++ lit "typ" ++
    lit " " ++ name ++ tail)) as (h2 & Hh2 & Hs2).
  rewrite (sscanf_space _ _ _ Hh2 Hs2), sscanf_uint by done.
  destruct (hd_word 256 (hostname c) (lit " " ++ service c ++ lit " " ++ lit "typ" ++ lit " " ++ name ++ tail) Hh)
    as (h3 & Hh3 & Hs3).
  rewrite (sscanf_space _ _ _ Hh3 Hs3), sscanf_word by done.
  destruct (hd_word 32 (service c) (lit " " ++ lit "typ" ++ lit " " ++ name ++ tail) Hs) as (h4 & Hh4 & Hs4).
  rewrite (sscanf_space _ _ _ Hh4 Hs4), sscanf_word by done.
  rewrite (sscanf_space _ 116) by done. rewrite sscanf_literal.
  destruct (hd_word 32 name tail Hn) as (h5 & Hh5 & Hs5).
  rewrite (sscanf_space _ _ _ Hh5 Hs5), sscanf_word by done. done.
Qed.

Lemma candidate_line_announced c : printable c ->
  exists name suffix, type_text (type c) = Some (name, suffix) /\
    candidate_line c = lit "a=candidate:" ++ foundation c ++ lit " " ++ print_u (component c) ++ lit " UDP " ++
      print_u (priority c) ++ lit " " ++ hostname c ++ lit " " ++ service c ++ lit " typ " ++ name ++
      match suffix with Some s => lit " " ++ s | None => [] end.
Proof.
  intros Hc. destruct (pr_announced _ Hc) as [Hu _]. unfold candidate_line, candidate_text.
  destruct (type c); [done|..]; eexists _, _; (split; [reflexivity|]); done.
Qed.

Lemma parse_candidate_line c c0 : printable c ->
  ice_parse_candidate_sdp (candidate_line c) c0 = Some (received c, 0).
Proof.
  intros Hc. destruct (candidate_line_announced c Hc) as (name & suffix & Ht & ->).
  pose proof (scan_candidate c name suffix Hc Ht) as Hscan. set (x := foundation c ++ _) in *.
  unfold ice_parse_candidate_sdp. rewrite match_prefix_app by done. unfold parse_sdp_candidate.
  change (lit "a=candidate:" ++ x) with (lit "a=" ++ lit "candidate:" ++ x).
  assert (skip_prefix (lit "a=" ++ lit "candidate:" ++ x) (lit "a=") = lit "candidate:" ++ x) as ->
    by (unfold skip_prefix; by rewrite strip_app).
  assert (skip_prefix (lit "candidate:" ++ x) (lit "candidate:") = x) as -> by (unfold skip_prefix; by rewrite strip_app).
  cbv zeta. rewrite Hscan. clear x Hscan.
  destruct (type_text_announced _ _ _ Ht (proj2 (pr_announced _ Hc))) as (Hname & _ & Hcases).
  cbn [length Nat.eqb negb store_fields store_field scanned_str lookup list_lookup].
  rewrite (store_string_fits 32 (lit "UDP")) by (split; [done|by repeat constructor]).
  rewrite !(store_string_fits 32) by (apply word_cstring; first [exact Hname | apply Hc]).
  rewrite (store_string_fits 256) by (apply word_cstring, Hc). clear Hname.
  unfold received. destruct c as [t p k f tr h s r]. cbn in Hcases |- *.
  destruct Hcases as [[-> ->]|[[-> ->]|[-> ->]]]; reflexivity.
Qed.

Lemma candidate_line_ok c : printable c -> line_ok (candidate_line c).
Proof.
  intros Hc. destruct (candidate_line_announced c Hc) as (name & suffix & Ht & ->).
  destruct (type_text_cases (type c)) as (name' & suffix' & Ht' & Hx); [apply (pr_announced _ Hc)|].
  rewrite Ht in Ht'. injection Ht' as <- <-. destruct Hx as (Hx1 & Hx2 & Hx3 & Hx4).
  assert (Forall (fun c => c <> 10 /\ c <> 13) name /\
          Forall (fun c => c <> 10 /\ c <> 13) (match suffix with Some s => lit " " ++ s | None => [] end)) as [Hl1 Hl2].
  { destruct (type c); simplify_eq/=; split; by repeat constructor. }
  destruct Hc as [_ Hf _ _ _ Hh Hs].
  destruct (word_line _ _ Hf) as [Hf1 Hf2]. destruct (word_line _ _ Hh) as [Hh1 Hh2]. destruct (word_line _ _ Hs) as [Hs1 Hs2].
  destruct (print_u_line (component c)) as [Hk1 Hk2]. destruct (print_u_line (priority c)) as [Hp1 Hp2].
  destruct Hf as (_ & Hf & _). destruct Hh as (_ & Hh & _). destruct Hs as (_ & Hs & _).
  pose proof (print_u_length (component c)). pose proof (print_u_length (priority c)). split_and!.
  - done.
  - rewrite !lenZ_app. change (lenZ (lit "a=candidate:")) with 12. change (lenZ (lit " UDP ")) with 5.
    change (lenZ (lit " typ ")) with 5. change (lenZ (lit " ")) with 1. unfold lenZ in *. lia.
  - repeat first [assumption | apply Forall_app_2; [by repeat constructor|] | apply Forall_app_2].
  - repeat first [assumption | by apply lit_nul_free | apply Forall_app_2].
Qed.

Lemma parse_sdp_line_candidate c d : printable c -> candidates_count d < ICE_MAX_CANDIDATES_COUNT ->
  parse_sdp_line (candidate_line c) d = Some (d <| candidates ::= fun l => l ++ [received c] |>, 0).
Proof.
  intros Hc Hn. unfold parse_sdp_line.
  destruct (candidate_line_announced c Hc) as (name & suffix & _ & Hline).
  rewrite !match_prefix_none by (rewrite Hline; reflexivity).
  rewrite parse_candidate_line by done. cbn [Z.eqb].
  unfold ice_add_candidate. destruct (received_fields c) as [Ht Hf]. rewrite Ht, Hf.
  rewrite bool_decide_false by apply Hc. rewrite (proj2 (Z.leb_gt _ _)) by done.
  rewrite bool_decide_false by apply Hc. done.
Qed.

Lemma parse_candidates cs rest d :
  Forall (fun c => announced c -> printable c) cs ->
  candidates_count d + lenZ (filter announced cs) <= ICE_MAX_CANDIDATES_COUNT ->
  text_lines (candidates_text cs ++ rest) [] d =
  text_lines rest [] (d <| candidates ::= fun l => l ++ map received (filter announced cs) |>).
Proof.
  intros Hcs. revert d. induction Hcs as [|c cs Hc Hcs IH]; intros d Hn; cbn [candidates_text].
  - f_equal. destruct d. cbn. by rewrite app_nil_r.
  - rewrite filter_cons in *. destruct (decide (announced c)) as [Ha|Ha]; [|by apply IH].
    rewrite lenZ_cons in Hn. pose proof (lenZ_nonneg (filter announced cs)).
    rewrite <- !app_assoc.
    erewrite text_lines_line; [|by apply candidate_line_ok, Hc|apply parse_sdp_line_candidate; [by apply Hc|lia]|done].
    rewrite IH.
    + f_equal. destruct d. cbn. by rewrite <- app_assoc.
    + unfold candidates_count in *. cbn. rewrite lenZ_app, lenZ_cons. change (lenZ []) with 0. lia.
Qed.

(** ** Whole descriptions *)
Lemma parse_options d rest d0 :
  text_lines (options_text d ++ rest) [] d0 =
  text_lines rest [] (if finished d then d0 <| finished := true |> else d0).
Proof.
  unfold options_text. destruct (finished d).
  - rewrite <- !app_assoc. erewrite text_lines_line; [|..|reflexivity|done].
    + erewrite text_lines_line; [reflexivity| |reflexivity|done].
      split; [done|]. split; [done|]. split; by repeat constructor.
    + split; [done|]. split; [done|]. split; by repeat constructor.
  - rewrite <- app_assoc. erewrite text_lines_line; [reflexivity| |reflexivity|done].
    split; [done|]. split; [done|]. split; by repeat constructor.
Qed.

Lemma parse_sdp_text d :
  ice_lite d = false -> word 256 (ice_ufrag d) -> word 256 (ice_pwd d) ->
  Forall (fun c => announced c -> printable c) (candidates d) ->
  lenZ (filter announced (candidates d)) <= ICE_MAX_CANDIDATES_COUNT ->
  text_lines (sdp_text d) [] ice_description_zero =
  Some (d <| candidates := map received (filter announced (candidates d)) |>, 0).
Proof.
  intros Hl Hu Hp Hcs Hn. unfold sdp_text, head_text, credentials_text. rewrite Hl.
  rewrite <- (app_nil_r (options_text d)), <- !app_assoc, (app_assoc (lit "a=ice-ufrag:")).
  erewrite text_lines_line; [|apply credential_line; auto|by apply parse_ufrag_line|done].
  rewrite (app_assoc (lit "a=ice-pwd:")).
  erewrite text_lines_line; [|apply credential_line; auto|by apply parse_pwd_line|done].
  rewrite parse_candidates by done. rewrite parse_options. cbn [text_lines].
  do 2 f_equal. destruct d as [u p l cs fi]. cbn in *. subst l. by destruct fi.
Qed.

(** What the parser makes of the text of a lite agent. *)
Definition parsed_lite (d : ice_description) : ice_description :=
  mkDescription [] [] true (map received (filter announced (candidates d))) (finished d).

Lemma parse_sdp_text_lite d :
  ice_lite d = true -> Forall (fun c => announced c -> printable c) (candidates d) ->
  lenZ (filter announced (candidates d)) <= ICE_MAX_CANDIDATES_COUNT ->
  text_lines (sdp_text d) [] ice_description_zero = Some (parsed_lite d, 0).
Proof.
  intros Hl Hcs Hn. unfold sdp_text, head_text. rewrite Hl.
  rewrite <- (app_nil_r (options_text d)), <- !app_assoc.
  erewrite text_lines_line; [| |reflexivity|done].
  - rewrite parse_candidates by done. rewrite parse_options. cbn [text_lines].
    do 2 f_equal. unfold parsed_lite. by destruct (finished d).
  - split; [done|]. split; [done|]. split; by repeat constructor.
Qed.

Lemma sdp_text_nul_free d :
  word 256 (ice_ufrag d) -> word 256 (ice_pwd d) -> Forall candidate_ok (candidates d) -> nul_free (sdp_text d).
Proof.
  intros Hu Hp Hok. unfold sdp_text, head_text, credentials_text, options_text.
  destruct (word_line _ _ Hu) as [_ Hu2]. destruct (word_line _ _ Hp) as [_ Hp2].
  apply Forall_app_2; [|apply Forall_app_2].
  - destruct (ice_lite d); repeat first [assumption | by apply lit_nul_free | by repeat constructor | apply Forall_app_2].
  - clear - Hok. induction Hok as [|c cs Hc Hcs IH]; cbn; [constructor|]. apply Forall_app_2; [|done].
    case_decide; [|constructor]. apply Forall_app_2; [by apply candidate_line_cstring|by repeat constructor].
  - destruct (finished d); by repeat first [by apply lit_nul_free | by repeat constructor | apply Forall_app_2].
Qed.

(** With room for it, the buffer holds the whole text. *)
Lemma generated_text d tmp mem buffer size :
  word 256 (ice_ufrag d) -> word 256 (ice_pwd d) -> Forall candidate_ok (candidates d) ->
  lenZ tmp = BUFFER_SIZE -> 0 <= buffer -> lenZ (sdp_text d) < size -> buffer + size <= lenZ mem ->
  exists mem', ice_generate_sdp d tmp mem buffer size = Some (mem', lenZ (sdp_text d)) /\
    cstr (drop (Z.to_nat buffer) mem') = sdp_text d.
Proof.
  intros Hu Hp Hok Htmp Hb Hs Hm. pose proof (lenZ_nonneg (sdp_text d)).
  destruct (generate_sdp_spec d tmp mem buffer size) as (mem' & begin & Hgen & Hw);
    [done|done|apply Hu|apply Hp|done|lia|done|].
  exists mem'. split; [done|]. destruct Hw as (_ & tail & -> & _ & Hz).
  specialize (Hz (sdp_text_nonempty d) ltac:(lia)). destruct tail as [|z tail]; [done|]. injection Hz as ->.
  rewrite drop_app_length', take_ge; [|unfold lenZ in *; lia|rewrite length_take; unfold lenZ in *; lia].
  apply cstr_app_nul, sdp_text_nul_free; done.
Qed.

(** C9: what the generator stores for a full agent with printable credentials
    and candidates, in a buffer with room, the parser reads back without error:
    the same credentials and end-of-candidates flag, and the announced
    candidates, resolved from their printed addresses, sorted by priority.  [line]
    is what the parser's buffer holds at first. *)
Theorem ice_sdp_roundtrip d tmp mem buffer size line :
  ice_lite d = false -> word 256 (ice_ufrag d) -> word 256 (ice_pwd d) ->
  Forall candidate_ok (candidates d) -> Forall (fun c => announced c -> printable c) (candidates d) ->
  lenZ (filter announced (candidates d)) <= ICE_MAX_CANDIDATES_COUNT ->
  lenZ tmp = BUFFER_SIZE -> 0 <= buffer -> lenZ (sdp_text d) < size -> buffer + size <= lenZ mem ->
  lenZ line = BUFFER_SIZE ->
  exists mem' l,
    ice_generate_sdp d tmp mem buffer size = Some (mem', lenZ (sdp_text d)) /\
    ice_parse_sdp line (cstr (drop (Z.to_nat buffer) mem')) = Some (d <| candidates := l |>, 0) /\
    stable_sort_of (map received (filter announced (candidates d))) l.
Proof.
  intros Hl Hu Hp Hok Hcs Hn Htmp Hb Hs Hm Hline.
  destruct (generated_text d tmp mem buffer size) as (mem' & Hgen & Htext); try done.
  pose proof (parse_sdp_text d Hl Hu Hp Hcs Hn) as Hparse.
  destruct (sort_candidates_spec (d <| candidates := map received (filter announced (candidates d)) |>))
    as (l & Hsort & Hstable).
  exists mem', l. split; [done|]. split; [|exact Hstable]. rewrite Htext.
  unfold ice_parse_sdp. rewrite parse_sdp_lines by done. rewrite Hparse. cbn [Z.eqb ICE_PARSE_ERROR]. rewrite Hsort.
  destruct Hu as [Hu _], Hp as [Hp _]. cbn. by rewrite !bool_decide_false by done.
Qed.

(** The generated text of a lite agent has no user fragment: its flag was
    written over the line of the credentials. *)
Lemma ice_lite_sdp_rejected d tmp mem buffer size line :
  ice_lite d = true -> word 256 (ice_ufrag d) -> word 256 (ice_pwd d) ->
  Forall candidate_ok (candidates d) -> Forall (fun c => announced c -> printable c) (candidates d) ->
  lenZ (filter announced (candidates d)) <= ICE_MAX_CANDIDATES_COUNT ->
  lenZ tmp = BUFFER_SIZE -> 0 <= buffer -> lenZ (sdp_text d) < size -> buffer + size <= lenZ mem ->
  lenZ line = BUFFER_SIZE ->
  exists mem' d',
    ice_generate_sdp d tmp mem buffer size = Some (mem', lenZ (sdp_text d)) /\
    ice_parse_sdp line (cstr (drop (Z.to_nat buffer) mem')) = Some (d', ICE_PARSE_MISSING_UFRAG).
Proof.
  intros Hl Hu Hp Hok Hcs Hn Htmp Hb Hs Hm Hline.
  destruct (generated_text d tmp mem buffer size) as (mem' & Hgen & Htext); try done.
  destruct (sort_candidates_spec (parsed_lite d)) as (l & Hsort & _).
  exists mem', (parsed_lite d <| candidates := l |>). split; [done|]. rewrite Htext.
  unfold ice_parse_sdp. rewrite parse_sdp_lines by done. rewrite parse_sdp_text_lite by done. cbn [Z.eqb ICE_PARSE_ERROR]. by rewrite Hsort.
Qed.

End Roundtrip.
