(* ===== verification/IceLocal.v ===== *)
(** * Local credentials and candidates, as the peer receives them

    With the theorems on candidates and descriptions at concrete inputs. *)

From Stdlib Require Import Strings.String.
From S2P Require Import Prelude Base64 CStdio Addr Ice IceSort IceWf IceGenerate IceRoundtrip.

(** ** Credentials *)
Lemma tab64_valid i : 0 <= i < 64 ->
  isalpha (tab64 i) || isdigit (tab64 i) || (tab64 i =? 43) || (tab64 i =? 47) = true.
Proof.
  intros Hi.
  assert (Hall : forallb (fun n => let c := tab64 (Z.of_nat n) in
    isalpha c || isdigit c || (c =? 43) || (c =? 47)) (seq 0 64) = true) by (vm_compute; done).
  rewrite forallb_forall in Hall. specialize (Hall (Z.to_nat i)). cbv zeta in Hall.
  rewrite Z2Nat.id in Hall by lia. apply Hall, in_seq. lia.
Qed.

Lemma low_bits_range b : 0 <= Z.land b 63 < 64.
Proof. rewrite (land_ones_mod 6) by lia. by apply Z.mod_pos_bound. Qed.

Lemma length_random_str64 draws n : 0 < n -> n - 1 <= lenZ draws -> lenZ (juice_random_str64 draws n) = n - 1.
Proof. intros. unfold juice_random_str64, lenZ in *. rewrite length_map, length_take. lia. Qed.

Lemma random_str64_valid draws n : ice_is_valid_string (Some (juice_random_str64 draws n)) = true.
Proof.
  unfold juice_random_str64. apply forallb_forall. intros c Hc. apply in_map_iff in Hc as (b & <- & _).
  apply tab64_valid, low_bits_range.
Qed.

Lemma random_str64_word draws n m : 1 < n -> n - 1 <= lenZ draws -> n - 1 <= m -> word m (juice_random_str64 draws n).
Proof.
  intros Hn Hd Hm. pose proof (length_random_str64 draws n ltac:(lia) Hd) as Hl. split_and!.
  - intros E. rewrite E in Hl. change (lenZ []) with 0 in Hl. lia.
  - lia.
  - unfold juice_random_str64. apply List.Forall_forall. intros c Hc. apply in_map_iff in Hc as (b & <- & _).
    destruct (base64_value_tab (Z.land b 63) (low_bits_range b)) as (_ & ? & _ & ?). done.
Qed.

(** The credential shows six bits of every byte that was drawn, and no less. *)
Lemma random_str64_bits draws draws' n :
  juice_random_str64 draws n = juice_random_str64 draws' n <->
  map (fun b => Z.land b 63) (take (Z.to_nat (n - 1)) draws) = map (fun b => Z.land b 63) (take (Z.to_nat (n - 1)) draws').
Proof.
  unfold juice_random_str64. rewrite <- !(map_map (fun b => Z.land b 63) tab64).
  split; [|by intros ->]. intros E. apply (f_equal (map base64_value)) in E. rewrite !map_map in E.
  assert (Hv : forall l, map (fun b => base64_value (tab64 (Z.land b 63))) l = map Some (map (fun b => Z.land b 63) l)).
  { intros l. rewrite map_map. apply map_ext. intros b.
    by destruct (base64_value_tab (Z.land b 63) (low_bits_range b)) as (-> & _). }
  rewrite !Hv in E. by apply (inj (fmap Some)) in E.
Qed.

(** A fresh local description has a valid user fragment of 4 and password of
    22 characters, no candidates, and is well-formed; two drawings give the same
    credentials exactly when their bytes agree on the low six bits. *)
Theorem ice_create_local_description_valid draws draws' :
  lenZ draws = 26 -> lenZ draws' = 26 ->
  let '(d, ret) := ice_create_local_description draws in
  ret = 0 /\ description_ok d /\ candidates d = [] /\ ice_lite d = false /\ finished d = false /\
  lenZ (ice_ufrag d) = 4 /\ lenZ (ice_pwd d) = 22 /\
  ice_is_valid_string (Some (ice_ufrag d)) = true /\ ice_is_valid_string (Some (ice_pwd d)) = true /\
  word 256 (ice_ufrag d) /\ word 256 (ice_pwd d) /\
  (ice_ufrag d = ice_ufrag (fst (ice_create_local_description draws')) /\
   ice_pwd d = ice_pwd (fst (ice_create_local_description draws')) <->
   map (fun b => Z.land b 63) draws = map (fun b => Z.land b 63) draws').
Proof.
  intros Hl Hl'. unfold ice_create_local_description.
  assert (lenZ (drop 4 draws) = 22) as Hd by (rewrite lenZ_drop; lia).
  cbn [upd updater ice_ufrag ice_pwd candidates ice_lite finished fst ice_description_zero].
  pose proof (random_str64_word draws (4 + 1) 256 ltac:(lia) ltac:(lia) ltac:(lia)) as Hu.
  pose proof (random_str64_word (drop 4 draws) (22 + 1) 256 ltac:(lia) ltac:(lia) ltac:(lia)) as Hp.
  split_and!; try done.
  - split; [by apply word_cstring|by apply word_cstring|split; discriminate|constructor].
  - by apply length_random_str64; lia.
  - by apply length_random_str64; lia.
  - apply random_str64_valid.
  - apply random_str64_valid.
  - rewrite !random_str64_bits. change (Z.to_nat (4 + 1 - 1)) with 4%nat. change (Z.to_nat (22 + 1 - 1)) with 22%nat.
    rewrite !(take_ge (drop 4 _)) by (rewrite length_drop; unfold lenZ in *; lia).
    rewrite <- (take_drop 4 draws) at 3. rewrite <- (take_drop 4 draws') at 3. rewrite !map_app.
    split; [by intros [-> ->]|]. intros E. apply app_inj_1 in E; [done|].
    rewrite !length_map, !length_take. unfold lenZ in *. lia.
Qed.

Section Local.
Context `{Platform, Scan, Resolver}.

(** The numeric texts of an address name it again. *)
Definition named (record : addr_record) (host serv : list Z) : Prop :=
  getnameinfo record = Some (host, serv) /\ word 256 host /\ word 32 serv /\
  getaddrinfo true host serv = Some [record].

Lemma print_u_word z : word 32 (print_u z).
Proof.
  destruct (print_u_head z) as (c & w & E & _). destruct (print_u_length z). split; [by rewrite E|].
  split; [unfold lenZ; lia|]. apply (list.Forall_impl _ _ _ (print_u_digits z)). intros x Hx.
  split; [|by intros ->]. unfold isdigit, isspace in *. zify_bool.
  apply orb_false_iff. split; [apply andb_false_iff; right; apply Z.leb_gt|apply Z.eqb_neq]; lia.
Qed.

(** The candidate of a local address once it is the [n]th of its description. *)
Definition numbered (t : ice_candidate_type) (comp p n : Z) (host serv : list Z) (record : addr_record) : ice_candidate :=
  mkCandidate t p comp (print_u n) [] host serv record.

Lemma print_u_numbered n : print_u n <> lit "-".
Proof. intros E. pose proof (print_u_digits n) as Hd. rewrite E in Hd. apply Forall_cons_1 in Hd as [Hd _]. discriminate. Qed.

Lemma announced_type t : announced (ice_candidate_zero <| type := t |>) ->
  t <> ICE_CANDIDATE_TYPE_UNKNOWN /\ t <> ICE_CANDIDATE_TYPE_PEER_REFLEXIVE.
Proof. done. Qed.

Section Numbered.
Context (t : ice_candidate_type) (comp p n : Z) (host serv : list Z) (record : addr_record).
Context (Ht : announced (ice_candidate_zero <| type := t |>)) (Hc : 0 <= comp < 2 ^ 31) (Hp : 0 <= p < 2 ^ 32).
Context (Hn : named record host serv).

Lemma numbered_ok : candidate_ok (numbered t comp p n host serv record).
Proof using Ht Hc Hp Hn.
  destruct Hn as (_ & Hh & Hs & _). split.
  - apply Ht.
  - exact Hp.
  - change (- 2 ^ 31 <= comp < 2 ^ 31). lia.
  - apply (word_cstring 32), print_u_word.
  - by apply cstring_nil.
  - by apply word_cstring.
  - by apply word_cstring.
Qed.

Lemma numbered_printable : printable (numbered t comp p n host serv record).
Proof using Ht Hc Hp Hn.
  destruct Hn as (_ & Hh & Hs & _).
  split; [apply Ht|apply print_u_word|apply print_u_numbered|exact Hc|exact Hp|exact Hh|exact Hs].
Qed.

Lemma numbered_received : known_family (sa_family (addr record)) ->
  received (numbered t comp p n host serv record) = numbered t comp p n host serv record.
Proof using Hn.
  intros Hf. destruct Hn as (_ & _ & _ & Hg). unfold received, ice_resolve_candidate, numbered.
  cbn [upd updater hostname service]. rewrite Hg. cbn [first_inet].
  assert ((sa_family (addr record) =? AF_INET) || (sa_family (addr record) =? AF_INET6) = true) as ->.
  { destruct Hf as [-> | ->]; rewrite Z.eqb_refl; auto using orb_true_r. }
  reflexivity.
Qed.
End Numbered.

(** a candidate made for a local address and added to a description that is
    not full is well-formed and printable, and what the peer's parser makes of
    its line is the same candidate: type, priority, component, foundation, names
    and the same address. *)
Theorem ice_local_candidate_received t comp index record host serv d c0 :
  announced (ice_candidate_zero <| type := t |>) -> 0 <= comp < 2 ^ 31 ->
  known_family (sa_family (addr record)) -> named record host serv ->
  0 <= candidates_count d < ICE_MAX_CANDIDATES_COUNT ->
  exists c c', ice_create_local_candidate t comp index record = (c, 0) /\
    ice_add_candidate c d = (c', d <| candidates ::= fun l => l ++ [c'] |>, 0) /\
    candidate_ok c' /\ printable c' /\
    priority c' = ice_compute_priority t (sa_family (addr record)) comp index /\
    ice_parse_candidate_sdp (candidate_line c') c0 = Some (c', 0).
Proof.
  intros Ht Hc Hf Hn Hd.
  pose proof (compute_priority_range t _ comp index Hf) as Hp.
  assert (0 <= ice_compute_priority t (sa_family (addr record)) comp index < 2 ^ 32) as Hp' by lia.
  pose proof (numbered_printable t comp _ (candidates_count d + 1) host serv record Ht Hc Hp' Hn) as Hpr.
  pose proof (numbered_ok t comp _ (candidates_count d + 1) host serv record Ht Hc Hp' Hn) as Hok.
  pose proof (numbered_received t comp (ice_compute_priority t (sa_family (addr record)) comp index)
    (candidates_count d + 1) host serv record Hn Hf) as Hrec.
  set (c' := numbered _ _ _ _ _ _ _) in *.
  exists (c' <| foundation := lit "-" |>), c'. split_and!; [| |exact Hok|exact Hpr|reflexivity|].
  - unfold ice_create_local_candidate. by rewrite (proj1 Hn).
  - unfold ice_add_candidate. rewrite bool_decide_false by apply Ht. rewrite (proj2 (Z.leb_gt _ _)) by lia.
    rewrite bool_decide_true by reflexivity. rewrite (take_ge (print_u _)); [reflexivity|].
    destruct (print_u_length (candidates_count d + 1)). lia.
  - rewrite parse_candidate_line by exact Hpr. by rewrite Hrec.
Qed.

End Local.

(** ** Concrete candidates and descriptions *)
#[local] Existing Instances lwip newlib.

(** One host on the local network, whose numeric names a resolver knows. *)
Definition host_record : addr_record :=
  mkRecord (sockaddr_in (htons 4000) [192; 168; 1; 7]) 16.

#[local] Instance one_host : Resolver := {|
  getaddrinfo _ host serv :=
    if bool_decide (host = lit "192.168.1.7" /\ serv = lit "4000") then Some [host_record] else None;
  getnameinfo record :=
    if bool_decide (record = host_record) then Some (lit "192.168.1.7", lit "4000") else None
|}.

Definition host_candidate : ice_candidate :=
  mkCandidate ICE_CANDIDATE_TYPE_HOST 2122317823 1 (lit "1") [] (lit "192.168.1.7") (lit "4000") host_record.
Definition relayed_candidate : ice_candidate :=
  mkCandidate ICE_CANDIDATE_TYPE_RELAYED 8388351 1 (lit "2") [] (lit "203.0.113.9") (lit "50000")
    (mkRecord (sockaddr_in (htons 50000) [203; 0; 113; 9]) 16).

Definition example_description : ice_description :=
  mkDescription (lit "abcd") (lit "0123456789abcdefghijkl") false [relayed_candidate; host_candidate] true.

(** *** Side conditions by computation *)
Definition wordb (n : Z) (s : list Z) : bool :=
  negb (lenZ s =? 0) && (lenZ s <=? n) && forallb (fun c => negb (isspace c) && negb (c =? 0)) s.

Lemma wordb_word n s : wordb n s = true -> word n s.
Proof.
  unfold wordb. intros Hb. zify_bool. split_and!; [by intros ->|done|].
  apply List.Forall_forall. rewrite forallb_forall in *.
  intros c Hc. match goal with Hf : forall x, _ |- _ => specialize (Hf c Hc) end. by zify_bool.
Qed.

Ltac words := apply wordb_word; reflexivity.
Lemma example_candidates_ok : Forall candidate_ok (candidates example_description).
Proof. repeat constructor; try done; apply nul_free_bool; reflexivity. Qed.

Lemma example_printable : Forall (fun c => announced c -> printable c) (candidates example_description).
Proof.
  repeat (apply Forall_cons_2; [intros Ha; split; [exact Ha|words|discriminate|split; [discriminate|reflexivity]..|words|words]|]).
  apply Forall_nil_2.
Qed.

Lemma ice_sdp_roundtrip_witness :
  exists mem' l,
    ice_generate_sdp example_description (replicate 1024 170) (replicate 400 170) 5 300 =
      Some (mem', lenZ (sdp_text example_description)) /\
    ice_parse_sdp (replicate 1024 170) (cstr (drop (Z.to_nat 5) mem')) = Some (example_description <| candidates := l |>, 0) /\
    stable_sort_of (map received (filter announced (candidates example_description))) l.
Proof.
  apply (ice_sdp_roundtrip example_description (replicate 1024 170) (replicate 400 170) 5 300 (replicate 1024 170)).
  - reflexivity.
  - words.
  - words.
  - exact example_candidates_ok.
  - exact example_printable.
  - vm_compute; discriminate.
  - reflexivity.
  - lia.
  - vm_compute; reflexivity.
  - vm_compute; discriminate.
  - reflexivity.
Defined.

Lemma ice_generate_sdp_bounded_witness :
  exists mem', ice_generate_sdp example_description (replicate 1024 170) (replicate 100 170) 5 60 =
      Some (mem', lenZ (sdp_text example_description)) /\
    lenZ mem' = lenZ (replicate 100 170) /\
    take (Z.to_nat 5) mem' = take (Z.to_nat 5) (replicate 100 170) /\
    drop (Z.to_nat (5 + 60)) mem' = drop (Z.to_nat (5 + 60)) (replicate 100 170) /\
    (0 < 60 -> exists rest, drop (Z.to_nat 5) mem' = take (Z.to_nat (60 - 1)) (sdp_text example_description) ++ 0 :: rest).
Proof.
  apply (ice_generate_sdp_bounded example_description (replicate 1024 170) (replicate 100 170) 5 60).
  - exact example_candidates_ok.
  - reflexivity.
  - discriminate.
  - discriminate.
  - lia.
  - lia.
  - vm_compute; discriminate.
Defined.

Lemma ice_parse_sdp_well_formed_witness :
  exists d ret, ice_parse_sdp (replicate 1024 170) (sdp_text example_description) = Some (d, ret) /\ description_ok d /\
    by_priority (candidates d) /\
    ret = (if bool_decide (ice_ufrag d = []) then ICE_PARSE_MISSING_UFRAG
           else if bool_decide (ice_pwd d = []) then ICE_PARSE_MISSING_PWD else 0).
Proof. apply (ice_parse_sdp_well_formed (replicate 1024 170) (sdp_text example_description)); [reflexivity|]. apply nul_free_bool. vm_compute. reflexivity. Defined.

Lemma ice_compute_priority_order_witness :
  (ice_compute_priority ICE_CANDIDATE_TYPE_HOST AF_INET 1 3 = ice_compute_priority ICE_CANDIDATE_TYPE_RELAYED AF_INET6 1 0 ->
   ICE_CANDIDATE_TYPE_HOST = ICE_CANDIDATE_TYPE_RELAYED /\ AF_INET = AF_INET6 /\ 1 = 1 /\ 3 = 0) /\
  (type_preference ICE_CANDIDATE_TYPE_RELAYED < type_preference ICE_CANDIDATE_TYPE_HOST ->
   ice_compute_priority ICE_CANDIDATE_TYPE_RELAYED AF_INET6 1 0 < ice_compute_priority ICE_CANDIDATE_TYPE_HOST AF_INET 1 3).
Proof.
  apply (ice_compute_priority_order ICE_CANDIDATE_TYPE_HOST AF_INET 1 3 ICE_CANDIDATE_TYPE_RELAYED AF_INET6 1 0);
    try discriminate; try lia; [by left|by right].
Defined.

Lemma ice_pair_priority_agreed_witness :
  exists p p',
    ice_create_candidate_pair (Some host_candidate) (Some relayed_candidate) true ice_candidate_pair_zero = (p, 0) /\
    ice_create_candidate_pair (Some relayed_candidate) (Some host_candidate) false ice_candidate_pair_zero = (p', 0) /\
    pair_priority p = rfc_pair_priority (priority host_candidate) (priority relayed_candidate) /\
    pair_priority p' = pair_priority p /\
    0 <= pair_priority p < 2 ^ 64 /\
    pair_state p = ICE_CANDIDATE_PAIR_STATE_FROZEN /\ nominated p = false.
Proof.
  apply (ice_pair_priority_agreed host_candidate relayed_candidate ice_candidate_pair_zero ice_candidate_pair_zero);
    [reflexivity|split; [discriminate|reflexivity]..].
Defined.

Lemma ice_local_candidate_received_witness :
  exists c c', ice_create_local_candidate ICE_CANDIDATE_TYPE_HOST 1 0 host_record = (c, 0) /\
    ice_add_candidate c example_description = (c', example_description <| candidates ::= fun l => l ++ [c'] |>, 0) /\
    candidate_ok c' /\ printable c' /\
    priority c' = ice_compute_priority ICE_CANDIDATE_TYPE_HOST (sa_family (addr host_record)) 1 0 /\
    ice_parse_candidate_sdp (candidate_line c') ice_candidate_zero = Some (c', 0).
Proof.
  apply (ice_local_candidate_received ICE_CANDIDATE_TYPE_HOST 1 0 host_record (lit "192.168.1.7") (lit "4000")
    example_description ice_candidate_zero).
  - split; discriminate.
  - lia.
  - by left.
  - split; [reflexivity|split; [words|split; [words|reflexivity]]].
  - vm_compute. split; [discriminate|reflexivity].
Defined.

(** The lite flag costs the credentials, and the last line of a text without a
    final newline is not read. *)
Example lite_description_example :
  (fun r => option_map snd r) (ice_parse_sdp (replicate 1024 170) (sdp_text (example_description <| ice_lite := true |>))) =
  Some ICE_PARSE_MISSING_UFRAG.
Proof. vm_compute. reflexivity. Qed.

Example last_line_example :
  option_map snd (ice_parse_sdp (replicate 1024 170) (lit "a=ice-ufrag:abcd" ++ crlf ++ lit "a=ice-pwd:0123456789abcdefghijkl")) =
  Some ICE_PARSE_MISSING_PWD.
Proof. vm_compute. reflexivity. Qed.
