(* ===== verification/Server.v ===== *)
(** * server.c: the STUN and TURN server

    The allocations are the array of the used [allocs_count] elements; a pointer
    to one is its index.  Credentials are the nodes of the list, each with the
    identity of its memory; a pointer to freed credentials names no node, and
    following it is undefined behaviour ([None]).  What the server asks of its
    environment - the clock, random bytes, sockets, the contents of an array
    that is not initialised - is a function of the number of questions asked
    before; the datagrams it sends and the sockets it closes are its events.
    Mutexes, the polling loop's system calls and log output are left out. *)

From Stdlib Require Import Strings.String.
From S2P Require Import Prelude Machine ConstTime Base64 CStdio Addr.
From S2P Require Import StunMsg StunWrite StunRead Turn.

(** ** server.h and juice.h *)
Definition SERVER_DEFAULT_REALM : list Z := lit "libjuice".
Definition SERVER_DEFAULT_MAX_ALLOCATIONS : Z := 1000.
Definition SERVER_DEFAULT_MAX_PEERS : Z := 16.
Definition SERVER_NONCE_KEY_SIZE : Z := 32.
Definition SERVER_NONCE_KEY_LIFETIME : Z := 600 * 1000.
Definition ALLOCATION_LIFETIME : Z := 600000.
Definition PERMISSION_LIFETIME : Z := 300000.
Definition BIND_LIFETIME : Z := 600000.
Definition MAX_RELAYED_RECORDS_COUNT : Z := 8.
Definition BUFFER_SIZE : Z := 4096.

Inductive server_turn_alloc_state : Type :=
| SERVER_TURN_ALLOC_EMPTY
| SERVER_TURN_ALLOC_DELETED
| SERVER_TURN_ALLOC_FULL.

#[export] Instance alloc_state_eq_dec : EqDecision server_turn_alloc_state.
Proof. solve_decision. Defined.

Record server_turn_alloc := mkAlloc {
  alloc_state : server_turn_alloc_state;
  alloc_record : addr_record;
  alloc_credentials : option nat;
  alloc_transaction_id : list Z;
  alloc_timestamp : Z;
  alloc_sock : option Z;
  alloc_map : turn_map
}.

(** [juice_server_credentials_t]. *)
Record server_credentials := mkServerCredentials {
  cr_username : list Z;
  cr_password : list Z;
  allocations_quota : Z
}.

Record credentials_node := mkNode {
  node_id : nat;
  node_credentials : server_credentials;
  node_userhash : list Z;
  node_timestamp : Z
}.

(** [juice_server_config_t], without the addresses only passed to sockets. *)
Record server_config := mkConfig {
  max_allocations : Z;
  max_peers : Z;
  external_address : option (list Z);
  config_realm : list Z
}.

(** [next_id] is the identity of the next node that is allocated. *)
Record juice_server := mkServer {
  config : server_config;
  server_credentials_list : list credentials_node;
  nonce_key : list Z;
  nonce_key_timestamp : Z;
  server_sock : Z;
  allocs : list server_turn_alloc;
  next_id : nat
}.

Definition allocs_count (s : juice_server) : Z := lenZ (allocs s).

Inductive event : Type :=
| Sent (sock : Z) (dst : addr_record) (data : list Z)
| Closed (sock : Z).

(** The server, the number of questions asked, and the events, the last first. *)
Abbreviation machine := (process juice_server event).
Abbreviation server := (memory (S := juice_server) (E := event)).
Abbreviation M := (prog juice_server event).

#[export] Instance server_turn_alloc_expand : Expand server_turn_alloc := fun a =>
  mkAlloc (alloc_state a) (alloc_record a) (alloc_credentials a) (alloc_transaction_id a) (alloc_timestamp a)
    (alloc_sock a) (alloc_map a).
#[export] Instance server_credentials_expand : Expand server_credentials := fun c =>
  mkServerCredentials (cr_username c) (cr_password c) (allocations_quota c).
#[export] Instance credentials_node_expand : Expand credentials_node := fun n =>
  mkNode (node_id n) (node_credentials n) (node_userhash n) (node_timestamp n).
#[export] Instance server_config_expand : Expand server_config := fun c =>
  mkConfig (max_allocations c) (max_peers c) (external_address c) (config_realm c).
#[export] Instance juice_server_expand : Expand juice_server := fun s =>
  mkServer (config s) (server_credentials_list s) (nonce_key s) (nonce_key_timestamp s) (server_sock s) (allocs s)
    (next_id s).

(** A zeroed element, and the map whose arrays are freed. *)
Definition destroyed_map : turn_map := mkMap [] [] [] 0.
Definition alloc_zero : server_turn_alloc :=
  mkAlloc SERVER_TURN_ALLOC_EMPTY addr_record_zero None (replicate 12 0) 0 (Some 0) destroyed_map.

(** ** The environment *)
Class Environment `{Platform} := {
  clock : nat -> Z;                                   (** [current_timestamp] *)
  random : nat -> Z -> list Z;                        (** [juice_random] of so many bytes *)
  stack : nat -> list Z;                              (** a [char buffer[BUFFER_SIZE]] *)
  sendto_result : nat -> Z;                           (** [udp_sendto] *)
  create_socket : nat -> option Z;                    (** [udp_create_socket] *)
  get_addrs : nat -> Z -> Z * list addr_record;       (** [udp_get_addrs]: count, records *)
  resolve : nat -> list Z -> Z -> option (list addr_record);  (** [getaddrinfo] for a name and a socket's port *)
  sockaddr_image : addr_record -> list Z;             (** the bytes of the [sockaddr] *)
  uninitialised : nat -> list Z;                      (** two bytes never assigned *)
  random_bytes n k : 0 <= k -> lenZ (random n k) = k /\ bytes_ok (random n k);
  stack_bytes n : lenZ (stack n) = BUFFER_SIZE /\ bytes_ok (stack n);
  get_addrs_count n s : lenZ (get_addrs n s).2 = Z.max 0 (Z.min (get_addrs n s).1 MAX_RELAYED_RECORDS_COUNT);
  get_addrs_wf n s : Forall (fun r => sockaddr_wf (addr r)) (get_addrs n s).2;
  resolve_wf n name s : Forall (fun r => sockaddr_wf (addr r)) (default [] (resolve n name s));
  uninitialised_length n : lenZ (uninitialised n) = 2;
  uninitialised_bytes n : bytes_ok (uninitialised n)
}.

#[local] Open Scope machine_scope.

Section Server.
Context `{Platform, Hashes, Environment}.

(** *** Allocations *)

(** The loop of [find_allocation] from [pos], until it is back at [key]. *)
Fixpoint find_allocation_loop (fuel : nat) (l : list server_turn_alloc) (record : addr_record) (allow_deleted : bool)
    (key pos : Z) : option (option nat) :=
  match fuel with
  | O => None
  | S fuel' =>
    let? a := l !! Z.to_nat pos in
    if bool_decide (alloc_state a = SERVER_TURN_ALLOC_EMPTY) ||
       (allow_deleted && bool_decide (alloc_state a = SERVER_TURN_ALLOC_DELETED)) ||
       addr_record_is_equal (alloc_record a) record true
    then Some (Some (Z.to_nat pos))
    else
      let pos := u32 (pos + 1) `mod` lenZ l in
      if pos =? key then Some None else find_allocation_loop fuel' l record allow_deleted key pos
  end.

(** [find_allocation]: [Some None] is the NULL of a full table; a remainder by a
    size of zero is undefined. *)
Definition find_allocation (l : list server_turn_alloc) (record : addr_record) (allow_deleted : bool)
    : option (option nat) :=
  if lenZ l =? 0 then None
  else
    let key := addr_record_hash record true `mod` lenZ l in
    find_allocation_loop (length l) l record allow_deleted key key.

Definition get_alloc (i : nat) : M server_turn_alloc :=
  let* l := gets allocs in defined (l !! i).
Definition set_alloc (i : nat) (a : server_turn_alloc) : M unit :=
  modify (fun s => s <| allocs ::= fun l => <[i := a]> l |>).

Definition is_full (a : server_turn_alloc) : bool := bool_decide (alloc_state a = SERVER_TURN_ALLOC_FULL).

(** The node that a pointer to credentials points into. *)
Definition node_at (id : nat) (l : list credentials_node) : option credentials_node :=
  snd <$> list_find (fun n => node_id n = id) l.

Definition deref (id : nat) : M server_credentials :=
  let* l := gets server_credentials_list in
  let* n := defined (node_at id l) in
  ret (node_credentials n).

Definition add_quota (delta : Z) (id : nat) (n : credentials_node) : credentials_node :=
  if (node_id n =? id)%nat then n <| node_credentials ::= fun c => c <| allocations_quota ::= Z.add delta |> |> else n.

(** [allocations_quota += delta] through the pointer [id]. *)
Definition change_quota (id : nat) (delta : Z) : M unit :=
  deref id ;;
  modify (fun s => s <| server_credentials_list ::= map (add_quota delta id) |>).

(** What [delete_allocation] leaves of a full element. *)
Definition deleted (a : server_turn_alloc) : server_turn_alloc :=
  a <| alloc_state := SERVER_TURN_ALLOC_DELETED |> <| alloc_map := destroyed_map |>
    <| alloc_sock := None |> <| alloc_credentials := None |>.

Definition delete_allocation (i : nat) : M unit :=
  let* a := get_alloc i in
  if negb (is_full a) then ret tt
  else
    let* id := defined (alloc_credentials a) in
    change_quota id 1 ;;
    let* sock := defined (alloc_sock a) in
    emit (Closed sock) ;;
    set_alloc i (deleted a).

(** *** Sending *)
Definition udp_sendto (sock : Z) (data : list Z) (dst : addr_record) : M Z :=
  emit (Sent sock dst data) ;; ask sendto_result.

Definition server_send (dst : addr_record) (data : list Z) : M Z :=
  let* sock := gets server_sock in udp_sendto sock data dst.

Definition server_stun_send (dst : addr_record) (msg : stun_message) (password : option (list Z)) : M Z :=
  let* buffer := ask stack in
  let* rest := ask uninitialised in
  let* (buffer, size) := defined (stun_write BUFFER_SIZE msg password rest buffer) in
  if size <=? 0 then ret (-1)
  else
    let* data := defined (load 0 size buffer) in
    let* sent := server_send dst data in
    if sent <? 0 then ret (-1) else ret 0.

(** *** Answers *)
Definition url64 (i : Z) : Z := nth (Z.to_nat i) (take 62 base64_tab ++ [45; 95]) 0.

(** [server_get_nonce]: the string it leaves in [nonce]. *)
Definition server_get_nonce (src : addr_record) : M (list Z) :=
  let* now := ask clock in
  let* expiry := gets nonce_key_timestamp in
  (if expiry <=? now then
     let* key := ask (fun n => random n SERVER_NONCE_KEY_SIZE) in
     modify (fun s => s <| nonce_key := key |> <| nonce_key_timestamp := now + SERVER_NONCE_KEY_LIFETIME |>)
   else ret tt) ;;
  let* key := gets nonce_key in
  let digest := hmac_sha256 (sockaddr_image src) key in
  ret (stun_prepend_nonce_cookie (map (fun d => url64 (d `mod` 64)) digest)).

Definition server_prepare_credentials (src : addr_record) (creds : option server_credentials) (msg : stun_message)
    : M stun_message :=
  let* realm_ := gets (fun s => config_realm (config s)) in
  let* nonce_ := server_get_nonce src in
  let msg := msg <| credentials ::= fun c => c <| realm := snprintf_clip STUN_MAX_REALM_LEN realm_ |>
                                               <| nonce := nonce_ |> |> in
  ret (match creds with
       | Some cr => msg <| credentials ::= fun c => c <| username := snprintf_clip STUN_MAX_USERNAME_LEN (cr_username cr) |> |>
       | None => msg
       end).

Definition server_answer_stun_binding (tid : list Z) (src : addr_record) : M Z :=
  let ans := stun_message_zero <| msg_class := STUN_CLASS_RESP_SUCCESS |> <| msg_method := STUN_METHOD_BINDING |>
               <| mapped := src |> <| transaction_id := tid |> in
  server_stun_send src ans None.

Definition server_answer_stun_error (tid : list Z) (src : addr_record) (method code : Z)
    (creds : option server_credentials) : M Z :=
  let ans := stun_message_zero <| msg_class := STUN_CLASS_RESP_ERROR |> <| msg_method := method |>
               <| error_code := code |> <| transaction_id := tid |> in
  let* ans := (if negb (method =? STUN_METHOD_BINDING) then server_prepare_credentials src creds ans else ret ans) in
  server_stun_send src ans (cr_password <$> creds).

Definition server_process_stun_binding (msg : stun_message) (src : addr_record) : M Z :=
  server_answer_stun_binding (transaction_id msg) src.

(** *** Allocate and Refresh *)

(** The loop that chooses the advertised address. *)
Fixpoint pick_relayed (records : list addr_record) (relayed : option addr_record) : option addr_record :=
  match records with
  | [] => relayed
  | record :: records' =>
    if (sa_family (addr record) =? AF_INET) || bool_decide (relayed = None) then
      if sa_family (addr record) =? AF_INET then Some record else pick_relayed records' (Some record)
    else pick_relayed records' relayed
  end.

(** The relayed address for the socket of an allocation; [None] is the error. *)
Definition find_relayed (sock : Z) : M (option addr_record) :=
  let* external := gets (fun s => external_address (config s)) in
  let* (count, records) :=
    match external with
    | Some name =>
      let* ai_list := ask (fun n => resolve n name sock) in
      ret (addr_resolve ai_list MAX_RELAYED_RECORDS_COUNT)
    | None => ask (fun n => get_addrs n sock)
    end in
  if count <=? 0 then ret None
  else
    let count := if count >? MAX_RELAYED_RECORDS_COUNT then MAX_RELAYED_RECORDS_COUNT else count in
    let* records := defined (load 0 count records) in
    ret (pick_relayed records None).

(** What to do with the element found: an error code and the result, or the
    allocation that now exists. *)
Definition open_allocation (msg : stun_message) (src : addr_record) (id : nat) (i : nat) : M (Z * Z + server_turn_alloc) :=
  let* a := get_alloc i in
  if is_full a then
    if (msg_method msg =? STUN_METHOD_ALLOCATE) && negb (bool_decide (alloc_transaction_id a = transaction_id msg))
    then ret (inl (437, 0))
    else if negb (bool_decide (alloc_credentials a = Some id)) then ret (inl (441, 0))
    else ret (inr a)
  else if msg_method msg =? STUN_METHOD_REFRESH then ret (inl (437, 0))
  else
    let* creds := deref id in
    if allocations_quota creds <=? 0 then ret (inl (486, 0))
    else
      let* sock := ask create_socket in
      match sock with
      | None => set_alloc i (a <| alloc_sock := None |>) ;; ret (inl (500, -1))
      | Some sock =>
        let* peers := gets (fun s => max_peers (config s)) in
        let a := a <| alloc_sock := Some sock |> <| alloc_map := turn_init_map peers |>
                   <| alloc_state := SERVER_TURN_ALLOC_FULL |> <| alloc_record := src |>
                   <| alloc_credentials := Some id |> in
        set_alloc i a ;;
        change_quota id (-1) ;;
        ret (inr a)
      end.

(** The success response, or the error path after an allocation. *)
Definition answer_allocation (msg : stun_message) (src : addr_record) (id : nat) (lifetime_ : Z)
    (relayed_ : option addr_record) : M Z :=
  let ans := stun_message_zero <| msg_class := STUN_CLASS_RESP_SUCCESS |> <| msg_method := msg_method msg |>
               <| lifetime := lifetime_ |> <| lifetime_set := true |> <| mapped := src |>
               <| transaction_id := transaction_id msg |> in
  let ans := match relayed_ with Some r => ans <| relayed := r |> | None => ans end in
  let* creds := deref id in
  let* ans := server_prepare_credentials src (Some creds) ans in
  server_stun_send src ans (Some (cr_password creds)).

Definition server_process_turn_allocate (msg : stun_message) (src : addr_record) (id : nat) : M Z :=
  if negb (msg_class msg =? STUN_CLASS_REQUEST) then ret (-1)
  else if negb (msg_method msg =? STUN_METHOD_ALLOCATE) && negb (msg_method msg =? STUN_METHOD_REFRESH) then ret (-1)
  else
    let answer_error code :=
      let* creds := deref id in
      server_answer_stun_error (transaction_id msg) src (msg_method msg) code (Some creds) in
    let* l := gets allocs in
    let* found := defined (find_allocation l src true) in
    match found with
    | None => answer_error 486
    | Some i =>
      let* opened := open_allocation msg src id i in
      match opened with
      | inl (code, result) =>
        let* sent := answer_error code in
        ret (if result <? 0 then result else sent)
      | inr a =>
        let lifetime_ := ALLOCATION_LIFETIME / 1000 in
        let lifetime_ := if lifetime_set msg && (lifetime msg <? lifetime_) then lifetime msg else lifetime_ in
        let* now := ask clock in
        set_alloc i (a <| alloc_timestamp := now + u32 (lifetime_ * 1000) |>
                       <| alloc_transaction_id := transaction_id msg |>) ;;
        if lifetime_ =? 0 then
          delete_allocation i ;;
          answer_allocation msg src id lifetime_ None
        else
          let* sock := defined (alloc_sock a) in
          let* relayed := find_relayed sock in
          match relayed with
          | Some r => answer_allocation msg src id lifetime_ (Some r)
          | None =>
            delete_allocation i ;;
            answer_error 500 ;;
            ret (-1)
          end
      end
    end.

(** *** Permissions and channels *)

(** The full allocation of a client, with the checks of the two requests that
    follow: an error code, or the element. *)
Definition own_allocation (src : addr_record) (id : nat) : M (Z + nat * server_turn_alloc) :=
  let* l := gets allocs in
  let* found := defined (find_allocation l src false) in
  match found with
  | None => ret (inl 437)
  | Some i =>
    let* a := get_alloc i in
    if negb (is_full a) then ret (inl 437)
    else if negb (bool_decide (alloc_credentials a = Some id)) then ret (inl 441)
    else ret (inr (i, a))
  end.

Definition set_map (i : nat) (m : turn_map) : M unit :=
  let* a := get_alloc i in set_alloc i (a <| alloc_map := m |>).

(** The success response of the two requests. *)
Definition answer_success (msg : stun_message) (src : addr_record) (method : Z) (creds : server_credentials) : M Z :=
  let ans := stun_message_zero <| msg_class := STUN_CLASS_RESP_SUCCESS |> <| msg_method := method |>
               <| transaction_id := transaction_id msg |> in
  let* ans := server_prepare_credentials src (Some creds) ans in
  server_stun_send src ans (Some (cr_password creds)).

(** [turn_set_permission] on the map of an allocation: the returned value. *)
Definition permit (i : nat) (tid : list Z) (peer : addr_record) : M bool :=
  let* a := get_alloc i in
  let* now := ask clock in
  let* (ok, m) := defined (turn_set_permission now (alloc_map a) tid (Some peer) PERMISSION_LIFETIME) in
  set_map i m ;; ret ok.

(** The loop over the peers: [false] when one cannot be set. *)
Fixpoint permit_all (i : nat) (tid : list Z) (ps : list addr_record) : M bool :=
  match ps with
  | [] => ret true
  | p :: ps' =>
    let* ok := permit i tid p in
    if negb ok then ret false else permit_all i tid ps'
  end.

Definition server_process_turn_create_permission (msg : stun_message) (src : addr_record) (id : nat) : M Z :=
  if negb (msg_class msg =? STUN_CLASS_REQUEST) then ret (-1)
  else
    let* creds := deref id in
    let answer_error code := server_answer_stun_error (transaction_id msg) src (msg_method msg) code (Some creds) in
    if lenZ (peers msg) =? 0 then answer_error 400
    else
      let* own := own_allocation src id in
      match own with
      | inl code => answer_error code
      | inr (i, _) =>
        let* ok := permit_all i (transaction_id msg) (peers msg) in
        if negb ok then answer_error 500 ;; ret (-1)
        else answer_success msg src STUN_METHOD_CREATE_PERMISSION creds
      end.

(** [turn_bind_channel] on the map of an allocation. *)
Definition bind_channel (i : nat) (peer : addr_record) (tid : list Z) (channel : Z) : M bool :=
  let* a := get_alloc i in
  let* now := ask clock in
  let* (ok, m) := defined (turn_bind_channel now (alloc_map a) (Some peer) (Some tid) channel BIND_LIFETIME) in
  set_map i m ;; ret ok.

Definition server_process_turn_channel_bind (msg : stun_message) (src : addr_record) (id : nat) : M Z :=
  if negb (msg_class msg =? STUN_CLASS_REQUEST) then ret (-1)
  else
    let* creds := deref id in
    let answer_error code := server_answer_stun_error (transaction_id msg) src (msg_method msg) code (Some creds) in
    match peers msg with
    | [] => answer_error 400
    | peer :: _ =>
      if channel_number msg =? 0 then answer_error 400
      else
        let* own := own_allocation src id in
        match own with
        | inl code => answer_error code
        | inr (i, _) =>
          let channel := channel_number msg in
          if negb (is_valid_channel channel) then answer_error 400
          else
            let* ok := bind_channel i peer (transaction_id msg) channel in
            if negb ok then answer_error 500 ;; ret (-1)
            else
              let* ok := permit i (transaction_id msg) peer in
              if negb ok then answer_error 500 ;; ret (-1)
              else answer_success msg src STUN_METHOD_CHANNEL_BIND creds
        end
    end.

(** *** Relaying *)

(** The full allocation of a client, for the indications. *)
Definition full_allocation (src : addr_record) : M (option server_turn_alloc) :=
  let* l := gets allocs in
  let* found := defined (find_allocation l src false) in
  match found with
  | None => ret None
  | Some i =>
    let* a := get_alloc i in
    ret (if is_full a then Some a else None)
  end.

Definition server_process_turn_send (msg : stun_message) (src : addr_record) : M Z :=
  if negb (msg_class msg =? STUN_CLASS_INDICATION) then ret (-1)
  else
    match data msg, peers msg with
    | None, _ => ret (-1)
    | _, [] => ret (-1)
    | Some payload, peer :: _ =>
      let* own := full_allocation src in
      match own with
      | None => ret (-1)
      | Some a =>
        let* now := ask clock in
        let* permitted := defined (turn_has_permission now (alloc_map a) peer) in
        if negb permitted then ret (-1)
        else
          let* sock := defined (alloc_sock a) in
          let* payload := defined (load 0 (data_size msg) payload) in
          udp_sendto sock payload peer
      end
    end.

Definition server_process_channel_data (buf : list Z) (size : Z) (src : addr_record) : M Z :=
  let* own := full_allocation src in
  match own with
  | None => ret (-1)
  | Some a =>
    if size <? sizeof_channel_data_header then ret (-1)
    else
      let size := size - sizeof_channel_data_header in
      let* c := defined (load16 0 buf) in
      let* l := defined (load16 2 buf) in
      let channel := ntohs c in
      let length := ntohs l in
      if length >? size then ret (-1)
      else
        let* now := ask clock in
        let* bound := defined (turn_find_bound_channel now (alloc_map a) channel) in
        match bound with
        | None => ret (-1)
        | Some record =>
          let* sock := defined (alloc_sock a) in
          let* payload := defined (load sizeof_channel_data_header length buf) in
          udp_sendto sock payload record ;; ret 0
        end
  end.

(** [server_forward]: every path of the loop returns after one datagram;
    [None] is the end of the queue, the buffer keeps what it held behind it. *)
Definition server_forward (i : nat) (datagram : option (list Z * addr_record)) : M Z :=
  let* a := get_alloc i in
  let* garbage := ask stack in
  match datagram with
  | None => ret 0
  | Some (payload, record) =>
    let '(sa, l, _) := addr_unmap_inet6_v4mapped (addr record) (len record) in
    let record := mkRecord sa l in
    let* now := ask clock in
    let* permitted := defined (turn_has_permission now (alloc_map a) record) in
    if negb permitted then ret (-1)
    else
      let* now := ask clock in
      let* channel := defined (turn_get_bound_channel now (alloc_map a) record) in
      match channel with
      | Some channel =>
        let* (buffer, size) := defined (turn_wrap_channel_data (payload ++ drop (length payload) garbage) BUFFER_SIZE
                                          payload channel) in
        if size <=? 0 then ret (-1)
        else
          let* framed := defined (load 0 size buffer) in
          let* sock := gets server_sock in
          udp_sendto sock framed (alloc_record a)
      | None =>
        let* tid := ask (fun n => random n STUN_TRANSACTION_ID_SIZE) in
        let msg := stun_message_zero <| msg_class := STUN_CLASS_INDICATION |> <| msg_method := STUN_METHOD_DATA |>
                     <| peers := [record] |> <| data := Some payload |> <| data_size := lenZ payload |>
                     <| transaction_id := tid |> in
        server_stun_send (alloc_record a) msg None
      end
  end.

(** *** Requests *)

(** The node whose credentials are those of the message, the last match. *)
Fixpoint search_credentials (matches : credentials_node -> option bool) (now : Z) (l : list credentials_node)
    (best : option credentials_node) : option (option credentials_node) :=
  match l with
  | [] => Some best
  | n :: l' =>
    if (node_timestamp n =? 0) || (now <? node_timestamp n) then
      let? b := matches n in search_credentials matches now l' (if b : bool then Some n else best)
    else search_credentials matches now l' best
  end.

Definition find_credentials (msg : stun_message) (now : Z) (l : list credentials_node) : option (option credentials_node) :=
  let c := credentials msg in
  search_credentials (fun n =>
      let? x := (if enable_userhash c then const_time_memcmp (node_userhash n) (userhash c) USERHASH_SIZE
                 else const_time_strcmp (cr_username (node_credentials n) ++ [0]) (username c ++ [0])) in
      Some (x =? 0)) now l None.

(** The authentication of a request: [inl] returns, [inr] is the message, whose
    user name may be filled in, and the credentials, if any are needed. *)
Definition authenticate (buf : list Z) (size : Z) (msg : stun_message) (src : addr_record)
    : M (Z + stun_message * option nat) :=
  let answer code := server_answer_stun_error (transaction_id msg) src (msg_method msg) code None in
  let c := credentials msg in
  if (msg_method msg =? STUN_METHOD_BINDING) || (msg_class msg =? STUN_CLASS_INDICATION) then ret (inr (msg, None))
  else if negb (has_integrity msg) || bool_decide (realm c = []) || bool_decide (nonce c = []) ||
          (bool_decide (username c = []) && negb (enable_userhash c))
  then let* sent := answer 401 in ret (inl sent)
  else
    let* nonce_ := server_get_nonce src in
    let* realm_ := gets (fun s => config_realm (config s)) in
    if negb (bool_decide (nonce c = nonce_)) || negb (bool_decide (realm c = realm_))
    then let* sent := answer 438 in ret (inl sent)
    else
      let* now := ask clock in
      let* l := gets server_credentials_list in
      let* found := defined (find_credentials msg now l) in
      match found with
      | None => answer 401 ;; ret (inl (-1))
      | Some node =>
        let msg := if enable_userhash c
                   then msg <| credentials ::= fun c =>
                          c <| username := snprintf_clip STUN_MAX_USERNAME_LEN (cr_username (node_credentials node)) |> |>
                   else msg in
        let* (_, ok) := defined (stun_check_integrity buf size msg (cr_password (node_credentials node))) in
        if negb ok then answer 401 ;; ret (inl (-1)) else ret (inr (msg, Some (node_id node)))
      end.

(** The [switch] of [server_dispatch_stun]. *)
Definition process (msg : stun_message) (src : addr_record) (creds : option nat) : M Z :=
  if msg_method msg =? STUN_METHOD_BINDING then server_process_stun_binding msg src
  else if (msg_method msg =? STUN_METHOD_ALLOCATE) || (msg_method msg =? STUN_METHOD_REFRESH) then
    match creds with
    | Some id => server_process_turn_allocate msg src id
    | None => if msg_class msg =? STUN_CLASS_REQUEST then undefined else ret (-1)
    end
  else if msg_method msg =? STUN_METHOD_CREATE_PERMISSION then
    match creds with
    | Some id => server_process_turn_create_permission msg src id
    | None => if msg_class msg =? STUN_CLASS_REQUEST then undefined else ret (-1)
    end
  else if msg_method msg =? STUN_METHOD_CHANNEL_BIND then
    match creds with
    | Some id => server_process_turn_channel_bind msg src id
    | None => if msg_class msg =? STUN_CLASS_REQUEST then undefined else ret (-1)
    end
  else if msg_method msg =? STUN_METHOD_SEND then server_process_turn_send msg src
  else ret (-1).

Definition server_dispatch_stun (buf : list Z) (size : Z) (msg : stun_message) (src : addr_record) : M Z :=
  let request := msg_class msg =? STUN_CLASS_REQUEST in
  let binding := msg_method msg =? STUN_METHOD_BINDING in
  let answer code := server_answer_stun_error (transaction_id msg) src (msg_method msg) code None in
  if negb (request || ((msg_class msg =? STUN_CLASS_INDICATION) && (binding || (msg_method msg =? STUN_METHOD_SEND))))
  then ret (-1)
  else
    let* count := gets allocs_count in
    if (count =? 0) && negb binding then answer 400
    else if error_code msg =? STUN_ERROR_INTERNAL_VALIDATION_FAILED then
      if request then answer 400 else ret (-1)
    else
      let* auth := authenticate buf size msg src in
      match auth with
      | inl result => ret result
      | inr (msg, creds) => process msg src creds
      end.

Definition server_input (buf : list Z) (size : Z) (src : addr_record) : M Z :=
  let* stun := defined (is_stun_datagram buf size) in
  if stun : bool then
    let* (buf, msg, result) := defined (stun_read buf size) in
    if result <? 0 then ret (-1) else server_dispatch_stun buf size msg src
  else
    let* channel := defined (is_channel_data buf size) in
    if channel : bool then server_process_channel_data buf size src else ret (-1).

(** [server_recv] over the datagrams waiting in the socket. *)
Fixpoint server_recv (datagrams : list (list Z * addr_record)) : M Z :=
  match datagrams with
  | [] => ret 0
  | (payload, record) :: datagrams' =>
    let* garbage := ask stack in
    if lenZ payload =? 0 then server_recv datagrams'
    else
      let '(sa, l, _) := addr_unmap_inet6_v4mapped (addr record) (len record) in
      server_input (payload ++ drop (length payload) garbage) (lenZ payload) (mkRecord sa l) ;;
      server_recv datagrams'
  end.

(** *** Housekeeping *)

(** The allocations from the [i]th on; the next timestamp. *)
Fixpoint expire_allocations (n i : nat) (now next : Z) : M Z :=
  match n with
  | O => ret next
  | S n' =>
    let* a := get_alloc i in
    if negb (is_full a) then expire_allocations n' (S i) now next
    else if alloc_timestamp a <=? now then delete_allocation i ;; expire_allocations n' (S i) now next
    else expire_allocations n' (S i) now (if alloc_timestamp a <? next then alloc_timestamp a else next)
  end.

Definition expired (now : Z) (n : credentials_node) : bool :=
  negb (node_timestamp n =? 0) && (node_timestamp n <=? now).

(** [server_bookkeeping]: the next timestamp. *)
Definition server_bookkeeping : M Z :=
  let* now := ask clock in
  let* l := gets allocs in
  let* next := expire_allocations (length l) 0 now (now + 60000) in
  modify (fun s => s <| server_credentials_list ::= List.filter (fun n => negb (expired now n)) |>) ;;
  ret next.

(** [server_do_add_credentials], when the allocations succeed: the new node. *)
Definition server_do_add_credentials (creds : server_credentials) (lifetime : Z) : M nat :=
  let* realm := gets (fun s => config_realm (config s)) in
  let* id := gets next_id in
  let* timestamp := (if 0 <? lifetime then let* now := ask clock in ret (now + lifetime) else ret 0) in
  let node := mkNode id creds (stun_compute_userhash (cr_username creds) realm) timestamp in
  modify (fun s => s <| server_credentials_list ::= cons node |> <| next_id := S id |>) ;;
  ret id.

(** [server_add_credentials], when the allocations succeed. *)
Definition server_add_credentials (creds : server_credentials) (lifetime : Z) : M Z :=
  let* max := gets (fun s => max_allocations (config s)) in
  (if max <? allocations_quota creds
   then modify (fun s => s <| config ::= fun c => c <| max_allocations := allocations_quota creds |> |>)
   else ret tt) ;;
  let* max := gets (fun s => max_allocations (config s)) in
  let* count := gets allocs_count in
  (if count <? max
   then modify (fun s => s <| allocs ::= fun l => l ++ replicate (Z.to_nat (max - count)) alloc_zero |>)
   else ret tt) ;;
  let* id := server_do_add_credentials creds lifetime in
  let* added := deref id in
  (if allocations_quota added =? 0 then change_quota id max else ret tt) ;;
  ret 0.

(** The loop of [server_create] over the credentials of the configuration. *)
Fixpoint create_credentials (l : list server_credentials) : M unit :=
  match l with
  | [] => ret tt
  | creds :: l' =>
    let* max := gets (fun s => max_allocations (config s)) in
    (if max <? allocations_quota creds
     then modify (fun s => s <| config ::= fun c => c <| max_allocations := allocations_quota creds |> |>)
     else ret tt) ;;
    server_do_add_credentials creds 0 ;;
    create_credentials l'
  end.

Definition unlimited (max : Z) (n : credentials_node) : credentials_node :=
  n <| node_credentials ::= fun c => if allocations_quota c =? 0 then c <| allocations_quota := max |> else c |>.

(** [server_create], on the zeroed server whose socket is open, when the
    allocations and the thread creation succeed. *)
Definition server_create (c : server_config) (sock : Z) (creds : list server_credentials) : option machine :=
  let max := if 0 <? max_allocations c then max_allocations c else SERVER_DEFAULT_MAX_ALLOCATIONS in
  let realm_ := match config_realm c with [] => SERVER_DEFAULT_REALM | r => r end in
  let table := match creds with [] => [] | _ => replicate (Z.to_nat max) alloc_zero end in
  let s := mkServer (c <| max_allocations := max |> <| config_realm := realm_ |>) []
             (replicate (Z.to_nat SERVER_NONCE_KEY_SIZE) 0) 0 sock table 0 in
  let? (_, m) := (create_credentials creds ;;
    let* max := gets (fun s => max_allocations (config s)) in
    modify (fun s => s <| server_credentials_list ::= map (unlimited max) |>) ;;
    modify (fun s => s <| nonce_key_timestamp := 0 |>) ;;
    modify (fun s => s <| config ::= fun c =>
      if max_peers c =? 0 then c <| max_peers := SERVER_DEFAULT_MAX_PEERS |> else c |>)) (mkMachine s 0 []) in
  Some m.

(** The loop of [server_do_destroy] from the [i]th allocation on. *)
Fixpoint delete_allocations (n i : nat) : M unit :=
  match n with
  | O => ret tt
  | S n' => delete_allocation i ;; delete_allocations n' (S i)
  end.

(** [server_do_destroy], which leaves nothing. *)
Definition server_do_destroy : M unit :=
  let* sock := gets server_sock in
  emit (Closed sock) ;;
  let* l := gets allocs in
  delete_allocations (length l) 0 ;;
  modify (fun s => s <| allocs := [] |> <| server_credentials_list := [] |>).

(** *** Steps of the server thread and of its callers, between which the
    mutex is free. *)
Inductive server_input_step : Type :=
| Bookkeeping
| Receive (datagrams : list (list Z * addr_record))
| Forward (i : nat) (datagram : option (list Z * addr_record))
| AddCredentials (creds : server_credentials) (lifetime : Z).

Definition server_step (e : server_input_step) : M Z :=
  match e with
  | Bookkeeping => server_bookkeeping
  | Receive datagrams => server_recv datagrams
  | Forward i datagram =>
    let* a := get_alloc i in
    if is_full a then server_forward i datagram else ret 0
  | AddCredentials creds lifetime => server_add_credentials creds lifetime
  end.

Fixpoint server_steps (es : list server_input_step) : M unit :=
  match es with
  | [] => ret tt
  | e :: es' => server_step e ;; server_steps es'
  end.

End Server.
