(* ===== verification/ServerSend.v ===== *)
(** * The server's messages fit their buffer and are sent

    What sending an answer changes in the server, and that every answer fits. *)

From S2P Require Import Prelude Machine Addr Crc32 StunMsg StunWrite StunCodec StunWriteCorrect StunSize Turn Server.
Open Scope machine_scope.

(** Everything but the nonce key and its expiry. *)
Record same_server (s s' : juice_server) : Prop := {
  same_config : config s' = config s;
  same_credentials : server_credentials_list s' = server_credentials_list s;
  same_sock : server_sock s' = server_sock s;
  same_allocs : allocs s' = allocs s;
  same_next_id : next_id s' = next_id s
}.

Definition to_client (sock : Z) (src : addr_record) (e : event) : Prop :=
  exists data, e = Sent sock src data.

(** A run that only answers [src], from the server's own socket. *)
Definition answers (src : addr_record) (m m' : machine) : Prop :=
  same_server (server m) (server m') /\ (asked m <= asked m')%nat /\
  emitted m m' (to_client (server_sock (server m)) src).

Lemma same_server_refl s : same_server s s.
Proof. by split. Qed.

Lemma same_server_trans s1 s2 s3 : same_server s1 s2 -> same_server s2 s3 -> same_server s1 s3.
Proof. intros [] []. split; congruence. Qed.

Lemma answers_refl src m : answers src m m.
Proof. split; [apply same_server_refl|]. split; [done|by apply emitted_refl]. Qed.

Lemma answers_trans src m1 m2 m3 : answers src m1 m2 -> answers src m2 m3 -> answers src m1 m3.
Proof.
  intros (S1 & A1 & E1) (S2 & A2 & E2). split; [by eapply same_server_trans|]. split; [lia|].
  eapply emitted_trans; [exact E1|]. by rewrite <- (same_sock _ _ S1).
Qed.

(** Asking changes nothing. *)
Lemma answers_asked src m m' n : answers src m m' -> (asked m' <= n)%nat ->
  answers src m (mkMachine (server m') n (events m')).
Proof. intros (S1 & A1 & E1) Hn. split; [done|]. split; [cbn; lia|done]. Qed.

Section Send.
Context `{Platform, Hashes}.

(** An answer: no peers, no data, not a request, no password algorithm chosen. *)
Record answer_msg (msg : stun_message) : Prop := {
  an_class : msg_class msg <> STUN_CLASS_REQUEST;
  an_peers : peers msg = [];
  an_data : data msg = None;
  an_algorithm : password_algorithm (credentials msg) = STUN_PASSWORD_ALGORITHM_UNSET;
  an_realm : lenZ (realm (credentials msg)) <= 763 /\ bytes_ok (realm (credentials msg));
  an_nonce : lenZ (nonce (credentials msg)) <= 763 /\ bytes_ok (nonce (credentials msg));
  an_username : bytes_ok (username (credentials msg));
  an_tid : tid_ok (transaction_id msg);
  an_mapped : record_wf (mapped msg);
  an_relayed : record_wf (relayed msg);
  an_ice : ice_controlling msg = 0 /\ ice_controlled msg = 0 /\ reservation_token msg = 0;
  an_rest : userhash (credentials msg) = replicate 32 0 /\ password_algorithms_value (credentials msg) = []
}.

Lemma answer_plain msg : answer_msg msg -> lenZ (encode_attrs (plain_attrs msg)) <= 300.
Proof.
  intros [_ Hp Hd _ _ _ _ Ht Hm Hr _ _]. unfold plain_attrs. rewrite Hp, Hd.
  change (peer_attrs (transaction_id msg) []) with (@nil (Z * list Z)).
  apply (sized_app 40 260); [apply sized_error|].
  apply (sized_app 24 236); [by apply sized_address|].
  sized_next 224.
  sized_next 212.
  sized_next 200.
  sized_next 188.
  sized_next 176.
  sized_next 164.
  apply (sized_app 0 164); [done|]. apply (sized_app 24 140); [by apply sized_address|].
  sized_next 128.
  sized_next 116.
  sized_next 104.
  sized_next 92.
  sized_next 80.
  done.
Qed.

Lemma answer_credentials msg rest : answer_msg msg -> lenZ (encode_attrs (credential_attrs msg rest)) <= 1600.
Proof.
  intros [Hc _ _ Ha [Hr _] [Hn _] _ _ _ _ _ _]. unfold credential_attrs. cbv zeta.
  rewrite (proj2 (Z.eqb_neq _ _) Hc), Ha. cbn [app Z.ltb Z.compare STUN_PASSWORD_ALGORITHM_UNSET andb negb attr_if].
  destruct (sends_realm msg); [|change (lenZ (encode_attrs [])) with 0; lia]. rewrite encode_attrs_app, lenZ_app.
  pose proof (lenZ_attr_if (is_cons (realm (credentials msg))) STUN_ATTR_REALM (realm (credentials msg)) 763 Hr) as H1'.
  change (align32 763) with 764 in H1'.
  destruct (is_cons (nonce (credentials msg))); [|change (lenZ (encode_attrs [])) with 0; lia].
  rewrite encode_attrs_cons, lenZ_app, lenZ_tlv.
  assert (align32 (lenZ (nonce (credentials msg))) <= 764) by (unfold align32; lia_mod).
  match goal with |- context [lenZ (encode_attrs [?a])] => change (lenZ (encode_attrs [a])) with 12 end. lia.
Qed.

Lemma answer_fits msg password rest : answer_msg msg -> lenZ (stun_encode msg password rest) <= 2000.
Proof.
  intros Ha. unfold stun_encode. rewrite !lenZ_app, lenZ_fingerprint.
  assert (lenZ (header_bytes msg (lenZ (stun_body msg password rest) + 8)) = 20) as ->.
  { unfold header_bytes. rewrite !lenZ_app, !lenZ_be_bytes. destruct (an_tid _ Ha) as [Ht _]. unfold lenZ. lia. }
  pose proof (answer_plain msg Ha). pose proof (answer_credentials msg rest Ha).
  enough (lenZ (stun_body msg password rest) <= 1924) by lia.
  unfold stun_body. rewrite (an_algorithm _ Ha). cbv zeta. change (negb (_ =? _)) with false at 2.
  destruct (negb _ && _); rewrite ?lenZ_app, encode_attrs_app, lenZ_app; [|lia].
  unfold integrity_attr. rewrite lenZ_tlv, hmac_sha1_length. change (align32 HMAC_SHA1_SIZE) with 20. lia.
Qed.

Context `{!Environment}.

Lemma answer_writable msg n : answer_msg msg -> writable msg (uninitialised n).
Proof.
  intros [_ Hp Hd _ [_ Hr] [_ Hno] Hu Ht Hm Hre (Hi1 & Hi2 & Hi3) [Hh Ha]].
  split; rewrite ?Hd, ?Hi1, ?Hi2, ?Hi3, ?Hh, ?Ha, ?Hp; try done; try lia.
  - apply uninitialised_length.
  - split_and!; try done; try (by repeat constructor). apply uninitialised_bytes.
Qed.

Lemma udp_sendto_spec sock data dst m :
  udp_sendto sock data dst m =
  Some (sendto_result (asked m), mkMachine (server m) (S (asked m)) (Sent sock dst data :: events m)).
Proof. done. Qed.

(** Whatever could be written is sent to [dst], from the server's socket. *)
Lemma stun_send_written dst msg password m buffer size :
  stun_write BUFFER_SIZE msg password (uninitialised (S (asked m))) (stack (asked m)) = Some (buffer, size) ->
  lenZ buffer = BUFFER_SIZE -> size <= BUFFER_SIZE ->
  spec (server_stun_send dst msg password) m (fun _ m' => server m' = server m /\ answers dst m m').
Proof.
  intros Hw Hl Hs. unfold server_stun_send.
  apply spec_bind, spec_ask, spec_bind, spec_ask, spec_bind. eapply spec_defined; [exact Hw|].
  cbn beta iota. case_test; zify_bool.
  - apply spec_ret. split; [done|]. split; [apply same_server_refl|]. split; [cbn; lia|by apply emitted_refl].
  - apply spec_bind. eapply spec_defined; [apply load_ok; lia|]. unfold server_send.
    apply spec_bind, spec_bind, spec_gets. unfold spec at 1. rewrite udp_sendto_spec. cbn beta iota.
    case_test; apply spec_ret; (split; [done|]; split; [apply same_server_refl|]; split; [cbn; lia|]);
      (eexists [_]; split; [reflexivity|]; constructor; [by eexists|constructor]).
Qed.

(** Sending an answer. *)
Lemma send_answer_spec dst msg password m : answer_msg msg ->
  spec (server_stun_send dst msg password) m (fun _ m' => server m' = server m /\ answers dst m m').
Proof.
  intros Ha. pose proof (answer_fits msg password (uninitialised (S (asked m))) Ha) as Hf.
  destruct (stack_bytes (asked m)) as [Hl _].
  eapply stun_send_written.
  - apply stun_write_encodes; [split; [discriminate|reflexivity]|by apply answer_writable|done|unfold BUFFER_SIZE; lia].
  - rewrite lenZ_app, lenZ_drop; [|unfold lenZ, BUFFER_SIZE in *; lia]. unfold lenZ in *. lia.
  - unfold BUFFER_SIZE. lia.
Qed.
End Send.
