(* ===== verification/ServerInv.v ===== *)
(** * The server's invariant: allocations, their maps, credentials and quotas *)

From S2P Require Import Prelude Machine ConstTime Base64 Addr.
From S2P Require Import StunMsg StunWrite StunWriteCorrect StunRead Turn TurnTable TurnOps TurnMap.
From S2P Require Import Server ServerSend.
From stdpp Require Import list.
#[local] Open Scope Z_scope.
#[local] Open Scope machine_scope.

Section Inv.
Context `{Platform, Hashes, !Environment}.

(** ** Probing *)
Definition stops_at (record : addr_record) (allow_deleted : bool) (a : server_turn_alloc) : bool :=
  bool_decide (alloc_state a = SERVER_TURN_ALLOC_EMPTY) ||
  (allow_deleted && bool_decide (alloc_state a = SERVER_TURN_ALLOC_DELETED)) ||
  addr_record_is_equal (alloc_record a) record true.

Lemma find_allocation_probe l record ad key pos fuel :
  find_allocation_loop fuel l record ad key pos = probe (stops_at record ad) l fuel key pos.
Proof.
  revert pos. induction fuel as [|fuel IH]; intros pos; [done|]. cbn [find_allocation_loop probe].
  destruct (l !! Z.to_nat pos) as [a|]; [|done]. cbn [mbind option_bind]. fold (stops_at record ad a).
  case_match; [done|]. case_match; [done|]. apply IH.
Qed.

Lemma find_allocation_total l record ad : 0 < lenZ l < 2 ^ 31 ->
  exists r, find_allocation l record ad = Some r /\
    match r with
    | Some i => exists a, l !! i = Some a /\ stops_at record ad a = true
    | None => True
    end.
Proof.
  intros Hl. unfold find_allocation. rewrite (proj2 (Z.eqb_neq _ _)) by lia. rewrite find_allocation_probe.
  destruct (probe_spec (stops_at record ad) l (addr_record_hash record true `mod` lenZ l)) as [(k & (_ & Hk & _) & ->)|[-> _]].
  - apply Z.mod_pos_bound. lia.
  - lia.
  - eauto.
  - by exists None.
Qed.

(** A full element found for a client is the client's. *)
Lemma stops_full record ad a : stops_at record ad a = true -> is_full a = true ->
  addr_record_is_equal (alloc_record a) record true = true.
Proof.
  unfold stops_at, is_full. intros Hs Hf. apply bool_decide_eq_true in Hf. rewrite Hf in Hs.
  rewrite !bool_decide_false in Hs by done. by rewrite andb_false_r in Hs.
Qed.

(** ** Quotas *)
Definition uses (id : nat) (a : server_turn_alloc) : bool := is_full a && bool_decide (alloc_credentials a = Some id).

Fixpoint used (id : nat) (l : list server_turn_alloc) : Z :=
  match l with
  | [] => 0
  | a :: l' => Z.b2z (uses id a) + used id l'
  end.

Lemma used_nonneg id l : 0 <= used id l.
Proof. induction l as [|a l IH]; cbn; [lia|]. destruct (uses id a); cbn; lia. Qed.

Lemma used_app id l k : used id (l ++ k) = used id l + used id k.
Proof. induction l as [|a l IH]; cbn; [lia|]. rewrite IH. lia. Qed.

Lemma used_insert id l i a a' : l !! i = Some a ->
  used id (<[i := a']> l) = used id l - Z.b2z (uses id a) + Z.b2z (uses id a').
Proof.
  revert i. induction l as [|b l IH]; intros [|i] Hi; try done.
  - injection Hi as ->. change (<[0%nat:=a']> (a :: l)) with (a' :: l). cbn [used]. lia.
  - change (<[S i:=a']> (b :: l)) with (b :: <[i:=a']> l). cbn [used]. rewrite (IH i Hi). lia.
Qed.

Lemma used_zero id n : used id (replicate n alloc_zero) = 0.
Proof. induction n as [|n IH]; cbn; [done|]. by rewrite IH. Qed.

(** ** The invariant *)

(** Credentials as the configuration gives them. *)
Definition credentials_wf (c : server_credentials) : Prop :=
  bytes_ok (cr_username c) /\ 0 <= allocations_quota c < 2 ^ 31.

Record node_ok (next : nat) (n : credentials_node) : Prop := {
  no_id : (node_id n < next)%nat;
  no_username : bytes_ok (cr_username (node_credentials n));
  no_userhash : lenZ (node_userhash n) = USERHASH_SIZE /\ bytes_ok (node_userhash n);
  no_timestamp : node_timestamp n = 0;
  no_quota : 0 <= allocations_quota (node_credentials n)
}.

Definition node_ids (s : juice_server) : list nat := node_id <$> server_credentials_list s.

Definition alloc_ok (s : juice_server) (a : server_turn_alloc) : Prop :=
  is_full a = true ->
  server_ok (alloc_map a) /\ is_Some (alloc_sock a) /\
  exists id, alloc_credentials a = Some id /\ id ∈ node_ids s.

(** [g] is what each node was granted. *)
Record inv (g : nat -> Z) (s : juice_server) : Prop := {
  inv_peers : 0 < max_peers (config s) < 2 ^ 30;
  inv_max : max_allocations (config s) < 2 ^ 31;
  inv_realm : bytes_ok (config_realm (config s));
  inv_size : 0 < lenZ (allocs s) < 2 ^ 31;
  inv_nodes : Forall (node_ok (next_id s)) (server_credentials_list s);
  inv_ids : NoDup (node_ids s);
  inv_allocs : Forall (alloc_ok s) (allocs s);
  inv_quota : Forall (fun n => allocations_quota (node_credentials n) + used (node_id n) (allocs s) = g (node_id n))
                (server_credentials_list s)
}.

(** A node without its quota: what stays the same. *)
Definition user_of (n : credentials_node) : credentials_node :=
  n <| node_credentials ::= fun c => c <| allocations_quota := 0 |> |>.

Record evolves (s s' : juice_server) : Prop := {
  ev_config : config s' = config s;
  ev_users : user_of <$> server_credentials_list s' = user_of <$> server_credentials_list s;
  ev_sock : server_sock s' = server_sock s;
  ev_next : next_id s' = next_id s;
  ev_size : length (allocs s') = length (allocs s)
}.

Lemma server_evolves_refl s : evolves s s.
Proof. by split. Qed.

Lemma server_evolves_trans s1 s2 s3 : evolves s1 s2 -> evolves s2 s3 -> evolves s1 s3.
Proof. intros [] []. split; congruence. Qed.

Lemma evolves_same s s' : same_server s s' -> evolves s s'.
Proof. intros []. split; congruence. Qed.

Lemma evolves_ids s s' : evolves s s' -> node_ids s' = node_ids s.
Proof.
  intros Hev. unfold node_ids. pose proof (f_equal (fmap node_id) (ev_users _ _ Hev)) as E.
  rewrite <- !list_fmap_compose in E. exact E.
Qed.

Lemma inv_same g s s' : same_server s s' -> inv g s -> inv g s'.
Proof.
  intros [E1 E2 E3 E4 E5] [I1 I2 I3 I4 I5 I6 I7 I8].
  split; rewrite ?E1, ?E2, ?E4, ?E5; try done.
  - unfold node_ids in *. by rewrite E2.
  - apply (list.Forall_impl _ _ _ I7). intros a Ha Hf. specialize (Ha Hf). unfold node_ids in *. by rewrite E2.
Qed.

(** An element that someone of [who] may change: one not in use, or in use by
    the holder. *)
Definition touchable (who : nat -> Prop) (a : server_turn_alloc) : Prop :=
  exists id, who id /\ (is_full a = true -> alloc_credentials a = Some id).

(** Nothing else changes. *)
Definition spares (who : nat -> Prop) (s s' : juice_server) : Prop :=
  forall j a, allocs s !! j = Some a -> ~ touchable who a -> allocs s' !! j = Some a.

Lemma spares_same who s s' : allocs s' = allocs s -> spares who s s'.
Proof. intros E j a Ha _. by rewrite E. Qed.

Lemma spares_trans who s1 s2 s3 : spares who s1 s2 -> spares who s2 s3 -> spares who s1 s3.
Proof. intros S1 S2 j a Ha Hn. apply S2; [by apply S1|done]. Qed.

Lemma spares_insert who s s' i a a' : allocs s !! i = Some a -> allocs s' = <[i := a']> (allocs s) ->
  touchable who a -> spares who s s'.
Proof.
  intros Hi E Hw j b Hb Hn. rewrite E. destruct (decide (j = i)) as [->|Hne].
  - exfalso. assert (b = a) as -> by congruence. done.
  - by rewrite list_lookup_insert_ne.
Qed.

(** A run that keeps the invariant, changes only what [who] may change and
    causes only the events of [P], which is given the server's own socket. *)
Record good (g : nat -> Z) (who : nat -> Prop) (P : Z -> event -> Prop) (m m' : machine) : Prop := {
  good_inv : inv g (server m');
  good_evolves : evolves (server m) (server m');
  good_spares : spares who (server m) (server m');
  good_events : emitted m m' (P (server_sock (server m)))
}.

Lemma server_good_refl g who P m : inv g (server m) -> good g who P m m.
Proof. intros Hi. split; [done|apply server_evolves_refl|by apply spares_same|by apply emitted_refl]. Qed.

Lemma server_good_trans g who P m1 m2 m3 : good g who P m1 m2 -> good g who P m2 m3 -> good g who P m1 m3.
Proof.
  intros [_ E1 S1 M1] [I2 E2 S2 M2]. split; [done|by eapply server_evolves_trans|by eapply spares_trans|].
  eapply emitted_trans; [exact M1|]. by rewrite <- (ev_sock _ _ E1).
Qed.

Lemma good_impl g (who who' : nat -> Prop) (P Q : Z -> event -> Prop) m m' : good g who P m m' ->
  (forall id, who id -> who' id) -> (forall s e, P s e -> Q s e) -> good g who' Q m m'.
Proof.
  intros [I E S M] Hw HPQ. split; [done|done| |].
  - intros j a Ha Hn. apply S; [done|]. intros (id & Hid & Hf). apply Hn. exists id. auto.
  - eapply emitted_impl; [exact M|]. intros e. apply HPQ.
Qed.

Lemma server_good_asked g who P m n m' : good g who P (mkMachine (server m) n (events m)) m' -> good g who P m m'.
Proof. intros []. split; assumption. Qed.

Lemma good_answers g who (P : Z -> event -> Prop) src m m' :
  (forall s data, P s (Sent s src data)) -> inv g (server m) -> answers src m m' -> good g who P m m'.
Proof.
  intros HP Hi (Hs & _ & He). split; [by eapply inv_same|by apply evolves_same|apply spares_same, Hs|].
  eapply emitted_impl; [exact He|]. intros e (data & ->). apply HP.
Qed.

(** ** Nodes *)
Lemma node_at_some id l : id ∈ (node_id <$> l) -> exists n, node_at id l = Some n /\ n ∈ l /\ node_id n = id.
Proof.
  intros Hid. apply list_elem_of_fmap in Hid as (n & -> & Hn). unfold node_at.
  destruct (list_find_elem_of (fun n' => node_id n' = node_id n) l n Hn eq_refl) as [[i n'] E].
  rewrite E. apply list_find_Some in E as (Hi & Hid & _). exists n'. split; [done|].
  split; [by eapply list_elem_of_lookup_2|done].
Qed.

Lemma deref_spec g id m (Q : server_credentials -> machine -> Prop) :
  inv g (server m) -> id ∈ node_ids (server m) ->
  (forall n, n ∈ server_credentials_list (server m) -> node_id n = id -> Q (node_credentials n) m) ->
  spec (deref id) m Q.
Proof.
  intros Hi Hid HQ. destruct (node_at_some id _ Hid) as (n & Hn & Hin & Hnid).
  unfold deref. apply spec_bind, spec_gets, spec_bind. eapply spec_defined; [exact Hn|]. apply spec_ret. auto.
Qed.

Lemma user_of_add_quota delta id l : user_of <$> map (add_quota delta id) l = user_of <$> l.
Proof.
  change (map (add_quota delta id) l) with (add_quota delta id <$> l). rewrite <- list_fmap_compose.
  apply list_fmap_ext. intros i n _. cbn. unfold add_quota. by destruct (_ =? _)%nat.
Qed.

Lemma node_id_add_quota delta id n : node_id (add_quota delta id n) = node_id n.
Proof. unfold add_quota. by destruct (_ =? _)%nat. Qed.

Lemma quota_add_quota delta id n : allocations_quota (node_credentials (add_quota delta id n)) =
  allocations_quota (node_credentials n) + (if (node_id n =? id)%nat then delta else 0).
Proof. unfold add_quota. destruct (_ =? _)%nat; cbn; lia. Qed.

Lemma node_ok_add_quota delta id next n : node_ok next n ->
  0 <= allocations_quota (node_credentials n) + (if (node_id n =? id)%nat then delta else 0) ->
  node_ok next (add_quota delta id n).
Proof.
  intros [N1 N2 N3 N4 N5] Hq. pose proof (quota_add_quota delta id n) as E. unfold add_quota in *.
  destruct (_ =? _)%nat; split; cbn in *; try assumption; lia.
Qed.

(** An element changes hands: the allocation of [id] at [i] begins ([delta = -1]),
    ends ([delta = 1]), or only changes inside ([delta = 0]). *)
Lemma inv_transfer g s i a a' id delta :
  inv g s -> allocs s !! i = Some a -> alloc_ok s a' ->
  (forall n, n ∈ server_credentials_list s -> node_id n = id -> 0 <= allocations_quota (node_credentials n) + delta) ->
  (forall k, Z.b2z (uses k a') = Z.b2z (uses k a) - (if (k =? id)%nat then delta else 0)) ->
  inv g (s <| server_credentials_list ::= map (add_quota delta id) |> <| allocs ::= fun l => <[i := a']> l |>) /\
  evolves s (s <| server_credentials_list ::= map (add_quota delta id) |> <| allocs ::= fun l => <[i := a']> l |>).
Proof.
  intros [I1 I2 I3 I4 I5 I6 I7 I8] Hi Ha' Hq Hu.
  set (s' := s <| server_credentials_list ::= _ |> <| allocs ::= _ |>).
  assert (Ec : config s' = config s) by done. assert (Ek : server_sock s' = server_sock s) by done.
  assert (En : next_id s' = next_id s) by done.
  assert (El : server_credentials_list s' = add_quota delta id <$> server_credentials_list s) by done.
  assert (Ea : allocs s' = <[i := a']> (allocs s)) by done. clearbody s'.
  assert (Hids : node_ids s' = node_ids s).
  { unfold node_ids. rewrite El, <- list_fmap_compose. apply list_fmap_ext. intros j n _. apply node_id_add_quota. }
  assert (Hok : forall b, alloc_ok s b -> alloc_ok s' b).
  { intros b Hb Hf. specialize (Hb Hf). by rewrite Hids. }
  rewrite list.Forall_forall in I5, I8. split.
  - split; rewrite ?Ec, ?En, ?El, ?Ea, ?Hids; try done.
    + unfold lenZ in *. by rewrite length_insert.
    + apply Forall_fmap, list.Forall_forall. intros n Hn. apply node_ok_add_quota; [auto|].
      destruct (node_id n =? id)%nat eqn:E; [apply Nat.eqb_eq in E; by apply Hq|]. rewrite Z.add_0_r. by apply I5.
    + apply Forall_insert; [|by apply Hok]. apply (list.Forall_impl _ _ _ I7). exact Hok.
    + apply Forall_fmap, list.Forall_forall. intros n Hn. cbn.
      rewrite quota_add_quota, node_id_add_quota, (used_insert _ _ _ _ _ Hi), Hu. specialize (I8 n Hn). lia.
  - split; rewrite ?Ec, ?Ek, ?En, ?El, ?Ea; try done; [apply user_of_add_quota|by rewrite length_insert].
Qed.

(** An element changes inside. *)
Lemma inv_set_alloc g s i a a' :
  inv g s -> allocs s !! i = Some a -> alloc_ok s a' -> (forall k, uses k a' = uses k a) ->
  inv g (s <| allocs ::= fun l => <[i := a']> l |>) /\ evolves s (s <| allocs ::= fun l => <[i := a']> l |>).
Proof.
  intros [I1 I2 I3 I4 I5 I6 I7 I8] Hi Ha' Hu. split; [split|split]; cbn; try done.
  - unfold lenZ in *. by rewrite length_insert.
  - apply Forall_insert; [done|]. exact Ha'.
  - apply (list.Forall_impl _ _ _ I8). intros n Hn. rewrite (used_insert _ _ _ _ _ Hi), Hu. lia.
  - by rewrite length_insert.
Qed.

End Inv.
