(* ===== verification/ServerAnswer.v ===== *)
(** * Messages the server builds: relayed data, nonces and error responses

    A relayed datagram may be too large for its indication.  The attribute that
    does not fit is then skipped and the position steps one byte back, but every
    store stays inside the buffer.  Answers carry fresh nonces and the
    credentials of their request. *)

From S2P Require Import Prelude Machine Base64 Addr StunMsg StunWrite StunWriteCorrect StunRead Turn TurnTable Server ServerSend.
From S2P Require Import StunReceived ServerInv Crc32 StunCodec StunReadSafe.
#[local] Open Scope machine_scope.

Section Relay.
Context `{Platform, Hashes, !Environment}.

(** A state of the writer inside the buffer. *)
Definition inside (mem : list Z) (pos : Z) : Prop := lenZ mem = BUFFER_SIZE /\ bytes_ok mem /\ 0 <= pos <= BUFFER_SIZE.

Lemma put_step mem pos t v n :
  inside mem pos -> bytes_ok v -> n = lenZ v -> n < 2 ^ 20 ->
  pos `mod` 4 = 0 \/ pos + 4 + align32 n <= BUFFER_SIZE ->
  exists mem' pos', put_attr BUFFER_SIZE t v n (mem, pos) = Next (mem', pos') /\ lenZ mem' = BUFFER_SIZE /\ bytes_ok mem' /\
    (pos' = pos - 1 /\ BUFFER_SIZE - pos < 4 + n \/ pos' = pos + 4 + align32 n /\ pos' <= BUFFER_SIZE).
Proof.
  intros (Hl & Hb & Hp) Hv -> Hn Ha. pose proof (lenZ_nonneg v). unfold BUFFER_SIZE in *.
  destruct (Z.lt_ge_cases (4096 - pos) (4 + lenZ v)) as [Hlt|Hge].
  - exists mem, (pos - 1). split; [|auto]. unfold put_attr. rewrite (wrap_small 32) by lia.
    rewrite stun_write_attr_full by lia. unfold advance. cbn [acc obind].
    change (size_t (-1)) with 4294967295. cbn [Z.leb Z.compare]. unfold ptr_add.
    by change (s32 4294967295) with (-1).
  - assert (4 + align32 (lenZ v) <= 4096 - pos) as Hfit.
    { destruct Ha as [Ha|Ha]; [|lia]. unfold align32 in *. lia_mod. }
    assert (lenZ (take (Z.to_nat pos) mem) = pos) as Ht by (unfold lenZ in *; rewrite length_take; lia).
    assert (lenZ (drop (Z.to_nat pos) mem) = 4096 - pos) as Hd by (unfold lenZ in *; rewrite length_drop; lia).
    pose proof (writes_put 4096 ltac:(lia) t v (lenZ v) eq_refl (take (Z.to_nat pos) mem) (drop (Z.to_nat pos) mem)
      ltac:(lia) ltac:(rewrite lenZ_tlv; lia)) as Hw.
    rewrite take_drop, Ht in Hw. rewrite Hw. rewrite lenZ_app, lenZ_tlv, Ht. eexists _, _. split; [reflexivity|].
    split; [|split; [|right; lia]].
    + rewrite !lenZ_app, Ht, lenZ_drop; [rewrite lenZ_tlv; pose proof (lenZ_tlv t v); unfold lenZ in *; lia|].
      pose proof (lenZ_tlv t v). unfold lenZ in *. lia.
    + apply Forall_app_2; [by apply Forall_take|]. apply Forall_app_2; [by apply bytes_tlv|]. by apply Forall_drop, Forall_drop.
Qed.

(** The fingerprint, where the position may have lost its alignment. *)
Lemma fingerprint_step mem pos : inside mem pos -> 20 <= pos ->
  exists mem' size, run (write_fingerprint BUFFER_SIZE 20 (mem, pos)) = Some (mem', size) /\
    lenZ mem' = BUFFER_SIZE /\ size <= BUFFER_SIZE.
Proof.
  intros (Hl & Hb & Hp) H20. unfold write_fingerprint, STUN_ATTR_SIZE, sizeof_stun_attr.
  unfold BUFFER_SIZE in Hl, Hp. rewrite (wrap_small 32 (pos - 20 + 4 + 4)) by lia. rewrite land_3.
  destruct ((pos - 20 + 4 + 4) `mod` 4 =? 0) eqn:E; cbn [negb]; [|eexists _, _; split; [reflexivity|split; [done|unfold BUFFER_SIZE; lia]]].
  apply Z.eqb_eq in E.
  destruct (update_header_restore mem (pos - 20 + 4 + 4) Hb ltac:(lia)) as (mem1 & prev & -> & Hl1 & Hb1 & _).
  cbn [acc obind]. rewrite (wrap_small 32 pos) by lia. rewrite load_ok by lia. cbn [acc obind].
  unfold CRC32. rewrite juice_crc32_eq by (by apply Forall_take, Forall_drop || by left). cbn [acc obind].
  destruct (put_step mem1 pos STUN_ATTR_FINGERPRINT (le_bytes 4 (htonl (Z.lxor
    (crc32_ref (take (Z.to_nat pos) (drop (Z.to_nat 0) mem1))) STUN_FINGERPRINT_XOR))) 4) as (mem' & pos' & -> & Hl' & _ & Hpos).
  - split; [by rewrite Hl1|]. split; [done|]. unfold BUFFER_SIZE. lia.
  - auto with bytes.
  - by rewrite lenZ_le_bytes.
  - done.
  - left. lia_mod.
  - unfold BUFFER_SIZE in *. eexists _, _. split; [reflexivity|]. split; [done|]. change (align32 4) with 4 in Hpos. lia.
Qed.

(** The indication that [server_forward] makes of a datagram. *)
Definition data_indication (record : addr_record) (payload tid : list Z) : stun_message :=
  stun_message_zero <| msg_class := STUN_CLASS_INDICATION |> <| msg_method := STUN_METHOD_DATA |>
    <| peers := [record] |> <| data := Some payload |> <| data_size := lenZ payload |> <| transaction_id := tid |>.

(** What [stun_write] does of such a message. *)
Lemma indication_steps record payload tid rest st :
  (seq_w (write_attributes BUFFER_SIZE (data_indication record payload tid))
    (seq_w (write_credentials BUFFER_SIZE (data_indication record payload tid) rest)
      (seq_w (write_integrity BUFFER_SIZE (data_indication record payload tid) None 20)
        (write_fingerprint BUFFER_SIZE 20)))) st =
  let! st := put_peers BUFFER_SIZE tid [record] st in
  let! st := put_attr BUFFER_SIZE STUN_ATTR_DATA payload (lenZ payload) st in
  let! st := put_attr BUFFER_SIZE STUN_ATTR_SOFTWARE SOFTWARE (lenZ SOFTWARE) st in
  write_fingerprint BUFFER_SIZE 20 st.
Proof.
  assert (Ha : forall st, write_attributes BUFFER_SIZE (data_indication record payload tid) st =
    let! st := put_peers BUFFER_SIZE tid [record] st in
    let! st := put_attr BUFFER_SIZE STUN_ATTR_DATA payload (lenZ payload) st in
    put_attr BUFFER_SIZE STUN_ATTR_SOFTWARE SOFTWARE (lenZ SOFTWARE) st) by reflexivity.
  unfold seq_w. rewrite Ha. destruct (put_peers BUFFER_SIZE tid [record] st) as [| |st1]; [done..|]. cbn [obind].
  destruct (put_attr BUFFER_SIZE STUN_ATTR_DATA payload (lenZ payload) st1) as [| |st2]; [done..|]. cbn [obind].
  by destruct (put_attr BUFFER_SIZE STUN_ATTR_SOFTWARE SOFTWARE (lenZ SOFTWARE) st2).
Qed.

Lemma data_indication_written record payload tid rest buf :
  tid_ok tid -> record_wf record -> bytes_ok payload -> lenZ payload <= BUFFER_SIZE ->
  lenZ buf = BUFFER_SIZE -> bytes_ok buf ->
  exists mem size, stun_write BUFFER_SIZE (data_indication record payload tid) None rest buf = Some (mem, size) /\
    lenZ mem = BUFFER_SIZE /\ size <= BUFFER_SIZE.
Proof.
  intros Ht Hr Hb Hl Hbuf Hbufb. unfold stun_write, stun_write_header. change (size_t BUFFER_SIZE <? sizeof_stun_header) with false.
  cbv zeta. destruct Ht as [Ht Htb]. change (transaction_id (data_indication record payload tid)) with tid.
  rewrite load_all by (unfold lenZ; lia).
  set (hdr := le_bytes 2 (htons (Z.lor _ _)) ++ _).
  assert (lenZ hdr = 20 /\ bytes_ok hdr) as [Hh Hhb].
  { unfold hdr. split; [rewrite !lenZ_app, !lenZ_le_bytes; unfold lenZ; lia|]. repeat apply Forall_app_2; auto with bytes. }
  clearbody hdr. unfold store at 1. unfold BUFFER_SIZE in Hbuf, Hl. rewrite Hh, Hbuf.
  change ((0 <=? 0) && (0 + 20 <=? 4096)) with true. cbn iota.
  set (mem0 := take (Z.to_nat 0) buf ++ hdr ++ _).
  assert (lenZ mem0 = 4096 /\ bytes_ok mem0) as [Hm0 Hmb0].
  { unfold mem0. change (take (Z.to_nat 0) buf) with (@nil Z). cbn [app]. split.
    - rewrite lenZ_app, Hh, lenZ_drop; unfold lenZ in *; cbn [Z.to_nat]; lia.
    - apply Forall_app_2; [done|by apply Forall_drop]. }
  clearbody mem0. cbn [acc obind advance]. change (size_t sizeof_stun_header <=? 0) with false. cbn iota.
  change (ptr_add 0 (size_t sizeof_stun_header)) with 20. cbn [obind snd]. rewrite indication_steps.
  assert (exists mem1 pos1, put_peers BUFFER_SIZE tid [record] (mem0, 20) = Next (mem1, pos1) /\ lenZ mem1 = 4096 /\
    bytes_ok mem1 /\ pos1 `mod` 4 = 0 /\ 20 <= pos1 <= 44) as (mem1 & pos1 & -> & Hm1 & Hmb1 & Hpa & Hp1).
  { cbn [put_peers]. unfold seq_w, when. destruct (negb (len record =? 0)); [|by exists mem0, 20].
    unfold put_address. destruct (stun_write_value_mapped_address _ _ _ _) as [n v] eqn:E.
    unfold when. destruct (0 <? n) eqn:En; [|by exists mem0, 20]. zify_bool.
    pose proof (mapped_value_len _ _ _ _ _ _ E Hr) as Hv. rewrite mask_length in Hv by done.
    assert (n = 8 \/ n = 20) as Hn by (unfold stun_write_value_mapped_address in E; repeat case_match; simplify_eq; lia).
    assert (bytes_ok v) as Hvb.
    { pose proof (address_bytes STUN_ATTR_XOR_PEER_ADDRESS tid record (conj Ht Htb) Hr) as Hab.
      unfold address_attr in Hab. rewrite E, (proj2 (Z.ltb_lt 0 n)) in Hab by lia.
      by apply Forall_cons_1 in Hab as [? _]. }
    destruct (put_step mem0 20 STUN_ATTR_XOR_PEER_ADDRESS v n) as (mem1 & pos1 & -> & Hm1 & Hmb1 & Hpos).
    - split; [done|]. split; [done|]. unfold BUFFER_SIZE. lia.
    - done.
    - auto with lia.
    - lia.
    - by left.
    - unfold BUFFER_SIZE in *. exists mem1, pos1. split; [done|]. split; [done|]. split; [done|].
      destruct Hn as [-> | ->]; [change (align32 8) with 8 in Hpos|change (align32 20) with 20 in Hpos];
        destruct Hpos as [[? ?]|[-> ?]]; [lia|split; [done|lia]|lia|split; [done|lia]]. }
  cbn [obind]. pose proof (lenZ_nonneg payload).
  destruct (put_step mem1 pos1 STUN_ATTR_DATA payload (lenZ payload)) as (mem2 & pos2 & -> & Hm2 & Hmb2 & Hp2);
    [split; [done|split; [done|unfold BUFFER_SIZE; lia]]|done|done|lia|by left|].
  cbn [obind]. unfold BUFFER_SIZE in Hp2, Hm2. pose proof (align32_bounds (lenZ payload)).
  destruct (put_step mem2 pos2 STUN_ATTR_SOFTWARE SOFTWARE (lenZ SOFTWARE)) as (mem3 & pos3 & -> & Hm3 & Hmb3 & Hp3).
  - split; [done|]. split; [done|]. unfold BUFFER_SIZE. lia.
  - by repeat constructor.
  - done.
  - done.
  - change (align32 (lenZ SOFTWARE)) with 8. unfold BUFFER_SIZE. destruct Hp2 as [[-> ?]|[-> ?]]; [right; lia|left].
    pose proof (align32_mod (lenZ payload)). lia_mod.
  - cbn [obind]. apply fingerprint_step; [|].
    + split; [done|]. split; [done|]. change (align32 (lenZ SOFTWARE)) with 8 in Hp3. unfold BUFFER_SIZE in *. lia.
    + change (align32 (lenZ SOFTWARE)) with 8 in Hp3. change (lenZ SOFTWARE) with 8 in Hp3. unfold BUFFER_SIZE in *. lia.
Qed.

Lemma send_indication_spec dst record payload tid m :
  tid_ok tid -> record_wf record -> bytes_ok payload -> lenZ payload <= BUFFER_SIZE ->
  spec (server_stun_send dst (data_indication record payload tid) None) m
    (fun _ m' => server m' = server m /\ answers dst m m').
Proof.
  intros Ht Hr Hb Hl. destruct (stack_bytes (asked m)) as [Hs Hsb].
  destruct (data_indication_written record payload tid (uninitialised (S (asked m))) (stack (asked m)))
    as (mem & size & Hw & Hml & Hsz); [done..|]. by eapply stun_send_written.
Qed.

End Relay.

Section Answer.
Context `{Platform, Hashes, !Environment}.

Lemma message_tid msg : message_ok msg -> tid_ok (transaction_id msg).
Proof. intros Hm. apply Hm. Qed.

(** Two steps of a run that only answers. *)
Lemma answers_bind {A B} src (x : M A) (f : A -> M B) m (P : A -> Prop) (Q : B -> Prop) :
  spec x m (fun a m' => answers src m m' /\ P a) ->
  (forall a m', answers src m m' -> P a -> spec (f a) m' (fun b m'' => answers src m' m'' /\ Q b)) ->
  spec (bind x f) m (fun b m'' => answers src m m'' /\ Q b).
Proof.
  intros Hx Hf. apply spec_bind. eapply spec_mono; [exact Hx|]. intros a m' [Ha HP].
  eapply spec_mono; [exact (Hf a m' Ha HP)|]. intros b m'' [Hb HQ]. split; [by eapply answers_trans|done].
Qed.

Lemma url64_byte i : is_byte (url64 i).
Proof.
  unfold url64. assert (bytes_ok (take 62 base64_tab ++ [45; 95])) as Hb.
  { apply List.Forall_forall. intros x Hx.
    assert (forallb is_byteb (take 62 base64_tab ++ [45; 95]) = true) as Hall by (vm_compute; reflexivity).
    rewrite forallb_forall in Hall. specialize (Hall x Hx). unfold is_byteb in Hall. zify_bool. unfold is_byte. lia. }
  destruct (nth_in_or_default (Z.to_nat i) (take 62 base64_tab ++ [45; 95]) 0) as [Hin | ->]; [|unfold is_byte; lia].
  rewrite List.Forall_forall in Hb. by apply Hb.
Qed.

Lemma nonce_cookie_ok s : bytes_ok s -> lenZ (stun_prepend_nonce_cookie s) <= 763 /\ bytes_ok (stun_prepend_nonce_cookie s).
Proof.
  intros Hs. unfold stun_prepend_nonce_cookie. cbv zeta.
  destruct (juice_base64_encode _ 5) as [encoded r] eqn:E. vm_compute in E. injection E as <- _.
  unfold snprintf_clip. split.
  - unfold lenZ. rewrite length_take. unfold STUN_MAX_NONCE_LEN. lia.
  - apply Forall_take. apply Forall_app_2; [by repeat constructor|]. apply Forall_app_2; [by repeat constructor|].
    by apply Forall_take.
Qed.

Lemma get_nonce_spec src m :
  spec (server_get_nonce src) m (fun n m' => answers src m m' /\ (lenZ n <= 763 /\ bytes_ok n)).
Proof.
  unfold server_get_nonce. apply spec_bind, spec_ask, spec_bind, spec_gets, spec_bind. cbn [memory].
  assert (Hn : forall key, lenZ (stun_prepend_nonce_cookie (map (fun d => url64 (d `mod` 64)) (hmac_sha256 (sockaddr_image src) key))) <= 763 /\
    bytes_ok (stun_prepend_nonce_cookie (map (fun d => url64 (d `mod` 64)) (hmac_sha256 (sockaddr_image src) key)))).
  { intros key. apply nonce_cookie_ok. apply List.Forall_forall. intros x Hx. apply in_map_iff in Hx as (d & <- & _).
    apply url64_byte. }
  case_test.
  - apply spec_bind, spec_ask, spec_modify, spec_bind, spec_gets, spec_ret. split; [|apply Hn].
    split; [by split|]. split; [cbn; lia|by apply emitted_refl].
  - apply spec_ret, spec_bind, spec_gets, spec_ret. split; [|apply Hn].
    split; [by split|]. split; [cbn; lia|by apply emitted_refl].
Qed.

Lemma clip_ok n s : bytes_ok s -> 0 < n -> lenZ (snprintf_clip n s) <= n - 1 /\ bytes_ok (snprintf_clip n s).
Proof. intros Hs Hn. unfold snprintf_clip. split; [unfold lenZ; rewrite length_take; lia|by apply Forall_take]. Qed.

Definition user_ok (creds : option server_credentials) : Prop :=
  match creds with Some c => bytes_ok (cr_username c) | None => True end.

Lemma prepare_spec src creds msg m :
  answer_msg msg -> bytes_ok (config_realm (config (server m))) -> user_ok creds ->
  spec (server_prepare_credentials src creds msg) m (fun msg' m' => answers src m m' /\ answer_msg msg').
Proof.
  intros Ha Hr Hu. unfold server_prepare_credentials. apply spec_bind, spec_gets, spec_bind.
  eapply spec_mono; [apply get_nonce_spec|]. intros n m' (Hans & Hn). apply spec_ret. split; [done|].
  destruct (clip_ok STUN_MAX_REALM_LEN (config_realm (config (server m))) Hr ltac:(done)) as [Hr1 Hr2].
  destruct Ha. destruct creds as [c|]; split; cbn; try done; try (by split).
  by apply clip_ok.
Qed.

Lemma same_realm src m m' : answers src m m' -> config (server m') = config (server m).
Proof. intros (Hs & _). apply Hs. Qed.

(** Prepare and send. *)
Lemma prepare_send_spec src creds msg password m :
  answer_msg msg -> bytes_ok (config_realm (config (server m))) -> user_ok creds ->
  spec (let* ans := server_prepare_credentials src creds msg in server_stun_send src ans password) m
    (fun _ m' => answers src m m').
Proof.
  intros Ha Hr Hu. apply spec_bind. eapply spec_mono; [by apply prepare_spec|]. intros msg' m' [Hans Ha'].
  eapply spec_mono; [by apply send_answer_spec|]. intros _ m'' [_ Hans']. by eapply answers_trans.
Qed.

Lemma record_zero_wf : record_wf addr_record_zero.
Proof. unfold record_wf. cbn. destruct AF_specified. by split; intros E; symmetry in E. Qed.

(** The fields of an answer that do not come from the request. *)
Ltac answer_fields := split; cbn; first [exact record_zero_wf | done | by repeat constructor | by (split; [done|by repeat constructor])].

Lemma answer_error_spec tid src method code creds m :
  tid_ok tid -> bytes_ok (config_realm (config (server m))) -> user_ok creds ->
  spec (server_answer_stun_error tid src method code creds) m (fun _ m' => answers src m m').
Proof.
  intros Ht Hr Hu. unfold server_answer_stun_error. set (ans := _ <| transaction_id := tid |>).
  assert (answer_msg ans) as Ha by answer_fields. clearbody ans.
  destruct (negb (method =? STUN_METHOD_BINDING)); [by apply prepare_send_spec|].
  apply spec_bind, spec_ret. eapply spec_mono; [by apply send_answer_spec|]. by intros _ m'' [_ ?].
Qed.

Lemma answer_binding_spec tid src m : tid_ok tid -> record_wf src ->
  spec (server_answer_stun_binding tid src) m (fun _ m' => answers src m m').
Proof.
  intros Ht Hs. unfold server_answer_stun_binding. cbv zeta. set (ans := _ <| transaction_id := tid |>).
  assert (answer_msg ans) as Ha by answer_fields. clearbody ans.
  eapply spec_mono; [by apply send_answer_spec|]. by intros _ m'' [_ ?].
Qed.

Lemma answer_success_spec msg src method creds m :
  message_ok msg -> bytes_ok (config_realm (config (server m))) -> bytes_ok (cr_username creds) ->
  spec (answer_success msg src method creds) m (fun _ m' => answers src m m').
Proof.
  intros Hm Hr Hu. apply message_tid in Hm. unfold answer_success. cbv zeta.
  set (ans := _ <| transaction_id := _ |>). assert (answer_msg ans) as Ha by answer_fields. clearbody ans.
  by apply prepare_send_spec.
Qed.

Lemma node_username g s id n : inv g s -> n ∈ server_credentials_list s -> node_id n = id ->
  bytes_ok (cr_username (node_credentials n)).
Proof.
  intros Hi Hn _. pose proof (inv_nodes _ _ Hi) as Hnodes. rewrite list.Forall_forall in Hnodes.
  apply (no_username _ _ (Hnodes n Hn)).
Qed.

Lemma answer_allocation_spec g msg src id lifetime_ relayed_ m :
  inv g (server m) -> id ∈ node_ids (server m) -> message_ok msg -> record_wf src ->
  (forall r, relayed_ = Some r -> record_wf r) ->
  spec (answer_allocation msg src id lifetime_ relayed_) m (fun _ m' => answers src m m').
Proof.
  intros Hi Hid Hm Hs Hr. apply message_tid in Hm. unfold answer_allocation. cbv zeta.
  set (ans0 := _ <| transaction_id := _ |>). assert (answer_msg ans0) as Ha0 by answer_fields. clearbody ans0.
  set (ans := match relayed_ with Some _ => _ | None => _ end).
  assert (answer_msg ans) as Ha.
  { unfold ans. destruct relayed_ as [r|]; [|done]. destruct Ha0. split; cbn; try done. by apply Hr. }
  clearbody ans. apply spec_bind. eapply deref_spec; [done|done|]. intros n Hn Hnid.
  apply prepare_send_spec; [done|apply (inv_realm _ _ Hi)|]. by eapply node_username.
Qed.

(** An error for the holder of some credentials. *)
Lemma answer_error_to_spec g msg src code id m :
  inv g (server m) -> id ∈ node_ids (server m) -> message_ok msg ->
  spec (let* creds := deref id in
        server_answer_stun_error (transaction_id msg) src (msg_method msg) code (Some creds)) m
    (fun _ m' => answers src m m').
Proof.
  intros Hi Hid Hm. apply message_tid in Hm. apply spec_bind. eapply deref_spec; [done|done|]. intros n Hn Hnid.
  apply answer_error_spec; [done|apply (inv_realm _ _ Hi)|]. by eapply node_username.
Qed.

End Answer.
