(* ===== verification/ServerOps.v ===== *)
(** * The operations on allocations keep the server's invariant *)

From S2P Require Import Prelude Machine Addr StunMsg StunWriteCorrect.
From S2P Require Import Turn TurnTable TurnOps TurnTids TurnMap.
From S2P Require Import Server ServerSend StunReceived ServerInv ServerAnswer.
From stdpp Require Import list.
#[local] Open Scope Z_scope.
#[local] Open Scope machine_scope.

Section Ops.
Context `{Platform, Hashes, !Environment}.

(** The events that are allowed: at least closing sockets and answering [src];
    the holders whose allocations may change. *)
Context (src : addr_record) (who : nat -> Prop) (P : Z -> event -> Prop).
Hypothesis closing : forall s sock, P s (Closed sock).
Hypothesis answering : forall s data, P s (Sent s src data).

Lemma get_alloc_spec i a m (Q : server_turn_alloc -> machine -> Prop) :
  allocs (server m) !! i = Some a -> Q a m -> spec (get_alloc i) m Q.
Proof. intros Hi HQ. unfold get_alloc. apply spec_bind, spec_gets. by eapply spec_defined. Qed.

Lemma inv_alloc g s i a : inv g s -> allocs s !! i = Some a -> alloc_ok s a.
Proof. intros Hi Ha. exact (Forall_lookup_1 _ _ _ _ (inv_allocs _ _ Hi) Ha). Qed.

Lemma inv_lookup g s i : inv g s -> (i < length (allocs s))%nat -> exists a, allocs s !! i = Some a.
Proof. intros _ Hi. by apply lookup_lt_is_Some_2. Qed.

Lemma good_quiet g m m' : inv g (server m') /\ evolves (server m) (server m') -> spares who (server m) (server m') ->
  events m' = events m -> good g who P m m'.
Proof. intros [Hi He] Hs Ee. split; [done|done|done|]. by apply emitted_refl. Qed.

(** Asking leaves the server alone. *)
Lemma good_server g m m' : inv g (server m) -> server m' = server m -> events m' = events m -> good g who P m m'.
Proof. intros Hi E Ee. apply good_quiet; [rewrite E; split; [done|apply server_evolves_refl]|by apply spares_same; rewrite E|done]. Qed.

Lemma good_ids g m m' id : good g who P m m' -> id ∈ node_ids (server m) -> id ∈ node_ids (server m').
Proof. intros Hg. by rewrite (evolves_ids _ _ (good_evolves _ _ _ _ _ Hg)). Qed.

(** ** The end of an allocation *)
Lemma uses_deleted k a : uses k (deleted a) = false.
Proof. done. Qed.

Lemma uses_full k a id : is_full a = true -> alloc_credentials a = Some id -> uses k a = (k =? id)%nat.
Proof.
  intros Hf Hc. unfold uses. rewrite Hf, Hc. cbn [andb]. destruct (k =? id)%nat eqn:E.
  - apply Nat.eqb_eq in E as ->. by apply bool_decide_eq_true.
  - apply Nat.eqb_neq in E. apply bool_decide_eq_false. congruence.
Qed.

Lemma not_full_uses k a : is_full a = false -> uses k a = false.
Proof. intros Hf. unfold uses. by rewrite Hf. Qed.

(** The element at [i] may change. *)
Definition mine (i : nat) (s : juice_server) : Prop :=
  forall a, allocs s !! i = Some a -> touchable who a.

Lemma delete_spec g i m :
  inv g (server m) -> (i < length (allocs (server m)))%nat -> mine i (server m) ->
  spec (delete_allocation i) m (fun _ m' => good g who P m m').
Proof.
  intros Hi Hlt Hmine. destruct (inv_lookup _ _ _ Hi Hlt) as [a Ha]. unfold delete_allocation.
  apply spec_bind. apply (get_alloc_spec _ a); [done|]. destruct (is_full a) eqn:Ef; cbn [negb].
  2: { apply spec_ret. by apply server_good_refl. }
  destruct (inv_alloc _ _ _ _ Hi Ha Ef) as (Hm & [sock Hs] & id & Hc & Hid).
  apply spec_bind. eapply spec_defined; [exact Hc|]. unfold change_quota. apply spec_bind, spec_bind.
  eapply deref_spec; [done|done|]. intros n Hn Hnid. apply spec_modify, spec_bind.
  eapply spec_defined; [exact Hs|]. apply spec_bind, spec_emit, spec_modify.
  pose proof (inv_nodes _ _ Hi) as Hnodes. rewrite list.Forall_forall in Hnodes.
  destruct (inv_transfer g (server m) i a (deleted a) id 1 Hi Ha) as [Hi' Hev].
  - intros Hf. done.
  - intros n' Hn' _. pose proof (no_quota _ _ (Hnodes n' Hn')). lia.
  - intros k. rewrite uses_deleted, (uses_full _ _ _ Ef Hc). destruct (k =? id)%nat; done.
  - split; [done|done| |].
    + eapply (spares_insert who _ _ i a); [done|reflexivity|]. by apply Hmine.
    + eexists [_]. split; [reflexivity|]. by constructor.
Qed.

(** ** The start of an allocation *)

(** The allocation at [i] is [a], in use by the holder of [id]. *)
Definition holds (i : nat) (a : server_turn_alloc) (id : nat) (s : juice_server) : Prop :=
  allocs s !! i = Some a /\ is_full a = true /\ alloc_credentials a = Some id.

Lemma holds_mine i a id s : who id -> holds i a id s -> mine i s.
Proof. intros Hw (Ha & _ & Hc) b Hb. assert (b = a) as -> by congruence. by exists id. Qed.

Definition opened_ok (g : nat -> Z) (P : Z -> event -> Prop) (i id : nat) (m : machine) (o : Z * Z + server_turn_alloc) (m' : machine) : Prop :=
  good g who P m m' /\ match o with inl _ => True | inr a => holds i a id (server m') end.

Lemma open_allocation_spec g msg id i m :
  inv g (server m) -> id ∈ node_ids (server m) -> (i < length (allocs (server m)))%nat -> who id ->
  spec (open_allocation msg src id i) m (opened_ok g P i id m).
Proof.
  intros Hi Hid Hlt Hwho. destruct (inv_lookup _ _ _ Hi Hlt) as [a Ha]. unfold open_allocation.
  apply spec_bind. apply (get_alloc_spec _ a); [done|]. destruct (is_full a) eqn:Ef.
  { case_test; [apply spec_ret; split; [by apply server_good_refl|done]|].
    case_test; [apply spec_ret; split; [by apply server_good_refl|done]|]. apply spec_ret.
    split; [by apply server_good_refl|]. apply negb_false_iff, bool_decide_eq_true in E0. done. }
  case_test; [apply spec_ret; split; [by apply server_good_refl|done]|].
  apply spec_bind. eapply deref_spec; [done|done|]. intros n Hn Hnid.
  case_test; zify_bool; [apply spec_ret; split; [by apply server_good_refl|done]|].
  apply spec_bind, spec_ask. destruct (create_socket (asked m)) as [sock|].
  2: { apply spec_bind, spec_modify, spec_ret. split; [|done]. apply good_quiet; [| |done]; cbn [memory].
       2: { eapply (spares_insert who _ _ i a); [done|reflexivity|]. exists id. split; [done|]. congruence. }
       apply (inv_set_alloc g (server m) i a); [done|done|intros Hf; change (is_full a = true) in Hf; congruence|].
       intros k. rewrite (not_full_uses k a Ef). by apply not_full_uses. }
  apply spec_bind, spec_gets. cbv zeta. cbn [memory]. set (a' := a <| alloc_sock := Some sock |> <| alloc_map := _ |>
    <| alloc_state := _ |> <| alloc_record := _ |> <| alloc_credentials := _ |>).
  assert (is_full a' = true /\ alloc_credentials a' = Some id /\ alloc_sock a' = Some sock /\
    alloc_map a' = turn_init_map (max_peers (config (server m)))) as (Hf' & Hc' & Hs' & Hm') by done. clearbody a'.
  apply spec_bind, spec_modify, spec_bind. unfold change_quota. cbn [memory asked events].
  set (s1 := server m <| allocs ::= _ |>).
  assert (El1 : server_credentials_list s1 = server_credentials_list (server m)) by done.
  pose proof (inv_nodes _ _ Hi) as Hnodes. rewrite list.Forall_forall in Hnodes.
  destruct (inv_transfer g (server m) i a a' id (-1) Hi Ha) as [Hi' Hev].
  - intros _. split; [rewrite Hm'; apply init_ok, (inv_peers _ _ Hi)|]. split; [by rewrite Hs'|]. by exists id.
  - intros n' Hn' Hid'. enough (n' = n) as -> by lia.
    pose proof (inv_ids _ _ Hi) as Hnd. unfold node_ids in Hnd.
    apply list_elem_of_lookup in Hn as [j Hj], Hn' as [j' Hj'].
    assert (j' = j) as ->; [|congruence]. eapply (NoDup_lookup _ j' j (node_id n)); [exact Hnd| |].
    + rewrite list_lookup_fmap, Hj'. cbn. congruence.
    + by rewrite list_lookup_fmap, Hj.
  - intros k. rewrite (uses_full _ _ _ Hf' Hc'), (not_full_uses _ _ Ef). destruct (k =? id)%nat; done.
  - apply spec_bind. destruct (node_at_some id _ Hid) as (n1 & Hn1 & _ & _).
    unfold deref. apply spec_bind, spec_gets, spec_bind. cbn [memory]. rewrite El1.
    eapply spec_defined; [exact Hn1|]. apply spec_ret, spec_modify, spec_ret.
    cbn [memory asked events]. split; [apply good_quiet; [by split| |done]|].
    + eapply (spares_insert who _ _ i a); [done|reflexivity|]. exists id. split; [done|]. congruence.
    + split; [|done]. apply list_lookup_insert_eq. exact Hlt.
Qed.

(** ** The relayed address *)
Lemma resolve_loop_spec ai count r records :
  Forall (fun a => sockaddr_wf (addr a)) ai -> Forall (fun a => sockaddr_wf (addr a)) records ->
  0 <= r -> lenZ records = Z.min r count ->
  let '(r', records') := addr_resolve_loop ai count r records in
  Forall (fun a => sockaddr_wf (addr a)) records' /\ lenZ records' = Z.min r' count /\ 0 <= r'.
Proof.
  revert r records. induction ai as [|a ai IH]; intros r records Hai Hr Hpos Hl; cbn [addr_resolve_loop]; [done|].
  apply Forall_cons_1 in Hai as [Ha Hai].
  assert (let '(r', records') := addr_resolve_loop ai count (r + 1) (if lenZ records =? count then records else records ++ [a]) in
    Forall (fun a => sockaddr_wf (addr a)) records' /\ lenZ records' = Z.min r' count /\ 0 <= r') as Hnext.
  { apply IH; [done| |lia|].
    - case_test; [done|]. apply Forall_app_2; [done|]. by constructor.
    - case_test; zify_bool; [lia|]. rewrite lenZ_app. change (lenZ [a]) with 1. lia. }
  destruct (addr a); [exact Hnext|exact Hnext|by apply IH].
Qed.

Lemma pick_relayed_wf records best r :
  Forall (fun a => sockaddr_wf (addr a)) records -> (forall r, best = Some r -> record_wf r) ->
  pick_relayed records best = Some r -> record_wf r.
Proof.
  revert best. induction records as [|a records IH]; intros best Hr Hb; cbn [pick_relayed]; [apply Hb|].
  apply Forall_cons_1 in Hr as [Ha Hr].
  repeat case_test; [by intros [= <-]| |]; apply IH; try done. by intros r' [= <-].
Qed.

Lemma find_relayed_spec sock m :
  spec (find_relayed sock) m (fun r m' => server m' = server m /\ events m' = events m /\
    forall a, r = Some a -> record_wf a).
Proof.
  unfold find_relayed. apply spec_bind, spec_gets, spec_bind.
  apply (spec_mono _ _ (fun r m' => server m' = server m /\ events m' = events m /\
    lenZ r.2 = Z.max 0 (Z.min r.1 MAX_RELAYED_RECORDS_COUNT) /\ Forall (fun a => sockaddr_wf (addr a)) r.2)).
  - destruct (external_address (config (server m))) as [name|].
    + apply spec_bind, spec_ask, spec_ret. split; [done|]. split; [done|]. pose proof (resolve_wf (asked m) name sock) as Hwf.
      destruct (resolve (asked m) name sock) as [ai|]; cbn [addr_resolve]; [|done]. cbn [default] in Hwf.
      pose proof (resolve_loop_spec ai MAX_RELAYED_RECORDS_COUNT 0 [] Hwf ltac:(constructor) ltac:(done) ltac:(done)) as Hs.
      destruct (addr_resolve_loop ai MAX_RELAYED_RECORDS_COUNT 0 []) as [r records].
      destruct Hs as (Hs & Hl & Hpos). cbn [fst snd]. unfold MAX_RELAYED_RECORDS_COUNT in *. split; [lia|done].
    + apply spec_ask. split; [done|]. split; [done|]. split; [apply get_addrs_count|apply get_addrs_wf].
  - intros [count records] m' (Es & Ee & Hl & Hwf). cbn [fst snd] in *.
    case_test; [by apply spec_ret|]. zify_bool. unfold MAX_RELAYED_RECORDS_COUNT in *.
    assert (Hc : lenZ records = if count >? 8 then 8 else count) by (case_test; lia).
    apply spec_bind. eapply spec_defined; [apply load_ok; [lia|case_test; lia|case_test; lia]|].
    apply spec_ret. split; [done|]. split; [done|]. intros a Ha.
    eapply pick_relayed_wf; [| |exact Ha]; [by apply Forall_take, Forall_drop|done].
Qed.

(** ** Allocate and Refresh *)
Lemma set_alloc_spec g i a a' m :
  inv g (server m) -> allocs (server m) !! i = Some a -> alloc_ok (server m) a' -> (forall k, uses k a' = uses k a) ->
  mine i (server m) -> spec (set_alloc i a') m (fun _ m' => good g who P m m' /\ allocs (server m') !! i = Some a').
Proof.
  intros Hi Ha Hok Hu Hmine. apply spec_modify. destruct (inv_set_alloc g (server m) i a a' Hi Ha Hok Hu) as [Hi' Hev].
  split; [apply good_quiet; [by split| |done]|].
  { eapply (spares_insert who _ _ i a); [done|reflexivity|]. by apply Hmine. }
  apply list_lookup_insert_eq. by eapply lookup_lt_Some.
Qed.

(** Errors and answers keep the invariant. *)
Lemma spec_good_answers {A} g (x : M A) m :
  inv g (server m) -> spec x m (fun _ m' => answers src m m') -> spec x m (fun _ m' => good g who P m m').
Proof. intros Hi Hx. eapply spec_mono; [exact Hx|]. intros r m' Ha. exact (good_answers g who P src m m' answering Hi Ha). Qed.

Lemma spec_good_bind {A B} g (x : M A) (f : A -> M B) m :
  spec x m (fun _ m' => good g who P m m') ->
  (forall a m', good g who P m m' -> spec (f a) m' (fun _ m'' => good g who P m' m'')) ->
  spec (bind x f) m (fun _ m'' => good g who P m m'').
Proof.
  intros Hx Hf. apply spec_bind. eapply spec_mono; [exact Hx|]. intros a m' Hg.
  eapply spec_mono; [exact (Hf a m' Hg)|]. intros b m'' Hg'. exact (server_good_trans _ _ _ _ _ _ Hg Hg').
Qed.

Lemma good_error g msg code id m :
  inv g (server m) -> id ∈ node_ids (server m) -> message_ok msg ->
  spec (let* creds := deref id in
        server_answer_stun_error (transaction_id msg) src (msg_method msg) code (Some creds)) m
    (fun _ m' => good g who P m m').
Proof. intros Hi Hid Hm. apply (spec_good_answers g); [done|]. by eapply answer_error_to_spec. Qed.

Lemma found_lookup g s r0 ad : inv g s -> exists r, find_allocation (allocs s) r0 ad = Some r /\
  match r with Some i => (i < length (allocs s))%nat | None => True end.
Proof.
  intros Hi. destruct (find_allocation_total (allocs s) r0 ad (inv_size _ _ Hi)) as (r & Hr & Hs).
  exists r. split; [done|]. destruct r as [i|]; [|done]. destruct Hs as (a & Ha & _). by eapply lookup_lt_Some.
Qed.

Lemma allocate_spec g msg id m :
  inv g (server m) -> id ∈ node_ids (server m) -> message_ok msg -> record_wf src -> who id ->
  spec (server_process_turn_allocate msg src id) m (fun _ m' => good g who P m m').
Proof.
  intros Hi Hid Hm Hs Hwho. unfold server_process_turn_allocate.
  case_test; [apply spec_ret; by apply server_good_refl|]. case_test; [apply spec_ret; by apply server_good_refl|].
  cbv zeta. apply spec_bind, spec_gets, spec_bind.
  destruct (found_lookup g (server m) src true Hi) as (found & Hf & Hlt). eapply spec_defined; [exact Hf|].
  destruct found as [i|]; [|by apply good_error].
  apply spec_bind. eapply spec_mono; [by apply open_allocation_spec|]. intros [[code result]|a] m1 [Hg1 Ho].
  { eapply spec_mono with (Q := fun _ m' => good g who P m1 m'); [|intros r m2 Hg2; exact (server_good_trans _ _ _ _ _ _ Hg1 Hg2)].
    apply spec_good_bind; [apply good_error; [by eapply good_inv|by eapply good_ids|done]|].
    intros r m2 Hg2. apply spec_ret, server_good_refl. by eapply good_inv. }
  destruct Ho as (Ha & Hfull & Hc). pose proof (good_inv _ _ _ _ _ Hg1) as Hi1. pose proof (good_ids _ _ _ _ Hg1 Hid) as Hid1.
  apply spec_bind, spec_ask. set (lt := if _ && _ then _ else _). clearbody lt.
  set (a' := a <| alloc_timestamp := _ |> <| alloc_transaction_id := _ |>).
  assert (is_full a' = is_full a /\ alloc_credentials a' = alloc_credentials a /\ alloc_sock a' = alloc_sock a /\
    alloc_map a' = alloc_map a) as (Hf' & Hc' & Hs' & Hm') by done. clearbody a'.
  apply spec_bind. eapply spec_mono; [apply (set_alloc_spec g i a a'); [done|done| | |by apply (holds_mine i a id)]|].
  - intros _. rewrite Hc', Hs', Hm'. exact (inv_alloc _ _ _ _ Hi1 Ha Hfull).
  - intros k. unfold uses. by rewrite Hf', Hc'.
  - cbn [memory]. intros _ m2 [Hg2 Ha2]. cut (spec
      (if lt =? 0 then delete_allocation i;; answer_allocation msg src id lt None
       else let* sock := defined (alloc_sock a) in
            let* relayed := find_relayed sock in
            match relayed with
            | Some r => answer_allocation msg src id lt (Some r)
            | None => delete_allocation i;;
                (let* creds := deref id in server_answer_stun_error (transaction_id msg) src (msg_method msg) 500 (Some creds));;
                ret (-1)
            end) m2 (fun _ m' => good g who P m2 m')).
    { intros Hspec. eapply spec_mono; [exact Hspec|]. intros r m3 Hg3.
      eapply server_good_trans; [exact Hg1|]. eapply server_good_trans; [|exact Hg3]. exact (server_good_asked _ _ _ _ _ _ Hg2). }
    pose proof (good_inv _ _ _ _ _ Hg2) as Hi2. pose proof (good_ids _ _ _ id Hg2 Hid1) as Hid2.
    assert (Hmine2 : mine i (server m2)) by (apply (holds_mine i a' id); [done|]; unfold holds; by rewrite Hf', Hc').
    assert (Hlt2 : (i < length (allocs (server m2)))%nat) by (by eapply lookup_lt_Some).
    assert (Hans : forall relayed_ m3, good g who P m2 m3 -> (forall r, relayed_ = Some r -> record_wf r) ->
      spec (answer_allocation msg src id lt relayed_) m3 (fun _ m' => good g who P m3 m')).
    { intros relayed_ m3 Hg3 Hr. pose proof (good_inv _ _ _ _ _ Hg3).
      apply (spec_good_answers g); [done|]. eapply answer_allocation_spec; try done. by eapply good_ids. }
    case_test.
    + apply spec_good_bind; [by apply delete_spec|]. intros _ m3 Hg3. by apply Hans.
    + destruct (inv_alloc _ _ _ _ Hi1 Ha Hfull) as (_ & [sock Hsock] & _).
      apply spec_bind. eapply spec_defined; [exact Hsock|]. apply spec_bind.
      eapply spec_mono; [apply find_relayed_spec|]. intros [r|] m3 (Es & Ee & Hr).
      * assert (Hg3 : good g who P m2 m3) by (by apply good_server).
        eapply spec_mono; [by apply Hans|]. intros ? m4 Hg4. exact (server_good_trans _ _ _ _ _ _ Hg3 Hg4).
      * assert (Hg3 : good g who P m2 m3) by (by apply good_server).
        eapply spec_mono with (Q := fun _ m' => good g who P m3 m'); [|intros ? m4 Hg4; exact (server_good_trans _ _ _ _ _ _ Hg3 Hg4)].
        apply spec_good_bind; [apply delete_spec; [by eapply good_inv|by rewrite Es|by rewrite Es]|]. intros _ m4 Hg4.
        apply spec_good_bind; [|intros ? m5 Hg5; apply spec_ret, server_good_refl; by eapply good_inv].
        apply good_error; [by eapply good_inv| |done]. eapply good_ids; [exact Hg4|]. by eapply good_ids.
Qed.

End Ops.
