(* ===== verification/ServerHandlers.v ===== *)
(** * Permissions, channels and relaying keep the server's invariant *)

From S2P Require Import Prelude Machine Addr StunMsg StunWrite StunWriteCorrect StunRead StunReadSafe.
From S2P Require Import Turn TurnTable TurnOps TurnTids TurnMap TurnLife.
From S2P Require Import Server ServerSend StunReceived ServerAnswer ServerInv ServerOps.
From stdpp Require Import list.
#[local] Open Scope Z_scope.
#[local] Open Scope machine_scope.

Section Handlers.
Context `{Platform, Hashes, !Environment}.
Context (src : addr_record) (who : nat -> Prop) (P : Z -> event -> Prop).
Hypothesis closing : forall s sock, P s (Closed sock).
Hypothesis answering : forall s data, P s (Sent s src data).

(** ** Permissions and channels *)

(** The holder of [id], who may change it, has the allocation at [i]. *)
Definition held (i id : nat) (s : juice_server) : Prop := who id /\ exists a, holds i a id s.

Lemma held_lt i id s : held i id s -> (i < length (allocs s))%nat.
Proof. intros (_ & a & Ha & _). by eapply lookup_lt_Some. Qed.

(** A new map in a full allocation. *)
Lemma set_map_spec g i id tm m :
  inv g (server m) -> held i id (server m) -> server_ok tm ->
  spec (set_map i tm) m (fun _ m' => good g who P m m' /\ held i id (server m')).
Proof.
  intros Hi (Hw & a & Ha & Hf & Hc) Htm. unfold set_map. apply spec_bind. apply (get_alloc_spec _ a); [done|].
  set (a' := a <| alloc_map := tm |>).
  assert (is_full a' = is_full a /\ alloc_credentials a' = alloc_credentials a /\ alloc_sock a' = alloc_sock a /\
    alloc_map a' = tm) as (Hf' & Hc' & Hs' & Hm') by done. clearbody a'.
  eapply spec_mono; [apply (set_alloc_spec who P g i a a'); [done|done| | |by apply (holds_mine who i a id)]|].
  - intros _. rewrite Hc', Hs', Hm'. destruct (inv_alloc _ _ _ _ Hi Ha Hf) as (_ & Hs & Hid). done.
  - intros k. unfold uses. by rewrite Hf', Hc'.
  - intros _ m' [Hg Hl]. split; [done|]. split; [done|]. exists a'. unfold holds. by rewrite Hf', Hc'.
Qed.

Lemma held_map g i id s a : inv g s -> holds i a id s -> server_ok (alloc_map a) /\ is_Some (alloc_sock a).
Proof. intros Hi (Ha & Hf & _). destruct (inv_alloc _ _ _ _ Hi Ha Hf) as (Hm & Hs & _). done. Qed.

Lemma permit_spec g i id tid peer m :
  inv g (server m) -> held i id (server m) -> is_tid tid -> inet peer ->
  spec (permit i tid peer) m (fun _ m' => good g who P m m' /\ held i id (server m')).
Proof.
  intros Hi Hh Ht Hp. pose proof Hh as (_ & a & Ha). destruct (held_map _ _ _ _ _ Hi Ha) as [Hm _].
  unfold permit. apply spec_bind. apply (get_alloc_spec _ a); [by destruct Ha|]. apply spec_bind, spec_ask, spec_bind.
  destruct (update_record_spec (clock (asked m)) (alloc_map a) TURN_ENTRY_TYPE_PERMISSION peer tid PERMISSION_LIFETIME)
    as (ok & tm & Hu & Htm & _); [done|by left|done|done|].
  eapply spec_defined; [exact Hu|]. cbn beta iota. apply spec_bind.
  eapply spec_mono; [by apply (set_map_spec g i id tm)|]. intros _ m' [Hg Hh']. apply spec_ret. split; [exact (server_good_asked _ _ _ _ _ _ Hg)|done].
Qed.

Lemma permit_all_spec g i id tid ps m :
  inv g (server m) -> held i id (server m) -> is_tid tid -> Forall inet ps ->
  spec (permit_all i tid ps) m (fun _ m' => good g who P m m').
Proof.
  intros Hi Hh Ht Hps. revert m Hi Hh. induction Hps as [|p ps Hp Hps IH]; intros m Hi Hh; cbn [permit_all].
  { apply spec_ret. by apply server_good_refl. }
  apply spec_bind. eapply spec_mono; [by apply (permit_spec g i id)|]. intros ok m' [Hg Hh'].
  destruct ok; cbn [negb]; [|by apply spec_ret].
  eapply spec_mono; [apply IH; [by eapply good_inv|done]|]. intros r m'' Hg'. exact (server_good_trans _ _ _ _ _ _ Hg Hg').
Qed.

Lemma bind_spec g i id tid peer channel m :
  inv g (server m) -> held i id (server m) -> is_tid tid -> inet peer -> 0 <= channel < 65536 ->
  spec (bind_channel i peer tid channel) m (fun _ m' => good g who P m m' /\ held i id (server m')).
Proof.
  intros Hi Hh Ht Hp Hc. pose proof Hh as (_ & a & Ha). destruct (held_map _ _ _ _ _ Hi Ha) as [[Hm Hnil] _].
  unfold bind_channel. apply spec_bind. apply (get_alloc_spec _ a); [by destruct Ha|]. apply spec_bind, spec_ask, spec_bind.
  destruct (bind_channel_spec (clock (asked m)) (alloc_map a) peer (Some tid) channel BIND_LIFETIME)
    as (ok & tm & Hu & Htm & Htids & _); [done|done|done|by intros t [= <-]|].
  eapply spec_defined; [exact Hu|]. cbn beta iota. apply spec_bind.
  eapply spec_mono; [apply (set_map_spec g i id tm); [done|done|split; [done|by rewrite Htids]]|].
  intros _ m' [Hg Hh']. apply spec_ret. split; [exact (server_good_asked _ _ _ _ _ _ Hg)|done].
Qed.

(** Looking an allocation up changes nothing. *)
Lemma own_allocation_spec g id m : inv g (server m) ->
  spec (own_allocation src id) m (fun r m' => m' = m /\
    match r with inl _ => True | inr (i, a) => holds i a id (server m) end).
Proof.
  intros Hi. unfold own_allocation. apply spec_bind, spec_gets, spec_bind.
  destruct (found_lookup g (server m) src false Hi) as (found & Hf & Hlt). eapply spec_defined; [exact Hf|].
  destruct found as [i|]; [|by apply spec_ret]. destruct (inv_lookup _ _ _ Hi Hlt) as [a Ha].
  apply spec_bind. apply (get_alloc_spec _ a); [done|].
  case_test; [by apply spec_ret|]. case_test; [by apply spec_ret|]. apply spec_ret. split; [done|].
  apply negb_false_iff in E. apply negb_false_iff, bool_decide_eq_true in E0. done.
Qed.

(** The allocation [a] is in use by the client at [src]. *)
Definition client_alloc (s : juice_server) (a : server_turn_alloc) : Prop :=
  exists i id, holds i a id s /\ addr_record_is_equal (alloc_record a) src true = true.

Lemma full_allocation_spec g m : inv g (server m) ->
  spec (full_allocation src) m (fun r m' => m' = m /\
    match r with None => True | Some a => client_alloc (server m) a end).
Proof.
  intros Hi. unfold full_allocation. apply spec_bind, spec_gets, spec_bind.
  destruct (find_allocation_total (allocs (server m)) src false (inv_size _ _ Hi)) as (found & Hf & Hs).
  eapply spec_defined; [exact Hf|]. destruct found as [i|]; [|by apply spec_ret]. destruct Hs as (a & Ha & Hs).
  apply spec_bind. apply (get_alloc_spec _ a); [done|]. apply spec_ret. split; [done|].
  destruct (is_full a) eqn:E; [|done]. destruct (inv_alloc _ _ _ _ Hi Ha E) as (_ & _ & id & Hc & _).
  exists i, id. split; [done|]. by apply (stops_full src false).
Qed.

(** The answers of the two requests, to the holder of the credentials. *)
Lemma good_creds_error g msg code creds m :
  inv g (server m) -> message_ok msg -> bytes_ok (cr_username creds) ->
  spec (server_answer_stun_error (transaction_id msg) src (msg_method msg) code (Some creds)) m (fun _ m' => good g who P m m').
Proof.
  intros Hi Hm Hu. apply (spec_good_answers src who P answering g); [done|].
  apply answer_error_spec; [by apply message_tid|apply (inv_realm _ _ Hi)|done].
Qed.

Lemma good_creds_fail g msg code creds m :
  inv g (server m) -> message_ok msg -> bytes_ok (cr_username creds) ->
  spec (server_answer_stun_error (transaction_id msg) src (msg_method msg) code (Some creds);; ret (-1)) m
    (fun _ m' => good g who P m m').
Proof.
  intros Hi Hm Hu. apply (spec_good_bind who P); [by apply good_creds_error|]. intros ? m' Hg.
  apply spec_ret, server_good_refl. by eapply good_inv.
Qed.

Lemma good_creds_success g msg method creds m :
  inv g (server m) -> message_ok msg -> bytes_ok (cr_username creds) ->
  spec (answer_success msg src method creds) m (fun _ m' => good g who P m m').
Proof.
  intros Hi Hm Hu. apply (spec_good_answers src who P answering g); [done|].
  apply answer_success_spec; [done|apply (inv_realm _ _ Hi)|done].
Qed.

Lemma create_permission_spec g msg id m :
  inv g (server m) -> id ∈ node_ids (server m) -> message_ok msg -> who id ->
  spec (server_process_turn_create_permission msg src id) m (fun _ m' => good g who P m m').
Proof.
  intros Hi Hid Hm Hw. unfold server_process_turn_create_permission.
  case_test; [apply spec_ret; by apply server_good_refl|]. apply spec_bind. eapply deref_spec; [done|done|]. intros n Hn Hnid.
  pose proof (node_username _ _ _ _ Hi Hn Hnid) as Hu. cbv zeta. case_test; [by apply good_creds_error|].
  apply spec_bind. eapply spec_mono; [by apply (own_allocation_spec g)|]. intros [code|[i a]] m' [-> Ha];
    [by apply good_creds_error|].
  apply (spec_good_bind who P); [apply (permit_all_spec g i id); [done|by (split; [done|by exists a])|apply (mo_tid _ Hm)|apply (mo_peers _ Hm)]|].
  intros ok m' Hg. apply good_inv in Hg. destruct ok; [by apply good_creds_success|by apply good_creds_fail].
Qed.

Lemma channel_bind_spec g msg id m :
  inv g (server m) -> id ∈ node_ids (server m) -> message_ok msg -> who id ->
  spec (server_process_turn_channel_bind msg src id) m (fun _ m' => good g who P m m').
Proof.
  intros Hi Hid Hm Hw. unfold server_process_turn_channel_bind.
  case_test; [apply spec_ret; by apply server_good_refl|]. apply spec_bind. eapply deref_spec; [done|done|]. intros n Hn Hnid.
  pose proof (node_username _ _ _ _ Hi Hn Hnid) as Hu. cbv zeta. pose proof (mo_peers _ Hm) as Hps.
  destruct (peers msg) as [|peer ps]; [by apply good_creds_error|]. apply Forall_cons_1 in Hps as [Hp _].
  case_test; [by apply good_creds_error|].
  apply spec_bind. eapply spec_mono; [by apply (own_allocation_spec g)|]. intros [code|[i a]] m' [-> Ha];
    [by apply good_creds_error|].
  case_test; [by apply good_creds_error|]. apply spec_bind.
  eapply spec_mono; [apply (bind_spec g i id); [done|by (split; [done|by exists a])|apply (mo_tid _ Hm)|done|apply (mo_channel _ Hm)]|].
  intros ok m1 [Hg1 Hh1]. eapply spec_mono with (Q := fun _ m' => good g who P m1 m');
    [|intros ? m2 Hg2; exact (server_good_trans _ _ _ _ _ _ Hg1 Hg2)]. apply good_inv in Hg1.
  destruct ok; cbn [negb]; [|by apply good_creds_fail].
  apply (spec_good_bind who P); [eapply spec_mono; [apply (permit_spec g i id); [done|done|apply (mo_tid _ Hm)|done]|by intros ? ? [? _]]|].
  intros ok m2 Hg2. apply good_inv in Hg2. destruct ok; [by apply good_creds_success|by apply good_creds_fail].
Qed.

(** ** Relaying *)

(** The client may send to [peer] through [a]. *)
Definition permitted (now : Z) (a : server_turn_alloc) (peer : addr_record) : Prop :=
  exists e, view (alloc_map a) TURN_ENTRY_TYPE_PERMISSION peer = Some e /\ now < entry_timestamp e.
Definition bound (now : Z) (a : server_turn_alloc) (peer : addr_record) : Prop :=
  exists c e, owner (alloc_map a) c = Some e /\ now < entry_timestamp e /\ entry_record e = peer.

(** What the client at [src] may have sent, not before the [n]th question. *)
Inductive relayed_from (s : juice_server) (n : nat) : event -> Prop :=
| relay a sock peer data k : client_alloc s a -> alloc_sock a = Some sock -> (n <= k)%nat ->
    permitted (clock k) a peer \/ bound (clock k) a peer -> relayed_from s n (Sent sock peer data).

Definition relays (m m' : machine) : Prop :=
  server m' = server m /\ emitted m m' (relayed_from (server m) (asked m)).

Lemma relays_refl m m' : server m' = server m -> events m' = events m -> relays m m'.
Proof. intros E Ee. split; [done|by apply emitted_refl]. Qed.

Lemma relays_one m m' sock peer data : server m' = server m -> events m' = Sent sock peer data :: events m ->
  relayed_from (server m) (asked m) (Sent sock peer data) -> relays m m'.
Proof. intros E Ee Hr. split; [done|]. exists [Sent sock peer data]. split; [done|]. by constructor. Qed.

Lemma has_permission_spec now a peer : server_ok (alloc_map a) ->
  exists b, turn_has_permission now (alloc_map a) peer = Some b /\ (b = true -> permitted now a peer).
Proof.
  intros [Hm _]. rewrite turn_has_permission_view by apply Hm. eexists. split; [reflexivity|]. unfold permitted.
  destruct (view _ _ _) as [e|]; [|done]. intros Hb. exists e. split; [done|]. by apply Z.ltb_lt in Hb.
Qed.

Lemma find_bound_spec now a channel : server_ok (alloc_map a) ->
  exists r, turn_find_bound_channel now (alloc_map a) channel = Some r /\
    match r with Some peer => bound now a peer | None => True end.
Proof.
  intros [Hm _]. destruct (is_valid_channel channel) eqn:Hv.
  2: { exists None. unfold turn_find_bound_channel. by rewrite Hv. }
  rewrite turn_find_bound_channel_owner by done. eexists. split; [reflexivity|].
  destruct (owner (alloc_map a) channel) as [e|] eqn:Ho; cbn [obind]; [|done]. case_test; [done|]. zify_bool.
  exists channel, e. done.
Qed.

Lemma send_spec g msg m : inv g (server m) -> message_ok msg ->
  spec (server_process_turn_send msg src) m (fun _ m' => relays m m').
Proof.
  intros Hi Hm. unfold server_process_turn_send. case_test; [by apply spec_ret, relays_refl|].
  pose proof (mo_data _ Hm) as Hd. destruct (data msg) as [payload|]; [|by apply spec_ret, relays_refl].
  destruct (peers msg) as [|peer ps]; [by apply spec_ret, relays_refl|]. destruct Hd as [Hd _].
  apply spec_bind. eapply spec_mono; [by apply (full_allocation_spec g)|]. intros [a|] m' [-> Ha];
    [|by apply spec_ret, relays_refl].
  pose proof Ha as (i & id & Hh & Heq). destruct (held_map _ _ _ _ _ Hi Hh) as [Htm [sock Hs]].
  apply spec_bind, spec_ask, spec_bind. destruct (has_permission_spec (clock (asked m)) a peer Htm) as (b & Hb & Hp).
  eapply spec_defined; [exact Hb|]. destruct b; cbn [negb]; [|by apply spec_ret, relays_refl].
  apply spec_bind. eapply spec_defined; [exact Hs|]. apply spec_bind.
  pose proof (lenZ_nonneg payload). eapply spec_defined; [apply load_ok; lia|].
  unfold udp_sendto. apply spec_bind, spec_emit, spec_ask. eapply relays_one; [done|reflexivity|].
  apply (relay _ _ a sock peer _ (asked m)); auto.
Qed.

Lemma channel_data_spec g buf size m : inv g (server m) -> bytes_ok buf -> 0 <= size <= lenZ buf ->
  spec (server_process_channel_data buf size src) m (fun _ m' => relays m m').
Proof.
  intros Hi Hb Hsz. unfold server_process_channel_data.
  apply spec_bind. eapply spec_mono; [by apply (full_allocation_spec g)|]. intros [a|] m' [-> Ha];
    [|by apply spec_ret, relays_refl].
  pose proof Ha as (i & id & Hh & Heq). destruct (held_map _ _ _ _ _ Hi Hh) as [Htm [sock Hs]].
  unfold sizeof_channel_data_header. case_test; zify_bool; [by apply spec_ret, relays_refl|]. cbv zeta.
  apply spec_bind. eapply spec_defined; [unfold load16; rewrite load_ok by lia; reflexivity|].
  apply spec_bind. eapply spec_defined; [unfold load16; rewrite load_ok by lia; reflexivity|].
  set (l := ntohs _). set (c := ntohs _). assert (0 <= l < 65536) by apply ntohs_range. clearbody c l.
  case_test; zify_bool; [by apply spec_ret, relays_refl|].
  apply spec_bind, spec_ask, spec_bind. destruct (find_bound_spec (clock (asked m)) a c Htm) as (r & Hr & Hp).
  eapply spec_defined; [exact Hr|]. destruct r as [peer|]; [|by apply spec_ret, relays_refl].
  apply spec_bind. eapply spec_defined; [exact Hs|]. apply spec_bind. eapply spec_defined; [apply load_ok; lia|].
  unfold udp_sendto. apply spec_bind, spec_bind, spec_emit, spec_ask, spec_ret.
  eapply relays_one; [done|reflexivity|]. apply (relay _ _ a sock peer _ (asked m)); auto.
Qed.

(** *** From the peers *)

(** A datagram the server can receive. *)
Definition payload_ok (payload : list Z) (record : addr_record) : Prop :=
  bytes_ok payload /\ lenZ payload <= BUFFER_SIZE /\ record_wf record.

Definition unmapped (record : addr_record) : addr_record :=
  let '(sa, l, _) := addr_unmap_inet6_v4mapped (addr record) (len record) in mkRecord sa l.

Lemma unmapped_wf record : record_wf record -> record_wf (unmapped record).
Proof.
  unfold record_wf, unmapped, addr_unmap_inet6_v4mapped. destruct (addr record) as [p a|p a|f] eqn:E; try done; cbn.
  intros (Hp & Hl & Hb). destruct (IN6_IS_ADDR_V4MAPPED a); [|done]. cbn. split; [done|]. split.
  - rewrite length_take, length_drop. lia.
  - by apply Forall_take, Forall_drop.
Qed.

(** What reaches the client comes from a peer it has permitted. *)
Definition forwards (a : server_turn_alloc) (peer : addr_record) (m m' : machine) : Prop :=
  server m' = server m /\
  emitted m m' (fun e => to_client (server_sock (server m)) (alloc_record a) e /\
                         exists k, (asked m <= k)%nat /\ permitted (clock k) a peer).

Lemma forwards_refl a peer m m' : server m' = server m -> events m' = events m -> forwards a peer m m'.
Proof. intros E Ee. split; [done|by apply emitted_refl]. Qed.

Lemma forward_spec g i id a payload record m :
  inv g (server m) -> holds i a id (server m) -> payload_ok payload record ->
  spec (server_forward i (Some (payload, record))) m (fun _ m' => forwards a (unmapped record) m m').
Proof.
  intros Hi Hh (Hb & Hl & Hwf). destruct (held_map _ _ _ _ _ Hi Hh) as [Htm [sock Hs]]. pose proof Htm as [Hm _].
  apply unmapped_wf in Hwf. unfold server_forward. apply spec_bind. apply (get_alloc_spec _ a); [by destruct Hh|].
  apply spec_bind, spec_ask. fold (unmapped record). cbn beta iota. revert Hwf.
  unfold unmapped. destruct (addr_unmap_inet6_v4mapped (addr record) (len record)) as [[sa l] u]. cbv zeta.
  set (peer := mkRecord sa l). clearbody peer. intros Hwf.
  apply spec_bind, spec_ask, spec_bind.
  destruct (has_permission_spec (clock (S (asked m))) a peer Htm) as (b & Hb' & Hp).
  eapply spec_defined; [exact Hb'|]. destruct b; cbn [negb]; [|by apply spec_ret, forwards_refl]. specialize (Hp eq_refl).
  apply spec_bind, spec_ask, spec_bind. eapply spec_defined; [apply turn_get_bound_channel_view, Hm|].
  destruct (let? e := _ in _) as [channel|].
  - destruct (stack_bytes (asked m)) as [Hst _].
    destruct (wrap_total (payload ++ drop (length payload) (stack (asked m))) payload channel) as (buf & size & Hw & Hbl & Hsz).
    assert (lenZ (payload ++ drop (length payload) (stack (asked m))) = BUFFER_SIZE) as Hlb
      by (rewrite lenZ_app, lenZ_drop; unfold lenZ in *; lia). rewrite Hlb in *.
    apply spec_bind. eapply spec_defined; [exact Hw|]. cbn beta iota. case_test; zify_bool; [by apply spec_ret, forwards_refl|].
    apply spec_bind. eapply spec_defined; [apply load_ok; lia|]. apply spec_bind, spec_gets.
    unfold udp_sendto. apply spec_bind, spec_emit, spec_ask. split; [done|].
    eexists [_]. split; [reflexivity|]. constructor; [|constructor]. split; [by eexists|]. exists (S (asked m)). split; [lia|done].
  - apply spec_bind, spec_ask. cbn [memory asked events].
    destruct (random_bytes (S (S (S (asked m)))) STUN_TRANSACTION_ID_SIZE ltac:(done)) as [Htl Htb].
    set (tid := random _ _). change (lenZ tid = 12) in Htl. change (bytes_ok tid) in Htb. clearbody tid.
    eapply spec_mono; [apply (send_indication_spec (alloc_record a) peer payload tid); [|done|done|done]|].
    + split; [unfold lenZ in Htl; lia|done].
    + cbn [memory asked events]. intros _ m' (Es & _ & _ & He). split; [done|]. eapply emitted_impl; [exact He|].
      intros e Hc. split; [exact Hc|]. exists (S (asked m)). split; [lia|done].
Qed.

End Handlers.
