(* ===== verification/ServerRequests.v ===== *)
(** * Requests: what a datagram can make the server do *)

From S2P Require Import Prelude Machine ConstTime Addr StunMsg StunWrite StunWriteCorrect StunRead StunReadSafe.
From S2P Require Import Turn TurnTable Server ServerSend StunReceived ServerInv ServerAnswer ServerOps ServerHandlers.
From stdpp Require Import list.
#[local] Open Scope Z_scope.
#[local] Open Scope machine_scope.

Section Requests.
Context `{Platform, Hashes, !Environment}.

(** ** Credentials *)
Lemma username_compare_total x a b : In 0 a -> In 0 b -> exists r, const_time_strcmp_loop x a b = Some r.
Proof.
  revert x b. induction a as [|p a IH]; intros x [|q b] Ha Hb; try done. cbn [const_time_strcmp_loop]. cbv zeta.
  case_test; [eauto|]. zify_bool. destruct Ha as [->|Ha]; [done|]. destruct Hb as [->|Hb]; [done|]. by apply IH.
Qed.

Lemma userhash_compare_total n i x a b : (i + n <= length a)%nat -> (i + n <= length b)%nat ->
  exists r, const_time_memcmp_loop n i x a b = Some r.
Proof.
  revert i x. induction n as [|n IH]; intros i x Ha Hb; cbn [const_time_memcmp_loop]; [eauto|].
  destruct (lookup_lt_is_Some_2 a i) as [p ->]; [lia|]. destruct (lookup_lt_is_Some_2 b i) as [q ->]; [lia|].
  apply IH; lia.
Qed.

Definition live (now : Z) (n : credentials_node) : Prop := node_timestamp n = 0 \/ now < node_timestamp n.

Lemma search_total matches now l best :
  (forall n, n ∈ l -> is_Some (matches n)) ->
  exists r, search_credentials matches now l best = Some r /\
    match r with Some n => Some n = best \/ n ∈ l /\ live now n | None => True end.
Proof.
  revert best. induction l as [|n l IH]; intros best Hm; cbn [search_credentials].
  { exists best. destruct best; auto. }
  assert (forall n, n ∈ l -> is_Some (matches n)) as Hl by (intros; apply Hm; by constructor).
  case_test.
  - destruct (Hm n ltac:(constructor)) as [b ->]. cbn [obind].
    destruct (IH (if b then Some n else best) Hl) as (r & -> & Hr). exists r. split; [done|].
    destruct r as [k|]; [|done]. destruct Hr as [Hr|[Hk Hlive]]; [|right; split; [by constructor|done]].
    destruct b; [|by left]. injection Hr as ->. right. split; [constructor|].
    unfold live. zify_bool. apply orb_true_iff in E as [E|E]; zify_bool; auto.
  - destruct (IH best Hl) as (r & -> & Hr). exists r. split; [done|]. destruct r as [k|]; [|done].
    destruct Hr as [?|[? ?]]; [by left|]. right. split; [by constructor|done].
Qed.

Lemma find_credentials_total g s msg now : inv g s -> message_ok msg ->
  exists r, find_credentials msg now (server_credentials_list s) = Some r /\
    match r with Some n => n ∈ server_credentials_list s /\ live now n | None => True end.
Proof.
  intros Hi Hm. pose proof (inv_nodes _ _ Hi) as Hnodes. rewrite list.Forall_forall in Hnodes. unfold find_credentials.
  edestruct search_total as (r & Hr & Hn); [|exists r; split; [exact Hr|]].
  - intros n Hn. specialize (Hnodes n Hn). cbv zeta. destruct (enable_userhash (credentials msg)).
    + destruct (no_userhash _ _ Hnodes) as [Hl _]. destruct (mo_userhash _ Hm) as [Hl' _]. unfold const_time_memcmp.
      change (Z.to_nat USERHASH_SIZE) with 32%nat. change USERHASH_SIZE with 32 in Hl, Hl'. unfold lenZ in Hl, Hl'. destruct (userhash_compare_total 32 0 0 (node_userhash n) (userhash (credentials msg)))
        as [x ->]; [lia|lia|]. by eexists.
    + unfold const_time_strcmp. destruct (username_compare_total 0 (cr_username (node_credentials n) ++ [0]) (username (credentials msg) ++ [0]))
        as [x ->]; [apply in_or_app; right; by left..|]. by eexists.
  - destruct r as [n|]; [|done]. destruct Hn as [?|?]; done.
Qed.

(** ** Authentication *)

(** The datagram carries a valid integrity for the password of a live node. *)
Definition authentic (s : juice_server) (buf : list Z) (size : Z) (id : nat) : Prop :=
  exists n now msg buf', n ∈ server_credentials_list s /\ node_id n = id /\ live now n /\
    stun_check_integrity buf size msg (cr_password (node_credentials n)) = Some (buf', true).

Definition auth_result (s : juice_server) (buf : list Z) (size : Z) (msg : stun_message)
    (r : Z + stun_message * option nat) : Prop :=
  match r with
  | inl _ => True
  | inr (msg', None) => msg' = msg /\ (msg_method msg = STUN_METHOD_BINDING \/ msg_class msg = STUN_CLASS_INDICATION)
  | inr (msg', Some id) => message_ok msg' /\ msg_class msg' = msg_class msg /\ msg_class msg <> STUN_CLASS_INDICATION /\
                           authentic s buf size id
  end.

Lemma authentic_same s s' buf size id : same_server s s' -> authentic s' buf size id -> authentic s buf size id.
Proof. intros Hs (n & now & msg & buf' & Hn & Hr). exists n, now, msg, buf'. by rewrite <- (same_credentials _ _ Hs). Qed.

Lemma authentic_id s buf size id : authentic s buf size id -> id ∈ node_ids s.
Proof. intros (n & _ & _ & _ & Hn & <- & _). unfold node_ids. by apply list_elem_of_fmap_2. Qed.

Lemma authenticate_spec g buf size msg ret src m :
  inv g (server m) -> message_ok msg -> bytes_ok buf -> 0 <= size <= lenZ buf ->
  stun_read buf size = Some (buf, msg, ret) -> 0 <= ret ->
  spec (authenticate buf size msg src) m (fun r m' => answers src m m' /\ auth_result (server m) buf size msg r).
Proof.
  intros Hi Hm Hb Hs Hread Hret. unfold authenticate. cbv zeta.
  assert (Hanswer : forall code m1, answers src m m1 ->
    spec (server_answer_stun_error (transaction_id msg) src (msg_method msg) code None) m1 (fun _ m' => answers src m m')).
  { intros code m1 Ha. eapply spec_mono; [apply answer_error_spec; [by apply message_tid| |done]|].
    - rewrite (same_realm _ _ _ Ha). apply (inv_realm _ _ Hi).
    - intros r m2 Ha2. exact (answers_trans _ _ _ _ Ha Ha2). }
  case_test.
  { apply spec_ret. split; [apply answers_refl|]. split; [done|]. apply orb_true_iff in E as [E|E]; zify_bool; auto. }
  apply orb_false_iff in E as [E E']. zify_bool.
  case_test.
  { apply spec_bind. eapply spec_mono; [apply Hanswer, answers_refl|]. intros r m1 Ha. by apply spec_ret. }
  apply spec_bind. eapply spec_mono; [apply get_nonce_spec|]. intros nonce_ m1 [Ha1 _]. apply spec_bind, spec_gets.
  case_test.
  { apply spec_bind. eapply spec_mono; [apply Hanswer, Ha1|]. intros r m2 Ha. by apply spec_ret. }
  apply spec_bind, spec_ask, spec_bind, spec_gets, spec_bind. cbn [memory asked events].
  assert (Hi1 : inv g (server m1)) by (eapply inv_same; [apply Ha1|done]).
  destruct (find_credentials_total g (server m1) msg (clock (asked m1)) Hi1 Hm) as (found & Hf & Hn).
  eapply spec_defined; [exact Hf|].
  set (m2 := mkMachine (server m1) (S (asked m1)) (events m1)).
  assert (Ha2 : answers src m m2) by (apply answers_asked; [done|lia]).
  assert (Hs2 : server m2 = server m1) by done. clearbody m2.
  assert (Hfail : forall r, spec (server_answer_stun_error (transaction_id msg) src (msg_method msg) 401 None;; Machine.ret (@inl Z (stun_message * option nat) r))
    m2 (fun r m' => answers src m m' /\ auth_result (server m) buf size msg r)).
  { intros r. apply spec_bind. eapply spec_mono; [apply Hanswer, Ha2|]. intros ? m3 Ha3. by apply spec_ret. }
  destruct found as [n|]; [|apply Hfail]. destruct Hn as [Hn Hlive].
  set (msg' := if enable_userhash (credentials msg) then _ else msg).
  assert (message_ok msg' /\ msg_class msg' = msg_class msg) as [Hm' Hc'].
  { unfold msg'. destruct (enable_userhash _); [|done]. split; [|done]. apply message_ok_username; [done|].
    pose proof (inv_nodes _ _ Hi1) as Hns. rewrite list.Forall_forall in Hns. apply (no_username _ _ (Hns n Hn)). }
  clearbody msg'. apply spec_bind.
  destruct (check_integrity_total buf size msg ret msg' (cr_password (node_credentials n)) Hb Hs Hread Hret) as (ok & Hok).
  eapply spec_defined; [exact Hok|]. cbn beta iota. destruct ok; cbn [negb]; [|apply Hfail]. apply spec_ret. split; [done|].
  split; [done|]. split; [done|]. split; [done|]. apply (authentic_same _ (server m1)); [apply Ha1|].
  exists n, (clock (asked m1)), msg', buf. done.
Qed.

(** ** Dispatch *)

(** What a datagram from [src] may cause in the state [s]. *)
Inductive reaction (s : juice_server) (n : nat) (src : addr_record) (sock : Z) : event -> Prop :=
| answered data : reaction s n src sock (Sent sock src data)
| closed k : reaction s n src sock (Closed k)
| relayed_on e : relayed_from src s n e -> reaction s n src sock e.

Lemma relayed_from_same s s' n n' src e : same_server s s' -> (n <= n')%nat -> relayed_from src s' n' e -> relayed_from src s n e.
Proof.
  intros Hs Hn He. inversion He as [a sock peer data k (i & id & (Ha & Hh) & Heq) Hsock Hk Hp]; subst.
  apply (relay _ _ _ a sock peer data k); [|done|lia|done]. exists i, id. split; [|done].
  split; [|done]. by rewrite <- (same_allocs _ _ Hs).
Qed.

(** A run within the reactions to a datagram. *)
Definition reacts (g : nat -> Z) (who : nat -> Prop) (m0 : machine) (src : addr_record) : machine -> machine -> Prop :=
  good g who (reaction (server m0) (asked m0) src).

Lemma reacts_relays g who m0 src m m' : inv g (server m) -> same_server (server m0) (server m) -> (asked m0 <= asked m)%nat ->
  relays src m m' -> reacts g who m0 src m m'.
Proof.
  intros Hi Hs Hn [E He]. split; [by rewrite E|rewrite E; apply server_evolves_refl|apply spares_same; by rewrite E|].
  eapply emitted_impl; [exact He|]. intros e Hr. apply relayed_on. by eapply relayed_from_same.
Qed.

(** The methods that only requests of authenticated clients reach. *)
Definition needs_user (msg : stun_message) : Prop :=
  msg_method msg <> STUN_METHOD_BINDING /\ msg_method msg <> STUN_METHOD_SEND.

Lemma process_spec g who m0 msg src creds m :
  inv g (server m) -> same_server (server m0) (server m) -> (asked m0 <= asked m)%nat ->
  message_ok msg -> record_wf src ->
  match creds with
  | Some id => who id /\ id ∈ node_ids (server m)
  | None => msg_class msg = STUN_CLASS_REQUEST -> ~ needs_user msg
  end ->
  spec (process msg src creds) m (fun _ m' => reacts g who m0 src m m').
Proof.
  intros Hi Hsame Hn Hm Hs Hc. unfold process, server_process_stun_binding.
  set (P := reaction (server m0) (asked m0) src).
  assert (HP1 : forall s sock, P s (Closed sock)) by (intros; apply closed).
  assert (HP2 : forall s data, P s (Sent s src data)) by (intros; apply answered).
  assert (Hnone : forall (b : bool) (r : Z), (b = false \/ creds = None) -> spec (Machine.ret r) m (fun _ m' => reacts g who m0 src m m')).
  { intros b r _. by apply spec_ret, server_good_refl. }
  case_test; zify_bool.
  { apply (spec_good_answers src who P HP2 g); [done|]. apply answer_binding_spec; [by apply message_tid|done]. }
  assert (Hundef : creds = None -> (msg_method msg = STUN_METHOD_ALLOCATE \/ msg_method msg = STUN_METHOD_REFRESH \/
      msg_method msg = STUN_METHOD_CREATE_PERMISSION \/ msg_method msg = STUN_METHOD_CHANNEL_BIND) ->
    spec (if msg_class msg =? STUN_CLASS_REQUEST then undefined else Machine.ret (-1)) m (fun _ m' => reacts g who m0 src m m')).
  { intros -> Hmeth. case_test; zify_bool; [|by apply spec_ret, server_good_refl]. exfalso. apply (Hc E0). split; [done|].
    intros Es. rewrite Es in Hmeth. unfold STUN_METHOD_SEND, STUN_METHOD_ALLOCATE, STUN_METHOD_REFRESH,
      STUN_METHOD_CREATE_PERMISSION, STUN_METHOD_CHANNEL_BIND in Hmeth. lia. }
  case_test; zify_bool.
  { destruct creds as [id|]; [destruct Hc as [Hw Hid]; by apply (allocate_spec src who P HP1 HP2)|].
    apply Hundef; [done|]. apply orb_true_iff in E0 as [E0|E0]; zify_bool; auto. }
  case_test; zify_bool.
  { destruct creds as [id|]; [destruct Hc as [Hw Hid]; by apply (create_permission_spec src who P HP2)|]. apply Hundef; auto. }
  case_test; zify_bool.
  { destruct creds as [id|]; [destruct Hc as [Hw Hid]; by apply (channel_bind_spec src who P HP2)|]. apply Hundef; auto. }
  case_test; zify_bool; [|by apply spec_ret, server_good_refl].
  eapply spec_mono; [by apply (send_spec src g)|]. intros ? m' Hr. by apply reacts_relays.
Qed.

Lemma dispatch_spec g buf size msg ret src m :
  inv g (server m) -> message_ok msg -> record_wf src -> bytes_ok buf -> 0 <= size <= lenZ buf ->
  stun_read buf size = Some (buf, msg, ret) -> 0 <= ret ->
  spec (server_dispatch_stun buf size msg src) m (fun _ m' => reacts g (authentic (server m) buf size) m src m m').
Proof.
  intros Hi Hm Hsrc Hb Hs Hread Hret. unfold server_dispatch_stun. cbv zeta.
  set (P := reaction (server m) (asked m) src).
  assert (HP2 : forall s data, P s (Sent s src data)) by (intros; apply answered).
  assert (Hans : forall code, spec (server_answer_stun_error (transaction_id msg) src (msg_method msg) code None) m
      (fun _ m' => reacts g (authentic (server m) buf size) m src m m')).
  { intros code. apply (spec_good_answers src _ P HP2 g); [done|].
    apply answer_error_spec; [by apply message_tid|apply (inv_realm _ _ Hi)|done]. }
  case_test; [by apply spec_ret, server_good_refl|]. apply negb_false_iff in E.
  apply spec_bind, spec_gets. case_test; [apply Hans|].
  case_test; [case_test; [apply Hans|by apply spec_ret, server_good_refl]|].
  apply spec_bind. eapply spec_mono; [by apply (authenticate_spec g buf size msg ret)|]. intros r m1 [Ha Hr].
  assert (Hg1 : reacts g (authentic (server m) buf size) m src m m1) by (by apply (good_answers _ _ P src)).
  destruct Ha as (Hsame & Hn & _). destruct r as [r|[msg' creds]]; [by apply spec_ret|].
  eapply spec_mono with (Q := fun _ m2 => reacts g (authentic (server m) buf size) m src m1 m2);
    [|intros r m2 Hg2; exact (server_good_trans _ _ _ _ _ _ Hg1 Hg2)].
  cbn [auth_result] in Hr. pose proof (good_inv _ _ _ _ _ Hg1) as Hi1. destruct creds as [id|].
  - destruct Hr as (Hm' & _ & _ & Hid). apply process_spec; try done. split; [done|].
    apply (good_ids _ _ _ _ _ _ Hg1). by eapply authentic_id.
  - destruct Hr as [-> Hr]. apply process_spec; try done. intros Hreq [Hb1 Hb2].
    destruct Hr as [Hr|Hr]; [by apply Hb1|]. rewrite Hreq in Hr. discriminate Hr.
Qed.

(** ** Datagrams *)
Lemma input_spec g buf size src m :
  inv g (server m) -> record_wf src -> bytes_ok buf -> 0 <= size <= lenZ buf ->
  spec (server_input buf size src) m (fun _ m' => reacts g (authentic (server m) buf size) m src m m').
Proof.
  intros Hi Hsrc Hb Hs. unfold server_input. apply spec_bind.
  destruct (is_stun_total buf size Hs) as [b Eb]. eapply spec_defined; [exact Eb|]. destruct b.
  - destruct (stun_read_total buf size Hb Hs) as (msg & ret & Er & _). apply spec_bind. eapply spec_defined; [exact Er|].
    cbn beta iota. case_test; zify_bool; [by apply spec_ret, server_good_refl|].
    apply (dispatch_spec g buf size msg ret); try done. by eapply read_message_ok.
  - unfold is_channel_data. case_test; zify_bool.
    + apply spec_bind, spec_defined with false; [done|]. by apply spec_ret, server_good_refl.
    + apply spec_bind. eapply spec_defined; [rewrite load_ok by lia; reflexivity|]. case_test; [|by apply spec_ret, server_good_refl].
      eapply spec_mono; [by apply (channel_data_spec src g)|]. intros ? m' Hr. by apply reacts_relays.
Qed.

End Requests.
