(* ===== verification/ServerRun.v ===== *)
(** * Runs of the server: every step keeps the invariant *)

From S2P Require Import Prelude Machine Addr StunMsg StunHashes StunWrite StunWriteCorrect StunRead StunReadSafe.
From S2P Require Import Turn Server ServerSend StunReceived ServerInv ServerAnswer ServerOps ServerHandlers ServerRequests.
From stdpp Require Import list.
#[local] Open Scope Z_scope.
#[local] Open Scope machine_scope.

Section Run.
Context `{Platform, Hashes, !Environment}.

(** ** The socket *)

(** The invariant over a step that adds no credentials. *)
Definition kept (g : nat -> Z) (m m' : machine) : Prop := inv g (server m') /\ evolves (server m) (server m').

Lemma server_kept_refl g m : inv g (server m) -> kept g m m.
Proof. intros Hi. split; [done|apply server_evolves_refl]. Qed.

Lemma kept_same g m m' : inv g (server m) -> server m' = server m -> kept g m m'.
Proof. intros Hi E. unfold kept. rewrite E. split; [done|apply server_evolves_refl]. Qed.

Lemma server_kept_trans g m1 m2 m3 : kept g m1 m2 -> kept g m2 m3 -> kept g m1 m3.
Proof. intros [_ E1] [I2 E2]. split; [done|by eapply server_evolves_trans]. Qed.

Lemma server_good_kept g who P m m' : good g who P m m' -> kept g m m'.
Proof. intros [Hi He _ _]. by split. Qed.

Definition datagram_ok (d : list Z * addr_record) : Prop := payload_ok d.1 d.2.

Lemma received_ok payload record n : payload_ok payload record ->
  bytes_ok (payload ++ drop (length payload) (stack n)) /\
  0 <= lenZ payload <= lenZ (payload ++ drop (length payload) (stack n)) /\ record_wf (unmapped record).
Proof.
  intros (Hb & Hl & Hr). destruct (stack_bytes n) as [Hsl Hsb]. split; [|split].
  - apply Forall_app_2; [done|by apply Forall_drop].
  - rewrite lenZ_app. pose proof (lenZ_nonneg payload). pose proof (lenZ_nonneg (drop (length payload) (stack n))). lia.
  - by apply unmapped_wf.
Qed.

Lemma recv_spec g ds m : inv g (server m) -> Forall datagram_ok ds ->
  spec (server_recv ds) m (fun _ m' => kept g m m').
Proof.
  intros Hi Hds. revert m Hi. induction Hds as [|[payload record] ds Hd Hds IH]; intros m Hi; cbn [server_recv].
  { by apply spec_ret, server_kept_refl. }
  apply spec_bind, spec_ask. set (m1 := mkMachine _ _ _). assert (Hi1 : inv g (server m1)) by done.
  assert (Hk1 : kept g m m1) by (by apply kept_same). clearbody m1.
  case_test.
  { eapply spec_mono; [by apply IH|]. intros r m2 Hk2. exact (server_kept_trans _ _ _ _ Hk1 Hk2). }
  destruct (received_ok payload record (asked m) Hd) as (Hb & Hl & Hr). revert Hr. unfold unmapped.
  destruct (addr_unmap_inet6_v4mapped (addr record) (len record)) as [[sa l] u]. intros Hr.
  apply spec_bind. eapply spec_mono; [by apply (input_spec g)|]. intros r m2 Hg2.
  apply server_good_kept in Hg2. eapply spec_mono; [apply IH, Hg2|]. intros r' m3 Hk3.
  exact (server_kept_trans _ _ _ _ Hk1 (server_kept_trans _ _ _ _ Hg2 Hk3)).
Qed.

(** ** Housekeeping *)
Lemma anyone_touchable g s i a : inv g s -> allocs s !! i = Some a -> touchable (fun _ => True) a.
Proof.
  intros Hi Ha. destruct (is_full a) eqn:E; [|exists 0%nat; by rewrite E].
  destruct (inv_alloc _ _ _ _ Hi Ha E) as (_ & _ & id & Hc & _). by exists id.
Qed.

Lemma expire_spec g n i now next m : inv g (server m) -> (i + n = length (allocs (server m)))%nat ->
  spec (expire_allocations n i now next) m (fun _ m' => kept g m m').
Proof.
  revert i next m. induction n as [|n IH]; intros i next m Hi Hn; cbn [expire_allocations].
  { by apply spec_ret, server_kept_refl. }
  destruct (inv_lookup g _ i Hi ltac:(lia)) as [a Ha]. apply spec_bind. apply (get_alloc_spec _ a); [done|].
  case_test; [apply IH; [done|lia]|]. apply negb_false_iff in E.
  case_test; [|apply IH; [done|lia]]. apply spec_bind.
  eapply spec_mono; [apply (delete_spec (fun _ => True) (fun _ _ => True) ltac:(done) g i m Hi ltac:(lia))|].
  - intros b Hb. by apply (anyone_touchable g (server m) i).
  - intros ? m1 Hg. apply server_good_kept in Hg. eapply spec_mono; [apply IH; [apply Hg|]|].
    + destruct Hg as [_ Hev]. rewrite (ev_size _ _ Hev). lia.
    + intros r m2 Hk. exact (server_kept_trans _ _ _ _ Hg Hk).
Qed.

(** The last step. *)
Lemma delete_allocations_spec g n i m : inv g (server m) -> (i + n = length (allocs (server m)))%nat ->
  spec (delete_allocations n i) m (fun _ m' => kept g m m').
Proof.
  revert i m. induction n as [|n IH]; intros i m Hi Hn; cbn [delete_allocations]; [by apply spec_ret, server_kept_refl|].
  apply spec_bind. eapply spec_mono; [apply (delete_spec (fun _ => True) (fun _ _ => True) ltac:(done) g i m Hi ltac:(lia))|].
  - intros b Hb. by apply (anyone_touchable g (server m) i).
  - intros ? m1 Hg. apply server_good_kept in Hg. eapply spec_mono; [apply IH; [apply Hg|]|].
    + destruct Hg as [_ Hev]. rewrite (ev_size _ _ Hev). lia.
    + intros r m2 Hk. exact (server_kept_trans _ _ _ _ Hg Hk).
Qed.

Lemma destroy_spec g m : inv g (server m) -> spec server_do_destroy m (fun _ _ => True).
Proof.
  intros Hi. unfold server_do_destroy. apply spec_bind, spec_gets, spec_bind, spec_emit, spec_bind, spec_gets, spec_bind.
  cbn [memory]. eapply spec_mono; [by apply (delete_allocations_spec g)|]. intros r m' _. by apply spec_modify.
Qed.

Lemma filter_unexpired next now l : Forall (node_ok next) l -> List.filter (fun n => negb (expired now n)) l = l.
Proof.
  induction 1 as [|n l Hn Hl IH]; [done|]. cbn [List.filter]. unfold expired at 1.
  rewrite (no_timestamp _ _ Hn). cbn [Z.eqb negb andb]. by rewrite IH.
Qed.

Lemma server_eta (s : juice_server) f : f (server_credentials_list s) = server_credentials_list s ->
  s <| server_credentials_list ::= f |> = s.
Proof. intros E. destruct s. cbn in *. unfold upd, expand. cbn. by rewrite E. Qed.

Lemma bookkeeping_spec g m : inv g (server m) -> spec server_bookkeeping m (fun _ m' => kept g m m').
Proof.
  intros Hi. unfold server_bookkeeping. apply spec_bind, spec_ask, spec_bind, spec_gets, spec_bind. cbn [memory].
  eapply spec_mono; [by apply (expire_spec g)|]. intros next m1 Hk. apply spec_bind, spec_modify, spec_ret.
  destruct Hk as [Hi1 Hev]. cbn [memory] in Hev. unfold kept. cbn [memory]. rewrite server_eta; [done|].
  by apply (filter_unexpired (next_id (server m1))), (inv_nodes _ _ Hi1).
Qed.

(** ** Relaying to the clients *)
Lemma forward_step_spec g i d m : inv g (server m) -> (i < length (allocs (server m)))%nat ->
  (forall payload record, d = Some (payload, record) -> payload_ok payload record) ->
  spec (server_step (Forward i d)) m (fun _ m' => kept g m m').
Proof.
  intros Hi Hlt Hd. cbn [server_step]. destruct (inv_lookup g _ i Hi Hlt) as [a Ha].
  apply spec_bind. apply (get_alloc_spec _ a); [done|]. case_test; [|by apply spec_ret, server_kept_refl].
  destruct d as [[payload record]|].
  - destruct (inv_alloc _ _ _ _ Hi Ha E) as (_ & _ & id & Hc & _).
    eapply spec_mono; [apply (forward_spec g i id a); [done|done|by apply Hd]|].
    intros r m' [Es _]. by apply kept_same.
  - unfold server_forward. apply spec_bind. apply (get_alloc_spec _ a); [done|]. apply spec_bind, spec_ask, spec_ret.
    by apply kept_same.
Qed.

(** ** Credentials *)

(** What changes between two states when credentials are added. *)
Record grows (g g' : nat -> Z) (s s' : juice_server) : Prop := {
  gr_granted : forall k, (k < next_id s)%nat -> g' k = g k;
  gr_users : forall n, n ∈ server_credentials_list s ->
    exists n', n' ∈ server_credentials_list s' /\ user_of n' = user_of n;
  gr_next : (next_id s <= next_id s')%nat;
  gr_size : (length (allocs s) <= length (allocs s'))%nat
}.

Lemma grows_refl g s s' : allocs s' = allocs s -> next_id s' = next_id s ->
  server_credentials_list s' = server_credentials_list s -> grows g g s s'.
Proof. intros E1 E2 E3. split; rewrite ?E1, ?E2, ?E3; eauto. Qed.

Lemma grows_trans g1 g2 g3 s1 s2 s3 : grows g1 g2 s1 s2 -> grows g2 g3 s2 s3 -> grows g1 g3 s1 s3.
Proof.
  intros [A1 B1 C1 D1] [A2 B2 C2 D2]. split; [|  |lia|lia].
  - intros k Hk. rewrite A2 by lia. by apply A1.
  - intros n Hn. destruct (B1 n Hn) as (n1 & Hn1 & E1). destruct (B2 n1 Hn1) as (n2 & Hn2 & E2). exists n2. split; [done|congruence].
Qed.

Lemma evolves_grows g s s' : evolves s s' -> grows g g s s'.
Proof.
  intros [_ Eu _ En Es]. split; [done| |lia|lia]. intros n Hn.
  assert (user_of n ∈ user_of <$> server_credentials_list s') as Hin by (rewrite Eu; by apply list_elem_of_fmap_2).
  apply list_elem_of_fmap in Hin as (n' & E & Hn'). by exists n'.
Qed.

(** The parts of the invariant that a change outside the allocations concerns. *)
Lemma inv_change g g' s s' k :
  inv g s ->
  0 < max_peers (config s') < 2 ^ 30 -> max_allocations (config s') < 2 ^ 31 -> bytes_ok (config_realm (config s')) ->
  allocs s' = allocs s ++ replicate k alloc_zero -> lenZ (allocs s') < 2 ^ 31 ->
  Forall (node_ok (next_id s')) (server_credentials_list s') -> NoDup (node_ids s') ->
  (forall id, id ∈ node_ids s -> id ∈ node_ids s') ->
  Forall (fun n => allocations_quota (node_credentials n) + used (node_id n) (allocs s) = g' (node_id n))
    (server_credentials_list s') ->
  inv g' s'.
Proof.
  intros [_ _ _ [I4 _] _ _ I7 _] Hp Hm Hr Ea Hs Hn Hd Hids Hq. split; try done.
  - rewrite Ea, lenZ_app in *. pose proof (lenZ_nonneg (replicate k alloc_zero)). lia.
  - rewrite Ea. apply Forall_app_2.
    + apply (list.Forall_impl _ _ _ I7). intros a Ha Hf. destruct (Ha Hf) as (Hmap & Hsock & id & Hc & Hid). split; [done|]. split; [done|]. exists id. auto.
    + apply Forall_replicate. done.
  - apply (list.Forall_impl _ _ _ Hq). intros n E. by rewrite Ea, used_app, used_zero, Z.add_0_r.
Qed.

(** A larger maximum and a larger table. *)
Lemma inv_resize g s s' k :
  inv g s -> max_peers (config s') = max_peers (config s) -> max_allocations (config s') < 2 ^ 31 ->
  config_realm (config s') = config_realm (config s) -> server_credentials_list s' = server_credentials_list s ->
  next_id s' = next_id s -> allocs s' = allocs s ++ replicate k alloc_zero -> lenZ (allocs s') < 2 ^ 31 ->
  inv g s' /\ grows g g s s'.
Proof.
  intros Hi Ep Hm Er Ec En Ea Hs. split.
  - apply (inv_change g g s s' k); try done; unfold node_ids; rewrite ?Ep, ?Er, ?Ec, ?En; apply Hi || done.
  - split; rewrite ?Ec, ?En; eauto. rewrite Ea, length_app. lia.
Qed.

Lemma used_absent g s id : inv g s -> id ∉ node_ids s -> used id (allocs s) = 0.
Proof.
  intros Hi Hn. pose proof (inv_allocs _ _ Hi) as Ha. induction Ha as [|a l Ha Hl IH]; [done|]. cbn [used]. rewrite IH.
  enough (uses id a = false) as -> by done. unfold uses. destruct (is_full a) eqn:Ef; [|done]. cbn [andb].
  apply bool_decide_eq_false. intros Hc. destruct (Ha Ef) as (_ & _ & id' & Hc' & Hid'). congruence.
Qed.

(** A node more. *)
Lemma inv_add g s s' n :
  inv g s -> config s' = config s -> allocs s' = allocs s -> server_credentials_list s' = n :: server_credentials_list s ->
  next_id s' = S (next_id s) -> node_id n = next_id s -> node_ok (S (next_id s)) n ->
  let g' k := if (k =? next_id s)%nat then allocations_quota (node_credentials n) else g k in
  inv g' s' /\ grows g g' s s'.
Proof.
  intros Hi Ec Ea El En Hid Hn g'. pose proof (inv_nodes _ _ Hi) as Hnodes.
  assert (Hfresh : next_id s ∉ node_ids s).
  { intros Hin. apply list_elem_of_fmap in Hin as (n' & E & Hn'). rewrite list.Forall_forall in Hnodes.
    pose proof (no_id _ _ (Hnodes n' Hn')). lia. }
  split.
  - apply (inv_change g g' s s' 0); rewrite ?Ec, ?El, ?En, ?Ea;
      [done|apply (inv_peers _ _ Hi)|apply (inv_max _ _ Hi)|apply (inv_realm _ _ Hi)|by rewrite app_nil_r|apply (inv_size _ _ Hi)| | | |].
    + constructor; [done|]. apply (list.Forall_impl _ _ _ Hnodes). intros n' []. split; try done. lia.
    + unfold node_ids. rewrite El. cbn. constructor; [by rewrite Hid|apply (inv_ids _ _ Hi)].
    + intros id H2. unfold node_ids. rewrite El. by constructor.
    + constructor.
      * unfold g'. rewrite Hid, Nat.eqb_refl, (used_absent g s) by done. lia.
      * pose proof (inv_quota _ _ Hi) as Hq. rewrite list.Forall_forall in *. intros n' Hn'. rewrite (Hq n' Hn').
        unfold g'. rewrite (proj2 (Nat.eqb_neq _ _)); [done|]. pose proof (no_id _ _ (Hnodes n' Hn')). lia.
  - split; rewrite ?En, ?Ea; try lia.
    + intros k Hk. unfold g'. by rewrite (proj2 (Nat.eqb_neq _ _)) by lia.
    + intros n' Hn'. exists n'. rewrite El. split; [by constructor|done].
Qed.

(** A quota that grows. *)
Lemma inv_grant g s id delta :
  inv g s -> 0 <= delta ->
  let s' := s <| server_credentials_list ::= map (add_quota delta id) |> in
  let g' k := if (k =? id)%nat then g k + delta else g k in
  inv g' s' /\ evolves s s'.
Proof.
  intros Hi Hd s' g'. assert (Ec : config s' = config s) by done. assert (Ek : server_sock s' = server_sock s) by done.
  assert (En : next_id s' = next_id s) by done. assert (Ea : allocs s' = allocs s) by done.
  assert (El : server_credentials_list s' = add_quota delta id <$> server_credentials_list s) by done. clearbody s'.
  assert (Hids : node_ids s' = node_ids s).
  { unfold node_ids. rewrite El, <- list_fmap_compose. apply list_fmap_ext. intros j n _. apply node_id_add_quota. }
  pose proof (inv_nodes _ _ Hi) as Hn. pose proof (inv_quota _ _ Hi) as Hq. rewrite list.Forall_forall in Hn, Hq. split.
  - apply (inv_change g g' s s' 0); rewrite ?Ec, ?El, ?En, ?Ea, ?Hids;
      [done|apply (inv_peers _ _ Hi)|apply (inv_max _ _ Hi)|apply (inv_realm _ _ Hi)|by rewrite app_nil_r|apply (inv_size _ _ Hi)|
       |apply (inv_ids _ _ Hi)|done|].
    + apply Forall_fmap, list.Forall_forall. intros n Hin. pose proof (no_quota _ _ (Hn n Hin)).
      apply node_ok_add_quota; [auto|]. destruct (node_id n =? id)%nat; lia.
    + apply Forall_fmap, list.Forall_forall. intros n Hin. cbn. rewrite quota_add_quota, node_id_add_quota.
      specialize (Hq n Hin). unfold g'. destruct (node_id n =? id)%nat; lia.
  - split; rewrite ?Ec, ?Ek, ?En, ?El, ?Ea; try done. apply user_of_add_quota.
Qed.

Definition new_node (s : juice_server) (creds : server_credentials) : credentials_node :=
  mkNode (next_id s) creds (stun_compute_userhash (cr_username creds) (config_realm (config s))) 0.

Lemma new_node_ok s creds : credentials_wf creds -> node_ok (S (next_id s)) (new_node s creds).
Proof.
  intros [Hu Hq]. split; cbn; try done; try lia. unfold stun_compute_userhash. split; [apply hash_sha256_length|apply hash_sha256_bytes].
Qed.

Lemma do_add_spec creds lifetime m : lifetime <= 0 ->
  spec (server_do_add_credentials creds lifetime) m (fun id m' =>
    id = next_id (server m) /\
    server m' = server m <| server_credentials_list ::= cons (new_node (server m) creds) |> <| next_id := S (next_id (server m)) |>).
Proof.
  intros Hl. unfold server_do_add_credentials. apply spec_bind, spec_gets, spec_bind, spec_gets, spec_bind.
  rewrite (proj2 (Z.ltb_ge 0 lifetime)) by lia. apply spec_ret. cbv zeta. apply spec_bind, spec_modify, spec_ret. done.
Qed.

(** The invariant after a step that may add credentials. *)
Definition grown (g : nat -> Z) (m m' : machine) : Prop :=
  exists g', inv g' (server m') /\ grows g g' (server m) (server m').

Lemma kept_grown g m m' : kept g m m' -> grown g m m'.
Proof. intros [Hi He]. exists g. split; [done|by apply evolves_grows]. Qed.

Lemma add_node_grown g m creds lifetime : inv g (server m) -> credentials_wf creds -> lifetime <= 0 ->
  spec (server_do_add_credentials creds lifetime) m (fun id m' => id ∈ node_ids (server m') /\
    config (server m') = config (server m) /\ allocs (server m') = allocs (server m) /\ next_id (server m') = S id /\
    new_node (server m) creds ∈ server_credentials_list (server m') /\ id = next_id (server m) /\
    exists g', inv g' (server m') /\ grows g g' (server m) (server m') /\ g' id = allocations_quota creds).
Proof.
  intros Hi Hc Hl. eapply spec_mono; [by apply do_add_spec|]. intros id m' [-> Es].
  assert (Ec : config (server m') = config (server m)) by (by rewrite Es).
  assert (Ea : allocs (server m') = allocs (server m)) by (by rewrite Es).
  assert (En : next_id (server m') = S (next_id (server m))) by (by rewrite Es).
  assert (El : server_credentials_list (server m') = new_node (server m) creds :: server_credentials_list (server m)) by (by rewrite Es).
  assert (Hin : new_node (server m) creds ∈ server_credentials_list (server m')) by (rewrite El; constructor).
  split; [unfold node_ids; rewrite El; constructor|]. split; [done|]. split; [done|]. split; [done|]. split; [done|]. split; [done|].
  destruct (inv_add g (server m) (server m') (new_node (server m) creds) Hi Ec Ea El En eq_refl (new_node_ok _ _ Hc)) as [Hi' Hg'].
  eexists. split; [exact Hi'|]. split; [exact Hg'|]. cbn. by rewrite Nat.eqb_refl.
Qed.

(** Two parts of a step. *)
Lemma grown_trans g g1 m m1 m2 : grows g g1 (server m) (server m1) -> grown g1 m1 m2 -> grown g m m2.
Proof. intros G (g2 & Hi & G2). exists g2. split; [done|by eapply grows_trans]. Qed.

(** Raising the maximum to a quota changes nothing else. *)
Record raised (q : Z) (s s' : juice_server) : Prop := {
  ra_max : max_allocations (config s') = Z.max (max_allocations (config s)) q;
  ra_peers : max_peers (config s') = max_peers (config s);
  ra_realm : config_realm (config s') = config_realm (config s);
  ra_credentials : server_credentials_list s' = server_credentials_list s;
  ra_next : next_id s' = next_id s;
  ra_allocs : allocs s' = allocs s
}.

Lemma raise_spec q m (Q : unit -> machine -> Prop) :
  (forall m', raised q (server m) (server m') -> Q tt m') ->
  spec (if max_allocations (config (server m)) <? q
        then modify (fun s => s <| config ::= fun c => c <| max_allocations := q |> |>) else Machine.ret tt) m Q.
Proof.
  intros HQ. case_test; zify_bool; [apply spec_modify|apply spec_ret]; apply HQ; split; cbn; try done; lia.
Qed.

Lemma raised_inv g q s s' : inv g s -> q < 2 ^ 31 -> raised q s s' -> inv g s' /\ grows g g s s'.
Proof.
  intros Hi Hq [E1 E2 E3 E4 E5 E6]. apply (inv_resize g s s' 0); try done.
  - pose proof (inv_max _ _ Hi). lia.
  - by rewrite app_nil_r.
  - rewrite E6. apply (inv_size _ _ Hi).
Qed.

Lemma extend_spec g m (Q : unit -> machine -> Prop) : inv g (server m) ->
  (forall m', inv g (server m') /\ grows g g (server m) (server m') -> config (server m') = config (server m) ->
     next_id (server m') = next_id (server m) -> Q tt m') ->
  spec (if allocs_count (server m) <? max_allocations (config (server m))
        then modify (fun s => s <| allocs ::= fun l => l ++ replicate (Z.to_nat (max_allocations (config (server m)) - allocs_count (server m))) alloc_zero |>)
        else Machine.ret tt) m Q.
Proof.
  intros Hi HQ. case_test; zify_bool; [apply spec_modify|apply spec_ret; apply HQ; [split; [done|by apply grows_refl]|done|done]].
  apply HQ; [|done|done]. eapply (inv_resize g (server m) _ _ Hi); try done; cbn; [apply (inv_max _ _ Hi)|].
  pose proof (inv_max _ _ Hi). rewrite lenZ_app. unfold allocs_count in *. unfold lenZ at 2. rewrite length_replicate. lia.
Qed.

Lemma grows_fresh g g1 g2 s1 s2 s3 : grows g g1 s1 s2 -> evolves s2 s3 ->
  (forall k, (k < next_id s1)%nat -> g2 k = g1 k) -> grows g g2 s1 s3.
Proof.
  intros G Hev Hk. pose proof (grows_trans _ _ _ _ _ _ G (evolves_grows g1 _ _ Hev)) as [A B C D].
  split; [|done|done|done]. intros k Hlt. rewrite Hk by done. by apply A.
Qed.

(** The last part of the step: an unlimited quota becomes the maximum. *)
Lemma unlimit_spec g g1 id max m0 m : inv g1 (server m) -> grows g g1 (server m0) (server m) -> id = next_id (server m0) ->
  id ∈ node_ids (server m) -> 0 <= max ->
  spec (let* added := deref id in
        (if allocations_quota added =? 0 then change_quota id max else Machine.ret tt);; Machine.ret 0) m
    (fun _ m' => grown g m0 m').
Proof.
  intros Hi Hg Eid Hid Hmax. apply spec_bind. eapply deref_spec; [done|done|]. intros n Hn Hnid. apply spec_bind.
  case_test; [|apply spec_ret, spec_ret; by exists g1].
  unfold change_quota. apply spec_bind. eapply deref_spec; [done|done|]. intros n' _ _. apply spec_modify, spec_ret.
  destruct (inv_grant g1 (server m) id max Hi Hmax) as [Hi' Hev]. eexists. split; [exact Hi'|].
  eapply grows_fresh; [exact Hg|exact Hev|]. intros k Hk. cbn beta. by rewrite (proj2 (Nat.eqb_neq _ _)) by lia.
Qed.

Lemma add_credentials_spec g creds lifetime m : inv g (server m) -> credentials_wf creds -> lifetime <= 0 ->
  spec (server_add_credentials creds lifetime) m (fun _ m' => grown g m m').
Proof.
  intros Hi Hc Hl. unfold server_add_credentials. apply spec_bind, spec_gets, spec_bind, raise_spec. intros m1 Hr.
  destruct (raised_inv g _ _ _ Hi ltac:(apply Hc) Hr) as [Hi1 Hg1]. apply spec_bind, spec_gets, spec_bind, spec_gets, spec_bind.
  apply (extend_spec g); [done|]. intros m2 [Hi2 Hg2] Ec2 En2. apply spec_bind.
  eapply spec_mono; [by apply (add_node_grown g m2)|]. intros id m3 (Hid & Ec3 & _ & En3 & _ & Eid & g3 & Hi3 & Hg3 & _).
  eapply spec_mono; [apply (unlimit_spec g g3 id _ m2); try done|].
  - rewrite (ra_max _ _ _ Hr). destruct Hc. lia.
  - intros r m4 Hg4. apply (grown_trans g g m m1); [done|]. by apply (grown_trans g g m1 m2).
Qed.

(** ** Steps *)
Definition step_ok (n : nat) (e : server_input_step) : Prop :=
  match e with
  | Bookkeeping => True
  | Receive datagrams => Forall datagram_ok datagrams
  | Forward i d => (i < n)%nat /\ (forall payload record, d = Some (payload, record) -> payload_ok payload record)
  | AddCredentials creds lifetime => credentials_wf creds /\ lifetime <= 0
  end.

Lemma step_ok_more n k e : (n <= k)%nat -> step_ok n e -> step_ok k e.
Proof. intros Hk. destruct e; try done. intros [Hi Hd]. split; [lia|done]. Qed.

Lemma step_spec g e m : inv g (server m) -> step_ok (length (allocs (server m))) e ->
  spec (server_step e) m (fun _ m' => grown g m m').
Proof.
  intros Hi He. destruct e as [|ds|i d|creds lifetime]; cbn [step_ok] in He.
  - eapply spec_mono; [exact (bookkeeping_spec g m Hi)|]. intros r m' Hk. by apply kept_grown.
  - eapply spec_mono; [exact (recv_spec g ds m Hi He)|]. intros r m' Hk. by apply kept_grown.
  - destruct He as [Hlt Hd]. eapply spec_mono; [exact (forward_step_spec g i d m Hi Hlt Hd)|]. intros r m' Hk. by apply kept_grown.
  - destruct He as [Hc Hl]. by apply add_credentials_spec.
Qed.

Lemma steps_spec g es m : inv g (server m) -> Forall (step_ok (length (allocs (server m)))) es ->
  spec (server_steps es) m (fun _ m' => grown g m m').
Proof.
  revert g m. induction es as [|e es IH]; intros g m Hi Hes; cbn [server_steps].
  { apply spec_ret. exists g. split; [done|by apply grows_refl]. }
  apply Forall_cons_1 in Hes as [He Hes]. apply spec_bind. eapply spec_mono; [by apply (step_spec g)|].
  intros r m1 (g1 & Hi1 & Hg1). eapply spec_mono; [apply (IH g1); [done|]|].
  - apply (list.Forall_impl _ _ _ Hes). intros e' He'. eapply step_ok_more; [apply (gr_size _ _ _ _ Hg1)|done].
  - intros r2 m2 Hg2. by eapply grown_trans.
Qed.

(** ** Creation *)
Definition config_wf (c : server_config) : Prop :=
  max_allocations c < 2 ^ 31 /\ 0 <= max_peers c < 2 ^ 30 /\ bytes_ok (config_realm c).

(** The nodes the loop makes of the credentials. *)
Fixpoint created (realm : list Z) (id : nat) (l : list server_credentials) (nodes : list credentials_node) : list credentials_node :=
  match l with
  | [] => nodes
  | c :: l' => created realm (S id) l' (mkNode id c (stun_compute_userhash (cr_username c) realm) 0 :: nodes)
  end.

Lemma created_elem realm id l nodes n :
  n ∈ created realm id l nodes <->
  n ∈ nodes \/ exists k c, l !! k = Some c /\ n = mkNode (id + k) c (stun_compute_userhash (cr_username c) realm) 0.
Proof.
  revert id nodes. induction l as [|c l IH]; intros id nodes; cbn [created].
  { split; [by left|]. intros [?|(k & c & Hk & _)]; [done|]. by rewrite lookup_nil in Hk. }
  rewrite IH, elem_of_cons. split.
  - intros [[->|Hn]|(k & c' & Hk & ->)]; [right; exists 0%nat, c; by rewrite Nat.add_0_r|by left|].
    right. exists (S k), c'. by rewrite Nat.add_succ_r.
  - intros [Hn|([|k] & c' & Hk & ->)]; [by left; right| |].
    + injection Hk as ->. rewrite Nat.add_0_r. by left; left.
    + right. exists k, c'. by rewrite Nat.add_succ_r.
Qed.

Lemma created_nodup realm id l nodes : NoDup (node_id <$> nodes) -> Forall (fun n => (node_id n < id)%nat) nodes ->
  NoDup (node_id <$> created realm id l nodes).
Proof.
  revert id nodes. induction l as [|c l IH]; intros id nodes Hnd Hlt; cbn [created]; [done|]. apply IH.
  - cbn. constructor; [|done]. intros Hin. apply list_elem_of_fmap in Hin as (n & E & Hn).
    rewrite list.Forall_forall in Hlt. specialize (Hlt n Hn). lia.
  - constructor; [cbn; lia|]. apply (list.Forall_impl _ _ _ Hlt). intros n ?. lia.
Qed.

Definition max_quota (max : Z) (l : list server_credentials) : Z := fold_left (fun max c => Z.max max (allocations_quota c)) l max.

Lemma max_quota_bounds max l b : Forall credentials_wf l -> max < 2 ^ 31 -> b <= max -> b <= max_quota max l < 2 ^ 31.
Proof.
  intros Hl. revert max. induction Hl as [|c l [_ Hc] Hl IH]; intros max Hm Hb; cbn [max_quota fold_left]; [lia|].
  apply IH; lia.
Qed.

(** The server after the loop. *)
Record after_create (l : list server_credentials) (s s' : juice_server) : Prop := {
  ac_max : max_allocations (config s') = max_quota (max_allocations (config s)) l;
  ac_peers : max_peers (config s') = max_peers (config s);
  ac_realm : config_realm (config s') = config_realm (config s);
  ac_allocs : allocs s' = allocs s;
  ac_sock : server_sock s' = server_sock s;
  ac_next : next_id s' = (next_id s + length l)%nat;
  ac_credentials : server_credentials_list s' =
    created (config_realm (config s)) (next_id s) l (server_credentials_list s)
}.

Lemma create_credentials_spec l m : spec (create_credentials l) m (fun _ m' => after_create l (server m) (server m')).
Proof.
  revert m. induction l as [|c l IH]; intros m; cbn [create_credentials].
  { apply spec_ret. by split. }
  apply spec_bind, spec_gets, spec_bind.
  eapply spec_mono with (Q := fun _ m1 => raised (allocations_quota c) (server m) (server m1) /\ server_sock (server m1) = server_sock (server m)).
  { case_test; zify_bool; [apply spec_modify|apply spec_ret]; (split; [split; cbn; try done; lia|done]). }
  intros _ m1 [[E1 E2 E3 E4 E5 E6] E7]. apply spec_bind. eapply spec_mono; [by apply do_add_spec|]. intros id m2 [-> Es].
  eapply spec_mono; [apply IH|]. intros _ m3 [A1 A2 A3 A4 A5 A6 A7]. rewrite Es in *.
  split; cbn in *; rewrite ?A1, ?A2, ?A3, ?A4, ?A5, ?A6, ?A7, ?E1, ?E2, ?E3, ?E4, ?E5, ?E6, ?E7; try done.
  unfold new_node. by rewrite E5, E3.
Qed.

(** What the [k]th credentials are granted. *)
Definition initial_grant (max : Z) (creds : list server_credentials) (k : nat) : Z :=
  match creds !! k with
  | Some c => if allocations_quota c =? 0 then max else allocations_quota c
  | None => 0
  end.

Definition initial_max (c : server_config) : Z :=
  if 0 <? max_allocations c then max_allocations c else SERVER_DEFAULT_MAX_ALLOCATIONS.

Definition realm_or_default (c : server_config) : list Z :=
  match config_realm c with [] => SERVER_DEFAULT_REALM | r => r end.

Lemma user_unlimited max n : user_of (unlimited max n) = user_of n.
Proof. unfold unlimited, user_of. cbn. by destruct (_ =? 0). Qed.

Record create_result (c : server_config) (sock : Z) (creds : list server_credentials) (m : machine) : Prop := {
  cs_config : max_allocations (config (server m)) = max_quota (initial_max c) creds;
  cs_peers : max_peers (config (server m)) = if max_peers c =? 0 then SERVER_DEFAULT_MAX_PEERS else max_peers c;
  cs_realm : config_realm (config (server m)) = realm_or_default c;
  cs_allocs : allocs (server m) = match creds with [] => [] | _ => replicate (Z.to_nat (initial_max c)) alloc_zero end;
  cs_sock : server_sock (server m) = sock;
  cs_next : next_id (server m) = length creds;
  cs_credentials : server_credentials_list (server m) =
    map (unlimited (max_quota (initial_max c) creds)) (created (realm_or_default c) 0 creds [])
}.

Lemma create_spec c sock creds : exists m, server_create c sock creds = Some m /\ create_result c sock creds m.
Proof.
  unfold server_create. cbv zeta. fold (initial_max c). fold (realm_or_default c).
  set (s0 := mkServer _ _ _ _ _ _ _). set (rest := fun _ : unit => _).
  assert (Hspec : spec (bind (create_credentials creds) rest) (mkMachine s0 0 []) (fun _ m => create_result c sock creds m)).
  { apply spec_bind. eapply spec_mono; [apply create_credentials_spec|]. intros [] m1 [A1 A2 A3 A4 A5 A6 A7]. cbn [memory] in *.
    unfold rest. apply spec_bind, spec_gets, spec_bind, spec_modify, spec_bind, spec_modify, spec_modify. cbn [memory].
    unfold s0 in *. cbn in A1, A2, A3, A4, A5, A6, A7. split; cbn; rewrite ?A4, ?A5, ?A6, ?A7, ?A1, ?A2; try done;
      destruct (max_peers c =? 0); cbn; rewrite ?A1, ?A2, ?A3; done. }
  clearbody rest. unfold spec in Hspec. destruct (bind _ _ _) as [[u m]|]; [|done]. by exists m.
Qed.

Lemma realm_or_default_bytes c : config_wf c -> bytes_ok (realm_or_default c).
Proof. intros (_ & _ & Hr). unfold realm_or_default. destruct (config_realm c); [by repeat constructor|done]. Qed.

Lemma initial_max_range c : config_wf c -> 0 < initial_max c < 2 ^ 31.
Proof. intros (Hm & _). unfold initial_max, SERVER_DEFAULT_MAX_ALLOCATIONS. case_test; zify_bool; lia. Qed.

Lemma create_inv c sock creds m : config_wf c -> creds <> [] -> Forall credentials_wf creds -> create_result c sock creds m ->
  inv (initial_grant (max_allocations (config (server m))) creds) (server m).
Proof.
  intros Hc Hne Hcreds [C1 C2 C3 C4 _ C6 C7]. pose proof (initial_max_range c Hc) as Hmax.
  destruct (max_quota_bounds (initial_max c) creds (initial_max c)) as [Hq1 Hq2]; [done|lia|lia|].
  assert (Ha : allocs (server m) = replicate (Z.to_nat (initial_max c)) alloc_zero) by (rewrite C4; by destruct creds).
  assert (Hnodes : forall n, n ∈ server_credentials_list (server m) -> exists k cr, creds !! k = Some cr /\
    n = unlimited (max_quota (initial_max c) creds) (mkNode k cr (stun_compute_userhash (cr_username cr) (realm_or_default c)) 0)).
  { intros n Hn. rewrite C7 in Hn. apply list_elem_of_fmap in Hn as (n0 & -> & Hn0).
    apply created_elem in Hn0 as [Hn0|(k & cr & Hk & ->)]; [by apply elem_of_nil in Hn0|]. by exists k, cr. }
  assert (Hwf : forall k cr, creds !! k = Some cr -> credentials_wf cr /\ (k < length creds)%nat).
  { intros k cr Hk. split; [exact (Forall_lookup_1 _ _ _ _ Hcreds Hk)|by eapply lookup_lt_Some]. }
  split.
  - rewrite C2. destruct Hc as (_ & Hp & _). unfold SERVER_DEFAULT_MAX_PEERS. case_test; zify_bool; lia.
  - by rewrite C1.
  - rewrite C3. by apply realm_or_default_bytes.
  - rewrite Ha. unfold lenZ. rewrite length_replicate. lia.
  - apply list.Forall_forall. intros n Hn. destruct (Hnodes n Hn) as (k & cr & Hk & ->). destruct (Hwf k cr Hk) as [[Hu Hq] Hlt].
    rewrite C6. unfold unlimited, stun_compute_userhash. cbn.
    split; cbn; try done; try (case_test; cbn; done).
    + split; [apply hash_sha256_length|apply hash_sha256_bytes].
    + case_test; cbn; lia.
  - unfold node_ids. rewrite C7. change (map ?f ?l) with (f <$> l). rewrite <- list_fmap_compose.
    rewrite (list_fmap_ext _ node_id) by done. apply created_nodup; constructor.
  - rewrite Ha. by apply Forall_replicate.
  - rewrite Ha. apply list.Forall_forall. intros n Hn. destruct (Hnodes n Hn) as (k & cr & Hk & ->).
    rewrite used_zero, C1. unfold initial_grant, unlimited. cbn. rewrite Hk. case_test; cbn; lia.
Qed.

End Run.
