(* ===== verification/ServerCorrect.v ===== *)
(** * What the server guarantees, and where it does not

    The runs of a server that was created with credentials are defined and keep
    its invariant; a datagram changes only what its sender has proved to hold,
    and is relayed only as the sender's peers permit.  A server without
    credentials, or one whose credentials expire, can be led into undefined
    behaviour.  A Binding request and its answer, from wire to wire. *)

From S2P Require Import Prelude Machine Addr StunMsg StunWrite StunCodec StunWriteCorrect StunRead StunReadSafe StunRoundtrip.
From S2P Require Import StunExchange Turn TurnTable Server ServerSend ServerAnswer StunReceived ServerInv ServerOps ServerHandlers.
From S2P Require Import ServerRequests ServerRun.
From stdpp Require Import list.
#[local] Open Scope Z_scope.
#[local] Open Scope machine_scope.

Section Correct.
Context `{Platform, Hashes, !Environment}.

Lemma spec_run {A} (x : M A) m Q : spec x m Q -> exists a m', x m = Some (a, m') /\ Q a m'.
Proof. unfold spec. destruct (x m) as [[a m']|]; [|done]. eauto. Qed.

(** C2: Every run of a server that was created with credentials is defined, with
    whatever datagrams arrive from clients and peers, and whatever credentials
    that do not expire are added on the way.  Afterwards each of the original
    users is still there, and what is left of the quota and the allocations in
    use add up to what the user was granted; the server can be destroyed. *)
Theorem server_safe c sock creds es :
  config_wf c -> creds <> [] -> Forall credentials_wf creds ->
  Forall (step_ok (Z.to_nat (initial_max c))) es ->
  exists m0 m, server_create c sock creds = Some m0 /\ server_steps es m0 = Some (tt, m) /\
    Forall (alloc_ok (server m)) (allocs (server m)) /\ is_Some (server_do_destroy m) /\
    forall k cr, creds !! k = Some cr ->
      exists n, n ∈ server_credentials_list (server m) /\ node_id n = k /\
        cr_username (node_credentials n) = cr_username cr /\ cr_password (node_credentials n) = cr_password cr /\
        0 <= allocations_quota (node_credentials n) /\
        allocations_quota (node_credentials n) + used k (allocs (server m)) =
          if allocations_quota cr =? 0 then max_allocations (config (server m0)) else allocations_quota cr.
Proof.
  intros Hc Hne Hcreds Hes. destruct (create_spec c sock creds) as (m0 & Hm0 & Hres).
  pose proof (create_inv c sock creds m0 Hc Hne Hcreds Hres) as Hi0. exists m0.
  destruct (spec_run _ _ _ (steps_spec _ es m0 Hi0 ltac:(rewrite (cs_allocs _ _ _ _ Hres); destruct creds; [done|];
    rewrite length_replicate; exact Hes))) as ([] & m & Hm & g & Hi & Hg).
  exists m. split; [done|]. split; [done|]. split; [apply (inv_allocs _ _ Hi)|].
  split; [destruct (spec_run _ _ _ (destroy_spec g m Hi)) as (u & m' & -> & _); by eexists|]. intros k cr Hk.
  destruct (gr_users _ _ _ _ Hg (unlimited (max_quota (initial_max c) creds)
    (mkNode k cr (StunRead.stun_compute_userhash (cr_username cr) (realm_or_default c)) 0))) as (n & Hn & Hu).
  { rewrite (cs_credentials _ _ _ _ Hres). apply list_elem_of_fmap_2, created_elem. right. by exists k, cr. }
  rewrite user_unlimited in Hu. exists n. split; [done|].
  pose proof (f_equal node_id Hu) as E1. pose proof (f_equal (fun n => cr_username (node_credentials n)) Hu) as E2.
  pose proof (f_equal (fun n => cr_password (node_credentials n)) Hu) as E3. cbn in E1, E2, E3.
  split; [done|]. split; [done|]. split; [done|].
  pose proof (inv_nodes _ _ Hi) as Hnodes. pose proof (inv_quota _ _ Hi) as Hq. rewrite list.Forall_forall in Hnodes, Hq.
  split; [apply (no_quota _ _ (Hnodes n Hn))|]. specialize (Hq n Hn). rewrite E1 in Hq.
  rewrite Hq, (gr_granted _ _ _ _ Hg); [unfold initial_grant; by rewrite Hk|].
  rewrite (cs_next _ _ _ _ Hres). by eapply lookup_lt_Some.
Qed.

(** C4: Whatever datagram arrives from [src], the server handles it without
    undefined behaviour and keeps its invariant.  An allocation that is in use
    stays as it is unless the datagram carries a valid integrity under the
    password of its holder, and no element changes at all unless it carries one
    under some live password.  All it sends is answers to [src] from its own
    socket, and data from the allocation of [src] to a peer with a permission or
    a channel that has not expired. *)
Theorem server_input_confined g m buf size src :
  inv g (server m) -> record_wf src -> bytes_ok buf -> 0 <= size <= lenZ buf ->
  exists ret m', server_input buf size src m = Some (ret, m') /\ inv g (server m') /\
    (forall j a, allocs (server m) !! j = Some a ->
       (forall id, authentic (server m) buf size id -> is_full a = true /\ alloc_credentials a <> Some id) ->
       allocs (server m') !! j = Some a) /\
    exists es, events m' = es ++ events m /\
      Forall (reaction (server m) (asked m) src (server_sock (server m))) es.
Proof.
  intros Hi Hsrc Hb Hs. destruct (spec_run _ _ _ (input_spec g buf size src m Hi Hsrc Hb Hs)) as (ret & m' & Hr & [Hi' _ Hsp He]).
  exists ret, m'. split; [done|]. split; [done|]. split; [|exact He]. intros j a Ha Hn. apply Hsp; [done|].
  intros (id & Hid & Hf). destruct (Hn id Hid) as [Hfull Hne]. by apply Hne, Hf.
Qed.

(** C23: What arrives at the socket of an allocation reaches its client, and nobody
    else, only when the peer that sent it has a permission that has not
    expired; relaying changes nothing of the server. *)
Theorem server_forward_permitted g m i a id payload record :
  inv g (server m) -> holds i a id (server m) -> payload_ok payload record ->
  exists ret m', server_step (Forward i (Some (payload, record))) m = Some (ret, m') /\ server m' = server m /\
    exists es, events m' = es ++ events m /\
      Forall (fun e => (exists data, e = Sent (server_sock (server m)) (alloc_record a) data) /\
        exists k, (asked m <= k)%nat /\ permitted (clock k) a (unmapped record)) es.
Proof.
  intros Hi Hh Hp. destruct (spec_run _ _ _ (forward_spec g i id a payload record m Hi Hh Hp)) as (ret & m' & Hr & Es & He).
  exists ret, m'. split; [|split; [done|exact He]]. cbn [server_step]. destruct Hh as (Ha & Hf & _).
  unfold bind at 1, get_alloc, bind at 1, gets, defined. rewrite Ha, Hf. exact Hr.
Qed.

(** ** Without a table *)
Lemma channel_data_test buf size b : load 0 1 buf = Some [b] -> 0 < size -> 64 <= b <= 79 ->
  is_stun_datagram buf size = Some false /\ is_channel_data buf size = Some true.
Proof.
  intros Hl Hs Hb. unfold is_stun_datagram, is_channel_data. rewrite (proj2 (Z.eqb_neq size 0)) by lia.
  rewrite Hl. cbn [acc obind]. assert (le_word [b] = b) as -> by (cbn; lia).
  rewrite (proj2 (Z.leb_le 64 b)), (proj2 (Z.leb_le b 79)) by lia. split; [|done].
  assert (b = 64 + b `mod` 16) as -> by lia_mod. assert (0 <= b `mod` 16 < 16) as Hr by lia_mod. revert Hr.
  generalize (b `mod` 16). intros r Hr.
  assert (r = 0 \/ r = 1 \/ r = 2 \/ r = 3 \/ r = 4 \/ r = 5 \/ r = 6 \/ r = 7 \/ r = 8 \/ r = 9 \/ r = 10 \/
    r = 11 \/ r = 12 \/ r = 13 \/ r = 14 \/ r = 15) as Hcases by lia.
  repeat destruct Hcases as [->|Hcases]; subst; reflexivity.
Qed.

Lemma channel_data_no_table buf size src m : allocs (server m) = [] -> server_process_channel_data buf size src m = None.
Proof. intros Ha. unfold server_process_channel_data, full_allocation, bind, gets, defined. by rewrite Ha. Qed.

(** A server without credentials has no table of allocations, and looks clients
    up in it all the same when ChannelData arrives: the key is a remainder by
    zero.  One such datagram from anyone is undefined behaviour. *)
Theorem server_stun_only_channel_data c sock b payload record :
  64 <= b <= 79 ->
  exists m, server_create c sock [] = Some m /\ server_steps [Receive [(b :: payload, record)]] m = None.
Proof.
  intros Hb. destruct (create_spec c sock []) as (m & Hm & Hres). exists m. split; [done|].
  pose proof (cs_allocs _ _ _ _ Hres) as Ha. cbn in Ha. cbn [server_steps server_step server_recv].
  unfold bind, ask. pose proof (lenZ_nonneg payload) as Hn.
  assert (lenZ (b :: payload) = 1 + lenZ payload) as Hl by (unfold lenZ; cbn [length]; lia).
  rewrite (proj2 (Z.eqb_neq _ _)) by lia.
  destruct (addr_unmap_inet6_v4mapped (addr record) (len record)) as [[sa l] u].
  set (buf := (b :: payload) ++ _). assert (load 0 1 buf = Some [b]) as Hload.
  { rewrite load_ok; [reflexivity|lia|lia|]. unfold buf. rewrite lenZ_app.
    pose proof (lenZ_nonneg (drop (length (b :: payload)) (stack (asked m)))). lia. }
  destruct (channel_data_test buf (lenZ (b :: payload)) b Hload ltac:(lia) Hb) as [E1 E2].
  unfold server_input, bind, defined. rewrite E1, E2. by rewrite channel_data_no_table.
Qed.

(** ** Credentials that expire before an allocation *)
Lemma expire_skip n i now next m : (i + n <= length (allocs (server m)))%nat ->
  (forall j b, (i <= j < i + n)%nat -> allocs (server m) !! j = Some b -> is_full b = false) ->
  expire_allocations n i now next m = Some (next, m).
Proof.
  revert i. induction n as [|n IH]; intros i Hl Hn; cbn [expire_allocations]; [done|].
  destruct (lookup_lt_is_Some_2 (allocs (server m)) i) as [b Hb]; [lia|].
  unfold bind, get_alloc, gets, bind, defined. rewrite Hb, (Hn i b) by (done || lia). cbn [negb].
  apply IH; [lia|]. intros j c Hj. apply Hn. lia.
Qed.

Lemma bind_assoc {A B C} (x : M A) (f : A -> M B) (k : B -> M C) m :
  bind (bind x f) k m = bind x (fun a => bind (f a) k) m.
Proof. unfold bind. by destruct (x m) as [[a m']|]. Qed.

Lemma bind_ext {A B} (x : M A) (f k : A -> M B) m : (forall a m', f a m' = k a m') -> bind x f m = bind x k m.
Proof. intros E. unfold bind. destruct (x m) as [[a m']|]; [apply E|done]. Qed.

Lemma expire_split n k i now next m :
  expire_allocations (n + k) i now next m =
  bind (expire_allocations n i now next) (fun next' => expire_allocations k (i + n) now next') m.
Proof.
  revert i next m. induction n as [|n IH]; intros i next m; cbn [Nat.add expire_allocations].
  { unfold bind, Machine.ret. by rewrite Nat.add_0_r. }
  rewrite bind_assoc. apply bind_ext. intros b m1. replace (i + S n)%nat with (S i + n)%nat by lia.
  destruct (negb (is_full b)); [apply IH|]. destruct (alloc_timestamp b <=? now); [|apply IH].
  rewrite bind_assoc. apply bind_ext. intros _ m2. apply IH.
Qed.

(** The only allocation in use is [a]. *)
Definition lone (a : server_turn_alloc) (l : list server_turn_alloc) : Prop :=
  exists pre post, l = pre ++ a :: post /\ is_full a = true /\ Forall (fun b => is_full b = false) (pre ++ post).

Lemma expire_lone a now next m : lone a (allocs (server m)) ->
  exists i, allocs (server m) !! i = Some a /\
  expire_allocations (length (allocs (server m))) 0 now next m =
  if alloc_timestamp a <=? now
  then bind (delete_allocation i) (fun _ => expire_allocations (length (allocs (server m)) - S i) (S i) now next) m
  else Some ((if alloc_timestamp a <? next then alloc_timestamp a else next), m).
Proof.
  intros (pre & post & El & Hf & Hn). apply Forall_app in Hn as [Hpre Hpost]. rewrite list.Forall_forall in Hpre, Hpost.
  assert (Ha : allocs (server m) !! length pre = Some a) by (rewrite El; by apply list_lookup_middle).
  exists (length pre). split; [done|].
  assert (length (allocs (server m)) = length pre + S (length post))%nat as Hlen by (rewrite El, length_app; done).
  rewrite Hlen, expire_split. unfold bind at 1. rewrite expire_skip; [|lia|].
  2: { intros j b Hj Hb. rewrite El, lookup_app_l in Hb by lia. by apply Hpre, list_elem_of_lookup_2 with j. }
  cbn [Nat.add expire_allocations]. replace (length pre + S (length post) - S (length pre))%nat with (length post) by lia.
  unfold bind at 1, get_alloc, bind at 1, gets, defined. rewrite Ha, Hf. cbn [negb].
  destruct (alloc_timestamp a <=? now); [done|]. rewrite expire_skip; [done|lia|].
  intros j b Hj Hb. rewrite El, lookup_app_r in Hb by lia. replace (j - length pre)%nat with (S (j - S (length pre))) in Hb by lia.
  cbn in Hb. by apply Hpost, list_elem_of_lookup_2 with (j - S (length pre))%nat.
Qed.

Lemma node_at_none id l : (forall n, n ∈ l -> node_id n <> id) -> node_at id l = None.
Proof.
  intros Hn. unfold node_at. replace (list_find (fun n => node_id n = id) l) with (@None (nat * credentials_node)); [done|].
  symmetry. apply list_find_None, list.Forall_forall. exact Hn.
Qed.

Lemma delete_dangling i a id m : allocs (server m) !! i = Some a -> is_full a = true -> alloc_credentials a = Some id ->
  node_at id (server_credentials_list (server m)) = None -> delete_allocation i m = None.
Proof.
  intros Ha Hf Hc Hn. unfold delete_allocation, change_quota, deref, get_alloc, bind, gets, defined.
  rewrite Ha, Hf. cbn [negb]. rewrite Hc. cbn [memory]. by rewrite Hn.
Qed.

(** C39: When the credentials of a user expire while the user's allocation has still
    time to live, housekeeping frees them and leaves the allocation pointing to
    them; housekeeping after the allocation has expired then writes to the freed
    memory. *)
Theorem server_credentials_outlived m a id :
  lone a (allocs (server m)) -> alloc_credentials a = Some id ->
  Forall (fun n => node_id n = id -> 0 < node_timestamp n <= clock (asked m)) (server_credentials_list (server m)) ->
  clock (asked m) < alloc_timestamp a <= clock (S (asked m)) ->
  (exists next m', server_step Bookkeeping m = Some (next, m') /\ allocs (server m') = allocs (server m)) /\
  server_steps [Bookkeeping; Bookkeeping] m = None.
Proof.
  intros Hl Hc Hn Ht. rewrite list.Forall_forall in Hn.
  pose (m1 := mkMachine (server m <| server_credentials_list ::= List.filter (fun n => negb (expired (clock (asked m)) n)) |>)
    (S (asked m)) (events m)).
  assert (exists next, server_step Bookkeeping m = Some (next, m1)) as [next E1].
  { destruct (expire_lone a (clock (asked m)) (clock (asked m) + 60000) (mkMachine (server m) (S (asked m)) (events m)) Hl)
      as (i & _ & Ei). cbn [memory] in Ei. rewrite (proj2 (Z.leb_gt _ _)) in Ei by lia.
    cbn [server_step]. unfold server_bookkeeping, bind, ask, gets. cbn [memory]. rewrite Ei. by eexists. }
  split; [by exists next, m1|]. cbn [server_steps]. unfold bind at 1. rewrite E1.
  assert (allocs (server m1) = allocs (server m)) as Ea by done.
  assert (asked m1 = S (asked m)) as Eq by done.
  assert (node_at id (server_credentials_list (server m1)) = None) as Hnone.
  { apply node_at_none. intros n Hin Hid. cbn in Hin. apply list_elem_of_In, filter_In in Hin as [Hin Hexp].
    apply list_elem_of_In in Hin. specialize (Hn n Hin Hid). unfold expired in Hexp. zify_bool.
    rewrite (proj2 (Z.eqb_neq _ _)), (proj2 (Z.leb_le _ _)) in Hexp by lia. discriminate Hexp. }
  clearbody m1.
  destruct (expire_lone a (clock (asked m1)) (clock (asked m1) + 60000) (mkMachine (server m1) (S (asked m1)) (events m1)))
    as (i & Ha & Ei); [cbn [memory]; by rewrite Ea|]. cbn [memory] in Ha, Ei.
  rewrite (proj2 (Z.leb_le (alloc_timestamp a) (clock (asked m1)))) in Ei by (rewrite Eq; lia).
  unfold bind at 1 in Ei. rewrite (delete_dangling i a id) in Ei; [|done|by destruct Hl as (_ & _ & _ & Hf & _)|done|done].
  unfold server_step, server_bookkeeping, bind, ask, gets. cbn [memory]. by rewrite Ei.
Qed.

(** ** An allocation behind a deleted element *)

(** The search for a request that may open an allocation stops at a deleted
    element, so an allocation in use that lies behind one on its probe sequence
    is not seen: a Refresh is refused with 437, an Allocate opens a second
    allocation for the client, though the other requests and the relaying find
    the allocation. *)
Theorem server_allocation_hidden m src id i j a d msg :
  find_allocation (allocs (server m)) src true = Some (Some i) ->
  allocs (server m) !! i = Some d -> alloc_state d = SERVER_TURN_ALLOC_DELETED ->
  find_allocation (allocs (server m)) src false = Some (Some j) -> holds j a id (server m) ->
  own_allocation src id m = Some (inr (j, a), m) /\
  full_allocation src m = Some (Some a, m) /\
  (msg_method msg = STUN_METHOD_REFRESH -> open_allocation msg src id i m = Some (inl (437, 0), m)).
Proof.
  intros Hi Hd Hs Hj (Ha & Hf & Hc). split; [|split].
  - unfold own_allocation, get_alloc, bind, gets, defined. rewrite Hj, Ha, Hf. cbn [negb].
    by rewrite Hc, bool_decide_true.
  - unfold full_allocation, get_alloc, bind, gets, defined. by rewrite Hj, Ha, Hf.
  - intros Hm. unfold open_allocation, get_alloc, bind, gets, defined. rewrite Hd.
    assert (is_full d = false) as -> by (unfold is_full; by rewrite Hs). by rewrite Hm.
Qed.
End Correct.

Section Binding.
Context `{Platform, Hashes, !Environment}.

(** What is sent is the encoding of the answer. *)
Lemma send_answer_exact dst msg m : answer_msg msg ->
  exists ret n, server_stun_send dst msg None m =
    Some (ret, mkMachine (server m) n
      (Sent (server_sock (server m)) dst (stun_encode msg None (uninitialised (S (asked m)))) :: events m)).
Proof.
  intros Ha. set (ind := uninitialised (S (asked m))).
  pose proof (answer_fits msg None ind Ha) as Hf. destruct (stack_bytes (asked m)) as [Hl _].
  pose proof (lenZ_stun_encode msg None ind (answer_writable msg (S (asked m)) Ha)) as Hwl.
  pose proof (lenZ_nonneg (stun_body msg None ind)).
  assert (Hw : stun_write BUFFER_SIZE msg None ind (stack (asked m)) =
    Some (stun_encode msg None ind ++ drop (length (stun_encode msg None ind)) (stack (asked m)), lenZ (stun_encode msg None ind))).
  { apply stun_write_encodes; [split; [discriminate|reflexivity]|by apply answer_writable|done|unfold BUFFER_SIZE; lia]. }
  unfold server_stun_send, bind, ask, defined. cbn [asked]. fold ind. rewrite Hw.
  replace (lenZ (stun_encode msg None ind) <=? 0) with false by (symmetry; apply Z.leb_gt; lia).
  assert (Hload : forall post, load 0 (lenZ (stun_encode msg None ind)) (stun_encode msg None ind ++ post) = Some (stun_encode msg None ind)).
  { intros post. exact (load_mid 0 _ [] _ post eq_refl eq_refl). }
  rewrite Hload.
  unfold server_send, bind, gets, udp_sendto, bind, emit, ask. cbn [memory events asked].
  destruct (_ <? 0); eexists _, _; reflexivity.
Qed.

(** The answer to a Binding request. *)
Definition binding_answer (tid : list Z) (src : addr_record) : stun_message :=
  stun_message_zero <| msg_class := STUN_CLASS_RESP_SUCCESS |> <| msg_method := STUN_METHOD_BINDING |>
    <| mapped := src |> <| transaction_id := tid |>.

Lemma binding_answer_msg tid src : tid_ok tid -> record_wf src -> answer_msg (binding_answer tid src).
Proof.
  intros Ht Hr. split; cbn; first [exact record_zero_wf | done | by repeat constructor | by (split; [done|by repeat constructor])].
Qed.

Lemma binding_answer_readable tid src : readable (binding_answer tid src) /\ credentials_ok (binding_answer tid src).
Proof.
  split; split; cbn; try done; try (split; [by constructor|done]). right. right. by left.
Qed.

(** The checks after the attributes leave these fields alone. *)
Lemma finish_fields msg bits : let m := stun_read_finish msg bits in
  msg_class m = msg_class msg /\ msg_method m = msg_method msg /\ transaction_id m = transaction_id msg /\
  mapped m = mapped msg.
Proof.
  cbv zeta. unfold stun_read_finish, enable_anonymity, select_algorithm, check_algorithms. cbv zeta.
  repeat case_test; by split_and!.
Qed.

(** What the client reads. *)
Lemma binding_answer_read tid src ind post : tid_ok tid -> record_wf src -> lenZ ind = 2 -> bytes_ok ind ->
  let wire := stun_encode (binding_answer tid src) None ind in
  exists ans, stun_read (wire ++ post) (lenZ wire) = Some (wire ++ post, ans, lenZ wire) /\
    msg_class ans = STUN_CLASS_RESP_SUCCESS /\ msg_method ans = STUN_METHOD_BINDING /\ transaction_id ans = tid /\
    mapped ans = norm_record src.
Proof.
  intros Ht Hr Hil Hib. cbv zeta. pose proof (binding_answer_msg tid src Ht Hr) as Ha.
  assert (Hw : writable (binding_answer tid src) ind).
  { destruct Ht. split; cbn; try done; try (split; [by repeat constructor|]); try exact record_zero_wf.
    by split_and!; repeat constructor. }
  destruct (binding_answer_readable tid src) as [Hrd Hc].
  pose proof (answer_fits _ None ind Ha) as Hf. pose proof (lenZ_stun_encode _ None ind Hw) as Hwl.
  assert (Hlen : lenZ (stun_body (binding_answer tid src) None ind) + 8 < 65536).
  { clear -Hf Hwl. lia. }
  pose proof (stun_read_encode (binding_answer tid src) None ind post _ Hw Hrd Hc Hlen (Z.le_refl _)) as Hread.
  eexists. split; [exact Hread|].
  destruct (finish_fields (received (binding_answer tid src) None) (received_bits (binding_answer tid src))) as (-> & -> & -> & ->).
  split; [reflexivity|]. split; [reflexivity|]. split; reflexivity.
Qed.

Lemma norm_record_same src : inet src -> len src = addr_get_len (addr src) -> norm_record src = src.
Proof.
  intros Hi Hl. unfold norm_record. destruct src as [sa l]. cbn in *. subst l.
  destruct sa as [p a|p a|f]; cbn; [by rewrite Z.ltb_irrefl|by rewrite Z.ltb_irrefl|by destruct (Hi f)].
Qed.

(** ** The request *)
Lemma finish_no_algorithms msg bits : msg_class msg = STUN_CLASS_REQUEST ->
  password_algorithms_value (credentials msg) = [] ->
  password_algorithm (credentials msg) = STUN_PASSWORD_ALGORITHM_UNSET ->
  error_code (stun_read_finish msg bits) = error_code msg.
Proof.
  intros Hc Hv Ha. unfold stun_read_finish.
  assert (check_algorithms msg bits = msg) as -> by (unfold check_algorithms; by rewrite Hc).
  unfold enable_anonymity, select_algorithm. cbv zeta. rewrite Hc, Hv, Ha. by case_test.
Qed.

Lemma finish_request msg password : sends_nonce msg = false -> error_code msg = 0 -> msg_class msg = STUN_CLASS_REQUEST ->
  let m := stun_read_finish (received msg password) (received_bits msg) in
  msg_class m = msg_class msg /\ msg_method m = msg_method msg /\ transaction_id m = transaction_id msg /\ error_code m = 0.
Proof.
  intros Hn He Hc. cbv zeta.
  destruct (finish_fields (received msg password) (received_bits msg)) as (-> & -> & -> & _).
  rewrite finish_no_algorithms; [by split_and!|done| |]; cbn; by rewrite Hn.
Qed.

(** C22: A Binding request that arrives on the wire is answered with exactly one
    datagram, to its sender, which the sender reads as the success response to its
    transaction, carrying the address it sent from; nothing of the server
    changes.  This holds in every state of the server. *)
Theorem server_binding_exchange m src req password ind garbage :
  writable req ind -> readable req -> credentials_ok req -> nonce (credentials req) = [] ->
  msg_class req = STUN_CLASS_REQUEST -> msg_method req = STUN_METHOD_BINDING -> error_code req = 0 ->
  lenZ (stun_encode req password ind) < 65556 ->
  record_wf src -> inet src -> len src = addr_get_len (addr src) ->
  exists reply ret n,
    server_input (stun_encode req password ind ++ garbage) (lenZ (stun_encode req password ind)) src m =
      Some (ret, mkMachine (server m) n (Sent (server_sock (server m)) src reply :: events m)) /\
    forall post, exists ans, stun_read (reply ++ post) (lenZ reply) = Some (reply ++ post, ans, lenZ reply) /\
      msg_class ans = STUN_CLASS_RESP_SUCCESS /\ msg_method ans = STUN_METHOD_BINDING /\
      transaction_id ans = transaction_id req /\ mapped ans = src.
Proof.
  intros Hw Hr Hc Hnonce Hclass Hmeth Herr Hlen Hsrc Hinet Hl.
  pose proof (lenZ_stun_encode req password ind Hw) as Hwl. pose proof (lenZ_nonneg (stun_body req password ind)).
  pose proof (lenZ_nonneg garbage).
  assert (Hsn : sends_nonce req = false) by (unfold sends_nonce; rewrite Hnonce; by rewrite andb_false_r).
  destruct (finish_request req password Hsn Herr Hclass) as (E1 & E2 & E3 & E4).
  assert (Hbody : lenZ (stun_body req password ind) + 8 < 65536) by lia.
  set (wire := stun_encode req password ind) in *.
  assert (Hstun : is_stun_datagram (wire ++ garbage) (lenZ wire) = Some true).
  { unfold wire. rewrite encode_is_datagram; [by rewrite Z.eqb_refl|done|done|done|by rewrite Hmeth|].
    rewrite lenZ_app. fold wire. lia. }
  assert (Hread : stun_read (wire ++ garbage) (lenZ wire) =
    Some (wire ++ garbage, stun_read_finish (received req password) (received_bits req), lenZ wire)).
  { exact (stun_read_encode req password ind garbage _ Hw Hr Hc Hbody (Z.le_refl _)). }
  set (msg := stun_read_finish _ _) in *. clearbody msg. rewrite Hclass in E1. rewrite Hmeth in E2.
  destruct (send_answer_exact src (binding_answer (transaction_id req) src) m) as (ret & n & Hsend).
  { by apply binding_answer_msg; [apply (w_tid _ _ Hw)|]. }
  exists (stun_encode (binding_answer (transaction_id req) src) None (uninitialised (S (asked m)))), ret, n. split.
  - unfold server_input, bind, defined. rewrite Hstun, Hread.
    replace (lenZ wire <? 0) with false by (symmetry; apply Z.ltb_ge; lia).
    unfold server_dispatch_stun, bind, gets. cbv zeta. rewrite E1, E2, E4. rewrite !Z.eqb_refl. cbn [negb orb andb].
    rewrite andb_false_r. change (0 =? STUN_ERROR_INTERNAL_VALIDATION_FAILED) with false. cbn iota. unfold authenticate. cbv zeta. rewrite E2, Z.eqb_refl. cbn [orb].
    unfold process, server_process_stun_binding, Machine.ret. rewrite E2, Z.eqb_refl, E3. exact Hsend.
  - intros post. destruct (binding_answer_read (transaction_id req) src (uninitialised (S (asked m))) post)
      as (ans & Ha & A1 & A2 & A3 & A4); [apply (w_tid _ _ Hw)|done|apply uninitialised_length|apply uninitialised_bytes|].
    exists ans. rewrite A4. split; [exact Ha|]. split; [done|]. split; [done|]. split; [done|].
    by apply norm_record_same.
Qed.
End Binding.
