(* ===== verification/ServerExamples.v ===== *)
(** * Concrete runs of the server

    An environment whose clock advances by one second at every question, and a
    server with one user, at which the theorems on the server are applied. *)

From S2P Require Import Prelude Machine Addr StunMsg StunHashes StunWrite StunCodec StunWriteCorrect StunRead StunRoundtrip StunExchange.
From S2P Require Import Turn TurnTable TurnOps TurnMap Server ServerSend StunReceived ServerInv ServerOps.
From S2P Require Import ServerHandlers ServerRequests ServerRun ServerCorrect.
From stdpp Require Import list.
#[local] Open Scope Z_scope.

#[local] Existing Instance lwip.

Definition example_addr (port : Z) : addr_record := mkRecord (sockaddr_in port [10; 0; 0; 1]) 16.

Lemma example_addr_wf port : 0 <= port < 65536 -> record_wf (example_addr port).
Proof. intros Hp. split; [done|]. split; [done|]. by repeat constructor. Qed.

#[local] Program Instance example_environment : Environment := {
  clock n := 1000 * Z.of_nat n;
  random _ k := replicate (Z.to_nat k) 7;
  stack _ := replicate (Z.to_nat BUFFER_SIZE) 0;
  sendto_result _ := 1;
  create_socket _ := Some 9;
  get_addrs _ _ := (1, [example_addr 80]);
  resolve _ _ _ := None;
  sockaddr_image _ := [1; 2];
  uninitialised _ := [0; 0]
}.
Next Obligation. intros n k Hk. cbn. split; [unfold lenZ; rewrite length_replicate; lia|by apply Forall_replicate]. Qed.
Next Obligation. intros n. split; [reflexivity|by apply Forall_replicate]. Qed.
Next Obligation. reflexivity. Qed.
Next Obligation. intros n s. constructor; [by apply example_addr_wf|constructor]. Qed.
Next Obligation. intros n name s. constructor. Qed.
Next Obligation. intros n. reflexivity. Qed.
Next Obligation. intros n. by repeat constructor. Qed.

(** ** Runs *)
Definition example_config : server_config := mkConfig 2 2 None [].
Definition example_user : server_credentials := mkServerCredentials [97] [98] 0.

Lemma example_user_wf : credentials_wf example_user.
Proof. split; [by repeat constructor|by vm_compute]. Qed.

Definition example_steps : list server_input_step :=
  [Receive [([64; 0; 0; 0], example_addr 80); ([0; 1], example_addr 81)]; Bookkeeping; AddCredentials example_user 0;
   Forward 1 (Some ([1; 2; 3], example_addr 82))].

Lemma server_safe_witness :
  exists m0 m, server_create example_config 5 [example_user] = Some m0 /\ server_steps example_steps m0 = Some (tt, m) /\
    Forall (alloc_ok (server m)) (allocs (server m)) /\ is_Some (server_do_destroy m) /\
    forall k cr, [example_user] !! k = Some cr ->
      exists n, n ∈ server_credentials_list (server m) /\ node_id n = k /\
        cr_username (node_credentials n) = cr_username cr /\ cr_password (node_credentials n) = cr_password cr /\
        0 <= allocations_quota (node_credentials n) /\
        allocations_quota (node_credentials n) + used k (allocs (server m)) =
          if allocations_quota cr =? 0 then max_allocations (config (server m0)) else allocations_quota cr.
Proof.
  assert (Hd : forall payload port, Forall is_byte payload -> lenZ payload <= 4096 -> 0 <= port < 65536 ->
    payload_ok payload (example_addr port)) by (intros; split_and!; [done|done|by apply example_addr_wf]).
  apply (server_safe example_config 5 [example_user] example_steps).
  - split_and!; [done|done|done|constructor].
  - done.
  - constructor; [apply example_user_wf|constructor].
  - constructor; [|constructor; [done|constructor; [split; [apply example_user_wf|done]|constructor; [|constructor]]]].
    + constructor; [|constructor; [|constructor]]; apply Hd; try done; by repeat constructor.
    + split; [vm_compute; lia|]. intros payload record [= <- <-]. apply Hd; try done. by repeat constructor.
Defined.

(** ** A client with a permission *)
Definition example_client : addr_record := example_addr 80.
Definition example_alloc : server_turn_alloc :=
  mkAlloc SERVER_TURN_ALLOC_FULL example_client (Some 0%nat) (replicate 12 3) 600000 (Some 9) (turn_init_map 2).
Definition example_gone : server_turn_alloc :=
  mkAlloc SERVER_TURN_ALLOC_DELETED (example_addr 83) None (replicate 12 4) 0 None destroyed_map.
Definition example_node (timestamp : Z) : credentials_node :=
  mkNode 0 (mkServerCredentials [97] [98] 4) (replicate 32 1) timestamp.

(** The first element is deleted, the second is the client's. *)
Definition example_server (timestamp : Z) : juice_server :=
  mkServer (mkConfig 5 2 None [114]) [example_node timestamp] (replicate 32 1) 0 5 [example_gone; example_alloc] 1.
Definition example_machine (timestamp : Z) : machine := mkMachine (example_server timestamp) 0 [].

Lemma example_inv : inv (fun _ => 5) (example_server 0).
Proof.
  split; try (vm_compute; (split; discriminate || reflexivity) || done).
  - by repeat constructor.
  - constructor; [|constructor]. split; cbn; try done; try lia; split; [done|by apply Forall_replicate] || by repeat constructor.
  - constructor; [by intros Hin%elem_of_nil|constructor].
  - constructor; [done|]. constructor; [|constructor]. intros _. split; [apply init_ok; lia|]. split; [by exists 9|].
    exists 0%nat. split; [done|]. constructor.
  - constructor; [reflexivity|constructor].
Qed.

Lemma example_holds timestamp : holds 1 example_alloc 0 (example_server timestamp).
Proof. done. Qed.

Lemma server_input_confined_witness :
  exists ret m', server_input [64; 0; 0; 0] 4 example_client (example_machine 0) = Some (ret, m') /\ inv (fun _ => 5) (server m') /\
    (forall j a, allocs (example_server 0) !! j = Some a ->
       (forall id, authentic (example_server 0) [64; 0; 0; 0] 4 id -> is_full a = true /\ alloc_credentials a <> Some id) ->
       allocs (server m') !! j = Some a) /\
    exists es, events m' = es ++ [] /\ Forall (reaction (example_server 0) 0 example_client 5) es.
Proof.
  apply (server_input_confined (fun _ => 5) (example_machine 0) [64; 0; 0; 0] 4 example_client).
  - apply example_inv.
  - by apply example_addr_wf.
  - by repeat constructor.
  - by vm_compute.
Defined.

Lemma server_forward_permitted_witness :
  exists ret m', server_step (Forward 1 (Some ([1; 2; 3], example_addr 90))) (example_machine 0) = Some (ret, m') /\
    server m' = example_server 0 /\
    exists es, events m' = es ++ [] /\
      Forall (fun e => (exists data, e = Sent 5 example_client data) /\
        exists k, (0 <= k)%nat /\ permitted (clock k) example_alloc (unmapped (example_addr 90))) es.
Proof.
  apply (server_forward_permitted (fun _ => 5) (example_machine 0) 1 example_alloc 0 [1; 2; 3] (example_addr 90)).
  - apply example_inv.
  - apply example_holds.
  - split; [by repeat constructor|]. split; [by vm_compute|by apply example_addr_wf].
Defined.

Lemma server_stun_only_channel_data_witness :
  exists m, server_create example_config 5 [] = Some m /\ server_steps [Receive [([64; 0], example_client)]] m = None.
Proof. apply (server_stun_only_channel_data example_config 5 64 [0] example_client). lia. Defined.

Lemma server_credentials_outlived_witness :
  let m := mkMachine (example_server 500) 599 [] in
  (exists next m', server_step Bookkeeping m = Some (next, m') /\ allocs (server m') = allocs (server m)) /\
  server_steps [Bookkeeping; Bookkeeping] m = None.
Proof.
  apply (server_credentials_outlived (mkMachine (example_server 500) 599 []) example_alloc 0).
  - exists [example_gone], []. split; [done|]. split; [done|]. constructor; [done|constructor].
  - done.
  - constructor; [|constructor]. intros _. by vm_compute.
  - by vm_compute.
Defined.

Lemma server_allocation_hidden_witness :
  let msg := stun_message_zero <| msg_method := STUN_METHOD_REFRESH |> in
  own_allocation example_client 0 (example_machine 0) = Some (inr (1%nat, example_alloc), example_machine 0) /\
  full_allocation example_client (example_machine 0) = Some (Some example_alloc, example_machine 0) /\
  (msg_method msg = STUN_METHOD_REFRESH ->
   open_allocation msg example_client 0 0 (example_machine 0) = Some (inl (437, 0), example_machine 0)).
Proof.
  apply (server_allocation_hidden (example_machine 0) example_client 0 0 1 example_alloc example_gone);
    [by vm_compute|done|done|by vm_compute|apply example_holds].
Defined.

(** ** A Binding request *)
Definition example_binding : stun_message :=
  stun_message_zero <| msg_class := STUN_CLASS_REQUEST |> <| msg_method := STUN_METHOD_BINDING |>
    <| transaction_id := replicate 12 7 |>.

Lemma server_binding_exchange_witness :
  exists reply ret n,
    server_input (stun_encode example_binding None [0; 0] ++ [1; 2]) (lenZ (stun_encode example_binding None [0; 0]))
      example_client (example_machine 0) =
      Some (ret, mkMachine (example_server 0) n [Sent 5 example_client reply]) /\
    forall post, exists ans, stun_read (reply ++ post) (lenZ reply) = Some (reply ++ post, ans, lenZ reply) /\
      msg_class ans = STUN_CLASS_RESP_SUCCESS /\ msg_method ans = STUN_METHOD_BINDING /\
      transaction_id ans = transaction_id example_binding /\ mapped ans = example_client.
Proof.
  apply (server_binding_exchange (example_machine 0) example_client example_binding None [0; 0] [1; 2]); try done.
  - split; try (vm_compute; (split; discriminate || reflexivity) || done).
    + split; [done|]. vm_compute. repeat constructor; done.
    + split_and!; vm_compute; repeat constructor; done.
  - split; try (vm_compute; (split; discriminate || reflexivity) || done). by left.
  - by apply example_addr_wf.
Defined.
