(* ===== verification/SrtpReplay.v ===== *)
(** * libsrtp: replay protection

    datatypes.c and datatypes.h (bit vectors), rdb.c and rdbx.c (replay
    databases for SRTCP and SRTP), and the parts of srtp.c that decide which
    packet index a packet has and whether it was used before.

    An array of words is the list of its values; reading or writing outside it
    is undefined behaviour ([None], or [UB] in a body with early returns).
    [heap] says whether the allocator has memory left.  Encryption and
    authentication, which happen between the check and the commit of
    srtp_unprotect, appear as the status they end with. *)

From S2P Require Import Prelude.

(** include/srtp.h *)
Inductive srtp_err_status_t :=
| srtp_err_status_ok | srtp_err_status_fail | srtp_err_status_bad_param
| srtp_err_status_alloc_fail | srtp_err_status_dealloc_fail | srtp_err_status_init_fail
| srtp_err_status_terminus | srtp_err_status_auth_fail | srtp_err_status_cipher_fail
| srtp_err_status_replay_fail | srtp_err_status_replay_old | srtp_err_status_algo_fail
| srtp_err_status_no_such_op | srtp_err_status_no_ctx | srtp_err_status_cant_check
| srtp_err_status_key_expired | srtp_err_status_socket_err | srtp_err_status_signal_err
| srtp_err_status_nonce_bad | srtp_err_status_read_fail | srtp_err_status_write_fail
| srtp_err_status_parse_err | srtp_err_status_encode_err | srtp_err_status_semaphore_err
| srtp_err_status_pfkey_err | srtp_err_status_bad_mki | srtp_err_status_pkt_idx_old
| srtp_err_status_pkt_idx_adv.

#[export] Instance srtp_err_status_eq_dec : EqDecision srtp_err_status_t.
Proof. solve_decision. Defined.

(** [status == s] *)
Definition is_status (s status : srtp_err_status_t) : bool := bool_decide (status = s).

(** ** Words and loops *)
Definition word_get (w : list Z) (i : Z) : option Z :=
  if 0 <=? i then w !! Z.to_nat i else None.
Definition word_set (w : list Z) (i v : Z) : option (list Z) :=
  if (0 <=? i) && (i <? lenZ w) then Some (<[Z.to_nat i := v]> w) else None.

(** [for (i = lo; i < lo + n; i++) body] *)
Fixpoint for_loop {A} (n : nat) (i : Z) (body : Z -> A -> option A) (a : A) : option A :=
  match n with
  | O => Some a
  | S n' => let? a' := body i a in for_loop n' (i + 1) body a'
  end.
Definition for_range {A} (lo hi : Z) (body : Z -> A -> option A) (a : A) : option A :=
  for_loop (Z.to_nat (hi - lo)) lo body a.

(** The bit macros, on the words of [v128_t] and [bitvector_t]. *)
Definition get_bit (w : list Z) (bit : Z) : option Z :=
  let? x := word_get w (Z.shiftr bit 5) in
  Some (Z.land (Z.shiftr x (Z.land bit 31)) 1).
Definition set_bit (w : list Z) (bit : Z) : option (list Z) :=
  let? x := word_get w (Z.shiftr bit 5) in
  word_set w (Z.shiftr bit 5) (Z.lor x (u32 (Z.shiftl 1 (Z.land bit 31)))).

(** ** 128-bit vectors: the list of the words [v32] *)
Definition v128_set_to_zero : list Z := [0; 0; 0; 0].

Definition v128_left_shift (x : list Z) (shift : Z) : option (list Z) :=
  let base_index := Z.shiftr shift 5 in
  let bit_index := Z.land shift 31 in
  if 127 <? shift then Some v128_set_to_zero
  else
    let? x :=
      (if bit_index =? 0 then
         for_range 0 (4 - base_index) (fun i x =>
           let? v := word_get x (i + base_index) in word_set x i v) x
       else
         let? x := for_range 0 (4 - base_index - 1) (fun i x =>
           let? a := word_get x (i + base_index) in
           let? b := word_get x (i + base_index + 1) in
           word_set x i (Z.lxor (Z.shiftr a bit_index) (u32 (Z.shiftl b (32 - bit_index))))) x in
         let? a := word_get x (4 - 1) in
         word_set x (4 - base_index - 1) (Z.shiftr a bit_index)) in
    for_range (4 - base_index) 4 (fun i x => word_set x i 0) x.

(** ** Bit vectors *)
Record bitvector_t := { bv_length : Z; word : list Z }.
#[export] Instance expand_bitvector : Expand bitvector_t :=
  fun v => Build_bitvector_t (bv_length v) (word v).

(** crypto/kernel/alloc.c, as an array of zeroed words *)
Definition srtp_crypto_alloc (heap : bool) (size : Z) : option (list Z) :=
  if size =? 0 then None
  else if heap then Some (replicate (Z.to_nat (size / 4)) 0) else None.

Definition bitvector_set_to_zero (x : bitvector_t) : option bitvector_t :=
  let n := Z.to_nat (Z.shiftr (bv_length x) 3 / 4) in
  if Nat.leb n (length (word x))
  then Some (x <| word := replicate n 0 ++ drop n (word x) |>)
  else None.

(** The result and the vector: a null [word] is the empty list. *)
Definition bitvector_alloc (heap : bool) (length : Z) : option (Z * bitvector_t) :=
  let length := Z.land (u32 (length + 32 - 1)) (u32 (Z.lnot 31)) in
  let l := length / 32 * 4 in
  let l := Z.land (u32 (l + 15)) (u32 (Z.lnot 15)) in
  if l =? 0 then Some (-1, {| bv_length := 0; word := [] |})
  else match srtp_crypto_alloc heap l with
       | None => Some (-1, {| bv_length := 0; word := [] |})
       | Some w =>
           let? v := bitvector_set_to_zero {| bv_length := length; word := w |} in
           Some (0, v)
       end.

Definition bitvector_left_shift (x : bitvector_t) (shift : Z) : option bitvector_t :=
  let base_index := Z.shiftr shift 5 in
  let bit_index := Z.land shift 31 in
  let word_length := Z.shiftr (bv_length x) 5 in
  if s32 (bv_length x) <=? shift then bitvector_set_to_zero x
  else
    let? w :=
      (if bit_index =? 0 then
         for_range 0 (word_length - base_index) (fun i w =>
           let? v := word_get w (i + base_index) in word_set w i v) (word x)
       else
         let? w := for_range 0 (word_length - base_index - 1) (fun i w =>
           let? a := word_get w (i + base_index) in
           let? b := word_get w (i + base_index + 1) in
           word_set w i (Z.lxor (Z.shiftr a bit_index) (u32 (Z.shiftl b (32 - bit_index))))) (word x) in
         let? a := word_get w (word_length - 1) in
         word_set w (word_length - base_index - 1) (Z.shiftr a bit_index)) in
    let? w := for_range (word_length - base_index) word_length (fun i w => word_set w i 0) w in
    Some (x <| word := w |>).

(** ** rdb.c: the replay database of SRTCP *)
Record srtp_rdb_t := { window_start : Z; bitmask : list Z }.
#[export] Instance expand_rdb : Expand srtp_rdb_t :=
  fun r => Build_srtp_rdb_t (window_start r) (bitmask r).

Definition rdb_bits_in_bitmask : Z := 8 * 16.

Definition srtp_rdb_init : srtp_rdb_t :=
  {| window_start := 0; bitmask := v128_set_to_zero |}.

Definition srtp_rdb_check (rdb : srtp_rdb_t) (p_index : Z) : option srtp_err_status_t :=
  if u32 (window_start rdb + rdb_bits_in_bitmask) <=? p_index then Some srtp_err_status_ok
  else if p_index <? window_start rdb then Some srtp_err_status_replay_old
  else
    let? b := get_bit (bitmask rdb) (u32 (p_index - window_start rdb)) in
    if b =? 1 then Some srtp_err_status_replay_fail else Some srtp_err_status_ok.

Definition srtp_rdb_add_index (rdb : srtp_rdb_t) (p_index : Z)
  : option (srtp_err_status_t * srtp_rdb_t) :=
  if p_index <? window_start rdb then Some (srtp_err_status_replay_fail, rdb)
  else
    let delta := u32 (p_index - window_start rdb) in
    if delta <? rdb_bits_in_bitmask then
      let? m := set_bit (bitmask rdb) delta in
      Some (srtp_err_status_ok, rdb <| bitmask := m |>)
    else
      let delta := u32 (delta - (rdb_bits_in_bitmask - 1)) in
      let? m := v128_left_shift (bitmask rdb) (s32 delta) in
      let? m := set_bit m (rdb_bits_in_bitmask - 1) in
      Some (srtp_err_status_ok,
            {| window_start := u32 (window_start rdb + delta); bitmask := m |}).

Definition srtp_rdb_increment (rdb : srtp_rdb_t) : srtp_err_status_t * srtp_rdb_t :=
  if 0x7fffffff <=? window_start rdb then (srtp_err_status_key_expired, rdb)
  else (srtp_err_status_ok, rdb <| window_start := u32 (window_start rdb + 1) |>).

Definition srtp_rdb_get_value (rdb : srtp_rdb_t) : Z := window_start rdb.

(** ** rdbx.c: extended sequence numbers *)
Definition seq_num_median : Z := Z.shiftl 1 (8 * 2 - 1).
Definition seq_num_max : Z := Z.shiftl 1 (8 * 2).

Definition srtp_index_init : Z := 0.
Definition srtp_index_advance (pi s : Z) : Z := u64 (pi + s).

(** The guess, and its distance from the local index. *)
Definition srtp_index_guess (local s : Z) : Z * Z :=
  let local_roc := u32 (Z.shiftr local 16) in
  let local_seq := u16 local in
  let '(guess_roc, difference) :=
    if local_seq <? seq_num_median then
      if seq_num_median <? s - local_seq
      then (u32 (local_roc - 1), s - local_seq - seq_num_max)
      else (local_roc, s - local_seq)
    else
      if s <? local_seq - seq_num_median
      then (u32 (local_roc + 1), s - local_seq + seq_num_max)
      else (local_roc, s - local_seq) in
  let guess_seq := s in
  (Z.lor (u64 (Z.shiftl guess_roc 16)) guess_seq, difference).

(** ** rdbx.c: the replay database of SRTP *)
Record srtp_rdbx_t := { index : Z; bitmaskx : bitvector_t }.
#[export] Instance expand_rdbx : Expand srtp_rdbx_t :=
  fun r => Build_srtp_rdbx_t (index r) (bitmaskx r).

Definition srtp_rdbx_init (heap : bool) (ws : Z) : option (srtp_err_status_t + srtp_rdbx_t) :=
  if ws =? 0 then Some (inl srtp_err_status_bad_param)
  else
    let? (r, v) := bitvector_alloc heap ws in
    if negb (r =? 0) then Some (inl srtp_err_status_alloc_fail)
    else Some (inr {| index := srtp_index_init; bitmaskx := v |}).

Definition srtp_rdbx_set_roc (rdbx : srtp_rdbx_t) (roc : Z)
  : option (srtp_err_status_t * srtp_rdbx_t) :=
  let? v := bitvector_set_to_zero (bitmaskx rdbx) in
  let rdbx := rdbx <| bitmaskx := v |> in
  if roc <? Z.shiftr (index rdbx) 16 then Some (srtp_err_status_replay_old, rdbx)
  else
    let rdbx := rdbx <| index ::= fun i => Z.land i 0xffff |> in
    Some (srtp_err_status_ok,
          rdbx <| index ::= fun i => Z.lor i (u64 (Z.shiftl roc 16)) |>).

Definition srtp_rdbx_get_packet_index (rdbx : srtp_rdbx_t) : Z := index rdbx.
Definition srtp_rdbx_get_window_size (rdbx : srtp_rdbx_t) : Z := bv_length (bitmaskx rdbx).

Definition srtp_rdbx_check (rdbx : srtp_rdbx_t) (delta : Z) : option srtp_err_status_t :=
  let last := s32 (u32 (bv_length (bitmaskx rdbx) - 1)) in
  if 0 <? delta then Some srtp_err_status_ok
  else if last + delta <? 0 then Some srtp_err_status_replay_old
  else
    let? b := get_bit (word (bitmaskx rdbx)) (last + delta) in
    if b =? 1 then Some srtp_err_status_replay_fail else Some srtp_err_status_ok.

Definition srtp_rdbx_add_index (rdbx : srtp_rdbx_t) (delta : Z) : option srtp_rdbx_t :=
  if 0 <? delta then
    let rdbx := rdbx <| index ::= fun i => srtp_index_advance i (u16 delta) |> in
    let? v := bitvector_left_shift (bitmaskx rdbx) delta in
    let? w := set_bit (word v) (u32 (bv_length v - 1)) in
    Some (rdbx <| bitmaskx := v <| word := w |> |>)
  else
    let v := bitmaskx rdbx in
    let? w := set_bit (word v) (u32 (bv_length v - 1 + delta)) in
    Some (rdbx <| bitmaskx := v <| word := w |> |>).

(** The guess and its distance. *)
Definition srtp_rdbx_estimate_index (rdbx : srtp_rdbx_t) (s : Z) : Z * Z :=
  if seq_num_median <? index rdbx then srtp_index_guess (index rdbx) s
  else (s, s - u16 (index rdbx)).

Definition srtp_rdbx_get_roc (rdbx : srtp_rdbx_t) : Z := u32 (Z.shiftr (index rdbx) 16).

Definition srtp_rdbx_set_roc_seq (rdbx : srtp_rdbx_t) (roc seq : Z)
  : option (srtp_err_status_t * srtp_rdbx_t) :=
  if roc <? Z.shiftr (index rdbx) 16 then Some (srtp_err_status_replay_old, rdbx)
  else
    let rdbx := rdbx <| index := seq |> in
    let rdbx := rdbx <| index ::= fun i => Z.lor i (u64 (Z.shiftl roc 16)) |> in
    let? v := bitvector_set_to_zero (bitmaskx rdbx) in
    Some (srtp_err_status_ok, rdbx <| bitmaskx := v |>).

(** ** srtp.c: the index of a packet and its use *)

(** The fields of [srtp_stream_ctx_t] that the replay protection uses. *)
Record srtp_stream_ctx_t := {
  rtp_rdbx : srtp_rdbx_t;
  rtcp_rdb : srtp_rdb_t;
  allow_repeat_tx : bool;
  pending_roc : Z
}.
#[export] Instance expand_stream : Expand srtp_stream_ctx_t :=
  fun s => Build_srtp_stream_ctx_t (rtp_rdbx s) (rtcp_rdb s) (allow_repeat_tx s) (pending_roc s).

(** The replay part of srtp_stream_init: the window size and allow_repeat_tx of
    the policy. *)
Definition srtp_stream_init (heap : bool) (window_size allow_repeat : Z)
  : option (srtp_err_status_t + srtp_stream_ctx_t) :=
  if negb (window_size =? 0) && ((window_size <? 64) || (0x8000 <=? window_size))
  then Some (inl srtp_err_status_bad_param)
  else
    let? r := (if negb (window_size =? 0) then srtp_rdbx_init heap window_size
               else srtp_rdbx_init heap 128) in
    match r with
    | inl err => Some (inl err)
    | inr rdbx =>
        if negb (allow_repeat =? 0) && negb (allow_repeat =? 1)
        then Some (inl srtp_err_status_bad_param)
        else Some (inr {| rtp_rdbx := rdbx; rtcp_rdb := srtp_rdb_init;
                          allow_repeat_tx := allow_repeat =? 1; pending_roc := 0 |})
    end.

(** The replay part of srtp_stream_clone. *)
Definition srtp_stream_clone (heap : bool) (stream_template : srtp_stream_ctx_t)
  : option (srtp_err_status_t + srtp_stream_ctx_t) :=
  let? r := srtp_rdbx_init heap (srtp_rdbx_get_window_size (rtp_rdbx stream_template)) in
  match r with
  | inl status => Some (inl status)
  | inr rdbx =>
      Some (inr {| rtp_rdbx := rdbx; rtcp_rdb := srtp_rdb_init;
                   allow_repeat_tx := allow_repeat_tx stream_template; pending_roc := 0 |})
  end.

(** The status, the estimate and its distance. *)
Definition srtp_estimate_index (rdbx : srtp_rdbx_t) (roc seq : Z)
  : srtp_err_status_t * (Z * Z) :=
  let est := Z.lor (u64 (Z.shiftl roc 16)) seq in
  let delta := s32 (u64 (est - index rdbx)) in
  if index rdbx <? est then
    if seq_num_median <? u64 (est - index rdbx)
    then (srtp_err_status_pkt_idx_adv, (est, 0))
    else (srtp_err_status_ok, (est, delta))
  else if est <? index rdbx then
    if seq_num_median <? u64 (index rdbx - est)
    then (srtp_err_status_pkt_idx_old, (est, 0))
    else (srtp_err_status_ok, (est, delta))
  else (srtp_err_status_ok, (est, delta)).

Definition srtp_get_est_pkt_index (seq : Z) (stream : srtp_stream_ctx_t)
  : srtp_err_status_t * (Z * Z) :=
  if negb (pending_roc stream =? 0)
  then srtp_estimate_index (rtp_rdbx stream) (pending_roc stream) seq
  else (srtp_err_status_ok, srtp_rdbx_estimate_index (rtp_rdbx stream) seq).

(** Advancing to an index too far ahead for a shift, the common tail of
    srtp_protect and srtp_unprotect. *)
Definition advance_index (stream : srtp_stream_ctx_t) (roc seq : Z) : option srtp_stream_ctx_t :=
  let? (_, rdbx) := srtp_rdbx_set_roc_seq (rtp_rdbx stream) roc seq in
  let stream := stream <| rtp_rdbx := rdbx |> <| pending_roc := 0 |> in
  let? rdbx := srtp_rdbx_add_index (rtp_rdbx stream) 0 in
  Some (stream <| rtp_rdbx := rdbx |>).

Definition add_index (stream : srtp_stream_ctx_t) (delta : Z) : option srtp_stream_ctx_t :=
  let? rdbx := srtp_rdbx_add_index (rtp_rdbx stream) delta in
  Some (stream <| rtp_rdbx := rdbx |>).

(** What srtp_protect does to choose the index of a packet: an error, or the
    index and the stream that has recorded it. *)
Definition srtp_protect_index (stream : srtp_stream_ctx_t) (seq : Z)
  : outcome srtp_err_status_t (Z * srtp_stream_ctx_t) :=
  let '(status, (est, delta)) := srtp_get_est_pkt_index seq stream in
  if negb (is_status srtp_err_status_ok status) && negb (is_status srtp_err_status_pkt_idx_adv status)
  then Return status
  else if is_status srtp_err_status_pkt_idx_adv status then
    let! stream := acc (advance_index stream (u32 (Z.shiftr est 16)) (u16 (Z.land est 0xffff))) in
    Next (est, stream)
  else
    let! status := acc (srtp_rdbx_check (rtp_rdbx stream) delta) in
    if negb (is_status srtp_err_status_ok status) &&
       (negb (is_status srtp_err_status_replay_fail status) || negb (allow_repeat_tx stream))
    then Return status
    else
      let! stream := acc (add_index stream delta) in
      Next (est, stream).

(** srtp_unprotect up to the authentication: the estimate, its distance and
    whether the index has to be advanced. *)
Definition srtp_unprotect_check (stream : srtp_stream_ctx_t) (seq : Z)
  : outcome srtp_err_status_t (Z * Z * bool) :=
  let '(status, (est, delta)) := srtp_get_est_pkt_index seq stream in
  if negb (is_status srtp_err_status_ok status) && negb (is_status srtp_err_status_pkt_idx_adv status)
  then Return status
  else
    let advance_packet_index := is_status srtp_err_status_pkt_idx_adv status in
    if negb advance_packet_index then
      let! status := acc (srtp_rdbx_check (rtp_rdbx stream) delta) in
      if negb (is_status srtp_err_status_ok status) then Return status
      else Next (est, delta, advance_packet_index)
    else Next (est, delta, advance_packet_index).

(** srtp_unprotect behind the authentication. *)
Definition srtp_unprotect_commit (stream : srtp_stream_ctx_t) (est delta : Z)
    (advance_packet_index : bool) : option srtp_stream_ctx_t :=
  let roc_to_set := u32 (Z.shiftr est 16) in
  let seq_to_set := u16 (Z.land est 0xffff) in
  if advance_packet_index then advance_index stream roc_to_set seq_to_set
  else add_index stream delta.

(** The whole for a known stream; [authentic] is the status with which the
    authentication and decryption under the index [est] end. *)
Definition srtp_unprotect_index (stream : srtp_stream_ctx_t) (seq : Z)
    (authentic : Z -> srtp_err_status_t) : outcome srtp_err_status_t (Z * srtp_stream_ctx_t) :=
  let! (est, delta, advance_packet_index) := srtp_unprotect_check stream seq in
  if negb (is_status srtp_err_status_ok (authentic est)) then Return (authentic est)
  else
    let! stream := acc (srtp_unprotect_commit stream est delta advance_packet_index) in
    Next (est, stream).

(** For a stream not seen before, with the template of the session. *)
Definition srtp_unprotect_provisional (heap : bool) (stream_template : srtp_stream_ctx_t) (seq : Z)
    (authentic : Z -> srtp_err_status_t) : outcome srtp_err_status_t (Z * srtp_stream_ctx_t) :=
  let est := seq in
  let delta := s32 est in
  if negb (is_status srtp_err_status_ok (authentic est)) then Return (authentic est)
  else
    let! r := acc (srtp_stream_clone heap stream_template) in
    match r with
    | inl status => Return status
    | inr stream =>
        let! stream := acc (srtp_unprotect_commit stream est delta false) in
        Next (est, stream)
    end.

Definition srtp_set_stream_roc (stream : srtp_stream_ctx_t) (roc : Z) : srtp_stream_ctx_t :=
  stream <| pending_roc := roc |>.
Definition srtp_get_stream_roc (stream : srtp_stream_ctx_t) : Z :=
  srtp_rdbx_get_roc (rtp_rdbx stream).

(** SRTCP: the index a sender puts into its packet, and a receiver's use of the
    index it reads from the trailer. *)
Definition srtp_protect_rtcp_index (stream : srtp_stream_ctx_t)
  : outcome srtp_err_status_t (Z * srtp_stream_ctx_t) :=
  let '(status, rdb) := srtp_rdb_increment (rtcp_rdb stream) in
  if negb (is_status srtp_err_status_ok status) then Return status
  else
    let stream := stream <| rtcp_rdb := rdb |> in
    let seq_num := srtp_rdb_get_value (rtcp_rdb stream) in
    Next (seq_num, stream).

Definition SRTCP_INDEX_MASK : Z := 0x7fffffff.

Definition srtp_unprotect_rtcp_index (stream : srtp_stream_ctx_t) (trailer : Z)
    (authentic : srtp_err_status_t) : outcome srtp_err_status_t (Z * srtp_stream_ctx_t) :=
  let seq_num := Z.land (ntohl trailer) SRTCP_INDEX_MASK in
  let! status := acc (srtp_rdb_check (rtcp_rdb stream) seq_num) in
  if negb (is_status srtp_err_status_ok status) then Return status
  else if negb (is_status srtp_err_status_ok authentic) then Return authentic
  else
    let! (_, rdb) := acc (srtp_rdb_add_index (rtcp_rdb stream) seq_num) in
    Next (seq_num, stream <| rtcp_rdb := rdb |>).

(** ** key.c: how many packets a key may protect *)
Definition soft_limit : Z := 0x10000.

Inductive srtp_key_event : Type := srtp_key_event_normal | srtp_key_event_soft_limit | srtp_key_event_hard_limit.
Inductive srtp_key_state : Type := srtp_key_state_normal | srtp_key_state_past_soft_limit | srtp_key_state_expired.

#[export] Instance srtp_key_state_eq_dec : EqDecision srtp_key_state.
Proof. solve_decision. Defined.

Record srtp_key_limit_ctx := mkKeyLimit { num_left : Z; key_state : srtp_key_state }.

Definition srtp_key_limit_set (key : srtp_key_limit_ctx) (s : Z) : srtp_err_status_t * srtp_key_limit_ctx :=
  if s <? soft_limit then (srtp_err_status_bad_param, key) else (srtp_err_status_ok, mkKeyLimit s srtp_key_state_normal).

Definition srtp_key_limit_update (key : srtp_key_limit_ctx) : srtp_key_event * srtp_key_limit_ctx :=
  let left := u64 (num_left key - 1) in
  if soft_limit <=? left then (srtp_key_event_normal, mkKeyLimit left (key_state key))
  else
    let state := if bool_decide (key_state key = srtp_key_state_normal) then srtp_key_state_past_soft_limit else key_state key in
    if left <? 1 then (srtp_key_event_hard_limit, mkKeyLimit left srtp_key_state_expired)
    else (srtp_key_event_soft_limit, mkKeyLimit left state).
