(* ===== verification/SrtpWindow.v ===== *)
(** * Bit vectors and the sliding windows of libsrtp

    What the vectors of datatypes.c hold after each operation.  The window of the
    specification remembers every index that was added to it; the databases only
    keep one bit for each of the last [size] indices. *)

From stdpp Require Import list gmap.
From S2P Require Import Prelude SrtpReplay.
#[local] Open Scope Z_scope.

Abbreviation words_ok := (Forall (fun v => 0 <= v < 2 ^ 32)).

(** Bit [k] of an array of words. *)
Definition bit (w : list Z) (k : Z) : bool :=
  match w !! Z.to_nat (k / 32) with
  | Some v => Z.testbit v (k `mod` 32)
  | None => false
  end.

(** ** Loops over words *)

(** A loop that stores [g i] in word [i], whatever it has done to the words
    before. *)
Lemma for_range_words lo hi (f : Z -> list Z -> option (list Z)) (g : Z -> Z) (w : list Z) :
  0 <= lo -> hi <= lenZ w ->
  (forall i w', lo <= i < hi -> lenZ w' = lenZ w ->
     (forall j, i <= j -> w' !! Z.to_nat j = w !! Z.to_nat j) -> f i w' = word_set w' i (g i)) ->
  exists w', for_range lo hi f w = Some w' /\ lenZ w' = lenZ w /\
    forall j, 0 <= j -> w' !! Z.to_nat j = if (lo <=? j) && (j <? hi) then Some (g j) else w !! Z.to_nat j.
Proof.
  unfold for_range. intros Hlo Hhi Hf. remember (Z.to_nat (hi - lo)) as n eqn:Hn.
  revert lo w Hlo Hhi Hf Hn. induction n as [|n IH]; intros lo w Hlo Hhi Hf Hn; cbn [for_loop].
  - exists w. split; [done|]. split; [done|]. intros j Hj. case_test; [zify_bool; lia | done].
  - rewrite (Hf lo w) by (done || lia). unfold word_set.
    replace ((0 <=? lo) && (lo <? lenZ w)) with true by lia.
    destruct (IH (lo + 1) (<[Z.to_nat lo := g lo]> w)) as (w' & -> & Hl & Hw).
    + lia.
    + unfold lenZ in *. rewrite length_insert. lia.
    + intros i w' Hi Hl Hagree. apply Hf; [lia | unfold lenZ in *; by rewrite Hl, length_insert|].
      intros j Hj. rewrite Hagree by done. apply list_lookup_insert_ne. lia.
    + lia.
    + exists w'. split; [done|]. split; [unfold lenZ in *; by rewrite Hl, length_insert|].
      intros j Hj. rewrite Hw by done. destruct (decide (j = lo)) as [->|Hne].
      * replace ((lo + 1 <=? lo) && (lo <? hi)) with false by lia.
        replace ((lo <=? lo) && (lo <? hi)) with true by lia.
        apply list_lookup_insert_eq. unfold lenZ in Hhi. lia.
      * replace ((lo + 1 <=? j) && (j <? hi)) with ((lo <=? j) && (j <? hi)) by lia.
        case_test; [done|]. apply list_lookup_insert_ne. lia.
Qed.

Lemma word_get_ok (w : list Z) i v : 0 <= i -> w !! Z.to_nat i = Some v -> word_get w i = Some v.
Proof. intros Hi Hv. unfold word_get. by replace (0 <=? i) with true by lia. Qed.

Lemma word_exists (w : list Z) i : 0 <= i < lenZ w -> exists v, w !! Z.to_nat i = Some v.
Proof. unfold lenZ. intros Hi. apply lookup_lt_is_Some_2. lia. Qed.

Lemma word_range (w : list Z) i v : words_ok w -> w !! i = Some v -> 0 <= v < 2 ^ 32.
Proof. intros Hw Hv. exact (Forall_lookup_1 _ _ _ _ Hw Hv). Qed.

(** ** The bit macros *)
Lemma shiftr5 k : Z.shiftr k 5 = k / 32.
Proof. rewrite Z.shiftr_div_pow2 by lia. done. Qed.
Lemma land31 k : Z.land k 31 = k `mod` 32.
Proof. apply (land_ones_mod 5). lia. Qed.

Lemma bit_word w k v : w !! Z.to_nat (k / 32) = Some v -> bit w k = Z.testbit v (k `mod` 32).
Proof. unfold bit. by intros ->. Qed.

Lemma get_bit_spec w k : 0 <= k < 32 * lenZ w -> get_bit w k = Some (Z.b2z (bit w k)).
Proof.
  intros Hk. destruct (word_exists w (k / 32)) as [v Hv]; [lia_mod|].
  unfold get_bit. rewrite shiftr5, land31, (word_get_ok _ _ v) by (done || lia_mod).
  rewrite (bit_word _ _ v Hv). f_equal. rewrite (land_ones_mod 1), <- Z.bit0_mod by lia.
  by rewrite Z.shiftr_spec, Z.add_0_l by lia.
Qed.

Lemma testbit_one_shift b j : 0 <= b < 32 -> 0 <= j < 32 ->
  Z.testbit (u32 (Z.shiftl 1 b)) j = (j =? b).
Proof.
  intros Hb Hj. rewrite Z.shiftl_1_l, wrap_small.
  - rewrite Z.pow2_bits_eqb by lia. apply Z.eqb_sym.
  - split; [apply Z.pow_nonneg; lia | apply Z.pow_lt_mono_r; lia].
Qed.

Lemma set_bit_spec w k : words_ok w -> 0 <= k < 32 * lenZ w ->
  exists w', set_bit w k = Some w' /\ lenZ w' = lenZ w /\ words_ok w' /\
    forall j, 0 <= j -> bit w' j = (j =? k) || bit w j.
Proof.
  intros Hw Hk. destruct (word_exists w (k / 32)) as [v Hv]; [lia_mod|].
  unfold set_bit, word_set. rewrite shiftr5, land31, (word_get_ok _ _ v) by (done || lia_mod).
  replace ((0 <=? k / 32) && (k / 32 <? lenZ w)) with true by lia_mod.
  pose proof (word_range _ _ _ Hw Hv) as Hr. pose proof (Z.mod_pos_bound k 32 ltac:(lia)) as Hm.
  eexists. split; [done|]. split; [unfold lenZ; by rewrite length_insert|]. split.
  - apply Forall_insert; [done|]. apply (lor_range 32); [lia | done | by apply wrap_range].
  - intros j Hj. unfold bit. destruct (decide (j / 32 = k / 32)) as [E|E].
    + rewrite E, list_lookup_insert_eq by (apply lookup_lt_is_Some_1; by eexists).
      rewrite Hv, Z.lor_spec, testbit_one_shift by lia_mod. rewrite orb_comm. f_equal. lia_mod.
    + rewrite list_lookup_insert_ne by lia_mod. by replace (j =? k) with false by lia_mod.
Qed.

(** ** The left shift *)

(** The common part of [v128_left_shift] and [bitvector_left_shift], on [n] words. *)
Definition shift_words (n : Z) (w : list Z) (shift : Z) : option (list Z) :=
  let base_index := Z.shiftr shift 5 in
  let bit_index := Z.land shift 31 in
  let? w :=
    (if bit_index =? 0 then
       for_range 0 (n - base_index) (fun i w =>
         let? v := word_get w (i + base_index) in word_set w i v) w
     else
       let? w := for_range 0 (n - base_index - 1) (fun i w =>
         let? a := word_get w (i + base_index) in
         let? b := word_get w (i + base_index + 1) in
         word_set w i (Z.lxor (Z.shiftr a bit_index) (u32 (Z.shiftl b (32 - bit_index))))) w in
       let? a := word_get w (n - 1) in
       word_set w (n - base_index - 1) (Z.shiftr a bit_index)) in
  for_range (n - base_index) n (fun i w => word_set w i 0) w.

Lemma v128_left_shift_words x shift :
  v128_left_shift x shift =
  if 127 <? shift then Some v128_set_to_zero else shift_words 4 x shift.
Proof. reflexivity. Qed.

Lemma bitvector_left_shift_words x shift :
  bitvector_left_shift x shift =
  if s32 (bv_length x) <=? shift then bitvector_set_to_zero x
  else let? w := shift_words (Z.shiftr (bv_length x) 5) (word x) shift in Some (x <| word := w |>).
Proof.
  unfold bitvector_left_shift, shift_words. case_test; [done|]. cbv zeta.
  match goal with |- match ?m with Some _ => _ | None => _ end = _ => by destruct m end.
Qed.

(** Word [j] of the array shifted by [32 * base + b] bits. *)
Definition shifted (n : Z) (w : list Z) (base b j : Z) : Z :=
  let at_ i := default 0 (w !! Z.to_nat i) in
  if n <=? j + base then 0
  else if b =? 0 then at_ (j + base)
  else if j + base + 1 <? n
       then Z.lxor (Z.shiftr (at_ (j + base)) b) (u32 (Z.shiftl (at_ (j + base + 1)) (32 - b)))
       else Z.shiftr (at_ (j + base)) b.

Lemma word_at (w : list Z) i : 0 <= i < lenZ w -> w !! Z.to_nat i = Some (default 0 (w !! Z.to_nat i)).
Proof. intros Hi. by destruct (word_exists w i Hi) as [v ->]. Qed.

(** The first loop, on whole words and on parts of words. *)
Definition moved (n base b : Z) (w w1 : list Z) : Prop :=
  lenZ w1 = lenZ w /\ forall j, 0 <= j ->
    w1 !! Z.to_nat j = if j <? n - base then Some (shifted n w base b j) else w !! Z.to_nat j.

Lemma move_words n base (w : list Z) : 0 <= base < n -> n <= lenZ w ->
  exists w1, for_range 0 (n - base) (fun i w => let? v := word_get w (i + base) in word_set w i v) w = Some w1 /\
    moved n base 0 w w1.
Proof.
  intros Hbase Hn.
  destruct (for_range_words 0 (n - base)
    (fun i w => let? v := word_get w (i + base) in word_set w i v)
    (fun i => default 0 (w !! Z.to_nat (i + base))) w) as (w1 & -> & Hl & Hw); [lia | lia | |].
  - intros i w' Hi Hl Hagree. erewrite word_get_ok; [done | lia |].
    rewrite Hagree by lia. apply word_at. lia.
  - exists w1. split; [done|]. split; [done|]. intros j Hj. rewrite Hw by done.
    replace (0 <=? j) with true by lia. cbn [andb]. case_test; [|done]. zify_bool.
    unfold shifted. by replace (n <=? j + base) with false by lia.
Qed.

Lemma move_bits n base b (w : list Z) : 0 <= base < n -> 0 < b -> n <= lenZ w ->
  exists w1,
    (let? w := for_range 0 (n - base - 1) (fun i w =>
       let? a := word_get w (i + base) in
       let? b' := word_get w (i + base + 1) in
       word_set w i (Z.lxor (Z.shiftr a b) (u32 (Z.shiftl b' (32 - b))))) w in
     let? a := word_get w (n - 1) in
     word_set w (n - base - 1) (Z.shiftr a b)) = Some w1 /\ moved n base b w w1.
Proof.
  intros Hbase Hb Hn. set (at_ := fun i => default 0 (w !! Z.to_nat i)).
  destruct (for_range_words 0 (n - base - 1)
    (fun i w => let? a := word_get w (i + base) in let? b' := word_get w (i + base + 1) in
       word_set w i (Z.lxor (Z.shiftr a b) (u32 (Z.shiftl b' (32 - b)))))
    (fun i => Z.lxor (Z.shiftr (at_ (i + base)) b) (u32 (Z.shiftl (at_ (i + base + 1)) (32 - b)))) w)
    as (w1 & -> & Hl & Hw); [lia | lia | |].
  - intros i w' Hi Hl Hagree. erewrite (word_get_ok _ (i + base)), (word_get_ok _ (i + base + 1));
      [done | lia | | lia |]; (rewrite Hagree by lia; apply word_at; lia).
  - rewrite (word_get_ok _ _ (at_ (n - 1))); [| lia |].
    2:{ rewrite Hw by lia. replace ((0 <=? n - 1) && (n - 1 <? n - base - 1)) with false by lia.
        apply word_at. lia. }
    unfold word_set. replace ((0 <=? n - base - 1) && (n - base - 1 <? lenZ w1)) with true by lia.
    eexists. split; [done|]. split; [unfold lenZ in *; by rewrite length_insert|].
    intros j Hj. unfold shifted. replace (b =? 0) with false by lia.
    destruct (decide (j = n - base - 1)) as [->|Hne].
    + rewrite list_lookup_insert_eq by (unfold lenZ in *; lia).
      replace (n - base - 1 <? n - base) with true by lia.
      replace (n <=? n - base - 1 + base) with false by lia.
      replace (n - base - 1 + base + 1 <? n) with false by lia.
      by replace (n - base - 1 + base) with (n - 1) by lia.
    + rewrite list_lookup_insert_ne, Hw by lia. replace (0 <=? j) with true by lia. cbn [andb].
      replace (j <? n - base) with (j <? n - base - 1) by lia. case_test; [|done]. zify_bool.
      replace (n <=? j + base) with false by lia. by replace (j + base + 1 <? n) with true by lia.
Qed.

Lemma shift_words_eq n w shift :
  0 <= shift < 32 * n -> n <= lenZ w ->
  exists w', shift_words n w shift = Some w' /\ lenZ w' = lenZ w /\
    forall j, 0 <= j -> w' !! Z.to_nat j =
      if j <? n then Some (shifted n w (shift / 32) (shift `mod` 32) j) else w !! Z.to_nat j.
Proof.
  intros Hs Hn. unfold shift_words. rewrite shiftr5, land31.
  assert (Hbase : 0 <= shift / 32 < n) by lia_mod.
  assert (Hb : 0 <= shift `mod` 32 < 32) by lia_mod.
  set (base := shift / 32) in *. set (b := shift `mod` 32) in *. cbv zeta.
  match goal with |- context [match ?m with Some _ => _ | None => _ end] =>
    assert (Hfirst : exists w1, m = Some w1 /\ moved n base b w w1) end.
  { destruct (b =? 0) eqn:Eb; zify_bool.
    - rewrite Eb. by apply move_words.
    - apply move_bits; [done | lia | done]. }
  destruct Hfirst as (w1 & -> & Hl1 & Hw1).
  destruct (for_range_words (n - base) n (fun i w => word_set w i 0) (fun _ => 0) w1)
    as (w2 & -> & Hl2 & Hw2); [lia | lia | done |].
  exists w2. split; [done|]. split; [congruence|]. intros j Hj. rewrite Hw2, Hw1 by done.
  destruct (decide (j < n - base)).
  - replace ((n - base <=? j) && (j <? n)) with false by lia.
    replace (j <? n - base) with true by lia. by replace (j <? n) with true by lia.
  - replace (n - base <=? j) with true by lia. cbn [andb]. replace (j <? n - base) with false by lia.
    case_test; [|done]. unfold shifted. by replace (n <=? j + base) with true by lia.
Qed.

Lemma testbit_u32 z i : 0 <= i < 32 -> Z.testbit (u32 z) i = Z.testbit z i.
Proof. intros Hi. unfold wrap. apply Z.mod_pow2_bits_low. lia. Qed.

(** The bits of two neighbouring words, moved by [b] places. *)
Lemma testbit_joined a a' b i : 0 <= a < 2 ^ 32 -> 0 < b < 32 -> 0 <= i < 32 ->
  Z.testbit (Z.lxor (Z.shiftr a b) (u32 (Z.shiftl a' (32 - b)))) i =
  if i + b <? 32 then Z.testbit a (i + b) else Z.testbit a' (i + b - 32).
Proof.
  intros Ha Hb Hi. rewrite Z.lxor_spec, testbit_u32, Z.shiftr_spec, Z.shiftl_spec by lia.
  replace (i - (32 - b)) with (i + b - 32) by lia. case_test; zify_bool.
  - rewrite (Z.testbit_neg_r a') by lia. apply xorb_false_r.
  - rewrite (testbit_above 32 a) by lia. apply xorb_false_l.
Qed.

Lemma shifted_bit n w shift k :
  words_ok w -> n <= lenZ w -> 0 <= shift < 32 * n -> 0 <= k < 32 * n ->
  Z.testbit (shifted n w (shift / 32) (shift `mod` 32) (k / 32)) (k `mod` 32) =
  (k + shift <? 32 * n) && bit w (k + shift).
Proof.
  intros Hw Hn Hs Hk. unfold shifted.
  assert (Hi : 0 <= k `mod` 32 < 32) by lia_mod. assert (Hb : 0 <= shift `mod` 32 < 32) by lia_mod.
  set (j := k / 32). set (i := k `mod` 32) in *. set (base := shift / 32). set (b := shift `mod` 32) in *.
  assert (Ek : k = 32 * j + i) by (subst j i; lia_mod).
  assert (Es : shift = 32 * base + b) by (subst base b; lia_mod).
  clearbody j i base b.
  assert (Hword : forall m, (k + shift) / 32 = m -> m < n ->
    bit w (k + shift) = Z.testbit (default 0 (w !! Z.to_nat m)) ((i + b) `mod` 32)).
  { intros m <- Hm. rewrite (bit_word _ _ (default 0 (w !! Z.to_nat ((k + shift) / 32)))).
    - f_equal. lia_mod.
    - apply word_at. lia_mod. }
  assert (Hrange : 0 <= default 0 (w !! Z.to_nat (j + base)) < 2 ^ 32).
  { destruct (w !! Z.to_nat (j + base)) as [v|] eqn:Ev; cbn; [by apply (word_range w _ v Hw Ev) | lia]. }
  destruct (n <=? j + base) eqn:E1; zify_bool.
  { replace (k + shift <? 32 * n) with false by lia. apply Z.bits_0. }
  destruct (b =? 0) eqn:E2; zify_bool.
  { replace (k + shift <? 32 * n) with true by lia. rewrite (Hword (j + base)) by lia_mod. cbn [andb]. f_equal. lia_mod. }
  destruct (j + base + 1 <? n) eqn:E3; zify_bool.
  { rewrite testbit_joined by lia. replace (k + shift <? 32 * n) with true by lia. cbn [andb].
    case_test; zify_bool; [rewrite (Hword (j + base)) by lia_mod | rewrite (Hword (j + base + 1)) by lia_mod];
      f_equal; lia_mod. }
  rewrite Z.shiftr_spec by lia. destruct (k + shift <? 32 * n) eqn:E4; zify_bool; cbn [andb].
  - rewrite (Hword (j + base)) by lia_mod. f_equal. lia_mod.
  - apply (testbit_above 32); [done | lia].
Qed.

Lemma shifted_range n w base b j : words_ok w -> 0 <= b < 32 -> 0 <= shifted n w base b j < 2 ^ 32.
Proof.
  intros Hw Hb. unfold shifted.
  assert (Hat : forall i, 0 <= default 0 (w !! Z.to_nat i) < 2 ^ 32).
  { intros i. destruct (w !! Z.to_nat i) as [v|] eqn:Ev; cbn; [by apply (word_range w _ v Hw Ev) | lia]. }
  assert (Hshr : forall a, 0 <= a < 2 ^ 32 -> 0 <= Z.shiftr a b < 2 ^ 32).
  { intros a Ha. rewrite Z.shiftr_div_pow2 by lia. assert (0 < 2 ^ b) by (apply Z.pow_pos_nonneg; lia).
    split; [apply Z.div_pos; lia | apply Z.div_lt_upper_bound; nia]. }
  repeat case_test; [lia | done | | by apply Hshr].
  apply (lxor_range 32); [lia | by apply Hshr | by apply wrap_range].
Qed.

(** A shift moves every bit down and fills up with zeros. *)
Lemma shift_words_spec n w shift :
  words_ok w -> 0 <= shift < 32 * n -> n <= lenZ w ->
  exists w', shift_words n w shift = Some w' /\ lenZ w' = lenZ w /\ words_ok w' /\
    forall k, 0 <= k < 32 * n -> bit w' k = (k + shift <? 32 * n) && bit w (k + shift).
Proof.
  intros Hw Hs Hn. destruct (shift_words_eq n w shift Hs) as (w' & -> & Hl & Hlook); [lia|].
  exists w'. split; [done|]. split; [done|]. split.
  - apply Forall_lookup_2. intros i v Hv. specialize (Hlook (Z.of_nat i) ltac:(lia)).
    rewrite Nat2Z.id, Hv in Hlook.
    destruct (Z.of_nat i <? n); [|by apply (word_range w i)].
    injection Hlook as ->. apply shifted_range; [done | lia_mod].
  - intros k Hk. assert (Hj : 0 <= k / 32 < n) by lia_mod. specialize (Hlook (k / 32) ltac:(lia)).
    replace (k / 32 <? n) with true in Hlook by lia.
    rewrite (bit_word _ _ _ Hlook). by apply shifted_bit.
Qed.

Lemma bit_zeros n k : bit (replicate n 0) k = false.
Proof.
  unfold bit. destruct (replicate n 0 !! _) eqn:E; [|done].
  apply lookup_replicate in E as [-> _]. apply Z.bits_0.
Qed.

Lemma words_ok_zeros n : words_ok (replicate n 0).
Proof. apply Forall_replicate. lia. Qed.

(** ** The two vectors *)
Lemma v128_left_shift_spec x shift : words_ok x -> lenZ x = 4 -> 0 <= shift ->
  exists x', v128_left_shift x shift = Some x' /\ lenZ x' = 4 /\ words_ok x' /\
    forall k, 0 <= k < 128 -> bit x' k = (k + shift <? 128) && bit x (k + shift).
Proof.
  intros Hx Hl Hs. rewrite v128_left_shift_words. case_test; zify_bool.
  - exists (replicate 4 0). split; [done|]. split; [done|]. split; [apply words_ok_zeros|].
    intros k Hk. rewrite bit_zeros. by replace (k + shift <? 128) with false by lia.
  - destruct (shift_words_spec 4 x shift) as (x' & -> & Hl' & Hx' & Hb); [done | lia | lia |].
    exists x'. split; [done|]. split; [lia|]. by split.
Qed.

(** What [bitvector_alloc] makes: the words in use, and words it rounds up to. *)
Definition vector_ok (n : Z) (v : bitvector_t) : Prop :=
  bv_length v = n /\ 0 < n < 2 ^ 31 /\ n `mod` 32 = 0 /\ n <= 32 * lenZ (word v) /\ words_ok (word v).

Lemma bitvector_set_to_zero_spec n v : vector_ok n v ->
  exists v', bitvector_set_to_zero v = Some v' /\ vector_ok n v' /\
    forall k, 0 <= k < n -> bit (word v') k = false.
Proof.
  intros (Hl & Hn & Hm & Hw & Hok). unfold bitvector_set_to_zero.
  rewrite Z.shiftr_div_pow2, Hl by lia. change (2 ^ 3) with 8. rewrite Z.div_div by lia. change (8 * 4) with 32.
  replace (Nat.leb _ _) with true by (symmetry; apply Nat.leb_le; unfold lenZ in Hw; lia_mod).
  eexists. split; [done|]. cbn. split.
  - split; [done|]. split; [done|]. split; [done|]. cbn. split.
    + unfold lenZ in *. rewrite length_app, length_replicate, length_drop. lia_mod.
    + apply Forall_app. split; [apply words_ok_zeros | by apply Forall_drop].
  - intros k Hk. unfold bit. rewrite lookup_app_l by (rewrite length_replicate; lia_mod). apply bit_zeros.
Qed.

Lemma bitvector_left_shift_spec n v shift : vector_ok n v -> 0 <= shift ->
  exists v', bitvector_left_shift v shift = Some v' /\ vector_ok n v' /\
    forall k, 0 <= k < n -> bit (word v') k = (k + shift <? n) && bit (word v) (k + shift).
Proof.
  intros Hv Hs. rewrite bitvector_left_shift_words. pose proof Hv as (Hl & Hn & Hm & Hw & Hok).
  assert (En : s32 (bv_length v) = n).
  { unfold s32. rewrite Hl, wrap_small by lia. case_test; zify_bool; lia. }
  rewrite En. case_test; zify_bool.
  - destruct (bitvector_set_to_zero_spec n v Hv) as (v' & -> & Hv' & Hb).
    exists v'. split; [done|]. split; [done|]. intros k Hk. rewrite Hb by done.
    by replace (k + shift <? n) with false by lia.
  - assert (E32 : 32 * (n / 32) = n) by lia_mod.
    destruct (shift_words_spec (n / 32) (word v) shift) as (w' & Hw' & Hl' & Hok' & Hb); [done | lia | lia_mod |].
    rewrite Z.shiftr_div_pow2, Hl by lia. change (2 ^ 5) with 32. rewrite Hw'.
    eexists. split; [done|]. split; [repeat split; cbn; try done; lia|].
    rewrite E32 in Hb. exact Hb.
Qed.

Lemma vector_set_bit_spec n v k : vector_ok n v -> 0 <= k < n ->
  exists w, set_bit (word v) k = Some w /\ vector_ok n (v <| word := w |>) /\
    forall j, 0 <= j -> bit w j = (j =? k) || bit (word v) j.
Proof.
  intros (Hl & Hn & Hm & Hw & Hok) Hk. destruct (set_bit_spec (word v) k) as (w & -> & Hl' & Hok' & Hb); [done | lia |].
  exists w. split; [done|]. split; [|done]. repeat split; cbn; try done; lia.
Qed.

Lemma vector_get_bit_spec n v k : vector_ok n v -> 0 <= k < n ->
  get_bit (word v) k = Some (Z.b2z (bit (word v) k)).
Proof. intros (Hl & Hn & Hm & Hw & Hok) Hk. apply get_bit_spec. lia. Qed.

(** ** Allocation *)
Lemma round_up x m : 0 <= m <= 31 -> 0 <= x < 2 ^ 32 ->
  Z.land x (u32 (Z.lnot (Z.ones m))) = 2 ^ m * (x / 2 ^ m).
Proof.
  intros Hm Hx. rewrite Z.mul_comm, <- Z.shiftl_mul_pow2 by lia.
  rewrite <- Z.shiftr_div_pow2 by lia. apply Z.bits_inj'. intros i Hi.
  rewrite Z.land_spec, Z.shiftl_spec by lia.
  destruct (Z.lt_ge_cases i 32) as [Hi'|Hi'].
  - unfold wrap. rewrite Z.mod_pow2_bits_low, Z.lnot_spec by lia.
    destruct (Z.lt_ge_cases i m).
    + rewrite Z.ones_spec_low, (Z.testbit_neg_r _ (i - m)) by lia. apply andb_false_r.
    + rewrite Z.ones_spec_high, Z.shiftr_spec, andb_true_r by lia. f_equal. lia.
  - rewrite (testbit_above 32 x) by lia. rewrite Z.shiftr_spec by lia.
    replace (i - m + m) with i by lia. by rewrite (testbit_above 32 x).
Qed.

(** A vector has the length asked for, rounded up to whole words, unless memory
    runs out. *)
Lemma bitvector_alloc_spec (heap : bool) length : 0 < length < 2 ^ 31 - 31 ->
  let n := 32 * ((length + 31) / 32) in
  if heap then exists v, bitvector_alloc heap length = Some (0, v) /\ vector_ok n v /\
                 forall k, 0 <= k < n -> bit (word v) k = false
  else exists v, bitvector_alloc heap length = Some (-1, v).
Proof.
  intros Hlen n. unfold bitvector_alloc.
  replace (length + 32 - 1) with (length + 31) by lia. rewrite (wrap_small 32 (length + 31)) by lia.
  change (Z.lnot 31) with (Z.lnot (Z.ones 5)). change (Z.lnot 15) with (Z.lnot (Z.ones 4)).
  rewrite (round_up (length + 31) 5) by lia. change (2 ^ 5) with 32. fold n.
  assert (Hn : 32 <= n < 2 ^ 31 /\ n `mod` 32 = 0) by (subst n; lia_mod).
  rewrite (wrap_small 32 (n / 32 * 4 + 15)), (round_up (n / 32 * 4 + 15) 4) by lia_mod. change (2 ^ 4) with 16.
  assert (Hl : 4 <= 16 * ((n / 32 * 4 + 15) / 16) /\ n <= 8 * (16 * ((n / 32 * 4 + 15) / 16))) by lia_mod.
  assert (H4 : 16 * ((n / 32 * 4 + 15) / 16) = 4 * (4 * ((n / 32 * 4 + 15) / 16))) by lia.
  set (l := 16 * ((n / 32 * 4 + 15) / 16)) in *. clearbody l. unfold srtp_crypto_alloc.
  replace (l =? 0) with false by lia. destruct heap; [|by eexists].
  destruct (bitvector_set_to_zero_spec n {| bv_length := n; word := replicate (Z.to_nat (l / 4)) 0 |})
    as (v & -> & Hv & Hb).
  - split; [done|]. cbn. split; [lia|]. split; [lia|]. split; [|apply words_ok_zeros].
    rewrite lenZ_replicate. lia_mod.
  - by exists v.
Qed.

(** ** The specification *)
Record window := { first : Z; size : Z; seen : gset Z }.

Definition window_new (first size : Z) : window := {| first := first; size := size; seen := ∅ |}.

Definition window_check (w : window) (i : Z) : srtp_err_status_t :=
  if first w + size w <=? i then srtp_err_status_ok
  else if i <? first w then srtp_err_status_replay_old
  else if bool_decide (i ∈ seen w) then srtp_err_status_replay_fail
  else srtp_err_status_ok.

Definition window_add (w : window) (i : Z) : window :=
  {| first := Z.max (first w) (i - size w + 1); size := size w; seen := {[i]} ∪ seen w |}.

(** [bits] are the indices of the window that were seen; none lies behind it. *)
Record shows (n : Z) (bits : Z -> bool) (w : window) : Prop := {
  shows_size : size w = n;
  shows_bits : forall k, 0 <= k < n -> bits k = bool_decide (first w + k ∈ seen w);
  shows_top : forall i, i ∈ seen w -> i < first w + n
}.

Lemma bool_decide_add i j (s : gset Z) :
  bool_decide (j ∈ {[i]} ∪ s) = (j =? i) || bool_decide (j ∈ s).
Proof.
  destruct (j =? i) eqn:E; zify_bool; cbn [orb]; [apply bool_decide_eq_true; set_solver|].
  apply bool_decide_ext. set_solver.
Qed.

Lemma shows_new n b first : (forall k, 0 <= k < n -> b k = false) -> shows n b (window_new first n).
Proof. intros Hb. split; [done | | set_solver]. intros k Hk. by rewrite Hb. Qed.

(** A window seen from a later position: its old bits are gone. *)
Lemma shows_move n b b' w i :
  shows n b w -> first w + n <= i ->
  (forall k, 0 <= k < n -> b' k = (k =? n - 1) || (k + (i - (first w + n - 1)) <? n) && b (k + (i - (first w + n - 1)))) ->
  shows n b' (window_add w i).
Proof.
  intros [Hs Hb Ht] Hi Hb'. rewrite <- Hs in *. split; cbn; [done | |].
  - intros k Hk. rewrite Hb', Z.max_r by lia. rewrite bool_decide_add. f_equal; [lia|].
    destruct (_ <? size w) eqn:E; zify_bool; cbn [andb].
    + rewrite Hb by lia. apply bool_decide_ext. by replace (i - size w + 1 + k) with (first w + (k + (i - (first w + size w - 1)))) by lia.
    + symmetry. apply bool_decide_eq_false. intros Hin%Ht. lia.
  - intros j [->%elem_of_singleton|Hj%Ht]%elem_of_union; lia.
Qed.

Lemma shows_set n b b' w i :
  shows n b w -> first w <= i < first w + n ->
  (forall k, 0 <= k < n -> b' k = (k =? i - first w) || b k) -> shows n b' (window_add w i).
Proof.
  intros [Hs Hb Ht] Hi Hb'. rewrite <- Hs in *. split; cbn; [done | |].
  - intros k Hk. rewrite Hb', Hb, bool_decide_add, Z.max_l by lia. f_equal. lia.
  - intros j [->%elem_of_singleton|Hj%Ht]%elem_of_union; lia.
Qed.

(** What the window accepts is new, and not too old. *)
Lemma window_check_new n b w i : shows n b w -> 0 <= n ->
  window_check w i = srtp_err_status_ok -> i ∉ seen w /\ first w <= i.
Proof.
  intros [Hs _ Ht] Hn. unfold window_check. repeat case_test; try done; zify_bool; intros _.
  - split; [intros Hin%Ht|]; lia.
  - by apply bool_decide_eq_false in E1.
Qed.

Lemma window_check_seen w i : window_check w i = srtp_err_status_replay_fail -> i ∈ seen w /\ first w <= i.
Proof.
  unfold window_check. repeat case_test; try done; zify_bool; intros _. split; [by apply bool_decide_eq_true in E1|lia].
Qed.

(** The bit test of both databases. *)
Lemma bit_verdict n b w i : shows n b w -> first w <= i < first w + n ->
  (if Z.b2z (b (i - first w)) =? 1 then Some srtp_err_status_replay_fail else Some srtp_err_status_ok) =
  Some (window_check w i).
Proof.
  intros [Hs Hb Ht] Hi. unfold window_check. rewrite Hs, Hb by lia.
  replace (first w + n <=? i) with false by lia. replace (i <? first w) with false by lia.
  replace (first w + (i - first w)) with i by lia. by destruct (bool_decide _).
Qed.

(** ** The database of SRTCP *)
Record rdb_shows (rdb : srtp_rdb_t) (w : window) : Prop := {
  rdb_start : window_start rdb = first w;
  rdb_range : 0 <= first w <= 2 ^ 31 - 128;
  rdb_words : words_ok (bitmask rdb);
  rdb_len : lenZ (bitmask rdb) = 4;
  rdb_bits : shows 128 (bit (bitmask rdb)) w
}.

Lemma rdb_check_window rdb w i : rdb_shows rdb w -> 0 <= i < 2 ^ 31 ->
  srtp_rdb_check rdb i = Some (window_check w i).
Proof.
  intros [Hs Hr Hw Hl Hb] Hi. unfold srtp_rdb_check. rewrite Hs.
  rewrite (wrap_small 32) by (unfold rdb_bits_in_bitmask; lia). change rdb_bits_in_bitmask with 128.
  pose proof (shows_size _ _ _ Hb) as Hsize. unfold window_check. rewrite Hsize.
  case_test; [done|]. case_test; [done|]. zify_bool.
  rewrite (wrap_small 32), get_bit_spec by lia. rewrite (bit_verdict 128 _ w i) by (done || lia).
  unfold window_check. rewrite Hsize. by replace (first w + 128 <=? i) with false by lia;
    replace (i <? first w) with false by lia.
Qed.

Lemma rdb_add_window rdb w i : rdb_shows rdb w -> first w <= i < 2 ^ 31 ->
  exists rdb', srtp_rdb_add_index rdb i = Some (srtp_err_status_ok, rdb') /\ rdb_shows rdb' (window_add w i).
Proof.
  intros [Hs Hr Hw Hl Hb] Hi. pose proof (shows_size _ _ _ Hb) as Hsize.
  unfold srtp_rdb_add_index. rewrite Hs. replace (i <? first w) with false by lia.
  rewrite (wrap_small 32 (i - first w)) by lia. change rdb_bits_in_bitmask with 128. case_test; zify_bool.
  - destruct (set_bit_spec (bitmask rdb) (i - first w)) as (m & -> & Hl' & Hw' & Hm); [done | lia |].
    eexists. split; [done|]. split; cbn; try done; try lia.
    apply (shows_set _ _ _ _ _ Hb); [lia|]. intros k Hk. apply Hm. lia.
  - set (delta := i - first w - (128 - 1)). rewrite (wrap_small 32 delta) by (subst delta; lia).
    assert (Es : s32 delta = delta).
    { unfold s32. rewrite wrap_small by (subst delta; lia). case_test; zify_bool; subst delta; lia. }
    rewrite Es. destruct (v128_left_shift_spec (bitmask rdb) delta Hw Hl) as (m & -> & Hlm & Hwm & Hm); [subst delta; lia|].
    destruct (set_bit_spec m (128 - 1) Hwm) as (m' & -> & Hlm' & Hwm' & Hm'); [lia|].
    eexists. split; [done|]. split; cbn; try done; try (rewrite (wrap_small 32) by (subst delta; lia)); try (subst delta; lia).
    apply (shows_move _ _ _ _ _ Hb); [lia|]. intros k Hk. rewrite Hm', Hm by lia.
    by replace (i - (first w + 128 - 1)) with delta by (subst delta; lia).
Qed.

Lemma rdb_add_old rdb w i : rdb_shows rdb w -> i < first w ->
  srtp_rdb_add_index rdb i = Some (srtp_err_status_replay_fail, rdb).
Proof. intros [Hs _ _ _ _] Hi. unfold srtp_rdb_add_index. rewrite Hs. by replace (i <? first w) with true by lia. Qed.

Lemma rdb_init_window : rdb_shows srtp_rdb_init (window_new 0 128).
Proof.
  split; cbn; try done; try lia; [apply (words_ok_zeros 4)|].
  apply shows_new. intros k Hk. apply (bit_zeros 4).
Qed.

(** The SRTCP replay database is a sliding window of 128 indices: it starts
    out empty, checking an index gives the verdict of the window, and adding
    one adds it, unless it is older than the window, when nothing changes. *)
Theorem srtp_rdb_implements_window :
  rdb_shows srtp_rdb_init (window_new 0 128) /\
  forall rdb w i, rdb_shows rdb w -> 0 <= i < 2 ^ 31 ->
    srtp_rdb_check rdb i = Some (window_check w i) /\
    if i <? first w then srtp_rdb_add_index rdb i = Some (srtp_err_status_replay_fail, rdb)
    else exists rdb', srtp_rdb_add_index rdb i = Some (srtp_err_status_ok, rdb') /\
           rdb_shows rdb' (window_add w i).
Proof.
  split; [exact rdb_init_window|]. intros rdb w i Hrdb Hi. split; [by apply rdb_check_window|].
  case_test; zify_bool; [by apply (rdb_add_old _ w) | apply rdb_add_window; [done | lia]].
Qed.

(** ** The database of SRTP *)
Record rdbx_shows (n : Z) (rdbx : srtp_rdbx_t) (w : window) : Prop := {
  rdbx_index : first w = index rdbx - n + 1;
  rdbx_range : 0 <= index rdbx < 2 ^ 63;
  rdbx_vector : vector_ok n (bitmaskx rdbx);
  rdbx_bits : shows n (bit (word (bitmaskx rdbx))) w
}.

Lemma s32_id z : - 2 ^ 31 <= z < 2 ^ 31 -> s32 z = z.
Proof. intros Hz. unfold s32, wrap. case_test; zify_bool; lia_mod. Qed.

Lemma rdbx_check_window n rdbx w delta : rdbx_shows n rdbx w ->
  srtp_rdbx_check rdbx delta = Some (window_check w (index rdbx + delta)).
Proof.
  intros [Hi Hr Hv Hb]. pose proof Hv as (Hl & Hn & _). pose proof (shows_size _ _ _ Hb) as Hsize.
  unfold srtp_rdbx_check. rewrite Hl, (wrap_small 32), s32_id by lia.
  destruct (0 <? delta) eqn:E1; zify_bool.
  { unfold window_check. rewrite Hsize. by replace (first w + n <=? index rdbx + delta) with true by lia. }
  destruct (n - 1 + delta <? 0) eqn:E2; zify_bool.
  { unfold window_check. rewrite Hsize. replace (first w + n <=? index rdbx + delta) with false by lia.
    by replace (index rdbx + delta <? first w) with true by lia. }
  rewrite (vector_get_bit_spec n) by (done || lia).
  replace (n - 1 + delta) with (index rdbx + delta - first w) by lia.
  apply (bit_verdict n (bit (word (bitmaskx rdbx)))); [done | lia].
Qed.

Lemma rdbx_add_window n rdbx w delta : rdbx_shows n rdbx w ->
  first w <= index rdbx + delta < 2 ^ 63 -> delta < 2 ^ 16 ->
  exists rdbx', srtp_rdbx_add_index rdbx delta = Some rdbx' /\
    rdbx_shows n rdbx' (window_add w (index rdbx + delta)) /\
    index rdbx' = Z.max (index rdbx) (index rdbx + delta).
Proof.
  intros [Hi Hr Hv Hb] Hd Hd16. pose proof Hv as (Hl & Hn & _). pose proof (shows_size _ _ _ Hb) as Hsize.
  unfold srtp_rdbx_add_index. case_test; zify_bool.
  - destruct (bitvector_left_shift_spec n (bitmaskx rdbx) delta Hv) as (v & Ev & Hv' & Hm); [lia|]. cbn. rewrite Ev.
    assert (Hlv : bv_length v = n) by apply Hv'. rewrite Hlv, (wrap_small 32) by lia.
    destruct (vector_set_bit_spec n v (n - 1) Hv') as (x & Ex & Hx & Hmx); [lia|]. rewrite Ex.
    simpl in Hx. rewrite Hlv in Hx.
    unfold srtp_index_advance. rewrite (wrap_small 16), (wrap_small 64) by lia.
    eexists. split; [done|]. split; [|cbn; lia]. split; [cbn; lia | cbn; lia | exact Hx |].
    apply (shows_move _ _ _ _ _ Hb); [lia|]. intros k Hk. rewrite Hmx, Hm by lia.
    by replace (index rdbx + delta - (first w + n - 1)) with delta by lia.
  - rewrite Hl, (wrap_small 32) by lia.
    destruct (vector_set_bit_spec n (bitmaskx rdbx) (n - 1 + delta) Hv) as (x & -> & Hx & Hmx); [lia|].
    eexists. split; [done|]. split; [|cbn; lia]. split; [cbn; lia | cbn; lia | exact Hx |].
    apply (shows_set _ _ _ _ _ Hb); [lia|]. intros k Hk. rewrite Hmx by lia. f_equal. lia.
Qed.

(** The length of a window asked for with [ws]. *)
Definition window_length (ws : Z) : Z := 32 * ((ws + 31) / 32).

Lemma rdbx_init_window ws : 0 < ws < 2 ^ 31 - 31 ->
  exists rdbx, srtp_rdbx_init true ws = Some (inr rdbx) /\ index rdbx = 0 /\
    rdbx_shows (window_length ws) rdbx (window_new (1 - window_length ws) (window_length ws)).
Proof.
  intros Hws. unfold srtp_rdbx_init. replace (ws =? 0) with false by lia.
  destruct (bitvector_alloc_spec true ws Hws) as (v & -> & Hv & Hb). cbn.
  eexists. split; [done|]. split; [done|]. split; cbn; [unfold srtp_index_init; lia | done | done |].
  by apply shows_new.
Qed.

(** C31: The SRTP replay database is a sliding window that ends at the highest
    index received: a new one is empty and has the window size asked for,
    rounded up to whole words; checking the index at a distance gives the
    verdict of the window, and adding one that is not too old adds it. *)
Theorem srtp_rdbx_implements_window :
  (forall ws, 0 < ws < 2 ^ 31 - 31 ->
     exists rdbx, srtp_rdbx_init true ws = Some (inr rdbx) /\ index rdbx = 0 /\
       rdbx_shows (window_length ws) rdbx (window_new (1 - window_length ws) (window_length ws))) /\
  forall n rdbx w delta, rdbx_shows n rdbx w ->
    srtp_rdbx_check rdbx delta = Some (window_check w (index rdbx + delta)) /\
    (first w <= index rdbx + delta < 2 ^ 63 -> delta < 2 ^ 16 ->
     exists rdbx', srtp_rdbx_add_index rdbx delta = Some rdbx' /\
       rdbx_shows n rdbx' (window_add w (index rdbx + delta)) /\
       index rdbx' = Z.max (index rdbx) (index rdbx + delta)).
Proof.
  split; [exact rdbx_init_window|]. intros n rdbx w delta Hr.
  split; [by apply (rdbx_check_window n) | by apply rdbx_add_window].
Qed.
