(* ===== verification/SrtpCorrect.v ===== *)
(** * SRTP streams: the use of packet indices

    The estimate of a packet index by srtp.c and rdbx.c; runs of the operations
    that use an index on one stream; what a receiver in step with the sender
    makes of a packet. *)

From stdpp Require Import list gmap.
From S2P Require Import Prelude SrtpReplay SrtpWindow.
#[local] Open Scope Z_scope.

Lemma shiftr16 z : Z.shiftr z 16 = z / 65536.
Proof. by rewrite Z.shiftr_div_pow2 by lia. Qed.

(** A rollover counter and a sequence number make an index. *)
Lemma index_of_parts roc seq : 0 <= roc < 2 ^ 32 -> 0 <= seq < 65536 ->
  Z.lor (u64 (Z.shiftl roc 16)) seq = roc * 65536 + seq.
Proof.
  intros Hr Hs. rewrite wrap_small; [|rewrite Z.shiftl_mul_pow2 by lia; lia].
  rewrite lor_shiftl_add; lia.
Qed.

Section Guess.
Variables local s : Z.
Hypothesis Hlocal : 0 <= local < 2 ^ 63.
Hypothesis Hs : 0 <= s < 65536.

(** The guess has the sequence number of the packet, and is as close to the
    local index as such an index can be. *)
Lemma srtp_index_guess_spec guess d : srtp_index_guess local s = (guess, d) ->
  guess = (local + d) `mod` 2 ^ 48 /\ - 2 ^ 15 <= d <= 2 ^ 15 /\ (local + d) `mod` 65536 = s.
Proof.
  unfold srtp_index_guess. rewrite shiftr16.
  change seq_num_median with 32768. change seq_num_max with 65536.
  assert (Hq : 0 <= u16 local < 65536) by (apply (wrap_range 16); lia).
  assert (Eq : u16 local = local `mod` 65536) by done.
  assert (Hroc : forall z, 0 <= u32 z < 2 ^ 32) by (intros z; apply wrap_range; lia).
  assert (Eroc : forall z, u32 z = z `mod` 2 ^ 32) by done.
  repeat case_test; zify_bool; intros [= <- <-]; rewrite index_of_parts by done;
    rewrite !Eroc; repeat split; lia_mod.
Qed.

End Guess.

(** The estimate of a database whose index is not near zero is the guess; near
    zero the rollover counter is zero. *)
Lemma srtp_rdbx_estimate_spec rdbx s est d : 0 <= index rdbx < 2 ^ 63 -> 0 <= s < 65536 ->
  srtp_rdbx_estimate_index rdbx s = (est, d) ->
  est = (index rdbx + d) `mod` 2 ^ 48 /\ - 2 ^ 15 <= d < 2 ^ 16 /\ 0 <= index rdbx + d.
Proof.
  intros Hi Hs. unfold srtp_rdbx_estimate_index. change seq_num_median with 32768.
  case_test; zify_bool; intros He.
  - apply srtp_index_guess_spec in He as (He & Hd & Hm); [|done..]. split; [done|]. split; lia.
  - injection He as <- <-. rewrite (wrap_small 16) by lia. repeat split; try lia. rewrite Z.mod_small; lia.
Qed.

(** The estimate of a packet whose index is less than 2^15 away is its index. *)
Lemma srtp_rdbx_estimate_near rdbx i : 0 <= index rdbx < 2 ^ 48 -> 0 <= i < 2 ^ 48 ->
  Z.abs (i - index rdbx) < 2 ^ 15 ->
  srtp_rdbx_estimate_index rdbx (i `mod` 65536) = (i, i - index rdbx).
Proof.
  intros Hx Hi Hnear. unfold srtp_rdbx_estimate_index. change seq_num_median with 32768.
  case_test; zify_bool.
  - destruct (srtp_index_guess (index rdbx) (i `mod` 65536)) as [guess d] eqn:Eg.
    apply srtp_index_guess_spec in Eg as (Eg & Hd & Hm); [|lia|lia_mod].
    assert (d = i - index rdbx) as -> by lia_mod.
    f_equal. rewrite Eg, Z.mod_small; lia.
  - rewrite (wrap_small 16) by lia. rewrite (Z.mod_small i) by lia. done.
Qed.

Lemma s32_u64 z : s32 (u64 z) = s32 z.
Proof.
  unfold s32. replace (u32 (u64 z)) with (u32 z); [done|]. unfold wrap. lia_mod.
Qed.

(** ** Streams *)
Record stream_shows (st : srtp_stream_ctx_t) (w : window) : Prop := {
  stream_size : 0 < size w <= 2 ^ 15;
  stream_rdbx : rdbx_shows (size w) (rtp_rdbx st) w;
  stream_roc : 0 <= pending_roc st < 2 ^ 32
}.

(** Where a packet is placed: at a distance from the local index, or at an index
    too far ahead for a shift, or not at all. *)
Inductive placed (st : srtp_stream_ctx_t) : srtp_err_status_t -> Z -> Z -> Prop :=
| placed_at est d :
    est = (index (rtp_rdbx st) + d) `mod` 2 ^ 48 -> - 2 ^ 15 <= d < 2 ^ 16 -> 0 <= index (rtp_rdbx st) + d ->
    placed st srtp_err_status_ok est d
| placed_ahead est d :
    0 <= est < 2 ^ 48 -> index (rtp_rdbx st) + 2 ^ 15 < est -> placed st srtp_err_status_pkt_idx_adv est d
| placed_old est d : placed st srtp_err_status_pkt_idx_old est d.

Lemma srtp_get_est_pkt_index_spec st w seq status est d : stream_shows st w -> 0 <= seq < 65536 ->
  srtp_get_est_pkt_index seq st = (status, (est, d)) -> placed st status est d.
Proof.
  intros [Hn Hr Hp] Hs. pose proof (rdbx_range _ _ _ Hr) as Hi. unfold srtp_get_est_pkt_index.
  case_test; zify_bool.
  - unfold srtp_estimate_index. rewrite index_of_parts by done. change seq_num_median with 32768.
    set (e := pending_roc st * 65536 + seq). assert (He : 0 <= e < 2 ^ 48) by (subst e; lia). clearbody e.
    rewrite s32_u64. set (i := index (rtp_rdbx st)) in *.
    destruct (i <? e) eqn:E1; zify_bool; [|destruct (e <? i) eqn:E2; zify_bool].
    + rewrite (wrap_small 64) by lia. case_test; zify_bool; intros [= <- <- <-]; [apply placed_ahead; fold i; lia|].
      rewrite s32_id by lia. constructor; fold i; [rewrite Z.mod_small|..]; lia.
    + rewrite (wrap_small 64) by lia. case_test; zify_bool; intros [= <- <- <-]; [by constructor|].
      rewrite s32_id by lia. constructor; fold i; [rewrite Z.mod_small|..]; lia.
    + intros [= <- <- <-]. rewrite s32_id by lia. constructor; fold i; [rewrite Z.mod_small|..]; lia.
  - intros [= <- He]. apply srtp_rdbx_estimate_spec in He as (He & Hd & H0); [|done..]. by constructor.
Qed.

Lemma is_status_true s t : is_status s t = true <-> t = s.
Proof. apply bool_decide_eq_true. Qed.

(** The statuses of an estimate. *)
Lemma is_ok_ok : is_status srtp_err_status_ok srtp_err_status_ok = true.
Proof. reflexivity. Qed.
Lemma is_ok_adv : is_status srtp_err_status_ok srtp_err_status_pkt_idx_adv = false.
Proof. reflexivity. Qed.
Lemma is_ok_old : is_status srtp_err_status_ok srtp_err_status_pkt_idx_old = false.
Proof. reflexivity. Qed.
Lemma is_adv_ok : is_status srtp_err_status_pkt_idx_adv srtp_err_status_ok = false.
Proof. reflexivity. Qed.
Lemma is_adv_adv : is_status srtp_err_status_pkt_idx_adv srtp_err_status_pkt_idx_adv = true.
Proof. reflexivity. Qed.
Lemma is_adv_old : is_status srtp_err_status_pkt_idx_adv srtp_err_status_pkt_idx_old = false.
Proof. reflexivity. Qed.

Create Rewrite HintDb status.
#[export] Hint Rewrite is_ok_ok is_ok_adv is_ok_old is_adv_ok is_adv_adv is_adv_old : status.
Ltac status := autorewrite with status; cbn [negb andb orb obind].

#[local] Arguments add_index : simpl never.
#[local] Arguments advance_index : simpl never.
#[local] Arguments srtp_rdbx_check : simpl never.
#[local] Arguments srtp_rdbx_add_index : simpl never.

(** ** The two ways to record an index *)
Lemma add_index_shows st w d : stream_shows st w ->
  first w <= index (rtp_rdbx st) + d < 2 ^ 63 -> d < 2 ^ 16 ->
  exists st', add_index st d = Some st' /\ stream_shows st' (window_add w (index (rtp_rdbx st) + d)) /\
    index (rtp_rdbx st') = Z.max (index (rtp_rdbx st)) (index (rtp_rdbx st) + d) /\
    allow_repeat_tx st' = allow_repeat_tx st /\ pending_roc st' = pending_roc st.
Proof.
  intros [Hn Hr Hp] Hd Hd16. destruct (rdbx_add_window _ _ _ d Hr Hd Hd16) as (r & Er & Hr' & Hi).
  unfold add_index. rewrite Er. eexists. split; [done|]. split; [by split|]. done.
Qed.

(** Moving the window so far that no index it has seen is left in it. *)
Lemma rdbx_set_roc_seq_window n rdbx w est : rdbx_shows n rdbx w -> n <= 2 ^ 15 ->
  index rdbx + 2 ^ 15 < est < 2 ^ 48 ->
  exists rdbx', srtp_rdbx_set_roc_seq rdbx (u32 (Z.shiftr est 16)) (u16 (Z.land est 0xffff)) =
      Some (srtp_err_status_ok, rdbx') /\ index rdbx' = est /\
    rdbx_shows n rdbx' {| first := est - n + 1; size := n; seen := seen w |}.
Proof.
  intros [Hi Hr Hv [Hs Hb Ht]] Hn He. unfold srtp_rdbx_set_roc_seq.
  rewrite !shiftr16, land_65535, (wrap_small 32), (wrap_small 16) by lia_mod.
  replace (est / 65536 <? index rdbx / 65536) with false by lia_mod.
  destruct (bitvector_set_to_zero_spec n (bitmaskx rdbx) Hv) as (v & Ev & Hv' & Hz). cbn. rewrite Ev.
  assert (Ei : Z.lor (est `mod` 65536) (u64 (Z.shiftl (est / 65536) 16)) = est).
  { rewrite Z.lor_comm, index_of_parts by lia_mod. lia_mod. }
  eexists. split; [done|]. cbn. split; [exact Ei|]. split; cbn; [rewrite Ei; lia | rewrite Ei; lia | done |].
  split; cbn; [done | |].
  - intros k Hk. rewrite Hz by done. symmetry. apply bool_decide_eq_false. intros Hin%Ht. lia.
  - intros i Hin%Ht. lia.
Qed.

Lemma advance_index_shows st w est : stream_shows st w ->
  index (rtp_rdbx st) + 2 ^ 15 < est < 2 ^ 48 ->
  exists st', advance_index st (u32 (Z.shiftr est 16)) (u16 (Z.land est 0xffff)) = Some st' /\
    stream_shows st' (window_add w est) /\ index (rtp_rdbx st') = est /\
    allow_repeat_tx st' = allow_repeat_tx st.
Proof.
  intros [Hn Hr Hp] He. pose proof (rdbx_range _ _ _ Hr) as Hi0.
  destruct (rdbx_set_roc_seq_window _ _ _ est Hr) as (r & Er & Ei & Hr'); [lia..|].
  unfold advance_index. rewrite Er. cbn.
  destruct (rdbx_add_window _ _ _ 0 Hr') as (r' & Er' & Hr'' & Ei'); [cbn; lia..|].
  rewrite Er'. eexists. split; [done|]. rewrite Ei, Z.add_0_r in Hr''. rewrite Ei in Ei'.
  assert (Ew : window_add {| first := est - size w + 1; size := size w; seen := seen w |} est = window_add w est).
  { unfold window_add. cbn. f_equal. pose proof (rdbx_index _ _ _ Hr). lia. }
  rewrite Ew in Hr''. split; [|cbn; split; [lia | done]]. split; cbn; [done | exact Hr'' | lia].
Qed.

(** ** One use of an index

    The index a packet is given is the one recorded in the window, up to the 48
    bits of an index; it is not behind the window, and it is new unless it may be
    used again. *)
Definition took (again : bool) (st : srtp_stream_ctx_t) (w : window) (est : Z) (st' : srtp_stream_ctx_t) : Prop :=
  exists i, est = i `mod` 2 ^ 48 /\ 0 <= i /\ (i < 2 ^ 48 \/ i <= index (rtp_rdbx st) + 2 ^ 16) /\
    (i ∈ seen w -> again = true) /\ stream_shows st' (window_add w i) /\
    index (rtp_rdbx st') = Z.max (index (rtp_rdbx st)) i /\ allow_repeat_tx st' = allow_repeat_tx st.

Lemma stream_check st w d : stream_shows st w ->
  srtp_rdbx_check (rtp_rdbx st) d = Some (window_check w (index (rtp_rdbx st) + d)).
Proof. intros [Hn Hr Hp]. by apply (rdbx_check_window (size w)). Qed.

Lemma took_at again st w est d : stream_shows st w -> index (rtp_rdbx st) < 2 ^ 62 ->
  placed st srtp_err_status_ok est d ->
  window_check w (index (rtp_rdbx st) + d) = srtp_err_status_ok \/
    window_check w (index (rtp_rdbx st) + d) = srtp_err_status_replay_fail /\ again = true ->
  exists st', add_index st d = Some st' /\ took again st w est st'.
Proof.
  intros Hst Hb Hpl Hc. pose proof Hst as [Hn Hr Hp].
  assert ((index (rtp_rdbx st) + d ∈ seen w -> again = true) /\ first w <= index (rtp_rdbx st) + d) as [Hnew Hf].
  { destruct Hc as [Hc|[Hc Ha]]; [|split; [done|by apply window_check_seen]].
    by destruct (window_check_new _ _ _ _ (rdbx_bits _ _ _ Hr) ltac:(lia) Hc). }
  inversion Hpl as [? ? He Hd H0| |]; subst.
  destruct (add_index_shows st w d Hst) as (st' & -> & Hst' & Hi & Ha & _); [lia..|].
  exists st'. split; [done|]. exists (index (rtp_rdbx st) + d). repeat split; try done; try apply Hst'. lia.
Qed.

Lemma took_ahead again st w est d : stream_shows st w -> placed st srtp_err_status_pkt_idx_adv est d ->
  exists st', advance_index st (u32 (Z.shiftr est 16)) (u16 (Z.land est 0xffff)) = Some st' /\
    took again st w est st'.
Proof.
  intros Hst Hpl. pose proof Hst as [Hn Hr Hp]. inversion Hpl as [|? ? He Hd|]; subst.
  destruct (advance_index_shows st w est Hst) as (st' & -> & Hst' & Hi & Ha); [lia|].
  exists st'. split; [done|]. exists est. pose proof (rdbx_range _ _ _ Hr). pose proof (rdbx_index _ _ _ Hr).
  rewrite Z.mod_small by lia. repeat split; try done; try apply Hst'; [lia..| |lia].
  intros Hin%(shows_top _ _ _ (rdbx_bits _ _ _ Hr)). lia.
Qed.

Lemma srtp_protect_spec st w seq : stream_shows st w -> index (rtp_rdbx st) < 2 ^ 62 -> 0 <= seq < 65536 ->
  match srtp_protect_index st seq with
  | UB => False
  | Return _ => True
  | Next (est, st') => took (allow_repeat_tx st) st w est st'
  end.
Proof.
  intros Hst Hb Hs. unfold srtp_protect_index.
  destruct (srtp_get_est_pkt_index seq st) as [status [est d]] eqn:Ee.
  pose proof (srtp_get_est_pkt_index_spec st w seq status est d Hst Hs Ee) as Hpl.
  destruct Hpl as [est d| est d|]; status; [| |done].
  - rewrite (stream_check st w) by done. cbn [acc obind]. set (c := window_check w _).
    destruct (negb (is_status srtp_err_status_ok c) && _) eqn:Ec; [done|].
    destruct (took_at (allow_repeat_tx st) st w est d) as (st' & -> & Ht); [done | done | by constructor | | exact Ht].
    fold c. apply andb_false_iff in Ec as [Ec|Ec]; [left; by apply negb_false_iff, is_status_true in Ec|right].
    apply orb_false_iff in Ec as [Ec Ea]. apply negb_false_iff in Ec, Ea. by apply is_status_true in Ec.
  - destruct (took_ahead (allow_repeat_tx st) st w est d) as (st' & -> & Ht); [done | by constructor | exact Ht].
Qed.

Lemma srtp_unprotect_spec st w seq authentic : stream_shows st w -> index (rtp_rdbx st) < 2 ^ 62 ->
  0 <= seq < 65536 ->
  match srtp_unprotect_index st seq authentic with
  | UB => False
  | Return _ => True
  | Next (est, st') => took false st w est st'
  end.
Proof.
  intros Hst Hb Hs. unfold srtp_unprotect_index, srtp_unprotect_check.
  destruct (srtp_get_est_pkt_index seq st) as [status [est d]] eqn:Ee.
  pose proof (srtp_get_est_pkt_index_spec st w seq status est d Hst Hs Ee) as Hpl.
  destruct Hpl as [est d| est d|]; status; [| |done].
  - rewrite (stream_check st w) by done. cbn [acc obind].
    destruct (is_status srtp_err_status_ok (window_check w _)) eqn:Ec; cbn [negb andb obind]; [|done].
    apply is_status_true in Ec. case_test; [done|]. unfold srtp_unprotect_commit.
    destruct (took_at false st w est d) as (st' & -> & Ht); [done | done | by constructor | by left | exact Ht].
  - case_test; [done|]. unfold srtp_unprotect_commit.
    destruct (took_ahead false st w est d) as (st' & -> & Ht); [done | by constructor | exact Ht].
Qed.

(** ** Runs *)
Inductive stream_op :=
| Protect (seq : Z)
| Unprotect (seq : Z) (authentic : Z -> srtp_err_status_t)
| SetRoc (roc : Z).

Definition op_ok (op : stream_op) : Prop :=
  match op with
  | Protect seq | Unprotect seq _ => 0 <= seq < 65536
  | SetRoc roc => 0 <= roc < 2 ^ 32
  end.

(** A packet is sent or accepted under an index. *)
Inductive index_use := Sent (i : Z) | Accepted (i : Z).
Definition use_index (u : index_use) : Z := match u with Sent i | Accepted i => i end.

(** The index the operation uses, if it uses one, and the stream it leaves. *)
Definition stream_step (st : srtp_stream_ctx_t) (op : stream_op) : option (option index_use * srtp_stream_ctx_t) :=
  let finish (use : Z -> index_use) (m : outcome srtp_err_status_t (Z * srtp_stream_ctx_t)) :=
    match m with
    | UB => None
    | Return _ => Some (None, st)
    | Next (est, st') => Some (Some (use est), st')
    end in
  match op with
  | Protect seq => finish Sent (srtp_protect_index st seq)
  | Unprotect seq authentic => finish Accepted (srtp_unprotect_index st seq authentic)
  | SetRoc roc => Some (None, srtp_set_stream_roc st roc)
  end.

Fixpoint stream_run (st : srtp_stream_ctx_t) (ops : list stream_op)
  : option (list index_use * srtp_stream_ctx_t) :=
  match ops with
  | [] => Some ([], st)
  | op :: ops' =>
      let? (r, st') := stream_step st op in
      let? (used, st'') := stream_run st' ops' in
      Some (option_list r ++ used, st'')
  end.

(** Only what is sent may use an index again, and only when that is allowed. *)
Definition may_repeat (repeats : bool) (u : index_use) : bool :=
  match u with Sent _ => repeats | Accepted _ => false end.

Lemma stream_step_spec st w op : stream_shows st w -> index (rtp_rdbx st) < 2 ^ 62 -> op_ok op ->
  exists r st', stream_step st op = Some (r, st') /\
    match r with
    | None => stream_shows st' w /\ index (rtp_rdbx st') = index (rtp_rdbx st) /\
              allow_repeat_tx st' = allow_repeat_tx st
    | Some u => took (may_repeat (allow_repeat_tx st) u) st w (use_index u) st'
    end.
Proof.
  intros Hst Hb Hop. destruct op as [seq|seq authentic|roc]; cbn [stream_step].
  - pose proof (srtp_protect_spec st w seq Hst Hb Hop) as Hspec.
    destruct (srtp_protect_index st seq) as [|e|[est st']]; [done | by exists None, st | by exists (Some (Sent est)), st'].
  - pose proof (srtp_unprotect_spec st w seq authentic Hst Hb Hop) as Hspec.
    destruct (srtp_unprotect_index st seq authentic) as [|e|[est st']]; [done | by exists None, st | by exists (Some (Accepted est)), st'].
  - exists None, (srtp_set_stream_roc st roc). split; [done|]. split; [|done].
    destruct Hst as [Hn Hr Hp]. split; [done | exact Hr | exact Hop].
Qed.

(** Uses of indices after those of [s]. *)
Inductive uses_ok (repeats : bool) : gset Z -> list index_use -> Prop :=
| uses_nil s : uses_ok repeats s []
| uses_cons s u l : (use_index u ∈ s -> may_repeat repeats u = true) -> uses_ok repeats ({[use_index u]} ∪ s) l ->
    uses_ok repeats s (u :: l).

Lemma uses_ok_split repeats s before u after : uses_ok repeats s (before ++ u :: after) ->
  use_index u ∈ s \/ use_index u ∈ use_index <$> before -> may_repeat repeats u = true.
Proof.
  revert s. induction before as [|v before IH]; intros s Hl Hu; inversion_clear Hl as [|? ? ? Hv Hl'].
  - destruct Hu as [Hu|Hu%elem_of_nil]; [auto|done].
  - apply (IH _ Hl'). rewrite fmap_cons, elem_of_cons in Hu. set_solver.
Qed.

(** The uses of a run, as long as the index has 48 bits; [k] bounds the
    operations made before. *)
Lemma stream_run_spec ops : forall st w k, stream_shows st w ->
  Forall op_ok ops -> 0 <= k -> k + lenZ ops < 2 ^ 32 -> index (rtp_rdbx st) < 2 ^ 48 + k * 2 ^ 16 ->
  exists used st', stream_run st ops = Some (used, st') /\ index (rtp_rdbx st) <= index (rtp_rdbx st') /\
    (index (rtp_rdbx st') < 2 ^ 48 -> uses_ok (allow_repeat_tx st) (seen w) used).
Proof.
  induction ops as [|op ops IH]; intros st w k Hst Hok Hk Hlen Hb.
  { exists [], st. split; [done|]. split; [lia|]. intros _. constructor. }
  inversion_clear Hok as [|? ? Hop Hops]. rewrite lenZ_cons in Hlen. pose proof (lenZ_nonneg ops).
  destruct (stream_step_spec st w op Hst) as (r & st1 & E1 & Hr); [lia | done..|]. cbn [stream_run]. rewrite E1.
  destruct r as [u|].
  - destruct Hr as (i & Eu & Hi0 & Hi & Hnew & Hst1 & Hx & Ha1).
    destruct (IH st1 (window_add w i) (k + 1)) as (used & st' & -> & Hmono & Hnd); [done|done|lia..|].
    exists (u :: used), st'. split; [done|]. split; [lia|]. intros Hfin.
    rewrite Z.mod_small in Eu by lia. constructor; [by rewrite Eu|]. rewrite Eu, <- Ha1. by apply Hnd.
  - destruct Hr as (Hst1 & Hx & Ha1).
    destruct (IH st1 w (k + 1)) as (used & st' & -> & Hmono & Hnd); [done|done|lia..|].
    exists used, st'. split; [done|]. split; [lia|]. by rewrite <- Ha1.
Qed.

(** ** The streams of a session *)
Lemma window_length_range ws : 0 < ws <= 2 ^ 15 -> 0 < window_length ws <= 2 ^ 15.
Proof. unfold window_length. lia_mod. Qed.

Lemma window_length_length ws : window_length (window_length ws) = window_length ws.
Proof. unfold window_length. lia_mod. Qed.

(** A new stream: nothing seen, its index zero. *)
Definition fresh (st : srtp_stream_ctx_t) (n : Z) : Prop :=
  stream_shows st (window_new (1 - n) n) /\ index (rtp_rdbx st) = 0 /\ window_length n = n /\
  rtcp_rdb st = srtp_rdb_init.

Lemma rdbx_init_heap heap ws r : srtp_rdbx_init heap ws = Some (inr r) -> 0 < ws < 2 ^ 31 - 31 -> heap = true.
Proof.
  intros Hr Hws. destruct heap; [done|]. unfold srtp_rdbx_init in Hr.
  replace (ws =? 0) with false in Hr by lia.
  destruct (bitvector_alloc_spec false ws Hws) as [v Ev]. by rewrite Ev in Hr.
Qed.

Lemma fresh_stream heap ws r a : 0 < ws <= 2 ^ 15 -> srtp_rdbx_init heap ws = Some (inr r) ->
  fresh {| rtp_rdbx := r; rtcp_rdb := srtp_rdb_init; allow_repeat_tx := a; pending_roc := 0 |} (window_length ws).
Proof.
  intros Hws Hr. pose proof (rdbx_init_heap _ _ _ Hr ltac:(lia)) as ->.
  destruct (rdbx_init_window ws) as (r' & Er & Hi & Hw); [lia|]. rewrite Er in Hr. injection Hr as ->.
  split; [|split; [done | split; [apply window_length_length | done]]].
  split; cbn; [by apply window_length_range | done | lia].
Qed.

Lemma srtp_stream_init_fresh heap ws a st : srtp_stream_init heap ws a = Some (inr st) ->
  (exists n, fresh st n) /\ allow_repeat_tx st = (a =? 1).
Proof.
  unfold srtp_stream_init. destruct (negb (ws =? 0) && _) eqn:Ews; [done|].
  assert (Hws : ws = 0 \/ 64 <= ws < 0x8000).
  { apply andb_false_iff in Ews as [E|E]; [left|right]; zify_bool; lia. }
  set (ws' := if ws =? 0 then 128 else ws).
  replace (if negb (ws =? 0) then srtp_rdbx_init heap ws else srtp_rdbx_init heap 128)
    with (srtp_rdbx_init heap ws') by (subst ws'; by destruct (ws =? 0)).
  assert (Hws' : 0 < ws' <= 2 ^ 15) by (subst ws'; case_test; zify_bool; lia).
  destruct (srtp_rdbx_init heap ws') as [[err|r]|] eqn:Er; [done| |done].
  case_test; [done|]. intros [= <-]. split; [|done].
  exists (window_length ws'). by apply (fresh_stream heap).
Qed.

Lemma srtp_stream_clone_fresh heap template st n w : stream_shows template w -> size w = n ->
  window_length n = n -> srtp_stream_clone heap template = Some (inr st) ->
  fresh st n /\ allow_repeat_tx st = allow_repeat_tx template.
Proof.
  intros [Hn Hr Hp] <- Hl. unfold srtp_stream_clone, srtp_rdbx_get_window_size.
  pose proof (rdbx_vector _ _ _ Hr) as (Hlen & Hrange & Hmod & _). rewrite Hlen.
  destruct (srtp_rdbx_init heap (size w)) as [[err|r]|] eqn:Er; [done| |done].
  intros [= <-]. split; [|done]. rewrite <- Hl at 1. by apply (fresh_stream heap).
Qed.

(** How a stream starts: from the policy; as a copy of such a stream for a
    sender; or as a copy with the first packet that was received. *)
Inductive stream_start : srtp_stream_ctx_t -> list index_use -> Prop :=
| start_init heap ws a st : srtp_stream_init heap ws a = Some (inr st) -> stream_start st []
| start_clone heap heap' ws a template st :
    srtp_stream_init heap ws a = Some (inr template) ->
    srtp_stream_clone heap' template = Some (inr st) -> stream_start st []
| start_received heap heap' ws a template seq authentic est st :
    srtp_stream_init heap ws a = Some (inr template) -> 0 <= seq < 65536 ->
    srtp_unprotect_provisional heap' template seq authentic = Next (est, st) -> stream_start st [Accepted est].

Lemma stream_start_shows st used : stream_start st used ->
  index (rtp_rdbx st) < 2 ^ 16 /\
  exists w, stream_shows st w /\ (used = [] \/ exists i, used = [Accepted i] /\ i ∈ seen w).
Proof.
  destruct 1 as [heap ws a st Hi|heap heap' ws a template st Hi Hc|heap heap' ws a template seq authentic est st Hi Hs Hp].
  - apply srtp_stream_init_fresh in Hi as [[n (Hst & Hx & _)] Ha].
    split; [lia|]. exists (window_new (1 - n) n). split; [done|by left].
  - apply srtp_stream_init_fresh in Hi as [[n (Hst & Hx & Hl & _)] Ha].
    destruct (srtp_stream_clone_fresh heap' template st n _ Hst) as [(Hst' & Hx' & _) Ha']; [done..|].
    split; [lia|]. exists (window_new (1 - n) n). split; [done|by left].
  - apply srtp_stream_init_fresh in Hi as [[n (Hst & Hx & Hl & _)] Ha]. unfold srtp_unprotect_provisional in Hp.
    destruct (negb _); [done|].
    destruct (srtp_stream_clone heap' template) as [[err|st0]|] eqn:Ec; [done| |done]. cbn [acc obind] in Hp.
    destruct (srtp_stream_clone_fresh heap' template st0 n _ Hst) as [(Hst0 & Hx0 & _) Ha0]; [done..|].
    unfold srtp_unprotect_commit in Hp. rewrite s32_id in Hp by lia.
    pose proof (stream_size _ _ Hst0) as Hn. cbn in Hn.
    destruct (add_index_shows st0 _ seq Hst0) as (st' & E & Hst' & Hx' & Ha' & _); [rewrite Hx0; cbn; lia | lia |].
    rewrite E in Hp. cbn in Hp. injection Hp as <- <-. rewrite Hx0 in *. cbn in Hst'.
    split; [lia|]. eexists. split; [exact Hst'|]. right. exists seq. split; [done|]. cbn. set_solver.
Qed.

(** When no use repeats an earlier one, the indices are different. *)
Lemma no_repeats_nodup l : (forall before u after, l = before ++ u :: after -> use_index u ∉ use_index <$> before) ->
  NoDup (use_index <$> l).
Proof.
  induction l as [|u l IH] using rev_ind; intros Hl; [constructor|]. rewrite fmap_app. apply list.NoDup_app. split_and!.
  - apply IH. intros before v after ->. apply (Hl before v (after ++ [u])). by rewrite <- app_assoc.
  - intros i Hi Hu%list_elem_of_singleton. subst i. by apply (Hl l u []).
  - apply list.NoDup_singleton.
Qed.

(** C24: Whatever a peer or an attacker sends and whatever rollover counters the
    application sets, the operations on a stream are defined, and as long as
    its index stays within 48 bits no packet is accepted under an index that was
    used before; nor is one sent under such an index, unless the stream was made to
    allow that packets are sent again ([allow_repeat_tx]).  Without that, all
    indices under which packets were protected or accepted are different. *)
Theorem srtp_no_index_twice st used ops :
  stream_start st used -> Forall op_ok ops -> lenZ ops < 2 ^ 31 ->
  exists used' st', stream_run st ops = Some (used', st') /\
    (index (rtp_rdbx st') < 2 ^ 48 ->
     (forall before u after, used ++ used' = before ++ u :: after -> use_index u ∈ use_index <$> before ->
        allow_repeat_tx st = true /\ u = Sent (use_index u)) /\
     (allow_repeat_tx st = false -> NoDup (use_index <$> used ++ used'))).
Proof.
  intros (Hx & w & Hst & Hused)%stream_start_shows Hok Hlen.
  destruct (stream_run_spec ops st w 0 Hst Hok) as (used' & st' & -> & _ & Hnd); [lia..|].
  exists used', st'. split; [done|]. intros Hfin. specialize (Hnd Hfin).
  assert (Hsplit : forall before u after, used ++ used' = before ++ u :: after -> use_index u ∈ use_index <$> before ->
    allow_repeat_tx st = true /\ u = Sent (use_index u)).
  { intros before u after E Hu. assert (may_repeat (allow_repeat_tx st) u = true) as Hm; [|by destruct u].
    destruct Hused as [->|(i & -> & Hi)]; cbn [app] in E.
    - subst used'. apply (uses_ok_split _ _ _ _ _ Hnd). by right.
    - destruct before as [|v before]; [by apply elem_of_nil in Hu|]. injection E as <- ->.
      apply (uses_ok_split _ _ _ _ _ Hnd). apply elem_of_cons in Hu as [->|Hu]; [by left|by right]. }
  split; [exact Hsplit|]. intros Ha. apply no_repeats_nodup. intros before u after E Hu.
  destruct (Hsplit before u after E Hu) as [Ha' _]. congruence.
Qed.

(** C30: On a stream for which no rollover counter is pending (the application
    has set none since the last one was consumed), with indices within their 48
    bits, a packet whose index is less than 2^15 away from the highest index
    received is recognised under that index: it is refused as replayed exactly
    when the index was used before, as too old when it is behind the window,
    with the error of its authentication when that fails; otherwise it is
    accepted and recorded. *)
Theorem srtp_unprotect_verdict st w i authentic :
  stream_shows st w -> pending_roc st = 0 -> 0 <= index (rtp_rdbx st) < 2 ^ 48 -> 0 <= i < 2 ^ 48 ->
  Z.abs (i - index (rtp_rdbx st)) < 2 ^ 15 ->
  match window_check w i with
  | srtp_err_status_ok =>
      if is_status srtp_err_status_ok (authentic i)
      then exists st', srtp_unprotect_index st (i `mod` 65536) authentic = Next (i, st') /\
             stream_shows st' (window_add w i) /\
             index (rtp_rdbx st') = Z.max (index (rtp_rdbx st)) i
      else srtp_unprotect_index st (i `mod` 65536) authentic = Return (authentic i)
  | e => srtp_unprotect_index st (i `mod` 65536) authentic = Return e
  end.
Proof.
  intros Hst Hroc Hx Hi Hnear. unfold srtp_unprotect_index, srtp_unprotect_check, srtp_get_est_pkt_index.
  rewrite Hroc. cbn [negb Z.eqb]. rewrite srtp_rdbx_estimate_near by done. status.
  rewrite (stream_check st w) by done. replace (index (rtp_rdbx st) + (i - index (rtp_rdbx st))) with i by lia.
  cbn [acc obind]. destruct (window_check w i) eqn:Ec; try done. status.
  case_test; cbn [negb]; [|done]. pose proof Hst as [Hn Hr _].
  destruct (window_check_new _ _ _ _ (rdbx_bits _ _ _ Hr) ltac:(lia) Ec) as [_ Hf].
  destruct (add_index_shows st w (i - index (rtp_rdbx st)) Hst) as (st' & E1 & Hst' & Hx' & _); [lia..|].
  unfold srtp_unprotect_commit. rewrite E1. cbn [acc obind]. exists st'.
  replace (index (rtp_rdbx st) + (i - index (rtp_rdbx st))) with i in * by lia. done.
Qed.

(** ** A pending rollover counter *)

(** The application has set the rollover counter [roc], and the highest index
    received is in the second half of the indices with that counter. *)
Definition pinned (roc : Z) (st : srtp_stream_ctx_t) : Prop :=
  pending_roc st = roc /\ roc * 65536 + 32768 <= index (rtp_rdbx st) < (roc + 1) * 65536.

Definition packet_op (op : stream_op) : Prop :=
  match op with
  | Protect seq | Unprotect seq _ => 0 <= seq < 65536
  | SetRoc _ => False
  end.

Section Pinned.
Variables (roc : Z) (st : srtp_stream_ctx_t).
Hypothesis Hroc : 0 < roc < 2 ^ 32.
Hypothesis Hst : pinned roc st.

(** The estimate always has the pending counter, and needs no advance. *)
Lemma pinned_estimate seq status est d : 0 <= seq < 65536 ->
  srtp_get_est_pkt_index seq st = (status, (est, d)) ->
  est = roc * 65536 + seq /\
  (status = srtp_err_status_pkt_idx_old \/ status = srtp_err_status_ok /\ d = est - index (rtp_rdbx st)).
Proof.
  intros Hs. destruct Hst as [Hp Hx]. unfold srtp_get_est_pkt_index, srtp_estimate_index.
  rewrite Hp. replace (roc =? 0) with false by lia. cbn [negb]. rewrite index_of_parts by lia.
  change seq_num_median with 32768. rewrite s32_u64, s32_id by lia.
  destruct (_ <? roc * 65536 + seq) eqn:E1; zify_bool.
  - rewrite (wrap_small 64) by lia. case_test; zify_bool; [lia|]. intros [= <- <- <-]. by auto.
  - destruct (roc * 65536 + seq <? _) eqn:E2; zify_bool; [|intros [= <- <- <-]; by auto].
    case_test; intros [= <- <- <-]; by auto.
Qed.

Lemma pinned_add seq st' : 0 <= seq < 65536 ->
  add_index st (roc * 65536 + seq - index (rtp_rdbx st)) = Some st' -> pinned roc st'.
Proof.
  intros Hs. destruct Hst as [Hp Hx]. unfold add_index, srtp_rdbx_add_index.
  set (d := roc * 65536 + seq - index (rtp_rdbx st)). destruct (0 <? d) eqn:E; zify_bool.
  - destruct (bitvector_left_shift _ d) as [v|]; [|done]. destruct (set_bit _ _) as [x|]; [|done].
    intros [= <-]. split; [exact Hp|]. cbn. unfold srtp_index_advance.
    rewrite (wrap_small 16), (wrap_small 64) by lia. lia.
  - destruct (set_bit _ _) as [x|]; [|done]. intros [= <-]. by split.
Qed.

Lemma pinned_step op r st' : packet_op op -> stream_step st op = Some (r, st') ->
  pinned roc st' /\ forall u, r = Some u -> use_index u / 65536 = roc.
Proof.
  intros Hop. destruct op as [seq|seq authentic|]; [| |done]; cbn [stream_step].
  - unfold srtp_protect_index. destruct (srtp_get_est_pkt_index seq st) as [status [est d]] eqn:Ee.
    apply pinned_estimate in Ee as [-> [->|[-> ->]]]; [| |done]; status; [by intros [= <- <-]|].
    destruct (srtp_rdbx_check _ _) as [c|]; [|done]. cbn [acc obind]. case_test; [by intros [= <- <-]|].
    destruct (add_index st _) as [st1|] eqn:Ea; [|done]. intros [= <- <-].
    split; [by apply (pinned_add seq)|]. intros u [= <-]. cbn [use_index]. cbn in Hop. lia_mod.
  - unfold srtp_unprotect_index, srtp_unprotect_check.
    destruct (srtp_get_est_pkt_index seq st) as [status [est d]] eqn:Ee.
    apply pinned_estimate in Ee as [-> [->|[-> ->]]]; [| |done]; status; [by intros [= <- <-]|].
    destruct (srtp_rdbx_check _ _) as [c|]; [|done]. cbn [acc obind]. case_test; [by intros [= <- <-]|].
    cbn [obind]. case_test; [by intros [= <- <-]|]. unfold srtp_unprotect_commit.
    destruct (add_index st _) as [st1|] eqn:Ea; [|done]. intros [= <- <-].
    split; [by apply (pinned_add seq)|]. intros u [= <-]. cbn [use_index]. cbn in Hop. lia_mod.
Qed.
End Pinned.

(** When the application sets the rollover counter a stream already has, in
    the second half of its sequence numbers, the stream never follows the next
    rollover: no index with another counter is used again, since the pending
    counter is only cleared when the index has to be advanced. *)
Theorem srtp_pending_roc_pins roc ops st used st' :
  0 < roc < 2 ^ 32 -> pinned roc st -> Forall packet_op ops -> stream_run st ops = Some (used, st') ->
  pinned roc st' /\ Forall (fun u => use_index u / 65536 = roc) used.
Proof.
  intros Hroc. revert st used. induction ops as [|op ops IH]; intros st used Hst Hops; cbn [stream_run].
  { intros [= <- <-]. by split. }
  inversion_clear Hops as [|? ? Hop Hops'].
  destruct (stream_step st op) as [[r st1]|] eqn:E1; [|done].
  destruct (stream_run st1 ops) as [[used1 st2]|] eqn:E2; [|done]. intros [= <- <-].
  destruct (pinned_step roc st Hroc Hst op r st1 Hop E1) as [Hst1 Hi].
  destruct (IH st1 used1 Hst1 Hops' E2) as [Hst2 Hused]. split; [done|].
  apply Forall_app. split; [|done]. destruct r as [u|]; cbn [option_list]; [|constructor].
  constructor; [by apply Hi | constructor].
Qed.

(** ** SRTCP *)
Fixpoint rtcp_run (st : srtp_stream_ctx_t) (packets : list (Z * srtp_err_status_t))
  : option (list Z * srtp_stream_ctx_t) :=
  match packets with
  | [] => Some ([], st)
  | (trailer, authentic) :: packets' =>
      match srtp_unprotect_rtcp_index st trailer authentic with
      | UB => None
      | Return _ => rtcp_run st packets'
      | Next (i, st') =>
          let? (used, st'') := rtcp_run st' packets' in Some (i :: used, st'')
      end
  end.

Fixpoint rtcp_send (st : srtp_stream_ctx_t) (n : nat) : list (option Z) :=
  match n with
  | O => []
  | S n' =>
      match srtp_protect_rtcp_index st with
      | Next (i, st') => Some i :: rtcp_send st' n'
      | _ => None :: rtcp_send st n'
      end
  end.

Lemma srtp_unprotect_rtcp_spec st w trailer authentic : rdb_shows (rtcp_rdb st) w ->
  match srtp_unprotect_rtcp_index st trailer authentic with
  | UB => False
  | Return e => e <> srtp_err_status_ok
  | Next (i, st') => i = Z.land (ntohl trailer) SRTCP_INDEX_MASK /\ authentic = srtp_err_status_ok /\
      i ∉ seen w /\ rdb_shows (rtcp_rdb st') (window_add w i)
  end.
Proof.
  intros Hst. unfold srtp_unprotect_rtcp_index.
  assert (Hi : 0 <= Z.land (ntohl trailer) SRTCP_INDEX_MASK < 2 ^ 31).
  { unfold SRTCP_INDEX_MASK. rewrite (land_ones_mod 31) by lia. apply Z.mod_pos_bound. lia. }
  set (i := Z.land _ _) in *. rewrite (rdb_check_window _ w) by done. cbn [acc obind].
  destruct (is_status srtp_err_status_ok (window_check w i)) eqn:Ec; cbn [negb].
  2:{ intros E. rewrite E in Ec. discriminate. }
  destruct (is_status srtp_err_status_ok authentic) eqn:Ea; cbn [negb].
  2:{ intros E. rewrite E in Ea. discriminate. }
  apply is_status_true in Ec, Ea.
  destruct (window_check_new _ _ _ _ (rdb_bits _ _ Hst) ltac:(lia) Ec) as [Hnew Hf].
  destruct (rdb_add_window _ w i Hst) as (rdb & -> & Hrdb); [lia|]. done.
Qed.

Lemma rtcp_run_spec packets : forall st w, rdb_shows (rtcp_rdb st) w ->
  exists used st', rtcp_run st packets = Some (used, st') /\ NoDup used /\ forall i, i ∈ used -> i ∉ seen w.
Proof.
  induction packets as [|[trailer authentic] packets IH]; intros st w Hst; cbn [rtcp_run].
  { exists [], st. split; [done|]. split; [constructor | by intros i ?%elem_of_nil]. }
  pose proof (srtp_unprotect_rtcp_spec st w trailer authentic Hst) as Hspec.
  destruct (srtp_unprotect_rtcp_index st trailer authentic) as [|e|[i st1]]; [done | by apply IH |].
  destruct Hspec as (_ & _ & Hnew & Hst1).
  destruct (IH st1 _ Hst1) as (used & st' & -> & Hnd & Hseen). exists (i :: used), st'. split; [done|]. split.
  - constructor; [|done]. intros Hin%Hseen. set_solver.
  - intros j [->|Hj]%elem_of_cons; [done|]. apply Hseen in Hj. set_solver.
Qed.

Lemma rtcp_send_spec n : forall st k j, window_start (rtcp_rdb st) = k -> 0 <= k <= 2 ^ 31 - 1 -> (j < n)%nat ->
  rtcp_send st n !! j = Some (let i := k + Z.of_nat j + 1 in if i <? 2 ^ 31 then Some i else None).
Proof.
  induction n as [|n IH]; intros st k j Hk Hr Hj; [lia|]. cbn [rtcp_send].
  unfold srtp_protect_rtcp_index, srtp_rdb_increment. rewrite Hk.
  destruct (0x7fffffff <=? k) eqn:E; zify_bool.
  - change (negb (is_status _ _)) with true. cbv iota. destruct j as [|j]; cbn [lookup list_lookup]; cbv zeta.
    + by rewrite (proj2 (Z.ltb_ge _ _)) by lia.
    + rewrite (IH st k) by (done || lia). cbv zeta. by rewrite !(proj2 (Z.ltb_ge _ _)) by lia.
  - change (negb (is_status _ _)) with false. cbv iota. unfold srtp_rdb_get_value. cbn [upd rtcp_rdb updater window_start].
    rewrite (wrap_small 32) by lia. destruct j as [|j]; cbn [lookup list_lookup]; cbv zeta.
    + rewrite (proj2 (Z.ltb_lt _ _)) by lia. do 2 f_equal. lia.
    + rewrite (IH _ (k + 1)); [|done | lia | lia].
      cbv zeta. by replace (k + 1 + Z.of_nat j + 1) with (k + Z.of_nat (S j) + 1) by lia.
Qed.

(** SRTCP uses no index twice either: a receiver's run over any packets is
    defined and the indices of those it accepts are different, and a sender
    numbers its packets from one and stops with an expired key before the 31
    bits of the index are used up. *)
Theorem srtcp_no_index_twice st : rtcp_rdb st = srtp_rdb_init ->
  (forall packets, exists used st', rtcp_run st packets = Some (used, st') /\ NoDup used) /\
  (forall n j, (j < n)%nat -> rtcp_send st n !! j =
     Some (let i := Z.of_nat j + 1 in if i <? 2 ^ 31 then Some i else None)).
Proof.
  intros Hst. split.
  - intros packets. destruct (rtcp_run_spec packets st (window_new 0 128)) as (used & st' & E & Hnd & _).
    + rewrite Hst. apply rdb_init_window.
    + by exists used, st'.
  - intros n j Hj. rewrite (rtcp_send_spec n st 0) by (rewrite ?Hst; done || lia). done.
Qed.

(** ** The limit of a key *)

(** The key after [n] packets. *)
Fixpoint key_after (n : nat) (key : srtp_key_limit_ctx) : srtp_key_limit_ctx :=
  match n with
  | O => key
  | S n' => key_after n' (snd (srtp_key_limit_update key))
  end.

Lemma update_left key : num_left (snd (srtp_key_limit_update key)) = u64 (num_left key - 1).
Proof. unfold srtp_key_limit_update. cbv zeta. by repeat case_match. Qed.

Lemma key_after_left n key : 0 <= num_left key < 2 ^ 64 -> num_left (key_after n key) = u64 (num_left key - Z.of_nat n).
Proof.
  revert key. induction n as [|n IH]; intros key Hk; cbn [key_after]; [rewrite wrap_small by lia; lia|].
  rewrite IH by (rewrite update_left; apply wrap_range; lia). rewrite update_left. unfold wrap. rewrite Zminus_mod_idemp_l. f_equal. lia.
Qed.

(** What the update for the packet after [n] others reports of a key that was
    set to [s] packets: nothing, the soft limit for the last 65535 but one, the
    hard limit for the last; but when packets go on the count starts again at
    2^64 - 1 and nothing is reported, though the state says that the key expired:
    the state is never looked at. *)
Theorem srtp_key_expiry_unnoticed key s n : soft_limit <= s < 2 ^ 63 -> Z.of_nat n < 2 ^ 63 ->
  fst (srtp_key_limit_update (key_after n (snd (srtp_key_limit_set key s)))) =
    let k := Z.of_nat n + 1 in
    if k <=? s - soft_limit then srtp_key_event_normal
    else if k <? s then srtp_key_event_soft_limit
    else if k =? s then srtp_key_event_hard_limit
    else srtp_key_event_normal.
Proof.
  intros Hs Hn. unfold soft_limit in *. unfold srtp_key_limit_set. change soft_limit with 65536. rewrite (proj2 (Z.ltb_ge _ _)) by lia. cbn [snd].
  set (key' := mkKeyLimit s _). assert (Hl : num_left (key_after n key') = u64 (s - Z.of_nat n)) by (apply key_after_left; cbn; lia).
  unfold srtp_key_limit_update. rewrite Hl. cbv zeta. change soft_limit with 65536.
  assert (Hw : u64 (u64 (s - Z.of_nat n) - 1) = if Z.of_nat n + 1 <=? s then s - Z.of_nat n - 1 else s - Z.of_nat n - 1 + 2 ^ 64).
  { unfold wrap. rewrite Zminus_mod_idemp_l. case_test; zify_bool; [apply Z.mod_small; lia|].
    rewrite <- (Z_mod_plus_full _ 1). rewrite Z.mod_small by lia. lia. }
  rewrite Hw. clear Hw Hl. destruct (Z.of_nat n + 1 <=? s) eqn:E; zify_bool;
    repeat (case_test; zify_bool; cbn [fst]; try done); exfalso; lia.
Qed.

Lemma srtp_key_expiry_unnoticed_witness :
  fst (srtp_key_limit_update (key_after (Z.to_nat 65536) (snd (srtp_key_limit_set (mkKeyLimit 0 srtp_key_state_normal) 65536)))) = srtp_key_event_normal.
Proof.
  refine (eq_trans (srtp_key_expiry_unnoticed (mkKeyLimit 0 srtp_key_state_normal) 65536 (Z.to_nat 65536) _ _) _).
  - by split.
  - rewrite Z2Nat.id by lia. lia.
  - rewrite Z2Nat.id by lia. reflexivity.
Defined.
