(* ===== verification/SrtpExamples.v ===== *)
(** * Concrete SRTP streams

    A stream with a window of 128 indices, and one whose rollover counter the
    application has set: the inputs at which the theorems on replay protection
    are applied. *)

From stdpp Require Import list gmap.
From S2P Require Import Prelude SrtpReplay SrtpWindow SrtpCorrect.

#[local] Open Scope Z_scope.

Definition stream_of (r : option (srtp_err_status_t + srtp_stream_ctx_t)) : srtp_stream_ctx_t :=
  match r with
  | Some (inr st) => st
  | _ => {| rtp_rdbx := {| index := 0; bitmaskx := {| bv_length := 0; word := [] |} |};
            rtcp_rdb := srtp_rdb_init; allow_repeat_tx := false; pending_roc := 0 |}
  end.

(** The default window. *)
Definition stream0 : srtp_stream_ctx_t := stream_of (srtp_stream_init true 0 0).

Lemma stream0_init : srtp_stream_init true 0 0 = Some (inr stream0).
Proof. reflexivity. Qed.

Definition valid (i : Z) : srtp_err_status_t := srtp_err_status_ok.

(** Packets out of order and repeated, a forged one, and one from before the window. *)
Definition packets0 : list stream_op :=
  [Unprotect 1000 valid; Unprotect 1002 valid; Unprotect 1001 valid; Unprotect 1002 valid;
   Unprotect 1500 (fun _ => srtp_err_status_auth_fail); Unprotect 1300 valid; Unprotect 1001 valid;
   SetRoc 7; Protect 20; Protect 20; Protect 21].

Example packets0_used : fst <$> stream_run stream0 packets0 =
  Some [Accepted 1000; Accepted 1002; Accepted 1001; Accepted 1300; Sent (7 * 65536 + 20); Sent (7 * 65536 + 21)].
Proof. vm_compute. reflexivity. Qed.

Lemma packets0_ok : Forall op_ok packets0.
Proof. repeat (constructor; [cbn; lia|]). constructor. Qed.

(** A stream that may send a packet again. *)
Definition repeating0 : srtp_stream_ctx_t := stream_of (srtp_stream_init true 0 1).

Lemma repeating0_init : srtp_stream_init true 0 1 = Some (inr repeating0).
Proof. reflexivity. Qed.

Example repeating0_used : fst <$> stream_run repeating0 packets0 =
  Some [Accepted 1000; Accepted 1002; Accepted 1001; Accepted 1300; Sent (7 * 65536 + 20); Sent (7 * 65536 + 20); Sent (7 * 65536 + 21)].
Proof. vm_compute. reflexivity. Qed.

Lemma srtp_no_index_twice_witness :
  (exists used st', stream_run stream0 packets0 = Some (used, st') /\
    (index (rtp_rdbx st') < 2 ^ 48 ->
     (forall before u after, [] ++ used = before ++ u :: after -> use_index u ∈ use_index <$> before ->
        allow_repeat_tx stream0 = true /\ u = Sent (use_index u)) /\
     (allow_repeat_tx stream0 = false -> NoDup (use_index <$> [] ++ used)))) /\
  (exists used st', stream_run repeating0 packets0 = Some (used, st') /\
    (index (rtp_rdbx st') < 2 ^ 48 ->
     (forall before u after, [] ++ used = before ++ u :: after -> use_index u ∈ use_index <$> before ->
        allow_repeat_tx repeating0 = true /\ u = Sent (use_index u)) /\
     (allow_repeat_tx repeating0 = false -> NoDup (use_index <$> [] ++ used)))).
Proof.
  split.
  - apply (srtp_no_index_twice stream0 [] packets0); [apply (start_init true 0 0), stream0_init | exact packets0_ok | reflexivity].
  - apply (srtp_no_index_twice repeating0 [] packets0); [apply (start_init true 0 1), repeating0_init | exact packets0_ok | reflexivity].
Defined.

(** The stream before anything has arrived, and its window. *)
Definition window0 : window := window_new (1 - 128) 128.

Lemma stream0_shows : stream_shows stream0 window0.
Proof. apply (fresh_stream true 128 (rtp_rdbx stream0) false); [lia | reflexivity]. Qed.

Lemma srtp_unprotect_verdict_witness :
  exists st', srtp_unprotect_index stream0 (1000 `mod` 65536) valid = Next (1000, st') /\
    stream_shows st' (window_add window0 1000) /\
    index (rtp_rdbx st') = Z.max (index (rtp_rdbx stream0)) 1000.
Proof.
  apply (srtp_unprotect_verdict stream0 window0 1000 valid stream0_shows); [reflexivity | | | reflexivity];
    split; (reflexivity || discriminate).
Defined.

(** After two additions the database of SRTCP has moved its window. *)
Lemma srtp_rdb_implements_window_witness :
  srtp_rdb_check srtp_rdb_init 200 = Some srtp_err_status_ok /\
  exists rdb', srtp_rdb_add_index srtp_rdb_init 200 = Some (srtp_err_status_ok, rdb') /\
    rdb_shows rdb' (window_add (window_new 0 128) 200).
Proof.
  apply (proj2 srtp_rdb_implements_window srtp_rdb_init (window_new 0 128) 200);
    [apply (proj1 srtp_rdb_implements_window) | split; [discriminate | reflexivity]].
Defined.

Lemma srtp_rdbx_implements_window_witness :
  srtp_rdbx_check (rtp_rdbx stream0) 5 = Some (window_check window0 5) /\
  exists rdbx', srtp_rdbx_add_index (rtp_rdbx stream0) 5 = Some rdbx' /\
    rdbx_shows 128 rdbx' (window_add window0 5) /\ index rdbx' = 5.
Proof.
  destruct (proj2 srtp_rdbx_implements_window 128 (rtp_rdbx stream0) window0 5) as [Hc Ha];
    [apply stream0_shows|].
  split; [exact Hc|]. apply Ha; [split; [discriminate | reflexivity] | reflexivity].
Defined.

(** A stream in rollover 1, whose counter the application sets to 1 again. *)
Definition stream1 : srtp_stream_ctx_t :=
  match stream_run stream0 [SetRoc 1; Unprotect 0 valid; Unprotect 30000 valid; Unprotect 50000 valid; SetRoc 1] with
  | Some (_, st) => st
  | None => stream0
  end.

Lemma stream1_pinned : pinned 1 stream1.
Proof. repeat split; vm_compute; congruence. Qed.

(** The last packet is the first one after the rollover. *)
Definition packets1 : list stream_op := [Unprotect 65000 valid; Unprotect 65535 valid; Unprotect 0 valid].

Definition stream2 : srtp_stream_ctx_t :=
  match stream_run stream1 packets1 with Some (_, st) => st | None => stream0 end.

Lemma packets1_run : stream_run stream1 packets1 = Some ([Accepted (65536 + 65000); Accepted (65536 + 65535)], stream2).
Proof. vm_compute. reflexivity. Qed.

Lemma srtp_pending_roc_pins_witness :
  pinned 1 stream2 /\ Forall (fun u => use_index u / 65536 = 1) [Accepted (65536 + 65000); Accepted (65536 + 65535)].
Proof.
  apply (srtp_pending_roc_pins 1 packets1 stream1 _ stream2);
    [split; reflexivity | exact stream1_pinned | repeat (constructor; [cbn; lia|]); constructor | exact packets1_run].
Defined.

(** Without the second counter the same packet is accepted under the next one. *)
Example rollover_followed :
  fst <$> stream_run (srtp_set_stream_roc stream1 0) packets1 = Some [Accepted (65536 + 65000); Accepted (65536 + 65535); Accepted (2 * 65536)].
Proof. vm_compute. reflexivity. Qed.

Lemma srtcp_no_index_twice_witness :
  (forall packets, exists used st', rtcp_run stream0 packets = Some (used, st') /\ NoDup used) /\
  rtcp_send stream0 3 !! 2%nat = Some (Some 3).
Proof.
  split.
  - exact (proj1 (srtcp_no_index_twice stream0 eq_refl)).
  - exact (proj2 (srtcp_no_index_twice stream0 eq_refl) 3%nat 2%nat ltac:(lia)).
Defined.

(** srtp_rdbx_set_roc forgets the indices it has seen even when it refuses the
    counter: an index that was received before passes the check again. *)
Definition rdbx2 : option srtp_rdbx_t :=
  srtp_rdbx_add_index {| index := 2 * 65536; bitmaskx := bitmaskx (rtp_rdbx stream0) |} 7.

Lemma srtp_rdbx_set_roc_forgets :
  match rdbx2 with
  | Some r =>
      srtp_rdbx_check r 0 = Some srtp_err_status_replay_fail /\
      match srtp_rdbx_set_roc r 1 with
      | Some (status, r') => status = srtp_err_status_replay_old /\ index r' = index r /\
          srtp_rdbx_check r' 0 = Some srtp_err_status_ok
      | None => False
      end
  | None => False
  end.
Proof. vm_compute. repeat split. Qed.
