(* ===== verification/AgentState.v ===== *)
(** * agent.h and agent.c: the state of the ICE agent, its timers and its pairs

    A pointer to a candidate, a pair or an entry is its index in the array that
    holds it: candidates in the local or the remote description, pairs in
    [candidate_pairs], entries in [entries]; the two arrays are the lists of
    their used elements.  Pointers to candidates stay what they are when a
    description is replaced; what lies behind the last candidate of a
    description is zero.  The configured callbacks are events, and so are the
    datagrams handed to the connection.  Consent freshness is enabled and local
    address translation is not, as in the build of the application. *)

From S2P Require Import Prelude Machine CStdio Addr.
From S2P Require Import StunMsg StunWrite StunRead Turn Ice.

(** ** agent.h *)
Definition MIN_STUN_RETRANSMISSION_TIMEOUT : Z := 500.
Definition LAST_STUN_RETRANSMISSION_TIMEOUT : Z := MIN_STUN_RETRANSMISSION_TIMEOUT * 16.
Definition MAX_STUN_CHECK_RETRANSMISSION_COUNT : Z := 6.
Definition MAX_STUN_SERVER_RETRANSMISSION_COUNT : Z := 5.
Definition STUN_PACING_TIME : Z := 50.
Definition STUN_KEEPALIVE_PERIOD : Z := 15000.
Definition ICE_PAC_TIMEOUT : Z := 39500.
Definition CONSENT_TIMEOUT : Z := 30000.
Definition MIN_CONSENT_CHECK_PERIOD : Z := 4000.
Definition MAX_CONSENT_CHECK_PERIOD : Z := 6000.
Definition NOMINATION_TIMEOUT : Z := 2000.
Definition TURN_LIFETIME : Z := 600000.
Definition TURN_REFRESH_PERIOD : Z := TURN_LIFETIME - 60000.
Definition MAX_SERVER_ENTRIES_COUNT : Z := 2.
Definition MAX_RELAY_ENTRIES_COUNT : Z := 2.
Definition MAX_TURN_REDIRECTIONS : Z := 1.
Definition MAX_STUN_SERVER_RECORDS_COUNT : Z := MAX_SERVER_ENTRIES_COUNT.
Definition MAX_HOST_CANDIDATES_COUNT : Z := (ICE_MAX_CANDIDATES_COUNT - MAX_STUN_SERVER_RECORDS_COUNT) / 2.
Definition MAX_PEER_REFLEXIVE_CANDIDATES_COUNT : Z := MAX_HOST_CANDIDATES_COUNT.
Definition MAX_CANDIDATE_PAIRS_COUNT : Z := ICE_MAX_CANDIDATES_COUNT * (1 + MAX_RELAY_ENTRIES_COUNT).
Definition MAX_STUN_ENTRIES_COUNT : Z := MAX_CANDIDATE_PAIRS_COUNT + MAX_STUN_SERVER_RECORDS_COUNT.
Definition AGENT_TURN_MAP_SIZE : Z := ICE_MAX_CANDIDATES_COUNT.

(** agent.c *)
Definition PERMISSION_LIFETIME : Z := 300000.
Definition BIND_LIFETIME : Z := 600000.
Definition BUFFER_SIZE : Z := 4096.
Definition DEFAULT_MAX_RECORDS_COUNT : Z := 8.

Inductive juice_state : Type :=
| JUICE_STATE_DISCONNECTED
| JUICE_STATE_GATHERING
| JUICE_STATE_CONNECTING
| JUICE_STATE_CONNECTED
| JUICE_STATE_COMPLETED
| JUICE_STATE_FAILED.

Inductive agent_mode : Type := AGENT_MODE_UNKNOWN | AGENT_MODE_CONTROLLED | AGENT_MODE_CONTROLLING.

Inductive agent_stun_entry_type : Type :=
| AGENT_STUN_ENTRY_TYPE_EMPTY
| AGENT_STUN_ENTRY_TYPE_SERVER
| AGENT_STUN_ENTRY_TYPE_RELAY
| AGENT_STUN_ENTRY_TYPE_CHECK.

Inductive agent_stun_entry_state : Type :=
| AGENT_STUN_ENTRY_STATE_PENDING
| AGENT_STUN_ENTRY_STATE_CANCELLED
| AGENT_STUN_ENTRY_STATE_FAILED
| AGENT_STUN_ENTRY_STATE_SUCCEEDED
| AGENT_STUN_ENTRY_STATE_SUCCEEDED_KEEPALIVE
| AGENT_STUN_ENTRY_STATE_IDLE.

#[export] Instance juice_state_eq_dec : EqDecision juice_state.
Proof. solve_decision. Defined.
#[export] Instance agent_mode_eq_dec : EqDecision agent_mode.
Proof. solve_decision. Defined.
#[export] Instance agent_stun_entry_type_eq_dec : EqDecision agent_stun_entry_type.
Proof. solve_decision. Defined.
#[export] Instance agent_stun_entry_state_eq_dec : EqDecision agent_stun_entry_state.
Proof. solve_decision. Defined.
#[export] Instance pair_state_eq_dec : EqDecision ice_candidate_pair_state.
Proof. solve_decision. Defined.

Record agent_turn_state := mkTurnState {
  turn_map_ : turn_map;
  turn_credentials : stun_credentials;
  turn_password : list Z
}.

Record agent_stun_entry := mkEntry {
  e_type : agent_stun_entry_type;
  e_state : agent_stun_entry_state;
  e_mode : agent_mode;
  e_pair : option nat;
  e_record : addr_record;
  e_relayed : addr_record;
  e_transaction_id : list Z;
  e_next_transmission : Z;
  e_retransmission_timeout : Z;
  e_retransmissions : Z;
  e_transaction_id_expired : bool;
  e_turn : option agent_turn_state;
  e_turn_redirections : Z;
  e_relay_entry : option nat
}.

(** [ice_candidate_pair_t], with pointers. *)
Record agent_pair := mkAgentPair {
  p_local : option nat;
  p_remote : nat;
  p_priority : Z;
  p_state : ice_candidate_pair_state;
  p_nominated : bool;
  p_nomination_requested : bool;
  p_consent_expiry : Z
}.

(** [juice_turn_server_t]; a port of zero is the default port. *)
Record turn_server := mkTurnServer {
  ts_host : option (list Z);
  ts_username : list Z;
  ts_password : list Z;
  ts_port : Z
}.

(** The part of the configuration the agent acts on. *)
Record agent_config := mkAgentConfig {
  mux_mode : bool;
  stun_server_host : option (list Z);
  stun_server_port : Z;
  turn_servers : list turn_server
}.

(** Where [agent_resolve_servers] is between two of the sections it runs locked:
    the TURN servers left, the index of the first, the servers used; or before
    the STUN server. *)
Inductive resolver_state : Type :=
| AtTurn (left_ : list turn_server) (i : Z) (count : Z)
| AtStun.

Record juice_agent := mkAgent {
  a_config : agent_config;
  a_state : juice_state;
  a_mode : agent_mode;
  a_local : ice_description;
  a_remote : ice_description;
  candidate_pairs : list agent_pair;
  ordered_pairs : list nat;
  selected_pair : option nat;
  a_entries : list agent_stun_entry;
  selected_entry : option nat;
  ice_tiebreaker : Z;
  pac_timestamp : Z;
  nomination_timestamp : Z;
  gathering_done : bool;
  conn_created : bool;
  resolver : option resolver_state
}.

#[export] Instance agent_turn_state_expand : Expand agent_turn_state := fun t =>
  mkTurnState (turn_map_ t) (turn_credentials t) (turn_password t).
#[export] Instance agent_stun_entry_expand : Expand agent_stun_entry := fun e =>
  mkEntry (e_type e) (e_state e) (e_mode e) (e_pair e) (e_record e) (e_relayed e) (e_transaction_id e)
    (e_next_transmission e) (e_retransmission_timeout e) (e_retransmissions e) (e_transaction_id_expired e)
    (e_turn e) (e_turn_redirections e) (e_relay_entry e).
#[export] Instance agent_pair_expand : Expand agent_pair := fun p =>
  mkAgentPair (p_local p) (p_remote p) (p_priority p) (p_state p) (p_nominated p) (p_nomination_requested p)
    (p_consent_expiry p).
#[export] Instance agent_config_expand : Expand agent_config := fun c =>
  mkAgentConfig (mux_mode c) (stun_server_host c) (stun_server_port c) (turn_servers c).
#[export] Instance juice_agent_expand : Expand juice_agent := fun a =>
  mkAgent (a_config a) (a_state a) (a_mode a) (a_local a) (a_remote a) (candidate_pairs a) (ordered_pairs a)
    (selected_pair a) (a_entries a) (selected_entry a) (ice_tiebreaker a) (pac_timestamp a)
    (nomination_timestamp a) (gathering_done a) (conn_created a) (resolver a).

(** An element of [entries] that was never used. *)
Definition entry_zero : agent_stun_entry :=
  mkEntry AGENT_STUN_ENTRY_TYPE_EMPTY AGENT_STUN_ENTRY_STATE_PENDING AGENT_MODE_UNKNOWN None addr_record_zero
    addr_record_zero (replicate 12 0) 0 0 0 false None 0 None.

(** The datagrams sent, and the calls of the callbacks. *)
Inductive agent_event : Type :=
| SentTo (dst : addr_record) (data : list Z) (ds : Z)
| StateChanged (state : juice_state)
| Candidate (sdp : list Z)
| GatheringDone
| Received (data : list Z).

(** ** The environment *)
Class AgentEnvironment := {
  now_ms : nat -> Z;                            (** [current_timestamp] *)
  random_of : nat -> Z -> list Z;               (** [juice_random] of so many bytes *)
  random_ids : nat -> list (list Z);            (** the identifiers it delivers one after the other *)
  random_channels : nat -> list Z;              (** the numbers for channels, likewise *)
  buffer_of : nat -> list Z;                    (** a [char buffer[BUFFER_SIZE]] *)
  never_set : nat -> list Z;                    (** two bytes never assigned *)
  conn_send_result : nat -> Z;                  (** [conn_send] *)
  conn_create_result : nat -> bool;             (** [conn_create]: whether it succeeds *)
  conn_get_addrs_result : nat -> Z * list addr_record;
  resolver_thread_result : nat -> bool          (** [thread_init]: whether it succeeds *)
}.

(** ** The machine *)
Abbreviation amachine := (process juice_agent agent_event).
Abbreviation agent := (memory (S := juice_agent) (E := agent_event)).
Abbreviation A := (prog juice_agent agent_event).
#[local] Open Scope machine_scope.

Definition is_etype (t : agent_stun_entry_type) (e : agent_stun_entry) : bool := bool_decide (e_type e = t).
Definition is_estate (s : agent_stun_entry_state) (e : agent_stun_entry) : bool := bool_decide (e_state e = s).
Definition is_pstate (s : ice_candidate_pair_state) (p : agent_pair) : bool := bool_decide (p_state p = s).
Definition controlling (a : juice_agent) : bool := bool_decide (a_mode a = AGENT_MODE_CONTROLLING).

Definition get_entry (i : nat) : A agent_stun_entry := let* l := gets a_entries in defined (l !! i).
Definition set_entry (i : nat) (f : agent_stun_entry -> agent_stun_entry) : A unit :=
  let* e := get_entry i in modify (fun a => a <| a_entries ::= fun l => <[i := f e]> l |>).
Definition get_pair (i : nat) : A agent_pair := let* l := gets candidate_pairs in defined (l !! i).
Definition set_pair (i : nat) (f : agent_pair -> agent_pair) : A unit :=
  let* p := get_pair i in modify (fun a => a <| candidate_pairs ::= fun l => <[i := f p]> l |>).

(** The candidate that a pointer into a description points to. *)
Definition candidate_at (d : ice_description) (i : nat) : ice_candidate := default ice_candidate_zero (candidates d !! i).

(** A pair with the candidates it points to. *)
Definition pair_value (a : juice_agent) (p : agent_pair) : ice_candidate_pair :=
  mkPair (candidate_at (a_local a) <$> p_local p) (Some (candidate_at (a_remote a) (p_remote p)))
    (p_priority p) (p_state p) (p_nominated p) (p_nomination_requested p) (p_consent_expiry p).

(** The first index of [l], from [i] on, whose element satisfies [f]. *)
Fixpoint find_index {T} (f : T -> bool) (l : list T) (i : nat) : option nat :=
  match l with
  | [] => None
  | x :: l' => if f x then Some i else find_index f l' (S i)
  end.

Definition agent_change_state (state : juice_state) : A unit :=
  let* s := gets a_state in
  if bool_decide (state = s) then ret tt
  else modify (fun a => a <| a_state := state |>) ;; emit (StateChanged state).

(** ** The order of the pairs *)

(** One pair [i] of priority [p] is inserted into the ordered ones, which are
    given from the last to the first. *)
Fixpoint shift_pairs (priority_of : nat -> Z) (p : Z) (i : nat) (prev : list nat) : list nat :=
  match prev with
  | [] => [i]
  | j :: prev' => if priority_of j <? p then j :: shift_pairs priority_of p i prev' else i :: prev
  end.

Fixpoint order_pairs (priority_of : nat -> Z) (n i : nat) (done_ : list nat) : list nat :=
  match n with
  | O => rev done_
  | S n' => order_pairs priority_of n' (S i) (shift_pairs priority_of (priority_of i) i done_)
  end.

Definition priority_in (l : list agent_pair) (i : nat) : Z := from_option p_priority 0 (l !! i).

Definition agent_update_ordered_pairs : A unit :=
  modify (fun a => a <| ordered_pairs := order_pairs (priority_in (candidate_pairs a)) (length (candidate_pairs a)) 0 [] |>).

Section Agent.
Context `{Platform, Scan, Resolver, Hashes, AgentEnvironment}.

Definition agent_update_candidate_pairs : A unit :=
  let* a := gets id in
  let update p := p <| p_priority := pair_priority (fst (ice_update_candidate_pair (pair_value a p) (controlling a))) |> in
  modify (fun a => a <| candidate_pairs ::= map update |>) ;;
  agent_update_ordered_pairs ;;
  modify (fun a => a <| a_entries ::= map (fun e =>
    if is_etype AGENT_STUN_ENTRY_TYPE_CHECK e then e <| e_transaction_id_expired := true |> else e) |>).

(** ** Timers *)

(** [abs((int)timediff) < STUN_PACING_TIME] *)
Definition too_close (timediff : Z) : option bool :=
  let d := s32 timediff in
  if d =? - 2 ^ 31 then None else Some (Z.abs d <? STUN_PACING_TIME).

(** The loop that looks for a time slot for entry [i], due at [t]. *)
Fixpoint find_slot (fuel : nat) (es : list agent_stun_entry) (i : nat) (t : Z) (other : nat) : option Z :=
  match fuel with
  | O => None
  | S fuel' =>
    match es !! other with
    | None => Some t
    | Some o =>
      if (other =? i)%nat then find_slot fuel' es i t (S other)
      else
        let other_transmission := e_next_transmission o in
        let? close := if other_transmission =? 0 then Some false else too_close (t - other_transmission) in
        if close : bool then find_slot fuel' es i (other_transmission + STUN_PACING_TIME) 0
        else find_slot fuel' es i t (S other)
    end
  end.

Definition agent_arm_transmission (i : nat) (delay : Z) : A unit :=
  let* e := get_entry i in
  (if negb (is_estate AGENT_STUN_ENTRY_STATE_SUCCEEDED_KEEPALIVE e)
   then set_entry i (fun e => e <| e_state := AGENT_STUN_ENTRY_STATE_PENDING |>) else ret tt) ;;
  let* now := ask now_ms in
  let* e := get_entry i in
  (if is_estate AGENT_STUN_ENTRY_STATE_PENDING e then
     set_entry i (fun e => e <| e_retransmission_timeout := MIN_STUN_RETRANSMISSION_TIMEOUT |>
       <| e_retransmissions := if is_etype AGENT_STUN_ENTRY_TYPE_CHECK e then MAX_STUN_CHECK_RETRANSMISSION_COUNT
                               else MAX_STUN_SERVER_RETRANSMISSION_COUNT |>)
   else ret tt) ;;
  let* es := gets a_entries in
  let n := S (length es) in
  let* t := defined (find_slot (n * n) es i (now + delay) 0) in
  set_entry i (fun e => e <| e_next_transmission := t |>).

Definition agent_arm_keepalive (i : nat) : A unit :=
  let* e := get_entry i in
  (if is_estate AGENT_STUN_ENTRY_STATE_SUCCEEDED e
   then set_entry i (fun e => e <| e_state := AGENT_STUN_ENTRY_STATE_SUCCEEDED_KEEPALIVE |>) else ret tt) ;;
  let* e := get_entry i in
  if negb (is_estate AGENT_STUN_ENTRY_STATE_SUCCEEDED_KEEPALIVE e) then ret tt
  else
    let* count := gets (fun a => candidates_count (a_remote a)) in
    let* period :=
      match e_type e with
      | AGENT_STUN_ENTRY_TYPE_RELAY => ret (if count >? 0 then TURN_REFRESH_PERIOD else STUN_KEEPALIVE_PERIOD)
      | AGENT_STUN_ENTRY_TYPE_SERVER => ret STUN_KEEPALIVE_PERIOD
      | _ =>
        let* r := ask (fun n => le_word (random_of n 4)) in
        ret (MIN_CONSENT_CHECK_PERIOD + r `mod` (MAX_CONSENT_CHECK_PERIOD - MIN_CONSENT_CHECK_PERIOD + 1))
      end in
    set_entry i (fun e => e <| e_transaction_id_expired := true |>) ;;
    agent_arm_transmission i period.

Definition agent_update_pac_timer : A unit :=
  let* a := gets id in
  if negb (pac_timestamp a =? 0) then ret tt
  else if is_cons (ice_ufrag (a_remote a)) && gathering_done a then
    let* now := ask now_ms in modify (fun a => a <| pac_timestamp := now + ICE_PAC_TIMEOUT |>)
  else ret tt.

Definition gathers (e : agent_stun_entry) : bool :=
  negb (is_etype AGENT_STUN_ENTRY_TYPE_CHECK e) && is_estate AGENT_STUN_ENTRY_STATE_PENDING e.

Definition agent_update_gathering_done : A unit :=
  let* a := gets id in
  if existsb gathers (a_entries a) then ret tt
  else if gathering_done a then ret tt
  else
    modify (fun a => a <| a_local ::= fun d => d <| finished := true |> |> <| gathering_done := true |>) ;;
    agent_update_pac_timer ;;
    emit GatheringDone.

(** ** Candidate pairs *)
Definition agent_unfreeze_candidate_pair (k : nat) : A Z :=
  let* p := get_pair k in
  if negb (is_pstate ICE_CANDIDATE_PAIR_STATE_FROZEN p) then ret 0
  else
    let* es := gets a_entries in
    match find_index (fun e => bool_decide (e_pair e = Some k)) es 0 with
    | Some i =>
      set_pair k (fun p => p <| p_state := ICE_CANDIDATE_PAIR_STATE_PENDING |>) ;;
      set_entry i (fun e => e <| e_state := AGENT_STUN_ENTRY_STATE_PENDING |>) ;;
      agent_arm_transmission i 0 ;;
      ret 0
    | None => ret (-1)
    end.

(** The loop over the ordered pairs before [k]: whether one has succeeded. *)
Fixpoint succeeded_before (ps : list agent_pair) (order : list nat) (k : nat) : bool :=
  match order with
  | [] => false
  | j :: order' =>
    if (j =? k)%nat then false
    else match ps !! j with
         | Some p => is_pstate ICE_CANDIDATE_PAIR_STATE_SUCCEEDED p || succeeded_before ps order' k
         | None => false
         end
  end.

(** The selected pair is nominated. *)
Definition settled (a : juice_agent) : bool :=
  match selected_pair a with
  | Some k => match candidate_pairs a !! k with Some p => p_nominated p | None => false end
  | None => false
  end.

(** The relay entry for a relayed local candidate; [None] when it is missing. *)
Definition find_relay (es : list agent_stun_entry) (l : option ice_candidate) : option (option nat) :=
  match l with
  | Some c =>
    if bool_decide (type c = ICE_CANDIDATE_TYPE_RELAYED) then
      match find_index (fun e => is_etype AGENT_STUN_ENTRY_TYPE_RELAY e &&
                                 addr_record_is_equal (e_relayed e) (resolved c) true) es 0 with
      | Some i => Some (Some i)
      | None => None
      end
    else Some None
  | None => Some None
  end.

Definition agent_add_candidate_pair (l : option nat) (r : nat) : A Z :=
  let* a := gets id in
  let lc := candidate_at (a_local a) <$> l in
  let rc := candidate_at (a_remote a) r in
  let '(value, result) := ice_create_candidate_pair lc (Some rc) (controlling a) ice_candidate_pair_zero in
  if negb (result =? 0) then ret (-1)
  else if MAX_CANDIDATE_PAIRS_COUNT <=? lenZ (candidate_pairs a) then ret (-1)
  else
    let pos := length (candidate_pairs a) in
    let pair := mkAgentPair l r (pair_priority value) (pair_state value) (nominated value)
                  (nomination_requested value) (consent_expiry value) in
    modify (fun a => a <| candidate_pairs ::= fun ps => ps ++ [pair] |>) ;;
    agent_update_ordered_pairs ;;
    let* es := gets a_entries in
    if lenZ es =? MAX_STUN_ENTRIES_COUNT then ret (-1)
    else if MAX_STUN_ENTRIES_COUNT <? lenZ es then undefined
    else
      match find_relay es lc with
      | None => ret (-1)
      | Some relay_entry =>
        let* tid := ask (fun n => random_of n STUN_TRANSACTION_ID_SIZE) in
        let entry := entry_zero <| e_type := AGENT_STUN_ENTRY_TYPE_CHECK |> <| e_state := AGENT_STUN_ENTRY_STATE_IDLE |>
                       <| e_mode := AGENT_MODE_UNKNOWN |> <| e_pair := Some pos |> <| e_record := resolved rc |>
                       <| e_relay_entry := relay_entry |> <| e_transaction_id := tid |>
                       <| e_transaction_id_expired := false |> in
        modify (fun a => a <| a_entries ::= fun es => es ++ [entry] |>) ;;
        let* a := gets id in
        if controlling a && succeeded_before (candidate_pairs a) (ordered_pairs a) pos then ret 0
        else
          (if is_cons (ice_ufrag (a_remote a)) && negb (settled a)
           then agent_unfreeze_candidate_pair pos ;; ret tt else ret tt) ;;
          ret 0
      end.

(** The loop over the local candidates from [i] on. *)
Fixpoint add_relayed_pairs (n i : nat) (r : nat) : A Z :=
  match n with
  | O => ret 0
  | S n' =>
    let* a := gets id in
    let l := candidate_at (a_local a) i in
    let rc := candidate_at (a_remote a) r in
    if bool_decide (type l = ICE_CANDIDATE_TYPE_RELAYED) &&
       (sa_family (addr (resolved l)) =? sa_family (addr (resolved rc)))
    then
      let* result := agent_add_candidate_pair (Some i) r in
      if negb (result =? 0) then ret (-1) else add_relayed_pairs n' (S i) r
    else add_relayed_pairs n' (S i) r
  end.

Definition agent_add_candidate_pairs_for_remote (r : nat) : A Z :=
  let* result := agent_add_candidate_pair None r in
  if negb (result =? 0) then ret (-1)
  else
    let* n := gets (fun a => length (candidates (a_local a))) in
    add_relayed_pairs n 0 r.

(** ** Reflexive and relayed candidates *)

(** The text of a candidate, generated into a local buffer; [None] is the error. *)
Definition generate_candidate (c : ice_candidate) : A (option (list Z)) :=
  let* buffer := ask buffer_of in
  let* (buffer, len) := defined (ice_generate_candidate_sdp c buffer BUFFER_SIZE) in
  ret (if len <? 0 then None else Some (cstr buffer)).

(** The loop that pairs the new local candidate [l] with the remote ones. *)
Fixpoint pair_with_remotes (n i : nat) (l : nat) : A unit :=
  match n with
  | O => ret tt
  | S n' =>
    let* a := gets id in
    (if sa_family (addr (resolved (candidate_at (a_local a) l))) =?
        sa_family (addr (resolved (candidate_at (a_remote a) i)))
     then agent_add_candidate_pair (Some l) i ;; ret tt else ret tt) ;;
    pair_with_remotes n' (S i) l
  end.

Definition agent_add_local_relayed_candidate (record : addr_record) : A Z :=
  let* a := gets id in
  match ice_find_candidate_from_addr (a_local a) record ICE_CANDIDATE_TYPE_RELAYED with
  | Some _ => ret 0
  | None =>
    let '(candidate, result) :=
      ice_create_local_candidate ICE_CANDIDATE_TYPE_RELAYED 1 (candidates_count (a_local a)) record in
    if negb (result =? 0) then ret (-1)
    else
      let '(candidate, local', result) := ice_add_candidate candidate (a_local a) in
      if negb (result =? 0) then ret (-1)
      else
        modify (fun a => a <| a_local := local' |>) ;;
        let* text := generate_candidate candidate in
        match text with
        | None => ret (-1)
        | Some text =>
          let* n := gets (fun a => length (candidates (a_remote a))) in
          pair_with_remotes n 0 (pred (length (candidates local'))) ;;
          emit (Candidate text) ;;
          ret 0
        end
  end.

Definition agent_add_local_reflexive_candidate (t : ice_candidate_type) (record : addr_record) : A Z :=
  if negb (bool_decide (t = ICE_CANDIDATE_TYPE_SERVER_REFLEXIVE)) &&
     negb (bool_decide (t = ICE_CANDIDATE_TYPE_PEER_REFLEXIVE)) then ret (-1)
  else
    let* a := gets id in
    let family := sa_family (addr record) in
    match ice_find_candidate_from_addr (a_local a) record
            (if family =? AF_INET6 then ICE_CANDIDATE_TYPE_UNKNOWN else t) with
    | Some _ => ret 0
    | None =>
      let '(candidate, result) := ice_create_local_candidate t 1 (candidates_count (a_local a)) record in
      if negb (result =? 0) then ret (-1)
      else if bool_decide (type candidate = ICE_CANDIDATE_TYPE_PEER_REFLEXIVE) &&
              (MAX_PEER_REFLEXIVE_CANDIDATES_COUNT <=?
               ice_candidates_count (a_local a) ICE_CANDIDATE_TYPE_PEER_REFLEXIVE) then ret 0
      else
        let '(candidate, local', result) := ice_add_candidate candidate (a_local a) in
        if negb (result =? 0) then ret (-1)
        else
          modify (fun a => a <| a_local := local' |>) ;;
          let* text := generate_candidate candidate in
          match text with
          | None => ret (-1)
          | Some text =>
            (if negb (bool_decide (t = ICE_CANDIDATE_TYPE_PEER_REFLEXIVE)) then emit (Candidate text) else ret tt) ;;
            ret 0
          end
    end.

(** The candidate added last gets the priority of the message. *)
Definition set_last_priority (p : Z) (d : ice_description) : ice_description :=
  d <| candidates ::= alter (fun c => c <| Ice.priority := p |>) (pred (length (candidates d))) |>.

Definition agent_add_remote_reflexive_candidate (t : ice_candidate_type) (p : Z) (record : addr_record) : A Z :=
  if negb (bool_decide (t = ICE_CANDIDATE_TYPE_PEER_REFLEXIVE)) then ret (-1)
  else
    let* a := gets id in
    match ice_find_candidate_from_addr (a_remote a) record ICE_CANDIDATE_TYPE_UNKNOWN with
    | Some _ => ret 0
    | None =>
      let '(candidate, result) := ice_create_local_candidate t 1 (candidates_count (a_local a)) record in
      if negb (result =? 0) then ret (-1)
      else if MAX_PEER_REFLEXIVE_CANDIDATES_COUNT <=?
              ice_candidates_count (a_remote a) ICE_CANDIDATE_TYPE_PEER_REFLEXIVE then ret 0
      else
        let '(_, remote', result) := ice_add_candidate candidate (a_remote a) in
        if negb (result =? 0) then ret (-1)
        else
          modify (fun a => a <| a_remote := set_last_priority p remote' |>) ;;
          agent_add_candidate_pairs_for_remote (pred (length (candidates remote')))
    end.

(** ** Finding entries *)
Definition pair_is_relayed (a : juice_agent) (p : agent_pair) : bool :=
  match p_local p with
  | Some l => bool_decide (type (candidate_at (a_local a) l) = ICE_CANDIDATE_TYPE_RELAYED)
  | None => false
  end.

Definition pair_of (a : juice_agent) (e : agent_stun_entry) : option agent_pair :=
  let? k := e_pair e in candidate_pairs a !! k.

Definition entry_is_relayed (a : juice_agent) (e : agent_stun_entry) : bool :=
  match pair_of a e with
  | Some p => pair_is_relayed a p
  | None => false
  end.

(** An entry matches an address, directly or behind the relayed address. *)
Definition matches_record (a : juice_agent) (record : addr_record) (relayed : option addr_record)
    (e : agent_stun_entry) : bool :=
  match relayed with
  | Some rel =>
    entry_is_relayed a e &&
    match pair_of a e with
    | Some p => match p_local p with
                | Some l => addr_record_is_equal (resolved (candidate_at (a_local a) l)) rel true
                | None => false
                end
    | None => false
    end && addr_record_is_equal (e_record e) record true
  | None => negb (entry_is_relayed a e) && addr_record_is_equal (e_record e) record true
  end.

(** Results: an index, or the NULL of no match. *)
Fixpoint find_entry_from_transaction_id (n i : nat) (tid : list Z) : A (option nat) :=
  match n with
  | O => ret None
  | S n' =>
    let* e := get_entry i in
    if bool_decide (tid = e_transaction_id e) then ret (Some i)
    else
      match e_turn e with
      | None => find_entry_from_transaction_id n' (S i) tid
      | Some turn =>
        let* (found, map') := defined (turn_retrieve_transaction_id (turn_map_ turn) tid) in
        set_entry i (fun e => e <| e_turn := Some (turn <| turn_map_ := map' |>) |>) ;;
        match found with
        | Some _ => ret (Some i)
        | None => find_entry_from_transaction_id n' (S i) tid
        end
      end
  end.

Definition agent_find_entry_from_transaction_id (tid : list Z) : A (option nat) :=
  let* n := gets (fun a => length (a_entries a)) in
  find_entry_from_transaction_id n 0 tid.

Definition agent_find_entry_from_record (a : juice_agent) (record : addr_record) (relayed : option addr_record)
    : option nat :=
  let quick :=
    match selected_entry a with
    | Some i =>
      match a_entries a !! i with
      | Some e => match pair_of a e with
                  | Some p => if p_nominated p && matches_record a record relayed e then Some i else None
                  | None => None
                  end
      | None => None
      end
    | None => None
    end in
  match quick with
  | Some i => Some i
  | None =>
    let direct := find_index (matches_record a record relayed) (a_entries a) 0 in
    match relayed with
    | Some _ => direct
    | None =>
      let matching := List.find (fun k => match candidate_pairs a !! k with
                                     | Some p => negb (pair_is_relayed a p) &&
                                         addr_record_is_equal (resolved (candidate_at (a_remote a) (p_remote p))) record true
                                     | None => false
                                     end) (ordered_pairs a) in
      match matching with
      | Some k =>
        match find_index (fun e => bool_decide (e_pair e = Some k)) (a_entries a) 0 with
        | Some i => Some i
        | None => direct
        end
      | None => direct
      end
    end
  end.
End Agent.
