(* ===== verification/AgentOrder.v ===== *)
(** * The agent's order of pairs and its time slots

    [agent_update_ordered_pairs] leaves the pairs in the order of their priority,
    the highest first, equal ones as they were added; [agent_arm_transmission]
    finds a time at which no other entry transmits. *)

From S2P Require Import Prelude Machine Ice AgentState.
From stdpp Require Import list sorting.
#[local] Open Scope Z_scope.

(** ** The order *)
Section Order.
Context (f : nat -> Z).

Definition before (i j : nat) : Prop := f j < f i \/ (f i = f j /\ (i <= j)%nat).

#[export] Instance before_dec : RelDecision before.
Proof. intros i j. unfold before. apply _. Defined.
#[export] Instance before_trans : Transitive before.
Proof. intros i j k. unfold before. lia. Qed.
#[export] Instance before_antisymm : AntiSymm (=) before.
Proof. intros i j. unfold before. lia. Qed.
#[export] Instance before_total : Total before.
Proof. intros i j. unfold before. lia. Qed.

Lemma shift_perm p i l : shift_pairs f p i l ≡ₚ i :: l.
Proof.
  induction l as [|j l IH]; cbn [shift_pairs]; [done|]. case_test; [|done]. rewrite IH. apply Permutation_swap.
Qed.

(** The pairs placed so far, from the last to the first, all added before [i]. *)
Lemma shift_sorted i l : StronglySorted (flip before) l -> Forall (fun j => (j < i)%nat) l ->
  StronglySorted (flip before) (shift_pairs f (f i) i l).
Proof.
  induction 1 as [|j l Hs IH Hj]; intros Hi; cbn [shift_pairs]; [by repeat constructor|].
  apply Forall_cons_1 in Hi as [Hji Hi]. case_test; zify_bool.
  - constructor; [by apply IH|]. rewrite shift_perm. constructor; [|done]. unfold flip, before. lia.
  - constructor; [by constructor|]. constructor; [unfold flip, before; lia|].
    apply (list.Forall_impl _ _ _ Hj). unfold flip, before. intros k. lia.
Qed.

Lemma sorted_rev l : StronglySorted (flip before) l -> StronglySorted before (rev l).
Proof.
  induction 1 as [|j l Hs IH Hj]; cbn [rev]; [constructor|].
  apply StronglySorted_app. split_and!; [|done|by repeat constructor].
  intros x y Hx Hy. apply list_elem_of_singleton in Hy as ->. rewrite list.Forall_forall in Hj. apply (Hj x).
  apply list_elem_of_In, in_rev, list_elem_of_In. done.
Qed.

Lemma order_pairs_spec n i done_ : StronglySorted (flip before) done_ -> done_ ≡ₚ seq 0 i ->
  StronglySorted before (order_pairs f n i done_) /\ order_pairs f n i done_ ≡ₚ seq 0 (i + n).
Proof.
  revert i done_. induction n as [|n IH]; intros i l Hs Hp; cbn [order_pairs].
  { rewrite Nat.add_0_r. split; [by apply sorted_rev|]. by rewrite <- Permutation_rev. }
  rewrite Nat.add_succ_r, <- Nat.add_succ_l. apply IH.
  - apply shift_sorted; [done|]. rewrite Hp. apply list.Forall_forall. intros j Hj. apply elem_of_seq in Hj. lia.
  - rewrite shift_perm, Hp, seq_S, Nat.add_0_l. rewrite Permutation_app_comm. done.
Qed.

Lemma order_sorted n : StronglySorted before (order_pairs f n 0 []).
Proof. apply (order_pairs_spec n 0 []); [constructor|done]. Qed.

Lemma order_perm n : order_pairs f n 0 [] ≡ₚ seq 0 n.
Proof. apply (order_pairs_spec n 0 []); [constructor|done]. Qed.

(** The insertion sort is the reference sort. *)
Lemma order_reference n : order_pairs f n 0 [] = merge_sort before (seq 0 n).
Proof.
  apply (StronglySorted_unique before).
  - apply order_sorted.
  - apply StronglySorted_merge_sort; apply _.
  - rewrite order_perm. symmetry. apply merge_sort_Permutation.
Qed.
End Order.

Lemma order_pairs_ext f g n i l : (forall j, (j < i + n)%nat -> f j = g j) -> Forall (fun j => (j < i)%nat) l ->
  order_pairs f n i l = order_pairs g n i l.
Proof.
  revert i l. induction n as [|n IH]; intros i l Hfg Hl; cbn [order_pairs]; [done|].
  assert (shift_pairs f (f i) i l = shift_pairs g (g i) i l) as ->.
  { rewrite <- (Hfg i) by lia. clear IH. induction Hl as [|j l Hj Hl IH]; cbn [shift_pairs]; [done|].
    rewrite <- (Hfg j) by lia. by rewrite IH. }
  apply IH; [intros j Hj; apply Hfg; lia|]. rewrite shift_perm. constructor; [lia|].
  apply (list.Forall_impl _ _ _ Hl). lia.
Qed.

(** ** Time slots *)
Lemma filter_length_le {T} (P Q : T -> bool) (l : list T) : (forall x, Q x = true -> P x = true) ->
  (length (List.filter Q l) <= length (List.filter P l))%nat.
Proof.
  intros HQ. induction l as [|x l IH]; cbn [List.filter]; [done|].
  destruct (Q x) eqn:Eq; [rewrite (HQ x Eq); cbn; lia|]. destruct (P x); cbn; lia.
Qed.

Lemma filter_length_lt {T} (P Q : T -> bool) (l : list T) x : (forall x, Q x = true -> P x = true) ->
  x ∈ l -> P x = true -> Q x = false -> (length (List.filter Q l) < length (List.filter P l))%nat.
Proof.
  intros HQ Hx HP Hn. induction Hx as [x l|x y l Hx IH]; cbn [List.filter].
  - rewrite HP, Hn. pose proof (filter_length_le P Q l HQ). cbn. lia.
  - specialize (IH HP Hn). destruct (Q y) eqn:Eq; [rewrite (HQ y Eq); cbn; lia|]. destruct (P y); cbn; lia.
Qed.

(** Entry [o], not the one to be scheduled, is due. *)
Definition due (es : list agent_stun_entry) (i j : nat) : option Z :=
  match es !! j with
  | Some o => if (j =? i)%nat || (e_next_transmission o =? 0) then None else Some (e_next_transmission o)
  | None => None
  end.

(** No other entry is due within the pacing time of [t]. *)
Definition free_at (es : list agent_stun_entry) (i : nat) (t : Z) : Prop :=
  forall j d, due es i j = Some d -> STUN_PACING_TIME <= Z.abs (t - d).

Definition ahead (es : list agent_stun_entry) (i : nat) (t : Z) : nat :=
  length (List.filter (fun j => match due es i j with Some d => t <? d + STUN_PACING_TIME | None => false end)
            (seq 0 (length es))).

Lemma ahead_le es i t : (ahead es i t <= length es)%nat.
Proof. unfold ahead. rewrite List.filter_length_le. by rewrite length_seq. Qed.

Lemma ahead_lt es i t j d : due es i j = Some d -> t < d + STUN_PACING_TIME ->
  (ahead es i (d + STUN_PACING_TIME) < ahead es i t)%nat.
Proof.
  intros Hd Ht. apply (filter_length_lt _ _ _ j).
  - intros k. destruct (due es i k); [|done]. intros Hk. zify_bool. lia.
  - apply elem_of_seq. unfold due in Hd. destruct (es !! j) eqn:E; [|done]. apply lookup_lt_Some in E. lia.
  - rewrite Hd. by apply Z.ltb_lt.
  - rewrite Hd. apply Z.ltb_irrefl.
Qed.


Lemma too_close_spec d : Z.abs d < 2 ^ 31 -> too_close d = Some (Z.abs d <? STUN_PACING_TIME).
Proof.
  intros Hd. unfold too_close. rewrite s32_small by lia. by rewrite (proj2 (Z.eqb_neq _ _)) by lia.
Qed.

Lemma find_slot_spec es i t other fuel B :
  (forall j d, due es i j = Some d -> 0 <= d <= B) -> 0 <= t -> t + 100 * Z.of_nat (ahead es i t) < 2 ^ 31 -> B < 2 ^ 31 ->
  (forall j d, (j < other)%nat -> due es i j = Some d -> STUN_PACING_TIME <= Z.abs (t - d)) ->
  (other <= length es)%nat -> (ahead es i t * S (length es) + (length es - other) < fuel)%nat ->
  exists t', find_slot fuel es i t other = Some t' /\ t <= t' <= t + 100 * Z.of_nat (ahead es i t) /\ free_at es i t'.
Proof.
  intros Hdue Ht Hmax HB. revert t other Ht Hmax. induction fuel as [|fuel IH]; intros t other Ht Hmax Hfree Hlen Hfuel; [lia|].
  cbn [find_slot]. destruct (es !! other) as [o|] eqn:Eo.
  2: { exists t. split; [done|]. split; [lia|]. intros j d Hd. apply (Hfree j d); [|done].
       apply lookup_ge_None in Eo. unfold due in Hd. destruct (es !! j) eqn:Ej; [|done]. apply lookup_lt_Some in Ej. lia. }
  pose proof (lookup_lt_Some _ _ _ Eo) as Hlt.
  assert (next : forall d, due es i other = d -> (forall d', d = Some d' -> STUN_PACING_TIME <= Z.abs (t - d')) ->
    exists t', find_slot fuel es i t (S other) = Some t' /\ t <= t' <= t + 100 * Z.of_nat (ahead es i t) /\ free_at es i t').
  { intros d Hd Hfar. apply IH; [done|done| |lia|lia]. intros j d' Hj Hd'.
    destruct (decide (j = other)) as [->|]; [|by apply (Hfree j); [lia|]]. apply Hfar. congruence. }
  assert (Ed : due es i other = if (other =? i)%nat || (e_next_transmission o =? 0) then None else Some (e_next_transmission o))
    by (unfold due; by rewrite Eo).
  destruct (other =? i)%nat eqn:Ei; [cbn in Ed; by apply (next _ Ed)|]. cbn [orb] in Ed.
  destruct (e_next_transmission o =? 0) eqn:E0; [by apply (next _ Ed)|].
  pose proof (Hdue _ _ Ed) as Hd. rewrite too_close_spec by lia. cbn [obind].
  destruct (Z.abs _ <? _) eqn:Ec; zify_bool; [|apply (next _ Ed); by intros d' [= <-]].
  pose proof (ahead_lt es i t other _ Ed ltac:(unfold STUN_PACING_TIME in *; lia)) as Ha.
  assert ((ahead es i (e_next_transmission o + STUN_PACING_TIME) + 1) * S (length es) <= ahead es i t * S (length es))%nat
    by (apply Nat.mul_le_mono_r; lia).
  unfold STUN_PACING_TIME in *.
  destruct (IH (e_next_transmission o + 50) 0%nat) as (t' & -> & Hr & Hf); [lia|lia|intros j d; lia|lia|lia|].
  exists t'. split; [done|]. split; [lia|done].
Qed.

(** The fuel of [agent_arm_transmission] is enough. *)
Lemma find_slot_total es i t B :
  (forall j d, due es i j = Some d -> 0 <= d <= B) -> 0 <= t -> t + 100 * lenZ es < 2 ^ 31 -> B < 2 ^ 31 ->
  exists t', find_slot (S (length es) * S (length es)) es i t 0 = Some t' /\ t <= t' <= t + 100 * lenZ es /\ free_at es i t'.
Proof.
  intros Hdue Ht Hmax HB. pose proof (ahead_le es i t) as Ha.
  destruct (find_slot_spec es i t 0 (S (length es) * S (length es)) B) as (t' & E & Hr & Hf);
    [done|done|unfold lenZ in *; lia|done|lia|lia|nia|].
  exists t'. split; [done|]. split; [unfold lenZ; lia|done].
Qed.
