(* ===== verification/Agent.v ===== *)
(** * agent.c: messages, bookkeeping and the calls of the application

    Functions on the state of AgentState.  [agent_input] is called back on the
    contents of Data indications and ChannelData; its fuel is one more than the
    length of the datagram. *)

From Stdlib Require Import Strings.String.
From S2P Require Import Prelude Machine CStdio Addr.
From S2P Require Import StunMsg StunWrite StunRead Turn Ice AgentState.

#[local] Open Scope machine_scope.

Section Agent.
Context `{Platform, Scan, Resolver, Hashes, AgentEnvironment}.

(** ** Sending *)
Definition agent_direct_send (dst : addr_record) (data : list Z) (ds : Z) : A Z :=
  emit (SentTo dst data ds) ;; ask conn_send_result.

(** [stun_write] into a local buffer, its result [stored] into a variable: the
    text of the message; [None] is the error. *)
Definition write_message_as (stored : Z -> Z) (msg : stun_message) (password : option (list Z)) : A (option (list Z)) :=
  let* buffer := ask buffer_of in
  let* rest := ask never_set in
  let* (buffer, size) := defined (stun_write BUFFER_SIZE msg password rest buffer) in
  let size := stored size in
  if size <=? 0 then ret None
  else let* data := defined (load 0 size buffer) in ret (Some data).

(** The variable is an [int]. *)
Definition write_message : stun_message -> option (list Z) -> A (option (list Z)) := write_message_as id.

(** Send a message to an entry's address; the returned value. *)
Definition send_message (dst : addr_record) (msg : stun_message) (password : option (list Z)) (ds : Z) : A Z :=
  let* data := write_message msg password in
  match data with
  | None => ret (-1)
  | Some data =>
    let* sent := agent_direct_send dst data ds in
    ret (if sent <? 0 then -1 else 0)
  end.

Definition set_turn (i : nat) (t : agent_turn_state) : A unit := set_entry i (fun e => e <| e_turn := Some t |>).

(** The credentials of the TURN server are known. *)
Definition knows_server (c : stun_credentials) : bool := is_cons (realm c) && is_cons (nonce c).

(** *** TURN requests *)
Definition agent_send_turn_allocate_request (i : nat) (method : Z) : A Z :=
  if negb (method =? STUN_METHOD_ALLOCATE) && negb (method =? STUN_METHOD_REFRESH) then ret (-1)
  else
    let* e := get_entry i in
    if negb (is_etype AGENT_STUN_ENTRY_TYPE_RELAY e) then ret (-1)
    else match e_turn e with
    | None => ret (-1)
    | Some turn =>
      let msg := stun_message_zero <| msg_class := STUN_CLASS_REQUEST |> <| msg_method := method |>
                   <| transaction_id := e_transaction_id e |> <| lifetime := TURN_LIFETIME / 1000 |> in
      let msg := if method =? STUN_METHOD_ALLOCATE then msg <| requested_transport := true |> else msg in
      let '(msg, password) :=
        if is_cons (nonce (turn_credentials turn))
        then (msg <| credentials := turn_credentials turn |>, Some (turn_password turn)) else (msg, None) in
      send_message (e_record e) msg password 0
    end.

Definition agent_send_turn_create_permission_request (i : nat) (record : addr_record) (ds : Z) : A Z :=
  let* e := get_entry i in
  if negb (is_etype AGENT_STUN_ENTRY_TYPE_RELAY e) then ret (-1)
  else match e_turn e with
  | None => ret (-1)
  | Some turn =>
    if negb (knows_server (turn_credentials turn)) then ret (-1)
    else
      let* draws := ask random_ids in
      let* (tid, map') := defined (turn_set_random_permission_transaction_id (turn_map_ turn) record draws) in
      set_turn i (turn <| turn_map_ := map' |>) ;;
      match tid with
      | None => ret (-1)
      | Some tid =>
        let msg := stun_message_zero <| msg_class := STUN_CLASS_REQUEST |>
                     <| msg_method := STUN_METHOD_CREATE_PERMISSION |> <| transaction_id := tid |>
                     <| credentials := turn_credentials turn |> <| peers := [record] |> in
        send_message (e_record e) msg (Some (turn_password turn)) ds
      end
  end.

(** The returned value and the channel, when it is set. *)
Definition agent_send_turn_channel_bind_request (i : nat) (record : addr_record) (ds : Z) : A (Z * option Z) :=
  let* e := get_entry i in
  if negb (is_etype AGENT_STUN_ENTRY_TYPE_RELAY e) then ret (-1, None)
  else match e_turn e with
  | None => ret (-1, None)
  | Some turn =>
    if negb (knows_server (turn_credentials turn)) then ret (-1, None)
    else
      let* known := defined (turn_get_channel (turn_map_ turn) record) in
      let* (channel, map') :=
        match known with
        | Some c => ret (Some c, turn_map_ turn)
        | None =>
          let* now := ask now_ms in
          let* draws := ask random_channels in
          defined (turn_bind_random_channel now (turn_map_ turn) (Some record) draws 0)
        end in
      set_turn i (turn <| turn_map_ := map' |>) ;;
      match channel with
      | None => ret (-1, None)
      | Some channel =>
        let* draws := ask random_ids in
        let* (tid, map'') := defined (turn_set_random_channel_transaction_id map' record draws) in
        set_turn i (turn <| turn_map_ := map'' |>) ;;
        match tid with
        | None => ret (-1, None)
        | Some tid =>
          let msg := stun_message_zero <| msg_class := STUN_CLASS_REQUEST |>
                       <| msg_method := STUN_METHOD_CHANNEL_BIND |> <| transaction_id := tid |>
                       <| credentials := turn_credentials turn |> <| channel_number := channel |>
                       <| peers := [record] |> in
          let* result := send_message (e_record e) msg (Some (turn_password turn)) ds in
          ret (result, Some channel)
        end
      end
  end.

(** *** Data *)
(** The result of [stun_write] is stored into a [size_t], whose test does not
    see an error. *)
Definition agent_relay_send (i : nat) (dst : addr_record) (payload : list Z) (ds : Z) : A Z :=
  let* e := get_entry i in
  match e_turn e with
  | None => ret (-1)
  | Some turn =>
    let* now := ask now_ms in
    let* permitted := defined (turn_has_permission now (turn_map_ turn) dst) in
    let* result := (if permitted : bool then ret 0 else agent_send_turn_create_permission_request i dst ds) in
    if negb (result =? 0) then ret (-1)
    else
      let* tid := ask (fun n => random_of n STUN_TRANSACTION_ID_SIZE) in
      let msg := stun_message_zero <| msg_class := STUN_CLASS_INDICATION |> <| msg_method := STUN_METHOD_SEND |>
                   <| transaction_id := tid |> <| peers := [dst] |> <| data := Some payload |>
                   <| data_size := lenZ payload |> in
      let* text := write_message_as size_t msg None in
      match text with
      | None => ret (-1)
      | Some text => agent_direct_send (e_record e) text ds
      end
  end.

Definition agent_channel_send (i : nat) (record : addr_record) (payload : list Z) (ds : Z) : A Z :=
  let* e := get_entry i in
  match e_turn e with
  | None => ret (-1)
  | Some turn =>
    let* now := ask now_ms in
    let* bound := defined (turn_get_bound_channel now (turn_map_ turn) record) in
    let* (result, channel) :=
      match bound with
      | Some c => ret (0, Some c)
      | None => agent_send_turn_channel_bind_request i record ds
      end in
    if result <? 0 then ret (-1)
    else
      let* channel := defined channel in
      let* buffer := ask buffer_of in
      let* (buffer, len) := defined (turn_wrap_channel_data buffer BUFFER_SIZE payload channel) in
      if len <=? 0 then ret (-1)
      else
        let* text := defined (load 0 len buffer) in
        agent_direct_send (e_record e) text ds
  end.

Definition agent_send (payload : list Z) (ds : Z) : A Z :=
  let* a := gets id in
  match selected_entry a with
  | None => ret (-1)
  | Some i =>
    let* e := get_entry i in
    match e_relay_entry e with
    | Some r => agent_channel_send r (e_record e) payload ds
    | None => agent_direct_send (e_record e) payload ds
    end
  end.

(** *** Binding messages *)

(** What a check's message carries besides class, method and identifier; its
    password.  [None]: the request is dropped. *)
Definition binding_fields (a : juice_agent) (e : agent_stun_entry) (class code : Z) (mapped_ : option addr_record)
    (msg : stun_message) : option (stun_message * option (list Z)) :=
  if negb (is_etype AGENT_STUN_ENTRY_TYPE_CHECK e) then Some (msg, None)
  else if class =? STUN_CLASS_REQUEST then
    if negb (is_cons (ice_ufrag (a_remote a))) || negb (is_cons (ice_pwd (a_remote a))) then None
    else
      let p := pair_of a e in
      let index := match p with Some p => match p_local p with Some l => Z.of_nat l | None => 0 end | None => 0 end in
      let nominate := match p with Some p => p_nomination_requested p && negb (p_nominated p) | None => false end in
      Some (msg <| credentials ::= fun c => c <| username :=
                     snprintf_clip STUN_MAX_USERNAME_LEN (ice_ufrag (a_remote a) ++ lit ":" ++ ice_ufrag (a_local a)) |> |>
              <| ice_controlling := if controlling a then ice_tiebreaker a else 0 |>
              <| ice_controlled := if bool_decide (a_mode a = AGENT_MODE_CONTROLLED) then ice_tiebreaker a else 0 |>
              <| StunMsg.priority := ice_compute_priority ICE_CANDIDATE_TYPE_PEER_REFLEXIVE (sa_family (addr (e_record e))) 1 index |>
              <| use_candidate := controlling a && nominate |>,
            Some (ice_pwd (a_remote a)))
  else if (class =? STUN_CLASS_RESP_SUCCESS) || (class =? STUN_CLASS_RESP_ERROR) then
    Some (msg <| error_code := code |> <| mapped := default (mapped msg) mapped_ |>, Some (ice_pwd (a_local a)))
  else Some (msg, None).

Definition agent_send_stun_binding (i : nat) (class code : Z) (tid : option (list Z)) (mapped_ : option addr_record)
    : A Z :=
  if ((class =? STUN_CLASS_RESP_SUCCESS) || (class =? STUN_CLASS_RESP_ERROR)) && bool_decide (tid = None) then ret (-1)
  else
    let* e := get_entry i in
    let* tid := match tid with
                | Some tid => ret tid
                | None => if class =? STUN_CLASS_INDICATION then ask (fun n => random_of n STUN_TRANSACTION_ID_SIZE)
                          else ret (e_transaction_id e)
                end in
    let* a := gets id in
    let msg := stun_message_zero <| msg_class := class |> <| msg_method := STUN_METHOD_BINDING |>
                 <| transaction_id := tid |> in
    match binding_fields a e class code mapped_ msg with
    | None => ret 0
    | Some (msg, password) =>
      (if is_etype AGENT_STUN_ENTRY_TYPE_CHECK e && (class =? STUN_CLASS_REQUEST)
       then set_entry i (fun e => e <| e_mode := a_mode a |>) else ret tt) ;;
      let* text := write_message msg password in
      match text with
      | None => ret (-1)
      | Some text =>
        match e_relay_entry e with
        | Some r =>
          let* result := (if match pair_of a e with Some p => p_nominated p | None => false end
                          then agent_channel_send r (e_record e) text 0
                          else agent_relay_send r (e_record e) text 0) in
          ret (if result <? 0 then -1 else 0)
        | None =>
          let* result := agent_direct_send (e_record e) text 0 in
          ret (if result <? 0 then -1 else 0)
        end
      end
    end.

(** ** Receiving *)

(** The username up to the separator and behind it. *)
Fixpoint split_username (s : list Z) : option (list Z * list Z) :=
  match s with
  | [] => None
  | c :: s' => if c =? 58 then Some ([], s') else let? (l, r) := split_username s' in Some (c :: l, r)
  end.

Definition agent_verify_stun_binding (a : juice_agent) (buf : list Z) (size : Z) (msg : stun_message) : option Z :=
  if negb (msg_method msg =? STUN_METHOD_BINDING) then Some (-1)
  else if (msg_class msg =? STUN_CLASS_INDICATION) || (msg_class msg =? STUN_CLASS_RESP_ERROR) then Some 0
  else if negb (has_integrity msg) then Some (-1)
  else
    let known :=
      if msg_class msg =? STUN_CLASS_REQUEST then
        match split_username (username (credentials msg)) with
        | None => false
        | Some (local_ufrag, remote_ufrag) =>
          bool_decide (local_ufrag = ice_ufrag (a_local a)) &&
          negb (is_cons (ice_ufrag (a_remote a)) && negb (bool_decide (remote_ufrag = ice_ufrag (a_remote a))))
        end
      else true in
    if negb known then Some (-1)
    else
      let password := if msg_class msg =? STUN_CLASS_REQUEST then ice_pwd (a_local a) else ice_pwd (a_remote a) in
      if negb (is_cons password) then Some (-1)
      else
        let? (_, ok) := stun_check_integrity buf size msg password in
        Some (if ok : bool then 0 else -1).

(** The message, whose credentials are filled in, and the returned value. *)
Definition agent_verify_credentials (e : agent_stun_entry) (buf : list Z) (size : Z) (msg : stun_message)
    : option (stun_message * Z) :=
  if (msg_class msg =? STUN_CLASS_INDICATION) ||
     ((msg_class msg =? STUN_CLASS_RESP_ERROR) && negb (error_code msg =? 400)) then Some (msg, 0)
  else if negb (has_integrity msg) then Some (msg, -1)
  else match e_turn e with
  | None => Some (msg, -1)
  | Some turn =>
    let c := turn_credentials turn in
    let msg := msg <| credentials ::= fun m => m <| realm := realm c |> <| nonce := nonce c |> <| username := username c |> |> in
    let? (_, ok) := stun_check_integrity buf size msg (turn_password turn) in
    Some (msg, if ok : bool then 0 else -1)
  end.

(** *** Binding *)
Definition switch_mode (mode : agent_mode) : A unit :=
  modify (fun a => a <| a_mode := mode |>) ;; agent_update_candidate_pairs.

Definition process_binding_request (msg : stun_message) (i : nat) (src : addr_record) : A Z :=
  let* e := get_entry i in
  let refuse code := agent_send_stun_binding i STUN_CLASS_RESP_ERROR code (Some (transaction_id msg)) None in
  if negb (is_etype AGENT_STUN_ENTRY_TYPE_CHECK e) then ret (-1)
  else if ice_controlling msg =? ice_controlled msg then refuse 400 ;; ret (-1)
  else
    let* a := gets id in
    if controlling a && negb (ice_controlling msg =? 0) then
      (if ice_controlling msg <=? ice_tiebreaker a then refuse 487 ;; ret tt
       else switch_mode AGENT_MODE_CONTROLLED) ;;
      ret 0
    else if bool_decide (a_mode a = AGENT_MODE_CONTROLLED) && negb (ice_controlled msg =? 0) then
      (if ice_controlling msg <=? ice_tiebreaker a then switch_mode AGENT_MODE_CONTROLLING
       else refuse 487 ;; ret tt) ;;
      ret 0
    else
      let* k := defined (e_pair e) in
      if use_candidate msg && (ice_controlling msg =? 0) then refuse 400 ;; ret (-1)
      else
        (if use_candidate msg then
           let* p := get_pair k in
           if is_pstate ICE_CANDIDATE_PAIR_STATE_SUCCEEDED p then set_pair k (fun p => p <| p_nominated := true |>)
           else if negb (p_nomination_requested p) then set_pair k (fun p => p <| p_nomination_requested := true |>)
           else ret tt
         else ret tt) ;;
        let* result := agent_send_stun_binding i STUN_CLASS_RESP_SUCCESS 0 (Some (transaction_id msg)) (Some src) in
        if negb (result =? 0) then ret (-1)
        else
          let* p := get_pair k in
          let* a := gets id in
          (if negb (is_pstate ICE_CANDIDATE_PAIR_STATE_SUCCEEDED p) && is_cons (ice_ufrag (a_remote a)) then
             set_pair k (fun p => p <| p_state := ICE_CANDIDATE_PAIR_STATE_PENDING |>) ;;
             set_entry i (fun e => e <| e_state := AGENT_STUN_ENTRY_STATE_PENDING |>) ;;
             agent_arm_transmission i STUN_PACING_TIME
           else ret tt) ;;
          ret 0.

Definition fail_entry (i : nat) : A unit :=
  set_entry i (fun e => e <| e_state := AGENT_STUN_ENTRY_STATE_FAILED |> <| e_next_transmission := 0 |>).

(** The successful check of the pair [k] of entry [i]. *)
Definition check_succeeded (msg : stun_message) (i k : nat) (src : addr_record) : A Z :=
  let* e := get_entry i in
  let* p := get_pair k in
  if negb (is_pstate ICE_CANDIDATE_PAIR_STATE_SUCCEEDED p) && negb (addr_record_is_equal src (e_record e) true) then
    fail_entry i ;;
    set_pair k (fun p => p <| p_state := ICE_CANDIDATE_PAIR_STATE_FAILED |>) ;;
    ret 0
  else
    set_pair k (fun p => p <| p_state := ICE_CANDIDATE_PAIR_STATE_SUCCEEDED |>) ;;
    let* a := gets id in
    (if bool_decide (p_local p = None) && negb (len (mapped msg) =? 0) then
       set_pair k (fun p => p <| p_local :=
         ice_find_candidate_from_addr (a_local a) (mapped msg) ICE_CANDIDATE_TYPE_UNKNOWN |>)
     else ret tt) ;;
    let* now := ask now_ms in
    set_pair k (fun p => p <| p_consent_expiry := now + CONSENT_TIMEOUT |>) ;;
    let* p := get_pair k in
    (if p_nomination_requested p then set_pair k (fun p => p <| p_nominated := true |>) else ret tt) ;;
    ret 0.

(** A response says that the transaction of entry [i] has succeeded: keepalives
    are on until a pair is settled. *)
Definition entry_succeeded (i : nat) : A unit :=
  let* e := get_entry i in
  (if negb (is_estate AGENT_STUN_ENTRY_STATE_SUCCEEDED_KEEPALIVE e) then
     set_entry i (fun e => e <| e_state := AGENT_STUN_ENTRY_STATE_SUCCEEDED |> <| e_next_transmission := 0 |>)
   else ret tt) ;;
  let* a := gets id in
  (if negb (settled a) then
     set_entry i (fun e => e <| e_state := AGENT_STUN_ENTRY_STATE_SUCCEEDED_KEEPALIVE |>) ;; agent_arm_keepalive i
   else ret tt).

Definition process_binding_success (msg : stun_message) (i : nat) (src : addr_record) (behind : option addr_record) : A Z :=
  let* e := get_entry i in
  entry_succeeded i ;;
  (if negb (len (mapped msg) =? 0) && bool_decide (behind = None) then
     agent_add_local_reflexive_candidate
       (if is_etype AGENT_STUN_ENTRY_TYPE_CHECK e then ICE_CANDIDATE_TYPE_PEER_REFLEXIVE
        else ICE_CANDIDATE_TYPE_SERVER_REFLEXIVE) (mapped msg) ;; ret tt
   else ret tt) ;;
  match e_type e with
  | AGENT_STUN_ENTRY_TYPE_CHECK =>
    match e_pair e with
    | None => ret (-1)
    | Some k => check_succeeded msg i k src
    end
  | AGENT_STUN_ENTRY_TYPE_SERVER => agent_update_gathering_done ;; ret 0
  | _ => ret 0
  end.

Definition process_binding_error (msg : stun_message) (i : nat) : A Z :=
  let* e := get_entry i in
  match e_type e with
  | AGENT_STUN_ENTRY_TYPE_CHECK =>
    if error_code msg =? 487 then
      let* a := gets id in
      if bool_decide (e_mode e = a_mode a) then
        modify (fun a => a <| a_mode := if bool_decide (e_mode e = AGENT_MODE_CONTROLLING) then AGENT_MODE_CONTROLLED
                                        else AGENT_MODE_CONTROLLING |>) ;;
        let* tiebreaker := ask (fun n => le_word (random_of n 8)) in
        modify (fun a => a <| ice_tiebreaker := tiebreaker |>) ;;
        agent_update_candidate_pairs ;;
        (if negb (is_estate AGENT_STUN_ENTRY_STATE_IDLE e) then
           set_entry i (fun e => e <| e_state := AGENT_STUN_ENTRY_STATE_PENDING |>) ;; agent_arm_transmission i 0
         else ret tt) ;;
        ret 0
      else ret 0
    else
      fail_entry i ;;
      match e_pair e with
      | Some k => set_pair k (fun p => p <| p_state := ICE_CANDIDATE_PAIR_STATE_FAILED |>)
      | None => ret tt
      end ;;
      ret 0
  | AGENT_STUN_ENTRY_TYPE_SERVER =>
    set_entry i (fun e => e <| e_state := AGENT_STUN_ENTRY_STATE_FAILED |>) ;; agent_update_gathering_done ;; ret 0
  | _ => ret 0
  end.

Definition agent_process_stun_binding (msg : stun_message) (i : nat) (src : addr_record) (behind : option addr_record)
    : A Z :=
  if msg_class msg =? STUN_CLASS_REQUEST then process_binding_request msg i src
  else if msg_class msg =? STUN_CLASS_RESP_SUCCESS then process_binding_success msg i src behind
  else if msg_class msg =? STUN_CLASS_RESP_ERROR then process_binding_error msg i
  else if msg_class msg =? STUN_CLASS_INDICATION then ret 0
  else ret (-1).

(** *** TURN *)

(** The allocation of entry [i] has failed. *)
Definition allocation_failed (i : nat) : A unit :=
  set_entry i (fun e => e <| e_state := AGENT_STUN_ENTRY_STATE_FAILED |>) ;; agent_update_gathering_done.

Definition process_allocate_success (msg : stun_message) (i : nat) : A Z :=
  let* e := get_entry i in
  if msg_method msg =? STUN_METHOD_REFRESH then ret 0
  else if len (relayed msg) =? 0 then
    set_entry i (fun e => e <| e_state := AGENT_STUN_ENTRY_STATE_FAILED |>) ;; ret (-1)
  else
    entry_succeeded i ;;
    (if negb (len (mapped msg) =? 0) then
       agent_add_local_reflexive_candidate ICE_CANDIDATE_TYPE_SERVER_REFLEXIVE (mapped msg) ;; ret tt
     else ret tt) ;;
    set_entry i (fun e => e <| e_relayed := relayed msg |>) ;;
    let* result := agent_add_local_relayed_candidate (relayed msg) in
    if negb (result =? 0) then ret (-1)
    else agent_update_gathering_done ;; ret 0.

(** New credentials from an error response, and another attempt. *)
Definition retry_with (msg : stun_message) (i : nat) (turn : agent_turn_state) : A Z :=
  if negb (is_cons (realm (credentials msg))) || negb (is_cons (nonce (credentials msg))) then
    allocation_failed i ;; ret (-1)
  else
    set_turn i (turn <| turn_credentials := stun_process_credentials (credentials msg) (turn_credentials turn) |>) ;;
    agent_arm_transmission i 0 ;;
    ret 0.

Definition process_allocate_error (msg : stun_message) (i : nat) (turn : agent_turn_state) : A Z :=
  if error_code msg =? 401 then
    if is_cons (realm (turn_credentials turn)) then allocation_failed i ;; ret (-1)
    else retry_with msg i turn
  else if error_code msg =? 438 then retry_with msg i turn
  else if (msg_method msg =? STUN_METHOD_ALLOCATE) && (error_code msg =? 300) then
    let* e := get_entry i in
    if (len (alternate_server msg) =? 0) || addr_record_is_equal (alternate_server msg) (e_record e) true
    then allocation_failed i ;; ret (-1)
    else if MAX_TURN_REDIRECTIONS <=? e_turn_redirections e then allocation_failed i ;; ret (-1)
    else
      set_entry i (fun e => e <| e_turn_redirections ::= Z.succ |> <| e_record := alternate_server msg |>) ;;
      agent_arm_transmission i 0 ;;
      ret 0
  else allocation_failed i ;; ret 0.

Definition agent_process_turn_allocate (msg : stun_message) (i : nat) : A Z :=
  if negb (msg_method msg =? STUN_METHOD_ALLOCATE) && negb (msg_method msg =? STUN_METHOD_REFRESH) then ret (-1)
  else
    let* e := get_entry i in
    if negb (is_etype AGENT_STUN_ENTRY_TYPE_RELAY e) then ret (-1)
    else match e_turn e with
    | None => ret (-1)
    | Some turn =>
      if msg_class msg =? STUN_CLASS_RESP_SUCCESS then process_allocate_success msg i
      else if msg_class msg =? STUN_CLASS_RESP_ERROR then process_allocate_error msg i turn
      else ret (-1)
    end.

(** CreatePermission and ChannelBind: what a success does to the map, and how a
    request is sent again. *)
Definition process_turn_response (msg : stun_message) (i : nat)
    (succeed : Z -> turn_map -> option (bool * turn_map)) (resend : addr_record -> A unit) : A Z :=
  let* e := get_entry i in
  if negb (is_etype AGENT_STUN_ENTRY_TYPE_RELAY e) then ret (-1)
  else match e_turn e with
  | None => ret (-1)
  | Some turn =>
    if msg_class msg =? STUN_CLASS_RESP_SUCCESS then
      let* now := ask now_ms in
      let* (_, map') := defined (succeed now (turn_map_ turn)) in
      set_turn i (turn <| turn_map_ := map' |>) ;;
      ret 0
    else if msg_class msg =? STUN_CLASS_RESP_ERROR then
      if error_code msg =? 438 then
        if negb (is_cons (realm (credentials msg))) || negb (is_cons (nonce (credentials msg))) then ret (-1)
        else
          let turn := turn <| turn_credentials := stun_process_credentials (credentials msg) (turn_credentials turn) |> in
          let* (record, map') := defined (turn_retrieve_transaction_id (turn_map_ turn) (transaction_id msg)) in
          set_turn i (turn <| turn_map_ := map' |>) ;;
          match record with
          | Some record => resend record
          | None => ret tt
          end ;;
          ret 0
      else ret 0
    else ret (-1)
  end.

Definition agent_process_turn_create_permission (msg : stun_message) (i : nat) : A Z :=
  process_turn_response msg i
    (fun now map_ => turn_set_permission now map_ (transaction_id msg) None (PERMISSION_LIFETIME / 2))
    (fun record => agent_send_turn_create_permission_request i record 0 ;; ret tt).

Definition agent_process_turn_channel_bind (msg : stun_message) (i : nat) : A Z :=
  process_turn_response msg i
    (fun now map_ => turn_bind_current_channel now map_ (transaction_id msg) None (BIND_LIFETIME / 2))
    (fun record => agent_send_turn_channel_bind_request i record 0 ;; ret tt).

(** *** Dispatch *)
Definition find_entry_for (msg : stun_message) (src : addr_record) (behind : option addr_record) : A (option nat) :=
  if STUN_IS_RESPONSE (msg_class msg) then agent_find_entry_from_transaction_id (transaction_id msg)
  else gets (fun a => agent_find_entry_from_record a src behind).

(** [input] is [agent_input] on what a relay delivers. *)
Definition agent_process_turn_data (input : list Z -> Z -> addr_record -> option addr_record -> A Z)
    (msg : stun_message) (i : nat) : A Z :=
  let* e := get_entry i in
  if negb (is_etype AGENT_STUN_ENTRY_TYPE_RELAY e) then ret (-1)
  else if negb (msg_class msg =? STUN_CLASS_INDICATION) then ret (-1)
  else match data msg with
  | None => ret (-1)
  | Some payload =>
    match peers msg with
    | [] => ret (-1)
    | peer :: _ => input payload (data_size msg) peer (Some (e_relayed e))
    end
  end.

Definition agent_process_channel_data (input : list Z -> Z -> addr_record -> option addr_record -> A Z)
    (i : nat) (buf : list Z) (size : Z) : A Z :=
  if size <? sizeof_channel_data_header then ret (-1)
  else
    let* channel := defined (be_word <$> load 0 2 buf) in
    let* length := defined (be_word <$> load 2 2 buf) in
    if size - sizeof_channel_data_header <? length then ret (-1)
    else
      let* e := get_entry i in
      let* turn := defined (e_turn e) in
      let* src := defined (turn_find_channel (turn_map_ turn) channel) in
      match src with
      | None => ret (-1)
      | Some src =>
        let* payload := defined (load sizeof_channel_data_header length buf) in
        input payload length src (Some (e_relayed e))
      end.

(** The processing of a message for entry [i]. *)
Definition process_message (input : list Z -> Z -> addr_record -> option addr_record -> A Z)
    (buf : list Z) (size : Z) (msg : stun_message) (src : addr_record) (behind : option addr_record) (i : nat) : A Z :=
  let* e := get_entry i in
  let method := msg_method msg in
  let verified (process : stun_message -> nat -> A Z) :=
    let* (msg, bad) := defined (agent_verify_credentials e buf size msg) in
    if negb (bad =? 0) then ret (-1) else process msg i in
  if method =? STUN_METHOD_BINDING then
    if is_etype AGENT_STUN_ENTRY_TYPE_CHECK e && negb (has_integrity msg) &&
       ((msg_class msg =? STUN_CLASS_REQUEST) || (msg_class msg =? STUN_CLASS_RESP_SUCCESS)) then ret (-1)
    else agent_process_stun_binding msg i src behind
  else if (method =? STUN_METHOD_ALLOCATE) || (method =? STUN_METHOD_REFRESH) then
    verified agent_process_turn_allocate
  else if method =? STUN_METHOD_CREATE_PERMISSION then verified agent_process_turn_create_permission
  else if method =? STUN_METHOD_CHANNEL_BIND then verified agent_process_turn_channel_bind
  else if method =? STUN_METHOD_DATA then agent_process_turn_data input msg i
  else ret (-1).

Definition agent_dispatch_stun (input : list Z -> Z -> addr_record -> option addr_record -> A Z)
    (buf : list Z) (size : Z) (msg : stun_message) (src : addr_record) (behind : option addr_record) : A Z :=
  let from_peer := (msg_method msg =? STUN_METHOD_BINDING) && has_integrity msg in
  let* a := gets id in
  let* bad := (if from_peer then defined (agent_verify_stun_binding a buf size msg) else ret 0) in
  if negb (bad =? 0) then ret (-1)
  else
    (if from_peer then
       agent_add_remote_reflexive_candidate ICE_CANDIDATE_TYPE_PEER_REFLEXIVE (StunMsg.priority msg) src ;; ret tt
     else ret tt) ;;
    let* found := find_entry_for msg src behind in
    match found with
    | None => ret (if STUN_IS_RESPONSE (msg_class msg) then -1 else 0)
    | Some i => process_message input buf size msg src behind i
    end.

Fixpoint agent_input_rec (fuel : nat) (buf : list Z) (size : Z) (src : addr_record) (behind : option addr_record) : A Z :=
  match fuel with
  | O => undefined
  | S fuel' =>
    let* a := gets id in
    if bool_decide (a_state a = JUICE_STATE_DISCONNECTED) || bool_decide (a_state a = JUICE_STATE_GATHERING) then ret 0
    else
      let* stun := defined (is_stun_datagram buf size) in
      if stun : bool then
        let* (buf, msg, result) := defined (stun_read buf size) in
        if result <? 0 then ret (-1)
        else agent_dispatch_stun (agent_input_rec fuel') buf size msg src behind
      else
        match agent_find_entry_from_record a src behind with
        | None => ret (-1)
        | Some i =>
          let* e := get_entry i in
          match e_type e with
          | AGENT_STUN_ENTRY_TYPE_RELAY =>
            let* channel := defined (is_channel_data buf size) in
            if channel : bool then agent_process_channel_data (agent_input_rec fuel') i buf size else ret (-1)
          | AGENT_STUN_ENTRY_TYPE_CHECK =>
            let* payload := defined (load 0 size buf) in
            emit (Received payload) ;; ret 0
          | _ => ret (-1)
          end
        end
  end.

Definition agent_input (buf : list Z) (size : Z) (src : addr_record) (behind : option addr_record) : A Z :=
  agent_input_rec (S (Z.to_nat size)) buf size src behind.

Definition agent_conn_recv (buf : list Z) (size : Z) (src : addr_record) : A Z :=
  agent_input buf size src None ;; ret 0.

Definition agent_conn_fail : A Z :=
  agent_change_state JUICE_STATE_FAILED ;;
  modify (fun a => a <| selected_entry := None |>) ;;
  ret 0.
End Agent.
