(* ===== verification/AgentStep.v ===== *)
(** * agent.c: the bookkeeping

    [agent_bookkeeping] is called again at the time it returns, and after every
    datagram.  Its parts are the loop over the entries, the choice of a pair,
    and the next time; it always returns zero, so that the time is its result. *)

From S2P Require Import Prelude Machine CStdio Addr.
From S2P Require Import StunMsg Turn Ice AgentState Agent.

#[local] Open Scope machine_scope.

Section Agent.
Context `{Platform, Scan, Resolver, Hashes, AgentEnvironment}.

(** ** The entries *)
Definition new_transaction (i : nat) : A unit :=
  let* tid := ask (fun n => random_of n STUN_TRANSACTION_ID_SIZE) in
  set_entry i (fun e => e <| e_transaction_id := tid |> <| e_transaction_id_expired := false |>).

Definition send_request (i : nat) (method : Z) : A Z :=
  let* e := get_entry i in
  if is_etype AGENT_STUN_ENTRY_TYPE_RELAY e then agent_send_turn_allocate_request i method
  else agent_send_stun_binding i STUN_CLASS_REQUEST 0 None None.

(** A transmission is left and succeeds. *)
Definition retransmit (i : nat) : A bool :=
  let* e := get_entry i in
  if e_retransmissions e <? 0 then ret false
  else
    (if e_transaction_id_expired e then new_transaction i else ret tt) ;;
    let* result := send_request i STUN_METHOD_ALLOCATE in
    ret (0 <=? result).

Definition schedule (now : Z) (e : agent_stun_entry) : agent_stun_entry :=
  let e := e <| e_retransmissions ::= fun r => r - 1 |> in
  if e_retransmissions e <? 0 then e <| e_next_transmission := now + LAST_STUN_RETRANSMISSION_TIMEOUT |>
  else e <| e_next_transmission := now + e_retransmission_timeout e |>
         <| e_retransmission_timeout ::= fun t => t * 2 |>.

Definition set_pair_state (k : nat) (s : ice_candidate_pair_state) : A unit :=
  set_pair k (fun p => p <| p_state := s |>).

Definition pending_entry (i : nat) (now : Z) : A unit :=
  let* e := get_entry i in
  if now <? e_next_transmission e then ret tt
  else
    let* sent := retransmit i in
    if sent : bool then set_entry i (schedule now)
    else
      fail_entry i ;;
      match e_type e with
      | AGENT_STUN_ENTRY_TYPE_RELAY | AGENT_STUN_ENTRY_TYPE_SERVER => agent_update_gathering_done
      | _ =>
        match e_pair e with
        | Some k => set_pair_state k ICE_CANDIDATE_PAIR_STATE_FAILED
        | None => ret tt
        end
      end.

(** The pair of an entry whose consent has expired. *)
Definition expired_pair (now : Z) (e : agent_stun_entry) : A (option nat) :=
  match e_pair e with
  | Some k => let* p := get_pair k in ret (if p_consent_expiry p <=? now then Some k else None)
  | None => ret None
  end.

Definition keepalive_entry (i : nat) (now : Z) : A unit :=
  let* e := get_entry i in
  let* lost := expired_pair now e in
  match lost with
  | Some k => set_pair_state k ICE_CANDIDATE_PAIR_STATE_FAILED ;; fail_entry i
  | None =>
    if now <? e_next_transmission e then ret tt
    else
      new_transaction i ;;
      let* result := send_request i STUN_METHOD_REFRESH in
      if result <? 0 then agent_arm_transmission i STUN_KEEPALIVE_PERIOD
      else agent_arm_keepalive i
  end.

Definition bookkeep_entry (now : Z) (i : nat) : A unit :=
  let* e := get_entry i in
  match e_state e with
  | AGENT_STUN_ENTRY_STATE_PENDING => pending_entry i now
  | AGENT_STUN_ENTRY_STATE_SUCCEEDED_KEEPALIVE => keepalive_entry i now
  | _ => set_entry i (fun e => e <| e_next_transmission := 0 |>)
  end.

Definition all_entries : A (list nat) := gets (fun a => seq 0 (length (a_entries a))).

(** ** The pairs *)
Record choice := mkChoice { nominated_pair : option nat; chosen_pair : option nat; pending_count : Z }.
#[export] Instance choice_expand : Expand choice := fun c => mkChoice (nominated_pair c) (chosen_pair c) (pending_count c).

(** One pair, in their order. *)
Definition consider (k : nat) (c : choice) : A choice :=
  let* p := get_pair k in
  let* a := gets id in
  if p_nominated p then
    ret (match nominated_pair c with None => c <| nominated_pair := Some k |> <| chosen_pair := Some k |> | Some _ => c end)
  else match p_state p with
  | ICE_CANDIDATE_PAIR_STATE_SUCCEEDED =>
    ret (match chosen_pair c with None => c <| chosen_pair := Some k |> | Some _ => c end)
  | ICE_CANDIDATE_PAIR_STATE_PENDING =>
    if controlling a && bool_decide (chosen_pair c <> None)
    then set_pair_state k ICE_CANDIDATE_PAIR_STATE_FROZEN ;; ret c
    else ret (c <| pending_count ::= Z.succ |>)
  | _ => ret c
  end.

Fixpoint choose (order : list nat) (c : choice) : A choice :=
  match order with
  | [] => ret c
  | k :: order' => let* c := consider k c in choose order' c
  end.

(** The controlling agent has nominated [k]. *)
Definition freeze_other (k j : nat) : A unit :=
  let* p := get_pair j in
  if negb (j =? k)%nat && is_pstate ICE_CANDIDATE_PAIR_STATE_PENDING p
  then set_pair_state j ICE_CANDIDATE_PAIR_STATE_FROZEN else ret tt.

Definition choose_pair : A choice :=
  let* order := gets ordered_pairs in
  let* c := choose order (mkChoice None None 0) in
  let* a := gets id in
  match nominated_pair c with
  | Some k =>
    if controlling a then each order (freeze_other k) ;; ret (c <| pending_count := 0 |>)
    else ret c
  | None => ret c
  end.

(** The check of a frozen pair is cancelled. *)
Definition cancel_entry (i : nat) : A unit :=
  let* e := get_entry i in
  match e_pair e with
  | None => ret tt
  | Some k =>
    let* p := get_pair k in
    if is_pstate ICE_CANDIDATE_PAIR_STATE_FROZEN p && negb (is_estate AGENT_STUN_ENTRY_STATE_IDLE e) &&
       negb (is_estate AGENT_STUN_ENTRY_STATE_CANCELLED e)
    then set_entry i (fun e => e <| e_state := AGENT_STUN_ENTRY_STATE_CANCELLED |> <| e_next_transmission := 0 |>)
    else ret tt
  end.

Definition entry_of_pair (a : juice_agent) (k : nat) : option nat :=
  find_index (fun e => bool_decide (e_pair e = Some k)) (a_entries a) 0.

(** *** A pair is selected *)
Definition select_pair (now : Z) (k : nat) : A unit :=
  let* a := gets id in
  if bool_decide (selected_pair a = Some k) then ret tt
  else
    modify (fun a => a <| selected_pair := Some k |>) ;;
    (if controlling a then modify (fun a => a <| nomination_timestamp := now + NOMINATION_TIMEOUT |>) else ret tt) ;;
    match entry_of_pair a k with
    | Some i => modify (fun a => a <| selected_entry := Some i |>)
    | None => ret tt
    end.

(** Keepalives are turned on for entry [i]. *)
Definition keep_alive (i : nat) : A unit :=
  set_entry i (fun e => e <| e_state := AGENT_STUN_ENTRY_STATE_SUCCEEDED_KEEPALIVE |>) ;; agent_arm_keepalive i.

Definition disable_keepalive (keep : list nat) (i : nat) : A unit :=
  let* e := get_entry i in
  if negb (bool_decide (i ∈ keep)) && is_estate AGENT_STUN_ENTRY_STATE_SUCCEEDED_KEEPALIVE e
  then set_entry i (fun e => e <| e_state := AGENT_STUN_ENTRY_STATE_SUCCEEDED |>) else ret tt.

(** The nominated pair [k] is in use. *)
Definition complete (k : nat) : A unit :=
  let* s := gets a_state in
  (if bool_decide (s = JUICE_STATE_CONNECTING) then agent_change_state JUICE_STATE_CONNECTED else ret tt) ;;
  agent_change_state JUICE_STATE_COMPLETED ;;
  let* nominated_entry := gets (fun a => entry_of_pair a k) in
  let* relay_entry := match nominated_entry with
                      | Some i => let* e := get_entry i in ret (e_relay_entry e)
                      | None => ret None
                      end in
  match nominated_entry with
  | Some i =>
    let* e := get_entry i in
    if negb (is_estate AGENT_STUN_ENTRY_STATE_SUCCEEDED_KEEPALIVE e)
    then keep_alive i ;; modify (fun a => a <| selected_entry := Some i |>) else ret tt
  | None => ret tt
  end ;;
  match relay_entry with
  | Some r =>
    let* e := get_entry r in
    if negb (is_estate AGENT_STUN_ENTRY_STATE_SUCCEEDED_KEEPALIVE e) then keep_alive r else ret tt
  | None => ret tt
  end ;;
  let* is_ := all_entries in
  each is_ (disable_keepalive (option_list nominated_entry ++ option_list relay_entry)).

(** The selected pair [k] is not nominated; the next time is at most [next]. *)
Definition nominate (now : Z) (k : nat) (pending next : Z) : A Z :=
  agent_change_state JUICE_STATE_CONNECTED ;;
  let* a := gets id in
  let* p := get_pair k in
  if controlling a && negb (p_nomination_requested p) then
    let timer := nomination_timestamp a in
    if (pending =? 0) || (negb (timer =? 0) && (timer <=? now)) then
      set_pair k (fun p => p <| p_nomination_requested := true |>) ;;
      match entry_of_pair a k with
      | Some i =>
        set_entry i (fun e => e <| e_state := AGENT_STUN_ENTRY_STATE_PENDING |> <| e_transaction_id_expired := true |>) ;;
        agent_arm_transmission i 0
      | None => ret tt
      end ;;
      ret next
    else ret (if negb (timer =? 0) && (timer <? next) then timer else next)
  else ret next.

(** Sending is disallowed. *)
Definition lose : A unit :=
  agent_change_state JUICE_STATE_FAILED ;; modify (fun a => a <| selected_entry := None |>).

(** ** The time of the next call *)

(** The last loop; [chosen] is the pair selected in this call. *)
Fixpoint next_time (es : list agent_stun_entry) (ps : list agent_pair) (chosen : option nat) (next : Z) : option Z :=
  match es with
  | [] => Some next
  | e :: es' =>
    let next := if negb (e_next_transmission e =? 0) && (e_next_transmission e <? next) then e_next_transmission e
                else next in
    let? next :=
      match e_pair e with
      | Some k =>
        if is_estate AGENT_STUN_ENTRY_STATE_SUCCEEDED_KEEPALIVE e then
          let? p := ps !! k in
          if p_consent_expiry p <? next then let? s := chosen in p_consent_expiry <$> ps !! s else Some next
        else Some next
      | None => Some next
      end in
    next_time es' ps chosen next
  end.

Definition end_of_bookkeeping (chosen : option nat) (next : Z) : A Z :=
  let* a := gets id in defined (next_time (a_entries a) (candidate_pairs a) chosen next).

(** What follows the choice of a pair. *)
Definition act_on (now : Z) (c : choice) (next : Z) : A Z :=
  match chosen_pair c with
  | Some k =>
    select_pair now k ;;
    let* next := match nominated_pair c with
                 | Some n => complete n ;; ret next
                 | None => nominate now k (pending_count c) next
                 end in
    end_of_bookkeeping (Some k) next
  | None =>
    let* timer := gets pac_timestamp in
    if (pending_count c =? 0) && negb (timer =? 0) then
      if timer <=? now then lose ;; ret next
      else end_of_bookkeeping None (if timer <? next then timer else next)
    else end_of_bookkeeping None next
  end.

Definition agent_bookkeeping : A Z :=
  let* now := ask now_ms in
  let next := now + 6000000 in
  let* a := gets id in
  if bool_decide (a_state a = JUICE_STATE_DISCONNECTED) || bool_decide (a_state a = JUICE_STATE_GATHERING) then ret next
  else
    let* is_ := all_entries in
    each is_ (bookkeep_entry now) ;;
    let* c := choose_pair in
    let* is_ := all_entries in
    each is_ cancel_entry ;;
    let* nominated_failed :=
      match nominated_pair c with
      | Some k => let* p := get_pair k in ret (is_pstate ICE_CANDIDATE_PAIR_STATE_FAILED p)
      | None => ret false
      end in
    if nominated_failed : bool then lose ;; ret next
    else act_on now c next.

Definition agent_conn_update : A Z := agent_bookkeeping.
End Agent.
