(* ===== verification/AgentApi.v ===== *)
(** * agent.c: the calls of the application, and the runs of an agent

    Each call holds the lock of the connection from its start to its end, but
    for [agent_resolve_servers], which releases it for every resolution: the
    sections it runs locked are steps of their own, and [resolver] says where it
    is.  [agent_gather_candidates] runs it in a thread or itself, which makes no
    difference to the other threads. *)

From Stdlib Require Import Strings.String.
From S2P Require Import Prelude Machine CStdio Addr.
From S2P Require Import StunMsg StunWrite StunRead Turn Ice AgentState Agent AgentStep.

#[local] Open Scope machine_scope.

(** [juice_err_t] *)
Definition JUICE_ERR_SUCCESS : Z := 0.
Definition JUICE_ERR_INVALID : Z := -1.
Definition JUICE_ERR_FAILED : Z := -2.
Definition JUICE_ERR_IGNORED : Z := -4.

Section Agent.
Context `{Platform, Scan, Resolver, Hashes, AgentEnvironment}.

(** [calloc] and the copies succeed; [draws] are the random bytes for the local
    description. *)
Definition agent_create (config : agent_config) (draws : list Z) (tiebreaker : Z) : juice_agent :=
  mkAgent config JUICE_STATE_DISCONNECTED AGENT_MODE_UNKNOWN (fst (ice_create_local_description draws))
    ice_description_zero [] [] None [] None tiebreaker 0 0 false false None.

(** ** Gathering *)
Definition addr_is_numeric_hostname (hostname : list Z) : bool :=
  bool_decide (is_Some (getaddrinfo true hostname (lit "9"))).

Definition has_nonnumeric_server_hostnames (c : agent_config) : bool :=
  let nonnumeric host := match host with Some h => negb (addr_is_numeric_hostname h) | None => false end in
  nonnumeric (stun_server_host c) || existsb (fun s => nonnumeric (ts_host s)) (turn_servers c).

(** The loop over the addresses of the host. *)
Fixpoint add_host_candidates (records : list addr_record) (d : ice_description) : ice_description :=
  match records with
  | [] => d
  | record :: records' =>
    let '(candidate, result) := ice_create_local_candidate ICE_CANDIDATE_TYPE_HOST 1 (candidates_count d) record in
    if negb (result =? 0) then add_host_candidates records' d
    else if MAX_HOST_CANDIDATES_COUNT <=? candidates_count d then d
    else
      let '(_, d', result) := ice_add_candidate candidate d in
      add_host_candidates records' (if negb (result =? 0) then d else d')
  end.

(** A host candidate is passed to the application. *)
Definition announce (i : nat) : A unit :=
  let* c := gets (fun a => candidate_at (a_local a) i) in
  if negb (bool_decide (type c = ICE_CANDIDATE_TYPE_HOST)) then ret tt
  else
    let* text := generate_candidate c in
    match text with
    | Some text => emit (Candidate text)
    | None => ret tt
    end.

(** The count that [conn_get_addrs] returns, negative for an error, against the
    size of the array. *)
Definition host_records (result : Z * list addr_record) : list addr_record :=
  let '(count, records) := result in
  take (Z.to_nat (if count <? 0 then 0 else Z.min count (ICE_MAX_CANDIDATES_COUNT - 1))) records.

(** One step: the thread of the connection, which can run once [conn_create] has
    made it and until the agent is locked, is another call, before or after. *)
Definition agent_gather_candidates : A Z :=
  let* a := gets id in
  if conn_created a then ret 0
  else
    (if bool_decide (a_mode a = AGENT_MODE_UNKNOWN)
     then modify (fun a => a <| a_mode := AGENT_MODE_CONTROLLING |>) else ret tt) ;;
    agent_change_state JUICE_STATE_GATHERING ;;
    let* created := ask conn_create_result in
    if negb created then ret (-1)
    else
      modify (fun a => a <| conn_created := true |>) ;;
      let* result := ask conn_get_addrs_result in
      modify (fun a => a <| a_local ::= add_host_candidates (host_records result) |>) ;;
      let* d := gets a_local in
      let* d := defined (ice_sort_candidates d) in
      modify (fun a => a <| a_local := d |>) ;;
      each (seq 0 (length (candidates d))) announce ;;
      agent_change_state JUICE_STATE_CONNECTING ;;
      let* a := gets id in
      let start := modify (fun a => a <| resolver :=
                     Some (if mux_mode (a_config a) then AtStun else AtTurn (turn_servers (a_config a)) 0 0) |>) in
      if has_nonnumeric_server_hostnames (a_config a) then
        let* started := ask resolver_thread_result in
        if negb started then agent_update_gathering_done ;; ret (-1) else start ;; ret 0
      else start ;; ret 0.

(** *** Resolving the servers *)
Definition port_text (port default_port : Z) : list Z :=
  snprintf_clip 8 (print_u (if port =? 0 then default_port else port)).

Definition resolve (host : list Z) (port : Z) (count : Z) : list addr_record :=
  let '(n, records) := addr_resolve (getaddrinfo false (snprintf_clip 256 host) (port_text port 3478)) count in
  if n <=? 0 then [] else records.

(** IPv4 is preferred. *)
Definition preferred (records : list addr_record) : option addr_record :=
  match List.find (fun r => sa_family (addr r) =? AF_INET) records with
  | Some r => Some r
  | None => List.find (fun r => sa_family (addr r) =? AF_INET6) records
  end.

(** [entries + entries_count] is filled; past the end of the array this is undefined. *)
Definition append_entry (entry : agent_stun_entry) : A nat :=
  let* es := gets a_entries in
  if MAX_STUN_ENTRIES_COUNT <=? lenZ es then undefined
  else
    let* tid := ask (fun n => random_of n STUN_TRANSACTION_ID_SIZE) in
    modify (fun a => a <| a_entries ::= fun es =>
      es ++ [entry <| e_transaction_id := tid |> <| e_transaction_id_expired := false |>] |>) ;;
    ret (length es).

Definition add_relay_entry (server : turn_server) (i : Z) (record : addr_record) : A unit :=
  let turn := mkTurnState (turn_init_map AGENT_TURN_MAP_SIZE)
                (stun_credentials_zero <| username := snprintf_clip STUN_MAX_USERNAME_LEN (ts_username server) |>)
                (ts_password server) in
  let* n := append_entry (entry_zero <| e_type := AGENT_STUN_ENTRY_TYPE_RELAY |>
              <| e_state := AGENT_STUN_ENTRY_STATE_PENDING |> <| e_record := record |> <| e_turn := Some turn |>) in
  agent_arm_transmission n (STUN_PACING_TIME * i).

(** The address of a TURN server that has been resolved, when it is to be used. *)
Definition turn_server_record (server : turn_server) (es : list agent_stun_entry) : option addr_record :=
  let? host := ts_host server in
  let? record := preferred (resolve host (ts_port server) DEFAULT_MAX_RECORDS_COUNT) in
  if existsb (fun e => is_etype AGENT_STUN_ENTRY_TYPE_RELAY e && addr_record_is_equal (e_record e) record true) es
  then None else Some record.

(** The STUN server's addresses. *)
Fixpoint add_server_entries (records : list addr_record) (i : Z) : A unit :=
  match records with
  | [] => ret tt
  | record :: records' =>
    if MAX_SERVER_ENTRIES_COUNT <=? i then ret tt
    else
      let* n := append_entry (entry_zero <| e_type := AGENT_STUN_ENTRY_TYPE_SERVER |>
                  <| e_state := AGENT_STUN_ENTRY_STATE_PENDING |> <| e_record := record |>) in
      agent_arm_transmission n (STUN_PACING_TIME * i) ;;
      add_server_entries records' (i + 1)
  end.

(** The section after one resolution. *)
Definition agent_resolve_servers : A unit :=
  let* a := gets id in
  let next r := modify (fun a => a <| resolver := r |>) in
  match resolver a with
  | None => ret tt
  | Some (AtTurn [] _ _) => next (Some AtStun)
  | Some (AtTurn (server :: left_) i count) =>
    if MAX_RELAY_ENTRIES_COUNT <=? count then next (Some AtStun)
    else
      match turn_server_record server (a_entries a) with
      | Some record => next (Some (AtTurn left_ (i + 1) (count + 1))) ;; add_relay_entry server i record
      | None => next (Some (AtTurn left_ (i + 1) count))
      end
  | Some AtStun =>
    next None ;;
    match stun_server_host (a_config a) with
    | Some host => add_server_entries (resolve host (stun_server_port (a_config a)) MAX_STUN_SERVER_RECORDS_COUNT) 0
    | None => ret tt
    end ;;
    agent_update_gathering_done
  end.

(** ** Descriptions and candidates *)

(** [buffer] of [size] is the part of [mem] from 0 on; [tmp] is the array of
    [ice_generate_sdp]. *)
Definition agent_get_local_description (mem : list Z) (size : Z) : A (Z * list Z) :=
  let* a := gets id in
  let* tmp := ask (fun n => take (Z.to_nat Ice.BUFFER_SIZE) (buffer_of n)) in
  let* (mem', result) := defined (ice_generate_sdp (a_local a) tmp mem 0 size) in
  if result <? 0 then ret (-1, mem')
  else
    (if bool_decide (a_mode a = AGENT_MODE_UNKNOWN)
     then modify (fun a => a <| a_mode := AGENT_MODE_CONTROLLING |>) else ret tt) ;;
    ret (0, mem').

(** The array of [ice_parse_sdp] is not initialised. *)
Definition agent_set_remote_description (sdp : list Z) : A Z :=
  let* buffer := ask (fun n => take (Z.to_nat Ice.BUFFER_SIZE) (buffer_of n)) in
  let* (remote, result) := defined (ice_parse_sdp buffer sdp) in
  if result <? 0 then ret JUICE_ERR_INVALID
  else
    let* a := gets id in
    if is_cons (ice_ufrag (a_remote a)) then
      ret (if bool_decide (ice_ufrag (a_remote a) = ice_ufrag remote) && bool_decide (ice_pwd (a_remote a) = ice_pwd remote)
           then JUICE_ERR_SUCCESS else JUICE_ERR_FAILED)
    else
      modify (fun a => a <| a_remote := remote |>) ;;
      agent_update_pac_timer ;;
      modify (fun a => a <| a_mode ::= fun mode =>
        if ice_lite remote then AGENT_MODE_CONTROLLING
        else if bool_decide (mode = AGENT_MODE_UNKNOWN) then AGENT_MODE_CONTROLLED else mode |>) ;;
      let* n := gets (fun a => length (candidate_pairs a)) in
      each (seq 0 n) (fun k => agent_unfreeze_candidate_pair k ;; ret tt) ;;
      each (seq 0 (length (candidates remote))) (fun r => agent_add_candidate_pairs_for_remote r ;; ret tt) ;;
      ret JUICE_ERR_SUCCESS.

(** [uninit] is the candidate on the stack. *)
Definition agent_add_remote_candidate (sdp : list Z) (uninit : ice_candidate) : A Z :=
  let* a := gets id in
  if finished (a_remote a) then ret JUICE_ERR_FAILED
  else
    let* (candidate, result) := defined (ice_parse_candidate_sdp sdp uninit) in
    if result <? 0 then ret (if result =? ICE_PARSE_IGNORED then JUICE_ERR_IGNORED else JUICE_ERR_INVALID)
    else
      let '(_, remote', result) := ice_add_candidate candidate (a_remote a) in
      if negb (result =? 0) then ret JUICE_ERR_FAILED
      else
        modify (fun a => a <| a_remote := remote' |>) ;;
        let* result := agent_add_candidate_pairs_for_remote (pred (length (candidates remote'))) in
        ret (if negb (result =? 0) then JUICE_ERR_FAILED else JUICE_ERR_SUCCESS).

Definition agent_set_local_ice_attributes (ufrag pwd : list Z) : A Z :=
  let* a := gets id in
  if conn_created a then ret JUICE_ERR_FAILED
  else if (lenZ ufrag <? 4) || (lenZ pwd <? 22) || negb (ice_is_valid_string (Some ufrag)) ||
          negb (ice_is_valid_string (Some pwd)) then ret JUICE_ERR_INVALID
  else
    modify (fun a => a <| a_local ::= fun d => d <| ice_ufrag := snprintf_clip 257 ufrag |>
                                                 <| ice_pwd := snprintf_clip 257 pwd |> |>) ;;
    ret JUICE_ERR_SUCCESS.

Definition agent_add_turn_server (server : turn_server) : A Z :=
  let* a := gets id in
  if conn_created a then ret (-1)
  else modify (fun a => a <| a_config ::= fun c => c <| turn_servers ::= fun l => l ++ [server] |> |>) ;; ret 0.

Definition agent_set_remote_gathering_done : A Z :=
  modify (fun a => a <| a_remote ::= fun d => d <| finished := true |> |>) ;; ret 0.

Definition agent_get_state : A juice_state := gets a_state.

(** The selected pair's candidates; [None] is the error. *)
Definition agent_get_selected_candidate_pair : A (option (ice_candidate * ice_candidate)) :=
  let* a := gets id in
  match selected_pair a with
  | None => ret None
  | Some k =>
    let* p := get_pair k in
    ret (Some (candidate_at (a_local a) (default 0%nat (p_local p)), candidate_at (a_remote a) (p_remote p)))
  end.

(** ** Runs *)
Inductive agent_op : Type :=
| GatherCandidates
| ResolveServers
| GetLocalDescription (mem : list Z) (size : Z)
| SetRemoteDescription (sdp : list Z)
| AddRemoteCandidate (sdp : list Z) (uninit : ice_candidate)
| SetLocalIceAttributes (ufrag pwd : list Z)
| AddTurnServer (server : turn_server)
| SetRemoteGatheringDone
| Send (data : list Z) (ds : Z)
| ConnRecv (buf : list Z) (size : Z) (src : addr_record)
| ConnUpdate
| ConnFail.

(** The connection calls the agent while it exists. *)
Definition from_conn (x : A Z) : A unit :=
  let* created := gets conn_created in
  if created then x ;; ret tt else ret tt.

Definition agent_step (op : agent_op) : A unit :=
  match op with
  | GatherCandidates => agent_gather_candidates ;; ret tt
  | ResolveServers => agent_resolve_servers
  | GetLocalDescription mem size => agent_get_local_description mem size ;; ret tt
  | SetRemoteDescription sdp => agent_set_remote_description sdp ;; ret tt
  | AddRemoteCandidate sdp uninit => agent_add_remote_candidate sdp uninit ;; ret tt
  | SetLocalIceAttributes ufrag pwd => agent_set_local_ice_attributes ufrag pwd ;; ret tt
  | AddTurnServer server => agent_add_turn_server server ;; ret tt
  | SetRemoteGatheringDone => agent_set_remote_gathering_done ;; ret tt
  | Send data ds => agent_send data ds ;; ret tt
  | ConnRecv buf size src => from_conn (agent_conn_recv buf size src)
  | ConnUpdate => from_conn agent_conn_update
  | ConnFail => from_conn agent_conn_fail
  end.

Definition agent_steps (ops : list agent_op) : A unit := each ops agent_step.

Definition agent_start (a : juice_agent) : amachine := mkMachine a 0 [].
End Agent.
