(* ===== verification/AgentInv.v ===== *)
(** * The agent's invariant

    Pointers stay inside their arrays, every check has its pair and every relay
    its TURN state, the pairs are in order, transmissions are due within a
    bounded time, and a check that is kept alive has a pair that works. *)

From S2P Require Import Prelude Machine CStdio Addr Ice IceWf StunMsg StunWriteCorrect StunSize StunReceived.
From S2P Require Import Turn TurnTable TurnOps TurnMap AgentState AgentOrder.
From stdpp Require Import list.
#[local] Open Scope Z_scope.

(** The clock stays below 2^30 ms, twelve days; random values are bytes, the
    identifiers and channels drawn in a row differ; names and addresses are
    well-formed. *)
Class AgentLaws `{Platform, Resolver, AgentEnvironment} : Prop := {
  now_range n : 0 < now_ms n < 2 ^ 30;
  random_bytes n k : 0 <= k -> lenZ (random_of n k) = k /\ bytes_ok (random_of n k);
  ids_drawn n : draws_ok (AGENT_TURN_MAP_SIZE * 2) (random_ids n) /\ Forall bytes_ok (random_ids n);
  channels_drawn n : NoDup (random_channel_number <$> random_channels n) /\ AGENT_TURN_MAP_SIZE * 2 < lenZ (random_channels n);
  buffer_bytes n : lenZ (buffer_of n) = BUFFER_SIZE /\ bytes_ok (buffer_of n);
  never_set_bytes n : lenZ (never_set n) = 2 /\ bytes_ok (never_set n);
  host_addrs n : Forall record_wf (snd (conn_get_addrs_result n));
  resolved_addrs numeric host service l : getaddrinfo numeric host service = Some l -> Forall record_wf l;
  names record host service : getnameinfo record = Some (host, service) -> cstring 256 host /\ cstring 32 service
}.

Section Inv.
Context `{Platform, Scan, Resolver, Hashes, !AgentEnvironment}.

(** The latest time at which a transmission can be due. *)
Definition horizon : Z := 2 ^ 30 + 2 ^ 20.

(** ** Parts *)
Definition candidate_wf (c : ice_candidate) : Prop := candidate_ok c /\ record_wf (resolved c).

Definition description_wf (d : ice_description) : Prop :=
  description_ok d /\ bytes_ok (ice_ufrag d) /\ Forall candidate_wf (candidates d).

Definition turn_credentials_ok (c : stun_credentials) : Prop :=
  sized_credentials c /\ credentials_bytes c /\ bytes_ok (userhash c).

(** The addresses and identifiers a client's map holds. *)
Definition held_ok (e : turn_entry) : Prop := record_wf (entry_record e) /\ bytes_ok (entry_tid e).
Definition held_wf (m : turn_map) : Prop := Forall held_ok (Turn.entries m).

Record turn_ok (t : agent_turn_state) : Prop := {
  to_map : client_ok (turn_map_ t) /\ map_size (turn_map_ t) = AGENT_TURN_MAP_SIZE * 2;
  to_held : held_wf (turn_map_ t);
  to_credentials : turn_credentials_ok (turn_credentials t)
}.

Definition pair_ok (p : agent_pair) : Prop :=
  Z.of_nat (p_remote p) < ICE_MAX_CANDIDATES_COUNT /\
  match p_local p with Some l => Z.of_nat l < ICE_MAX_CANDIDATES_COUNT | None => True end.

(** The pair has passed a check, or is nominated. *)
Definition works (p : agent_pair) : Prop := p_state p = ICE_CANDIDATE_PAIR_STATE_SUCCEEDED \/ p_nominated p = true.

(** *** Entries *)

(** What an entry holds according to its type; [pairs] is the number of pairs
    and [kinds] are the types of the entries. *)
Definition kind_ok (pairs : nat) (kinds : list agent_stun_entry_type) (e : agent_stun_entry) : Prop :=
  match e_type e with
  | AGENT_STUN_ENTRY_TYPE_CHECK =>
    e_turn e = None /\ (exists k, e_pair e = Some k /\ (k < pairs)%nat) /\
    match e_relay_entry e with
    | Some r => kinds !! r = Some AGENT_STUN_ENTRY_TYPE_RELAY /\ inet (e_record e)
    | None => True
    end
  | AGENT_STUN_ENTRY_TYPE_RELAY =>
    e_pair e = None /\ e_relay_entry e = None /\ exists t, e_turn e = Some t /\ turn_ok t
  | AGENT_STUN_ENTRY_TYPE_SERVER => e_pair e = None /\ e_relay_entry e = None /\ e_turn e = None
  | AGENT_STUN_ENTRY_TYPE_EMPTY => False
  end.

(** The retransmissions left and the time-out after the next one. *)
Definition retry_ok (left_ timeout : Z) : Prop :=
  -1 <= left_ <= 6 /\ 0 <= timeout /\ (0 <= left_ -> timeout * 2 ^ left_ <= MIN_STUN_RETRANSMISSION_TIMEOUT * 2 ^ 6).

Record entry_ok (pairs : nat) (kinds : list agent_stun_entry_type) (e : agent_stun_entry) : Prop := {
  eo_kind : kind_ok pairs kinds e;
  eo_record : record_wf (e_record e);
  eo_tid : tid_ok (e_transaction_id e);
  eo_next : 0 <= e_next_transmission e <= horizon;
  eo_retry : retry_ok (e_retransmissions e) (e_retransmission_timeout e)
}.

Definition kinds_of (a : juice_agent) : list agent_stun_entry_type := e_type <$> a_entries a.

(** Entry [i] is kept alive only while its pair works; entry [x] excepted. *)
Definition kept_alive (x : option nat) (a : juice_agent) : Prop :=
  forall i e k p, a_entries a !! i = Some e -> Some i <> x -> e_state e = AGENT_STUN_ENTRY_STATE_SUCCEEDED_KEEPALIVE ->
    e_pair e = Some k -> candidate_pairs a !! k = Some p -> works p.

(** *** How many entries there are *)
Definition is_check (e : agent_stun_entry) : bool := is_etype AGENT_STUN_ENTRY_TYPE_CHECK e.
Definition others (a : juice_agent) : Z := lenZ (List.filter (fun e => negb (is_check e)) (a_entries a)).

(** STUN and TURN servers are not used together. *)
Definition exclusive (c : agent_config) : Prop :=
  stun_server_host c = None \/ mux_mode c = true \/ turn_servers c = [].

(** Entries for servers that the resolver can still add. *)
Definition resolver_ok (a : juice_agent) : Prop :=
  match resolver a with
  | Some (AtTurn left_ i count) =>
    conn_created a = true /\ mux_mode (a_config a) = false /\ others a <= count <= MAX_RELAY_ENTRIES_COUNT /\
    0 <= i /\ i + lenZ left_ < 2 ^ 14 /\ Forall (fun s => bytes_ok (ts_username s)) left_ /\
    (left_ <> [] -> stun_server_host (a_config a) = None) /\ (stun_server_host (a_config a) <> None -> count = 0)
  | Some AtStun => conn_created a = true /\ others a <= MAX_RELAY_ENTRIES_COUNT /\
                   (stun_server_host (a_config a) <> None -> others a = 0)
  | None => if conn_created a then others a <= MAX_RELAY_ENTRIES_COUNT else others a = 0
  end.

Definition config_ok (c : agent_config) : Prop :=
  exclusive c /\ lenZ (turn_servers c) < 2 ^ 14 /\ Forall (fun s => bytes_ok (ts_username s)) (turn_servers c).

(** ** The invariant *)
Record inv (x : option nat) (a : juice_agent) : Prop := {
  inv_config : config_ok (a_config a);
  inv_local : description_wf (a_local a);
  inv_remote : description_wf (a_remote a);
  inv_pairs : Forall pair_ok (candidate_pairs a);
  inv_count : lenZ (candidate_pairs a) <= MAX_CANDIDATE_PAIRS_COUNT;
  inv_order : ordered_pairs a = order_pairs (priority_in (candidate_pairs a)) (length (candidate_pairs a)) 0 [];
  inv_entries : Forall (entry_ok (length (candidate_pairs a)) (kinds_of a)) (a_entries a);
  inv_unique : NoDup (omap e_pair (a_entries a));
  inv_alive : kept_alive x a;
  inv_selected : match selected_pair a with Some k => (k < length (candidate_pairs a))%nat | None => True end;
  inv_selected_entry : match selected_entry a with
                       | Some i => kinds_of a !! i = Some AGENT_STUN_ENTRY_TYPE_CHECK
                       | None => True
                       end;
  inv_tiebreaker : 0 <= ice_tiebreaker a < 2 ^ 64;
  inv_completed : a_state a = JUICE_STATE_COMPLETED ->
    exists k p, candidate_pairs a !! k = Some p /\ p_nominated p = true;
  inv_resolver : resolver_ok a
}.
(** ** Changes *)

(** The transitions of the state the application sees. *)
Definition legal (s t : juice_state) : Prop :=
  match s, t with
  | JUICE_STATE_DISCONNECTED, JUICE_STATE_GATHERING
  | JUICE_STATE_GATHERING, JUICE_STATE_CONNECTING
  | JUICE_STATE_CONNECTING, (JUICE_STATE_CONNECTED | JUICE_STATE_FAILED)
  | JUICE_STATE_CONNECTED, (JUICE_STATE_COMPLETED | JUICE_STATE_FAILED)
  | JUICE_STATE_COMPLETED, JUICE_STATE_FAILED
  | JUICE_STATE_FAILED, (JUICE_STATE_CONNECTED | JUICE_STATE_COMPLETED) => True
  | _, _ => False
  end.

(** The events, the last first, report every change of the state from [s] to [t],
    each of them legal. *)
Fixpoint reports (s : juice_state) (es : list agent_event) (t : juice_state) : Prop :=
  match es with
  | [] => s = t
  | StateChanged u :: es' => u = t /\ exists v, reports s es' v /\ legal v u
  | _ :: es' => reports s es' t
  end.

Lemma reports_app s t u es es' : reports s es t -> reports t es' u -> reports s (es' ++ es) u.
Proof.
  intros Hs. revert u. induction es' as [|e es' IH]; intros u; cbn [app reports]; [by intros <-|].
  destruct e; try apply IH. intros (<- & v & Hv & Hl). split; [done|]. exists v. split; [by apply IH|done].
Qed.

(** What no step but the configuration's undoes. *)
Record evolves (a a' : juice_agent) : Prop := {
  ev_config : a_config a' = a_config a;
  ev_created : conn_created a' = conn_created a;
  ev_resolver : resolver a' = resolver a;
  ev_kinds : kinds_of a `prefix_of` kinds_of a';
  ev_pairs_of : (e_pair <$> a_entries a) `prefix_of` (e_pair <$> a_entries a');
  ev_pairs : forall k p, candidate_pairs a !! k = Some p ->
    exists p', candidate_pairs a' !! k = Some p' /\ (p_nominated p = true -> p_nominated p' = true);
  ev_others : others a' = others a;
  ev_state : conn_created a = false -> a_state a' = a_state a
}.

Lemma evolves_refl a : evolves a a.
Proof. split; eauto. Qed.

Lemma evolves_trans a b c : evolves a b -> evolves b c -> evolves a c.
Proof.
  intros [C1 D1 R1 K1 E1 P1 O1 S1] [C2 D2 R2 K2 E2 P2 O2 S2]. split; try congruence.
  - by etrans.
  - by etrans.
  - intros k p Hp. destruct (P1 k p Hp) as (p1 & Hp1 & Hn1). destruct (P2 k p1 Hp1) as (p2 & Hp2 & Hn2). eauto.
  - intros Hc. rewrite S2, S1; congruence.
Qed.

(** A step keeps the invariant and reports the changes of the state. *)
Record good (x : option nat) (m m' : amachine) : Prop := {
  gd_inv : inv x (agent m');
  gd_evolves : evolves (agent m) (agent m');
  gd_reports : exists es, events m' = es ++ events m /\ reports (a_state (agent m)) es (a_state (agent m'))
}.

Lemma good_refl x m : inv x (agent m) -> good x m m.
Proof. intros Hi. split; [done|apply evolves_refl|]. by exists []. Qed.

Lemma good_trans x y m1 m2 m3 : good y m1 m2 -> good x m2 m3 -> good x m1 m3.
Proof.
  intros [_ E1 (es1 & Ee1 & R1)] [I2 E2 (es2 & Ee2 & R2)]. split; [done|by eapply evolves_trans|].
  exists (es2 ++ es1). split; [by rewrite Ee2, Ee1, app_assoc|by eapply reports_app].
Qed.

(** A change of the memory that leaves the state as it is. *)
Lemma good_change x m a' n : inv x a' -> evolves (agent m) a' -> a_state a' = a_state (agent m) ->
  good x m (mkMachine a' n (events m)).
Proof. intros Hi He Hs. split; [done|done|]. exists []. split; [done|]. cbn. by rewrite Hs. Qed.

Lemma good_asked x m n : inv x (agent m) -> good x m (mkMachine (agent m) n (events m)).
Proof. intros Hi. apply good_change; [done|apply evolves_refl|done]. Qed.

(** What was asked does not matter. *)
Lemma good_from x m n m' : good x (mkMachine (agent m) n (events m)) m' -> good x m m'.
Proof. by intros []. Qed.

(** An event other than a change of the state. *)
Lemma good_event x m e : inv x (agent m) -> (forall s, e <> StateChanged s) ->
  good x m (mkMachine (agent m) (asked m) (e :: events m)).
Proof.
  intros Hi He. split; [done|apply evolves_refl|]. exists [e]. split; [done|]. destruct e; try done. by destruct (He state).
Qed.
(** ** One entry changes *)
Definition put_entry (i : nat) (e : agent_stun_entry) (a : juice_agent) : juice_agent :=
  a <| a_entries ::= fun l => <[i := e]> l |>.
Definition put_pair (k : nat) (p : agent_pair) (a : juice_agent) : juice_agent :=
  a <| candidate_pairs ::= fun l => <[k := p]> l |>.

Lemma spec_get_entry i e m (Q : agent_stun_entry -> amachine -> Prop) :
  a_entries (agent m) !! i = Some e -> Q e m -> spec (get_entry i) m Q.
Proof. intros He HQ. unfold spec, get_entry, bind, gets, defined. by rewrite He. Qed.

Lemma spec_get_pair k p m (Q : agent_pair -> amachine -> Prop) :
  candidate_pairs (agent m) !! k = Some p -> Q p m -> spec (get_pair k) m Q.
Proof. intros He HQ. unfold spec, get_pair, bind, gets, defined. by rewrite He. Qed.

Lemma spec_set_entry i f e m (Q : unit -> amachine -> Prop) :
  a_entries (agent m) !! i = Some e ->
  Q tt (mkMachine (put_entry i (f e) (agent m)) (asked m) (events m)) -> spec (set_entry i f) m Q.
Proof. intros He HQ. unfold spec, set_entry, get_entry, bind, gets, defined. by rewrite He. Qed.

Lemma spec_set_pair k f p m (Q : unit -> amachine -> Prop) :
  candidate_pairs (agent m) !! k = Some p ->
  Q tt (mkMachine (put_pair k (f p) (agent m)) (asked m) (events m)) -> spec (set_pair k f) m Q.
Proof. intros He HQ. unfold spec, set_pair, get_pair, bind, gets, defined. by rewrite He. Qed.

Lemma fmap_insert_same {X Y} (f : X -> Y) (l : list X) (i : nat) x y : l !! i = Some x -> f y = f x -> f <$> <[i := y]> l = f <$> l.
Proof.
  intros Hi Hf. rewrite list_fmap_insert, Hf. apply list_insert_id. by rewrite list_lookup_fmap, Hi.
Qed.

Lemma filter_insert_same {X} (f : X -> bool) (l : list X) (i : nat) x y : l !! i = Some x -> f y = f x ->
  lenZ (List.filter f (<[i := y]> l)) = lenZ (List.filter f l).
Proof.
  revert i. induction l as [|z l IH]; intros [|i] Hi Hf; try done.
  - injection Hi as ->. cbn [insert list_insert List.filter]. rewrite Hf. by destruct (f x).
  - cbn in Hi. change (<[S i := y]> (z :: l)) with (z :: <[i := y]> l). cbn [List.filter].
    specialize (IH i Hi Hf). unfold lenZ in *. destruct (f z); cbn [length]; lia.
Qed.

Lemma omap_fmap {X} (f : X -> option nat) (l : list X) : omap f l = omap (fun y => y) (f <$> l).
Proof. induction l as [|x l IH]; cbn; [done|]. rewrite IH. by destruct (f x). Qed.

Section PutEntry.
Context (x : option nat) (a : juice_agent) (i : nat) (e e' : agent_stun_entry).
Context (Hi : a_entries a !! i = Some e) (Ht : e_type e' = e_type e) (Hp : e_pair e' = e_pair e).

Lemma put_entry_kinds : kinds_of (put_entry i e' a) = kinds_of a.
Proof using Hi Ht. by apply (fmap_insert_same _ _ _ e). Qed.

Lemma put_entry_pairs_of : e_pair <$> a_entries (put_entry i e' a) = e_pair <$> a_entries a.
Proof using Hi Hp. by apply (fmap_insert_same _ _ _ e). Qed.

Lemma put_entry_others : others (put_entry i e' a) = others a.
Proof using Hi Ht. apply (filter_insert_same _ _ _ e); [done|]. unfold is_check, is_etype. by rewrite Ht. Qed.

Lemma put_entry_evolves : evolves a (put_entry i e' a).
Proof using Hi Ht Hp.
  split; try done; [by rewrite put_entry_kinds|by rewrite put_entry_pairs_of|eauto|apply put_entry_others].
Qed.

Lemma put_entry_inv : inv x a -> entry_ok (length (candidate_pairs a)) (kinds_of a) e' ->
  (Some i <> x -> e_state e' = AGENT_STUN_ENTRY_STATE_SUCCEEDED_KEEPALIVE ->
   forall k p, e_pair e = Some k -> candidate_pairs a !! k = Some p -> works p) ->
  inv x (put_entry i e' a).
Proof using Hi Ht Hp.
  intros Hinv Hok Hlive. pose proof put_entry_kinds as Hk. destruct Hinv.
  split; try (by unfold put_entry); try done.
  - rewrite Hk. by apply Forall_insert.
  - rewrite omap_fmap, put_entry_pairs_of, <- omap_fmap. done.
  - intros j ej k p Hj Hx Hs Hpj Hpp. change (<[i := e']> (a_entries a) !! j = Some ej) in Hj.
    destruct (decide (j = i)) as [->|Hne].
    + rewrite list_lookup_insert_eq in Hj by (by eapply lookup_lt_Some). injection Hj as <-.
      rewrite Hp in Hpj. by apply (Hlive Hx Hs k).
    + rewrite list_lookup_insert_ne in Hj by done. by apply (inv_alive0 j ej k).
  - by rewrite Hk.
  - unfold resolver_ok. rewrite put_entry_others. done.
Qed.
End PutEntry.
(** ** One pair changes *)
Section PutPair.
Context (x : option nat) (a : juice_agent) (k : nat) (p p' : agent_pair).
Context (Hk : candidate_pairs a !! k = Some p) (Hn : p_nominated p = true -> p_nominated p' = true).

Lemma put_pair_lookup j q : candidate_pairs (put_pair k p' a) !! j = Some q ->
  j = k /\ q = p' \/ j <> k /\ candidate_pairs a !! j = Some q.
Proof using Hk.
  change (candidate_pairs (put_pair k p' a)) with (<[k := p']> (candidate_pairs a)). intros Hj.
  destruct (decide (j = k)) as [->|Hne]; [|right; by rewrite list_lookup_insert_ne in Hj by done].
  rewrite list_lookup_insert_eq in Hj by (by eapply lookup_lt_Some). injection Hj as <-. by left.
Qed.

Lemma put_pair_keeps j q : candidate_pairs a !! j = Some q ->
  exists q', candidate_pairs (put_pair k p' a) !! j = Some q' /\ (p_nominated q = true -> p_nominated q' = true).
Proof using Hk Hn.
  change (candidate_pairs (put_pair k p' a)) with (<[k := p']> (candidate_pairs a)). intros Hj.
  destruct (decide (j = k)) as [->|Hne].
  - rewrite list_lookup_insert_eq by (by eapply lookup_lt_Some). exists p'. split; [done|]. assert (q = p) as -> by congruence. exact Hn.
  - rewrite list_lookup_insert_ne by done. eauto.
Qed.

Lemma put_pair_evolves : evolves a (put_pair k p' a).
Proof using Hk Hn. split; try done. apply put_pair_keeps. Qed.

Lemma put_pair_inv : inv x a -> pair_ok p' -> p_priority p' = p_priority p ->
  (works p' \/ forall i e, a_entries a !! i = Some e -> e_pair e = Some k ->
     e_state e = AGENT_STUN_ENTRY_STATE_SUCCEEDED_KEEPALIVE -> Some i = x) ->
  inv x (put_pair k p' a).
Proof using Hk Hn.
  intros Hinv Hok Hpr Hlive. destruct Hinv.
  assert (Hl : length (candidate_pairs (put_pair k p' a)) = length (candidate_pairs a)) by apply length_insert.
  assert (Hprio : forall j, priority_in (candidate_pairs (put_pair k p' a)) j = priority_in (candidate_pairs a) j).
  { intros j. unfold priority_in. change (candidate_pairs (put_pair k p' a)) with (<[k := p']> (candidate_pairs a)).
    destruct (decide (j = k)) as [->|Hne]; [|by rewrite list_lookup_insert_ne].
    rewrite list_lookup_insert_eq by (by eapply lookup_lt_Some). by rewrite Hk. }
  split; rewrite ?Hl; try done.
  - by apply Forall_insert.
  - unfold lenZ. by rewrite Hl.
  - rewrite (order_pairs_ext _ (priority_in (candidate_pairs a))); [done|by intros j _|constructor].
  - intros i e j q Hi Hx Hs Hj Hq. destruct (put_pair_lookup j q Hq) as [[-> ->]|[_ Hq']];
      [|by apply (inv_alive0 i e j q)].
    destruct Hlive as [Hw|Hlive]; [done|]. by destruct Hx; apply (Hlive i e).
  - intros Hs. destruct (inv_completed0 Hs) as (j & q & Hq & Hqn).
    destruct (put_pair_keeps j q Hq) as (q' & Hq' & Hqn'). eauto.
Qed.
End PutPair.

(** ** The entries and their pairs *)
Lemma inv_entry x a i e : inv x a -> a_entries a !! i = Some e -> entry_ok (length (candidate_pairs a)) (kinds_of a) e.
Proof. intros Hi He. apply (Forall_lookup_1 _ _ _ _ (inv_entries _ _ Hi) He). Qed.

Lemma inv_pair x a k p : inv x a -> candidate_pairs a !! k = Some p -> pair_ok p.
Proof. intros Hi He. apply (Forall_lookup_1 _ _ _ _ (inv_pairs _ _ Hi) He). Qed.

Lemma entry_pair x a i e k : inv x a -> a_entries a !! i = Some e -> e_pair e = Some k ->
  exists p, candidate_pairs a !! k = Some p.
Proof.
  intros Hi He Hk. pose proof (eo_kind _ _ _ (inv_entry _ _ _ _ Hi He)) as Ht. unfold kind_ok in Ht.
  apply lookup_lt_is_Some_2. destruct (e_type e); [done|destruct Ht as [Ht _]; congruence..|]. destruct Ht as (_ & Ht & _).
  by match goal with Hp : exists k, _ /\ _ |- _ => destruct Hp as (k' & Hk' & ?); simplify_eq end.
Qed.

Lemma check_pair x a i e : inv x a -> a_entries a !! i = Some e -> e_type e = AGENT_STUN_ENTRY_TYPE_CHECK ->
  exists k p, e_pair e = Some k /\ candidate_pairs a !! k = Some p.
Proof.
  intros Hi He Ht. pose proof (eo_kind _ _ _ (inv_entry _ _ _ _ Hi He)) as Hk. unfold kind_ok in Hk. rewrite Ht in Hk.
  destruct Hk as (_ & (k & Hk & Hlt) & _). destruct (lookup_lt_is_Some_2 _ _ Hlt) as [p Hp]. eauto.
Qed.

Lemma relay_turn x a i e : inv x a -> a_entries a !! i = Some e -> e_type e = AGENT_STUN_ENTRY_TYPE_RELAY ->
  exists t, e_turn e = Some t /\ turn_ok t.
Proof.
  intros Hi He Ht. pose proof (eo_kind _ _ _ (inv_entry _ _ _ _ Hi He)) as Hk. unfold kind_ok in Hk. rewrite Ht in Hk.
  apply Hk.
Qed.

Lemma omap_unique {X} (f : X -> option nat) (l : list X) i j y z k : NoDup (omap f l) ->
  l !! i = Some y -> l !! j = Some z -> f y = Some k -> f z = Some k -> i = j.
Proof.
  revert i j. induction l as [|w l IH]; intros [|i] [|j] Hnd Hi Hj Hy Hz; try done; cbn in Hnd, Hi, Hj.
  - injection Hi as ->. rewrite Hy in Hnd. apply NoDup_cons in Hnd as [Hnot _]. destruct Hnot.
    apply list_elem_of_omap. exists z. split; [by eapply list_elem_of_lookup_2|done].
  - injection Hj as ->. rewrite Hz in Hnd. apply NoDup_cons in Hnd as [Hnot _]. destruct Hnot.
    apply list_elem_of_omap. exists y. split; [by eapply list_elem_of_lookup_2|done].
  - f_equal. apply IH; try done. destruct (f w); [by apply NoDup_cons in Hnd as [_ Hnd]|done].
Qed.

Lemma inv_same_entry x a i j e e' k : inv x a -> a_entries a !! i = Some e -> a_entries a !! j = Some e' ->
  e_pair e = Some k -> e_pair e' = Some k -> i = j.
Proof. intros Hi. apply omap_unique, (inv_unique _ _ Hi). Qed.

(** Excepting one entry more, or one that its state excepts. *)
Lemma inv_weaken x a : inv None a -> inv x a.
Proof. intros []. split; try done. intros i e k p Hi _. by apply (inv_alive0 i e k p). Qed.

Lemma inv_strengthen i e a : inv (Some i) a -> a_entries a !! i = Some e ->
  (e_state e = AGENT_STUN_ENTRY_STATE_SUCCEEDED_KEEPALIVE ->
   forall k p, e_pair e = Some k -> candidate_pairs a !! k = Some p -> works p) -> inv None a.
Proof.
  intros [] He Hw. split; try done. intros j ej k p Hj _ Hs Hk Hp.
  destruct (decide (j = i)) as [->|Hne]; [|apply (inv_alive0 j ej k p); [done|congruence|done..]].
  assert (ej = e) as -> by congruence. by apply (Hw Hs k p).
Qed.
End Inv.
