(* ===== verification/AgentTurn.v ===== *)
(** * The TURN state of an agent's relay entry

    The operations of turn.c the agent uses are defined, keep the state, and
    what they return is well-formed. *)

From S2P Require Import Prelude Machine CStdio Addr Ice StunMsg StunWriteCorrect StunSize.
From S2P Require Import Turn TurnTable TurnInv TurnOps TurnTids TurnMap AgentState AgentInv.
From stdpp Require Import list.
#[local] Open Scope Z_scope.

Section Turn.
Context `{Platform, Hashes}.

(** ** What the entries hold *)
Definition held_wf_keeps (m m' : turn_map) : Prop := held_wf m -> held_wf m'.

Lemma held_insert m i e : held_wf m -> held_ok e -> held_wf (Turn.set_entry m i e).
Proof. intros Hm He. by apply Forall_insert. Qed.

Lemma held_entry m i e : held_wf m -> Turn.entries m !! i = Some e -> held_ok e.
Proof. apply Forall_lookup_1. Qed.

Lemma remove_tid_entries m tid m' : remove_ordered_transaction_id m tid = Some m' -> Turn.entries m' = Turn.entries m.
Proof. unfold remove_ordered_transaction_id. intros E. size_kept. Qed.

(** Every entry in sight holds what is well-formed. *)
Ltac held :=
  repeat match goal with
  | H : remove_ordered_transaction_id _ _ = Some _ |- _ => apply remove_tid_entries in H
  | Hm : held_wf ?m, H : Turn.entries ?m !! _ = Some ?e |- _ =>
    lazymatch goal with K : held_ok e |- _ => fail | _ => pose proof (held_entry _ _ _ Hm H) end
  end;
  try (unfold held_wf in *; cbn in *;
    repeat match goal with H : Turn.entries _ = _ |- _ => rewrite H; clear H end;
    first [assumption | repeat (apply Forall_insert; [try assumption|]); repeat case_match; cbn;
      first [assumption | match goal with H : held_ok _ |- _ => destruct H; split; cbn; assumption end
            | split; cbn; first [assumption | match goal with H : held_ok _ |- _ => apply H end]]]).

Lemma update_held now m t tid d ok m' : held_wf m -> update_timestamp now m t tid None d = Some (ok, m') -> held_wf m'.
Proof. intros Hm. unfold update_timestamp. intros E. size_kept; held. Qed.

Lemma bind_held now m r c d ok m' : held_wf m -> record_wf r ->
  turn_bind_channel now m (Some r) None c d = Some (ok, m') -> held_wf m'.
Proof. intros Hm Hr. unfold turn_bind_channel. intros E. size_kept; held. Qed.

Lemma set_tid_held m t r tid ok m' : held_wf m -> record_wf r -> bytes_ok tid ->
  set_transaction_id m t r tid = Some (ok, m') -> held_wf m'.
Proof. intros Hm Hr Ht. unfold set_transaction_id. intros E. size_kept; held. Qed.

Lemma draw_tid_in m draws tid rest : draw_transaction_id m draws = Some (tid, rest) -> tid ∈ draws.
Proof.
  induction draws as [|d draws IH]; cbn; [done|]. destruct (find_transaction_id m d) as [[r|]|]; cbn; [|intros [= <- _]; left|done].
  intros E. right. by apply IH.
Qed.

Lemma set_random_held m t r draws res m' : held_wf m -> record_wf r -> Forall bytes_ok draws ->
  set_random_transaction_id m t r draws = Some (res, m') -> held_wf m' /\ (forall tid, res = Some tid -> bytes_ok tid).
Proof.
  intros Hm Hr Hd. unfold set_random_transaction_id. intros E. rewrite list.Forall_forall in Hd.
  size_kept; try match goal with
  | Hdr : draw_transaction_id _ _ = Some (?tid, _), Hs : set_transaction_id _ _ _ _ = Some (?b, _) |- _ =>
    apply draw_tid_in, Hd in Hdr; split; [exact (set_tid_held _ _ _ _ _ _ Hm Hr Hdr Hs)|destruct b; intros ? Et; by simplify_eq]
  end.
  split; [done|]. intros tid' Et. simplify_eq. held. match goal with K : held_ok _ |- _ => apply K end.
Qed.

Lemma retrieve_held m tid res m' : held_wf m -> turn_retrieve_transaction_id m tid = Some (res, m') -> held_wf m'.
Proof. intros Hm. unfold turn_retrieve_transaction_id, lookup_transaction_id. intros E. size_kept; held. Qed.
End Turn.

(** ** The operations on a state that is in order *)
Section Client.
Context `{Platform, Scan, Resolver, Hashes, !AgentEnvironment, !AgentLaws}.

Definition with_map (m : turn_map) (t : agent_turn_state) : agent_turn_state := t <| turn_map_ := m |>.

Lemma turn_sized t : turn_ok t -> sized (turn_map_ t).
Proof. intros Ht. apply (t_sized _ (m_table _ (cl_map _ (proj1 (to_map _ Ht))))). Qed.

Lemma turn_table t : turn_ok t -> table_ok (turn_map_ t).
Proof. intros Ht. apply (m_table _ (cl_map _ (proj1 (to_map _ Ht)))). Qed.

Lemma turn_tid t j e : turn_ok t -> Turn.entries (turn_map_ t) !! j = Some e -> tid_ok (entry_tid e).
Proof. intros Ht He. split; [apply (t_entry _ (turn_table t Ht) _ _ He)|apply (held_entry _ _ _ (to_held _ Ht) He)]. Qed.

(** A transaction identifier for an address. *)
Lemma random_id_spec type t r n : turn_ok t -> live_type type -> record_wf r -> inet r ->
  exists res m', set_random_transaction_id (turn_map_ t) type r (random_ids n) = Some (res, m') /\
    turn_ok (with_map m' t) /\ forall tid, res = Some tid -> tid_ok tid.
Proof.
  intros Ht Hl Hr Hi. destruct (ids_drawn n) as [Hd Hb]. destruct (to_map _ Ht) as [Hcl Hs].
  destruct (set_random_tid_spec (turn_map_ t) type r (random_ids n) Hcl Hl Hi (proj1 Hd)) as (res & m' & E & Hcl' & Hres).
  { apply draws_unused; [by apply turn_sized|by rewrite Hs]. }
  destruct (set_random_held _ _ _ _ _ _ (to_held _ Ht) Hr Hb E) as [Hh Hbytes].
  exists res, m'. split; [done|]. split.
  { split; [split; [done|exact (eq_trans (set_random_size _ _ _ _ _ _ E) Hs)]|done|apply Ht]. }
  intros tid ->. destruct Hres as [(e & He & _ & <- & _)|(_ & [Hp _] & _)]; [|by split; [|apply Hbytes]].
  apply (view_some _ _ _ _ (turn_table t Ht) Hl) in He as (j & He & _). by apply (turn_tid t j).
Qed.

(** A new channel for an address. *)
Lemma bind_random_spec t r now n : turn_ok t -> record_wf r -> inet r ->
  exists res m', turn_bind_random_channel now (turn_map_ t) (Some r) (random_channels n) 0 = Some (res, m') /\
    turn_ok (with_map m' t) /\ forall c, res = Some c -> 0x4000 <= c < 65536.
Proof.
  intros Ht Hr Hi. destruct (channels_drawn n) as [Hnd Hlen]. destruct (to_map _ Ht) as [Hcl Hs].
  destruct (client_exec_ok _ _ (BindRandom now r (random_channels n) 0) (to_map _ Ht)) as (m' & E & Hcl' & Hs');
    [done|]. cbn [client_exec] in E.
  destruct (turn_bind_random_channel _ _ _ _ _) as [[res m1]|] eqn:Er; [|done]. injection E as ->.
  exists res, m'. split; [done|]. unfold turn_bind_random_channel in Er.
  destruct (draw_channel _ _) as [[c rest]|] eqn:Ed; [|done]. cbn [obind] in Er.
  destruct (turn_bind_channel _ _ _ _ _ _) as [[ok m1]|] eqn:Eb; [|done]. cbn [obind] in Er. injection Er as <- ->.
  split; [split; [done|by eapply bind_held; [apply Ht|..]|apply Ht]|].
  intros c' Hc. assert (c' = c) as -> by (destruct ok; congruence).
  assert (exists r, random_channel_number r = c) as [k <-]; [|pose proof (random_channel_range k); lia].
  clear - Ed. revert Ed. induction (random_channels n) as [|k ks IH]; cbn [draw_channel]; [done|].
  destruct (turn_find_channel _ _) as [[]|]; cbn [obind]; [done| |done]. intros [= <- _]. by exists k.
Qed.

(** A response to a transaction. *)
Lemma update_spec type t tid now d : turn_ok t -> live_type type -> is_tid tid ->
  exists ok m', update_timestamp now (turn_map_ t) type tid None d = Some (ok, m') /\ turn_ok (with_map m' t).
Proof.
  intros Ht Hl Hi. destruct (to_map _ Ht) as [Hcl Hs].
  destruct (update_tid_spec now _ type tid d Hcl Hl Hi) as (ok & m' & E & Hcl' & _). exists ok, m'. split; [done|].
  split; [split; [done|exact (eq_trans (update_timestamp_size _ _ _ _ _ _ _ _ E) Hs)]|by eapply update_held; [apply Ht|]|apply Ht].
Qed.

Lemma retrieved_spec t tid : turn_ok t -> is_tid tid ->
  exists res m', turn_retrieve_transaction_id (turn_map_ t) tid = Some (res, m') /\ turn_ok (with_map m' t) /\
    forall r, res = Some r -> record_wf r /\ inet r.
Proof.
  intros Ht Hi. destruct (to_map _ Ht) as [Hcl Hs].
  destruct (retrieve_spec _ tid Hcl Hi) as (res & m' & E & Hcl' & Hres). exists res, m'. split; [done|].
  split; [split; [split; [done|exact (eq_trans (retrieve_size _ _ _ _ E) Hs)]|by eapply retrieve_held; [apply Ht|]|apply Ht]|].
  intros r ->. destruct Hres as (j & e & He & _ & -> & Hi' & _). split; [|done]. apply (held_entry _ _ _ (to_held _ Ht) He).
Qed.

(** The queries. *)
Lemma channel_range t r c : turn_ok t -> turn_get_channel (turn_map_ t) r = Some (Some c) -> 0 <= c < 65536.
Proof.
  intros Ht. unfold turn_get_channel. intros E. size_kept.
  match goal with He : Turn.entries _ !! _ = Some ?e |- _ => pose proof (e_channel _ (t_entry _ (turn_table t Ht) _ _ He)); lia end.
Qed.

Lemma bound_channel_range now t r c : turn_ok t -> turn_get_bound_channel now (turn_map_ t) r = Some (Some c) -> 0 <= c < 65536.
Proof.
  intros Ht. unfold turn_get_bound_channel. intros E. size_kept.
  match goal with He : Turn.entries _ !! _ = Some ?e |- _ => pose proof (e_channel _ (t_entry _ (turn_table t Ht) _ _ He)); lia end.
Qed.

Lemma found_channel_spec t c : turn_ok t ->
  exists res, turn_find_channel (turn_map_ t) c = Some res /\ forall r, res = Some r -> record_wf r.
Proof.
  intros Ht. destruct (is_valid_channel c) eqn:Ev.
  - rewrite (turn_find_channel_owner _ _ (cl_map _ (proj1 (to_map _ Ht))) Ev). eexists. split; [done|].
    intros r Hr. unfold owner in Hr. destruct (List.find _ _) as [e|] eqn:Ef; [|done]. injection Hr as <-.
    apply find_some in Ef as [Hin _]. apply list_elem_of_In, list_elem_of_lookup in Hin as [j Hj].
    apply (held_entry _ _ _ (to_held _ Ht) Hj).
  - exists None. split; [unfold turn_find_channel; by rewrite Ev|done].
Qed.
End Client.
