(* ===== verification/AgentSend.v ===== *)
(** * What the agent sends fits its buffer, and sending changes little

    Messages are written whole; only the TURN states of the entries and the mode
    noted with a check change. *)

From Stdlib Require Import Strings.String.
From S2P Require Import Prelude Machine CStdio Addr Ice IceWf StunMsg StunWrite StunCodec StunWriteCorrect StunSize StunReceived.
From S2P Require Import Turn TurnTable TurnInv TurnOps TurnTids TurnMap.
From S2P Require Import AgentState Agent AgentInv AgentTurn.
From stdpp Require Import list.
#[local] Open Scope Z_scope.
#[local] Open Scope machine_scope.

(** An entry without what sending may change. *)
Definition core_of (e : agent_stun_entry) : agent_stun_entry :=
  e <| e_turn := None |> <| e_mode := AGENT_MODE_UNKNOWN |>.

Definition calm (a a' : juice_agent) : Prop :=
  exists es, a' = a <| a_entries := es |> /\ core_of <$> es = core_of <$> a_entries a.

Lemma calm_refl a : calm a a.
Proof. exists (a_entries a). by destruct a. Qed.

Lemma calm_trans a b c : calm a b -> calm b c -> calm a c.
Proof. intros (es & -> & E) (es' & -> & E'). exists es'. split; [done|]. by rewrite E'. Qed.

Lemma calm_lookup a a' i e : calm a a' -> a_entries a !! i = Some e ->
  exists e', a_entries a' !! i = Some e' /\ core_of e' = core_of e.
Proof.
  intros (es & -> & E) Hi. apply (f_equal (fun l => l !! i)) in E. rewrite !list_lookup_fmap, Hi in E.
  change (a_entries (a <| a_entries := es |>)) with es. destruct (es !! i) as [e'|]; [|done]. exists e'. split; [done|]. by apply (inj Some) in E.
Qed.

Lemma calm_put a i e e' : a_entries a !! i = Some e -> core_of e' = core_of e -> calm a (put_entry i e' a).
Proof. intros Hi E. exists (<[i := e']> (a_entries a)). split; [done|]. by apply (fmap_insert_same _ _ _ e). Qed.

Section Send.
Context `{Platform, Scan, Resolver, Hashes, !AgentEnvironment, !AgentLaws}.

(** ** Messages *)
Record sendable (n : Z) (msg : stun_message) : Prop := {
  sd_modest : modest n msg;
  sd_data : match data msg with Some d => data_size msg = lenZ d /\ bytes_ok d | None => True end;
  sd_ice : 0 <= ice_controlling msg < 2 ^ 64 /\ 0 <= ice_controlled msg < 2 ^ 64 /\ reservation_token msg = 0;
  sd_bytes : credentials_bytes (credentials msg) /\ bytes_ok (userhash (credentials msg))
}.

Lemma sendable_writable n msg rest : sendable n msg -> lenZ rest = 2 -> bytes_ok rest -> writable msg rest.
Proof.
  intros [[Ht Hm Hr [_ Hp] _ Hc] Hd (Hi1 & Hi2 & Hi3) [(Hu & Hre & Hno & Ha) Hh]] Hl Hb.
  split; try done; try lia.
  - intros Hs. destruct (data msg); [by destruct Hd|done].
  - apply Hc.
  - split_and!; try done. destruct (data msg); [by destruct Hd|constructor].
Qed.

Lemma encode_bytes msg password rest : writable msg rest -> bytes_ok (stun_encode msg password rest).
Proof.
  intros Hw. destruct (body_facts BUFFER_SIZE ltac:(done) msg password rest Hw) as [Hb _]. unfold stun_encode.
  apply Forall_app_2; [by eapply header_ok|]. apply Forall_app_2; [done|]. unfold fingerprint_attr. apply bytes_tlv. auto with bytes.
Qed.

Lemma lenZ_encode msg password rest : writable msg rest -> 0 < lenZ (stun_encode msg password rest).
Proof.
  intros Hw. unfold stun_encode. rewrite !lenZ_app, (lenZ_header msg rest Hw), lenZ_fingerprint.
  pose proof (lenZ_nonneg (stun_body msg password rest)). lia.
Qed.

Lemma write_message_text stored n msg password m : (forall z, 0 <= z < 2 ^ 32 -> stored z = z) -> sendable n msg -> 0 <= n <= 1000 ->
  spec (write_message_as stored msg password) m (fun r m' => (exists k, m' = mkMachine (agent m) k (events m)) /\
    exists rest, r = Some (stun_encode msg password rest) /\ lenZ rest = 2 /\ bytes_ok rest).
Proof.
  intros Hst Hs Hn. unfold write_message_as. apply spec_bind, spec_ask, spec_bind, spec_ask, spec_bind. cbn [asked memory].
  destruct (buffer_bytes (asked m)) as [Hbl _]. destruct (never_set_bytes (S (asked m))) as [Hrl Hrb].
  set (rest := never_set (S (asked m))) in *. pose proof (sendable_writable n msg rest Hs Hrl Hrb) as Hw.
  pose proof (modest_fits n msg password rest (sd_modest _ _ Hs) Hrl) as Hf.
  assert (Hal : align32 n <= 1000) by (unfold align32; lia_mod).
  eapply spec_defined.
  { apply stun_write_encodes; [split; [discriminate|reflexivity]|exact Hw|exact Hbl|change BUFFER_SIZE with 4096; lia]. }
  cbn beta iota zeta. pose proof (lenZ_encode msg password rest Hw) as Hpos. rewrite Hst by (change (2 ^ 32) with 4294967296; lia).
  rewrite (proj2 (Z.leb_gt _ _)) by lia. apply spec_bind. eapply spec_defined.
  { by apply (load_mid _ _ [] (stun_encode msg password rest)). }
  apply spec_ret. split; [by eexists|]. by exists rest.
Qed.

Lemma write_message_spec stored x n msg password m : (forall z, 0 <= z < 2 ^ 32 -> stored z = z) ->
  sendable n msg -> 0 <= n <= 1000 -> inv x (agent m) ->
  spec (write_message_as stored msg password) m (fun r m' => good x m m' /\ agent m' = agent m /\
    exists text, r = Some text /\ bytes_ok text /\
      (realm (credentials msg) = [] -> nonce (credentials msg) = [] -> lenZ text <= 936 + align32 n)).
Proof.
  intros Hst Hs Hn Hi. eapply spec_mono; [by apply (write_message_text stored n)|]; cbn beta.
  intros ? m' [[k ->] (rest & -> & Hrl & Hrb)]. split; [by apply (good_asked x m)|]. split; [done|]. eexists. split; [done|].
  split; [by apply encode_bytes, (sendable_writable n)|]. intros Hr Hno. by apply brief_fits; [apply (sd_modest _ _ Hs)|..].
Qed.

Lemma random_tid n : tid_ok (random_of n STUN_TRANSACTION_ID_SIZE).
Proof.
  destruct (random_bytes n STUN_TRANSACTION_ID_SIZE ltac:(done)) as [Hl Hb]. split; [|done].
  unfold STUN_TRANSACTION_ID_SIZE, is_tid, lenZ in *. lia.
Qed.

(** ** Sending *)

(** A run that keeps the invariant and changes no more than sending does. *)
Definition sends (x : option nat) (m m' : amachine) : Prop := good x m m' /\ calm (agent m) (agent m').

Lemma sends_same x m m' : good x m m' -> agent m' = agent m -> sends x m m'.
Proof. intros Hg E. split; [done|]. rewrite E. apply calm_refl. Qed.

Lemma sends_refl x m : inv x (agent m) -> sends x m m.
Proof. intros Hi. split; [by apply good_refl|apply calm_refl]. Qed.

Lemma sends_trans x m1 m2 m3 : sends x m1 m2 -> sends x m2 m3 -> sends x m1 m3.
Proof. intros [G1 C1] [G2 C2]. split; [by eapply good_trans|by eapply calm_trans]. Qed.

Lemma sends_inv x m m' : sends x m m' -> inv x (agent m').
Proof. intros [Hg _]. apply Hg. Qed.

Lemma sends_asked x m n : inv x (agent m) -> sends x m (mkMachine (agent m) n (events m)).
Proof. intros Hi. by apply sends_same, eq_refl; apply good_asked. Qed.

Lemma sends_from x m n m' : sends x (mkMachine (agent m) n (events m)) m' -> sends x m m'.
Proof. intros [Hg Hc]. split; [by eapply good_from|done]. Qed.

Lemma direct_send_spec x dst payload ds m : inv x (agent m) ->
  spec (agent_direct_send dst payload ds) m (fun _ m' => good x m m' /\ agent m' = agent m).
Proof.
  intros Hi. unfold agent_direct_send. apply spec_bind, spec_emit, spec_ask. cbn [memory asked events].
  split; [|done]. eapply good_trans; [by apply (good_event x m (SentTo dst payload ds))|].
  exact (good_asked x (mkMachine (agent m) (asked m) (SentTo dst payload ds :: events m)) _ Hi).
Qed.

Lemma send_message_spec x n dst msg password ds m : sendable n msg -> 0 <= n <= 1000 -> inv x (agent m) ->
  spec (send_message dst msg password ds) m (fun _ m' => good x m m' /\ agent m' = agent m).
Proof.
  intros Hs Hn Hi. unfold send_message. apply spec_bind. eapply spec_mono; [by apply (write_message_spec id x n)|].
  intros r m1 (Hg1 & E1 & text & -> & _). apply spec_bind.
  eapply spec_mono; [apply (direct_send_spec x); apply Hg1|]. intros sent m2 [Hg2 E2]. apply spec_ret.
  split; [by eapply good_trans|congruence].
Qed.

(** The TURN state of a relay entry. *)
Definition relay_entry (a : juice_agent) (i : nat) (e : agent_stun_entry) (t : agent_turn_state) : Prop :=
  a_entries a !! i = Some e /\ e_type e = AGENT_STUN_ENTRY_TYPE_RELAY /\ e_turn e = Some t.

Lemma relay_entry_ok x a i e t : inv x a -> relay_entry a i e t -> turn_ok t.
Proof. intros Hi (He & Ht & Et). destruct (relay_turn x a i e Hi He Ht) as (t' & Et' & Hok). congruence. Qed.

Lemma set_turn_inv x a i e t t' : inv x a -> relay_entry a i e t -> turn_ok t' ->
  inv x (put_entry i (e <| e_turn := Some t' |>) a).
Proof.
  intros Hi (He & Ht & Et) Hok. apply (put_entry_inv x a i e); try done.
  - pose proof (inv_entry _ _ _ _ Hi He) as [Hk Hr Htid Hn Hre]. split; try done.
    unfold kind_ok in *. cbn. rewrite Ht in *. destruct Hk as (? & ? & _). split_and!; eauto.
  - intros Hx Hs k p Hk Hp. by apply (inv_alive _ _ Hi i e k p).
Qed.

Lemma set_turn_spec x i e t t' m : inv x (agent m) -> relay_entry (agent m) i e t -> turn_ok t' ->
  spec (set_turn i t') m (fun _ m' => sends x m m' /\ relay_entry (agent m') i (e <| e_turn := Some t' |>) t').
Proof.
  intros Hi Hr Hok. pose proof Hr as (He & Ht & Et). unfold set_turn. apply (spec_set_entry i _ e); [done|].
  split; [split|].
  - apply good_change; [by eapply set_turn_inv|by apply (put_entry_evolves _ _ e)|done].
  - by apply (calm_put _ _ e).
  - split; [|done]. unfold put_entry. apply list_lookup_insert_eq. by eapply lookup_lt_Some.
Qed.

Lemma sends_relay x m m' i e t : sends x m m' -> relay_entry (agent m) i e t ->
  exists e' t', relay_entry (agent m') i e' t' /\ e_record e' = e_record e.
Proof.
  intros [Hg Hc] (He & Ht & Et). destruct (calm_lookup _ _ _ _ Hc He) as (e' & He' & Ec).
  assert (Ht' : e_type e' = AGENT_STUN_ENTRY_TYPE_RELAY) by (rewrite <- Ht; exact (f_equal e_type Ec)).
  destruct (relay_turn x _ i e' (gd_inv _ _ _ Hg) He' Ht') as (t' & Et' & _).
  exists e', t'. split; [done|]. exact (f_equal e_record Ec).
Qed.

(** *** TURN requests *)
Definition no_credentials (c : stun_credentials) : Prop := c = stun_credentials_zero.

Lemma zero_credentials_ok : turn_credentials_ok stun_credentials_zero.
Proof. split; [by split|]. split; [by split_and!; constructor|by apply Forall_replicate]. Qed.

Lemma request_sendable msg tid c ps : tid_ok tid -> turn_credentials_ok c -> lenZ ps <= 1 -> Forall record_wf ps ->
  transaction_id msg = tid -> credentials msg = c -> peers msg = ps ->
  data msg = None -> mapped msg = addr_record_zero -> relayed msg = addr_record_zero ->
  ice_controlling msg = 0 -> ice_controlled msg = 0 -> reservation_token msg = 0 -> sendable 0 msg.
Proof.
  intros Ht (Hs & Hb & Hh) Hl Hp E1 E2 E3 E4 E5 E6 E7 E8 E9. pose proof record_zero_received as [Hz _].
  split; [split|..]; rewrite ?E1, ?E2, ?E3, ?E4, ?E5, ?E6, ?E7, ?E8, ?E9; done.
Qed.

Lemma turn_request_spec x dst msg password ds m : inv x (agent m) -> sendable 0 msg ->
  spec (send_message dst msg password ds) m (fun _ m' => sends x m m').
Proof.
  intros Hi Hs. eapply spec_mono; [by apply (send_message_spec x 0)|]. intros _ m' [Hg E]. by apply sends_same.
Qed.

(** The entry that is asked for is the relay. *)
Lemma spec_relay {X} i e t m (f : agent_stun_entry -> A X) (Q : X -> amachine -> Prop) : relay_entry (agent m) i e t ->
  spec (f e) m Q -> spec (let* e := get_entry i in f e) m Q.
Proof. intros (He & _) HQ. apply spec_bind. by apply (spec_get_entry i e). Qed.

Lemma allocate_request_spec x i method e t m : inv x (agent m) -> relay_entry (agent m) i e t ->
  spec (agent_send_turn_allocate_request i method) m (fun _ m' => sends x m m').
Proof.
  intros Hi Hr. unfold agent_send_turn_allocate_request. case_test; [apply spec_ret, sends_refl, Hi|].
  apply (spec_relay i e t); [done|]. pose proof Hr as (He & Ht & Et).
  pose proof (eo_tid _ _ _ (inv_entry _ _ _ _ Hi He)) as Htid. pose proof (relay_entry_ok _ _ _ _ _ Hi Hr) as Hok.
  unfold is_etype. rewrite bool_decide_true by done. cbn [negb]. rewrite Et. cbv zeta.
  destruct (is_cons (nonce (turn_credentials t))).
  - apply (turn_request_spec x); [done|].
    destruct (method =? _); by apply (request_sendable _ (e_transaction_id e) (turn_credentials t) []); try apply Hok.
  - apply (turn_request_spec x); [done|].
    destruct (method =? _); by apply (request_sendable _ (e_transaction_id e) stun_credentials_zero []); try apply zero_credentials_ok.
Qed.

(** *** A peer behind the relay *)
Definition reachable (r : addr_record) : Prop := record_wf r /\ inet r.

Lemma permission_request_spec x i record ds e t m : inv x (agent m) -> relay_entry (agent m) i e t -> reachable record ->
  spec (agent_send_turn_create_permission_request i record ds) m (fun _ m' => sends x m m').
Proof.
  intros Hi Hr [Hw Hin]. unfold agent_send_turn_create_permission_request. apply (spec_relay i e t); [done|].
  pose proof Hr as (He & Ht & Et). pose proof (relay_entry_ok _ _ _ _ _ Hi Hr) as Hok.
  unfold is_etype. rewrite bool_decide_true by done. cbn [negb]. rewrite Et.
  case_test; [apply spec_ret, sends_refl, Hi|]. apply spec_bind, spec_ask, spec_bind.
  destruct (random_id_spec TURN_ENTRY_TYPE_PERMISSION t record (asked m) Hok ltac:(by left) Hw Hin) as (res & m1 & Em & Hok1 & Hres).
  eapply spec_defined; [exact Em|]. cbn beta iota. apply spec_bind.
  eapply spec_mono; [apply (set_turn_spec x i e t (with_map m1 t)); done|].
  intros _ m2 [Hs Hr2]. apply sends_from in Hs. destruct res as [tid|]; cbn beta iota; [|by apply spec_ret].
  eapply spec_mono; [apply (turn_request_spec x); [by apply (sends_inv _ _ _ Hs)|]|].
  - apply (request_sendable _ tid (turn_credentials t) [record]); try done; [by apply Hres|apply Hok|by repeat constructor].
  - intros ? m3 Hs3. by eapply sends_trans.
Qed.

Lemma channel_request_spec x i record ds e t m : inv x (agent m) -> relay_entry (agent m) i e t -> reachable record ->
  spec (agent_send_turn_channel_bind_request i record ds) m (fun r m' => sends x m m' /\ (0 <= fst r -> is_Some (snd r))).
Proof.
  intros Hi Hr [Hw Hin]. unfold agent_send_turn_channel_bind_request. apply (spec_relay i e t); [done|].
  pose proof Hr as (He & Ht & Et). pose proof (relay_entry_ok _ _ _ _ _ Hi Hr) as Hok.
  unfold is_etype. rewrite bool_decide_true by done. cbn [negb]. rewrite Et.
  case_test; [apply spec_ret; split; [by apply sends_refl|done]|]. apply spec_bind.
  eapply spec_defined; [apply turn_get_channel_view, turn_table, Hok|]. apply spec_bind.
  match goal with |- spec (match ?o with _ => _ end) _ _ => set (known := o) end.
  assert (Hknown : spec (match known with Some c => ret (Some c, turn_map_ t) | None =>
      let* now := ask now_ms in let* draws := ask random_channels in
      defined (turn_bind_random_channel now (turn_map_ t) (Some record) draws 0) end : A (option Z * turn_map)) m
    (fun r m1 => sends x m m1 /\ agent m1 = agent m /\ turn_ok (with_map (snd r) t))).
  { destruct known as [c|].
    - apply spec_ret. split_and!; [by apply sends_refl|done|by destruct t].
    - apply spec_bind, spec_ask, spec_bind, spec_ask. cbn [asked memory events].
      destruct (bind_random_spec t record (now_ms (asked m)) (S (asked m)) Hok Hw Hin) as (res & m1 & Em & Hok1 & _).
      eapply spec_defined; [exact Em|]. split_and!; [by apply (sends_asked x m)|done|done]. }
  eapply spec_mono; [exact Hknown|]. clear Hknown. intros [channel m1] m' (Hs & Ea & Hok1). cbn [snd] in Hok1.
  apply spec_bind. eapply spec_mono; [apply (set_turn_spec x i e t (with_map m1 t)); [by apply (sends_inv _ _ _ Hs)|by rewrite Ea|done]|].
  intros _ m2 [Hs2 Hr2]. assert (Hs02 : sends x m m2) by by eapply sends_trans.
  destruct channel as [channel|]; cbn beta iota; [|by apply spec_ret].
  apply spec_bind, spec_ask, spec_bind. cbn [asked memory events].
  destruct (random_id_spec TURN_ENTRY_TYPE_CHANNEL (with_map m1 t) record (asked m2) Hok1 ltac:(by right) Hw Hin) as (res & m3 & E3 & Hok3 & Hres).
  eapply spec_defined; [exact E3|]. cbn beta iota. apply spec_bind.
  eapply spec_mono; [eapply (set_turn_spec x i _ _ (with_map m3 t)); [|exact Hr2|exact Hok3]; by apply (sends_inv _ _ _ Hs2)|].
  intros ? m4 [Hs4 Hr4].
  apply sends_from in Hs4. assert (Hs04 : sends x m m4) by by eapply sends_trans.
  destruct res as [tid|]; cbn beta iota; [|by apply spec_ret]. apply spec_bind.
  eapply spec_mono; [apply (turn_request_spec x); [by apply (sends_inv _ _ _ Hs04)|]|].
  - apply (request_sendable _ tid (turn_credentials t) [record]); try done; [by apply Hres|apply Hok|by repeat constructor].
  - intros result m5 Hs5. apply spec_ret. split; [by eapply sends_trans|]. eauto.
Qed.

(** *** Data through a relay *)
Lemma relay_send_spec x i dst payload ds e t m : inv x (agent m) -> relay_entry (agent m) i e t -> reachable dst ->
  bytes_ok payload -> lenZ payload <= 1000 ->
  spec (agent_relay_send i dst payload ds) m (fun _ m' => sends x m m').
Proof.
  intros Hi Hr Hd Hb Hl. unfold agent_relay_send. apply (spec_relay i e t); [done|].
  pose proof (relay_entry_ok _ _ _ _ _ Hi Hr) as Hok. pose proof Hr as (_ & _ & ->).
  apply spec_bind, spec_ask, spec_bind. eapply spec_defined; [apply turn_has_permission_view, turn_table, Hok|].
  match goal with |- spec (bind (if ?b then _ else _) _) _ _ => set (permitted := b) end.
  apply spec_bind. cbn [asked memory events].
  apply (spec_mono _ _ (fun _ m1 => sends x m m1)).
  { destruct permitted; [apply spec_ret; by apply (sends_asked x m)|].
    eapply spec_mono; [by apply (permission_request_spec x i dst ds e t)|]. intros ? m1. apply sends_from. }
  intros result m1 Hs. case_test; [by apply spec_ret|].
  apply spec_bind, spec_ask, spec_bind. cbn [asked memory events].
  eapply spec_mono.
  - apply (write_message_spec size_t x 1000); [apply (wrap_small 32)| |lia|by apply (sends_inv _ _ _ Hs)]. pose proof record_zero_received as [Hz _].
    split; [split; cbn; try done; [apply random_tid|]|by cbn|by cbn|by split; [split_and!|by apply Forall_replicate]].
    split; [done|]. repeat constructor. apply Hd.
  - intros r m2 (Hg & Ea & text & -> & _). apply good_from in Hg.
    eapply spec_mono; [apply (direct_send_spec x), Hg|]. intros ? m3 [Hg3 Ea3].
    eapply sends_trans; [exact Hs|]. eapply sends_trans; apply sends_same; [exact Hg|done|exact Hg3|done].
Qed.

Lemma channel_send_spec x i record payload ds e t m : inv x (agent m) -> relay_entry (agent m) i e t -> reachable record ->
  spec (agent_channel_send i record payload ds) m (fun _ m' => sends x m m').
Proof.
  intros Hi Hr Hd. unfold agent_channel_send. apply (spec_relay i e t); [done|].
  pose proof (relay_entry_ok _ _ _ _ _ Hi Hr) as Hok. pose proof Hr as (_ & _ & ->).
  apply spec_bind, spec_ask, spec_bind. eapply spec_defined; [apply turn_get_bound_channel_view, turn_table, Hok|].
  match goal with |- spec (bind (match ?b with _ => _ end) _) _ _ => set (bound := b) end.
  apply spec_bind. cbn [asked memory events].
  apply (spec_mono _ _ (fun r m1 => sends x m m1 /\ (0 <= fst r -> is_Some (snd r)))).
  { destruct bound; [apply spec_ret; split; [by apply (sends_asked x m)|by eauto]|].
    eapply spec_mono; [by apply (channel_request_spec x i record ds e t)|]. intros ? m1 [Hs Hc]. by apply sends_from in Hs. }
  intros [result channel] m1 [Hs Hc]. cbn [fst snd] in Hc. case_test; zify_bool; [by apply spec_ret|].
  destruct Hc as [c ->]; [lia|]. apply spec_bind. eapply spec_defined; [done|]. apply spec_bind, spec_ask, spec_bind.
  destruct (buffer_bytes (asked m1)) as [Hbl _]. destruct (wrap_total (buffer_of (asked m1)) payload c) as (buffer & n & E' & Hbl' & Hn).
  rewrite Hbl in *. eapply spec_defined; [exact E'|]. cbn beta iota. cbn [asked memory events].
  case_test; zify_bool.
  { apply spec_ret. eapply sends_trans; [exact Hs|]. apply sends_asked. by apply (sends_inv _ _ _ Hs). }
  apply spec_bind. eapply spec_defined; [apply load_ok; lia|].
  eapply spec_mono; [apply (direct_send_spec x), (sends_inv _ _ _ Hs)|]. intros ? m3 [Hg3 Ea3]. apply good_from in Hg3.
  eapply sends_trans; [exact Hs|]. by apply sends_same.
Qed.

Lemma check_relay x a i e r : inv x a -> a_entries a !! i = Some e -> e_relay_entry e = Some r ->
  exists e' t, relay_entry a r e' t /\ reachable (e_record e).
Proof.
  intros Hi He Hr. pose proof (inv_entry _ _ _ _ Hi He) as [Hk Hw _ _ _]. unfold kind_ok in Hk.
  destruct (e_type e); [done|destruct Hk as (_ & Hk & _); congruence..|]. destruct Hk as (_ & _ & Hk). rewrite Hr in Hk.
  destruct Hk as [Hk Hin]. unfold kinds_of in Hk. rewrite list_lookup_fmap in Hk.
  destruct (a_entries a !! r) as [e'|] eqn:E; [|done]. apply (inj Some) in Hk.
  destruct (relay_turn x a r e' Hi E Hk) as (t & Et & _). by exists e', t.
Qed.

(** The application's data. *)
Lemma agent_send_spec payload ds m : inv None (agent m) ->
  spec (agent_send payload ds) m (fun _ m' => sends None m m').
Proof.
  intros Hi. unfold agent_send. apply spec_bind, spec_gets. change (id (agent m)) with (agent m).
  pose proof (inv_selected_entry _ _ Hi) as Hsel. destruct (selected_entry (agent m)) as [i|]; [|by apply spec_ret, sends_refl].
  unfold kinds_of in Hsel. rewrite list_lookup_fmap in Hsel. destruct (a_entries (agent m) !! i) as [e|] eqn:He; [|done].
  apply spec_bind. apply (spec_get_entry i e); [done|]. destruct (e_relay_entry e) as [r|] eqn:Er.
  - destruct (check_relay None _ i e r Hi He Er) as (e' & t & Hr & Hd). by apply (channel_send_spec None r _ payload ds e' t).
  - eapply spec_mono; [by apply (direct_send_spec None)|]. intros ? m' [Hg Ea]. by apply sends_same.
Qed.

(** *** Binding messages *)
Record bindable (msg : stun_message) : Prop := {
  bi_sendable : sendable 0 msg;
  bi_brief : realm (credentials msg) = [] /\ nonce (credentials msg) = []
}.

Lemma binding_message_bindable class tid : tid_ok tid ->
  bindable (stun_message_zero <| msg_class := class |> <| msg_method := STUN_METHOD_BINDING |> <| transaction_id := tid |>).
Proof.
  intros Ht. split; [|done]. pose proof record_zero_received as [Hz _].
  by apply (request_sendable _ tid stun_credentials_zero []); try apply zero_credentials_ok.
Qed.

Lemma binding_fields_bindable x a e class code mapped_ msg0 msg password : inv x a ->
  (forall r, mapped_ = Some r -> record_wf r) -> bindable msg0 -> ice_controlling msg0 = 0 -> ice_controlled msg0 = 0 ->
  binding_fields a e class code mapped_ msg0 = Some (msg, password) -> bindable msg.
Proof.
  intros Hi Hm Hmsg Ec Ed.
  pose proof Hmsg as [[[Ht Hma Hre Hp Hd [Hu Hrl Hno Hh Hal]] Hda (Hi1 & Hi2 & Hi3) [(Hub & Hrb & Hnb & Hab) Hhb]] [Hr Hn]].
  unfold binding_fields. pose proof (inv_tiebreaker _ _ Hi) as Htb.
  destruct (is_etype _ _); cbn [negb]; [|intros E'; apply (inj Some) in E'; injection E' as <- _; exact Hmsg].
  destruct (class =? STUN_CLASS_REQUEST).
  - case_test; [done|]. intros E'. apply (inj Some) in E'. injection E' as <- _.
    pose proof (inv_local _ _ Hi) as (_ & Hlb & _). pose proof (inv_remote _ _ Hi) as (_ & Hrmb & _).
    split; [|done]. split; [split|..]; cbn; try done.
    + split; cbn; try done. unfold snprintf_clip, lenZ, STUN_MAX_USERNAME_LEN. rewrite length_take. lia.
    + split_and!; try done; repeat case_match; lia.
    + split; [|done]. split_and!; cbn; try done. apply Forall_take. apply Forall_app_2; [done|]. by constructor.
  - destruct (_ || _); intros E'; apply (inj Some) in E'; injection E' as <- _; [|exact Hmsg].
    split; [|done]. split; [split|..]; cbn; try done. destruct mapped_ as [r|]; [by apply Hm|done].
Qed.

Lemma set_mode_spec x i e mode m : inv x (agent m) -> a_entries (agent m) !! i = Some e ->
  spec (set_entry i (fun e => e <| e_mode := mode |>)) m (fun _ m' => sends x m m').
Proof.
  intros Hi He. apply (spec_set_entry i _ e); [done|]. split.
  - apply good_change; [|by apply (put_entry_evolves _ _ e)|done]. apply (put_entry_inv x _ i e); try done.
    + by destruct (inv_entry _ _ _ _ Hi He).
    + intros Hx Hs k p Hk Hp. by apply (inv_alive _ _ Hi i e k p).
  - by apply (calm_put _ _ e).
Qed.

(** The entry's request, or an answer to a peer. *)
Lemma binding_spec x i e class code tid mapped_ m : inv x (agent m) -> a_entries (agent m) !! i = Some e ->
  (forall t, tid = Some t -> tid_ok t) -> (forall r, mapped_ = Some r -> record_wf r) ->
  spec (agent_send_stun_binding i class code tid mapped_) m (fun _ m' => sends x m m').
Proof.
  intros Hi He Htid Hm. unfold agent_send_stun_binding. case_test; [by apply spec_ret, sends_refl|].
  apply spec_bind. apply (spec_get_entry i e); [done|]. apply spec_bind.
  apply (spec_mono _ _ (fun t m1 => tid_ok t /\ agent m1 = agent m /\ sends x m m1)).
  { destruct tid as [t|]; [apply spec_ret; split_and!; [by apply Htid|done|by apply sends_refl]|].
    destruct (class =? STUN_CLASS_INDICATION).
    - apply spec_ask. split_and!; [apply random_tid|done|by apply (sends_asked x m)].
    - apply spec_ret. split_and!; [apply (eo_tid _ _ _ (inv_entry _ _ _ _ Hi He))|done|by apply sends_refl]. }
  intros t m1 (Ht & Ea & Hs1). apply spec_bind, spec_gets. change (id (agent m1)) with (agent m1). cbv zeta. rewrite Ea.
  destruct (binding_fields _ _ _ _ _ _) as [[msg password]|] eqn:Ef; [|by apply spec_ret].
  apply (binding_fields_bindable x) in Ef; [|done..|by apply binding_message_bindable|done|done]. destruct Ef as [Hsend [Hre Hno]].
  apply spec_bind. apply (spec_mono _ _ (fun _ m2 => sends x m m2)).
  { case_test; [|by apply spec_ret]. eapply spec_mono; [apply (set_mode_spec x i e); [apply (sends_inv _ _ _ Hs1)|by rewrite Ea]|].
    intros ? m2 Hs2. by eapply sends_trans. }
  intros _ m2 Hs2. apply spec_bind.
  eapply spec_mono; [apply (write_message_spec id x 0); [done|done|lia|by apply (sends_inv _ _ _ Hs2)]|].
  intros r m3 (Hg3 & Ea3 & text & -> & Hb & Hl). specialize (Hl Hre Hno). change (align32 0) with 0 in Hl.
  assert (Hs3 : sends x m m3) by (eapply sends_trans; [exact Hs2|by apply sends_same]).
  destruct (e_relay_entry e) as [r|] eqn:Er; apply spec_bind.
  - destruct (check_relay x _ i e r Hi He Er) as (e0 & t0 & Hr0 & Hd).
    destruct (sends_relay _ _ _ _ _ _ Hs3 Hr0) as (e' & t' & Hr & _).
    apply (spec_mono _ _ (fun _ m4 => sends x m3 m4)); [|intros result m4 Hs4; apply spec_ret; by eapply sends_trans].
    pose proof (sends_inv _ _ _ Hs3) as Hi3.
    match goal with |- spec (if ?b then _ else _) _ _ => destruct b end.
    + by apply (channel_send_spec x r _ text 0 e' t').
    + apply (relay_send_spec x r _ text 0 e' t'); try done. lia.
  - eapply spec_mono; [apply (direct_send_spec x), (sends_inv _ _ _ Hs3)|].
    intros ? m4 [Hg4 Ea4]. apply spec_ret. eapply sends_trans; [exact Hs3|by apply sends_same].
Qed.
End Send.
