(* ===== verification/AgentTimers.v ===== *)
(** * The agent's timers and entries: every step keeps the invariant

    An entry is scheduled at a time the clock's range and the number of entries
    bound; there are never more entries than the array has places. *)

From S2P Require Import Prelude Machine CStdio Addr Ice IceWf StunMsg StunWriteCorrect StunSize StunReceived.
From S2P Require Import Turn AgentState AgentOrder Agent AgentInv AgentSend.
From stdpp Require Import list.
#[local] Open Scope Z_scope.
#[local] Open Scope machine_scope.

Section Timers.
Context `{Platform, Scan, Resolver, Hashes, !AgentEnvironment, !AgentLaws}.

(** ** The number of entries *)
Lemma length_partition {X} (f : X -> bool) (l : list X) :
  (length l = length (List.filter f l) + length (List.filter (fun y => negb (f y)) l))%nat.
Proof. induction l as [|y l IH]; cbn [List.filter length]; [done|]. destruct (f y); cbn [negb length]; lia. Qed.

Lemma checks_pairs es n kinds : Forall (entry_ok n kinds) es ->
  length (List.filter is_check es) = length (omap e_pair es) /\ Forall (fun k => (k < n)%nat) (omap e_pair es).
Proof.
  intros Hf. induction Hf as [|e es [Hk _ _ _ _] _ [IH IH']]; cbn; [done|]. unfold kind_ok in Hk.
  assert (Ec : is_check e = bool_decide (e_type e = AGENT_STUN_ENTRY_TYPE_CHECK)) by done. rewrite Ec. clear Ec.
  destruct (e_type e); [done|destruct Hk as (-> & _); by rewrite bool_decide_false..|].
  destruct Hk as (_ & (k & -> & Hk) & _). rewrite bool_decide_true by done. cbn. split; [by rewrite IH|]. by constructor.
Qed.

Lemma nodup_below (l : list nat) n : NoDup l -> Forall (fun k => (k < n)%nat) l -> (length l <= n)%nat.
Proof.
  intros Hn Hf. rewrite <- (length_seq n 0). apply submseteq_length, NoDup_submseteq; [done|].
  intros k Hk. rewrite list.Forall_forall in Hf. apply elem_of_seq. specialize (Hf k Hk). lia.
Qed.

Lemma others_le x a : inv x a -> others a <= MAX_RELAY_ENTRIES_COUNT.
Proof.
  intros Hi. pose proof (inv_resolver _ _ Hi) as Hr. unfold resolver_ok in Hr.
  destruct (resolver a) as [[]|]; [lia..|]. destruct (conn_created a); unfold MAX_RELAY_ENTRIES_COUNT in *; lia.
Qed.

(** Checks are as many as pairs at most. *)
Lemma entries_split x a : inv x a -> lenZ (a_entries a) <= lenZ (candidate_pairs a) + others a.
Proof.
  intros Hi. pose proof (length_partition is_check (a_entries a)) as Hl.
  destruct (checks_pairs _ _ _ (inv_entries _ _ Hi)) as [Hc Hb].
  pose proof (nodup_below _ _ (inv_unique _ _ Hi) Hb). unfold others, lenZ in *. lia.
Qed.

Lemma entries_bound x a : inv x a -> lenZ (a_entries a) <= 62.
Proof.
  intros Hi. pose proof (entries_split _ _ Hi). pose proof (others_le _ _ Hi). pose proof (inv_count _ _ Hi) as Hp.
  change MAX_CANDIDATE_PAIRS_COUNT with 60 in Hp. change MAX_RELAY_ENTRIES_COUNT with 2 in *. lia.
Qed.

(** ** One entry is touched *)

(** The new state keeps what the invariant says of entries that are kept alive. *)
Definition stays (x : option nat) (i : nat) (s s' : agent_stun_entry_state) : Prop :=
  s' = AGENT_STUN_ENTRY_STATE_SUCCEEDED_KEEPALIVE -> s = AGENT_STUN_ENTRY_STATE_SUCCEEDED_KEEPALIVE \/ x = Some i.

Lemma touch_spec x i f e m : inv x (agent m) -> a_entries (agent m) !! i = Some e ->
  e_type (f e) = e_type e -> e_pair (f e) = e_pair e ->
  entry_ok (length (candidate_pairs (agent m))) (kinds_of (agent m)) (f e) -> stays x i (e_state e) (e_state (f e)) ->
  spec (set_entry i f) m (fun _ m' => good x m m' /\ agent m' = put_entry i (f e) (agent m) /\
    a_entries (agent m') !! i = Some (f e)).
Proof.
  intros Hi He Ht Hp Hok Hst. apply (spec_set_entry i f e); [done|]. split; [|split; [done|]].
  - apply good_change; [|by apply (put_entry_evolves _ _ e)|done]. apply (put_entry_inv x _ i e); try done.
    intros Hx Hs k p Hk Hpp. destruct (Hst Hs) as [Hs'| ->]; [|done]. by apply (inv_alive _ _ Hi i e k p).
  - apply list_lookup_insert_eq. by eapply lookup_lt_Some.
Qed.

(** ** Schedules *)
Definition entry_at (m : amachine) (i : nat) (P : agent_stun_entry -> Prop) : Prop :=
  exists e, a_entries (agent m) !! i = Some e /\ P e.

Lemma due_range x a i j d : inv x a -> due (a_entries a) i j = Some d -> 0 <= d <= horizon.
Proof.
  intros Hi. unfold due. destruct (a_entries a !! j) as [o|] eqn:E; [|done]. case_test; [done|]. intros [= <-].
  apply (eo_next _ _ _ (inv_entry _ _ _ _ Hi E)).
Qed.

Definition armed (e e' : agent_stun_entry) : Prop :=
  e_state e' = (if is_estate AGENT_STUN_ENTRY_STATE_SUCCEEDED_KEEPALIVE e then AGENT_STUN_ENTRY_STATE_SUCCEEDED_KEEPALIVE
                else AGENT_STUN_ENTRY_STATE_PENDING).

(** An entry stays well-formed when only its timers change. *)
Lemma entry_ok_timers n kinds e e' : entry_ok n kinds e ->
  e_type e' = e_type e -> e_pair e' = e_pair e -> e_record e' = e_record e -> e_transaction_id e' = e_transaction_id e ->
  e_turn e' = e_turn e -> e_relay_entry e' = e_relay_entry e -> 0 <= e_next_transmission e' <= horizon ->
  retry_ok (e_retransmissions e') (e_retransmission_timeout e') -> entry_ok n kinds e'.
Proof.
  intros [Hk Hr Ht Hn Hre] E1 E2 E3 E4 E5 E6 Hn' Hre'. split; rewrite ?E3, ?E4; try done.
  unfold kind_ok in *. by rewrite E1, E2, E3, E5, E6.
Qed.

(** Touching the timers of an entry, or its state. *)
Lemma timers_spec x i f e m : inv x (agent m) -> a_entries (agent m) !! i = Some e ->
  (e_type (f e), e_pair (f e), e_record (f e), e_transaction_id (f e), e_turn (f e), e_relay_entry (f e)) =
  (e_type e, e_pair e, e_record e, e_transaction_id e, e_turn e, e_relay_entry e) ->
  0 <= e_next_transmission (f e) <= horizon -> retry_ok (e_retransmissions (f e)) (e_retransmission_timeout (f e)) ->
  stays x i (e_state e) (e_state (f e)) ->
  spec (set_entry i f) m (fun _ m' => good x m m' /\ agent m' = put_entry i (f e) (agent m) /\
    a_entries (agent m') !! i = Some (f e)).
Proof.
  intros Hi He Ek Hn Hr Hs. injection Ek as E1 E2 E3 E4 E5 E6. apply touch_spec; try done.
  by apply (entry_ok_timers _ _ e); [by apply (inv_entry x _ i)|..].
Qed.

Lemma state_spec x i s e m : inv x (agent m) -> a_entries (agent m) !! i = Some e -> stays x i (e_state e) s ->
  spec (set_entry i (fun e => e <| e_state := s |>)) m (fun _ m' => good x m m' /\
    agent m' = put_entry i (e <| e_state := s |>) (agent m) /\ a_entries (agent m') !! i = Some (e <| e_state := s |>)).
Proof. intros Hi He Hs. pose proof (inv_entry _ _ _ _ Hi He) as [_ _ _ Hn Hr]. by apply (timers_spec x i _ e). Qed.

(** The timer is stopped. *)
Lemma stop_spec x i s e m : inv x (agent m) -> a_entries (agent m) !! i = Some e -> stays x i (e_state e) s ->
  spec (set_entry i (fun e => e <| e_state := s |> <| e_next_transmission := 0 |>)) m (fun _ m' => good x m m' /\
    agent m' = put_entry i (e <| e_state := s |> <| e_next_transmission := 0 |>) (agent m) /\
    a_entries (agent m') !! i = Some (e <| e_state := s |> <| e_next_transmission := 0 |>)).
Proof.
  intros Hi He Hs. pose proof (inv_entry _ _ _ _ Hi He) as [_ _ _ Hn Hr].
  apply (timers_spec x i (fun e => e <| e_state := s |> <| e_next_transmission := 0 |>) e); try done.
Qed.

Lemma arm_spec x i delay e m : inv x (agent m) -> a_entries (agent m) !! i = Some e -> 0 <= delay <= 2 ^ 20 - 6200 ->
  spec (agent_arm_transmission i delay) m (fun _ m' => good x m m' /\ entry_at m' i (armed e)).
Proof.
  intros Hi He Hd. unfold agent_arm_transmission. apply spec_bind. apply (spec_get_entry i e); [done|]. apply spec_bind.
  apply (spec_mono _ _ (fun _ m1 => good x m m1 /\ entry_at m1 i (armed e))).
  { unfold entry_at, armed. destruct (is_estate AGENT_STUN_ENTRY_STATE_SUCCEEDED_KEEPALIVE e) eqn:Es; cbn [negb].
    - apply spec_ret. split; [by apply good_refl|]. exists e. split; [done|]. by apply bool_decide_eq_true in Es.
    - eapply spec_mono; [by apply (state_spec x i AGENT_STUN_ENTRY_STATE_PENDING e)|]. intros _ m1 (Hg & _ & He1). eauto. }
  intros _ m1 (Hg1 & e1 & He1 & Ha1). apply spec_bind, spec_ask, spec_bind. cbn [asked memory events].
  apply (spec_get_entry i e1); [done|]. apply spec_bind. pose proof (gd_inv _ _ _ Hg1) as Hi1.
  pose proof (inv_entry _ _ _ _ Hi1 He1) as [_ _ _ Hn1 Hr1].
  apply (spec_mono _ _ (fun _ m2 => good x m m2 /\ entry_at m2 i (armed e))).
  { case_test.
    - eapply spec_mono; [apply (timers_spec x i _ e1); try done|].
      + cbn. unfold retry_ok, MIN_STUN_RETRANSMISSION_TIMEOUT, MAX_STUN_CHECK_RETRANSMISSION_COUNT, MAX_STUN_SERVER_RETRANSMISSION_COUNT.
        case_test; lia.
      + by left.
      + intros _ m2 (Hg & _ & He2). apply good_from in Hg. split; [by eapply good_trans|]. eexists. split; [exact He2|exact Ha1].
    - apply spec_ret. split; [by eapply good_trans; [|by apply good_asked]|]. by exists e1. }
  intros _ m2 (Hg2 & e2 & He2 & Ha2). apply spec_bind, spec_gets. cbv zeta. apply spec_bind.
  pose proof (gd_inv _ _ _ Hg2) as Hi2. pose proof (inv_entry _ _ _ _ Hi2 He2) as [_ _ _ Hn2 Hr2].
  pose proof (now_range (asked m1)) as Hnow. pose proof (entries_bound _ _ Hi2) as Hlen.
  destruct (find_slot_total (a_entries (agent m2)) i (now_ms (asked m1) + delay) horizon) as (t & Et & Ht & _);
    [intros j d; by apply (due_range x)|lia|lia|unfold horizon; lia|].
  eapply spec_defined; [exact Et|].
  eapply spec_mono; [apply (timers_spec x i _ e2); try done; [unfold horizon; cbn; lia|by left]|].
  intros _ m3 (Hg3 & _ & He3). split; [by eapply good_trans|]. eexists. split; [exact He3|exact Ha2].
Qed.

(** Keepalives are scheduled for an entry that is kept alive already. *)
Lemma arm_keepalive_spec x i e m : inv x (agent m) -> a_entries (agent m) !! i = Some e ->
  e_state e <> AGENT_STUN_ENTRY_STATE_SUCCEEDED ->
  spec (agent_arm_keepalive i) m (fun _ m' => good x m m' /\ entry_at m' i (fun e' => e_state e' = e_state e)).
Proof.
  intros Hi He Hs. unfold agent_arm_keepalive. apply spec_bind. apply (spec_get_entry i e); [done|]. apply spec_bind.
  unfold is_estate at 1. rewrite bool_decide_false by done. apply spec_ret, spec_bind. apply (spec_get_entry i e); [done|].
  case_test; [apply spec_ret; split; [by apply good_refl|by exists e]|]. rename E into Ek.
  apply negb_false_iff, bool_decide_eq_true in Ek.
  apply spec_bind, spec_gets, spec_bind.
  apply (spec_mono _ _ (fun period m1 => good x m m1 /\ agent m1 = agent m /\ 0 <= period <= 2 ^ 20 - 6200)).
  { pose proof (good_refl x m Hi).
    assert (spec (let* r := ask (fun n => le_word (random_of n 4)) in
        ret (MIN_CONSENT_CHECK_PERIOD + r `mod` (MAX_CONSENT_CHECK_PERIOD - MIN_CONSENT_CHECK_PERIOD + 1))) m
      (fun period m1 => good x m m1 /\ agent m1 = agent m /\ 0 <= period <= 2 ^ 20 - 6200)).
    { apply spec_bind, spec_ask, spec_ret. split_and!; [by apply good_asked|done|..];
        unfold MIN_CONSENT_CHECK_PERIOD, MAX_CONSENT_CHECK_PERIOD; lia_mod. }
    destruct (e_type e); [done| | |done]; apply spec_ret; split_and!; try done; case_match;
      unfold TURN_REFRESH_PERIOD, TURN_LIFETIME, STUN_KEEPALIVE_PERIOD; lia. }
  intros period m1 (Hg1 & Ea1 & Hp). apply spec_bind. rewrite <- Ea1 in He. pose proof (gd_inv _ _ _ Hg1) as Hi1.
  pose proof (inv_entry _ _ _ _ Hi1 He) as [_ _ _ Hn1 Hr1].
  eapply spec_mono; [apply (timers_spec x i _ e); try done; by left|]. intros _ m2 (Hg2 & _ & He2).
  eapply spec_mono; [eapply (arm_spec x i); [by apply (gd_inv _ _ _ Hg2)|exact He2|done]|].
  intros ? m3 (Hg3 & e3 & He3 & Ha3). split; [eapply good_trans; [exact Hg1|by eapply good_trans]|].
  exists e3. split; [done|]. unfold armed, is_estate in Ha3. cbn in Ha3. rewrite bool_decide_true in Ha3 by done. by rewrite Ek.
Qed.

(** ** Gathering *)
Lemma spec_same x (f : juice_agent -> juice_agent) m (Q : unit -> amachine -> Prop) :
  inv x (f (agent m)) -> evolves (agent m) (f (agent m)) -> a_state (f (agent m)) = a_state (agent m) ->
  (forall m', good x m m' -> agent m' = f (agent m) -> Q tt m') -> spec (modify f) m Q.
Proof. intros Hi He Hs HQ. apply spec_modify, HQ; [|done]. by apply good_change. Qed.
End Timers.
