(* ===== verification/AgentPairs.v ===== *)
(** * The agent's pairs and candidates: every step keeps the invariant *)

From S2P Require Import Prelude Machine CStdio Addr Ice IceWf IceGenerate StunMsg StunWriteCorrect StunSize StunReceived.
From S2P Require Import TurnTable AgentState AgentOrder AgentInv AgentSend AgentTimers.
From stdpp Require Import list.
#[local] Open Scope Z_scope.
#[local] Open Scope machine_scope.

(** The invariant of a state whose relevant fields are the same. *)
Ltac inv_kept := match goal with Hi : inv _ ?a |- inv _ _ => destruct Hi; split; try assumption; try done end.

Section Pairs.
Context `{Platform, Scan, Resolver, Hashes, !AgentEnvironment, !AgentLaws}.

(** ** Lists *)
Lemma find_index_from {X} (f : X -> bool) (l : list X) i j : find_index f l i = Some j ->
  (i <= j)%nat /\ exists y, l !! (j - i)%nat = Some y /\ f y = true.
Proof.
  revert i. induction l as [|y l IH]; intros i; cbn [find_index]; [done|]. destruct (f y) eqn:E.
  - intros [= <-]. split; [lia|]. exists y. by rewrite Nat.sub_diag.
  - intros Hj. destruct (IH _ Hj) as [Hle (z & Hz & Hfz)]. split; [lia|]. exists z. by replace (j - i)%nat with (S (j - S i)) by lia.
Qed.

Lemma find_index_Some {X} (f : X -> bool) (l : list X) j : find_index f l 0 = Some j ->
  exists y, l !! j = Some y /\ f y = true.
Proof. intros Hj. destruct (find_index_from f l 0 j Hj) as [_ Hy]. by rewrite Nat.sub_0_r in Hy. Qed.

(** ** What evolution preserves *)
Lemma evolves_entry a a' i e : evolves a a' -> a_entries a !! i = Some e ->
  exists e', a_entries a' !! i = Some e' /\ e_type e' = e_type e /\ e_pair e' = e_pair e.
Proof.
  intros He Hi. pose proof (prefix_lookup_Some _ _ i (e_type e) (proj2 (list_lookup_fmap_Some _ _ _ _) (ex_intro _ e (conj eq_refl Hi))) (ev_kinds _ _ He)) as Hk.
  pose proof (prefix_lookup_Some _ _ i (e_pair e) (proj2 (list_lookup_fmap_Some _ _ _ _) (ex_intro _ e (conj eq_refl Hi))) (ev_pairs_of _ _ He)) as Hp.
  apply list_lookup_fmap_Some in Hk as (e' & Ht & He'). apply list_lookup_fmap_Some in Hp as (e'' & Hp & He'').
  exists e'. assert (e'' = e') as -> by congruence. done.
Qed.

Lemma evolves_pair a a' k p : evolves a a' -> candidate_pairs a !! k = Some p ->
  exists p', candidate_pairs a' !! k = Some p' /\ (p_nominated p = true -> p_nominated p' = true).
Proof. intros He. apply (ev_pairs _ _ He). Qed.

(** ** One pair is changed *)

(** No entry that the invariant speaks of is kept alive for pair [k]. *)
Definition unused (x : option nat) (a : juice_agent) (k : nat) : Prop :=
  forall i e, a_entries a !! i = Some e -> e_pair e = Some k ->
    e_state e = AGENT_STUN_ENTRY_STATE_SUCCEEDED_KEEPALIVE -> Some i = x.

Lemma unused_entry y x a i e k : inv y a -> a_entries a !! i = Some e -> e_pair e = Some k ->
  x = Some i \/ e_state e <> AGENT_STUN_ENTRY_STATE_SUCCEEDED_KEEPALIVE -> unused x a k.
Proof.
  intros Hi He Hk Hx j ej Hj Hkj Hs. assert (j = i) as -> by by eapply (inv_same_entry y a). destruct Hx as [-> | Hx]; [done|].
  by assert (ej = e) as -> by congruence.
Qed.

#[export] Instance works_dec p : Decision (works p).
Proof. unfold works. apply _. Defined.

Lemma unused_idle x a k p : inv x a -> candidate_pairs a !! k = Some p -> ~ works p -> unused x a k.
Proof.
  intros Hi Hp Hw i e He Hk Hs. destruct (decide (Some i = x)) as [Hx|Hx]; [done|]. destruct Hw. by apply (inv_alive _ _ Hi i e k p).
Qed.

Lemma pair_spec x k f p m : inv x (agent m) -> candidate_pairs (agent m) !! k = Some p ->
  pair_ok (f p) -> p_priority (f p) = p_priority p -> (p_nominated p = true -> p_nominated (f p) = true) ->
  (works p -> works (f p) \/ unused x (agent m) k) ->
  spec (set_pair k f) m (fun _ m' => good x m m' /\ agent m' = put_pair k (f p) (agent m) /\
    candidate_pairs (agent m') !! k = Some (f p)).
Proof.
  intros Hi Hk Hok Hpr Hn Hw. apply (spec_set_pair k f p); [done|]. split; [|split; [done|]].
  - apply good_change; [|by apply (put_pair_evolves _ _ p)|done]. apply (put_pair_inv x _ k p); try done.
    destruct (decide (works p)) as [Hwp|Hwp]; [|right; by apply (unused_idle x _ _ p)].
    destruct (Hw Hwp) as [Hwf|Hu]; [by left|right]. exact Hu.
  - apply list_lookup_insert_eq. by eapply lookup_lt_Some.
Qed.

Lemma pair_state_spec x k s p m : inv x (agent m) -> candidate_pairs (agent m) !! k = Some p ->
  (p_state p = ICE_CANDIDATE_PAIR_STATE_SUCCEEDED -> s = ICE_CANDIDATE_PAIR_STATE_SUCCEEDED \/ unused x (agent m) k) ->
  spec (set_pair k (fun p => p <| p_state := s |>)) m (fun _ m' => good x m m' /\
    agent m' = put_pair k (p <| p_state := s |>) (agent m) /\
    candidate_pairs (agent m') !! k = Some (p <| p_state := s |>)).
Proof.
  intros Hi Hk Hs. apply pair_spec; try done; [by exact (inv_pair x (agent m) k p Hi Hk)|].
  intros [Hw|Hw]; [|left; by right]. destruct (Hs Hw) as [-> | Hu]; [left; by left|by right].
Qed.

(** ** Gathering *)
Lemma finished_wf d b : description_wf d -> description_wf (d <| finished := b |>).
Proof. intros ([] & Hu & Hc). split; [by split|done]. Qed.

Lemma pac_timer_spec x m : inv x (agent m) -> spec agent_update_pac_timer m (fun _ m' => good x m m').
Proof.
  intros Hi. unfold agent_update_pac_timer. apply spec_bind, spec_gets. case_test; [by apply spec_ret, good_refl|].
  case_test; [|by apply spec_ret, good_refl]. apply spec_bind, spec_ask, spec_modify. cbn [memory asked events].
  apply good_change; [inv_kept|by split; eauto|done].
Qed.

Lemma gathering_done_spec x m : inv x (agent m) -> spec agent_update_gathering_done m (fun _ m' => good x m m').
Proof.
  intros Hi. unfold agent_update_gathering_done. apply spec_bind, spec_gets. case_test; [by apply spec_ret, good_refl|].
  case_test; [by apply spec_ret, good_refl|]. apply spec_bind, spec_modify.
  match goal with |- spec _ ?m1 _ => assert (Hg1 : good x m m1) end.
  { apply good_change; [|by split; eauto|done]. pose proof (inv_local _ _ Hi) as Hl. inv_kept. by apply finished_wf. }
  apply spec_bind. eapply spec_mono; [apply pac_timer_spec, Hg1|]. intros ? m2 Hg2. apply spec_emit.
  eapply good_trans; [exact Hg1|]. eapply good_trans; [exact Hg2|]. by apply (good_event x m2 GatheringDone); [apply Hg2|].
Qed.

(** ** Pairs *)
Lemma unfreeze_spec x k p m : inv x (agent m) -> candidate_pairs (agent m) !! k = Some p ->
  spec (agent_unfreeze_candidate_pair k) m (fun _ m' => good x m m').
Proof.
  intros Hi Hk. unfold agent_unfreeze_candidate_pair. apply spec_bind. apply (spec_get_pair k p); [done|].
  case_test; [by apply spec_ret, good_refl|]. rename E into Ef. apply negb_false_iff, bool_decide_eq_true in Ef.
  apply spec_bind, spec_gets. destruct (find_index _ _ _) as [i|] eqn:Ei; [|by apply spec_ret, good_refl].
  apply find_index_Some in Ei as (e & He & _). apply spec_bind.
  eapply spec_mono; [apply (pair_state_spec x k _ p); [done|done|congruence]|]. intros ? m1 (Hg1 & Ea1 & _).
  apply spec_bind. assert (He1 : a_entries (agent m1) !! i = Some e) by by rewrite Ea1.
  eapply spec_mono; [by apply (state_spec x i AGENT_STUN_ENTRY_STATE_PENDING e); [apply Hg1|..]|]. intros ? m2 (Hg2 & _ & He2).
  apply spec_bind. eapply spec_mono; [eapply (arm_spec x i 0); [apply Hg2|exact He2|lia]|]. intros ? m3 [Hg3 _].
  apply spec_ret. eapply good_trans; [exact Hg1|]. by eapply good_trans.
Qed.

(** The pairs are ranked again. *)
Lemma rank_inv x a (f : agent_pair -> Z) es : inv x a -> Forall2 (fun e e' => e' = e \/ e' = e <| e_transaction_id_expired := true |>) (a_entries a) es ->
  let ps := map (fun p => p <| p_priority := f p |>) (candidate_pairs a) in
  let a' := a <| candidate_pairs := ps |> <| ordered_pairs := order_pairs (priority_in ps) (length ps) 0 [] |> <| a_entries := es |> in
  inv x a' /\ evolves a a'.
Proof.
  intros Hi Hes ps a'.
  assert (Hk : e_type <$> es = e_type <$> a_entries a).
  { clear - Hes. induction Hes as [|e e' l l' He _ IH]; cbn; [done|]. f_equal; [|done]. by destruct He as [-> | ->]. }
  assert (Hp : e_pair <$> es = e_pair <$> a_entries a).
  { clear - Hes. induction Hes as [|e e' l l' He _ IH]; cbn; [done|]. f_equal; [|done]. by destruct He as [-> | ->]. }
  assert (Hl : length ps = length (candidate_pairs a)) by apply length_map.
  assert (Hlk : forall k q, ps !! k = Some q -> exists p, candidate_pairs a !! k = Some p /\ q = p <| p_priority := f p |>).
  { intros k q Hq. change ps with ((fun p => p <| p_priority := f p |>) <$> candidate_pairs a) in Hq. apply list_lookup_fmap_Some in Hq as (p & -> & Hp'). eauto. }
  assert (Hlk' : forall k p, candidate_pairs a !! k = Some p -> ps !! k = Some (p <| p_priority := f p |>)).
  { intros k p Hq. change ps with ((fun p => p <| p_priority := f p |>) <$> candidate_pairs a). rewrite list_lookup_fmap. by rewrite Hq. }
  assert (Ho : others a' = others a).
  { unfold others. change (a_entries a') with es. unfold lenZ. clear - Hes. induction Hes as [|e e' l l' He _ IH]; [done|].
    cbn [List.filter]. assert (is_check e' = is_check e) as -> by by destruct He as [-> | ->]. destruct (is_check e); cbn; lia. }
  split.
  - destruct Hi. split; try done.
    + apply Forall_map. apply (list.Forall_impl _ _ _ inv_pairs). by intros p Hpo.
    + change (candidate_pairs a') with ps. unfold lenZ. by rewrite Hl.
    + change (candidate_pairs a') with ps. rewrite Hl. unfold kinds_of. change (a_entries a') with es. rewrite Hk.
      clear - Hes inv_entries. revert inv_entries. generalize (length (candidate_pairs a)). unfold kinds_of. generalize (e_type <$> a_entries a).
      intros kinds n. induction Hes as [|e e' l l' He _ IH]; [done|]. intros [H1' H2']%Forall_cons_1. constructor; [|by apply IH].
      destruct He as [-> | ->]; [done|]. by destruct H1'.
    + change (a_entries a') with es. rewrite omap_fmap, Hp, <- omap_fmap. done.
    + intros i e' k q He' Hx Hs Hk' Hq. destruct (Hlk k q Hq) as (p & Hp' & ->).
      destruct (Forall2_lookup_r _ _ _ _ _ Hes He') as (e & He & Hee).
      apply (inv_alive i e k p); try done; by destruct Hee as [-> | ->].
    + change (selected_pair a') with (selected_pair a). change (candidate_pairs a') with ps. by rewrite Hl.
    + change (selected_entry a') with (selected_entry a). unfold kinds_of. change (a_entries a') with es. by rewrite Hk.
    + intros Hs. destruct (inv_completed Hs) as (k & p & Hkp & Hn). eauto.
    + unfold resolver_ok. by rewrite Ho.
  - split; try done.
    + unfold kinds_of. change (a_entries a') with es. by rewrite Hk.
    + change (a_entries a') with es. by rewrite Hp.
    + intros k p Hkp. eauto.
Qed.

Lemma update_pairs_spec x m : inv x (agent m) -> spec agent_update_candidate_pairs m (fun _ m' => good x m m').
Proof.
  intros Hi. unfold agent_update_candidate_pairs, agent_update_ordered_pairs.
  apply spec_bind, spec_gets, spec_bind, spec_modify, spec_bind, spec_modify, spec_modify. cbn [memory asked events].
  set (f := fun p => pair_priority (fst (ice_update_candidate_pair (pair_value (id (agent m)) p) (controlling (id (agent m)))))).
  destruct (rank_inv x (agent m) f (map (fun e => if is_etype AGENT_STUN_ENTRY_TYPE_CHECK e then e <| e_transaction_id_expired := true |> else e)
    (a_entries (agent m)))) as [Hi' He']; [done| |by apply good_change].
  clear. induction (a_entries (agent m)) as [|e l IH]; cbn [map]; constructor; [|done]. destruct (is_etype _ _); auto.
Qed.
End Pairs.
