(* ===== verification/AgentCandidates.v ===== *)
(** * The agent's candidates: every step keeps the invariant

    Pairs are added with the entry that checks them, candidates while their
    description has room. *)

From Stdlib Require Import Strings.String.
From S2P Require Import Prelude Machine CStdio Addr Ice IceWf IceGenerate StunMsg StunWriteCorrect StunSize StunReceived.
From S2P Require Import TurnTable AgentState AgentOrder AgentInv AgentSend AgentTimers AgentPairs.
From stdpp Require Import list.
#[local] Open Scope Z_scope.
#[local] Open Scope machine_scope.

Section Candidates.
Context `{Platform, Scan, Resolver, Hashes, !AgentEnvironment, !AgentLaws}.

(** ** A pair is added *)
Lemma entry_ok_mono n n' kinds kinds' e : (n <= n')%nat -> kinds `prefix_of` kinds' -> entry_ok n kinds e -> entry_ok n' kinds' e.
Proof.
  intros Hn Hk [Hkind Hr Ht Hne Hre]. split; try done. unfold kind_ok in *. destruct (e_type e); try done.
  destruct Hkind as (Et & (k & Ek & Hkn) & Hrel). split_and!; [done|exists k; split; [done|lia]|].
  destruct (e_relay_entry e) as [r|]; [|done]. destruct Hrel as [Hrk Hin]. split; [|done]. by eapply prefix_lookup_Some.
Qed.

Definition with_pair (p : agent_pair) (a : juice_agent) : juice_agent :=
  let ps := candidate_pairs a ++ [p] in
  a <| candidate_pairs := ps |> <| ordered_pairs := order_pairs (priority_in ps) (length ps) 0 [] |>.

Lemma with_pair_inv x p a : inv x a -> pair_ok p -> lenZ (candidate_pairs a) < MAX_CANDIDATE_PAIRS_COUNT ->
  inv x (with_pair p a) /\ evolves a (with_pair p a).
Proof.
  intros Hi Hp Hn. set (ps := candidate_pairs a ++ [p]).
  assert (Hl : (length ps = S (length (candidate_pairs a)))%nat) by (unfold ps; rewrite length_app; cbn; lia).
  assert (Hlk : forall k q, candidate_pairs a !! k = Some q -> ps !! k = Some q) by (intros k q Hq; by apply lookup_app_l_Some).
  split; [|split; try done; eauto]. pose proof Hi as Hi0. destruct Hi. split; try done.
  - change (candidate_pairs (with_pair p a)) with ps. apply Forall_app_2; [done|]. by constructor.
  - change (candidate_pairs (with_pair p a)) with ps. unfold lenZ in *. rewrite Hl. lia.
  - change (candidate_pairs (with_pair p a)) with ps. change (a_entries (with_pair p a)) with (a_entries a).
    apply (list.Forall_impl _ _ _ inv_entries). intros e. apply entry_ok_mono; [lia|done].
  - intros i e k q He Hx Hs Hk Hq. change (candidate_pairs (with_pair p a)) with ps in Hq.
    destruct (entry_pair x a i e k Hi0 He Hk) as [q' Hq']. assert (q = q') as -> by (apply Hlk in Hq'; congruence).
    by apply (inv_alive i e k q').
  - change (selected_pair (with_pair p a)) with (selected_pair a). change (candidate_pairs (with_pair p a)) with ps.
    destruct (selected_pair a); [lia|done].
  - intros Hs. destruct (inv_completed Hs) as (k & q & Hq & Hqn). eauto.
Qed.

(** *** With its entry *)
Definition with_entry (e : agent_stun_entry) (a : juice_agent) : juice_agent := a <| a_entries ::= fun l => l ++ [e] |>.

Lemma kinds_with_entry e a : kinds_of (with_entry e a) = kinds_of a ++ [e_type e].
Proof. unfold kinds_of. change (a_entries (with_entry e a)) with (a_entries a ++ [e]). by rewrite fmap_app. Qed.

Lemma with_entry_evolves e a : e_type e = AGENT_STUN_ENTRY_TYPE_CHECK -> evolves a (with_entry e a).
Proof.
  intros He. split; try done; eauto.
  - rewrite kinds_with_entry. by apply prefix_app_r.
  - change (a_entries (with_entry e a)) with (a_entries a ++ [e]). rewrite fmap_app. by apply prefix_app_r.
  - unfold others. change (a_entries (with_entry e a)) with (a_entries a ++ [e]). rewrite List.filter_app. cbn [List.filter].
    unfold is_check, is_etype. rewrite He, bool_decide_true by done. cbn. by rewrite app_nil_r.
Qed.

Lemma omap_app_one {X} (f : X -> option nat) (l : list X) y k : f y = Some k -> omap f (l ++ [y]) = omap f l ++ [k].
Proof. intros Hy. induction l as [|z l IH]; cbn; [by rewrite Hy|]. rewrite IH. by destruct (f z). Qed.

Lemma with_entry_inv x e k a : inv x a -> e_type e = AGENT_STUN_ENTRY_TYPE_CHECK -> e_pair e = Some k ->
  entry_ok (length (candidate_pairs a)) (kinds_of a) e -> e_state e <> AGENT_STUN_ENTRY_STATE_SUCCEEDED_KEEPALIVE ->
  k ∉ omap e_pair (a_entries a) -> inv x (with_entry e a).
Proof.
  intros Hi Ht Hk Hok Hs Hnew. pose proof (with_entry_evolves e a Ht) as He. pose proof (ev_kinds _ _ He) as Hpre.
  set (es := a_entries a ++ [e]). destruct Hi. split; try done.
  - change (a_entries (with_entry e a)) with es. change (candidate_pairs (with_entry e a)) with (candidate_pairs a).
    apply Forall_app_2; [apply (list.Forall_impl _ _ _ inv_entries); intros e'|constructor; [|done]; revert Hok]; by apply entry_ok_mono.
  - change (a_entries (with_entry e a)) with es. unfold es. rewrite (omap_app_one _ _ _ _ Hk). apply NoDup_app. split_and!; [done| |apply NoDup_singleton].
    intros j Hj ->%list_elem_of_singleton. done.
  - intros i e' j q He' Hx Hs' Hj Hq. change (a_entries (with_entry e a)) with es in He'.
    apply lookup_app_Some in He' as [He'|[_ He']]; [by apply (inv_alive i e' j q)|].
    apply list_lookup_singleton_Some in He' as [_ <-]. done.
  - change (selected_entry (with_entry e a)) with (selected_entry a). destruct (selected_entry a) as [i|]; [|done].
    by eapply prefix_lookup_Some.
  - unfold resolver_ok in *. change (resolver (with_entry e a)) with (resolver a). rewrite (ev_others _ _ He). done.
Qed.

(** *** Candidates behind pointers *)
Lemma candidate_record d i : description_wf d -> record_wf (resolved (candidate_at d i)).
Proof.
  intros (_ & _ & Hc). unfold candidate_at. destruct (candidates d !! i) as [c|] eqn:E; [|apply record_zero_received].
  apply (Forall_lookup_1 _ _ _ _ Hc E).
Qed.

(** An address of the family of an internet address is one. *)
Lemma same_family_inet a b : record_wf b -> inet a -> sa_family (addr a) = sa_family (addr b) -> inet b.
Proof.
  intros Hb Ha E f Ef. unfold record_wf in Hb. rewrite Ef in *. cbn in Hb, E.
  destruct (addr a) as [| |f'] eqn:Ea; cbn in E; [by destruct Hb; congruence..|by destruct (Ha f')].
Qed.

Lemma equal_inet a b : addr_record_is_equal a b true = true -> inet b.
Proof. unfold addr_record_is_equal. intros E f Ef. rewrite Ef in E. by destruct (addr a). Qed.

Lemma find_relay_spec es l r : find_relay es l = Some (Some r) ->
  (e_type <$> es) !! r = Some AGENT_STUN_ENTRY_TYPE_RELAY /\ exists c, l = Some c /\ inet (resolved c).
Proof.
  unfold find_relay. destruct l as [c|]; [|done]. case_bool_decide; [|done].
  destruct (find_index _ _ _) as [i|] eqn:E; [|done]. intros [= <-]. apply find_index_Some in E as (e & He & Hf).
  apply andb_true_iff in Hf as [Ht He']. apply bool_decide_eq_true in Ht. split; [by rewrite list_lookup_fmap, He; cbn; rewrite Ht|].
  exists c. split; [done|]. by eapply equal_inet.
Qed.

Lemma create_pair_family l r b p p' : ice_create_candidate_pair (Some l) (Some r) b p = (p', 0) ->
  sa_family (addr (resolved l)) = sa_family (addr (resolved r)).
Proof.
  unfold ice_create_candidate_pair. destruct (negb _) eqn:E; [by intros [= _]|]. intros _. apply negb_false_iff, Z.eqb_eq in E. done.
Qed.

Definition index_ok (i : nat) : Prop := Z.of_nat i < ICE_MAX_CANDIDATES_COUNT.

Lemma add_pair_spec x l r m : inv x (agent m) -> index_ok r -> match l with Some i => index_ok i | None => True end ->
  spec (agent_add_candidate_pair l r) m (fun _ m' => good x m m').
Proof.
  intros Hi Hr Hl. unfold agent_add_candidate_pair. apply spec_bind, spec_gets. change (id (agent m)) with (agent m).
  set (lc := candidate_at (a_local (agent m)) <$> l). set (rc := candidate_at (a_remote (agent m)) r).
  destruct (ice_create_candidate_pair lc (Some rc) _ _) as [value result] eqn:Ec.
  case_test; [by apply spec_ret, good_refl|]. apply negb_false_iff, Z.eqb_eq in E as ->.
  case_test; [by apply spec_ret, good_refl|]. zify_bool. cbv zeta.
  set (p := mkAgentPair l r _ _ _ _ _). set (pos := length (candidate_pairs (agent m))).
  destruct (with_pair_inv x p (agent m) Hi) as [Hi1 He1]; [by split|lia|].
  apply spec_bind, spec_modify, spec_bind, spec_modify. cbn [memory asked events].
  set (m1 := mkMachine (with_pair p (agent m)) (asked m) (events m)). match goal with |- spec _ ?m2 _ => change m2 with m1 end.
  assert (Hg1 : good x m m1) by by apply good_change. change (inv x (agent m1)) in Hi1.
  apply spec_bind, spec_gets. case_test; [by apply spec_ret|]. case_test; zify_bool.
  { pose proof (entries_bound _ _ Hi1). change MAX_STUN_ENTRIES_COUNT with 62 in *. lia. }
  destruct (find_relay _ _) as [relay|] eqn:Ef; [|by apply spec_ret].
  apply spec_bind, spec_ask, spec_bind, spec_modify. cbn [memory asked events].
  set (entry := entry_zero <| e_type := _ |> <| e_state := _ |> <| e_mode := _ |> <| e_pair := _ |> <| e_record := _ |>
    <| e_relay_entry := _ |> <| e_transaction_id := _ |> <| e_transaction_id_expired := _ |>).
  assert (Hpos : candidate_pairs (agent m1) !! pos = Some p) by by apply list_lookup_middle.
  assert (Hrc : record_wf (resolved rc)) by apply candidate_record, (inv_remote _ _ Hi).
  assert (Hi2 : inv x (with_entry entry (agent m1))).
  { apply (with_entry_inv x entry pos); try done.
    - split; [|exact Hrc|apply random_tid|unfold horizon; cbn; lia|unfold retry_ok, MIN_STUN_RETRANSMISSION_TIMEOUT; cbn; lia].
      unfold kind_ok. cbn. split_and!; [done|exists pos; split; [done|by eapply lookup_lt_Some]|].
      destruct relay as [ri|]; [|done]. destruct (find_relay_spec _ _ _ Ef) as [Hk (c & Hc & Hin)]. split; [exact Hk|].
      rewrite Hc in Ec. apply create_pair_family in Ec. by apply (same_family_inet (resolved c)).
    - change (a_entries (agent m1)) with (a_entries (agent m)). destruct (checks_pairs _ _ _ (inv_entries _ _ Hi)) as [_ Hb].
      intros Hin. rewrite list.Forall_forall in Hb. specialize (Hb _ Hin). unfold pos in Hb. lia. }
  pose proof (with_entry_evolves entry (agent m1) eq_refl) as He2.
  match goal with |- spec _ ?m2 _ => assert (Hg2 : good x m m2) end.
  { eapply good_trans; [exact Hg1|]. by apply (good_change x m1). }
  apply spec_bind, spec_gets. case_test; [by apply spec_ret|]. apply spec_bind.
  eapply (spec_mono _ _ (fun _ m3 => good x m m3)); [|intros ? m3 Hg3; by apply spec_ret].
  case_test; [|by apply spec_ret]. apply spec_bind.
  eapply spec_mono; [apply (unfreeze_spec x pos p); [apply Hg2|exact Hpos]|]; cbn beta. intros ? m3 Hg3. apply spec_ret. by eapply good_trans.
Qed.

Lemma add_relayed_spec x n i r m : inv x (agent m) -> index_ok r -> Z.of_nat (i + n) <= ICE_MAX_CANDIDATES_COUNT ->
  spec (add_relayed_pairs n i r) m (fun _ m' => good x m m').
Proof.
  intros Hi Hr. revert i m Hi. induction n as [|n IH]; intros i m Hi Hn; cbn [add_relayed_pairs]; [by apply spec_ret, good_refl|].
  apply spec_bind, spec_gets. case_test; [|apply IH; [done|lia]]. apply spec_bind.
  eapply spec_mono; [apply (add_pair_spec x (Some i) r); [done|done|unfold index_ok; lia]|]; cbn beta. intros result m1 Hg1.
  case_test; [by apply spec_ret|]. eapply spec_mono; [apply IH; [apply Hg1|lia]|]; cbn beta. intros ? m2 Hg2. by eapply good_trans.
Qed.

Lemma local_count x a : inv x a -> Z.of_nat (length (candidates (a_local a))) <= ICE_MAX_CANDIDATES_COUNT.
Proof. intros Hi. destruct (inv_local _ _ Hi) as (Hd & _). apply (ok_count _ Hd). Qed.

Lemma remote_count x a : inv x a -> Z.of_nat (length (candidates (a_remote a))) <= ICE_MAX_CANDIDATES_COUNT.
Proof. intros Hi. destruct (inv_remote _ _ Hi) as (Hd & _). apply (ok_count _ Hd). Qed.

Lemma add_for_remote_spec x r m : inv x (agent m) -> index_ok r ->
  spec (agent_add_candidate_pairs_for_remote r) m (fun _ m' => good x m m').
Proof.
  intros Hi Hr. unfold agent_add_candidate_pairs_for_remote. apply spec_bind.
  eapply spec_mono; [by apply (add_pair_spec x None r)|]; cbn beta. intros result m1 Hg1. case_test; [by apply spec_ret|].
  apply spec_bind, spec_gets. pose proof (local_count _ _ (gd_inv _ _ _ Hg1)) as Hl.
  eapply spec_mono; [apply (add_relayed_spec x); [apply Hg1|done|lia]|]; cbn beta. intros ? m2 Hg2. by eapply good_trans.
Qed.

Lemma pair_remotes_spec x n i l m : inv x (agent m) -> index_ok l -> Z.of_nat (i + n) <= ICE_MAX_CANDIDATES_COUNT ->
  spec (pair_with_remotes n i l) m (fun _ m' => good x m m').
Proof.
  intros Hi Hl. revert i m Hi. induction n as [|n IH]; intros i m Hi Hn; cbn [pair_with_remotes]; [by apply spec_ret, good_refl|].
  apply spec_bind, spec_gets, spec_bind. apply (spec_mono _ _ (fun _ m1 => good x m m1)).
  - case_test; [|by apply spec_ret, good_refl]. apply spec_bind.
    eapply spec_mono; [apply (add_pair_spec x (Some l) i); [done|unfold index_ok; lia|done]|]; cbn beta. intros ? m1 Hg1. by apply spec_ret.
  - intros _ m1 Hg1. eapply spec_mono; [apply IH; [apply Hg1|lia]|]; cbn beta. intros ? m2 Hg2. by eapply good_trans.
Qed.

(** ** Candidates *)
Lemma candidate_priority_range t family c i : 0 <= ice_compute_priority t family c i < 2 ^ 32.
Proof. unfold ice_compute_priority. cbv zeta. apply wrap_range. lia. Qed.

Lemma created_wf t c i record candidate : t <> ICE_CANDIDATE_TYPE_UNKNOWN -> - 2 ^ 31 <= c < 2 ^ 31 -> record_wf record ->
  ice_create_local_candidate t c i record = (candidate, 0) -> candidate_wf candidate /\ type candidate = t.
Proof.
  intros Ht Hc Hr. unfold ice_create_local_candidate. cbv zeta. destruct (getnameinfo record) as [[host service]|] eqn:E; [|by intros [= _]].
  destruct (names record host service E) as [Hh Hs]. intros E'. injection E' as <-. split; [|done]. split; [|done].
  split; cbn; try done; [apply candidate_priority_range|]. split; [by vm_compute|by repeat constructor].
Qed.

Lemma add_candidate_wf c d c' d' : candidate_wf c -> description_wf d -> ice_add_candidate c d = (c', d', 0) ->
  description_wf d' /\ candidate_wf c' /\ candidates d' = candidates d ++ [c'] /\ index_ok (pred (length (candidates d'))).
Proof.
  intros [Hc Hr] (Hd & Hu & Hcs) E. pose proof (add_candidate_ok c d Hc Hd) as Ha. rewrite E in Ha.
  destruct Ha as [Hd' [(_ & _ & Ec & _)|[? _]]]; [|done].
  assert (Hd's : d' = d <| candidates := candidates d' |> /\ resolved c' = resolved c).
  { unfold ice_add_candidate in E. repeat case_match; simplify_eq; try done. all: by split. }
  destruct Hd's as [Ed Er]. assert (Hc' : candidate_wf c').
  { split; [|by rewrite Er]. pose proof (ok_candidates _ Hd') as Hf. rewrite Ec in Hf. apply Forall_app in Hf as [_ Hf].
    by apply Forall_cons_1 in Hf as [Hf _]. }
  split_and!; try done.
  - split; [done|]. rewrite Ed. cbn. split; [done|]. rewrite Ec. apply Forall_app_2; [done|]. by constructor.
  - pose proof (ok_count _ Hd') as Hn. unfold index_ok, candidates_count, lenZ in *. rewrite Ec in *. rewrite length_app in *. cbn in *. lia.
Qed.

Lemma generate_spec x c m : inv x (agent m) -> candidate_ok c ->
  spec (generate_candidate c) m (fun _ m' => good x m m' /\ agent m' = agent m).
Proof.
  intros Hi Hc. unfold generate_candidate. apply spec_bind, spec_ask, spec_bind. cbn [asked memory events].
  destruct (buffer_bytes (asked m)) as [Hl _].
  destruct (generate_candidate_line BUFFER_SIZE c (buffer_of (asked m)) Hc ltac:(done) Hl) as (tmp & E & _).
  eapply spec_defined; [exact E|]. cbn beta iota. apply spec_ret. split; [by apply (good_asked x m)|done].
Qed.

(** A description changes. *)
Lemma local_spec x d m : inv x (agent m) -> description_wf d ->
  spec (modify (fun a => a <| a_local := d |>)) m (fun _ m' => good x m m' /\ agent m' = agent m <| a_local := d |>).
Proof.
  intros Hi Hd. apply spec_modify. split; [|done]. apply good_change; [inv_kept|split; try done; eauto|done].
Qed.

Lemma remote_spec x d m : inv x (agent m) -> description_wf d ->
  spec (modify (fun a => a <| a_remote := d |>)) m (fun _ m' => good x m m' /\ agent m' = agent m <| a_remote := d |>).
Proof.
  intros Hi Hd. apply spec_modify. split; [|done]. apply good_change; [inv_kept|split; try done; eauto|done].
Qed.

Lemma emit_spec x e m : inv x (agent m) -> (forall s, e <> StateChanged s) -> spec (emit e) m (fun _ m' => good x m m').
Proof. intros Hi He. apply spec_emit. by apply (good_event x m e). Qed.

Lemma local_relayed_spec x record m : inv x (agent m) -> record_wf record ->
  spec (agent_add_local_relayed_candidate record) m (fun _ m' => good x m m').
Proof.
  intros Hi Hr. unfold agent_add_local_relayed_candidate. apply spec_bind, spec_gets. change (id (agent m)) with (agent m).
  destruct (ice_find_candidate_from_addr _ _ _); [by apply spec_ret, good_refl|].
  destruct (ice_create_local_candidate _ _ _ _) as [c result] eqn:Ec. case_test; [by apply spec_ret, good_refl|].
  apply negb_false_iff, Z.eqb_eq in E as ->. apply created_wf in Ec as [Hc _]; [|done|lia|done].
  destruct (ice_add_candidate _ _) as [[c' d'] result] eqn:Ea. case_test; [by apply spec_ret, good_refl|].
  apply negb_false_iff, Z.eqb_eq in E as ->. apply add_candidate_wf in Ea as (Hd & Hc' & _ & Hin); [|done|apply (inv_local _ _ Hi)].
  apply spec_bind. eapply spec_mono; [by apply (local_spec x d')|]; cbn beta. intros ? m1 [Hg1 _]. apply spec_bind.
  eapply spec_mono; [apply (generate_spec x c'); [apply Hg1|apply Hc']|]; cbn beta. intros [text|] m2 [Hg2 _]; [|apply spec_ret; by eapply good_trans].
  apply spec_bind, spec_gets, spec_bind. pose proof (remote_count _ _ (gd_inv _ _ _ Hg2)) as Hl.
  eapply spec_mono; [apply (pair_remotes_spec x); [apply Hg2|done|lia]|]; cbn beta. intros ? m3 Hg3. apply spec_bind.
  eapply spec_mono; [by apply (emit_spec x); [apply Hg3|]|]; cbn beta. intros ? m4 Hg4. apply spec_ret.
  eapply good_trans; [exact Hg1|]. eapply good_trans; [exact Hg2|]. by eapply good_trans.
Qed.

Lemma local_reflexive_spec x t record m : inv x (agent m) -> record_wf record ->
  spec (agent_add_local_reflexive_candidate t record) m (fun _ m' => good x m m').
Proof.
  intros Hi Hr. unfold agent_add_local_reflexive_candidate. case_test; [by apply spec_ret, good_refl|].
  assert (Ht : t <> ICE_CANDIDATE_TYPE_UNKNOWN) by (intros ->; done).
  apply spec_bind, spec_gets. change (id (agent m)) with (agent m). cbv zeta.
  destruct (ice_find_candidate_from_addr _ _ _); [by apply spec_ret, good_refl|].
  destruct (ice_create_local_candidate _ _ _ _) as [c result] eqn:Ec. case_test; [by apply spec_ret, good_refl|].
  apply negb_false_iff, Z.eqb_eq in E0 as ->. apply created_wf in Ec as [Hc _]; [|done|lia|done].
  case_test; [by apply spec_ret, good_refl|].
  destruct (ice_add_candidate _ _) as [[c' d'] result] eqn:Ea. case_test; [by apply spec_ret, good_refl|].
  apply negb_false_iff, Z.eqb_eq in E1 as ->. apply add_candidate_wf in Ea as (Hd & Hc' & _ & _); [|done|apply (inv_local _ _ Hi)].
  apply spec_bind. eapply spec_mono; [by apply (local_spec x d')|]; cbn beta. intros ? m1 [Hg1 _]. apply spec_bind.
  eapply spec_mono; [apply (generate_spec x c'); [apply Hg1|apply Hc']|]; cbn beta. intros [text|] m2 [Hg2 _]; [|apply spec_ret; by eapply good_trans].
  apply spec_bind. apply (spec_mono _ _ (fun _ m3 => good x m2 m3)).
  - case_test; [by apply (emit_spec x); [apply Hg2|]|]. apply spec_ret, good_refl, Hg2.
  - intros _ m3 Hg3. apply spec_ret. eapply good_trans; [exact Hg1|]. by eapply good_trans.
Qed.

Lemma priority_wf p d : description_wf d -> 0 <= p < 2 ^ 32 -> description_wf (set_last_priority p d).
Proof.
  intros (Hd & Hu & Hc) Hp. unfold set_last_priority.
  assert (Hcs : Forall candidate_wf (alter (fun c => c <| Ice.priority := p |>) (pred (length (candidates d))) (candidates d))).
  { apply Forall_alter; [done|]. intros c _ [Hok Hr]. split; [|done]. by destruct Hok. }
  split; [|by split]. destruct Hd as [H1' H2' H3' _]. split; try done.
  - unfold candidates_count, lenZ in *. cbn. by rewrite length_alter.
  - apply (list.Forall_impl _ _ _ Hcs). by intros c [].
Qed.

Lemma remote_reflexive_spec x t p record m : inv x (agent m) -> record_wf record -> 0 <= p < 2 ^ 32 ->
  spec (agent_add_remote_reflexive_candidate t p record) m (fun _ m' => good x m m').
Proof.
  intros Hi Hr Hp. unfold agent_add_remote_reflexive_candidate. case_test; [by apply spec_ret, good_refl|].
  apply negb_false_iff, bool_decide_eq_true in E as ->.
  apply spec_bind, spec_gets. change (id (agent m)) with (agent m).
  destruct (ice_find_candidate_from_addr _ _ _); [by apply spec_ret, good_refl|].
  destruct (ice_create_local_candidate _ _ _ _) as [c result] eqn:Ec. case_test; [by apply spec_ret, good_refl|].
  apply negb_false_iff, Z.eqb_eq in E as ->. apply created_wf in Ec as [Hc _]; [|done|lia|done].
  case_test; [by apply spec_ret, good_refl|].
  destruct (ice_add_candidate _ _) as [[c' d'] result] eqn:Ea. case_test; [by apply spec_ret, good_refl|].
  apply negb_false_iff, Z.eqb_eq in E0 as ->. apply add_candidate_wf in Ea as (Hd & Hc' & _ & Hin); [|done|apply (inv_remote _ _ Hi)].
  apply spec_bind. eapply spec_mono; [by apply (remote_spec x (set_last_priority p d')), priority_wf|]; cbn beta. intros ? m1 [Hg1 _].
  eapply spec_mono; [apply (add_for_remote_spec x); [apply Hg1|done]|]; cbn beta. intros ? m2 Hg2. by eapply good_trans.
Qed.
End Candidates.
