(* ===== verification/AgentBinding.v ===== *)
(** * Binding messages received: every step keeps the invariant *)

From S2P Require Import Prelude Machine CStdio Addr Ice IceWf IceSort StunMsg StunWrite StunWriteCorrect StunSize StunRead StunReceived.
From S2P Require Import Turn TurnTable AgentState AgentOrder Agent AgentInv AgentTurn AgentSend AgentTimers AgentPairs AgentCandidates.
From stdpp Require Import list.
#[local] Open Scope Z_scope.
#[local] Open Scope machine_scope.

Section Binding.
Context `{Platform, Scan, Resolver, Hashes, !AgentEnvironment, !AgentLaws}.

(** ** Entries found *)
Definition has_entry (a : juice_agent) (i : nat) : Prop := is_Some (a_entries a !! i).

Lemma good_entry x m m' i e : good x m m' -> a_entries (agent m) !! i = Some e ->
  exists e', a_entries (agent m') !! i = Some e' /\ e_type e' = e_type e /\ e_pair e' = e_pair e.
Proof. intros Hg. apply evolves_entry, Hg. Qed.

Lemma good_pair x m m' k p : good x m m' -> candidate_pairs (agent m) !! k = Some p ->
  exists p', candidate_pairs (agent m') !! k = Some p' /\ (p_nominated p = true -> p_nominated p' = true).
Proof. intros Hg. apply evolves_pair, Hg. Qed.

Lemma turn_entry_relay x a i e t : inv x a -> a_entries a !! i = Some e -> e_turn e = Some t -> relay_entry a i e t.
Proof.
  intros Hi He Et. split_and!; try done. pose proof (eo_kind _ _ _ (inv_entry _ _ _ _ Hi He)) as Hk. unfold kind_ok in Hk.
  destruct (e_type e); [done|destruct Hk as (_ & _ & Hk); congruence|done|destruct Hk as [Hk _]; congruence].
Qed.

Lemma find_entry_tid_spec x n i tid m : inv x (agent m) -> is_tid tid -> (i + n <= length (a_entries (agent m)))%nat ->
  spec (find_entry_from_transaction_id n i tid) m (fun r m' => sends x m m' /\ match r with Some j => has_entry (agent m') j | None => True end).
Proof.
  intros Hi Ht. revert i m Hi. induction n as [|n IH]; intros i m Hi Hn; cbn [find_entry_from_transaction_id].
  { apply spec_ret. split; [by apply sends_refl|done]. }
  destruct (lookup_lt_is_Some_2 (a_entries (agent m)) i ltac:(lia)) as [e He].
  apply spec_bind. apply (spec_get_entry i e); [done|]. case_test; [apply spec_ret; split; [by apply sends_refl|by exists e]|].
  destruct (e_turn e) as [t|] eqn:Et; [|apply IH; [done|lia]].
  pose proof (turn_entry_relay _ _ _ _ _ Hi He Et) as Hr. pose proof (relay_entry_ok _ _ _ _ _ Hi Hr) as Hok.
  destruct (retrieved_spec t tid Hok Ht) as (res & map' & E' & Hok' & _). apply spec_bind. eapply spec_defined; [exact E'|].
  cbn beta iota. apply spec_bind. eapply spec_mono; [by apply (set_turn_spec x i e t (with_map map' t))|]; cbn beta.
  intros ? m1 [Hs Hr1]. destruct res as [r|]; [apply spec_ret; split; [done|]; eexists; apply Hr1|].
  eapply spec_mono; [apply IH; [apply (sends_inv _ _ _ Hs)|]|]; cbn beta.
  - destruct Hs as [_ (es & Ees & Ec)]. apply (f_equal length) in Ec. rewrite !length_fmap in Ec. rewrite Ees. cbn. lia.
  - intros r m2 [Hs2 Hj]. split; [by eapply sends_trans|done].
Qed.

Lemma find_index_has (f : agent_stun_entry -> bool) a i : find_index f (a_entries a) 0 = Some i -> has_entry a i.
Proof. intros Hf. apply find_index_Some in Hf as (e & He & _). by exists e. Qed.

Lemma find_record_has a record relayed i : agent_find_entry_from_record a record relayed = Some i -> has_entry a i.
Proof.
  unfold agent_find_entry_from_record. cbv zeta.
  match goal with |- context [match ?q with Some _ => _ | None => _ end] => destruct q as [j|] eqn:Eq end.
  - intros [= ->]. repeat case_match; simplify_eq. by eexists.
  - destruct relayed as [rel|]; [apply find_index_has|]. destruct (List.find _ _) as [k|]; [|apply find_index_has].
    destruct (find_index _ _ _) as [j|] eqn:Ef; [intros [= ->]; by apply find_index_has in Ef|apply find_index_has].
Qed.

(** ** Excepting an entry for a while *)
Lemma good_weaken i m m' : good None m m' -> good (Some i) m m'.
Proof. intros [Hi He Hr]. split; [by apply inv_weaken|done|done]. Qed.

Lemma good_strengthen i e m m' : good (Some i) m m' -> a_entries (agent m') !! i = Some e ->
  (e_state e = AGENT_STUN_ENTRY_STATE_SUCCEEDED_KEEPALIVE ->
   forall k p, e_pair e = Some k -> candidate_pairs (agent m') !! k = Some p -> works p) -> good None m m'.
Proof. intros [Hi He Hr] Hl Hw. split; [by apply (inv_strengthen i e)|done|done]. Qed.

(** An entry without a pair. *)
Lemma pairless x a i e : inv x a -> a_entries a !! i = Some e -> e_type e <> AGENT_STUN_ENTRY_TYPE_CHECK -> e_pair e = None.
Proof.
  intros Hi He Ht. pose proof (eo_kind _ _ _ (inv_entry _ _ _ _ Hi He)) as Hk. unfold kind_ok in Hk.
  destruct (e_type e); [done|by destruct Hk..|done].
Qed.

Lemma good_pairless i e m m' : good (Some i) m m' -> a_entries (agent m) !! i = Some e -> inv None (agent m) ->
  e_type e <> AGENT_STUN_ENTRY_TYPE_CHECK -> good None m m'.
Proof.
  intros Hg He Hi Ht. destruct (good_entry _ _ _ _ _ Hg He) as (e' & He' & Ht' & Hp').
  apply (good_strengthen i e' m m' Hg He'). intros _ k p Hk _. rewrite (pairless None _ i e Hi He Ht) in Hp'. congruence.
Qed.

(** ** Steps shared by the handlers *)
Lemma fail_entry_spec x i e m : inv x (agent m) -> a_entries (agent m) !! i = Some e ->
  spec (fail_entry i) m (fun _ m' => good x m m' /\ agent m' = put_entry i (e <| e_state := AGENT_STUN_ENTRY_STATE_FAILED |> <| e_next_transmission := 0 |>) (agent m) /\
    a_entries (agent m') !! i = Some (e <| e_state := AGENT_STUN_ENTRY_STATE_FAILED |> <| e_next_transmission := 0 |>)).
Proof.
  intros Hi He. by apply (stop_spec x i AGENT_STUN_ENTRY_STATE_FAILED e).
Qed.

(** An entry fails, and its pair. *)
Lemma fail_pair_spec i e k p m : inv None (agent m) -> a_entries (agent m) !! i = Some e -> e_pair e = Some k ->
  candidate_pairs (agent m) !! k = Some p ->
  spec (fail_entry i ;; set_pair k (fun p => p <| p_state := ICE_CANDIDATE_PAIR_STATE_FAILED |>)) m (fun _ m' => good None m m').
Proof.
  intros Hi He Hk Hp. apply spec_bind. eapply spec_mono; [by apply (fail_entry_spec None i e)|]; cbn beta.
  intros ? m1 (Hg1 & Ea1 & He1). eapply spec_mono; [apply (pair_state_spec None k _ p); [apply Hg1|by rewrite Ea1|]|]; cbn beta.
  - intros _. right. by apply (unused_entry None None _ i _ k (gd_inv _ _ _ Hg1) He1); [|right].
  - intros ? m2 (Hg2 & _). by eapply good_trans.
Qed.

(** The entry is due for a check again. *)
Lemma restart_spec x i e delay m : inv x (agent m) -> a_entries (agent m) !! i = Some e -> 0 <= delay <= 2 ^ 20 - 6200 ->
  spec (set_entry i (fun e => e <| e_state := AGENT_STUN_ENTRY_STATE_PENDING |>) ;; agent_arm_transmission i delay) m
    (fun _ m' => good x m m' /\ entry_at m' i (fun e' => e_state e' = AGENT_STUN_ENTRY_STATE_PENDING)).
Proof.
  intros Hi He Hd. apply spec_bind. eapply spec_mono; [by apply (state_spec x i AGENT_STUN_ENTRY_STATE_PENDING e)|]; cbn beta.
  intros ? m1 (Hg1 & _ & He1). eapply spec_mono; [eapply (arm_spec x i); [apply Hg1|exact He1|done]|]; cbn beta.
  intros ? m2 (Hg2 & e2 & He2 & Ha2). split; [by eapply good_trans|]. by exists e2.
Qed.

(** The mode changes. *)
Lemma mode_spec x f m : inv x (agent m) -> spec (modify (fun a => a <| a_mode ::= f |>)) m (fun _ m' => good x m m').
Proof. intros Hi. apply spec_modify. apply good_change; [inv_kept|split; try done; eauto|done]. Qed.

Lemma switch_mode_spec x mode m : inv x (agent m) -> spec (switch_mode mode) m (fun _ m' => good x m m').
Proof.
  intros Hi. unfold switch_mode. apply spec_bind. eapply spec_mono; [by apply (mode_spec x (fun _ => mode))|]; cbn beta. intros ? m1 Hg1.
  eapply spec_mono; [apply update_pairs_spec, Hg1|]; cbn beta. intros ? m2 Hg2. by eapply good_trans.
Qed.

(** ** Requests *)
Lemma message_tid_ok msg : message_ok msg -> tid_ok (transaction_id msg).
Proof. intros Hm. destruct (mo_tid _ Hm). by split. Qed.

Lemma answer_spec i e class code msg mapped_ m : inv None (agent m) -> a_entries (agent m) !! i = Some e -> message_ok msg ->
  (forall r, mapped_ = Some r -> record_wf r) ->
  spec (agent_send_stun_binding i class code (Some (transaction_id msg)) mapped_) m (fun _ m' => good None m m').
Proof.
  intros Hi He Hm Hr. eapply spec_mono; [apply (binding_spec None i e); try done|]; cbn beta.
  - intros t [= <-]. by apply message_tid_ok.
  - intros ? m' [Hg _]. exact Hg.
Qed.

(** What [use_candidate] does to the pair of the entry. *)
Lemma nominate_spec k p m : inv None (agent m) -> candidate_pairs (agent m) !! k = Some p ->
  spec (let* p := get_pair k in
        if is_pstate ICE_CANDIDATE_PAIR_STATE_SUCCEEDED p then set_pair k (fun p => p <| p_nominated := true |>)
        else if negb (p_nomination_requested p) then set_pair k (fun p => p <| p_nomination_requested := true |>)
        else ret tt) m (fun _ m' => good None m m').
Proof.
  intros Hi Hp. apply spec_bind. apply (spec_get_pair k p); [done|]. pose proof (inv_pair _ _ _ _ Hi Hp) as Hok.
  case_test; [|case_test; [|by apply spec_ret, good_refl]].
  - eapply spec_mono; [by apply (pair_spec None k _ p); [..|intros _; left; right]|]; cbn beta. by intros ? m1 (Hg1 & _).
  - eapply spec_mono; [by apply (pair_spec None k _ p); [..|intros Hw; left]|]; cbn beta. by intros ? m1 (Hg1 & _).
Qed.

Lemma process_request_spec msg i e src m : inv None (agent m) -> message_ok msg -> record_wf src -> a_entries (agent m) !! i = Some e ->
  spec (process_binding_request msg i src) m (fun _ m' => good None m m').
Proof.
  intros Hi Hm Hsrc He. unfold process_binding_request. apply spec_bind. apply (spec_get_entry i e); [done|]. cbv zeta.
  assert (Hrefuse : forall code, spec (agent_send_stun_binding i STUN_CLASS_RESP_ERROR code (Some (transaction_id msg)) None) m (fun _ m' => good None m m'))
    by (intros code; by apply (answer_spec i e)).
  assert (Hdrop : forall code z, spec (agent_send_stun_binding i STUN_CLASS_RESP_ERROR code (Some (transaction_id msg)) None ;; ret z : A Z) m (fun _ m' => good None m m')).
  { intros code z. apply spec_bind. eapply spec_mono; [apply Hrefuse|]; cbn beta. intros ? m1 Hg1. by apply spec_ret. }
  assert (Hconflict : forall (b : bool) code mode, spec ((if b then agent_send_stun_binding i STUN_CLASS_RESP_ERROR code (Some (transaction_id msg)) None ;; ret tt
      else switch_mode mode) ;; ret 0 : A Z) m (fun _ m' => good None m m')).
  { intros b code mode. apply spec_bind. apply (spec_mono _ _ (fun _ m1 => good None m m1)); [|by intros ? m1 Hg1; apply spec_ret].
    destruct b; [|by apply switch_mode_spec]. apply spec_bind. eapply spec_mono; [apply Hrefuse|]; cbn beta. intros ? m1 Hg1. by apply spec_ret. }
  case_test; [by apply spec_ret, good_refl|]. rename E into Ec. apply negb_false_iff, bool_decide_eq_true in Ec.
  case_test; [apply Hdrop|]. apply spec_bind, spec_gets. change (id (agent m)) with (agent m).
  case_test; [apply Hconflict|]. case_test.
  { specialize (Hconflict (negb (ice_controlling msg <=? ice_tiebreaker (agent m))) 487 AGENT_MODE_CONTROLLING).
    destruct (ice_controlling msg <=? _); exact Hconflict. }
  destruct (check_pair None _ i e Hi He Ec) as (k & p & Hk & Hp). apply spec_bind. eapply spec_defined; [exact Hk|].
  case_test; [apply Hdrop|]. apply spec_bind. apply (spec_mono _ _ (fun _ m1 => good None m m1)).
  { destruct (use_candidate msg); [by apply (nominate_spec k p)|by apply spec_ret, good_refl]. }
  intros ? m1 Hg1. destruct (good_entry _ _ _ _ _ Hg1 He) as (e1 & He1 & Ht1 & Hp1).
  apply spec_bind. eapply spec_mono; [apply (answer_spec i e1 _ _ msg (Some src)); [apply Hg1|done|done|by intros r [= <-]]|]; cbn beta.
  intros result m2 Hg2. assert (Hg02 : good None m m2) by by eapply good_trans. case_test; [by apply spec_ret|].
  destruct (good_pair _ _ _ _ _ Hg02 Hp) as (p2 & Hp2 & _). destruct (good_entry _ _ _ _ _ Hg02 He) as (e2 & He2 & Ht2 & Hk2).
  apply spec_bind. apply (spec_get_pair k p2); [done|]. apply spec_bind, spec_gets, spec_bind.
  apply (spec_mono _ _ (fun _ m3 => good None m m3)); [|by intros ? m3 Hg3; apply spec_ret].
  case_test; [|by apply spec_ret]. match goal with Hb : negb _ && _ = true |- _ => apply andb_true_iff in Hb as [Es _] end. apply negb_true_iff, bool_decide_eq_false in Es.
  apply spec_bind. eapply spec_mono; [by apply (pair_state_spec None k _ p2); [apply Hg2|..]|]; cbn beta. intros ? m3 (Hg3 & Ea3 & _).
  eapply spec_mono; [apply (restart_spec None i e2); [apply Hg3|by rewrite Ea3|unfold STUN_PACING_TIME; lia]|]; cbn beta.
  intros ? m4 [Hg4 _]. eapply good_trans; [exact Hg02|]. by eapply good_trans.
Qed.

(** ** Success *)
Lemma find_candidate_index d record t i : description_wf d -> ice_find_candidate_from_addr d record t = Some i -> index_ok i.
Proof.
  intros (Hd & _). unfold ice_find_candidate_from_addr. rewrite find_from_addr_spec.
  destruct (list_find _ _) as [[j c]|] eqn:E; [|done]. cbn. intros [= <-]. apply list_find_Some in E as (Hj & _).
  apply lookup_lt_Some in Hj. pose proof (ok_count _ Hd) as Hn. unfold index_ok, candidates_count, lenZ in *. lia.
Qed.

(** The pair of entry [i] and the entry after a check. *)
Definition checked (m' : amachine) (i k : nat) : Prop :=
  exists e p, a_entries (agent m') !! i = Some e /\ candidate_pairs (agent m') !! k = Some p /\
    (e_state e = AGENT_STUN_ENTRY_STATE_FAILED \/ works p).

Lemma check_succeeded_spec msg i k e p src m : inv (Some i) (agent m) -> a_entries (agent m) !! i = Some e -> e_pair e = Some k ->
  candidate_pairs (agent m) !! k = Some p ->
  spec (check_succeeded msg i k src) m (fun _ m' => good (Some i) m m' /\ checked m' i k).
Proof.
  intros Hi He Hk Hp. pose proof (unused_entry _ (Some i) _ i e k Hi He Hk (or_introl eq_refl)) as Hu.
  unfold check_succeeded. apply spec_bind. apply (spec_get_entry i e); [done|].
  apply spec_bind. apply (spec_get_pair k p); [done|]. case_test.
  { apply spec_bind. eapply spec_mono; [by apply (fail_entry_spec (Some i) i e)|]; cbn beta. intros ? m1 (Hg1 & Ea1 & He1).
    apply spec_bind. eapply spec_mono; [apply (pair_state_spec (Some i) k _ p); [apply Hg1|by rewrite Ea1|]|]; cbn beta.
    - intros _. right. by apply (unused_entry (Some i) (Some i) _ i _ k (gd_inv _ _ _ Hg1) He1); [|left].
    - intros ? m2 (Hg2 & Ea2 & Hp2). apply spec_ret. split; [by eapply good_trans|].
      eexists _, _. split; [rewrite Ea2; exact He1|]. split; [exact Hp2|by left]. }
  apply spec_bind. eapply spec_mono; [apply (pair_state_spec (Some i) k _ p); [done|done|by left]|]; cbn beta.
  intros ? m1 (Hg1 & Ea1 & Hp1). set (p1 := p <| p_state := _ |>) in *.
  set (ok := fun p : agent_pair => p_state p = ICE_CANDIDATE_PAIR_STATE_SUCCEEDED).
  set (step := fun m' => good (Some i) m m' /\ a_entries (agent m') !! i = Some e /\
    exists q, candidate_pairs (agent m') !! k = Some q /\ p_state q = ICE_CANDIDATE_PAIR_STATE_SUCCEEDED).
  assert (Hset : forall f m2 q, step m2 -> candidate_pairs (agent m2) !! k = Some q -> pair_ok (f q) -> p_priority (f q) = p_priority q ->
    p_state (f q) = p_state q -> (p_nominated q = true -> p_nominated (f q) = true) -> spec (set_pair k f) m2 (fun _ m3 => step m3)).
  { intros f m2 q (Hg2 & He2 & q' & Hq' & Hs) Hq Hok Hpr Hst Hn. assert (q' = q) as -> by congruence.
    eapply spec_mono; [apply (pair_spec (Some i) k f q); try done; [apply Hg2|intros _; left; left; congruence]|]; cbn beta.
    intros ? m3 (Hg3 & Ea3 & Hq3). split; [by eapply good_trans|]. split; [by rewrite Ea3|]. exists (f q). split; [done|congruence]. }
  assert (Hs1 : step m1) by (split; [done|]; split; [by rewrite Ea1|by exists p1]).
  assert (Hpair : forall m2 q, step m2 -> candidate_pairs (agent m2) !! k = Some q -> pair_ok q).
  { intros m2 q (Hg2 & _) Hq. exact (inv_pair _ _ _ _ (gd_inv _ _ _ Hg2) Hq). }
  apply spec_bind, spec_gets, spec_bind. apply (spec_mono _ _ (fun _ m2 => step m2)).
  { case_test; [|by apply spec_ret]. apply (Hset _ _ p1); try done. destruct (Hpair m1 p1 Hs1 Hp1) as [Hr _]. split; [done|]. cbn.
    destruct (ice_find_candidate_from_addr _ _ _) as [j|] eqn:Ef; [|done]. by apply find_candidate_index in Ef; [|apply (inv_local _ _ (gd_inv _ _ _ Hg1))]. }
  intros ? m2 Hs2. apply spec_bind, spec_ask, spec_bind. cbn [memory asked events].
  pose proof Hs2 as (Hg2 & He2 & q & Hq & Hst).
  assert (Hs2' : step (mkMachine (agent m2) (S (asked m2)) (events m2))).
  { split; [|by split; [|by exists q]]. eapply good_trans; [exact Hg2|]. apply good_asked, Hg2. }
  eapply spec_mono; [apply (Hset _ _ q Hs2'); try done; exact (Hpair _ _ Hs2 Hq)|]; cbn beta. intros ? m3 Hs3.
  pose proof Hs3 as (Hg3 & He3 & q3 & Hq3 & Hst3). apply spec_bind. apply (spec_get_pair k q3); [done|].
  apply spec_bind. apply (spec_mono _ _ (fun _ m4 => step m4)).
  { case_test; [|by apply spec_ret]. apply (Hset _ _ q3); try done. exact (Hpair _ _ Hs3 Hq3). }
  intros ? m4 (Hg4 & He4 & q4 & Hq4 & Hst4). apply spec_ret. split; [done|]. exists e, q4. split_and!; try done. by right; left.
Qed.

(** The entry of a response that succeeded, with its keepalives on while no pair
    is settled. *)
Lemma entry_succeeded_spec i e m : inv (Some i) (agent m) -> a_entries (agent m) !! i = Some e ->
  spec (entry_succeeded i) m (fun _ m' => good (Some i) m m').
Proof.
  intros Hi He. unfold entry_succeeded. apply spec_bind. apply (spec_get_entry i e); [done|].
  apply spec_bind. apply (spec_mono _ _ (fun _ m1 => good (Some i) m m1)).
  { case_test; [|by apply spec_ret, good_refl].
    eapply spec_mono; [by apply (stop_spec (Some i) i AGENT_STUN_ENTRY_STATE_SUCCEEDED e)|]; cbn beta. by intros ? m1 (Hg1 & _). }
  intros ? m1 Hg1. apply spec_bind, spec_gets. case_test; [|by apply spec_ret].
  destruct (good_entry _ _ _ _ _ Hg1 He) as (e1 & He1 & _). apply spec_bind.
  eapply spec_mono; [apply (state_spec (Some i) i AGENT_STUN_ENTRY_STATE_SUCCEEDED_KEEPALIVE e1); [apply Hg1|done|by right]|]; cbn beta.
  intros ? m2 (Hg2 & _ & He2). eapply spec_mono; [eapply (arm_keepalive_spec (Some i)); [apply Hg2|exact He2|done]|]; cbn beta.
  intros ? m3 (Hg3 & _). eapply good_trans; [exact Hg1|]. by eapply good_trans.
Qed.

Lemma process_success_spec msg i e src behind m : inv None (agent m) -> message_ok msg -> a_entries (agent m) !! i = Some e ->
  spec (process_binding_success msg i src behind) m (fun _ m' => good None m m').
Proof.
  intros Hi Hm He. unfold process_binding_success. apply spec_bind. apply (spec_get_entry i e); [done|].
  apply spec_bind. eapply spec_mono; [apply (entry_succeeded_spec i e); [by apply inv_weaken|done]|]; cbn beta. intros ? m1 Hg1.
  apply spec_bind. apply (spec_mono _ _ (fun _ m2 => good (Some i) m m2)).
  { case_test; [|by apply spec_ret]. apply spec_bind.
    eapply spec_mono; [apply (local_reflexive_spec (Some i)); [apply Hg1|apply (mo_mapped _ Hm)]|]; cbn beta. intros ? m2 Hg2.
    apply spec_ret. by eapply good_trans. }
  intros ? m2 Hg2. destruct (good_entry _ _ _ _ _ Hg2 He) as (e2 & He2 & Ht2 & Hk2).
  pose proof (good_pairless i e m m2 Hg2 He Hi) as Hnone.
  destruct (e_type e) eqn:Et; try (apply spec_ret, Hnone; congruence).
  - apply spec_bind. assert (Hg2' : good None m m2) by by apply Hnone.
    eapply spec_mono; [apply gathering_done_spec, Hg2'|]; cbn beta. intros ? m3 Hg3. apply spec_ret. by eapply good_trans.
  - destruct (check_pair None _ i e Hi He Et) as (k & p & Hk & Hp). rewrite Hk. destruct (good_pair _ _ _ _ _ Hg2 Hp) as (p2 & Hp2 & _).
    eapply spec_mono; [apply (check_succeeded_spec msg i k e2 p2); [apply Hg2|congruence..]|]; cbn beta.
    intros ? m3 (Hg3 & e3 & p3 & He3 & Hp3 & Hw). assert (Hg03 : good (Some i) m m3) by by eapply good_trans.
    apply (good_strengthen i e3 m m3 Hg03 He3). intros Hs k' p' Hk' Hp'. destruct (good_entry _ _ _ _ _ Hg03 He) as (e3' & He3' & _ & Hk3).
    destruct Hw as [Hw|Hw]; [congruence|]. congruence.
Qed.

(** ** Errors *)
Lemma tiebreaker_spec x n m : inv x (agent m) ->
  spec (modify (fun a => a <| ice_tiebreaker := le_word (random_of n 8) |>)) m (fun _ m' => good x m m').
Proof.
  intros Hi. apply spec_modify. apply good_change; [inv_kept|split; try done; eauto|done].
  destruct (random_bytes n 8 ltac:(done)) as [Hl Hb]. pose proof (le_word_range _ Hb) as Hr. by rewrite Hl in Hr.
Qed.

Lemma process_error_spec msg i e m : inv None (agent m) -> a_entries (agent m) !! i = Some e ->
  spec (process_binding_error msg i) m (fun _ m' => good None m m').
Proof.
  intros Hi He. unfold process_binding_error. apply spec_bind. apply (spec_get_entry i e); [done|].
  destruct (e_type e) eqn:Et; try (by apply spec_ret, good_refl).
  - apply spec_bind. eapply spec_mono; [by apply (state_spec None i AGENT_STUN_ENTRY_STATE_FAILED e)|]; cbn beta. intros ? m1 (Hg1 & _).
    apply spec_bind. eapply spec_mono; [apply gathering_done_spec, Hg1|]; cbn beta. intros ? m2 Hg2. apply spec_ret. by eapply good_trans.
  - case_test.
    2: { destruct (check_pair None _ i e Hi He Et) as (k & p & Hk & Hp). rewrite Hk. pose proof (fail_pair_spec i e k p m Hi He Hk Hp) as Hf.
         apply spec_bind. unfold spec, bind in Hf. unfold spec at 1. destruct (fail_entry i m) as [[[] m1]|]; [|done].
         apply spec_bind. eapply spec_mono; [exact Hf|]. intros ? m2 Hg2. by apply spec_ret. }
    apply spec_bind, spec_gets. case_test; [|by apply spec_ret, good_refl].
    apply spec_bind. eapply spec_mono; [by apply (mode_spec None (fun _ => if bool_decide (e_mode e = AGENT_MODE_CONTROLLING) then AGENT_MODE_CONTROLLED
                                        else AGENT_MODE_CONTROLLING))|]; cbn beta. intros ? m1 Hg1.
    apply spec_bind, spec_ask, spec_bind. cbn [asked memory events].
    eapply spec_mono; [apply (tiebreaker_spec None); apply Hg1|]; cbn beta. intros ? m2 Hg2. apply good_from in Hg2.
    apply spec_bind. eapply spec_mono; [apply update_pairs_spec, Hg2|]; cbn beta. intros ? m3 Hg3.
    assert (Hg03 : good None m m3) by (eapply good_trans; [exact Hg1|by eapply good_trans]).
    apply spec_bind. apply (spec_mono _ _ (fun _ m4 => good None m m4)); [|by intros ? m4 Hg4; apply spec_ret].
    case_test; [|by apply spec_ret]. destruct (good_entry _ _ _ _ _ Hg03 He) as (e3 & He3 & _).
    eapply spec_mono; [apply (restart_spec None i e3); [apply Hg3|done|lia]|]; cbn beta. intros ? m4 [Hg4 _]. by eapply good_trans.
Qed.

Lemma process_binding_spec msg i e src behind m : inv None (agent m) -> message_ok msg -> record_wf src -> a_entries (agent m) !! i = Some e ->
  spec (agent_process_stun_binding msg i src behind) m (fun _ m' => good None m m').
Proof.
  intros Hi Hm Hr He. unfold agent_process_stun_binding. repeat case_test; try by apply spec_ret, good_refl.
  - by apply (process_request_spec msg i e).
  - by apply (process_success_spec msg i e).
  - by apply (process_error_spec msg i e).
Qed.
End Binding.
