(* ===== verification/AgentInput.v ===== *)
(** * Datagrams received: every datagram leaves the agent in order

    The handlers of agent.c for TURN messages, the dispatch, and [agent_input]
    with the datagrams that a relay delivers: each is shorter than the one that
    carries it, so that the fuel is enough. *)

From S2P Require Import Prelude Machine CStdio Addr Ice IceWf StunMsg StunWrite StunWriteCorrect StunSize StunRead StunReadSafe StunReceived.
From S2P Require Import Turn TurnTable AgentState AgentOrder Agent AgentInv AgentTurn AgentSend AgentTimers AgentPairs.
From S2P Require Import AgentCandidates AgentBinding.
From stdpp Require Import list.
#[local] Open Scope Z_scope.
#[local] Open Scope machine_scope.

Section Input.
Context `{Platform, Scan, Resolver, Hashes, !AgentEnvironment, !AgentLaws}.

(** ** Allocate and Refresh *)
Lemma allocation_failed_spec i e m : inv None (agent m) -> a_entries (agent m) !! i = Some e ->
  spec (allocation_failed i) m (fun _ m' => good None m m').
Proof.
  intros Hi He. unfold allocation_failed. apply spec_bind.
  eapply spec_mono; [by apply (state_spec None i AGENT_STUN_ENTRY_STATE_FAILED e)|]; cbn beta. intros ? m1 (Hg1 & _).
  eapply spec_mono; [apply gathering_done_spec, Hg1|]; cbn beta. intros ? m2 Hg2. by eapply good_trans.
Qed.

Lemma allocation_failed_ret i e z m : inv None (agent m) -> a_entries (agent m) !! i = Some e ->
  spec (allocation_failed i ;; ret z : A Z) m (fun _ m' => good None m m').
Proof.
  intros Hi He. apply spec_bind. eapply spec_mono; [by apply (allocation_failed_spec i e)|]; cbn beta.
  intros ? m1 Hg1. by apply spec_ret.
Qed.

Lemma relayed_field_spec i e r m : inv None (agent m) -> a_entries (agent m) !! i = Some e ->
  spec (set_entry i (fun e => e <| e_relayed := r |>)) m (fun _ m' => good None m m').
Proof.
  intros Hi He. pose proof (inv_entry _ _ _ _ Hi He) as [_ _ _ Hn Hr].
  eapply spec_mono; [apply (timers_spec None i (fun e => e <| e_relayed := r |>) e); try done; by left|]; cbn beta. by intros ? m' (Hg & _).
Qed.

Lemma allocate_success_spec msg i e t m : inv None (agent m) -> message_ok msg -> relay_entry (agent m) i e t ->
  spec (process_allocate_success msg i) m (fun _ m' => good None m m').
Proof.
  intros Hi Hm (He & Ht & _). unfold process_allocate_success. apply spec_bind. apply (spec_get_entry i e); [done|].
  case_test; [by apply spec_ret, good_refl|]. case_test.
  { apply spec_bind. eapply spec_mono; [by apply (state_spec None i AGENT_STUN_ENTRY_STATE_FAILED e)|]; cbn beta. intros ? m1 (Hg1 & _). by apply spec_ret. }
  apply spec_bind. eapply spec_mono; [apply (entry_succeeded_spec i e); [by apply inv_weaken|done]|]; cbn beta. intros ? m1 Hg1'.
  assert (Hg1 : good None m m1) by (apply (good_pairless i e m m1 Hg1' He Hi); congruence).
  apply spec_bind. apply (spec_mono _ _ (fun _ m2 => good None m m2)).
  { case_test; [|by apply spec_ret]. apply spec_bind.
    eapply spec_mono; [apply (local_reflexive_spec None); [apply Hg1|apply (mo_mapped _ Hm)]|]; cbn beta. intros ? m2 Hg2.
    apply spec_ret. by eapply good_trans. }
  intros ? m2 Hg2. destruct (good_entry _ _ _ _ _ Hg2 He) as (e2 & He2 & _). apply spec_bind.
  eapply spec_mono; [apply (relayed_field_spec i e2); [apply Hg2|done]|]; cbn beta. intros ? m3 Hg3.
  apply spec_bind. eapply spec_mono; [apply (local_relayed_spec None); [apply Hg3|apply (mo_relayed _ Hm)]|]; cbn beta. intros result m4 Hg4.
  assert (Hg04 : good None m m4) by (eapply good_trans; [exact Hg2|by eapply good_trans]).
  case_test; [by apply spec_ret|]. apply spec_bind. eapply spec_mono; [apply gathering_done_spec, Hg4|]; cbn beta. intros ? m5 Hg5.
  apply spec_ret. by eapply good_trans.
Qed.

(** *** Credentials from the server *)
Lemma userhash_bytes user realm : lenZ (stun_compute_userhash user realm) = USERHASH_SIZE /\ bytes_ok (stun_compute_userhash user realm).
Proof. unfold stun_compute_userhash. split; [apply hash_sha256_length|apply hash_sha256_bytes]. Qed.

Lemma processed_credentials_ok msg c : message_ok msg -> turn_credentials_ok c ->
  turn_credentials_ok (stun_process_credentials (credentials msg) c).
Proof.
  intros Hm ([Hu1 _ _ _ _] & (Hu & _) & _). pose proof (mo_sizes _ Hm) as [_ Hr Hn Hh Ha].
  pose proof (mo_bytes _ Hm) as (_ & Hrb & Hnb & Hab). destruct (mo_userhash _ Hm) as [Hhl Hhb].
  unfold stun_process_credentials. cbv zeta. destruct (userhash_bytes (username c) (realm (credentials msg))) as [Hl Hb].
  destruct (enable_userhash _); (split; [by split|]; split; [by split_and!|done]).
Qed.

Lemma with_credentials_ok msg t : message_ok msg -> turn_ok t ->
  turn_ok (t <| turn_credentials := stun_process_credentials (credentials msg) (turn_credentials t) |>).
Proof. intros Hm [Hmap Hheld Hc]. split; [done|done|]. by apply processed_credentials_ok. Qed.

Lemma set_turn_good i e t t' m : inv None (agent m) -> relay_entry (agent m) i e t -> turn_ok t' ->
  spec (set_turn i t') m (fun _ m' => good None m m' /\ relay_entry (agent m') i (e <| e_turn := Some t' |>) t').
Proof.
  intros Hi Hr Hok. eapply spec_mono; [by apply (set_turn_spec None i e t t')|]; cbn beta. intros ? m' [[Hg _] Hr']. done.
Qed.

Lemma retry_spec msg i e t m : inv None (agent m) -> message_ok msg -> relay_entry (agent m) i e t ->
  spec (retry_with msg i t) m (fun _ m' => good None m m').
Proof.
  intros Hi Hm Hr. pose proof Hr as (He & _). unfold retry_with. case_test; [by apply (allocation_failed_ret i e)|].
  apply spec_bind. eapply spec_mono; [apply (set_turn_good i e t); [done|done|by apply with_credentials_ok, (relay_entry_ok None (agent m) i e)]|]; cbn beta.
  intros ? m1 [Hg1 (He1 & _)]. apply spec_bind. eapply spec_mono; [eapply (arm_spec None i 0); [apply Hg1|exact He1|lia]|]; cbn beta.
  intros ? m2 [Hg2 _]. apply spec_ret. by eapply good_trans.
Qed.

Lemma redirect_spec i e t r m : inv None (agent m) -> relay_entry (agent m) i e t -> record_wf r ->
  spec (set_entry i (fun e => e <| e_turn_redirections ::= Z.succ |> <| e_record := r |>)) m
    (fun _ m' => good None m m' /\ has_entry (agent m') i).
Proof.
  intros Hi (He & Ht & Et) Hr. eapply spec_mono; [apply (touch_spec None i (fun e => e <| e_turn_redirections ::= Z.succ |> <| e_record := r |>) e); try done|]; cbn beta.
  - pose proof (inv_entry _ _ _ _ Hi He) as [Hk _ Htid Hn Hre]. split; try done. unfold kind_ok in *. cbn. by rewrite Ht in *.
  - by left.
  - intros ? m' (Hg & _ & He'). split; [done|by eexists].
Qed.

Lemma allocate_error_spec msg i e t m : inv None (agent m) -> message_ok msg -> relay_entry (agent m) i e t ->
  spec (process_allocate_error msg i t) m (fun _ m' => good None m m').
Proof.
  intros Hi Hm Hr. pose proof Hr as (He & _). unfold process_allocate_error.
  case_test; [case_test; [by apply (allocation_failed_ret i e)|by apply (retry_spec msg i e t)]|].
  case_test; [by apply (retry_spec msg i e t)|]. case_test; [|by apply (allocation_failed_ret i e)].
  apply spec_bind. apply (spec_get_entry i e); [done|]. case_test; [by apply (allocation_failed_ret i e)|].
  case_test; [by apply (allocation_failed_ret i e)|]. apply spec_bind.
  eapply spec_mono; [apply (redirect_spec i e t); [done|done|apply (mo_alternate _ Hm)]|]; cbn beta. intros ? m1 [Hg1 [e1 He1]].
  apply spec_bind. eapply spec_mono; [apply (arm_spec None i 0 e1); [apply Hg1|done|lia]|]; cbn beta.
  intros ? m2 [Hg2 _]. apply spec_ret. by eapply good_trans.
Qed.

(** The entry, when it is a relay, and its TURN state. *)
Ltac relay_case Hr :=
  match goal with Hi : inv None (agent ?m), He : a_entries (agent ?m) !! ?i = Some ?e |- spec (match e_turn ?e with _ => _ end) _ _ =>
    let t := fresh "t" in let Et := fresh "Et" in
    destruct (e_turn e) as [t|] eqn:Et; [pose proof (turn_entry_relay None _ i e t Hi He Et) as Hr | by apply spec_ret, good_refl] end.

Lemma process_allocate_spec msg i e m : inv None (agent m) -> message_ok msg -> a_entries (agent m) !! i = Some e ->
  spec (agent_process_turn_allocate msg i) m (fun _ m' => good None m m').
Proof.
  intros Hi Hm He. unfold agent_process_turn_allocate. case_test; [by apply spec_ret, good_refl|].
  apply spec_bind. apply (spec_get_entry i e); [done|]. case_test; [by apply spec_ret, good_refl|]. relay_case Hr.
  case_test; [by apply (allocate_success_spec msg i e t)|]. case_test; [by apply (allocate_error_spec msg i e t)|by apply spec_ret, good_refl].
Qed.

(** ** CreatePermission and ChannelBind *)
Lemma turn_response_spec msg i e succeed resend m :
  inv None (agent m) -> message_ok msg -> a_entries (agent m) !! i = Some e ->
  (forall t now, turn_ok t -> exists ok map', succeed now (turn_map_ t) = Some (ok, map') /\ turn_ok (with_map map' t)) ->
  (forall r e t m1, inv None (agent m1) -> relay_entry (agent m1) i e t -> reachable r -> spec (resend r) m1 (fun _ m' => good None m1 m')) ->
  spec (process_turn_response msg i succeed resend) m (fun _ m' => good None m m').
Proof.
  intros Hi Hm He Hsucceed Hresend. unfold process_turn_response. apply spec_bind. apply (spec_get_entry i e); [done|].
  case_test; [by apply spec_ret, good_refl|]. relay_case Hr. pose proof (relay_entry_ok _ _ _ _ _ Hi Hr) as Hok. case_test.
  { apply spec_bind, spec_ask, spec_bind. destruct (Hsucceed t (now_ms (asked m)) Hok) as (ok & map' & Em & Hok').
    eapply spec_defined; [exact Em|]. cbn beta iota. apply spec_bind. cbn [asked memory events].
    eapply spec_mono; [by apply (set_turn_good i e t (with_map map' t))|]; cbn beta. intros ? m1 [Hg1 _]. apply spec_ret. by eapply good_from. }
  case_test; [|by apply spec_ret, good_refl]. case_test; [|by apply spec_ret, good_refl]. case_test; [by apply spec_ret, good_refl|].
  cbv zeta. apply spec_bind.
  set (t' := t <| turn_credentials := stun_process_credentials (credentials msg) (turn_credentials t) |>).
  assert (Hok' : turn_ok t') by by apply with_credentials_ok.
  destruct (retrieved_spec t' (transaction_id msg) Hok' (proj1 (mo_tid _ Hm))) as (res & map' & Em & Hok2 & Hres).
  eapply spec_defined; [exact Em|]. cbn beta iota. apply spec_bind.
  eapply spec_mono; [by apply (set_turn_good i e t (with_map map' t'))|]; cbn beta. intros ? m1 [Hg1 Hr1]. apply spec_bind.
  apply (spec_mono _ _ (fun _ m2 => good None m m2)); [|by intros ? m2 Hg2; apply spec_ret].
  destruct res as [r|]; [|by apply spec_ret]. eapply spec_mono; [eapply Hresend; [apply Hg1|exact Hr1|by apply Hres]|]; cbn beta.
  intros ? m2 Hg2. by eapply good_trans.
Qed.

Lemma process_permission_spec msg i e m : inv None (agent m) -> message_ok msg -> a_entries (agent m) !! i = Some e ->
  spec (agent_process_turn_create_permission msg i) m (fun _ m' => good None m m').
Proof.
  intros Hi Hm He. apply (turn_response_spec msg i e); try done.
  - intros t now Hok. apply update_spec; [done|by left|apply (mo_tid _ Hm)].
  - intros r e1 t1 m1 Hi1 Hr1 Hre. apply spec_bind. eapply spec_mono; [by apply (permission_request_spec None i r 0 e1 t1)|]; cbn beta.
    intros ? m2 [Hg _]. by apply spec_ret.
Qed.

Lemma process_channel_bind_spec msg i e m : inv None (agent m) -> message_ok msg -> a_entries (agent m) !! i = Some e ->
  spec (agent_process_turn_channel_bind msg i) m (fun _ m' => good None m m').
Proof.
  intros Hi Hm He. apply (turn_response_spec msg i e); try done.
  - intros t now Hok. apply update_spec; [done|by right|apply (mo_tid _ Hm)].
  - intros r e1 t1 m1 Hi1 Hr1 Hre. apply spec_bind. eapply spec_mono; [by apply (channel_request_spec None i r 0 e1 t1)|]; cbn beta.
    intros ? m2 [[Hg _] _]. by apply spec_ret.
Qed.

(** ** Datagrams *)
Definition datagram (buf : list Z) (size : Z) : Prop := bytes_ok buf /\ 0 <= size <= lenZ buf.

(** The function the handlers call on what a relay delivers. *)
Definition input_ok (n : Z) (input : list Z -> Z -> addr_record -> option addr_record -> A Z) : Prop :=
  forall buf size src behind m, size < n -> datagram buf size -> record_wf src -> inv None (agent m) ->
    spec (input buf size src behind) m (fun _ m' => good None m m').

Lemma process_data_spec n input msg i e m : input_ok n input -> inv None (agent m) -> message_ok msg -> data_le (n - 1) msg ->
  a_entries (agent m) !! i = Some e ->
  spec (agent_process_turn_data input msg i) m (fun _ m' => good None m m').
Proof.
  intros Hin Hi Hm Hd He. unfold agent_process_turn_data. apply spec_bind. apply (spec_get_entry i e); [done|].
  case_test; [by apply spec_ret, good_refl|]. case_test; [by apply spec_ret, good_refl|].
  pose proof (mo_data _ Hm) as Hdata. destruct (data msg) as [payload|] eqn:Ed; [|by apply spec_ret, good_refl]. destruct Hdata as [Hsize Hb].
  pose proof (mo_peers_wf _ Hm) as Hp. destruct (peers msg) as [|peer ps]; [by apply spec_ret, good_refl|].
  apply Forall_cons_1 in Hp as [Hp _]. specialize (Hd payload Ed). pose proof (lenZ_nonneg payload).
  apply Hin; try done; [lia|]. split; [done|lia].
Qed.

Lemma process_channel_data_spec input i e t buf size m : input_ok size input -> inv None (agent m) -> datagram buf size ->
  a_entries (agent m) !! i = Some e -> e_turn e = Some t ->
  spec (agent_process_channel_data input i buf size) m (fun _ m' => good None m m').
Proof.
  intros Hin Hi [Hb Hs] He Et. unfold agent_process_channel_data, sizeof_channel_data_header.
  case_test; [by apply spec_ret, good_refl|]. zify_bool.
  destruct (load_in 0 2 buf) as (c & Ec & _); [lia..|]. destruct (load_in 2 2 buf) as (l & El & Hl); [lia..|].
  apply spec_bind. eapply spec_defined; [by rewrite Ec|]. apply spec_bind. eapply spec_defined; [by rewrite El|]. cbn beta.
  pose proof (load_bytes Hb El) as Hlb. destruct (le_word_range (rev l) ltac:(by apply Forall_rev)) as [Hpos _]. fold (be_word l) in Hpos.
  case_test; [by apply spec_ret, good_refl|]. zify_bool.
  apply spec_bind. apply (spec_get_entry i e); [done|]. apply spec_bind. eapply spec_defined; [exact Et|].
  pose proof (relay_entry_ok _ _ _ _ _ Hi (turn_entry_relay _ _ _ _ _ Hi He Et)) as Hok.
  destruct (found_channel_spec t (be_word c) Hok) as (res & Em & Hres). apply spec_bind. eapply spec_defined; [exact Em|].
  destruct res as [src|]; [|by apply spec_ret, good_refl].
  destruct (load_in 4 (be_word l) buf) as (payload & Ep & Hpl); [lia..|]. apply spec_bind. eapply spec_defined; [exact Ep|].
  apply Hin; try done; [lia| |by apply Hres]. split; [exact (load_bytes Hb Ep)|lia].
Qed.

(** The integrity of the message can be verified in the buffer. *)
Definition checkable (buf : list Z) (size : Z) : Prop :=
  forall msg password, exists ok, stun_check_integrity buf size msg password = Some (buf, ok).

Lemma verify_credentials_spec x a i e buf size msg : inv x a -> a_entries a !! i = Some e -> message_ok msg -> checkable buf size ->
  exists msg' result, agent_verify_credentials e buf size msg = Some (msg', result) /\ message_ok msg'.
Proof.
  intros Hi He Hm Hc. unfold agent_verify_credentials. case_test; [by eauto|]. case_test; [by eauto|].
  destruct (e_turn e) as [t|] eqn:Et; [|by eauto].
  pose proof (relay_entry_ok _ _ _ _ _ Hi (turn_entry_relay _ _ _ _ _ Hi He Et)) as [_ _ ([Hu Hr Hn _ _] & (Hub & Hrb & Hnb & _) & _)].
  cbv zeta. set (msg' := msg <| credentials ::= _ |>). destruct (Hc msg' (turn_password t)) as [ok ->]. cbn [obind].
  eexists _, _. split; [done|]. destruct Hm as [? ? ? ? ? ? [] (? & ? & ? & ?) ? ? ? ? ?]. split; cbn; try done; first [by split | by split_and!].
Qed.

Lemma process_message_spec input buf size msg src behind i m : input_ok size input -> inv None (agent m) -> message_ok msg ->
  data_le (size - 1) msg -> checkable buf size -> record_wf src -> has_entry (agent m) i ->
  spec (process_message input buf size msg src behind i) m (fun _ m' => good None m m').
Proof.
  intros Hin Hi Hm Hd Hc Hsrc [e He]. unfold process_message. apply spec_bind. apply (spec_get_entry i e); [done|]. cbv zeta.
  assert (Hverified : forall process : stun_message -> nat -> A Z,
    (forall msg', message_ok msg' -> spec (process msg' i) m (fun _ m' => good None m m')) ->
    spec (let* (msg, bad) := defined (agent_verify_credentials e buf size msg) in if negb (bad =? 0) then ret (-1) else process msg i) m
      (fun _ m' => good None m m')).
  { intros process Hp. destruct (verify_credentials_spec None _ i e buf size msg Hi He Hm Hc) as (msg' & result & Ev & Hm').
    apply spec_bind. eapply spec_defined; [exact Ev|]. cbn beta iota. case_test; [by apply spec_ret, good_refl|by apply Hp]. }
  case_test; [case_test; [by apply spec_ret, good_refl|by apply (process_binding_spec msg i e)]|].
  case_test; [apply Hverified; intros msg' Hm'; by apply (process_allocate_spec msg' i e)|].
  case_test; [apply Hverified; intros msg' Hm'; by apply (process_permission_spec msg' i e)|].
  case_test; [apply Hverified; intros msg' Hm'; by apply (process_channel_bind_spec msg' i e)|].
  case_test; [by apply (process_data_spec size _ _ i e)|by apply spec_ret, good_refl].
Qed.

Lemma verify_binding_total a buf size msg : checkable buf size -> is_Some (agent_verify_stun_binding a buf size msg).
Proof.
  intros Hc. unfold agent_verify_stun_binding. do 3 (case_test; [by eexists|]). cbv zeta. case_test; [by eexists|]. case_test; [by eexists|].
  match goal with |- is_Some (let? _ := stun_check_integrity _ _ ?msg' ?pw in _) => destruct (Hc msg' pw) as [ok ->] end. by eexists.
Qed.

Lemma find_entry_for_spec msg src behind m : inv None (agent m) -> message_ok msg ->
  spec (find_entry_for msg src behind) m (fun r m' => good None m m' /\ match r with Some i => has_entry (agent m') i | None => True end).
Proof.
  intros Hi Hm. unfold find_entry_for. case_test.
  - unfold agent_find_entry_from_transaction_id. apply spec_bind, spec_gets.
    eapply spec_mono; [apply (find_entry_tid_spec None); [done|apply (mo_tid _ Hm)|lia]|]; cbn beta. intros r m' [[Hg _] Hr]. done.
  - apply spec_gets. split; [by apply good_refl|]. destruct (agent_find_entry_from_record _ _ _) as [i|] eqn:E'; [|done].
    by apply find_record_has in E'.
Qed.

Lemma agent_dispatch_spec input buf size msg src behind m : input_ok size input -> inv None (agent m) -> message_ok msg ->
  data_le (size - 1) msg -> checkable buf size -> record_wf src ->
  spec (agent_dispatch_stun input buf size msg src behind) m (fun _ m' => good None m m').
Proof.
  intros Hin Hi Hm Hd Hc Hsrc. unfold agent_dispatch_stun. cbv zeta. apply spec_bind, spec_gets. change (id (agent m)) with (agent m).
  apply spec_bind. apply (spec_mono _ _ (fun _ m1 => good None m m1)).
  { case_test; [|by apply spec_ret, good_refl]. destruct (verify_binding_total (agent m) buf size msg Hc) as [bad Eb].
    eapply spec_defined; [exact Eb|by apply good_refl]. }
  intros bad m1 Hg1. case_test; [by apply spec_ret|]. apply spec_bind. apply (spec_mono _ _ (fun _ m2 => good None m m2)).
  { case_test; [|by apply spec_ret]. apply spec_bind.
    eapply spec_mono; [apply (remote_reflexive_spec None); [apply Hg1|done|apply (mo_priority _ Hm)]|]; cbn beta. intros ? m2 Hg2.
    apply spec_ret. by eapply good_trans. }
  intros ? m2 Hg2. apply spec_bind. eapply spec_mono; [apply find_entry_for_spec; [apply Hg2|done]|]; cbn beta. intros found m3 [Hg3 Hf].
  assert (Hg03 : good None m m3) by by eapply good_trans. destruct found as [i|]; [|by apply spec_ret].
  eapply spec_mono; [apply process_message_spec; [done|apply Hg3|done..]|]; cbn beta. intros ? m4 Hg4. by eapply good_trans.
Qed.

(** The fuel is enough: what is delivered is shorter. *)
Lemma input_rec_ok fuel : input_ok (Z.of_nat fuel) (agent_input_rec fuel).
Proof.
  induction fuel as [|fuel IH]; intros buf size src behind m Hfuel [Hb Hs] Hsrc Hi; [lia|]. cbn [agent_input_rec].
  apply spec_bind, spec_gets. case_test; [by apply spec_ret, good_refl|].
  destruct (is_stun_total buf size Hs) as [stun Est]. apply spec_bind. eapply spec_defined; [exact Est|].
  assert (Hin : input_ok size (agent_input_rec fuel)).
  { intros buf' size' src' behind' m' Hlt. apply IH. lia. }
  destruct stun.
  - destruct (stun_read_total buf size Hb Hs) as (msg & result & Er & _). apply spec_bind. eapply spec_defined; [exact Er|]. cbn beta iota.
    case_test; [by apply spec_ret, good_refl|]. zify_bool. apply agent_dispatch_spec; try done.
    + by eapply read_message_ok.
    + intros d Hd. pose proof (read_data_le _ _ _ _ _ Hb Hs Er d Hd). lia.
    + intros msg' password. by eapply check_integrity_total.
  - change (id (agent m)) with (agent m). destruct (agent_find_entry_from_record _ _ _) as [i|] eqn:Ef; [|by apply spec_ret, good_refl].
    apply find_record_has in Ef as [e He]. apply spec_bind. apply (spec_get_entry i e); [done|].
    destruct (e_type e) eqn:Et; try (by apply spec_ret, good_refl).
    + destruct (relay_turn None _ i e Hi He Et) as (t & Ht & _). apply spec_bind. unfold is_channel_data.
      destruct (size =? 0) eqn:E0; zify_bool.
      { eapply spec_defined; [done|]. by apply spec_ret, good_refl. }
      destruct (load_in 0 1 buf) as (b & Eb & _); [lia..|]. eapply spec_defined; [by rewrite Eb|]. cbn beta.
      case_test; [|by apply spec_ret, good_refl]. by apply (process_channel_data_spec _ i e t).
    + destruct (load_in 0 size buf) as (payload & Ep & _); [lia..|]. apply spec_bind. eapply spec_defined; [exact Ep|].
      apply spec_bind. eapply spec_mono; [by apply (emit_spec None)|]; cbn beta. intros ? m1 Hg1. by apply spec_ret.
Qed.

Lemma agent_input_spec buf size src behind m : datagram buf size -> record_wf src -> inv None (agent m) ->
  spec (agent_input buf size src behind) m (fun _ m' => good None m m').
Proof. intros Hd Hs Hi. apply input_rec_ok; try done. destruct Hd. lia. Qed.

Lemma conn_recv_spec buf size src m : datagram buf size -> record_wf src -> inv None (agent m) ->
  spec (agent_conn_recv buf size src) m (fun _ m' => good None m m').
Proof.
  intros Hd Hs Hi. unfold agent_conn_recv. apply spec_bind. eapply spec_mono; [by apply agent_input_spec|]; cbn beta.
  intros ? m1 Hg1. by apply spec_ret.
Qed.
End Input.
