(* ===== verification/AgentBooks.v ===== *)
(** * Bookkeeping: the loops over the entries and the choice of a pair

    Every call leaves the agent in order.  Which pair is chosen, what follows,
    and that the time returned is defined: an entry kept alive has a pair that
    works, and then some pair is chosen. *)

From S2P Require Import Prelude Machine CStdio Addr Ice IceWf StunMsg StunWriteCorrect StunSize StunReceived Turn TurnTable AgentState.
From S2P Require Import AgentOrder Agent AgentStep AgentInv AgentTurn AgentSend AgentTimers AgentPairs AgentCandidates AgentBinding.
From stdpp Require Import list.
#[local] Open Scope Z_scope.
#[local] Open Scope machine_scope.

Section Books.
Context `{Platform, Scan, Resolver, Hashes, !AgentEnvironment, !AgentLaws}.

(** ** Transmissions *)
Lemma new_transaction_spec x i e m : inv x (agent m) -> a_entries (agent m) !! i = Some e ->
  spec (new_transaction i) m (fun _ m' => good x m m' /\ exists tid,
    a_entries (agent m') !! i = Some (e <| e_transaction_id := tid |> <| e_transaction_id_expired := false |>)).
Proof.
  intros Hi He. unfold new_transaction. apply spec_bind, spec_ask. cbn [asked memory events].
  set (tid := random_of (asked m) STUN_TRANSACTION_ID_SIZE).
  eapply spec_mono; [apply (touch_spec x i (fun e => e <| e_transaction_id := tid |> <| e_transaction_id_expired := false |>) e); try done|]; cbn beta.
  - destruct (inv_entry _ _ _ _ Hi He) as [Hk Hr _ Hn Hre]. split; try done. apply random_tid.
  - by left.
  - intros ? m1 (Hg & _ & He1). split; [by apply good_from in Hg|by exists tid].
Qed.

Lemma send_request_spec x i method e m : inv x (agent m) -> a_entries (agent m) !! i = Some e ->
  spec (send_request i method) m (fun _ m' => sends x m m').
Proof.
  intros Hi He. unfold send_request. apply spec_bind. apply (spec_get_entry i e); [done|]. case_test.
  - apply bool_decide_eq_true in E. destruct (relay_turn x _ i e Hi He E) as (t & Et & _).
    apply (allocate_request_spec x i method e t); [done|]. by split.
  - by apply (binding_spec x i e).
Qed.

(** What a transmission keeps of an entry. *)
Definition timing (e : agent_stun_entry) := (e_state e, e_retransmissions e, e_retransmission_timeout e, e_next_transmission e).

Lemma sends_timing x m m' i e : sends x m m' -> a_entries (agent m) !! i = Some e ->
  exists e', a_entries (agent m') !! i = Some e' /\ timing e' = timing e.
Proof.
  intros [_ Hc] He. destruct (calm_lookup _ _ _ _ Hc He) as (e' & He' & Ec). exists e'. split; [done|].
  exact (f_equal timing Ec).
Qed.

Lemma retransmit_spec i e m : inv None (agent m) -> a_entries (agent m) !! i = Some e ->
  spec (retransmit i) m (fun sent m' => good None m m' /\ (sent = true -> entry_at m' i (fun e' => timing e' = timing e) /\ 0 <= e_retransmissions e)).
Proof.
  intros Hi He. unfold retransmit. apply spec_bind. apply (spec_get_entry i e); [done|].
  case_test; [apply spec_ret; split; [by apply good_refl|done]|]. zify_bool. apply spec_bind.
  apply (spec_mono _ _ (fun _ m1 => good None m m1 /\ entry_at m1 i (fun e' => timing e' = timing e))).
  { case_test; [|apply spec_ret; split; [by apply good_refl|by exists e]].
    eapply spec_mono; [by apply (new_transaction_spec None i e)|]; cbn beta. intros ? m1 (Hg & tid & He1). split; [done|by eexists]. }
  intros ? m1 (Hg1 & e1 & He1 & Et1). apply spec_bind.
  eapply spec_mono; [by apply (send_request_spec None i _ e1); [apply Hg1|]|]; cbn beta. intros result m2 Hs2. apply spec_ret.
  destruct (sends_timing _ _ _ _ _ Hs2 He1) as (e2 & He2 & Et2). destruct Hs2 as [Hg2 _].
  split; [by eapply good_trans|]. intros _. split; [|done]. exists e2. split; [done|congruence].
Qed.

Lemma schedule_spec i e now m : inv None (agent m) -> a_entries (agent m) !! i = Some e -> 0 <= e_retransmissions e -> 0 <= now < 2 ^ 30 ->
  spec (set_entry i (schedule now)) m (fun _ m' => good None m m').
Proof.
  intros Hi He Hr Hn. destruct (inv_entry _ _ _ _ Hi He) as [_ _ _ Hne [Hleft [Hto Hre]]]. specialize (Hre Hr).
  assert (Hpow : 2 ^ e_retransmissions e = if e_retransmissions e =? 0 then 1 else 2 * 2 ^ (e_retransmissions e - 1)).
  { case_test; zify_bool; [by rewrite E|]. rewrite <- Z.pow_succ_r by lia. f_equal. lia. }
  unfold MIN_STUN_RETRANSMISSION_TIMEOUT in Hre. change (500 * 2 ^ 6) with 32000 in Hre.
  assert (e_retransmission_timeout e <= 32000) by (pose proof (Z.pow_pos_nonneg 2 (e_retransmissions e) ltac:(lia) Hr); nia).
  eapply spec_mono; [apply (timers_spec None i (schedule now) e); try done|]; cbn beta.
  - unfold schedule. cbv zeta. by case_test.
  - unfold schedule, LAST_STUN_RETRANSMISSION_TIMEOUT, MIN_STUN_RETRANSMISSION_TIMEOUT, horizon. cbv zeta. case_test; cbn; lia.
  - unfold schedule, retry_ok. cbv zeta. case_test; cbn in *; zify_bool; split_and!; try lia.
    intros _. rewrite Hpow in Hre. rewrite (proj2 (Z.eqb_neq _ _)) in Hre by lia. unfold MIN_STUN_RETRANSMISSION_TIMEOUT. nia.
  - unfold schedule. cbv zeta. case_test; cbn; by left.
  - by intros ? m1 (Hg1 & _).
Qed.

(** ** The entries *)
Lemma pending_spec i e now m : inv None (agent m) -> a_entries (agent m) !! i = Some e -> 0 <= now < 2 ^ 30 ->
  spec (pending_entry i now) m (fun _ m' => good None m m').
Proof.
  intros Hi He Hnow. unfold pending_entry. apply spec_bind. apply (spec_get_entry i e); [done|].
  case_test; [by apply spec_ret, good_refl|]. apply spec_bind. eapply spec_mono; [by apply (retransmit_spec i e)|]; cbn beta.
  intros sent m1 [Hg1 Hsent]. destruct sent.
  { destruct (Hsent eq_refl) as [(e1 & He1 & Et) Hr]. eapply spec_mono; [apply (schedule_spec i e1); [apply Hg1|done| |done]|]; cbn beta.
    - injection Et as _ Et _ _. by rewrite Et.
    - intros ? m2 Hg2. by eapply good_trans. }
  destruct (good_entry _ _ _ _ _ Hg1 He) as (e1 & He1 & Et1 & Ek1).
  assert (Hother : e_type e <> AGENT_STUN_ENTRY_TYPE_CHECK -> spec (fail_entry i ;; agent_update_gathering_done) m1 (fun _ m' => good None m m')).
  { intros _. apply spec_bind. eapply spec_mono; [by apply (fail_entry_spec None i e1); [apply Hg1|]|]; cbn beta. intros ? m2 (Hg2 & _).
    eapply spec_mono; [apply gathering_done_spec, Hg2|]; cbn beta. intros ? m3 Hg3. eapply good_trans; [exact Hg1|]. by eapply good_trans. }
  pose proof (eo_kind _ _ _ (inv_entry _ _ _ _ Hi He)) as Hk. unfold kind_ok in Hk.
  destruct (e_type e) eqn:Et; [done|by apply Hother..|].
  destruct (check_pair None _ i e Hi He Et) as (k & p & Hkp & Hp). rewrite Hkp. destruct (good_pair _ _ _ _ _ Hg1 Hp) as (p1 & Hp1 & _).
  eapply spec_mono; [apply (fail_pair_spec i e1 k p1); [apply Hg1|done|congruence|done]|]; cbn beta. intros ? m2 Hg2. by eapply good_trans.
Qed.

Lemma expired_spec i e now m : inv None (agent m) -> a_entries (agent m) !! i = Some e ->
  spec (expired_pair now e) m (fun r m' => m' = m /\ match r with Some k => e_pair e = Some k | None => True end).
Proof.
  intros Hi He. unfold expired_pair. destruct (e_pair e) as [k|] eqn:Hk; [|by apply spec_ret].
  destruct (entry_pair None _ i e k Hi He Hk) as [p Hp]. apply spec_bind. apply (spec_get_pair k p); [done|]. apply spec_ret. split; [done|]. by case_test.
Qed.

Lemma keepalive_spec i e now m : inv None (agent m) -> a_entries (agent m) !! i = Some e ->
  e_state e = AGENT_STUN_ENTRY_STATE_SUCCEEDED_KEEPALIVE ->
  spec (keepalive_entry i now) m (fun _ m' => good None m m').
Proof.
  intros Hi He Hs. unfold keepalive_entry. apply spec_bind. apply (spec_get_entry i e); [done|]. apply spec_bind.
  eapply spec_mono; [by apply (expired_spec i e)|]; cbn beta. intros lost ? [-> Hlost]. destruct lost as [k|].
  { destruct (entry_pair None _ i e k Hi He Hlost) as [p Hp]. apply spec_bind.
    eapply spec_mono; [apply (pair_state_spec (Some i) k _ p); [by apply inv_weaken|done|]|]; cbn beta.
    - intros _. right. by apply (unused_entry None (Some i) _ i e k Hi He); [|left].
    - intros ? m1 (Hg1 & Ea1 & _). eapply spec_mono; [by apply (fail_entry_spec (Some i) i e); [apply Hg1|by rewrite Ea1]|]; cbn beta.
      intros ? m2 (Hg2 & _ & He2). eapply good_strengthen; [by eapply good_trans|exact He2|done]. }
  case_test; [by apply spec_ret, good_refl|]. apply spec_bind. eapply spec_mono; [by apply (new_transaction_spec None i e)|]; cbn beta.
  intros ? m1 (Hg1 & tid & He1). apply spec_bind.
  eapply spec_mono; [eapply (send_request_spec None i); [apply Hg1|exact He1]|]; cbn beta. intros result m2 Hs2.
  destruct (sends_timing _ _ _ _ _ Hs2 He1) as (e2 & He2 & Et2). destruct Hs2 as [Hg2 _]. assert (Hg02 : good None m m2) by by eapply good_trans.
  case_test.
  - eapply spec_mono; [apply (arm_spec None i _ e2); [apply Hg2|done|unfold STUN_KEEPALIVE_PERIOD; lia]|]; cbn beta.
    intros ? m3 [Hg3 _]. by eapply good_trans.
  - eapply spec_mono; [apply (arm_keepalive_spec None i e2); [apply Hg2|done|]|]; cbn beta.
    + injection Et2 as Et2 _ _ _. cbn in Et2. congruence.
    + intros ? m3 [Hg3 _]. by eapply good_trans.
Qed.

Lemma bookkeep_spec i now m : inv None (agent m) -> has_entry (agent m) i -> 0 <= now < 2 ^ 30 ->
  spec (bookkeep_entry now i) m (fun _ m' => good None m m').
Proof.
  intros Hi [e He] Hnow. unfold bookkeep_entry. apply spec_bind. apply (spec_get_entry i e); [done|].
  assert (Hidle : e_state e <> AGENT_STUN_ENTRY_STATE_SUCCEEDED_KEEPALIVE ->
    spec (set_entry i (fun e => e <| e_next_transmission := 0 |>)) m (fun _ m' => good None m m')).
  { intros Hs. pose proof (inv_entry _ _ _ _ Hi He) as [_ _ _ Hn Hr].
    eapply spec_mono; [apply (timers_spec None i (fun e => e <| e_next_transmission := 0 |>) e); try done; by left|]; cbn beta. by intros ? m1 (Hg1 & _). }
  destruct (e_state e) eqn:Es; try by apply Hidle.
  - by apply (pending_spec i e).
  - by apply (keepalive_spec i e).
Qed.

(** The loops over the entries. *)
Lemma each_entry_spec (f : nat -> A unit) (P : amachine -> Prop) m :
  inv None (agent m) -> P m ->
  (forall i m1, inv None (agent m1) -> has_entry (agent m1) i -> P m1 -> spec (f i) m1 (fun _ m' => good None m1 m' /\ P m')) ->
  spec (each (seq 0 (length (a_entries (agent m)))) f) m (fun _ m' => good None m m' /\ P m').
Proof.
  intros Hi HP Hf.
  apply (spec_each (fun m' => good None m m' /\ P m')); [|split; [by apply good_refl|done]].
  intros i m1 Hin [Hg1 HP1]. apply elem_of_seq in Hin. destruct (lookup_lt_is_Some_2 (a_entries (agent m)) i ltac:(lia)) as [e He].
  destruct (good_entry _ _ _ _ _ Hg1 He) as (e1 & He1 & _).
  eapply spec_mono; [apply Hf; [apply Hg1|by exists e1|done]|]; cbn beta. intros ? m2 [Hg2 HP2]. split; [by eapply good_trans|done].
Qed.
End Books.

Section Choice.
Context `{Platform, Scan, Resolver, Hashes, !AgentEnvironment, !AgentLaws}.

(** ** Pairs are frozen *)
Definition frozen (p q : agent_pair) : Prop :=
  q = p \/ p_state p = ICE_CANDIDATE_PAIR_STATE_PENDING /\ q = p <| p_state := ICE_CANDIDATE_PAIR_STATE_FROZEN |>.

(** A run that does no more than freeze pairs. *)
Definition freezes (m m' : amachine) : Prop :=
  good None m m' /\ forall k q, candidate_pairs (agent m') !! k = Some q -> exists p, candidate_pairs (agent m) !! k = Some p /\ frozen p q.

Lemma frozen_trans p q r : frozen p q -> frozen q r -> frozen p r.
Proof. intros [->|[Hp ->]] [->|[Hq ->]]; [by left|by right|by right|done]. Qed.

Lemma freezes_refl m : inv None (agent m) -> freezes m m.
Proof. intros Hi. split; [by apply good_refl|]. intros k q Hq. exists q. split; [done|by left]. Qed.

Lemma freezes_trans m1 m2 m3 : freezes m1 m2 -> freezes m2 m3 -> freezes m1 m3.
Proof.
  intros [G1 F1] [G2 F2]. split; [by eapply good_trans|]. intros k r Hr. destruct (F2 k r Hr) as (q & Hq & Hqr).
  destruct (F1 k q Hq) as (p & Hp & Hpq). exists p. split; [done|by eapply frozen_trans].
Qed.

Lemma frozen_nominated p q : frozen p q -> p_nominated q = p_nominated p.
Proof. by intros [->|[_ ->]]. Qed.

Lemma frozen_works p q : frozen p q -> works q -> works p.
Proof. intros [->|[Hp ->]]; [done|]. intros [Hq|Hq]; [done|by right]. Qed.

Lemma freeze_spec k p m : inv None (agent m) -> candidate_pairs (agent m) !! k = Some p -> p_state p = ICE_CANDIDATE_PAIR_STATE_PENDING ->
  spec (set_pair_state k ICE_CANDIDATE_PAIR_STATE_FROZEN) m (fun _ m' => freezes m m').
Proof.
  intros Hi Hp Hs. eapply spec_mono; [apply (pair_state_spec None k _ p); [done|done|congruence]|]; cbn beta.
  intros ? m1 (Hg1 & Ea1 & _). split; [done|]. intros j q Hq. rewrite Ea1 in Hq. destruct (put_pair_lookup _ _ _ _ Hp _ _ Hq) as [[-> ->]|[_ Hq']].
  - exists p. split; [done|by right].
  - exists q. split; [done|by left].
Qed.

(** ** The choice *)

(** The pairs found so far. *)
Record chosen_ok (m : amachine) (c : choice) : Prop := {
  ch_nominated : forall k, nominated_pair c = Some k -> chosen_pair c = Some k /\
    exists p, candidate_pairs (agent m) !! k = Some p /\ p_nominated p = true;
  ch_chosen : forall k, chosen_pair c = Some k -> is_Some (candidate_pairs (agent m) !! k)
}.

(** The pair [k] has been passed over. *)
Definition passed (m : amachine) (c : choice) (k : nat) : Prop :=
  forall p, candidate_pairs (agent m) !! k = Some p ->
    (nominated_pair c = None -> p_nominated p = false) /\ (chosen_pair c = None -> ~ works p).

Definition more (c c' : choice) : Prop :=
  (nominated_pair c' = None -> nominated_pair c = None) /\ (chosen_pair c' = None -> chosen_pair c = None).

Lemma chosen_ok_good m m' c : good None m m' -> chosen_ok m c -> chosen_ok m' c.
Proof.
  intros Hg [Hn Hc]. split.
  - intros k Hk. destruct (Hn k Hk) as (Hck & p & Hp & Hpn). split; [done|]. destruct (good_pair _ _ _ _ _ Hg Hp) as (p' & Hp' & Hpn'). eauto.
  - intros k Hk. destruct (Hc k Hk) as [p Hp]. destruct (good_pair _ _ _ _ _ Hg Hp) as (p' & Hp' & _). by exists p'.
Qed.

Lemma passed_freezes m m' c k : freezes m m' -> passed m c k -> passed m' c k.
Proof.
  intros [_ Hf] Hp q Hq. destruct (Hf k q Hq) as (p & Hpk & Hpq). destruct (Hp p Hpk) as [Hn Hc]. split.
  - intros E. rewrite (frozen_nominated _ _ Hpq). by apply Hn.
  - intros E Hw. apply (Hc E). by eapply frozen_works.
Qed.

Lemma passed_more m c c' k : more c c' -> passed m c k -> passed m c' k.
Proof. intros [Hn Hc] Hp q Hq. destruct (Hp q Hq) as [Hqn Hqc]. split; auto. Qed.

Lemma consider_spec k c m : inv None (agent m) -> is_Some (candidate_pairs (agent m) !! k) -> chosen_ok m c ->
  spec (consider k c) m (fun c' m' => freezes m m' /\ chosen_ok m' c' /\ more c c' /\ passed m' c' k).
Proof.
  intros Hi [p Hp] Hc. unfold consider. apply spec_bind. apply (spec_get_pair k p); [done|]. apply spec_bind, spec_gets.
  change (id (agent m)) with (agent m). pose proof (freezes_refl m Hi) as Hf.
  assert (Hkeep : forall c', chosen_ok m c' -> more c c' -> (nominated_pair c' = None -> p_nominated p = false) -> (chosen_pair c' = None -> ~ works p) ->
    spec (ret c' : A choice) m (fun c' m' => freezes m m' /\ chosen_ok m' c' /\ more c c' /\ passed m' c' k)).
  { intros c' Hok Hm Hn Hw. apply spec_ret. split_and!; try done. intros q Hq. assert (q = p) as -> by congruence. done. }
  destruct (p_nominated p) eqn:Hpn.
  { destruct (nominated_pair c) as [j|] eqn:Ej.
    - apply Hkeep; try done; [congruence|]. destruct (ch_nominated _ _ Hc j Ej) as [-> _]. done.
    - apply Hkeep; try done. split; cbn; intros j [= <-]; [split; [done|]; by exists p|by exists p]. }
  assert (Hidle : p_state p <> ICE_CANDIDATE_PAIR_STATE_SUCCEEDED -> ~ works p) by (intros Hs [Hw|Hw]; congruence).
  destruct (p_state p) eqn:Hs.
  - case_test; [|apply Hkeep; try done; [by destruct Hc; split|]; intros _; by apply Hidle].
    apply spec_bind. eapply spec_mono; [by apply (freeze_spec k p)|]; cbn beta. intros ? m1 Hf1. apply spec_ret. split_and!; try done.
    + eapply chosen_ok_good; [apply Hf1|done].
    + eapply passed_freezes; [exact Hf1|]. intros q Hq. assert (q = p) as -> by congruence. split; [done|]. intros _. by apply Hidle.
  - destruct (chosen_pair c) as [j|] eqn:Ej.
    + apply Hkeep; try done. congruence.
    + apply Hkeep; try done. split; cbn.
      * intros i Ei. destruct (ch_nominated _ _ Hc i Ei) as [Ec _]. congruence.
      * intros i [= <-]. by exists p.
  - apply Hkeep; try done. intros _. by apply Hidle.
  - apply Hkeep; try done. intros _. by apply Hidle.
Qed.

Lemma choose_spec order c m : inv None (agent m) -> Forall (fun k => is_Some (candidate_pairs (agent m) !! k)) order -> chosen_ok m c ->
  spec (choose order c) m (fun c' m' => freezes m m' /\ chosen_ok m' c' /\ more c c' /\ Forall (passed m' c') order).
Proof.
  revert c m. induction order as [|k order IH]; intros c m Hi Ho Hc; cbn [choose].
  { apply spec_ret. split_and!; try done. by apply freezes_refl. }
  apply Forall_cons_1 in Ho as [Hk Ho]. apply spec_bind. eapply spec_mono; [by apply (consider_spec k c)|]; cbn beta.
  intros c1 m1 (Hf1 & Hc1 & Hm1 & Hp1). eapply spec_mono; [apply (IH c1 m1); [apply Hf1| |done]|]; cbn beta.
  - apply (list.Forall_impl _ _ _ Ho). intros j [p Hp]. destruct (good_pair _ _ _ _ _ (proj1 Hf1) Hp) as (p' & Hp' & _). by exists p'.
  - intros c2 m2 (Hf2 & Hc2 & Hm2 & Hp2). split_and!; [by eapply freezes_trans|done| |].
    + destruct Hm1, Hm2. split; auto.
    + constructor; [|done]. eapply passed_more; [exact Hm2|]. by eapply passed_freezes.
Qed.

(** The outcome of the choice. *)
Record chosen_well (m : amachine) (c : choice) : Prop := {
  cw_ok : chosen_ok m c;
  cw_none : forall k, passed m c k
}.

Lemma order_range x a : inv x a -> Forall (fun k => is_Some (candidate_pairs a !! k)) (ordered_pairs a) /\
  (forall k, is_Some (candidate_pairs a !! k) -> k ∈ ordered_pairs a).
Proof.
  intros Hi. rewrite (inv_order _ _ Hi). pose proof (order_perm (priority_in (candidate_pairs a)) (length (candidate_pairs a))) as Hp. split.
  - rewrite Hp. apply list.Forall_forall. intros k Hk. apply elem_of_seq in Hk. apply lookup_lt_is_Some_2. lia.
  - intros k Hk. rewrite Hp. apply elem_of_seq. apply lookup_lt_is_Some_1 in Hk. lia.
Qed.

Lemma choose_pair_spec m : inv None (agent m) -> spec choose_pair m (fun c m' => freezes m m' /\ chosen_well m' c).
Proof.
  intros Hi. unfold choose_pair. destruct (order_range _ _ Hi) as [Hrange Hall]. apply spec_bind, spec_gets, spec_bind.
  eapply spec_mono; [by apply (choose_spec (ordered_pairs (agent m)))|]; cbn beta. intros c m1 (Hf1 & Hc1 & _ & Hp1).
  assert (Hw1 : chosen_well m1 c).
  { split; [done|]. intros k p Hp. destruct Hf1 as [_ Hf1]. destruct (Hf1 k p Hp) as (p0 & Hp0 & _).
    rewrite list.Forall_forall in Hp1. apply (Hp1 k); [|done]. apply Hall. by exists p0. }
  apply spec_bind, spec_gets. destruct (nominated_pair c) as [k|] eqn:En; [|by apply spec_ret].
  case_test; [|by apply spec_ret]. apply spec_bind.
  eapply spec_mono; [apply (spec_each (fun m' => freezes m1 m'))|]; cbn beta; [|apply freezes_refl, Hf1|].
  - intros j m2 Hj Hf2. rewrite list.Forall_forall in Hrange. destruct (Hrange j Hj) as [p Hp].
    destruct (good_pair _ _ _ _ _ (proj1 (freezes_trans _ _ _ Hf1 Hf2)) Hp) as (p2 & Hp2 & _).
    unfold freeze_other. apply spec_bind. apply (spec_get_pair j p2); [done|]. case_test; [|by apply spec_ret].
    apply andb_true_iff in E0 as [_ Es]. apply bool_decide_eq_true in Es.
    eapply spec_mono; [apply (freeze_spec j p2); [apply Hf2|done..]|]; cbn beta. intros ? m3 Hf3. by eapply freezes_trans.
  - intros ? m2 Hf2. apply spec_ret. split; [by eapply freezes_trans|]. destruct Hw1 as [Hok Hnone].
    assert (Hok2 : chosen_ok m2 c) by (eapply chosen_ok_good; [apply Hf2|done]).
    split; [by destruct Hok2; split|]. intros j. by apply (passed_freezes m1 m2 c j Hf2).
Qed.
End Choice.
