(* ===== verification/AgentAct.v ===== *)
(** * Bookkeeping: what follows the choice, and the whole call *)

From S2P Require Import Prelude Machine CStdio Addr Ice IceWf StunMsg StunWriteCorrect StunSize StunReceived.
From S2P Require Import Turn TurnTable AgentState AgentOrder Agent AgentStep AgentInv AgentTurn AgentSend AgentTimers AgentPairs.
From S2P Require Import AgentCandidates AgentBinding AgentBooks.
From stdpp Require Import list.
#[local] Open Scope Z_scope.
#[local] Open Scope machine_scope.

(** The states of an agent that has a connection. *)
Definition running (s : juice_state) : Prop :=
  match s with
  | JUICE_STATE_DISCONNECTED | JUICE_STATE_GATHERING => False
  | _ => True
  end.

Lemma reports_running s es t : reports s es t -> running s -> running t.
Proof.
  revert t. induction es as [|e es IH]; intros t; cbn [reports]; [by intros ->|].
  destruct e; try apply IH. intros (<- & v & Hv & Hl) Hs. specialize (IH v Hv Hs). by destruct v, state.
Qed.

Section Act.
Context `{Platform, Scan, Resolver, Hashes, !AgentEnvironment, !AgentLaws}.

(** The agent has a connection and runs. *)
Definition alive (m : amachine) : Prop := conn_created (agent m) = true /\ running (a_state (agent m)).

Lemma alive_good x m m' : good x m m' -> alive m -> alive m'.
Proof.
  intros [_ He (es & _ & Hr)] [Hc Hs]. split; [by rewrite (ev_created _ _ He)|by eapply reports_running].
Qed.

(** ** The state *)
Lemma change_state_spec s m : inv None (agent m) -> alive m -> a_state (agent m) = s \/ legal (a_state (agent m)) s ->
  (s = JUICE_STATE_COMPLETED -> exists k p, candidate_pairs (agent m) !! k = Some p /\ p_nominated p = true) ->
  spec (agent_change_state s) m (fun _ m' => good None m m' /\ a_state (agent m') = s /\
    candidate_pairs (agent m') = candidate_pairs (agent m) /\ a_entries (agent m') = a_entries (agent m)).
Proof.
  intros Hi [Hcr _] Hs Hc. unfold agent_change_state. apply spec_bind, spec_gets. case_test.
  { apply bool_decide_eq_true in E. apply spec_ret. split; [by apply good_refl|done]. }
  apply bool_decide_eq_false in E. destruct Hs as [Hs|Hs]; [congruence|].
  apply spec_bind, spec_modify, spec_emit. cbn [memory asked events]. split; [|done]. split; cbn [memory asked events].
  - inv_kept.
  - split; try done; eauto. by rewrite Hcr.
  - eexists [_]. split; [done|]. cbn. split; [done|]. by exists (a_state (agent m)).
Qed.

Lemma lose_spec m : inv None (agent m) -> alive m -> spec lose m (fun _ m' => good None m m').
Proof.
  intros Hi Ha. unfold lose. apply spec_bind. eapply spec_mono; [apply (change_state_spec JUICE_STATE_FAILED); try done|]; cbn beta.
  - destruct Ha as [_ Hr]. destruct (a_state (agent m)); try done; try (by right). by left.
  - intros ? m1 (Hg1 & _). apply spec_modify. eapply good_trans; [exact Hg1|]. pose proof (gd_inv _ _ _ Hg1).
    apply good_change; [inv_kept|split; try done; eauto|done].
Qed.

(** ** Cancelled checks *)
Lemma cancel_spec i m : inv None (agent m) -> has_entry (agent m) i ->
  spec (cancel_entry i) m (fun _ m' => good None m m' /\ candidate_pairs (agent m') = candidate_pairs (agent m)).
Proof.
  intros Hi [e He]. unfold cancel_entry. apply spec_bind. apply (spec_get_entry i e); [done|].
  assert (Hsame : good None m m /\ candidate_pairs (agent m) = candidate_pairs (agent m)) by (split; [by apply good_refl|done]).
  destruct (e_pair e) as [k|] eqn:Hk; [|by apply spec_ret].
  destruct (entry_pair None _ i e k Hi He Hk) as [p Hp]. apply spec_bind. apply (spec_get_pair k p); [done|]. case_test; [|by apply spec_ret].
  eapply spec_mono; [by apply (stop_spec None i AGENT_STUN_ENTRY_STATE_CANCELLED e)|]; cbn beta. intros ? m1 (Hg1 & Ea1 & _). split; [done|by rewrite Ea1].
Qed.

Lemma chosen_well_same m m' c : candidate_pairs (agent m') = candidate_pairs (agent m) -> chosen_well m c -> chosen_well m' c.
Proof. intros E [[Hn Hc] Hw]. split; [split|]; unfold passed; rewrite E; done. Qed.

(** ** The selected pair *)
Lemma entry_of_pair_spec x a k i : inv x a -> entry_of_pair a k = Some i ->
  exists e, a_entries a !! i = Some e /\ e_pair e = Some k /\ e_type e = AGENT_STUN_ENTRY_TYPE_CHECK.
Proof.
  intros Hi Hf. apply find_index_Some in Hf as (e & He & Hk). apply bool_decide_eq_true in Hk. exists e. split_and!; [done|done|].
  destruct (decide (e_type e = AGENT_STUN_ENTRY_TYPE_CHECK)) as [|Ht]; [done|]. rewrite (pairless x a i e Hi He Ht) in Hk. done.
Qed.

Lemma selected_entry_inv x i e a : inv x a -> a_entries a !! i = Some e -> e_type e = AGENT_STUN_ENTRY_TYPE_CHECK ->
  inv x (a <| selected_entry := Some i |>).
Proof. intros Hi He Ht. inv_kept. change (kinds_of a !! i = Some AGENT_STUN_ENTRY_TYPE_CHECK). unfold kinds_of. by rewrite list_lookup_fmap, He, <- Ht. Qed.

Lemma select_entry_spec i e m : inv None (agent m) -> a_entries (agent m) !! i = Some e -> e_type e = AGENT_STUN_ENTRY_TYPE_CHECK ->
  spec (modify (fun a => a <| selected_entry := Some i |>)) m (fun _ m' => good None m m' /\ candidate_pairs (agent m') = candidate_pairs (agent m)).
Proof.
  intros Hi He Ht. apply spec_modify. split; [|done]. apply good_change; [by apply (selected_entry_inv None i e)|split; try done; eauto|done].
Qed.

Lemma select_pair_spec now k m : inv None (agent m) -> is_Some (candidate_pairs (agent m) !! k) ->
  spec (select_pair now k) m (fun _ m' => good None m m' /\ candidate_pairs (agent m') = candidate_pairs (agent m)).
Proof.
  intros Hi Hk. unfold select_pair. apply spec_bind, spec_gets. change (id (agent m)) with (agent m).
  case_test; [apply spec_ret; split; [by apply good_refl|done]|]. apply spec_bind, spec_modify.
  match goal with |- spec _ ?m1 _ => set (m1' := m1) end.
  assert (Hg1 : good None m m1').
  { apply good_change; [inv_kept|split; try done; eauto|done]. by apply lookup_lt_is_Some_1. }
  apply spec_bind. apply (spec_mono _ _ (fun _ m2 => good None m m2 /\ candidate_pairs (agent m2) = candidate_pairs (agent m) /\ a_entries (agent m2) = a_entries (agent m))).
  { case_test; [|by apply spec_ret]. apply spec_modify. split; [|done]. eapply good_trans; [exact Hg1|]. pose proof (gd_inv _ _ _ Hg1).
    apply good_change; [inv_kept|split; try done; eauto|done]. }
  intros ? m2 (Hg2 & Ep2 & Ee2). destruct (entry_of_pair (agent m) k) as [i|] eqn:Ei; [|by apply spec_ret].
  destruct (entry_of_pair_spec None _ k i Hi Ei) as (e & He & _ & Ht).
  eapply spec_mono; [apply (select_entry_spec i e); [apply Hg2|by rewrite Ee2|done]|]; cbn beta. intros ? m3 [Hg3 Ep3].
  split; [by eapply good_trans|congruence].
Qed.

(** ** A nominated pair *)
Lemma keep_alive_spec i e m : inv None (agent m) -> a_entries (agent m) !! i = Some e ->
  (forall k, e_pair e = Some k -> exists p, candidate_pairs (agent m) !! k = Some p /\ p_nominated p = true) ->
  spec (keep_alive i) m (fun _ m' => good None m m').
Proof.
  intros Hi He Hn. unfold keep_alive. apply spec_bind.
  eapply spec_mono; [by apply (state_spec (Some i) i AGENT_STUN_ENTRY_STATE_SUCCEEDED_KEEPALIVE e); [apply inv_weaken| |right]|]; cbn beta.
  intros ? m1 (Hg1 & _ & He1). eapply spec_mono; [eapply (arm_keepalive_spec (Some i)); [apply Hg1|exact He1|done]|]; cbn beta.
  intros ? m2 (Hg2 & _). assert (Hg02 : good (Some i) m m2) by by eapply good_trans.
  destruct (good_entry _ _ _ _ _ Hg02 He) as (e2 & He2 & _ & Hk2). apply (good_strengthen i e2 m m2 Hg02 He2).
  intros _ k p Hk Hp. destruct (Hn k ltac:(congruence)) as (p0 & Hp0 & Hpn). destruct (good_pair _ _ _ _ _ Hg02 Hp0) as (p' & Hp' & Hpn').
  right. assert (p = p') as -> by congruence. by apply Hpn'.
Qed.

Lemma disable_spec keep i m : inv None (agent m) -> has_entry (agent m) i -> spec (disable_keepalive keep i) m (fun _ m' => good None m m').
Proof.
  intros Hi [e He]. unfold disable_keepalive. apply spec_bind. apply (spec_get_entry i e); [done|]. case_test; [|by apply spec_ret, good_refl].
  eapply spec_mono; [by apply (state_spec None i AGENT_STUN_ENTRY_STATE_SUCCEEDED e)|]; cbn beta. by intros ? m1 (Hg1 & _).
Qed.

Lemma kind_entry a i t : kinds_of a !! i = Some t -> exists e, a_entries a !! i = Some e /\ e_type e = t.
Proof. unfold kinds_of. intros Hk. apply list_lookup_fmap_Some in Hk as (e & -> & He). eauto. Qed.

Lemma good_nominated m m' k : good None m m' -> (exists p, candidate_pairs (agent m) !! k = Some p /\ p_nominated p = true) ->
  exists p, candidate_pairs (agent m') !! k = Some p /\ p_nominated p = true.
Proof. intros Hg (p & Hp & Hn). destruct (good_pair _ _ _ _ _ Hg Hp) as (p' & Hp' & Hn'). eauto. Qed.

Lemma complete_spec k m : inv None (agent m) -> alive m ->
  (exists p, candidate_pairs (agent m) !! k = Some p /\ p_nominated p = true) ->
  spec (complete k) m (fun _ m' => good None m m').
Proof.
  intros Hi Ha Hn. unfold complete. apply spec_bind, spec_gets, spec_bind.
  apply (spec_mono _ _ (fun _ m1 => good None m m1 /\ a_state (agent m1) <> JUICE_STATE_CONNECTING)).
  { case_test.
    - apply bool_decide_eq_true in E. eapply spec_mono; [apply (change_state_spec JUICE_STATE_CONNECTED); try done; right; by rewrite E|]; cbn beta.
      intros ? m1 (Hg1 & -> & _). done.
    - apply bool_decide_eq_false in E. apply spec_ret. split; [by apply good_refl|done]. }
  intros ? m1 [Hg1 Hs1]. pose proof (alive_good _ _ _ Hg1 Ha) as Ha1. pose proof (good_nominated _ _ _ Hg1 Hn) as Hn1. apply spec_bind.
  eapply spec_mono; [apply (change_state_spec JUICE_STATE_COMPLETED); [apply Hg1|done| |by eauto]|]; cbn beta.
  { destruct Ha1 as [_ Hr]. destruct (a_state (agent m1)); try done; try (by right). by left. }
  intros ? m2 (Hg2 & _). assert (Hg02 : good None m m2) by by eapply good_trans. pose proof (good_nominated _ _ _ Hg02 Hn) as Hn2.
  apply spec_bind, spec_gets, spec_bind.
  apply (spec_mono _ _ (fun r m3 => m3 = m2 /\ match r with Some j => kinds_of (agent m2) !! j = Some AGENT_STUN_ENTRY_TYPE_RELAY | None => True end)).
  { destruct (entry_of_pair (agent m2) k) as [i|] eqn:Ei; [|by apply spec_ret].
    destruct (entry_of_pair_spec None _ k i (gd_inv _ _ _ Hg2) Ei) as (e & He & Hk & Ht). apply spec_bind. apply (spec_get_entry i e); [done|].
    apply spec_ret. split; [done|]. pose proof (eo_kind _ _ _ (inv_entry _ _ _ _ (gd_inv _ _ _ Hg2) He)) as Hkind. unfold kind_ok in Hkind. rewrite Ht in Hkind.
    destruct Hkind as (_ & _ & Hkind). by destruct (e_relay_entry e); [destruct Hkind|]. }
  intros relay ? [-> Hrelay]. apply spec_bind. apply (spec_mono _ _ (fun _ m3 => good None m2 m3)).
  { destruct (entry_of_pair (agent m2) k) as [i|] eqn:Ei; [|apply spec_ret, good_refl, Hg2].
    destruct (entry_of_pair_spec None _ k i (gd_inv _ _ _ Hg2) Ei) as (e & He & Hk & Ht). apply spec_bind. apply (spec_get_entry i e); [done|].
    case_test; [|apply spec_ret, good_refl, Hg2]. apply spec_bind.
    eapply spec_mono; [apply (keep_alive_spec i e); [apply Hg2|done|by intros j Hj; simplify_eq]|]; cbn beta. intros ? m3 Hg3.
    destruct (good_entry _ _ _ _ _ Hg3 He) as (e3 & He3 & Ht3 & _).
    eapply spec_mono; [apply (select_entry_spec i e3); [apply Hg3|done|congruence]|]; cbn beta. intros ? m4 [Hg4 _]. by eapply good_trans. }
  intros ? m3 Hg3. apply spec_bind. apply (spec_mono _ _ (fun _ m4 => good None m2 m4)).
  { destruct relay as [r|]; [|by apply spec_ret]. destruct (kind_entry _ _ _ Hrelay) as (e & He & Ht).
    destruct (good_entry _ _ _ _ _ Hg3 He) as (e3 & He3 & Ht3 & _). apply spec_bind. apply (spec_get_entry r e3); [done|].
    case_test; [|by apply spec_ret]. eapply spec_mono; [apply (keep_alive_spec r e3); [apply Hg3|done|]|]; cbn beta.
    - intros j Hj. rewrite (pairless None _ r e3 (gd_inv _ _ _ Hg3) He3) in Hj by congruence. done.
    - intros ? m4 Hg4. by eapply good_trans. }
  intros ? m4 Hg4. unfold all_entries. apply spec_bind, spec_gets.
  eapply spec_mono; [apply (each_entry_spec _ (fun _ => True)); [apply Hg4|done|]|]; cbn beta.
  - intros i m5 Hi5 He5 _. eapply spec_mono; [by apply disable_spec|]; cbn beta. by intros ? m6 Hg6.
  - intros ? m5 [Hg5 _]. eapply good_trans; [exact Hg02|]. by eapply good_trans.
Qed.

(** ** A pair that is not nominated *)
Lemma no_completion m c : inv None (agent m) -> chosen_well m c -> nominated_pair c = None -> a_state (agent m) <> JUICE_STATE_COMPLETED.
Proof.
  intros Hi [_ Hw] Hn Hs. destruct (inv_completed _ _ Hi Hs) as (k & p & Hp & Hpn). destruct (Hw k p Hp) as [Hf _]. rewrite Hf in Hpn by done. done.
Qed.

Lemma nominate_act_spec now k pending next m : inv None (agent m) -> alive m -> is_Some (candidate_pairs (agent m) !! k) ->
  a_state (agent m) <> JUICE_STATE_COMPLETED ->
  spec (nominate now k pending next) m (fun _ m' => good None m m').
Proof.
  intros Hi Ha [p Hp] Hs. unfold nominate. apply spec_bind.
  eapply spec_mono; [apply (change_state_spec JUICE_STATE_CONNECTED); try done|]; cbn beta.
  { destruct Ha as [_ Hr]. destruct (a_state (agent m)); try done; try (by right). by left. }
  intros ? m1 (Hg1 & _ & Ep1 & _). apply spec_bind, spec_gets, spec_bind. change (id (agent m1)) with (agent m1).
  rewrite <- Ep1 in Hp. apply (spec_get_pair k p); [done|].
  case_test; [|by apply spec_ret]. cbv zeta. case_test; [|by apply spec_ret].
  apply spec_bind. eapply spec_mono; [apply (pair_spec None k (fun p => p <| p_nomination_requested := true |>) p); try done; try apply Hg1|]; cbn beta.
  { exact (inv_pair _ _ _ _ (gd_inv _ _ _ Hg1) Hp). }
  { intros Hw. by left. }
  intros ? m2 (Hg2 & Ea2 & _). apply spec_bind. apply (spec_mono _ _ (fun _ m3 => good None m m3)); [|by intros ? m3 Hg3; apply spec_ret].
  assert (Hg02 : good None m m2) by by eapply good_trans.
  destruct (entry_of_pair (agent m1) k) as [i|] eqn:Ei; [|by apply spec_ret].
  destruct (entry_of_pair_spec None _ k i (gd_inv _ _ _ Hg1) Ei) as (e & He & _). apply spec_bind.
  assert (He2 : a_entries (agent m2) !! i = Some e) by by rewrite Ea2. pose proof (inv_entry _ _ _ _ (gd_inv _ _ _ Hg2) He2) as [_ _ _ Hn Hr].
  eapply spec_mono; [apply (timers_spec None i (fun e => e <| e_state := AGENT_STUN_ENTRY_STATE_PENDING |> <| e_transaction_id_expired := true |>) e);
    try done; apply Hg2|]; cbn beta.
  intros ? m3 (Hg3 & _ & He3). eapply spec_mono; [eapply (arm_spec None i 0); [apply Hg3|exact He3|lia]|]; cbn beta.
  intros ? m4 [Hg4 _]. eapply good_trans; [exact Hg02|]. by eapply good_trans.
Qed.

(** ** The next time *)
Lemma next_time_total es ps chosen next :
  (forall e k, e ∈ es -> e_pair e = Some k -> is_Some (ps !! k)) ->
  match chosen with
  | Some k => is_Some (ps !! k)
  | None => forall e k, e ∈ es -> e_pair e = Some k -> e_state e <> AGENT_STUN_ENTRY_STATE_SUCCEEDED_KEEPALIVE
  end -> is_Some (next_time es ps chosen next).
Proof.
  revert next. induction es as [|e es IH]; intros next Hp Hc; cbn [next_time]; [by eexists|]. cbv zeta.
  assert (IH' : forall next, is_Some (next_time es ps chosen next)).
  { intros n. apply IH; [intros e' k He'; apply Hp; by right|]. destruct chosen; [done|]. intros e' k He'. apply Hc. by right. }
  set (n := if _ && _ then _ else _). clearbody n.
  destruct (e_pair e) as [k|] eqn:Hk; [|apply IH']. case_test; [|apply IH']. apply bool_decide_eq_true in E.
  destruct (Hp e k ltac:(left) Hk) as [p ->]. cbn [obind]. case_test; [|apply IH'].
  destruct chosen as [s|]; [|by destruct (Hc e k ltac:(left) Hk)]. cbn [obind]. destruct Hc as [q ->]. apply IH'.
Qed.

Lemma end_spec chosen next m : inv None (agent m) ->
  match chosen with
  | Some k => is_Some (candidate_pairs (agent m) !! k)
  | None => forall k p, candidate_pairs (agent m) !! k = Some p -> ~ works p
  end -> spec (end_of_bookkeeping chosen next) m (fun _ m' => m' = m).
Proof.
  intros Hi Hc. unfold end_of_bookkeeping. apply spec_bind, spec_gets. change (id (agent m)) with (agent m).
  destruct (next_time_total (a_entries (agent m)) (candidate_pairs (agent m)) chosen next) as [t Et].
  - intros e k [i He]%list_elem_of_lookup Hk. destruct (entry_pair None _ i e k Hi He Hk) as [p Hp]. by exists p.
  - destruct chosen as [k|]; [done|]. intros e k [i He]%list_elem_of_lookup Hk Hs.
    destruct (entry_pair None _ i e k Hi He Hk) as [p Hp]. apply (Hc k p Hp). by apply (inv_alive _ _ Hi i e k p).
  - by eapply spec_defined.
Qed.

Lemma act_on_spec now c next m : inv None (agent m) -> alive m -> chosen_well m c ->
  spec (act_on now c next) m (fun _ m' => good None m m').
Proof.
  intros Hi Ha Hw. unfold act_on. destruct (chosen_pair c) as [k|] eqn:Ec.
  - pose proof (ch_chosen _ _ (cw_ok _ _ Hw) k Ec) as Hk. apply spec_bind. eapply spec_mono; [by apply select_pair_spec|]; cbn beta.
    intros ? m1 [Hg1 Ep1]. pose proof (chosen_well_same _ _ _ Ep1 Hw) as Hw1. pose proof (alive_good _ _ _ Hg1 Ha) as Ha1.
    apply spec_bind. apply (spec_mono _ _ (fun _ m2 => good None m m2)).
    + destruct (nominated_pair c) as [n|] eqn:En.
      * destruct (ch_nominated _ _ (cw_ok _ _ Hw1) n En) as [_ Hn]. apply spec_bind.
        eapply spec_mono; [apply (complete_spec n); [apply Hg1|done..]|]; cbn beta. intros ? m2 Hg2. apply spec_ret. by eapply good_trans.
      * eapply spec_mono; [apply nominate_act_spec; [apply Hg1|done|by rewrite Ep1|]|]; cbn beta.
        -- by apply (no_completion m1 c); [apply Hg1|..].
        -- intros ? m2 Hg2. by eapply good_trans.
    + intros next' m2 Hg2. destruct Hk as [p Hp]. destruct (good_pair _ _ _ _ _ Hg2 Hp) as (p2 & Hp2 & _).
      eapply spec_mono; [apply (end_spec (Some k)); [apply Hg2|by exists p2]|]; cbn beta. by intros ? ? ->.
  - assert (Hend : forall next, spec (end_of_bookkeeping None next) m (fun _ m' => good None m m')).
    { intros n. eapply spec_mono; [apply (end_spec None); [done|]|]; cbn beta.
      - intros k p Hp. by apply (cw_none _ _ Hw k p Hp).
      - intros ? ? ->. by apply good_refl. }
    apply spec_bind, spec_gets. case_test; [|apply Hend]. case_test; [|apply Hend].
    apply spec_bind. eapply spec_mono; [by apply lose_spec|]; cbn beta. intros ? m1 Hg1. by apply spec_ret.
Qed.

(** ** The whole call *)
Lemma agent_bookkeeping_spec m : inv None (agent m) -> conn_created (agent m) = true ->
  spec agent_bookkeeping m (fun _ m' => good None m m').
Proof.
  intros Hi Hcr. unfold agent_bookkeeping. apply spec_bind, spec_ask. cbv zeta.
  pose proof (now_range (asked m)) as Hnow. set (now := now_ms (asked m)) in *. clearbody now.
  set (m0 := mkMachine (agent m) (S (asked m)) (events m)). change (memory (mkMachine _ _ _)) with (agent m).
  assert (Hg0 : good None m m0) by by apply good_asked. change (conn_created (agent m0) = true) in Hcr.
  eapply spec_mono with (Q := fun _ m' => good None m0 m'); [|intros ? m' Hg; by eapply good_trans].
  apply gd_inv in Hg0. rename Hg0 into Hi0. clearbody m0. clear m Hi. rename m0 into m.
  apply spec_bind, spec_gets. change (id (agent m)) with (agent m). case_test; [by apply spec_ret, good_refl|].
  apply orb_false_iff in E as [E1 E2]. apply bool_decide_eq_false in E1, E2.
  assert (Ha : alive m) by (split; [done|by destruct (a_state (agent m))]).
  unfold all_entries. apply spec_bind, spec_gets, spec_bind.
  eapply spec_mono; [apply (each_entry_spec _ (fun _ => True)); [done|done|]|]; cbn beta.
  { intros i m1 Hi1 He1 _. eapply spec_mono; [apply bookkeep_spec; [done|done|lia]|]; cbn beta. by intros ? m2 Hg2. }
  intros ? m1 [Hg1 _]. apply spec_bind. eapply spec_mono; [apply choose_pair_spec, Hg1|]; cbn beta. intros c m2 [[Hg2 _] Hw2].
  assert (Hg02 : good None m m2) by by eapply good_trans.
  apply spec_bind, spec_gets, spec_bind.
  eapply spec_mono; [apply (each_entry_spec _ (fun m' => candidate_pairs (agent m') = candidate_pairs (agent m2))); [apply Hg2|done|]|]; cbn beta.
  { intros i m3 Hi3 He3 Ep3. eapply spec_mono; [by apply cancel_spec|]; cbn beta. intros ? m4 [Hg4 Ep4]. split; [done|congruence]. }
  intros ? m3 [Hg3 Ep3]. assert (Hg03 : good None m m3) by by eapply good_trans. pose proof (chosen_well_same _ _ _ Ep3 Hw2) as Hw3.
  pose proof (alive_good _ _ _ Hg03 Ha) as Ha3. apply spec_bind. apply (spec_mono _ _ (fun _ m4 => m4 = m3)).
  { destruct (nominated_pair c) as [k|] eqn:En; [|by apply spec_ret]. destruct (ch_nominated _ _ (cw_ok _ _ Hw3) k En) as (_ & p & Hp & _).
    apply spec_bind. by apply (spec_get_pair k p). }
  intros failed ? ->. case_test.
  - apply spec_bind. eapply spec_mono; [apply lose_spec; [apply Hg3|done]|]; cbn beta. intros ? m4 Hg4. apply spec_ret. by eapply good_trans.
  - eapply spec_mono; [apply act_on_spec; [apply Hg3|done..]|]; cbn beta. intros ? m4 Hg4. by eapply good_trans.
Qed.

Lemma conn_fail_spec m : inv None (agent m) -> alive m -> spec agent_conn_fail m (fun _ m' => good None m m').
Proof.
  intros Hi Ha. pose proof (lose_spec m Hi Ha) as Hl. unfold agent_conn_fail. unfold lose in Hl. unfold spec, bind in *.
  destruct (agent_change_state JUICE_STATE_FAILED m) as [[[] m1]|]; [|done]. exact Hl.
Qed.
End Act.
