(* ===== verification/AgentOps.v ===== *)
(** * The calls of the application and of the connection: the agent stays in order

    First what the agent parses: it needs more of a description than IceWf
    shows, its user fragment is a list of bytes and the addresses of its
    candidates are well-formed. *)

From Stdlib Require Import Strings.String.
From S2P Require Import Prelude Machine CStdio Addr Ice IceSort IceWf IceGenerate IceLocal StunMsg StunWrite StunWriteCorrect StunSize.
From S2P Require Import StunReceived Turn TurnTable TurnOps TurnMap AgentState AgentOrder Agent AgentStep AgentApi AgentInv AgentTurn.
From S2P Require Import AgentSend AgentTimers AgentPairs AgentCandidates AgentBinding AgentInput AgentBooks AgentAct Base64.
From stdpp Require Import list.
#[local] Open Scope Z_scope.
#[local] Open Scope machine_scope.

Section Text.
Context `{Platform, Scan, Resolver, Hashes, !AgentEnvironment, !AgentLaws}.

(** A C string: characters other than NUL. *)
Definition text_ok (s : list Z) : Prop := nul_free s /\ bytes_ok s.

(** ** Words of a line *)
Lemma span_Forall P f s : Forall P s -> Forall P (fst (span f s)) /\ Forall P (snd (span f s)).
Proof. intros Hs. rewrite <- (span_app f s) in Hs. by apply list.Forall_app in Hs. Qed.

Lemma prefix_Forall P s p : Forall P s -> Forall P (fst (match_prefix s p)).
Proof.
  intros Hs. cbn. unfold skip_prefix. destruct (strip p s) as [r|] eqn:E; [|done].
  apply strip_Some in E as ->. by apply list.Forall_app in Hs as [_ ?].
Qed.

Lemma field_Forall P arg old s : Forall P arg -> Forall P old -> scan_field arg old = Some s -> Forall P s.
Proof.
  intros Ha Ho. unfold scan_field. cbn [sscanf]. unfold scan_word, skip_spaces.
  destruct (span_Forall P isspace arg Ha) as [_ Hs]. set (s' := snd (span isspace arg)) in *. clearbody s'.
  destruct (span_Forall P (fun c => negb (isspace c)) s' Hs) as [Hw _]. destruct (span _ s') as [w r]. cbn [fst] in Hw.
  destruct w as [|c w]; [by intros [= <-]|]. unfold store_string. case_test; [|done]. intros Hs'. injection Hs' as <-. apply (Forall_take P 256) in Hw. exact Hw.
Qed.

(** ** Candidates *)
Lemma first_inet_in ai a : first_inet ai = Some a -> a ∈ ai.
Proof.
  induction ai as [|b ai IH]; cbn; [done|]. case_test; [intros [= ->]; left|]. intros Hf. right. by apply IH.
Qed.

Lemma resolve_candidate_wf c mode : record_wf (resolved c) -> record_wf (resolved (fst (ice_resolve_candidate c mode))).
Proof.
  intros Hc. unfold ice_resolve_candidate. cbv zeta. destruct (getaddrinfo _ _ _) as [ai|] eqn:E; [|exact Hc].
  destruct (first_inet ai) as [a|] eqn:Ef; [|exact Hc]. apply resolved_addrs in E. rewrite list.Forall_forall in E. by apply E, first_inet_in.
Qed.

Lemma parse_candidate_wf line c0 c : nul_free line -> ice_parse_candidate_sdp line c0 = Some (c, 0) -> candidate_wf c.
Proof.
  intros Hl E. destruct (parse_candidate_cases line c0 Hl) as (c' & ret & E' & Hc). rewrite E in E'. injection E' as <- <-.
  destruct Hc as [[_ Hc]|[?|?]]; [|done..]. split; [done|].
  unfold ice_parse_candidate_sdp in E. destruct (match_prefix _ _) as [? []]; [|done].
  destruct (parse_sdp_candidate_cases line Hl) as (c1 & result & Ep & Hr & Hcases). rewrite Ep in E.
  destruct Hcases as [[-> _]|[-> | ->]]; [|done..]. injection E as <-. apply resolve_candidate_wf. rewrite Hr.
  apply record_zero_received.
Qed.

(** ** Lines and descriptions *)
Lemma added_wf c d : candidate_wf c -> description_wf d -> description_wf (snd (fst (ice_add_candidate c d))).
Proof.
  intros Hc Hd. pose proof (add_candidate_ok c d (proj1 Hc) (proj1 Hd)) as Ha. destruct (ice_add_candidate c d) as [[c' d'] result] eqn:E.
  destruct Ha as [_ [(-> & _)|(_ & _ & ->)]]; [|done]. by apply add_candidate_wf in E as [? _].
Qed.

Lemma parse_line_wf line d : text_ok line -> description_wf d ->
  exists d' ret, parse_sdp_line line d = Some (d', ret) /\ description_wf d' /\ (ret = 0 \/ ret = ICE_PARSE_IGNORED).
Proof.
  intros [Hl Hb] Hd. pose proof Hd as (Hok & Hu & Hcs). destruct (parse_sdp_line_ok line d Hl Hok) as (d' & ret & E & Hok' & Hret).
  exists d', ret. split; [done|]. split; [|done]. split; [exact Hok'|]. clear Hok' Hret. revert E.
  unfold parse_sdp_line. pose proof (prefix_Forall _ line (lit "a=ice-ufrag:") Hb) as Hm.
  destruct (match_prefix line (lit "a=ice-ufrag:")) as [a1 [|]].
  { destruct (scan_field a1 _) as [s|] eqn:Es; [|done]. intros [= <- <-]. split; [exact (field_Forall _ _ _ _ Hm Hu Es)|done]. }
  destruct (match_prefix line _) as [a2 [|]]; [destruct (scan_field a2 _); [|done]; by intros [= <- <-]|].
  destruct (match_prefix line _) as [a3 [|]]; [by intros [= <- <-]|]. destruct (match_prefix line _) as [a4 [|]]; [by intros [= <- <-]|].
  destruct (ice_parse_candidate_sdp line _) as [[c result]|] eqn:E; [|done]. case_test; [|by intros [= <- <-]]. zify_bool. subst result.
  apply parse_candidate_wf in E; [|done]. pose proof (added_wf c d E Hd) as (_ & Ha).
  destruct (ice_add_candidate c d) as [[c' d''] ?]. by intros [= <- <-].
Qed.

Lemma cstr_Forall P s : Forall P s -> Forall P (cstr s).
Proof. intros Hs. induction Hs as [|b s Hb Hs IH]; cbn; [constructor|]. case_test; by constructor. Qed.

Lemma text_lines_wf sdp chars d : text_ok sdp -> text_ok chars -> description_wf d ->
  exists d', text_lines sdp chars d = Some (d', 0) /\ description_wf d'.
Proof.
  intros [Hs Hsb]. revert chars d. induction sdp as [|c sdp IH]; intros chars d [Hb Hbb] Hd; cbn [text_lines]; [by eauto|].
  apply Forall_cons_1 in Hs as [Hc Hs]. apply Forall_cons_1 in Hsb as [Hcb Hsb]. specialize (IH Hs Hsb).
  destruct (c =? 10); [destruct (lenZ chars =? 0); [by apply IH|]|destruct (negb _ && _); apply IH; try done].
  - destruct (parse_line_wf (cstr (chars ++ [0])) d) as (d' & ret & -> & Hd' & Hret); [|done|].
    { split; [apply cstr_nonzero|]. apply cstr_Forall, Forall_app_2; [done|]. by repeat constructor. }
    destruct Hret as [-> | ->]; (apply IH; [by split; constructor|done]).
  - split; (apply Forall_app_2; [done|by constructor]).
Qed.

Lemma zero_description_wf : description_wf ice_description_zero.
Proof. split; [|by split; constructor]. split; cbn; try (by apply cstring_nil); [split; discriminate|constructor]. Qed.

Lemma sorted_wf d : description_wf d -> exists d', ice_sort_candidates d = Some d' /\ description_wf d' /\ ice_ufrag d' = ice_ufrag d.
Proof.
  intros ([Hu Hp Hn Hc] & Hb & Hcs). destruct (sort_candidates_spec d) as (l & -> & Hperm & _). eexists. split; [done|]. split; [|done].
  split; [split; cbn; try done|split; [done|]].
  - unfold candidates_count, lenZ in *. cbn. by rewrite Hperm.
  - by rewrite Hperm.
  - cbn. by rewrite Hperm.
Qed.

Lemma parse_sdp_wf buffer sdp : lenZ buffer = Ice.BUFFER_SIZE -> text_ok sdp ->
  exists d result, ice_parse_sdp buffer sdp = Some (d, result) /\ description_wf d.
Proof.
  intros Hb Hs. destruct (text_lines_wf sdp [] _ Hs ltac:(by split; constructor) zero_description_wf) as (d & E & Hd).
  unfold ice_parse_sdp. rewrite parse_sdp_lines, E by done.
  destruct (sorted_wf d Hd) as (d' & -> & Hd' & _). repeat case_test; by eauto.
Qed.

(** ** The local description *)
Lemma word_char_ok c : isalpha c || isdigit c || (c =? 43) || (c =? 47) = true -> 0 < c < 256.
Proof. unfold isalpha, isupper, islower, isdigit. intros Hc. zify_bool. lia. Qed.

Lemma valid_text s : ice_is_valid_string (Some s) = true -> text_ok s.
Proof.
  cbn. intros Hv. rewrite List.forallb_forall in Hv. assert (Hf : Forall (fun c => isalpha c || isdigit c || (c =? 43) || (c =? 47) = true) s) by (apply list.Forall_forall; intros c Hc; apply Hv; by apply list_elem_of_In).
  split; apply (list.Forall_impl _ _ _ Hf); intros c Hc;
    apply word_char_ok in Hc; unfold is_byte; lia.
Qed.

Lemma clipped_wf s : text_ok s -> cstring 256 (snprintf_clip 257 s) /\ bytes_ok (snprintf_clip 257 s).
Proof.
  intros [Hs Hb]. unfold snprintf_clip. split; [|by apply Forall_take]. split; [|by apply Forall_take]. unfold lenZ. rewrite length_take. lia.
Qed.

Lemma created_description_wf draws : 26 <= lenZ draws -> description_wf (fst (ice_create_local_description draws)).
Proof.
  intros Hd. unfold ice_create_local_description. cbn [fst].
  assert (Hs : forall bytes n, 0 < n <= 256 -> n - 1 <= lenZ bytes -> cstring 256 (juice_random_str64 bytes n) /\ bytes_ok (juice_random_str64 bytes n)).
  { intros bytes n Hn Hl. pose proof (length_random_str64 bytes n ltac:(lia) Hl) as Hlen.
    destruct (valid_text _ (random_str64_valid bytes n)) as [Hz Hb]. split; [|done]. split; [lia|done]. }
  destruct (Hs draws (4 + 1)) as [Hu Hub]; [lia|lia|]. destruct (Hs (drop 4 draws) (22 + 1)) as [Hp _]; [lia| |].
  { unfold lenZ in *. rewrite length_drop. lia. }
  split; [|by split; cbn]. by split.
Qed.
End Text.

Section Ops.
Context `{Platform, Scan, Resolver, Hashes, !AgentEnvironment, !AgentLaws}.

(** ** What every call keeps *)

(** The state that goes with the connection. *)
Definition phase (a : juice_agent) : Prop :=
  if conn_created a then running (a_state a)
  else a_state a = JUICE_STATE_DISCONNECTED \/ a_state a = JUICE_STATE_GATHERING.

Definition reported (m m' : amachine) : Prop :=
  exists es, events m' = es ++ events m /\ reports (a_state (agent m)) es (a_state (agent m')).

(** A call: the invariant, the reports and the configuration. *)
Record kept (m m' : amachine) : Prop := {
  kp_inv : inv None (agent m');
  kp_reports : reported m m';
  kp_config : a_config (agent m') = a_config (agent m);
  kp_created : conn_created (agent m) = true -> conn_created (agent m') = true
}.

Definition steps_ok (m m' : amachine) : Prop := kept m m' /\ phase (agent m').

Lemma reported_same m m' : events m' = events m -> a_state (agent m') = a_state (agent m) -> reported m m'.
Proof. intros Ee Es. exists []. split; [done|]. cbn. congruence. Qed.

Lemma reported_trans m1 m2 m3 : reported m1 m2 -> reported m2 m3 -> reported m1 m3.
Proof.
  intros (es & Ee & Hr) (es' & Ee' & Hr'). exists (es' ++ es). split; [by rewrite Ee', Ee, app_assoc|]. by eapply reports_app.
Qed.

Lemma kept_refl m : inv None (agent m) -> kept m m.
Proof. intros Hi. split; try done. by apply reported_same. Qed.

Lemma kept_trans m1 m2 m3 : kept m1 m2 -> kept m2 m3 -> kept m1 m3.
Proof. intros [_ R1 C1 D1] [I2 R2 C2 D2]. split; [done|by eapply reported_trans|congruence|auto]. Qed.

Lemma good_kept m m' : good None m m' -> kept m m'.
Proof. intros [Hi He Hr]. split; [done|done|apply He|]. by rewrite (ev_created _ _ He). Qed.

Lemma good_phase m m' : good None m m' -> phase (agent m) -> phase (agent m').
Proof.
  intros Hg. pose proof (ev_created _ _ (gd_evolves _ _ _ Hg)) as Ec. pose proof (ev_state _ _ (gd_evolves _ _ _ Hg)) as Es.
  unfold phase. rewrite Ec. destruct (conn_created (agent m)) eqn:Hc.
  - intros Hr. destruct Hg as [_ _ (es & _ & Hrep)]. by eapply reports_running.
  - by rewrite Es.
Qed.

Lemma good_ok m m' : good None m m' -> phase (agent m) -> steps_ok m m'.
Proof. intros Hg Hp. split; [by apply good_kept|by eapply good_phase]. Qed.

(** ** Gathering *)
Lemma host_candidates_wf records d : Forall record_wf records -> description_wf d -> description_wf (add_host_candidates records d).
Proof.
  intros Hr. revert d. induction Hr as [|record records Hr _ IH]; intros d Hd; cbn [add_host_candidates]; [done|].
  destruct (ice_create_local_candidate _ _ _ _) as [c result] eqn:Ec. case_test; [by apply IH|].
  apply negb_false_iff, Z.eqb_eq in E as ->. apply created_wf in Ec as [Hc _]; [|done|lia|done]. case_test; [done|].
  pose proof (added_wf c d Hc Hd) as Ha. destruct (ice_add_candidate c d) as [[c' d'] result]. apply IH. by case_test.
Qed.

Lemma host_records_wf n : Forall record_wf (host_records (conn_get_addrs_result n)).
Proof. pose proof (host_addrs n) as Hh. unfold host_records. destruct (conn_get_addrs_result n) as [count records]. by apply Forall_take. Qed.

Lemma announce_spec i m : inv None (agent m) -> spec (announce i) m (fun _ m' => good None m m' /\ agent m' = agent m).
Proof.
  intros Hi. unfold announce. apply spec_bind, spec_gets. case_test; [apply spec_ret; split; [by apply good_refl|done]|].
  apply negb_false_iff, bool_decide_eq_true in E. apply spec_bind.
  assert (Hc : candidate_ok (candidate_at (a_local (agent m)) i)).
  { unfold candidate_at in *. destruct (inv_local _ _ Hi) as ([_ _ _ Hcs] & _). destruct (candidates (a_local (agent m)) !! i) as [c|] eqn:Ei; [|done].
    by apply (Forall_lookup_1 _ _ _ _ Hcs Ei). }
  eapply spec_mono; [by apply (generate_spec None)|]; cbn beta. intros [text|] m1 [Hg1 Ea1]; [|by apply spec_ret].
  apply spec_emit. split; [|done]. eapply good_trans; [exact Hg1|]. by apply (good_event None m1); [apply Hg1|].
Qed.

(** The changes of the state before there is a connection. *)
Lemma early_state_spec s m : inv None (agent m) -> a_state (agent m) = s \/ legal (a_state (agent m)) s -> s <> JUICE_STATE_COMPLETED ->
  spec (agent_change_state s) m (fun _ m' => kept m m' /\ agent m' = agent m <| a_state := s |>).
Proof.
  intros Hi Hs Hc. unfold agent_change_state. apply spec_bind, spec_gets. case_test.
  { apply bool_decide_eq_true in E. subst s. apply spec_ret. split; [by apply kept_refl|]. by destruct (agent m). }
  apply bool_decide_eq_false in E. destruct Hs as [Hs|Hs]; [congruence|].
  apply spec_bind, spec_modify, spec_emit. cbn [memory asked events]. split; [|done]. split; try done; cbn [memory asked events].
  - inv_kept.
  - eexists [_]. split; [done|]. cbn. split; [done|]. by exists (a_state (agent m)).
Qed.

Lemma kept_change m a' n : inv None a' -> a_state a' = a_state (agent m) -> a_config a' = a_config (agent m) ->
  (conn_created (agent m) = true -> conn_created a' = true) -> kept m (mkMachine a' n (events m)).
Proof. intros Hi Hs Hc Hcr. split; try done. by apply reported_same. Qed.

(** No entry has been added before. *)
Definition fresh (a : juice_agent) : Prop := conn_created a = true /\ resolver a = None /\ others a = 0.

Lemma created_inv a : inv None a -> conn_created a = false -> inv None (a <| conn_created := true |>) /\ fresh (a <| conn_created := true |>).
Proof.
  intros Hi Hc. pose proof (inv_resolver _ _ Hi) as Hr. unfold resolver_ok in Hr.
  assert (resolver a = None /\ others a = 0) as [Er Eo].
  { destruct (resolver a) as [[]|]; [destruct Hr; congruence..|]. by rewrite Hc in Hr. }
  split; [|done]. inv_kept. unfold resolver_ok. change (resolver (a <| conn_created := true |>)) with (resolver a). rewrite Er.
  change (others (a <| conn_created := true |>)) with (others a). rewrite Eo. cbn. unfold MAX_RELAY_ENTRIES_COUNT. lia.
Qed.

Lemma start_resolver_inv a : inv None a -> fresh a ->
  inv None (a <| resolver := Some (if mux_mode (a_config a) then AtStun else AtTurn (turn_servers (a_config a)) 0 0) |>).
Proof.
  intros Hi (Hc & _ & Ho). pose proof (inv_config _ _ Hi) as (Hex & Hlen & Hb). inv_kept. unfold resolver_ok.
  match goal with |- match resolver ?a' with _ => _ end => change (others a') with (others a); change (conn_created a') with (conn_created a); change (a_config a') with (a_config a) end.
  cbn [resolver upd updater]. rewrite Ho. pose proof (lenZ_nonneg (turn_servers (a_config a))).
  destruct (mux_mode (a_config a)) eqn:Em; cbn; unfold MAX_RELAY_ENTRIES_COUNT; split_and!; try done; try lia.
  intros Hl. destruct Hex as [Hex|[Hex|Hex]]; [done|congruence|done].
Qed.

Lemma gather_spec m : inv None (agent m) -> phase (agent m) -> spec agent_gather_candidates m (fun _ m' => steps_ok m m').
Proof.
  intros Hi Hp. unfold agent_gather_candidates. apply spec_bind, spec_gets. change (id (agent m)) with (agent m).
  case_test; [apply spec_ret; split; [by apply kept_refl|done]|]. rename E into Hc. pose proof Hp as Hs. unfold phase in Hs. rewrite Hc in Hs.
  apply spec_bind. apply (spec_mono _ _ (fun _ m1 => good None m m1)).
  { case_test; [|by apply spec_ret, good_refl]. by apply (mode_spec None (fun _ => AGENT_MODE_CONTROLLING)). }
  intros ? m1 Hg1. pose proof (ev_created _ _ (gd_evolves _ _ _ Hg1)) as Hc1. pose proof (ev_state _ _ (gd_evolves _ _ _ Hg1) Hc) as Hs1.
  apply spec_bind. eapply spec_mono; [apply (early_state_spec JUICE_STATE_GATHERING); [apply Hg1| |done]|]; cbn beta.
  { rewrite Hs1. destruct Hs as [->| ->]; [by right|by left]. }
  intros ? m2 [Hk2 Ea2]. assert (Hk02 : kept m m2) by (eapply kept_trans; [by apply good_kept|done]).
  apply spec_bind, spec_ask. cbn [asked memory events].
  assert (Hc2 : conn_created (agent m2) = false) by (rewrite Ea2; cbn; congruence).
  case_test.
  { apply spec_ret. split; [eapply kept_trans; [exact Hk02|]; by apply kept_change; [apply Hk02|..]|]. unfold phase. cbn [agent memory]. rewrite Hc2, Ea2. by right. }
  apply spec_bind, spec_modify. cbn [asked memory events]. destruct (created_inv _ (kp_inv _ _ Hk2) Hc2) as [Hi3 Hf3].
  match goal with |- spec _ ?m3' _ => set (m3 := m3') end.
  assert (Hk3 : kept m m3) by (eapply kept_trans; [exact Hk02|]; by apply kept_change).
  change (inv None (agent m3)) in Hi3. change (fresh (agent m3)) in Hf3. assert (Hs3 : a_state (agent m3) = JUICE_STATE_GATHERING) by (unfold m3; cbn; by rewrite Ea2).
  clearbody m3. clear Hk2 Ea2 Hk02 Hc2 Hg1 Hc1 Hs1 Hs.
  apply spec_bind, spec_ask, spec_bind. cbn [asked memory events].
  set (records := host_records (conn_get_addrs_result (asked m3))). assert (Hrw : Forall record_wf records) by apply host_records_wf.
  apply spec_modify. cbn [asked memory events]. apply spec_bind, spec_gets. cbn [memory].
  assert (Hd : description_wf (add_host_candidates records (a_local (agent m3)))) by (apply host_candidates_wf; [done|apply (inv_local _ _ Hi3)]).
  destruct (sorted_wf _ Hd) as (d & Ed & Hdw & _). apply spec_bind. eapply spec_defined; [exact Ed|]. apply spec_bind, spec_modify. cbn [asked memory events].
  match goal with |- spec _ ?m4' _ => set (m4 := m4') end.
  assert (Hg4 : good None m3 m4).
  { unfold m4. apply good_change; [inv_kept|split; try done; eauto|done]. }
  assert (Es4 : a_state (agent m4) = JUICE_STATE_GATHERING) by exact Hs3. clearbody m4. apply spec_bind.
  eapply spec_mono; [apply (spec_each (fun m' => good None m3 m' /\ agent m' = agent m4)); [|done]|]; cbn beta.
  { intros i m5 _ [Hg5 Ea5]. eapply spec_mono; [apply announce_spec, Hg5|]; cbn beta. intros ? m6 [Hg6 Ea6]. split; [by eapply good_trans|congruence]. }
  intros ? m5 [Hg5 Ea5]. apply spec_bind. assert (Hs5 : a_state (agent m5) = JUICE_STATE_GATHERING) by by rewrite Ea5, Es4.
  eapply spec_mono; [apply (early_state_spec JUICE_STATE_CONNECTING); [apply Hg5|right; by rewrite Hs5|done]|]; cbn beta.
  intros ? m6 [Hk6 Ea6]. assert (Hk06 : kept m m6).
  { eapply kept_trans; [exact Hk3|]. eapply kept_trans; [by apply good_kept|done]. }
  assert (Hf6 : fresh (agent m6)).
  { pose proof (gd_evolves _ _ _ Hg5) as He. destruct Hf3 as (Hf1 & Hf2 & Hf3'). rewrite Ea6. split_and!.
    - change (conn_created (agent m5) = true). by rewrite (ev_created _ _ He).
    - change (resolver (agent m5) = None). by rewrite (ev_resolver _ _ He).
    - change (others (agent m5) = 0). by rewrite (ev_others _ _ He). }
  assert (Hs6 : a_state (agent m6) = JUICE_STATE_CONNECTING) by by rewrite Ea6.
  assert (Hp6 : phase (agent m6)) by (unfold phase; by rewrite (proj1 Hf6), Hs6).
  clear Ea6 Hk6. pose proof (kp_inv _ _ Hk06) as Hi6. apply spec_bind, spec_gets. change (id (agent m6)) with (agent m6). cbv zeta.
  assert (Hstart : forall n, steps_ok m (mkMachine ((agent m6) <| resolver := Some (if mux_mode (a_config (agent m6)) then AtStun
      else AtTurn (turn_servers (a_config (agent m6))) 0 0) |>) n (events m6))).
  { intros n. split; [|exact Hp6]. eapply kept_trans; [exact Hk06|]. apply kept_change; try done. by apply start_resolver_inv. }
  case_test.
  - apply spec_bind, spec_ask. case_test; [|apply spec_bind, spec_modify, spec_ret, Hstart].
    apply spec_bind. eapply spec_mono; [by apply gathering_done_spec|]; cbn beta. intros ? m7 Hg7. apply good_from in Hg7. apply spec_ret.
    destruct (good_ok _ _ Hg7 Hp6) as [Hk7 Hp7]. split; [by eapply kept_trans|done].
  - apply spec_bind, spec_modify, spec_ret, Hstart.
Qed.

(** ** Resolving the servers *)

(** An entry that is not a check is added. *)
Lemma others_with_entry e a : is_check e = false -> others (with_entry e a) = others a + 1.
Proof.
  intros Hc. unfold others. change (a_entries (with_entry e a)) with (a_entries a ++ [e]). rewrite List.filter_app. cbn [List.filter]. rewrite Hc. cbn [negb].
  unfold lenZ. rewrite length_app. cbn. lia.
Qed.

Lemma append_inv e a : inv None a -> is_check e = false -> entry_ok (length (candidate_pairs a)) (kinds_of a) e ->
  resolver_ok (with_entry e a) -> inv None (with_entry e a).
Proof.
  intros Hi Hc Hok Hr. assert (Ht : e_type e <> AGENT_STUN_ENTRY_TYPE_CHECK) by (unfold is_check, is_etype in Hc; by apply bool_decide_eq_false in Hc).
  assert (Hp : e_pair e = None).
  { pose proof (eo_kind _ _ _ Hok) as Hk. unfold kind_ok in Hk. destruct (e_type e); [done|by destruct Hk..|done]. }
  assert (Hpre : kinds_of a `prefix_of` kinds_of (with_entry e a)) by (rewrite kinds_with_entry; by apply prefix_app_r).
  set (es := a_entries a ++ [e]). destruct Hi. split; try done.
  - change (a_entries (with_entry e a)) with es. change (candidate_pairs (with_entry e a)) with (candidate_pairs a).
    apply Forall_app_2; [apply (list.Forall_impl _ _ _ inv_entries); intros e'|constructor; [|done]; revert Hok]; by apply entry_ok_mono.
  - change (a_entries (with_entry e a)) with es. unfold es. rewrite omap_app. cbn. by rewrite Hp, app_nil_r.
  - intros i e' j q He' Hx Hs' Hj Hq. change (a_entries (with_entry e a)) with es in He'.
    apply lookup_app_Some in He' as [He'|[_ He']]; [by apply (inv_alive i e' j q)|].
    apply list_lookup_singleton_Some in He' as [_ <-]. congruence.
  - change (selected_entry (with_entry e a)) with (selected_entry a). destruct (selected_entry a) as [i|]; [|done].
    by eapply prefix_lookup_Some.
Qed.

Definition named_ok (entry : agent_stun_entry) : Prop :=
  forall tid, tid_ok tid -> forall n kinds, entry_ok n kinds (entry <| e_transaction_id := tid |> <| e_transaction_id_expired := false |>).

Lemma append_spec entry m : inv None (agent m) -> phase (agent m) -> named_ok entry -> is_check entry = false ->
  others (agent m) < MAX_RELAY_ENTRIES_COUNT -> (forall e, is_check e = false -> resolver_ok (with_entry e (agent m))) ->
  spec (append_entry entry) m (fun n m' => steps_ok m m' /\ has_entry (agent m') n /\
    others (agent m') = others (agent m) + 1 /\ resolver (agent m') = resolver (agent m)).
Proof.
  intros Hi Hp Hn Hc Ho Hr. unfold append_entry. apply spec_bind, spec_gets. case_test; zify_bool.
  { pose proof (entries_split _ _ Hi). pose proof (inv_count _ _ Hi). unfold MAX_RELAY_ENTRIES_COUNT in *.
    change MAX_STUN_ENTRIES_COUNT with 62 in *. change MAX_CANDIDATE_PAIRS_COUNT with 60 in *. lia. }
  apply spec_bind, spec_ask, spec_bind, spec_modify. apply spec_ret. cbn [asked memory events].
  set (e := entry <| e_transaction_id := _ |> <| e_transaction_id_expired := false |>).
  pose proof (append_inv e (agent m) Hi Hc ltac:(apply Hn, random_tid) ltac:(by apply Hr)) as Hi'. pose proof (others_with_entry e (agent m) Hc) as Ho'.
  change ((agent m) <| a_entries ::= fun es => es ++ [e] |>) with (with_entry e (agent m)).
  split_and!; [split; [by apply kept_change|exact Hp]| |exact Ho'|done].
  exists e. cbn [agent memory]. change (a_entries (with_entry e (agent m))) with (a_entries (agent m) ++ [e]). by apply list_lookup_middle.
Qed.

Lemma fresh_turn_ok username_ password : bytes_ok username_ ->
  turn_ok (mkTurnState (turn_init_map AGENT_TURN_MAP_SIZE)
             (stun_credentials_zero <| username := snprintf_clip STUN_MAX_USERNAME_LEN username_ |>) password).
Proof.
  intros Hu. split; cbn [turn_map_ turn_credentials].
  - split; [by apply init_ok|done].
  - apply Forall_replicate. split; [apply record_zero_received|by apply Forall_replicate].
  - split; [split; cbn; try done|split; [split_and!; cbn; try done|by apply Forall_replicate]].
    + unfold snprintf_clip, lenZ, STUN_MAX_USERNAME_LEN. rewrite length_take. lia.
    + by apply Forall_take.
Qed.

Lemma steps_trans m1 m2 m3 : steps_ok m1 m2 -> steps_ok m2 m3 -> steps_ok m1 m3.
Proof. intros [K1 _] [K2 P2]. split; [by eapply kept_trans|done]. Qed.

Lemma good_after m1 m2 m3 : steps_ok m1 m2 -> good None m2 m3 -> steps_ok m1 m3.
Proof. intros Hs Hg. eapply steps_trans; [exact Hs|]. apply good_ok; [done|apply Hs]. Qed.

(** An entry is added and scheduled. *)
Lemma scheduled_spec entry delay m : inv None (agent m) -> phase (agent m) -> named_ok entry -> is_check entry = false ->
  others (agent m) < MAX_RELAY_ENTRIES_COUNT -> (forall e, is_check e = false -> resolver_ok (with_entry e (agent m))) -> 0 <= delay <= 2 ^ 20 - 6200 ->
  spec (let* n := append_entry entry in agent_arm_transmission n delay) m (fun _ m' => steps_ok m m' /\
    others (agent m') = others (agent m) + 1 /\ resolver (agent m') = resolver (agent m)).
Proof.
  intros Hi Hp Hn Hc Ho Hr Hd. apply spec_bind. eapply spec_mono; [by apply (append_spec entry)|]; cbn beta.
  intros n m1 (Hs1 & [e He] & Ho1 & Hr1). eapply spec_mono; [apply (arm_spec None n delay e); [apply Hs1|done|done]|]; cbn beta.
  intros ? m2 [Hg2 _]. split; [by eapply good_after|]. split; [rewrite (ev_others _ _ (gd_evolves _ _ _ Hg2)); lia|].
  by rewrite (ev_resolver _ _ (gd_evolves _ _ _ Hg2)).
Qed.

(** *** Addresses *)
Lemma resolve_loop_wf ai count result records : Forall record_wf ai -> Forall record_wf records ->
  Forall record_wf (snd (addr_resolve_loop ai count result records)).
Proof.
  intros Ha. revert result records. induction Ha as [|a ai Ha _ IH]; intros result records Hr; cbn [addr_resolve_loop]; [done|].
  destruct (addr a); apply IH; try done; case_test; try done; (apply Forall_app_2; [done|by constructor]).
Qed.

Lemma resolve_wf host port count : Forall record_wf (resolve host port count).
Proof.
  unfold resolve. destruct (getaddrinfo _ _ _) as [ai|] eqn:E; cbn [addr_resolve]; [|constructor].
  pose proof (resolve_loop_wf ai count 0 [] (resolved_addrs _ _ _ _ E) ltac:(constructor)) as Hw.
  destruct (addr_resolve_loop ai count 0 []) as [n records]. case_test; [constructor|done].
Qed.

Lemma preferred_in records r : preferred records = Some r -> r ∈ records.
Proof.
  unfold preferred. destruct (List.find _ records) as [r'|] eqn:E; [intros [= ->]|intros E']; apply list_elem_of_In; eapply find_some; eauto.
Qed.

Lemma server_record_wf server es r : turn_server_record server es = Some r -> record_wf r.
Proof.
  unfold turn_server_record. destruct (ts_host server) as [host|]; [|done]. cbn [obind].
  destruct (preferred _) as [record|] eqn:E; [|done]. cbn [obind]. case_test; [done|]. intros [= <-].
  apply preferred_in in E. pose proof (resolve_wf host (ts_port server) DEFAULT_MAX_RECORDS_COUNT) as Hw. rewrite list.Forall_forall in Hw. by apply Hw.
Qed.

(** *** The sections *)
Lemma server_entry_named record : record_wf record ->
  named_ok (entry_zero <| e_type := AGENT_STUN_ENTRY_TYPE_SERVER |> <| e_state := AGENT_STUN_ENTRY_STATE_PENDING |> <| e_record := record |>).
Proof.
  intros Hr tid Ht n kinds. by split.
Qed.

Lemma relay_entry_named record t : record_wf record -> turn_ok t ->
  named_ok (entry_zero <| e_type := AGENT_STUN_ENTRY_TYPE_RELAY |> <| e_state := AGENT_STUN_ENTRY_STATE_PENDING |> <| e_record := record |> <| e_turn := Some t |>).
Proof.
  intros Hr Hok tid Ht n kinds. split; try done.
  unfold kind_ok. cbn. split_and!; eauto.
Qed.

Lemma add_relay_spec server i record m : inv None (agent m) -> phase (agent m) -> bytes_ok (ts_username server) -> record_wf record ->
  others (agent m) < MAX_RELAY_ENTRIES_COUNT -> (forall e, is_check e = false -> resolver_ok (with_entry e (agent m))) -> 0 <= i < 2 ^ 14 ->
  spec (add_relay_entry server i record) m (fun _ m' => steps_ok m m').
Proof.
  intros Hi Hp Hu Hr Ho Hres Hin. unfold add_relay_entry. cbv zeta.
  eapply spec_mono; [apply scheduled_spec; try done|]; cbn beta.
  - by apply relay_entry_named, fresh_turn_ok.
  - unfold STUN_PACING_TIME. lia.
  - by intros ? m' (Hs & _).
Qed.

(** The resolver moves on. *)
Lemma resolver_spec r m : inv None (agent m) -> phase (agent m) -> resolver_ok (agent m <| resolver := r |>) ->
  spec (modify (fun a => a <| resolver := r |>)) m (fun _ m' => steps_ok m m' /\ agent m' = agent m <| resolver := r |>).
Proof. intros Hi Hp Hr. apply spec_modify. split; [|done]. split; [|exact Hp]. apply kept_change; try done. inv_kept. Qed.

Lemma add_servers_spec records i m : inv None (agent m) -> phase (agent m) -> Forall record_wf records -> conn_created (agent m) = true ->
  resolver (agent m) = None -> 0 <= i -> others (agent m) <= i ->
  spec (add_server_entries records i) m (fun _ m' => steps_ok m m').
Proof.
  intros Hi Hp Hr. revert i m Hi Hp. induction Hr as [|record records Hr _ IH]; intros i m Hi Hp Hc Hres Hi0 Ho; cbn [add_server_entries].
  { apply spec_ret. split; [by apply kept_refl|done]. }
  unfold MAX_SERVER_ENTRIES_COUNT. case_test; zify_bool; [apply spec_ret; split; [by apply kept_refl|done]|].
  assert (Hstep : spec (let* n := append_entry (entry_zero <| e_type := AGENT_STUN_ENTRY_TYPE_SERVER |>
      <| e_state := AGENT_STUN_ENTRY_STATE_PENDING |> <| e_record := record |>) in agent_arm_transmission n (STUN_PACING_TIME * i)) m
      (fun _ m' => steps_ok m m' /\ others (agent m') = others (agent m) + 1 /\ resolver (agent m') = resolver (agent m))).
  { pose proof (server_entry_named record Hr). apply scheduled_spec; try done; [unfold MAX_RELAY_ENTRIES_COUNT; lia| |unfold STUN_PACING_TIME; lia].
    intros e He. unfold resolver_ok. change (resolver (with_entry e (agent m))) with (resolver (agent m)). rewrite Hres.
    change (conn_created (with_entry e (agent m))) with (conn_created (agent m)). rewrite Hc, others_with_entry by done. unfold MAX_RELAY_ENTRIES_COUNT. lia. }
  unfold spec, bind in Hstep. unfold spec, bind. destruct (append_entry _ m) as [[n m1]|]; [|done]. destruct (agent_arm_transmission n _ m1) as [[[] m2]|]; [|done].
  destruct Hstep as (Hs2 & Ho2 & Hr2). change (spec (add_server_entries records (i + 1)) m2 (fun _ m' => steps_ok m m')).
  eapply spec_mono; [apply IH; [apply Hs2|apply Hs2|apply (proj1 Hs2), Hc|congruence|lia|lia]|]; cbn beta. intros ? m3 Hs3. by eapply steps_trans.
Qed.

Lemma resolve_spec m : inv None (agent m) -> phase (agent m) -> spec agent_resolve_servers m (fun _ m' => steps_ok m m').
Proof.
  intros Hi Hp. unfold agent_resolve_servers. apply spec_bind, spec_gets. change (id (agent m)) with (agent m). cbv zeta.
  pose proof (inv_resolver _ _ Hi) as Hr. unfold resolver_ok in Hr.
  assert (Hnext : forall r, resolver_ok (agent m <| resolver := r |>) -> spec (modify (fun a => a <| resolver := r |>)) m (fun _ m' => steps_ok m m')).
  { intros r Hok. eapply spec_mono; [by apply resolver_spec|]; cbn beta. by intros ? m' [Hs _]. }
  pose proof (lenZ_nonneg (List.filter (fun e => negb (is_check e)) (a_entries (agent m)))) as Hpos. fold (others (agent m)) in Hpos.
  destruct (resolver (agent m)) as [[[|server left_] i count|]|]; [| | |apply spec_ret; split; [by apply kept_refl|done]].
  - destruct Hr as (Hc & Hmux & Ho & Hi0 & Hlen & Hb & Hleft & Hcount). apply Hnext. split_and!; [done|change (others (agent m) <= MAX_RELAY_ENTRIES_COUNT); lia|].
    intros Hh. change (others (agent m) = 0). specialize (Hcount Hh). lia.
  - destruct Hr as (Hc & Hmux & Ho & Hi0 & Hlen & Hb & Hleft & Hcount). case_test; zify_bool.
    { apply Hnext. split_and!; [done|change (others (agent m) <= MAX_RELAY_ENTRIES_COUNT); lia|].
      intros Hh. change (others (agent m) = 0). specialize (Hcount Hh). lia. }
    rewrite lenZ_cons in Hlen. apply Forall_cons_1 in Hb as [Hb0 Hb]. assert (Hhost : stun_server_host (a_config (agent m)) = None) by by apply Hleft.
    pose proof (lenZ_nonneg left_). assert (Hok : forall a c, a_config a = a_config (agent m) -> conn_created a = true ->
      resolver a = Some (AtTurn left_ (i + 1) c) -> others a <= c <= MAX_RELAY_ENTRIES_COUNT -> resolver_ok a).
    { intros a c Ea Eca Er Hoc. unfold resolver_ok. rewrite Er, Ea. split_and!; try done; lia. }
    destruct (turn_server_record server (a_entries (agent m))) as [record|] eqn:Erec.
    + apply server_record_wf in Erec. apply spec_bind.
      eapply spec_mono; [apply resolver_spec; try done; apply (Hok _ (count + 1)); try done|]; cbn beta.
      { change (others (agent m) <= count + 1 <= MAX_RELAY_ENTRIES_COUNT). lia. }
      intros ? m1 [Hs1 Ea1]. eapply spec_mono; [apply add_relay_spec; try done; try apply Hs1|]; cbn beta.
      * rewrite Ea1. change (others (agent m) < MAX_RELAY_ENTRIES_COUNT). lia.
      * intros e He. apply (Hok _ (count + 1)); rewrite ?Ea1; try done. rewrite others_with_entry by done.
        change (others (agent m) + 1 <= count + 1 <= MAX_RELAY_ENTRIES_COUNT). lia.
      * lia.
      * intros ? m2 Hs2. by eapply steps_trans.
    + apply Hnext, (Hok _ count); try done.
  - destruct Hr as (Hc & Ho & Hz). apply spec_bind. eapply spec_mono; [apply resolver_spec; try done|]; cbn beta.
    { unfold resolver_ok. change (if conn_created (agent m) then others (agent m) <= MAX_RELAY_ENTRIES_COUNT else others (agent m) = 0). by rewrite Hc. }
    intros ? m1 [Hs1 Ea1]. apply spec_bind. apply (spec_mono _ _ (fun _ m2 => steps_ok m m2)).
    { destruct (stun_server_host (a_config (agent m))) as [host|] eqn:Eh; [|by apply spec_ret].
      eapply spec_mono; [apply add_servers_spec; rewrite ?Ea1; try done; [rewrite <- Ea1; apply Hs1|apply resolve_wf|]|]; cbn beta.
      - change (others (agent m) <= 0). by rewrite Hz.
      - intros ? m2 Hs2. by eapply steps_trans. }
    intros ? m2 Hs2. eapply spec_mono; [apply gathering_done_spec, Hs2|]; cbn beta. intros ? m3 Hg3. by eapply good_after.
Qed.
End Ops.
