(* ===== verification/AgentCorrect.v ===== *)
(** * What the agent does

    Every run is defined and follows the state machine the application sees; the
    pairs are ranked, transmissions paced, and the pair in use is the best one. *)

From Stdlib Require Import Strings.String.
From S2P Require Import Prelude Machine CStdio Addr Ice IceWf StunMsg StunWrite StunWriteCorrect StunSize StunRead StunReceived Turn.
From S2P Require Import TurnTable AgentState AgentOrder Agent AgentStep AgentApi AgentInv AgentTurn AgentSend AgentTimers AgentPairs.
From S2P Require Import AgentCandidates AgentBinding AgentInput AgentBooks AgentAct AgentOps IceSort IceGenerate IceLocal.
From stdpp Require Import list sorting.
#[local] Open Scope Z_scope.
#[local] Open Scope machine_scope.

Section Run.
Context `{Platform, Scan, Resolver, Hashes, !AgentEnvironment, !AgentLaws}.

(** ** Descriptions *)

(** The array of ice.c on the stack. *)
Lemma ice_buffer k : lenZ (take (Z.to_nat Ice.BUFFER_SIZE) (buffer_of k)) = Ice.BUFFER_SIZE.
Proof. destruct (buffer_bytes k) as [Hl _]. unfold lenZ, BUFFER_SIZE, Ice.BUFFER_SIZE in *. rewrite length_take. lia. Qed.

Lemma get_description_spec mem size m : inv None (agent m) -> phase (agent m) -> 0 <= size <= lenZ mem ->
  spec (agent_get_local_description mem size) m (fun _ m' => steps_ok m m').
Proof.
  intros Hi Hp Hs. unfold agent_get_local_description. apply spec_bind, spec_gets, spec_bind, spec_ask, spec_bind. cbn [asked memory events].
  change (id (agent m)) with (agent m). pose proof (ice_buffer (asked m)) as Htmp. set (tmp := take _ _) in *. clearbody tmp. assert (Hg0 : good None m (mkMachine (agent m) (S (asked m)) (events m))) by by apply good_asked.
  assert (Hdef : exists mem' result, ice_generate_sdp (a_local (agent m)) tmp mem 0 size = Some (mem', result)).
  { destruct (bool_decide (ice_ufrag (a_local (agent m)) = []) || bool_decide (ice_pwd (a_local (agent m)) = [])) eqn:E.
    - unfold ice_generate_sdp. rewrite E. by eauto.
    - apply orb_false_iff in E as [E1 E2]. apply bool_decide_eq_false in E1, E2.
      destruct (generate_sdp_spec (a_local (agent m)) tmp mem 0 size) as (mem' & b & E & _); try done; try lia; [|by eauto].
      apply (inv_local _ _ Hi). }
  destruct Hdef as (mem' & result & E). eapply spec_defined; [exact E|]. cbn beta iota.
  case_test; [apply spec_ret; by apply good_ok|]. apply spec_bind.
  apply (spec_mono _ _ (fun _ m1 => good None m m1)); [|intros ? m1 Hg1; apply spec_ret; by apply good_ok].
  case_test; [|by apply spec_ret]. eapply spec_mono; [by apply (mode_spec None (fun _ => AGENT_MODE_CONTROLLING))|]; cbn beta. intros ? m1. apply good_from.
Qed.

Lemma each_good {T} (l : list T) (f : T -> A unit) m : inv None (agent m) ->
  (forall y m1, y ∈ l -> good None m m1 -> spec (f y) m1 (fun _ m' => good None m1 m')) ->
  spec (each l f) m (fun _ m' => good None m m').
Proof.
  intros Hi Hf. apply (spec_each (fun m' => good None m m')); [|by apply good_refl]. intros y m1 Hy Hg1.
  eapply spec_mono; [by apply Hf|]; cbn beta. intros ? m2 Hg2. by eapply good_trans.
Qed.

Lemma set_description_spec sdp m : inv None (agent m) -> text_ok sdp ->
  spec (agent_set_remote_description sdp) m (fun _ m' => good None m m').
Proof.
  intros Hi Hs. unfold agent_set_remote_description. destruct (parse_sdp_wf _ sdp (ice_buffer (asked m)) Hs) as (d & result & E & Hd).
  apply spec_bind, spec_ask. set (m0 := mkMachine _ _ _). assert (Hg0 : good None m m0) by by apply good_asked.
  apply (spec_mono _ _ (fun _ m' => good None m0 m')); [|intros ? m' Hg'; by eapply good_trans].
  assert (Hi0 : inv None (agent m0)) by exact Hi. clearbody m0. clear Hi.
  apply spec_bind. eapply spec_defined; [exact E|]. cbn beta iota. case_test; [by apply spec_ret, good_refl|].
  apply spec_bind, spec_gets. case_test; [by apply spec_ret, good_refl|].
  apply spec_bind. eapply spec_mono; [by apply (remote_spec None d)|]; cbn beta. intros ? m1 [Hg1 _].
  apply spec_bind. eapply spec_mono; [apply pac_timer_spec, Hg1|]; cbn beta. intros ? m2 Hg2.
  apply spec_bind. eapply spec_mono; [apply (mode_spec None), Hg2|]; cbn beta. intros ? m3 Hg3.
  assert (Hg03 : good None m0 m3) by (eapply good_trans; [exact Hg1|by eapply good_trans]).
  apply spec_bind, spec_gets, spec_bind. eapply spec_mono; [apply each_good; [apply Hg3|]|]; cbn beta.
  { intros k m4 Hk Hg4. apply elem_of_seq in Hk. destruct (lookup_lt_is_Some_2 (candidate_pairs (agent m3)) k ltac:(lia)) as [p Hp].
    destruct (good_pair _ _ _ _ _ Hg4 Hp) as (p4 & Hp4 & _). apply spec_bind.
    eapply spec_mono; [apply (unfreeze_spec None k p4); [apply Hg4|done]|]; cbn beta. intros ? m5 Hg5. by apply spec_ret. }
  intros ? m4 Hg4. apply spec_bind. eapply spec_mono; [apply each_good; [apply Hg4|]|]; cbn beta.
  { intros r m5 Hr Hg5. apply elem_of_seq in Hr. apply spec_bind.
    eapply spec_mono; [apply (add_for_remote_spec None r); [apply Hg5|]|]; cbn beta.
    - destruct Hd as (Hok & _). pose proof (ok_count _ Hok) as Hn. unfold index_ok, candidates_count, lenZ in *. lia.
    - intros ? m6 Hg6. by apply spec_ret. }
  intros ? m5 Hg5. apply spec_ret. eapply good_trans; [exact Hg03|]. by eapply good_trans.
Qed.

Lemma add_candidate_spec sdp uninit m : inv None (agent m) -> text_ok sdp ->
  spec (agent_add_remote_candidate sdp uninit) m (fun _ m' => good None m m').
Proof.
  intros Hi [Hs _]. unfold agent_add_remote_candidate. apply spec_bind, spec_gets. change (id (agent m)) with (agent m).
  case_test; [by apply spec_ret, good_refl|].
  destruct (parse_candidate_cases sdp uninit Hs) as (c & result & Ep & Hcases). apply spec_bind. eapply spec_defined; [exact Ep|].
  cbn beta iota. case_test; [by apply spec_ret, good_refl|]. zify_bool.
  assert (result = 0) as -> by (destruct Hcases as [[-> _]|[-> | ->]]; unfold ICE_PARSE_ERROR, ICE_PARSE_IGNORED in *; lia).
  apply parse_candidate_wf in Ep; [|done]. destruct (ice_add_candidate c _) as [[c' d'] result] eqn:Ea.
  case_test; [by apply spec_ret, good_refl|]. apply negb_false_iff, Z.eqb_eq in E1 as ->.
  apply add_candidate_wf in Ea as (Hd & _ & _ & Hin); [|done|apply (inv_remote _ _ Hi)].
  apply spec_bind. eapply spec_mono; [by apply (remote_spec None d')|]; cbn beta. intros ? m1 [Hg1 _].
  apply spec_bind. eapply spec_mono; [by apply (add_for_remote_spec None); [apply Hg1|]|]; cbn beta. intros ? m2 Hg2.
  apply spec_ret. by eapply good_trans.
Qed.

Lemma set_attributes_spec ufrag pwd m : inv None (agent m) ->
  spec (agent_set_local_ice_attributes ufrag pwd) m (fun _ m' => good None m m').
Proof.
  intros Hi. unfold agent_set_local_ice_attributes. apply spec_bind, spec_gets. case_test; [by apply spec_ret, good_refl|].
  case_test; [by apply spec_ret, good_refl|]. repeat match goal with Hor : _ || _ = false |- _ => apply orb_false_iff in Hor as [? ?] end.
  repeat match goal with Hn : negb _ = false |- _ => apply negb_false_iff in Hn end.
  assert (text_ok ufrag /\ text_ok pwd) as [Hu Hp] by (split; by apply valid_text).
  apply clipped_wf in Hu as [Hu Hub]. apply clipped_wf in Hp as [Hp _].
  apply spec_bind, spec_modify, spec_ret. pose proof (inv_local _ _ Hi) as ([Hlu Hlp Hn Hc] & Hb & Hcs).
  apply good_change; [inv_kept|split; try done; eauto|done].
Qed.

(** ** Calls *)

(** What the caller passes.  A TURN server is added when STUN and TURN servers
    are not used together. *)
Definition op_ok (c : agent_config) (op : agent_op) : Prop :=
  match op with
  | GetLocalDescription mem size => 0 <= size <= lenZ mem
  | SetRemoteDescription sdp | AddRemoteCandidate sdp _ => text_ok sdp
  | AddTurnServer server => bytes_ok (ts_username server) /\ (stun_server_host c = None \/ mux_mode c = true)
  | ConnRecv buf size src => datagram buf size /\ record_wf src
  | _ => True
  end.

(** [n] TURN servers can still be added. *)
Definition room (n : Z) (c : agent_config) : Prop := lenZ (turn_servers c) + n < 2 ^ 14.

(** The part of the configuration that is fixed. *)
Definition same_servers (c c' : agent_config) : Prop := stun_server_host c' = stun_server_host c /\ mux_mode c' = mux_mode c.

Record run_ok (n : Z) (m m' : amachine) : Prop := {
  ro_inv : inv None (agent m');
  ro_phase : phase (agent m');
  ro_reports : reported m m';
  ro_room : room n (a_config (agent m'));
  ro_servers : same_servers (a_config (agent m)) (a_config (agent m'))
}.

Lemma steps_run n m m' : steps_ok m m' -> room n (a_config (agent m)) -> run_ok n m m'.
Proof. intros [[Hi Hr Hc _] Hp] Hroom. by split; rewrite ?Hc. Qed.

Lemma add_server_ok n server m : inv None (agent m) -> phase (agent m) -> op_ok (a_config (agent m)) (AddTurnServer server) ->
  0 <= n -> room (1 + n) (a_config (agent m)) ->
  spec (agent_add_turn_server server) m (fun _ m' => run_ok n m m').
Proof.
  intros Hi Hp [Hb Hex] Hn Hroom. unfold agent_add_turn_server. apply spec_bind, spec_gets. unfold room in *. case_test.
  { apply spec_ret. apply steps_run; [split; [by apply kept_refl|done]|unfold room; lia]. }
  change (conn_created (agent m) = false) in E. apply spec_bind, spec_modify, spec_ret. pose proof (inv_config _ _ Hi) as (Hx & Hl & Hbs).
  assert (Hlen : lenZ (turn_servers (a_config (agent m)) ++ [server]) = lenZ (turn_servers (a_config (agent m))) + 1)
    by (rewrite lenZ_app; done).
  split; cbn [agent memory]; try done; [|by apply reported_same|unfold room; cbn; lia]. pose proof (inv_resolver _ _ Hi) as Hr. inv_kept.
  split; [destruct Hex; [by left|by right; left]|]. cbn. split; [lia|]. apply Forall_app_2; [done|by constructor].
Qed.

Lemma op_ok_servers c c' op : same_servers c c' -> op_ok c op -> op_ok c' op.
Proof. intros [Eh Em]. destruct op; try done. intros [Hb Hx]. cbn. by rewrite Eh, Em. Qed.

Lemma ret_tt {X} (x : A X) m (Q : amachine -> Prop) : spec x m (fun _ m' => Q m') -> spec (x ;; ret tt) m (fun _ m' => Q m').
Proof. intros Hx. apply spec_bind. eapply spec_mono; [exact Hx|]; cbn beta. intros ? m' HQ. by apply spec_ret. Qed.

Lemma from_conn_spec x m : inv None (agent m) -> phase (agent m) ->
  (conn_created (agent m) = true -> alive m -> spec x m (fun _ m' => good None m m')) ->
  spec (from_conn x) m (fun _ m' => steps_ok m m').
Proof.
  intros Hi Hp Hx. unfold from_conn. apply spec_bind, spec_gets. case_test; [|apply spec_ret; by split; [apply kept_refl|]].
  apply ret_tt. pose proof Hp as Hr. unfold phase in Hr. rewrite E in Hr.
  eapply spec_mono; [by apply Hx|]; cbn beta. intros ? m' Hg. by apply good_ok.
Qed.

(** Every call but the addition of a server. *)
Lemma other_step_spec op m : inv None (agent m) -> phase (agent m) -> op_ok (a_config (agent m)) op ->
  (forall server, op <> AddTurnServer server) ->
  spec (agent_step op) m (fun _ m' => steps_ok m m').
Proof.
  intros Hi Hp Hop Hother.
  assert (Hgood : forall X (x : A X), spec x m (fun _ m' => good None m m') -> spec x m (fun _ m' => steps_ok m m')).
  { intros X x Hx. eapply spec_mono; [exact Hx|]; cbn beta. intros ? m' Hg. by apply good_ok. }
  destruct op; cbn [agent_step op_ok] in *.
  - by apply ret_tt, gather_spec.
  - by apply resolve_spec.
  - by apply ret_tt, get_description_spec.
  - by apply ret_tt, Hgood, set_description_spec.
  - by apply ret_tt, Hgood, add_candidate_spec.
  - by apply ret_tt, Hgood, set_attributes_spec.
  - by destruct (Hother server).
  - apply ret_tt, Hgood. unfold agent_set_remote_gathering_done. apply spec_bind, spec_modify, spec_ret.
    pose proof (inv_remote _ _ Hi). apply good_change; [inv_kept; by apply finished_wf|split; try done; eauto|done].
  - apply ret_tt, Hgood. eapply spec_mono; [by apply agent_send_spec|]; cbn beta. by intros ? m' [Hg _].
  - destruct Hop as [Hd Hs]. apply from_conn_spec; try done. intros _ _. by apply conn_recv_spec.
  - apply from_conn_spec; try done. intros Hc _. by apply agent_bookkeeping_spec.
  - apply from_conn_spec; try done. intros _ Ha. by apply conn_fail_spec.
Qed.

Definition adds_server (op : agent_op) : bool := match op with AddTurnServer _ => true | _ => false end.

Lemma agent_step_spec n op m : inv None (agent m) -> phase (agent m) -> op_ok (a_config (agent m)) op -> 0 <= n -> room (1 + n) (a_config (agent m)) ->
  spec (agent_step op) m (fun _ m' => run_ok n m m').
Proof.
  intros Hi Hp Hop Hn Hroom. assert (Hroom' : room n (a_config (agent m))) by (unfold room in *; lia).
  destruct (adds_server op) eqn:E; [destruct op; try done; by apply ret_tt, add_server_ok|].
  eapply spec_mono; [apply other_step_spec; try done; by intros server ->|]; cbn beta. intros ? m' Hs. by apply steps_run.
Qed.

(** An agent that has a connection takes no more servers. *)
Lemma connected_step_spec op m : inv None (agent m) -> alive m -> (adds_server op = false -> op_ok (a_config (agent m)) op) ->
  spec (agent_step op) m (fun _ m' => steps_ok m m').
Proof.
  intros Hi [Hc Hr] Hop. assert (Hp : phase (agent m)) by (unfold phase; by rewrite Hc).
  destruct (adds_server op) eqn:E; [|apply other_step_spec; try done; [by apply Hop|by intros server ->]]. destruct op; try done. cbn [agent_step].
  apply ret_tt. unfold agent_add_turn_server. apply spec_bind, spec_gets. change (id (agent m)) with (agent m). rewrite Hc.
  apply spec_ret. split; [by apply kept_refl|done].
Qed.

Lemma same_servers_trans c1 c2 c3 : same_servers c1 c2 -> same_servers c2 c3 -> same_servers c1 c3.
Proof. intros [E1 E2] [E3 E4]. split; congruence. Qed.

Lemma agent_steps_spec ops m : inv None (agent m) -> phase (agent m) -> Forall (op_ok (a_config (agent m))) ops ->
  room (lenZ ops) (a_config (agent m)) ->
  spec (agent_steps ops) m (fun _ m' => run_ok 0 m m').
Proof.
  intros Hi Hp Hops. revert m Hi Hp Hops. induction ops as [|op ops IH]; intros m Hi Hp Hops Hroom; cbn [agent_steps each].
  { apply spec_ret. split; try done. by apply reported_same. }
  rewrite lenZ_cons in Hroom. apply Forall_cons_1 in Hops as [Hop Hops]. pose proof (lenZ_nonneg ops).
  apply spec_bind. eapply spec_mono; [by apply (agent_step_spec (lenZ ops))|]; cbn beta. intros ? m1 [Hi1 Hp1 Hr1 Hm1 Hs1].
  eapply spec_mono; [apply IH; try done|]; cbn beta.
  - apply (list.Forall_impl _ _ _ Hops). intros op'. by apply op_ok_servers.
  - intros ? m2 [Hi2 Hp2 Hr2 Hm2 Hs2]. split; try done; [by eapply reported_trans|by eapply same_servers_trans].
Qed.

(** ** A new agent *)
Lemma agent_create_inv config draws tiebreaker : config_ok config -> 26 <= lenZ draws -> 0 <= tiebreaker < 2 ^ 64 ->
  inv None (agent_create config draws tiebreaker) /\ phase (agent_create config draws tiebreaker).
Proof.
  intros Hc Hd Ht. split; [|by left]. split; try done; cbn.
  - by apply created_description_wf.
  - constructor.
Qed.
End Run.

Section Correct.
Context `{Platform, Scan, Resolver, Hashes, !AgentEnvironment}.

(** ** Runs *)

(** What a session starts from, and the calls it makes: STUN and TURN servers
    are not configured together ([config_ok], [op_ok]) - agent.c does not check it,
    and with both the array of entries can overflow in [agent_resolve_servers] -,
    there are fewer than 2^14 TURN servers, texts are C strings, buffers have the size
    the caller says. *)
Definition session_ok (config : agent_config) (draws : list Z) (tiebreaker : Z) (ops : list agent_op) : Prop :=
  config_ok config /\ 26 <= lenZ draws /\ 0 <= tiebreaker < 2 ^ 64 /\ Forall (op_ok config) ops /\ room (lenZ ops) config.

Definition session (config : agent_config) (draws : list Z) (tiebreaker : Z) (ops : list agent_op) : option (unit * amachine) :=
  agent_steps ops (agent_start (agent_create config draws tiebreaker)).

Lemma session_run `{!AgentLaws} config draws tiebreaker ops : session_ok config draws tiebreaker ops ->
  exists m, session config draws tiebreaker ops = Some (tt, m) /\
    run_ok 0 (agent_start (agent_create config draws tiebreaker)) m.
Proof.
  intros (Hc & Hd & Ht & Hops & Hroom). destruct (agent_create_inv config draws tiebreaker Hc Hd Ht) as [Hi Hp].
  pose proof (agent_steps_spec ops (agent_start (agent_create config draws tiebreaker)) Hi Hp Hops Hroom) as Hs. unfold spec in Hs. unfold session.
  destruct (agent_steps ops _) as [[[] m]|]; [|done]. by exists m.
Qed.

(** C3: in a session that does not use STUN and TURN servers together
    ([session_ok]; with both, the array of entries can overflow), whatever datagrams
    arrive and whatever the application calls, in any order, no call of the agent leaves the language - no access outside the
    arrays, no NULL pointer dereferenced, no message that overflows its buffer,
    every loop and recursion ends -, and afterwards there are at most 62 entries,
    60 pairs and 20 candidates on either side, every pair points to candidates
    and every check to a pair of its own, and COMPLETED means a nominated pair. *)
Theorem agent_run_safe `{!AgentLaws} config draws tiebreaker ops : session_ok config draws tiebreaker ops ->
  exists m, session config draws tiebreaker ops = Some (tt, m) /\ inv None (agent m) /\
    lenZ (a_entries (agent m)) <= MAX_STUN_ENTRIES_COUNT /\ lenZ (candidate_pairs (agent m)) <= MAX_CANDIDATE_PAIRS_COUNT /\
    candidates_count (a_local (agent m)) <= ICE_MAX_CANDIDATES_COUNT /\ candidates_count (a_remote (agent m)) <= ICE_MAX_CANDIDATES_COUNT.
Proof.
  intros Hs. destruct (session_run config draws tiebreaker ops Hs) as (m & E & Hr). pose proof (ro_inv _ _ _ Hr) as Hi. exists m.
  pose proof (entries_bound _ _ Hi). pose proof (inv_count _ _ Hi). pose proof (local_count _ _ Hi). pose proof (remote_count _ _ Hi).
  change MAX_STUN_ENTRIES_COUNT with 62. unfold candidates_count, lenZ in *. split_and!; done.
Qed.

(** C13: in such a session ([session_ok]: STUN and TURN servers are not configured
    together) the application is told of every change of the state, in order and with
    the new state, and of nothing else; each change is one of the machine
    DISCONNECTED - GATHERING - CONNECTING - CONNECTED - COMPLETED with FAILED,
    and before there is a connection the state is one of the first two, after
    that one of the others. *)
Theorem agent_run_states `{!AgentLaws} config draws tiebreaker ops : session_ok config draws tiebreaker ops ->
  exists m, session config draws tiebreaker ops = Some (tt, m) /\
    reports JUICE_STATE_DISCONNECTED (events m) (a_state (agent m)) /\ phase (agent m).
Proof.
  intros Hs. destruct (session_run config draws tiebreaker ops Hs) as (m & E & Hr). exists m. split; [done|]. split; [|apply (ro_phase _ _ _ Hr)].
  destruct (ro_reports _ _ _ Hr) as (es & Ee & Hrep). cbn in Ee. rewrite app_nil_r in Ee. by rewrite Ee.
Qed.

(** C36: after any run of such a session ([session_ok]: STUN and TURN servers
    are not configured together) the ordered pairs are the pairs, each once, sorted by
    decreasing priority, those of equal priority in the order they were added:
    the insertion sort that is run at every addition and change of the mode
    agrees with the merge sort of a library. *)
Theorem agent_pairs_sorted `{!AgentLaws} config draws tiebreaker ops : session_ok config draws tiebreaker ops ->
  exists m, session config draws tiebreaker ops = Some (tt, m) /\
    ordered_pairs (agent m) = merge_sort (before (priority_in (candidate_pairs (agent m)))) (seq 0 (length (candidate_pairs (agent m)))).
Proof.
  intros Hs. destruct (session_run config draws tiebreaker ops Hs) as (m & E & Hr). exists m. split; [done|].
  rewrite (inv_order _ _ (ro_inv _ _ _ Hr)). apply order_reference.
Qed.

(** ** Pacing *)
Lemma due_insert es (i j : nat) e : due (<[i := e]> es) i j = due es i j.
Proof.
  unfold due. destruct (decide (j = i)) as [->|Hne].
  - rewrite Nat.eqb_refl. by repeat case_match.
  - by rewrite list_lookup_insert_ne.
Qed.

(** C38: arming the transmission of an entry ends, whatever the other entries are
    due for, and sets it to a time not before the delay and at most 100 ms per
    entry after it, 50 ms or more from the time of every other entry that is
    scheduled; the other entries stay as they are.  An entry kept alive stays so,
    the others are pending with 500 ms and 6 retransmissions for a check, 5 for
    a server. *)
Theorem agent_arm_transmission_paced i delay e m latest :
  a_entries (agent m) !! i = Some e ->
  (forall j d, due (a_entries (agent m)) i j = Some d -> 0 <= d <= latest) -> latest < 2 ^ 31 ->
  let t := now_ms (asked m) + delay in let n := lenZ (a_entries (agent m)) in
  0 <= t -> t + 100 * n < 2 ^ 31 ->
  exists e' m', agent_arm_transmission i delay m = Some (tt, m') /\
    a_entries (agent m') = <[i := e']> (a_entries (agent m)) /\ events m' = events m /\
    t <= e_next_transmission e' <= t + 100 * n /\ free_at (a_entries (agent m)) i (e_next_transmission e') /\
    if is_estate AGENT_STUN_ENTRY_STATE_SUCCEEDED_KEEPALIVE e then e_state e' = AGENT_STUN_ENTRY_STATE_SUCCEEDED_KEEPALIVE
    else e_state e' = AGENT_STUN_ENTRY_STATE_PENDING /\ e_retransmission_timeout e' = 500 /\
         e_retransmissions e' = (if is_etype AGENT_STUN_ENTRY_TYPE_CHECK e then 6 else 5).
Proof.
  intros He Hdue Hlatest t n Ht Hmax. pose proof (lookup_lt_Some _ _ _ He) as Hlt.
  set (es := a_entries (agent m)) in *. set (alive_ := is_estate AGENT_STUN_ENTRY_STATE_SUCCEEDED_KEEPALIVE e).
  assert (Hlk : forall y, <[i := y]> es !! i = Some y) by (intros y; by apply list_lookup_insert_eq).
  assert (Hset : forall (f : agent_stun_entry -> agent_stun_entry) m1 y (Q : unit -> amachine -> Prop), a_entries (agent m1) = <[i := y]> es ->
    (forall m2, a_entries (agent m2) = <[i := f y]> es -> events m2 = events m1 -> asked m2 = asked m1 -> Q tt m2) -> spec (set_entry i f) m1 Q).
  { intros f m1 y Q Ee HQ. apply (spec_set_entry i f y); [by rewrite Ee|]. apply HQ; try done. cbn.
    change (a_entries (put_entry i (f y) (agent m1))) with (<[i := f y]> (a_entries (agent m1))). by rewrite Ee, list_insert_insert_eq. }
  assert (Hget : forall {X} (f : agent_stun_entry -> A X) m1 y (Q : X -> amachine -> Prop), a_entries (agent m1) = <[i := y]> es ->
    spec (f y) m1 Q -> spec (let* e := get_entry i in f e) m1 Q).
  { intros X f m1 y Q Ee HQ. apply spec_bind. apply (spec_get_entry i y); [by rewrite Ee|done]. }
  assert (Hspec : spec (agent_arm_transmission i delay) m (fun _ m' => exists e',
    a_entries (agent m') = <[i := e']> es /\ events m' = events m /\ t <= e_next_transmission e' <= t + 100 * n /\ free_at es i (e_next_transmission e') /\
    if alive_ then e_state e' = AGENT_STUN_ENTRY_STATE_SUCCEEDED_KEEPALIVE
    else e_state e' = AGENT_STUN_ENTRY_STATE_PENDING /\ e_retransmission_timeout e' = 500 /\
         e_retransmissions e' = (if is_etype AGENT_STUN_ENTRY_TYPE_CHECK e then 6 else 5))).
  2: { unfold spec in Hspec. destruct (agent_arm_transmission i delay m) as [[[] m']|]; [|done]. destruct Hspec as (e' & ? & ? & ? & ? & ?). by exists e', m'. }
  unfold agent_arm_transmission. apply (Hget _ _ m e); [by rewrite list_insert_id|]. apply spec_bind. fold alive_.
  apply (spec_mono _ _ (fun _ m1 => asked m1 = asked m /\ events m1 = events m /\ exists e1, a_entries (agent m1) = <[i := e1]> es /\
    e_type e1 = e_type e /\ e_state e1 = if alive_ then AGENT_STUN_ENTRY_STATE_SUCCEEDED_KEEPALIVE else AGENT_STUN_ENTRY_STATE_PENDING)).
  { unfold alive_. destruct (is_estate AGENT_STUN_ENTRY_STATE_SUCCEEDED_KEEPALIVE e) eqn:Ek; cbn [negb].
    - apply spec_ret. split_and!; [done|done|]. exists e. split_and!; [by rewrite list_insert_id|done|by apply bool_decide_eq_true in Ek].
    - apply (Hset _ m e); [by rewrite list_insert_id|]. intros m2 E2 Ev2 Ea2. split_and!; [done|done|]. by eexists. }
  intros ? m1 (Ea1 & Ev1 & e1 & Ee1 & Et1 & Es1). apply spec_bind, spec_ask. cbn [asked memory events].
  eapply Hget; [exact Ee1|]. cbn beta. apply spec_bind.
  apply (spec_mono _ _ (fun _ m2 => events m2 = events m /\ exists e2, a_entries (agent m2) = <[i := e2]> es /\
    if alive_ then e_state e2 = AGENT_STUN_ENTRY_STATE_SUCCEEDED_KEEPALIVE
    else e_state e2 = AGENT_STUN_ENTRY_STATE_PENDING /\ e_retransmission_timeout e2 = 500 /\
         e_retransmissions e2 = (if is_etype AGENT_STUN_ENTRY_TYPE_CHECK e then 6 else 5))).
  { unfold is_estate. rewrite Es1. destruct alive_.
    - rewrite bool_decide_false by done. apply spec_ret. split; [done|]. by exists e1.
    - rewrite bool_decide_true by done. eapply Hset; [exact Ee1|]. cbn beta. intros m2 E2 Ev2 _. split; [by rewrite Ev2|].
      eexists. split; [exact E2|]. split_and!; [exact Es1|done|]. cbn. unfold is_etype. by rewrite Et1. }
  intros ? m2 (Ev2 & e2 & Ee2 & Hst). apply spec_bind, spec_gets. cbv zeta. apply spec_bind. rewrite Ee2, Ea1. fold t.
  destruct (find_slot_total (<[i := e2]> es) i t latest) as (t' & Eslot & Hr & Hf); try done.
  { intros j d. rewrite due_insert. apply Hdue. }
  { unfold lenZ. by rewrite length_insert. }
  eapply spec_defined; [exact Eslot|]. eapply Hset; [exact Ee2|]. cbn beta. intros m3 E3 Ev3 _. unfold lenZ in Hr. rewrite length_insert in Hr.
  eexists. split; [exact E3|]. split; [by rewrite Ev3|]. cbn. split; [exact Hr|]. split; [|by destruct alive_].
  intros j d Hd. apply (Hf j d). by rewrite due_insert.
Qed.

(** ** The choice of a pair *)

(** The first of the ordered pairs that satisfies [f]. *)
Definition first_of (f : agent_pair -> bool) (a : juice_agent) (order : list nat) : option nat :=
  List.find (fun k => from_option f false (candidate_pairs a !! k)) order.

Definition succeeded (p : agent_pair) : bool := is_pstate ICE_CANDIDATE_PAIR_STATE_SUCCEEDED p.

(** The first nominated pair, or else the first that has succeeded. *)
Definition best (a : juice_agent) (order : list nat) : option nat :=
  match first_of p_nominated a order with
  | Some k => Some k
  | None => first_of succeeded a order
  end.

Lemma frozen_succeeded p q : frozen p q -> succeeded q = succeeded p.
Proof. intros [->|[Hs ->]]; [done|]. unfold succeeded, is_pstate. by rewrite Hs. Qed.

Lemma freezes_lookup f m m' k : (forall p q, frozen p q -> f q = f p) -> freezes m m' ->
  from_option f false (candidate_pairs (agent m') !! k) = from_option f false (candidate_pairs (agent m) !! k).
Proof.
  intros Hf [Hg Hfr]. destruct (candidate_pairs (agent m') !! k) as [q|] eqn:Eq.
  - destruct (Hfr k q Eq) as (p & -> & Hpq). by apply Hf.
  - destruct (candidate_pairs (agent m) !! k) as [p|] eqn:Ep; [|done]. destruct (good_pair _ _ _ _ _ Hg Ep) as (q & Hq & _). congruence.
Qed.

Lemma first_of_freezes f m m' order : (forall p q, frozen p q -> f q = f p) -> freezes m m' ->
  first_of f (agent m') order = first_of f (agent m) order.
Proof.
  intros Hf Hm. unfold first_of. induction order as [|k order IH]; cbn [List.find]; [done|].
  by rewrite (freezes_lookup f m m' k Hf Hm), IH.
Qed.

(** What a loop over [order] makes of a choice. *)
Definition settled_choice (a : juice_agent) (order : list nat) (c c' : choice) : Prop :=
  nominated_pair c' = match nominated_pair c with Some k => Some k | None => first_of p_nominated a order end /\
  chosen_pair c' = match nominated_pair c with
                   | Some _ => chosen_pair c
                   | None => match first_of p_nominated a order with
                             | Some k => Some k
                             | None => match chosen_pair c with Some k => Some k | None => first_of succeeded a order end
                             end
                   end.

Lemma consider_settles `{!AgentLaws} k c m : inv None (agent m) -> is_Some (candidate_pairs (agent m) !! k) -> chosen_ok m c ->
  spec (consider k c) m (fun c' m' => freezes m m' /\ chosen_ok m' c' /\ settled_choice (agent m) [k] c c').
Proof.
  intros Hi Hk Hc. pose proof (consider_spec k c m Hi Hk Hc) as Hs. destruct Hk as [p Hp]. unfold spec in *.
  destruct (consider k c m) as [[c' m']|] eqn:E; [|done]. destruct Hs as (Hf & Hc' & _). split_and!; try done.
  unfold consider, get_pair, bind, gets, defined in E. rewrite Hp in E. unfold settled_choice, first_of. cbn [List.find]. rewrite Hp. cbn [from_option].
  pose proof (ch_nominated _ _ Hc) as Hn. change (id (memory m)) with (agent m) in E.
  unfold succeeded, is_pstate. destruct (p_nominated p) eqn:Hpn.
  { destruct (nominated_pair c) as [j|] eqn:Ej; injection E as <- _; [done|]. by split. }
  destruct (p_state p) eqn:Hst; try (injection E as <- _).
  - rewrite bool_decide_false by done. unfold set_pair_state, set_pair, get_pair, bind, gets, defined, modify, ret in E.
    destruct (controlling (agent m) && _); cbn in E; rewrite ?Hp in E; injection E as <- _; cbn; by repeat case_match.
  - rewrite bool_decide_true by done. destruct (nominated_pair c) as [j|] eqn:Ej.
    + destruct (Hn j eq_refl) as [Ec _]. rewrite Ec. by rewrite Ej.
    + destruct (chosen_pair c) eqn:Ec; cbn; by rewrite ?Ej, ?Ec.
  - rewrite bool_decide_false by done. by repeat case_match.
  - rewrite bool_decide_false by done. by repeat case_match.
Qed.

Lemma settled_cons a k order c c1 c2 : settled_choice a [k] c c1 -> settled_choice a order c1 c2 -> settled_choice a (k :: order) c c2.
Proof.
  unfold settled_choice, first_of. cbn [List.find]. intros [En1 Ec1] [En2 Ec2]. rewrite En2, Ec2, En1, Ec1.
  destruct (nominated_pair c); [done|]. destruct (from_option p_nominated false _); [done|].
  destruct (List.find (fun k => from_option p_nominated false _) order); [done|]. destruct (chosen_pair c); [done|].
  by destruct (from_option succeeded false _).
Qed.

Lemma choose_settles `{!AgentLaws} order c m : inv None (agent m) -> Forall (fun k => is_Some (candidate_pairs (agent m) !! k)) order -> chosen_ok m c ->
  spec (choose order c) m (fun c' m' => freezes m m' /\ settled_choice (agent m) order c c').
Proof.
  revert c m. induction order as [|k order IH]; intros c m Hi Ho Hc; cbn [choose].
  { apply spec_ret. split; [by apply freezes_refl|]. unfold settled_choice, first_of. cbn. by repeat case_match. }
  apply Forall_cons_1 in Ho as [Hk Ho]. apply spec_bind. eapply spec_mono; [by apply (consider_settles k c)|]; cbn beta.
  intros c1 m1 (Hf1 & Hc1 & Hs1). eapply spec_mono; [apply (IH c1 m1); [apply Hf1| |done]|]; cbn beta.
  - apply (list.Forall_impl _ _ _ Ho). intros j [p Hp]. destruct (good_pair _ _ _ _ _ (proj1 Hf1) Hp) as (p' & Hp' & _). by exists p'.
  - intros c2 m2 [Hf2 Hs2]. split; [by eapply freezes_trans|]. eapply settled_cons; [exact Hs1|].
    unfold settled_choice in *. by rewrite !(first_of_freezes _ _ _ _ frozen_nominated Hf1), !(first_of_freezes _ _ _ _ frozen_succeeded Hf1) in Hs2.
Qed.

(** C14: bookkeeping chooses the nominated pair of the highest priority, and when
    no pair is nominated the one of the highest priority that has succeeded;
    among equals the one added first.  Besides, it only freezes pending pairs. *)
Theorem agent_chooses_best `{!AgentLaws} m : inv None (agent m) ->
  exists c m', choose_pair m = Some (c, m') /\
    nominated_pair c = first_of p_nominated (agent m) (ordered_pairs (agent m)) /\
    chosen_pair c = best (agent m) (ordered_pairs (agent m)) /\ freezes m m'.
Proof.
  intros Hi. pose proof (choose_pair_spec m Hi) as Hs. unfold spec in Hs. destruct (choose_pair m) as [[c m']|] eqn:E; [|done].
  destruct Hs as [Hf _]. exists c, m'. split; [done|]. destruct (order_range _ _ Hi) as [Hrange _].
  pose proof (choose_settles (ordered_pairs (agent m)) (mkChoice None None 0) m Hi Hrange ltac:(by split)) as Hs. unfold spec in Hs.
  unfold choose_pair, bind, gets in E. destruct (choose _ _ m) as [[c1 m1]|]; [|done]. destruct Hs as [_ [En Ec]]. cbn in En, Ec.
  assert (nominated_pair c = nominated_pair c1 /\ chosen_pair c = chosen_pair c1) as [-> ->].
  { destruct (nominated_pair c1) as [k|] eqn:Ek; [|by injection E as <- _]. destruct (controlling _); [|by injection E as <- _].
    destruct (each _ _ m1) as [[? m2]|]; [|done]. by injection E as <- _. }
  rewrite En, Ec. unfold best. split_and!; [done| |done]. by destruct (first_of p_nominated _ _).
Qed.
End Correct.
