(* ===== verification/AgentAuth.v ===== *)
(** * Role conflicts, and whom the agent believes

    What a Binding message may change, by whom it must be signed, and what the
    agent makes of a peer in its own role. *)

From Stdlib Require Import Strings.String.
From S2P Require Import Prelude Machine CStdio Addr Ice IceWf StunMsg StunWrite StunCodec StunWriteCorrect StunSize StunRead StunReceived StunRoundtrip StunExchange.
From S2P Require Import Turn AgentState Agent AgentStep AgentApi AgentInv AgentTurn AgentSend AgentTimers AgentPairs AgentCandidates AgentBinding.
From stdpp Require Import list.
#[local] Open Scope Z_scope.
#[local] Open Scope machine_scope.

Section Auth.
Context `{Platform, Scan, Resolver, Hashes, !AgentEnvironment}.

(** ** The username *)
Lemma split_username_spec s l r : split_username s = Some (l, r) <-> s = l ++ 58 :: r /\ 58 ∉ l.
Proof.
  revert l r. induction s as [|c s IH]; intros l r; cbn [split_username].
  { split; [done|]. intros [Hs _]. by destruct l. }
  destruct (Z.eqb_spec c 58) as [->|Hc].
  - split; [intros [= <- <-]; split; [done|apply not_elem_of_nil]|]. intros [Hs Hl]. destruct l as [|d l].
    + cbn in Hs. by simplify_eq.
    + cbn in Hs. simplify_eq. exfalso. apply Hl. left.
  - destruct (split_username s) as [[l1 r1]|] eqn:E.
    + destruct (proj1 (IH l1 r1) eq_refl) as [-> Hl1]. split.
      * intros [= <- <-]. split; [done|]. apply not_elem_of_cons. by split; [congruence|].
      * intros [Hs Hl]. destruct l as [|d l]; cbn in Hs; [by simplify_eq|]. injection Hs as -> Hs.
        apply not_elem_of_cons in Hl as [_ Hl]. pose proof (proj2 (IH l r) (conj Hs Hl)) as Er. by simplify_eq.
    + split; [done|]. intros [Hs Hl]. destruct l as [|d l]; cbn in Hs; [by simplify_eq|]. injection Hs as -> Hs.
      apply not_elem_of_cons in Hl as [_ Hl]. by pose proof (proj2 (IH l r) (conj Hs Hl)).
Qed.

(** A request signed with the local password for the local name, by the remote
    agent when its name is known. *)
Definition signed_request (a : juice_agent) (buf : list Z) (size : Z) (msg : stun_message) : Prop :=
  (exists buf', stun_check_integrity buf size msg (ice_pwd (a_local a)) = Some (buf', true)) /\
  exists remote, username (credentials msg) = ice_ufrag (a_local a) ++ 58 :: remote /\
    (ice_ufrag (a_remote a) = [] \/ remote = ice_ufrag (a_remote a)).

(** A response signed with the remote password, which is known. *)
Definition signed_response (a : juice_agent) (buf : list Z) (size : Z) (msg : stun_message) : Prop :=
  ice_pwd (a_remote a) <> [] /\ exists buf', stun_check_integrity buf size msg (ice_pwd (a_remote a)) = Some (buf', true).

Lemma verify_request a buf size msg : msg_method msg = STUN_METHOD_BINDING -> msg_class msg = STUN_CLASS_REQUEST ->
  agent_verify_stun_binding a buf size msg = Some 0 -> signed_request a buf size msg.
Proof.
  intros Hm Hc. unfold agent_verify_stun_binding. rewrite Hm, Hc. cbn -[split_username]. destruct (has_integrity msg); [|done]. cbn -[split_username].
  destruct (split_username (username (credentials msg))) as [[l r]|] eqn:Eu; [|done]. apply split_username_spec in Eu as [Eu _].
  destruct (bool_decide (l = _)) eqn:El; [|done]. apply bool_decide_eq_true in El as ->. cbn -[stun_check_integrity].
  destruct (negb (is_cons (ice_ufrag (a_remote a)) && _)) eqn:Er; [|done]. cbn -[stun_check_integrity].
  destruct (is_cons (ice_pwd (a_local a))) eqn:Ep; [|done]. cbn -[stun_check_integrity].
  destruct (stun_check_integrity buf size msg _) as [[b ok]|] eqn:Ei; [|done]. destruct ok; [|done]. intros _.
  split; [by exists b|]. exists r. split; [done|]. destruct (ice_ufrag (a_remote a)); [by left|]. right.
  apply negb_true_iff in Er. cbn in Er. apply negb_false_iff, bool_decide_eq_true in Er. done.
Qed.

Lemma verify_response a buf size msg : msg_method msg = STUN_METHOD_BINDING -> msg_class msg = STUN_CLASS_RESP_SUCCESS ->
  agent_verify_stun_binding a buf size msg = Some 0 -> signed_response a buf size msg.
Proof.
  intros Hm Hc. unfold agent_verify_stun_binding. rewrite Hm, Hc. cbn -[stun_check_integrity]. destruct (has_integrity msg); [|done]. cbn -[stun_check_integrity].
  destruct (ice_pwd (a_remote a)) as [|c pwd] eqn:Ep; [done|]. cbn -[stun_check_integrity].
  destruct (stun_check_integrity buf size msg _) as [[b ok]|] eqn:Ei; [|done]. destruct ok; [|done]. intros _. unfold signed_response. rewrite Ep. split; [done|]. by exists b.
Qed.

(** ** Whom the agent believes *)

(** A response without a signature is for a transaction with a server. *)
Definition from_server (msg : stun_message) (m : amachine) : Prop :=
  exists i e m1, agent_find_entry_from_transaction_id (transaction_id msg) m = Some (Some i, m1) /\
    a_entries (agent m1) !! i = Some e /\ e_type e <> AGENT_STUN_ENTRY_TYPE_CHECK.

Lemma get_entry_Some i (m : amachine) e m' : get_entry i m = Some (e, m') -> m' = m /\ a_entries (agent m) !! i = Some e.
Proof. unfold get_entry. intros E. apply Machine.bind_Some in E as (l & m1 & E1 & E). apply gets_Some in E1 as [-> ->]. by apply defined_Some in E as [E ->]. Qed.

(** What an unsigned message is worth to the entry [i]. *)
Lemma unsigned_processed input buf size msg src behind i m r m' : msg_method msg = STUN_METHOD_BINDING -> has_integrity msg = false ->
  msg_class msg = STUN_CLASS_REQUEST \/ msg_class msg = STUN_CLASS_RESP_SUCCESS ->
  process_message input buf size msg src behind i m = Some (r, m') ->
  m' = m \/ (msg_class msg = STUN_CLASS_RESP_SUCCESS /\ exists e, a_entries (agent m) !! i = Some e /\ e_type e <> AGENT_STUN_ENTRY_TYPE_CHECK).
Proof.
  intros Hm Hi Hc E. unfold process_message in E. apply Machine.bind_Some in E as (e & m1 & E1 & E). apply get_entry_Some in E1 as [-> He].
  rewrite Hm, Hi in E. cbn [Z.eqb STUN_METHOD_BINDING Pos.eqb andb negb] in E. unfold is_etype in E. destruct (bool_decide (e_type e = _)) eqn:Et.
  - left. destruct Hc as [Hc|Hc]; rewrite Hc in E; cbn in E; by injection E as _ <-.
  - apply bool_decide_eq_false in Et. cbn [andb] in E. destruct Hc as [Hc|Hc]; [left|right; split; [done|by exists e]].
    unfold agent_process_stun_binding, process_binding_request in E. rewrite Hc in E. cbn [Z.eqb STUN_CLASS_REQUEST] in E.
    apply Machine.bind_Some in E as (e1 & m1 & E1 & E). apply get_entry_Some in E1 as [-> He1]. assert (e1 = e) as -> by congruence.
    unfold is_etype in E. rewrite bool_decide_false in E by done. cbn in E. by injection E as _ <-.
Qed.

(** C11: a Binding request changes nothing at all - no pair, no timer, not the
    mode, nothing is sent - unless it is signed with the local password and its
    username is the local name, a colon and a name that is the remote agent's
    when that is known.  A success response changes at most what looking up its
    transaction changes, unless it is signed with the remote password or its
    transaction is one with a STUN or TURN server. *)
Theorem agent_binding_authenticated buf size src behind m buf' msg res r m' :
  is_stun_datagram buf size = Some true -> stun_read buf size = Some (buf', msg, res) ->
  msg_method msg = STUN_METHOD_BINDING -> agent_input buf size src behind m = Some (r, m') ->
  (msg_class msg = STUN_CLASS_REQUEST -> m' = m \/ signed_request (agent m) buf' size msg) /\
  (msg_class msg = STUN_CLASS_RESP_SUCCESS ->
     m' = m \/ (exists found, agent_find_entry_from_transaction_id (transaction_id msg) m = Some (found, m')) \/
     signed_response (agent m) buf' size msg \/ from_server msg m).
Proof.
  intros Hd Hr Hm E. unfold agent_input in E. cbn [agent_input_rec] in E. apply Machine.bind_Some in E as (a & m1 & E1 & E). apply gets_Some in E1 as [-> ->].
  change (id (agent m)) with (agent m) in E. destruct (bool_decide _ || bool_decide _).
  { injection E as _ <-. by split; left. }
  rewrite Hd in E. cbn [defined] in E. unfold bind at 1 in E. cbn [defined] in E. rewrite Hr in E. unfold bind at 1 in E. cbn [defined] in E.
  destruct (res <? 0). { injection E as _ <-. by split; left. }
  unfold agent_dispatch_stun in E. cbv zeta in E. rewrite Hm in E. cbn [Z.eqb STUN_METHOD_BINDING Pos.eqb andb] in E.
  apply Machine.bind_Some in E as (a & m1 & E1 & E). apply gets_Some in E1 as [-> ->]. change (id (agent m)) with (agent m) in E.
  destruct (has_integrity msg) eqn:Hi.
  - apply Machine.bind_Some in E as (bad & m1 & E1 & E). apply defined_Some in E1 as [Ev ->]. destruct (Z.eqb_spec bad 0) as [->|]; [|injection E as _ <-; by split; left].
    split; intros Hc.
    + right. by apply verify_request.
    + right; right; left. by apply verify_response.
  - unfold bind at 1, ret at 1 in E. unfold bind at 1, ret at 1 in E. cbn [Z.eqb negb] in E.
    apply Machine.bind_Some in E as (found & m1 & Ef & E). unfold find_entry_for in Ef. split; intros Hc; rewrite Hc in Ef, E.
    + cbn in Ef. injection Ef as <- <-. destruct (agent_find_entry_from_record _ _ _) as [i|]; [|injection E as _ <-; by left].
      apply unsigned_processed in E as [->|[Hs _]]; try done; [by left| |by left]. by rewrite Hc in Hs.
    + right. cbn in Ef. destruct found as [i|]; [|injection E as _ <-; left; by exists None].
      apply unsigned_processed in E as [->|[_ (e & He & Ht)]]; try done; [left; by exists (Some i)|right; right; by exists i, e, m1|by right].
Qed.

(** ** Role conflicts *)

(** A request of a peer that claims the role the agent has, for a pair. *)
Definition conflicting (msg : stun_message) (a : juice_agent) : Prop :=
  match a_mode a with
  | AGENT_MODE_CONTROLLING => ice_controlling msg <> 0 /\ ice_controlled msg <> ice_controlling msg
  | AGENT_MODE_CONTROLLED => ice_controlling msg = 0 /\ ice_controlled msg <> 0
  | AGENT_MODE_UNKNOWN => False
  end.

(** What the agent does about it. *)
Definition conflict_settled (msg : stun_message) (m m' : amachine) : Prop :=
  match a_mode (agent m) with
  | AGENT_MODE_CONTROLLING =>
    if ice_controlling msg <=? ice_tiebreaker (agent m)
    then a_mode (agent m') = AGENT_MODE_CONTROLLING /\ candidate_pairs (agent m') = candidate_pairs (agent m)
    else a_mode (agent m') = AGENT_MODE_CONTROLLED /\ events m' = events m
  | _ => a_mode (agent m') = AGENT_MODE_CONTROLLING /\ events m' = events m
  end.

(** a peer that claims to be controlling as the agent does is given way to
    when its tiebreaker is larger, and refused otherwise, the agent keeping its
    role and its pairs; but when both are controlled the agent always takes the
    controlling role, whatever the tiebreakers are. *)
Theorem agent_role_conflict `{!AgentLaws} msg i e src m :
  inv None (agent m) -> message_ok msg -> a_entries (agent m) !! i = Some e -> e_type e = AGENT_STUN_ENTRY_TYPE_CHECK ->
  conflicting msg (agent m) ->
  exists m', process_binding_request msg i src m = Some (0, m') /\ conflict_settled msg m m'.
Proof.
  intros Hi Hmsg He Ht Hconf.
  cut (spec (process_binding_request msg i src) m (fun r m' => r = 0 /\ conflict_settled msg m m')).
  { unfold spec. destruct (process_binding_request msg i src m) as [[r m']|]; [|done]. intros [-> Hr]. by exists m'. }
  unfold process_binding_request, is_etype, controlling, conflict_settled. apply spec_bind. apply (spec_get_entry i e); [done|]. cbv zeta.
  rewrite bool_decide_true by done. cbn [negb]. unfold conflicting in Hconf. destruct (a_mode (agent m)) eqn:Em; [done| |].
  - destruct Hconf as [Hz Hc]. rewrite Hz, (proj2 (Z.eqb_neq 0 _)) by congruence. apply spec_bind, spec_gets. change (id (agent m)) with (agent m).
    rewrite !Em, (bool_decide_false (AGENT_MODE_CONTROLLED = _)), (bool_decide_true (AGENT_MODE_CONTROLLED = _)), (proj2 (Z.eqb_neq (ice_controlled msg) 0)) by done.
    cbn [negb andb]. pose proof (inv_tiebreaker _ _ Hi) as Htb. rewrite (proj2 (Z.leb_le 0 _)) by lia.
    apply spec_bind. unfold switch_mode. apply spec_bind, spec_modify. by split.
  - destruct Hconf as [Hz Hc]. rewrite (proj2 (Z.eqb_neq _ _)) by congruence. apply spec_bind, spec_gets. change (id (agent m)) with (agent m).
    rewrite !Em, bool_decide_true, (proj2 (Z.eqb_neq _ 0)) by done. cbn [negb andb]. apply spec_bind.
    destruct (_ <=? _); [|unfold switch_mode; apply spec_bind, spec_modify; by split].
    apply spec_bind. eapply spec_mono; [apply (binding_spec None i e); [done|done|intros t [= <-]; by apply message_tid_ok|done]|]; cbn beta.
    intros ? m1 [_ (es & Ea & _)]. apply spec_ret. split; [done|]. rewrite Ea. by rewrite <- Em.
Qed.

(** ** Two agents *)

(** [a] has the description of [b], and [b] that of [a] if it has one; a name is
    text without a colon. *)
Definition described (a b : juice_agent) : Prop :=
  ice_ufrag (a_remote a) = ice_ufrag (a_local b) /\ ice_pwd (a_remote a) = ice_pwd (a_local b) /\
  (ice_ufrag (a_remote b) = [] \/ ice_ufrag (a_remote b) = ice_ufrag (a_local a)) /\
  ice_ufrag (a_remote a) <> [] /\ ice_pwd (a_remote a) <> [] /\ 58 ∉ ice_ufrag (a_local b).

(** What a check carries, whoever reads it. *)
Definition check_of (a : juice_agent) (e : agent_stun_entry) (msg : stun_message) : Prop :=
  msg_class msg = STUN_CLASS_REQUEST /\ msg_method msg = STUN_METHOD_BINDING /\ transaction_id msg = e_transaction_id e /\
  ice_controlling msg = (if controlling a then ice_tiebreaker a else 0) /\
  ice_controlled msg = (if bool_decide (a_mode a = AGENT_MODE_CONTROLLED) then ice_tiebreaker a else 0) /\
  username (credentials msg) = ice_ufrag (a_remote a) ++ 58 :: ice_ufrag (a_local a).

(** The credentials of ICE: a name and a password without a realm. *)
Definition short_term (msg : stun_message) : Prop := exists u, credentials msg = stun_credentials_zero <| username := u |>.

Lemma request_fields a b e msg0 msg password : inv None a -> described a b -> e_type e = AGENT_STUN_ENTRY_TYPE_CHECK ->
  msg0 = stun_message_zero <| msg_class := STUN_CLASS_REQUEST |> <| msg_method := STUN_METHOD_BINDING |> <| transaction_id := e_transaction_id e |> ->
  binding_fields a e STUN_CLASS_REQUEST 0 None msg0 = Some (msg, password) ->
  password = Some (ice_pwd (a_local b)) /\ check_of a e msg /\ short_term msg /\ readable msg /\ credentials_ok msg.
Proof.
  intros Hi (Hu & Hp & _ & Hun & _) Ht -> E. unfold binding_fields, is_etype in E. rewrite bool_decide_true in E by done.
  cbn [negb Z.eqb STUN_CLASS_REQUEST] in E. case_match; [done|]. cbv zeta in E.
  pose proof (inv_local _ _ Hi) as (Hl & _). pose proof (inv_remote _ _ Hi) as (Hr & _). destruct (ok_ufrag _ Hl) as [Hl1 Hl2]. destruct (ok_ufrag _ Hr) as [Hr1 Hr2].
  assert (Hclip : snprintf_clip STUN_MAX_USERNAME_LEN (ice_ufrag (a_remote a) ++ 58 :: ice_ufrag (a_local a)) = ice_ufrag (a_remote a) ++ 58 :: ice_ufrag (a_local a)).
  { unfold snprintf_clip. apply take_ge. rewrite length_app. cbn [length]. unfold lenZ, STUN_MAX_USERNAME_LEN in *. lia. }
  change (lit ":" ++ ice_ufrag (a_local a)) with (58 :: ice_ufrag (a_local a)) in E. rewrite Hclip, Hp in E.
  apply (inj Some) in E. injection E as <- <-. split_and!; try done.
  - by eexists.
  - split; cbn; try done; try lia. apply candidate_priority_range.
  - split; cbn; try done. split; [apply Forall_app_2; [done|by constructor]|]. rewrite lenZ_app, lenZ_cons. unfold STUN_MAX_USERNAME_LEN. lia.
Qed.

(** A signed request as its reader sees it. *)
Lemma request_read msg password rest : sendable 0 msg -> readable msg -> credentials_ok msg -> short_term msg ->
  msg_class msg = STUN_CLASS_REQUEST -> lenZ rest = 2 -> bytes_ok rest -> msg_method msg < 0x4000 ->
  let text := stun_encode msg (Some password) rest in
  is_stun_datagram text (lenZ text) = Some true /\
  exists msg', stun_read text (lenZ text) = Some (text, msg', lenZ text) /\ has_integrity msg' = true /\
    msg_class msg' = msg_class msg /\ msg_method msg' = msg_method msg /\ transaction_id msg' = transaction_id msg /\
    ice_controlling msg' = ice_controlling msg /\ ice_controlled msg' = ice_controlled msg /\
    username (credentials msg') = username (credentials msg) /\
    stun_check_integrity text (lenZ text) msg' password = Some (text, true).
Proof.
  intros Hs Hr Hc [u Hu] Hcl Hl Hb Hm text. pose proof (sendable_writable 0 msg rest Hs Hl Hb) as Hw.
  assert (Hlen : lenZ text <= 936 + align32 0) by (apply brief_fits; rewrite ?Hu; try done; apply Hs). change (align32 0) with 0 in Hlen.
  pose proof (lenZ_stun_encode msg (Some password) rest Hw) as Hsum. fold text in Hsum. pose proof (lenZ_nonneg (stun_body msg (Some password) rest)).
  assert (Hbody : lenZ (stun_body msg (Some password) rest) + 8 < 65536) by lia.
  pose proof (stun_read_encode msg (Some password) rest [] (lenZ text) Hw Hr Hc Hbody) as Hread. cbv zeta in Hread. fold text in Hread.
  rewrite app_nil_r in Hread. specialize (Hread ltac:(lia)). split.
  { pose proof (encode_is_datagram msg (Some password) rest [] (lenZ text) Hw Hr) as Hd. fold text in Hd. rewrite app_nil_r in Hd.
    rewrite Hd by lia. by rewrite Z.eqb_refl. }
  assert (Hhm : has_hmac msg (Some password) = true) by (unfold has_hmac; by rewrite Hcl).
  assert (Hfin : stun_read_finish (received msg (Some password)) (received_bits msg) =
    received msg (Some password) <| credentials := received_credentials msg <| password_algorithm := STUN_PASSWORD_ALGORITHM_MD5 |> |>).
  { unfold received, received_credentials, received_bits, sends_nonce, is_request. rewrite Hhm, Hu, Hcl. cbn. rewrite andb_false_r. cbn.
    unfold stun_read_finish, check_algorithms, select_algorithm, enable_anonymity. cbn. rewrite Hcl. done. }
  eexists. split; [exact Hread|]. rewrite Hfin. unfold received. rewrite Hhm. cbn [has_integrity msg_class]. split_and!; try done.
  { unfold received_credentials, is_request. rewrite Hu, Hcl. done. }
  pose proof (check_integrity_written msg (Some password) rest []
    (received msg (Some password) <| credentials := received_credentials msg <| password_algorithm := STUN_PASSWORD_ALGORITHM_MD5 |> |>)
    password Hw Hr Hhm Hhm) as Hcheck. fold text in Hcheck. cbv zeta in Hcheck. rewrite app_nil_r in Hcheck.
  unfold received in Hcheck. rewrite Hhm in Hcheck. rewrite Hcheck by lia. f_equal. f_equal. unfold digests_agree. cbv zeta.
  assert (Hk : generate_hmac_key (with_credentials (received_plain msg) (received_credentials msg) <| has_integrity := true |> <| has_fingerprint := true |>
    <| credentials := received_credentials msg <| password_algorithm := STUN_PASSWORD_ALGORITHM_MD5 |> |>) (Some password) = generate_hmac_key msg (Some password)).
  { unfold generate_hmac_key. cbn [credentials realm]. rewrite Hu. cbn. unfold received_credentials. rewrite Hu. cbn. by destruct (sends_realm msg). }
  rewrite Hk, !bool_decide_true by done. by rewrite orb_true_r.
Qed.

Lemma verify_accepts a b e msg buf size : described a b -> check_of a e msg -> has_integrity msg = true ->
  stun_check_integrity buf size msg (ice_pwd (a_local b)) = Some (buf, true) ->
  agent_verify_stun_binding b buf size msg = Some 0.
Proof.
  intros (Hu & Hp & Hr & Hun & Hpn & Hcolon) (Hcl & Hm & _ & _ & _ & Hname) Hint Hcheck. unfold agent_verify_stun_binding.
  rewrite Hcl, Hm, Hint, Hname. cbn [Z.eqb STUN_METHOD_BINDING STUN_CLASS_REQUEST STUN_CLASS_INDICATION STUN_CLASS_RESP_ERROR Pos.eqb negb orb].
  rewrite Hu, (proj2 (split_username_spec _ (ice_ufrag (a_local b)) (ice_ufrag (a_local a)))) by done.
  rewrite bool_decide_true by done. cbn [andb].
  assert (Hknown : negb (is_cons (ice_ufrag (a_remote b)) && negb (bool_decide (ice_ufrag (a_local a) = ice_ufrag (a_remote b)))) = true).
  { destruct Hr as [-> | ->]; [done|]. rewrite bool_decide_true by done. by rewrite andb_false_r. }
  rewrite Hknown. cbn [negb]. rewrite Hp in Hpn. destruct (ice_pwd (a_local b)) as [|c pwd]; [done|]. cbn [is_cons negb]. by rewrite Hcheck.
Qed.

(** C12: the check an agent sends is believed by the agent whose description it
    has: the datagram is one of STUN, its reader finds the transaction, the role
    and the tiebreaker of the sender, and its name and signature are accepted. *)
Theorem agent_check_verified `{!AgentLaws} i e b m :
  inv None (agent m) -> a_entries (agent m) !! i = Some e -> e_type e = AGENT_STUN_ENTRY_TYPE_CHECK -> e_relay_entry e = None ->
  described (agent m) b ->
  exists r m' text msg, agent_send_stun_binding i STUN_CLASS_REQUEST 0 None None m = Some (r, m') /\
    events m' = SentTo (e_record e) text 0 :: events m /\
    is_stun_datagram text (lenZ text) = Some true /\ stun_read text (lenZ text) = Some (text, msg, lenZ text) /\
    check_of (agent m) e msg /\ agent_verify_stun_binding b text (lenZ text) msg = Some 0.
Proof.
  intros Hi He Ht Hrel Hd. pose proof (eo_tid _ _ _ (inv_entry _ _ _ _ Hi He)) as Htid.
  cut (spec (agent_send_stun_binding i STUN_CLASS_REQUEST 0 None None) m (fun r m' => exists text msg,
    events m' = SentTo (e_record e) text 0 :: events m /\
    is_stun_datagram text (lenZ text) = Some true /\ stun_read text (lenZ text) = Some (text, msg, lenZ text) /\
    check_of (agent m) e msg /\ agent_verify_stun_binding b text (lenZ text) msg = Some 0)).
  { unfold spec. destruct (agent_send_stun_binding _ _ _ _ _ m) as [[r m']|]; [|done]. intros (text & msg & Hx). by exists r, m', text, msg. }
  unfold agent_send_stun_binding. cbn [Z.eqb STUN_CLASS_REQUEST STUN_CLASS_RESP_SUCCESS STUN_CLASS_RESP_ERROR STUN_CLASS_INDICATION orb andb].
  apply spec_bind. apply (spec_get_entry i e); [done|]. apply spec_bind, spec_ret, spec_bind, spec_gets. change (id (agent m)) with (agent m). cbv zeta.
  set (msg0 := stun_message_zero <| msg_class := STUN_CLASS_REQUEST |> <| msg_method := STUN_METHOD_BINDING |> <| transaction_id := e_transaction_id e |>).
  destruct (binding_fields (agent m) e STUN_CLASS_REQUEST 0 None msg0) as [[msg password]|] eqn:Ef.
  2: { exfalso. unfold binding_fields, is_etype in Ef. rewrite bool_decide_true in Ef by done. cbn [negb Z.eqb STUN_CLASS_REQUEST] in Ef.
       destruct Hd as (_ & _ & _ & Hun & Hpn & _). destruct (ice_ufrag (a_remote (agent m))); [done|]. by destruct (ice_pwd (a_remote (agent m))). }
  destruct (request_fields (agent m) b e msg0 msg password Hi Hd Ht eq_refl Ef) as (-> & Hof & Hshort & Hread & Hcred).
  apply (binding_fields_bindable None) in Ef; [|done..|by apply binding_message_bindable|done|done]. destruct Ef as [Hsend _].
  apply spec_bind. apply (spec_mono _ _ (fun _ m1 => events m1 = events m)).
  { case_test; [|by apply spec_ret]. by apply (spec_set_entry i _ e). }
  intros ? m1 Ev. apply spec_bind. eapply spec_mono; [by apply (write_message_text id 0)|]; cbn beta.
  intros ? m2 [[k ->] (rest & -> & Hl & Hb)]. rewrite Hrel. apply spec_bind. unfold agent_direct_send.
  apply spec_bind, spec_emit, spec_ask, spec_ret. cbn [events]. rewrite Ev. pose proof Hof as (Hcl & Hm & _).
  destruct (request_read msg (ice_pwd (a_local b)) rest Hsend Hread Hcred Hshort Hcl Hl Hb ltac:(by rewrite Hm))
    as (Hdg & msg' & Er & Hint & Ecl & Em & Etid & Ec1 & Ec2 & Eu & Hcheck).
  eexists _, msg'. split; [done|]. split; [exact Hdg|]. split; [exact Er|].
  assert (Hof' : check_of (agent m) e msg') by (unfold check_of; by rewrite Ecl, Em, Etid, Ec1, Ec2, Eu).
  split; [exact Hof'|]. by apply (verify_accepts (agent m) b e).
Qed.
End Auth.
