(* ===== verification/AgentExamples.v ===== *)
(** * Concrete sessions of the agent

    A host with one address, a clock that advances with every question, and a
    peer on the same network: the theorems on the agent at sessions that gather,
    check and select a pair. *)

From Stdlib Require Import Strings.String.
From S2P Require Import Prelude Machine CStdio Addr Ice IceWf StunMsg StunHashes StunWrite StunCodec StunWriteCorrect StunSize StunRead StunReceived.
From S2P Require Import Turn TurnTable TurnMap AgentState AgentOrder Agent AgentStep AgentApi AgentInv AgentTurn AgentSend AgentTimers.
From S2P Require Import AgentPairs AgentCandidates AgentBinding AgentInput AgentBooks AgentAct AgentOps AgentCorrect AgentAuth.
From stdpp Require Import list sorting.
#[local] Open Scope Z_scope.

#[local] Existing Instances lwip newlib.

(** ** The environment *)
Definition agent_record (port : Z) : addr_record := mkRecord (sockaddr_in (htons port) [192; 168; 1; 7]) 16.
Definition peer_record : addr_record := mkRecord (sockaddr_in (htons 5000) [192; 168; 1; 9]) 16.
Definition relay_record : addr_record := mkRecord (sockaddr_in (htons 3478) [203; 0; 113; 9]) 16.

#[local] Instance two_hosts : Resolver := {|
  getaddrinfo _ host serv :=
    if bool_decide (host = lit "192.168.1.9") then Some [peer_record]
    else if bool_decide (host = lit "turn") then Some [relay_record] else None;
  getnameinfo record := Some (lit "192.168.1.7", lit "4000")
|}.

#[local] Instance agent_environment : AgentEnvironment := {|
  now_ms n := 1 + (60 * Z.of_nat n) `mod` 2 ^ 29;
  random_of n k := replicate (Z.to_nat k) (Z.of_nat n `mod` 256);
  random_ids _ := (fun j => Z.of_nat j :: replicate 11 1) <$> seq 0 41;
  random_channels _ := Z.of_nat <$> seq 0 41;
  buffer_of _ := replicate (Z.to_nat BUFFER_SIZE) 170;
  never_set _ := [0; 0];
  conn_send_result _ := 1;
  conn_create_result _ := true;
  conn_get_addrs_result _ := (1, [agent_record 4000]);
  resolver_thread_result _ := true
|}.

Definition peer_sdp : list Z :=
  lit "a=ice-ufrag:peer" ++ Ice.crlf ++ lit "a=ice-pwd:0123456789abcdefghijkl" ++ Ice.crlf ++
  lit "a=candidate:1 1 UDP 2122317823 192.168.1.9 5000 typ host" ++ Ice.crlf ++ lit "a=end-of-candidates" ++ Ice.crlf.

Definition example_config : agent_config :=
  mkAgentConfig false None 0 [mkTurnServer (Some (lit "turn")) (lit "user") (lit "pass") 0].

(** The peer's answer to the check of transaction [tid]. *)
Definition answer (tid : list Z) : list Z :=
  stun_encode (stun_message_zero <| msg_class := STUN_CLASS_RESP_SUCCESS |> <| msg_method := STUN_METHOD_BINDING |>
    <| transaction_id := tid |> <| mapped := agent_record 4000 |>) (Some (lit "0123456789abcdefghijkl")) [0; 0].
Definition received_from_peer (text : list Z) : agent_op := ConnRecv text (lenZ text) peer_record.

Definition example_ops : list agent_op :=
  [GatherCandidates; ResolveServers; ResolveServers; ResolveServers; SetRemoteDescription peer_sdp; ConnUpdate; ConnUpdate; ConnUpdate;
   received_from_peer (answer (replicate 12 6)); ConnUpdate; ConnUpdate; received_from_peer (answer (replicate 12 27)); ConnUpdate; Send [1;2;3] 0].

(** ** What is known of it *)
Lemma constant_bytes n b : 0 <= b < 256 -> bytes_ok (replicate n b).
Proof. intros Hb. by apply Forall_replicate. Qed.

Lemma agent_record_wf port : 0 <= port < 65536 -> record_wf (agent_record port).
Proof. intros Hp. split; [apply bswap16_range|]. split; [done|]. by repeat constructor. Qed.

#[local] Instance agent_laws : AgentLaws.
Proof.
  split.
  - intros n. cbn. pose proof (Z.mod_pos_bound (60 * Z.of_nat n) (2 ^ 29) ltac:(lia)). lia.
  - intros n k Hk. cbn. rewrite lenZ_replicate. split; [lia|]. apply constant_bytes. apply Z.mod_pos_bound. lia.
  - intros n. split; [split_and!|].
    + apply Forall_fmap, list.Forall_forall. intros j _. split; [done|]. by destruct j.
    + by apply (bool_decide_unpack _); vm_compute.
    + done.
    + apply Forall_fmap, list.Forall_forall. intros j Hj. apply elem_of_seq in Hj. constructor; [unfold is_byte; lia|]. by apply constant_bytes.
  - intros n. split; [by apply (bool_decide_unpack _); vm_compute|done].
  - intros n. split; [done|]. by apply constant_bytes.
  - intros n. split; [done|]. by repeat constructor.
  - intros n. constructor; [by apply agent_record_wf|constructor].
  - intros numeric host service l. unfold getaddrinfo, two_hosts. repeat case_bool_decide; intros E; [injection E as <-..|done].
    + constructor; [|constructor]. split; [done|]. split; [done|]. by repeat constructor.
    + constructor; [|constructor]. split; [done|]. split; [done|]. by repeat constructor.
  - intros record host service [= <- <-]. split; (split; [done|]; by repeat constructor).
Qed.

Lemma example_session_ok : session_ok example_config (replicate 26 7) 1000 example_ops.
Proof.
  assert (Htext : forall tid, lenZ tid = 12 -> bytes_ok tid -> forallb is_byteb (answer tid) = true ->
    op_ok example_config (received_from_peer (answer tid))).
  { intros tid Hl Hb Hbytes. split; [split; [|split; [apply lenZ_nonneg|lia]]|split; [done|]; split; [done|]; by repeat constructor].
    apply List.Forall_forall. rewrite forallb_forall in Hbytes. intros b Hin. specialize (Hbytes b Hin). unfold is_byteb in Hbytes. zify_bool. unfold is_byte. lia. }
  split_and!; try done.
  - split; [by left|]. split; [done|]. constructor; [by repeat constructor|constructor].
  - repeat (apply Forall_cons_2); try exact I; try (apply Htext; [done|by repeat constructor|by vm_compute]).
    + split; [by repeat constructor|by repeat constructor].
    + constructor.
Qed.

(** The agent at the end of the session, which has completed. *)
Definition example_machine : amachine :=
  Eval vm_compute in
    match session example_config (replicate 26 7) 1000 example_ops with
    | Some (_, m) => m
    | None => agent_start (agent_create example_config (replicate 26 7) 1000)
    end.

Lemma example_session : session example_config (replicate 26 7) 1000 example_ops = Some (tt, example_machine).
Proof. vm_compute. reflexivity. Qed.

Example example_completes : a_state (agent example_machine) = JUICE_STATE_COMPLETED.
Proof. reflexivity. Qed.

Lemma example_agent_inv : inv None (agent example_machine).
Proof.
  destruct (session_run example_config (replicate 26 7) 1000 example_ops example_session_ok) as (m & E & Hr).
  rewrite example_session in E. injection E as <-. apply Hr.
Qed.

#[local] Opaque example_machine.

(** ** The theorems there *)
Lemma agent_run_safe_witness :
  exists m, session example_config (replicate 26 7) 1000 example_ops = Some (tt, m) /\ inv None (agent m) /\
    lenZ (a_entries (agent m)) <= MAX_STUN_ENTRIES_COUNT /\ lenZ (candidate_pairs (agent m)) <= MAX_CANDIDATE_PAIRS_COUNT /\
    candidates_count (a_local (agent m)) <= ICE_MAX_CANDIDATES_COUNT /\ candidates_count (a_remote (agent m)) <= ICE_MAX_CANDIDATES_COUNT.
Proof. apply (agent_run_safe example_config (replicate 26 7) 1000 example_ops). exact example_session_ok. Defined.

Lemma agent_run_states_witness :
  exists m, session example_config (replicate 26 7) 1000 example_ops = Some (tt, m) /\
    reports JUICE_STATE_DISCONNECTED (events m) (a_state (agent m)) /\ phase (agent m).
Proof. apply (agent_run_states example_config (replicate 26 7) 1000 example_ops). exact example_session_ok. Defined.

Lemma agent_pairs_sorted_witness :
  exists m, session example_config (replicate 26 7) 1000 example_ops = Some (tt, m) /\
    ordered_pairs (agent m) = merge_sort (before (priority_in (candidate_pairs (agent m)))) (seq 0 (length (candidate_pairs (agent m)))).
Proof. apply (agent_pairs_sorted example_config (replicate 26 7) 1000 example_ops). exact example_session_ok. Defined.

Lemma agent_chooses_best_witness :
  exists c m', choose_pair example_machine = Some (c, m') /\
    nominated_pair c = first_of p_nominated (agent example_machine) (ordered_pairs (agent example_machine)) /\
    chosen_pair c = best (agent example_machine) (ordered_pairs (agent example_machine)) /\ freezes example_machine m'.
Proof. apply (agent_chooses_best example_machine). exact example_agent_inv. Defined.

(** The check of the only pair. *)
Definition example_entry : agent_stun_entry := default entry_zero (a_entries (agent example_machine) !! 1%nat).

Lemma example_entry_at : a_entries (agent example_machine) !! 1%nat = Some example_entry.
Proof. vm_compute. reflexivity. Qed.

Lemma example_due j d : due (a_entries (agent example_machine)) 1 j = Some d -> 0 <= d <= 5000.
Proof.
  assert (E : due (a_entries (agent example_machine)) 1 0 = Some 2261) by (vm_compute; reflexivity).
  destruct j as [|[|j]]; [intros Ej; assert (d = 2261) by congruence; lia|by vm_compute|]. unfold due. cbn [Nat.eqb].
  rewrite (proj2 (list.lookup_ge_None (a_entries (agent example_machine)) (S (S j)))); [done|].
  assert (El : length (a_entries (agent example_machine)) = 2%nat) by (vm_compute; reflexivity). rewrite El. lia.
Qed.

Lemma agent_arm_transmission_paced_witness :
  exists e' m', agent_arm_transmission 1 50 example_machine = Some (tt, m') /\
    a_entries (agent m') = <[1%nat := e']> (a_entries (agent example_machine)) /\ events m' = events example_machine /\
    now_ms (asked example_machine) + 50 <= e_next_transmission e' <= now_ms (asked example_machine) + 50 + 100 * lenZ (a_entries (agent example_machine)) /\
    free_at (a_entries (agent example_machine)) 1 (e_next_transmission e') /\
    if is_estate AGENT_STUN_ENTRY_STATE_SUCCEEDED_KEEPALIVE example_entry then e_state e' = AGENT_STUN_ENTRY_STATE_SUCCEEDED_KEEPALIVE
    else e_state e' = AGENT_STUN_ENTRY_STATE_PENDING /\ e_retransmission_timeout e' = 500 /\
         e_retransmissions e' = (if is_etype AGENT_STUN_ENTRY_TYPE_CHECK example_entry then 6 else 5).
Proof.
  apply (agent_arm_transmission_paced 1 50 example_entry example_machine 5000).
  - exact example_entry_at.
  - exact example_due.
  - lia.
  - vm_compute. discriminate.
  - vm_compute. reflexivity.
Defined.

(** *** Requests of the peer *)
Definition peer_request (controlling_ controlled_ : Z) : stun_message :=
  stun_message_zero <| msg_class := STUN_CLASS_REQUEST |> <| msg_method := STUN_METHOD_BINDING |> <| transaction_id := replicate 12 9 |>
    <| ice_controlling := controlling_ |> <| ice_controlled := controlled_ |>
    <| credentials ::= fun c => c <| username := lit "HHHH:peer" |> |>.

(** A request of a controlled peer, signed with the agent's password. *)
Definition peer_text : list Z :=
  Eval vm_compute in stun_encode (peer_request 0 77) (Some (ice_pwd (a_local (agent example_machine)))) [0; 0].
Definition peer_message : stun_message :=
  Eval vm_compute in from_option (fun r => snd (fst r)) stun_message_zero (stun_read peer_text (lenZ peer_text)).

Lemma agent_binding_authenticated_witness :
  exists r m', agent_input peer_text (lenZ peer_text) peer_record None example_machine = Some (r, m') /\
    (msg_class peer_message = STUN_CLASS_REQUEST -> m' = example_machine \/ signed_request (agent example_machine) peer_text (lenZ peer_text) peer_message) /\
    (msg_class peer_message = STUN_CLASS_RESP_SUCCESS ->
       m' = example_machine \/ (exists found, agent_find_entry_from_transaction_id (transaction_id peer_message) example_machine = Some (found, m')) \/
       signed_response (agent example_machine) peer_text (lenZ peer_text) peer_message \/ from_server peer_message example_machine).
Proof.
  assert (Hs : isSome (agent_input peer_text (lenZ peer_text) peer_record None example_machine) = true) by (vm_compute; reflexivity).
  destruct (agent_input peer_text (lenZ peer_text) peer_record None example_machine) as [[r m']|] eqn:E; [|discriminate Hs].
  exists r, m'. split; [reflexivity|].
  apply (agent_binding_authenticated peer_text (lenZ peer_text) peer_record None example_machine peer_text peer_message (lenZ peer_text) r m').
  - vm_compute. reflexivity.
  - vm_compute. reflexivity.
  - vm_compute. reflexivity.
  - exact E.
Defined.

(** The agent has the controlling role, and so claims the peer. *)
Lemma peer_request_ok controlling_ controlled_ : message_ok (peer_request controlling_ controlled_).
Proof. split; try done; repeat (split || constructor || done). Qed.

Lemma agent_role_conflict_witness :
  exists m', process_binding_request (peer_request 2000 0) 1 peer_record example_machine = Some (0, m') /\
    conflict_settled (peer_request 2000 0) example_machine m'.
Proof.
  apply (agent_role_conflict (peer_request 2000 0) 1 example_entry peer_record example_machine).
  - exact example_agent_inv.
  - apply peer_request_ok.
  - exact example_entry_at.
  - vm_compute. reflexivity.
  - unfold conflicting. assert (Em : a_mode (agent example_machine) = AGENT_MODE_CONTROLLING) by (vm_compute; reflexivity). rewrite Em. split; discriminate.
Defined.

(** The peer, as far as it matters: what it told about itself. *)
Definition example_peer : juice_agent :=
  agent_create example_config (replicate 26 7) 5 <| a_local := a_remote (agent example_machine) |>.

Lemma agent_check_verified_witness :
  exists r m' text msg, agent_send_stun_binding 1 STUN_CLASS_REQUEST 0 None None example_machine = Some (r, m') /\
    events m' = SentTo (e_record example_entry) text 0 :: events example_machine /\
    is_stun_datagram text (lenZ text) = Some true /\ stun_read text (lenZ text) = Some (text, msg, lenZ text) /\
    check_of (agent example_machine) example_entry msg /\ agent_verify_stun_binding example_peer text (lenZ text) msg = Some 0.
Proof.
  apply (agent_check_verified 1 example_entry example_peer example_machine).
  - exact example_agent_inv.
  - exact example_entry_at.
  - vm_compute. reflexivity.
  - vm_compute. reflexivity.
  - assert (Eu : ice_ufrag (a_remote (agent example_machine)) = lit "peer") by (vm_compute; reflexivity).
    assert (Ep : ice_pwd (a_remote (agent example_machine)) = lit "0123456789abcdefghijkl") by (vm_compute; reflexivity).
    split_and!; [reflexivity|reflexivity|by left|by rewrite Eu|by rewrite Ep|].
    change (58 ∉ ice_ufrag (a_remote (agent example_machine))). rewrite Eu. by apply (bool_decide_unpack _).
Defined.
