(* ===== verification/Conn.v ===== *)
(** * conn.c: agents in a registry, whatever the concurrency mode

    A registry holds the agents that share a thread: slots, the number of agents
    and the state of its mode.  What conn.c calls through the table of the modes
    is the class [ConnMode].  A pointer to an agent is its index among all agents
    ever made; the memory of an agent that was destroyed is gone ([None]).  An
    agent runs on its own state and shares the environment, and what it sends and
    reports is an event that carries its index.  Every call is made with the
    registry locked and is a step of its own. *)

From S2P Require Import Prelude Machine CStdio Addr.
From S2P Require Import StunMsg StunWrite StunRead Turn Ice AgentState Agent AgentStep AgentApi.

#[local] Open Scope machine_scope.

Definition INITIAL_REGISTRY_SIZE : Z := 16.

(** ** Data *)

(** An agent, the [conn_impl] of its mode and its index in the registry. *)
Record conn_agent (C : Type) := mkConnAgent { ca_agent : juice_agent; ca_conn : C; ca_conn_index : nat }.
Arguments mkConnAgent {C} ca_agent ca_conn ca_conn_index.
Arguments ca_agent {C} c.
Arguments ca_conn {C} c.
Arguments ca_conn_index {C} c.

(** [conn_registry] with the [registry_impl] of its mode, and the memory of the agents. *)
Record conn_registry (C R : Type) := mkRegistry {
  reg_agents : list (option nat);
  agents_count : Z;
  reg_impl : R;
  memory_of_agents : list (option (conn_agent C))
}.
Arguments mkRegistry {C R} reg_agents agents_count reg_impl memory_of_agents.
Arguments reg_agents {C R} c.
Arguments agents_count {C R} c.
Arguments reg_impl {C R} c.
Arguments memory_of_agents {C R} c.

#[export] Instance conn_agent_expand {C} : Expand (conn_agent C) := fun a => mkConnAgent (ca_agent a) (ca_conn a) (ca_conn_index a).
#[export] Instance conn_registry_expand {C R} : Expand (conn_registry C R) := fun r =>
  mkRegistry (reg_agents r) (agents_count r) (reg_impl r) (memory_of_agents r).

(** What is sent and reported: by an agent, or by the mode. *)
Inductive conn_event (X : Type) : Type :=
| FromAgent (id : nat) (e : agent_event)
| FromMode (e : X).
Arguments FromAgent {X} id e.
Arguments FromMode {X} e.

(** [conn_mode_entry]: what [registry_init_func] leaves, what [init_func] makes
    of the socket it created, if any, what [interrupt_func] does to the time the
    agent is due, what [cleanup_func] does to the registry, and
    [can_release_registry_func]. *)
Class ConnMode (C R : Type) := {
  registry_init_func : R;
  init_func : Z -> C;
  interrupt_func : Z -> C -> C;
  cleanup_func : nat -> R -> option R;
  can_release_registry_func : R -> bool
}.

(** ** Datagrams *)

(** What [recvfrom] stores in the buffer. *)
Definition received_in (payload buffer : list Z) : list Z := payload ++ drop (length payload) buffer.

(** One result of [recvfrom], as the three modes take it ([conn_mux_recv],
    [conn_poll_recv], [conn_thread_recv]): empty datagrams only interrupt, mapped
    addresses are unmapped. *)
Definition conn_recv `{Platform} (payload : list Z) (src : addr_record) : option addr_record :=
  if lenZ payload =? 0 then None
  else let '(sa, l, _) := addr_unmap_inet6_v4mapped (addr src) (Addr.len src) in Some (mkRecord sa l).

Section Conn.
Context {C R X : Type} `{!ConnMode C R}.

Abbreviation registry := (memory (S := conn_registry C R) (E := conn_event X)).
Abbreviation M := (prog (conn_registry C R) (conn_event X)).

(** ** Agents *)

(** An agent that still exists. *)
Definition get_agent (id : nat) : M (conn_agent C) := let* l := gets memory_of_agents in defined (mjoin (l !! id)).

Definition put_agent (id : nat) (a : option (conn_agent C)) (r : conn_registry C R) : conn_registry C R :=
  r <| memory_of_agents ::= <[id := a]> |>.

Definition set_conn (id : nat) (f : C -> C) : M unit :=
  let* a := get_agent id in modify (put_agent id (Some (a <| ca_conn ::= f |>))).

(** An agent's function runs on its state. *)
Definition on_agent {Y} (id : nat) (x : A Y) : M Y := fun m =>
  match get_agent id m with
  | None => None
  | Some (a, _) =>
    match x (mkMachine (ca_agent a) (asked m) []) with
    | None => None
    | Some (r, p) =>
      Some (r, mkMachine (put_agent id (Some (a <| ca_agent := memory p |>)) (registry m))
                 (asked p) ((FromAgent id <$> events p) ++ events m))
    end
  end.

(** ** The registry *)

(** What [acquire_registry] makes: a registry without agents. *)
Definition new_registry (l : list (option (conn_agent C))) : conn_registry C R :=
  mkRegistry (replicate (Z.to_nat INITIAL_REGISTRY_SIZE) None) 0 registry_init_func l.

(** The registry is destroyed when nobody uses it; the next that is acquired is a
    new one. *)
Definition can_release (r : conn_registry C R) : bool := (agents_count r =? 0) && can_release_registry_func (reg_impl r).

Definition release_registry : M unit :=
  let* r := gets id in
  if can_release r then modify (fun r => new_registry (memory_of_agents r)) else ret tt.

Context `{Platform, Scan, Resolver, Hashes, AgentEnvironment}.

Definition conn_interrupt (agent : nat) : M unit :=
  let* now := ask now_ms in set_conn agent (interrupt_func now).

(** ** Agents come and go *)

(** The first free slot, or the size. *)
Fixpoint free_slot (l : list (option nat)) : nat :=
  match l with
  | Some _ :: l' => S (free_slot l')
  | _ => 0%nat
  end.

(** The array of agents is doubled. *)
Definition grow_agents (r : conn_registry C R) : conn_registry C R :=
  r <| reg_agents ::= fun l => l ++ replicate (length l) None |>.

(** An agent is put into slot [i]. *)
Definition place_agent (i : nat) (a : juice_agent) (conn : C) (r : conn_registry C R) : conn_registry C R :=
  r <| reg_agents ::= <[i := Some (length (memory_of_agents r))]> |> <| agents_count ::= Z.succ |>
    <| memory_of_agents ::= fun l => l ++ [Some (mkConnAgent a conn i)] |>.

(** The agent's slot is free again, and its memory gone. *)
Definition remove_agent (id : nat) (a : conn_agent C) (r : conn_registry C R) : conn_registry C R :=
  put_agent id None (r <| reg_agents ::= <[ca_conn_index a := None]> |> <| agents_count ::= Z.pred |>).

(** [acquired]: a registry could be made, should there be none; [reallocated]:
    the array of agents could be doubled, should it be full; [sock]: what
    [init_func] created, unless it failed. *)
Definition conn_create (acquired reallocated : bool) (sock : option Z) (a : juice_agent) : M Z :=
  let* r := gets id in
  if can_release r && negb acquired then ret (-1)
  else
    let i := free_slot (reg_agents r) in
    let full := (i =? length (reg_agents r))%nat in
    if full && negb reallocated then ret (-1)
    else
      (if full then modify grow_agents else ret tt) ;;
      match sock with
      | None => release_registry ;; ret (-1)
      | Some sock =>
        let new := length (memory_of_agents r) in
        modify (place_agent i a (init_func sock)) ;;
        conn_interrupt new ;;
        ret 0
      end.

(** After [conn_destroy] the agent is freed. *)
Definition conn_destroy (agent : nat) : M unit :=
  let* a := get_agent agent in
  let* r := gets id in
  let* impl := defined (cleanup_func agent (reg_impl r)) in
  if negb (bool_decide (reg_agents r !! ca_conn_index a = Some (Some agent))) || (agents_count r <=? 0) then undefined
  else
    modify (fun r => remove_agent agent a (r <| reg_impl := impl |>)) ;;
    release_registry.

(** ** Calls *)
Inductive conn_op : Type :=
| Create (acquired reallocated : bool) (sock : option Z) (a : juice_agent)
| Destroy (agent : nat)
| Interrupt (agent : nat)
| Call (agent : nat) (op : agent_op).

(** The application calls only agents that exist. *)
Definition exists_agent (id : nat) (x : M unit) : M unit :=
  let* l := gets memory_of_agents in
  if bool_decide (is_Some (mjoin (l !! id))) then x else ret tt.

Definition conn_step (op : conn_op) : M unit :=
  match op with
  | Create acquired reallocated sock a => conn_create acquired reallocated sock a ;; ret tt
  | Destroy id => exists_agent id (conn_destroy id)
  | Interrupt id => exists_agent id (conn_interrupt id)
  | Call id op => exists_agent id (on_agent id (agent_step op))
  end.

Definition conn_start : process (conn_registry C R) (conn_event X) := mkMachine (new_registry []) 0 [].
End Conn.
