(* ===== verification/ConnInv.v ===== *)
(** * Registries: slots and agents stay together, in every concurrency mode

    Every agent that exists is registered in its slot and keeps its own
    invariant, every slot points to an agent that exists.  [ConnModeLaws] is what
    a mode has to show of its own part; the steps of conn.c keep both. *)

From S2P Require Import Prelude Machine CStdio Addr StunMsg StunWriteCorrect StunRead StunReceived Turn TurnTable Ice ServerHandlers.
From S2P Require Import AgentState Agent AgentStep AgentApi AgentInv AgentTurn AgentSend AgentBinding AgentInput AgentAct AgentOps AgentCorrect.
From S2P Require Import Conn.
From stdpp Require Import list.
#[local] Open Scope Z_scope.
#[local] Open Scope machine_scope.

(** ** Slots *)
Definition taken (slot : option nat) : bool := match slot with Some _ => true | None => false end.
Definition users (l : list (option nat)) : Z := lenZ (List.filter taken l).

Lemma users_app l l' : users (l ++ l') = users l + users l'.
Proof. unfold users. by rewrite List.filter_app, lenZ_app. Qed.

Lemma users_cons s l : users (s :: l) = (if taken s then 1 else 0) + users l.
Proof. unfold users. cbn [List.filter]. destruct (taken s); [by rewrite lenZ_cons|done]. Qed.

Lemma users_insert l i s s' : l !! i = Some s ->
  users (<[i := s']> l) = users l - (if taken s then 1 else 0) + (if taken s' then 1 else 0).
Proof.
  intros Hi. pose proof (lookup_lt_Some _ _ _ Hi). rewrite insert_take_drop by done. rewrite <- (take_drop_middle l i s Hi) at 3.
  rewrite !users_app, !users_cons. lia.
Qed.

Lemma users_nonneg l : 0 <= users l.
Proof. apply lenZ_nonneg. Qed.

Lemma users_pos l i id : l !! i = Some (Some id) -> 0 < users l.
Proof.
  intros Hi. rewrite <- (take_drop_middle l i _ Hi), users_app, users_cons. cbn [taken].
  pose proof (users_nonneg (take i l)). pose proof (users_nonneg (drop (S i) l)). lia.
Qed.

Lemma users_none n : users (replicate n None) = 0.
Proof. induction n as [|n IH]; [done|]. cbn [replicate]. by rewrite users_cons, IH. Qed.

(** The slots [conn_create] chooses from. *)
Lemma free_slot_spec l : (free_slot l < length l)%nat /\ l !! free_slot l = Some None \/ free_slot l = length l.
Proof.
  induction l as [|[id|] l IH]; cbn [free_slot length]; [by right| |left; split; [lia|done]].
  destruct IH as [[Hl He]|He]; [left; split; [lia|done]|right; lia].
Qed.

Lemma free_slot_grown l : l <> [] ->
  (if (free_slot l =? length l)%nat then l ++ replicate (length l) None else l) !! free_slot l = Some None.
Proof.
  intros Hl. destruct (free_slot_spec l) as [[Hlt He]|He].
  - by rewrite (proj2 (Nat.eqb_neq _ _)) by lia.
  - rewrite He, Nat.eqb_refl. rewrite lookup_app_r by done.
    apply lookup_replicate. split; [done|]. destruct l; [done|]. cbn [length]. lia.
Qed.

(** ** Datagrams *)
Section Datagrams.
Context `{Platform, Scan, Resolver, Hashes, !AgentEnvironment, !AgentLaws}.

(** What the socket can deliver. *)
Definition datagram_ok (d : list Z * addr_record) : Prop :=
  bytes_ok (fst d) /\ lenZ (fst d) <= BUFFER_SIZE /\ record_wf (snd d) /\ inet (snd d).

Lemma unmapped_inet r : inet r -> inet (unmapped r).
Proof.
  unfold inet, unmapped, addr_unmap_inet6_v4mapped. intros Hi g. destruct (addr r) as [p a|p a|f] eqn:E; cbn; rewrite ?E; try done.
  destruct (IN6_IS_ADDR_V4MAPPED a); cbn; by rewrite ?E.
Qed.

Lemma conn_recv_unmapped payload src : conn_recv payload src = if lenZ payload =? 0 then None else Some (unmapped src).
Proof. unfold conn_recv, unmapped. case_test; [done|]. by destruct (addr_unmap_inet6_v4mapped _ _) as [[sa l] u]. Qed.

Lemma received_datagram payload src k : datagram_ok (payload, src) ->
  datagram (received_in payload (buffer_of k)) (lenZ payload) /\ record_wf (unmapped src) /\ inet (unmapped src).
Proof.
  intros (Hb & Hl & Hwf & Hi). cbn [fst snd] in *. destruct (buffer_bytes k) as [_ Hbb]. split; [|split; [by apply unmapped_wf|by apply unmapped_inet]].
  unfold received_in. split; [by apply Forall_app_2, Forall_drop|]. rewrite lenZ_app. pose proof (lenZ_nonneg payload).
  pose proof (lenZ_nonneg (drop (length payload) (buffer_of k))). lia.
Qed.

End Datagrams.

Section Inv.
Context {C R X : Type} `{!ConnMode C R}.

(** ** The invariant *)
Definition agent_at (r : conn_registry C R) (id : nat) (a : conn_agent C) : Prop := memory_of_agents r !! id = Some (Some a).
Definition connected (a : juice_agent) : Prop := conn_created a = true /\ running (a_state a).

Lemma mjoin_at (r : conn_registry C R) id a : mjoin (memory_of_agents r !! id) = Some a <-> agent_at r id a.
Proof. unfold agent_at. destruct (memory_of_agents r !! id) as [[b|]|]; cbn; split; congruence. Qed.

(** What holds of the slots, whatever the agents do. *)
Record slots_ok (r : conn_registry C R) : Prop := {
  so_slots : forall i id, reg_agents r !! i = Some (Some id) -> exists a, agent_at r id a /\ ca_conn_index a = i;
  so_registered : forall id a, agent_at r id a -> reg_agents r !! ca_conn_index a = Some (Some id);
  so_count : agents_count r = users (reg_agents r) /\ reg_agents r <> []
}.

(** The part of a mode.  [n] is what is allowed to have arrived; [conn_keeps] how
    a [conn_impl] changes while its agent exists. *)
Class ConnModeLaws : Type := {
  mode_inv : Z -> conn_registry C R -> Prop;
  conn_keeps : C -> C -> Prop;
  keeps_refl c : conn_keeps c c;
  keeps_interrupt now c : conn_keeps c (interrupt_func now c);
  mode_more n n' r : mode_inv n r -> n <= n' -> mode_inv n' r;
  mode_new n l : 0 <= n -> (forall id, mjoin (l !! id) = None) -> mode_inv n (new_registry l);
  mode_put n r id a a' : mode_inv n r -> agent_at r id a -> ca_conn_index a' = ca_conn_index a -> conn_keeps (ca_conn a) (ca_conn a') ->
    mode_inv n (put_agent id (Some a') r);
  mode_grow n r : mode_inv n r -> slots_ok r -> mode_inv n (grow_agents r);
  mode_place n r i new sock : mode_inv n r -> reg_agents r !! i = Some None -> 0 <= sock -> mode_inv n (place_agent i new (init_func sock) r);
  mode_remove n r id a : mode_inv n r -> slots_ok r -> agent_at r id a ->
    exists impl, cleanup_func id (reg_impl r) = Some impl /\ mode_inv n (remove_agent id a (r <| reg_impl := impl |>))
}.

(** *** Slots under the changes of conn.c *)
Lemma put_at r id a a' id' b : agent_at r id a ->
  agent_at (put_agent id (Some a') r) id' b <-> if decide (id' = id) then b = a' else agent_at r id' b.
Proof.
  intros Ha. pose proof (lookup_lt_Some _ _ _ Ha) as Hlt. unfold agent_at, put_agent. cbn. destruct (decide (id' = id)) as [->|Hne].
  - rewrite list_lookup_insert_eq by done. split; [by intros [= ->]|by intros ->].
  - by rewrite list_lookup_insert_ne by done.
Qed.

Lemma slots_put r id a a' : slots_ok r -> agent_at r id a -> ca_conn_index a' = ca_conn_index a -> slots_ok (put_agent id (Some a') r).
Proof.
  intros Hr Ha Hix. split; [| |apply (so_count _ Hr)].
  - intros i id' Hs. destruct (so_slots _ Hr i id' Hs) as (b & Hb & <-). destruct (decide (id' = id)) as [->|Hne].
    + exists a'. rewrite (put_at r id a), decide_True by done. split; [done|]. unfold agent_at in *. congruence.
    + exists b. by rewrite (put_at r id a), decide_False.
  - intros id' b Hb. apply (put_at r id a) in Hb; [|done]. change (reg_agents (put_agent _ _ r)) with (reg_agents r).
    destruct (decide (id' = id)) as [->|]; [subst b; rewrite Hix|]; by apply (so_registered _ Hr).
Qed.

Lemma slots_new (l : list (option (conn_agent C))) : (forall id, mjoin (l !! id) = None) -> slots_ok (new_registry l).
Proof.
  intros Hl. split; [| |done].
  - intros i id Hi. by apply lookup_replicate in Hi as [? _].
  - intros id a Ha. specialize (Hl id). unfold agent_at in Ha. cbn in Ha. by rewrite Ha in Hl.
Qed.

Lemma slots_grow r : slots_ok r -> slots_ok (grow_agents r).
Proof.
  intros Hr. destruct (so_count _ Hr) as [Hc Hne]. split.
  - intros i id Hi. cbn in Hi. apply lookup_app_Some in Hi as [Hi|[_ Hi]]; [by apply (so_slots _ Hr)|by apply lookup_replicate in Hi as [? _]].
  - intros id a Ha. cbn. apply lookup_app_l_Some. by apply (so_registered _ Hr).
  - cbn. rewrite users_app, users_none. split; [change (agents_count r = users (reg_agents r) + 0); lia|]. by destruct (reg_agents r).
Qed.

Lemma place_at r i new conn id b :
  agent_at (place_agent i new conn r) id b <-> agent_at r id b \/ (id = length (memory_of_agents r) /\ b = mkConnAgent new conn i).
Proof.
  unfold agent_at, place_agent. cbn. rewrite lookup_app_Some, list_lookup_singleton_Some. split.
  - intros [Hb|(Hl & Hid & [= ->])]; [by left|right]. split; [lia|done].
  - intros [Hb|[-> ->]]; [by left|right]. split; [lia|]. split; [lia|done].
Qed.

Lemma slots_place r i new conn : slots_ok r -> reg_agents r !! i = Some None -> slots_ok (place_agent i new conn r).
Proof.
  intros Hr Hfree. destruct (so_count _ Hr) as [Hc Hne]. pose proof (lookup_lt_Some _ _ _ Hfree) as Hlt. split.
  - intros j id Hj. cbn in Hj. apply list_lookup_insert_Some in Hj as [(<- & [= <-] & _)|[Hij Hj]].
    + eexists. split; [apply place_at; by right|done].
    + destruct (so_slots _ Hr j id Hj) as (b & Hb & E). exists b. split; [apply place_at; by left|done].
  - intros id b Hb. apply place_at in Hb as [Hb|[-> ->]]; cbn; [|by apply list_lookup_insert_eq].
    pose proof (so_registered _ Hr id b Hb). rewrite list_lookup_insert_ne by congruence. done.
  - cbn. rewrite (users_insert _ _ None) by done. split; [cbn; change (Z.succ (agents_count r) = users (reg_agents r) - 0 + 1); lia|].
    intros E. apply (f_equal length) in E. rewrite length_insert in E. cbn in E. lia.
Qed.

Lemma remove_at r id a id' b : agent_at r id a -> agent_at (remove_agent id a r) id' b <-> agent_at r id' b /\ id' <> id.
Proof.
  intros Ha. unfold agent_at, remove_agent, put_agent. cbn. destruct (decide (id' = id)) as [->|Hd].
  - rewrite list_lookup_insert_eq by (by eapply lookup_lt_Some). split; [done|]. by intros [_ ?].
  - rewrite list_lookup_insert_ne by done. split; [done|]. by intros [? _].
Qed.

Lemma slots_remove r id a : slots_ok r -> agent_at r id a -> slots_ok (remove_agent id a r).
Proof.
  intros Hr Ha. pose proof (so_registered _ Hr id a Ha) as Hslot. destruct (so_count _ Hr) as [Hc Hne]. set (i := ca_conn_index a) in *.
  assert (Hslots : forall j id', reg_agents (remove_agent id a r) !! j = Some (Some id') <-> reg_agents r !! j = Some (Some id') /\ j <> i).
  { intros j id'. cbn. rewrite list_lookup_insert_Some. split; [by intros [(_ & ? & _)|[? ?]]|]. intros [? ?]. by right. }
  split.
  - intros j id' Hj. apply Hslots in Hj as [Hj Hji]. destruct (so_slots _ Hr j id' Hj) as (b & Hb & Ei). exists b. split; [|done].
    apply remove_at; [done|]. split; [done|]. intros ->. apply Hji. unfold agent_at in *. assert (b = a) as -> by congruence. done.
  - intros id' b Hb. apply remove_at in Hb as [Hb Hd]; [|done]. apply Hslots. pose proof (so_registered _ Hr id' b Hb) as Hj. split; [done|]. intros Ei. congruence.
  - cbn. rewrite (users_insert _ _ (Some id)) by done. split; [cbn; change (Z.pred (agents_count r) = users (reg_agents r) - 1 + 0); lia|].
    intros El. apply (f_equal length) in El. rewrite length_insert in El. destruct (reg_agents r); [done|]. cbn in El. lia.
Qed.

(** *** The whole *)
Section Mode.
Context `{Platform, Scan, Resolver, Hashes, !AgentEnvironment, !AgentLaws, !ConnModeLaws}.

Record conn_inv (n : Z) (r : conn_registry C R) : Prop := {
  ci_slots : slots_ok r;
  ci_agents : forall id a, agent_at r id a -> inv None (ca_agent a) /\ connected (ca_agent a);
  ci_mode : mode_inv n r
}.

Lemma inv_more n n' r : conn_inv n r -> n <= n' -> conn_inv n' r.
Proof. intros [Hs Ha Hm] Hn. split; [done|done|]. by apply (mode_more n). Qed.

(** The mode changes its own part. *)
Lemma impl_inv n n' r i : conn_inv n r -> mode_inv n' (r <| reg_impl := i |>) -> conn_inv n' (r <| reg_impl := i |>).
Proof. intros [Hs Ha _] Hm. split; [by destruct Hs|done|done]. Qed.

Lemma put_agent_inv n r id a a' : conn_inv n r -> agent_at r id a -> ca_conn_index a' = ca_conn_index a -> conn_keeps (ca_conn a) (ca_conn a') ->
  inv None (ca_agent a') -> connected (ca_agent a') -> conn_inv n (put_agent id (Some a') r).
Proof.
  intros [Hs Hag Hm] Ha Hix Hk Hi Hc. split; [by apply (slots_put r id a)| |by apply (mode_put n r id a)].
  intros id' b Hb. apply (put_at r id a) in Hb; [|done]. destruct (decide (id' = id)); [by subst b|by apply (Hag id')].
Qed.

(** ** Parts of a step *)
Abbreviation machine := (process (conn_registry C R) (conn_event X)).

(** The registry keeps its slots. *)
Definition stays (n : Z) (m m' : machine) : Prop := conn_inv n (memory m') /\ reg_agents (memory m') = reg_agents (memory m).

Lemma stays_refl n (m : machine) : conn_inv n (memory m) -> stays n m m.
Proof. by split. Qed.

Lemma stays_trans n1 n2 (m1 m2 m3 : machine) : stays n1 m1 m2 -> stays n2 m2 m3 -> stays n2 m1 m3.
Proof. intros [_ E1] [I2 E2]. split; [done|congruence]. Qed.

Lemma stays_more n n' (m m' : machine) : stays n m m' -> n <= n' -> stays n' m m'.
Proof. intros [Hr E] Hn. split; [by apply (inv_more n)|done]. Qed.

(** A slot that is in use stays so. *)
Lemma stays_slot n (m m' : machine) i id : stays n m m' -> reg_agents (memory m) !! i = Some (Some id) -> exists a, agent_at (memory m') id a.
Proof. intros [Hr E] Hi. destruct (so_slots _ (ci_slots _ _ Hr) i id) as (a & Ha & _); [by rewrite E|by exists a]. Qed.

Lemma stays_agent n n' (m m' : machine) id a : conn_inv n (memory m) -> agent_at (memory m) id a -> stays n' m m' -> exists a', agent_at (memory m') id a'.
Proof. intros Hr Ha Hm. eapply stays_slot; [exact Hm|]. apply (so_registered _ (ci_slots _ _ Hr) id a Ha). Qed.

Lemma registered n (m : machine) id : conn_inv n (memory m) -> Some id ∈ reg_agents (memory m) ->
  exists i, reg_agents (memory m) !! i = Some (Some id).
Proof. intros _ Hin. apply list_elem_of_lookup in Hin as [i Hi]. by exists i. Qed.

Lemma get_agent_at id a (m : machine) : agent_at (memory m) id a -> get_agent id m = Some (a, m).
Proof. intros Ha. unfold get_agent, bind, gets, defined. by rewrite Ha. Qed.

Lemma get_agent_spec id a (m : machine) Q : agent_at (memory m) id a -> Q a m -> spec (get_agent id) m Q.
Proof. intros Ha HQ. unfold spec. by rewrite (get_agent_at id a). Qed.

Lemma set_conn_spec n id a f (m : machine) : conn_inv n (memory m) -> agent_at (memory m) id a -> conn_keeps (ca_conn a) (f (ca_conn a)) ->
  spec (set_conn id f) m (fun _ m' => stays n m m').
Proof.
  intros Hr Ha Hk. unfold set_conn. apply spec_bind. apply (get_agent_spec id a); [done|]. apply spec_modify.
  split; [|done]. destruct (ci_agents _ _ Hr id a Ha). by apply (put_agent_inv n _ id a).
Qed.

Lemma set_conn_run id a f (m : machine) : agent_at (memory m) id a ->
  set_conn id f m = Some (tt, mkMachine (put_agent id (Some (a <| ca_conn ::= f |>)) (memory m)) (asked m) (events m)).
Proof. intros Ha. unfold set_conn, bind. by rewrite (get_agent_at id a). Qed.

(** The agent's function runs in its own machine. *)
Definition own_machine (a : conn_agent C) (m : machine) : amachine := mkMachine (ca_agent a) (asked m) [].

Lemma on_agent_run {Y} id a (x : A Y) (m : machine) r p : agent_at (memory m) id a -> x (own_machine a m) = Some (r, p) ->
  on_agent id x m = Some (r, mkMachine (put_agent id (Some (a <| ca_agent := agent p |>)) (memory m)) (asked p) ((FromAgent id <$> events p) ++ events m)).
Proof. intros Ha Hx. unfold on_agent. rewrite (get_agent_at id a) by done. fold (own_machine a m). by rewrite Hx. Qed.

Lemma on_agent_spec n {Y} id a (x : A Y) (m : machine) : conn_inv n (memory m) -> agent_at (memory m) id a ->
  (inv None (ca_agent a) -> alive (own_machine a m) -> spec x (own_machine a m) (fun _ p => steps_ok (own_machine a m) p)) ->
  spec (on_agent id x) m (fun _ m' => stays n m m').
Proof.
  intros Hr Ha Hx. destruct (ci_agents _ _ Hr id a Ha) as [Hi Hc]. specialize (Hx Hi Hc). unfold on_agent, spec in *.
  rewrite (get_agent_at id a) by done. fold (own_machine a m). destruct (x (own_machine a m)) as [[v p]|]; [|done]. destruct Hx as [Hk Hp].
  assert (Hcr : conn_created (agent p) = true) by (apply (kp_created _ _ Hk); apply Hc).
  split; [|done]. apply (put_agent_inv n _ id a); try done; [apply keeps_refl|apply Hk|]. split; [done|]. unfold phase in Hp. by rewrite Hcr in Hp.
Qed.

Lemma on_agent_good n {Y} id a (x : A Y) (m : machine) : conn_inv n (memory m) -> agent_at (memory m) id a ->
  (forall p, inv None (agent p) -> alive p -> spec x p (fun _ p' => good None p p')) ->
  spec (on_agent id x) m (fun _ m' => stays n m m').
Proof.
  intros Hr Ha Hx. apply (on_agent_spec n id a); [done..|]. intros Hi Hc.
  eapply spec_mono; [by apply Hx|]; cbn beta. intros ? p Hg. apply good_ok; [done|]. unfold phase. destruct Hc as [-> ?]. done.
Qed.

(** ** The steps of conn.c *)
Lemma release_spec n (m : machine) : conn_inv n (memory m) -> 0 <= n -> spec release_registry m (fun _ m' => conn_inv n (memory m')).
Proof.
  intros Hr Hn. unfold release_registry. apply spec_bind, spec_gets. case_test; [|by apply spec_ret]. apply spec_modify. change (id (memory m)) with (memory m) in E.
  assert (Hl : forall id, mjoin (memory_of_agents (memory m) !! id) = None).
  { intros id. destruct (mjoin (memory_of_agents (memory m) !! id)) as [a|] eqn:Ea; [|done]. apply mjoin_at in Ea.
    pose proof (users_pos _ _ _ (so_registered _ (ci_slots _ _ Hr) id a Ea)). destruct (so_count _ (ci_slots _ _ Hr)) as [Hu _].
    unfold can_release in E. zify_bool. lia. }
  split; [by apply slots_new| |by apply mode_new]. intros id a Ha. specialize (Hl id). apply mjoin_at in Ha. cbn in Ha. congruence.
Qed.

Lemma conn_interrupt_spec n id a (m : machine) : conn_inv n (memory m) -> agent_at (memory m) id a ->
  spec (conn_interrupt id) m (fun _ m' => stays n m m').
Proof.
  intros Hr Ha. unfold conn_interrupt. apply spec_bind, spec_ask.
  eapply spec_mono; [apply (set_conn_spec n id a); [done|done|apply keeps_interrupt]|]; cbn beta. by intros ? m'.
Qed.

(** A socket that was created. *)
Definition socket_ok (sock : option Z) : Prop := match sock with Some sock => 0 <= sock | None => True end.

Lemma conn_create_spec n acquired reallocated sock new (m : machine) : conn_inv n (memory m) -> 0 <= n -> inv None new -> connected new -> socket_ok sock ->
  spec (conn_create acquired reallocated sock new) m (fun _ m' => conn_inv n (memory m')).
Proof.
  intros Hr Hn Hi Hc Hsock. unfold conn_create. apply spec_bind, spec_gets. change (id (memory m)) with (memory m). cbv zeta.
  case_test; [by apply spec_ret|]. case_test; [by apply spec_ret|]. pose proof (ci_slots _ _ Hr) as Hs. destruct (so_count _ Hs) as [_ Hne].
  set (i := free_slot (reg_agents (memory m))). apply spec_bind.
  apply (spec_mono _ _ (fun _ m1 => conn_inv n (memory m1) /\ reg_agents (memory m1) !! i = Some None /\
    length (memory_of_agents (memory m1)) = length (memory_of_agents (memory m)))).
  { pose proof (free_slot_grown (reg_agents (memory m)) Hne) as Hfree. fold i in Hfree.
    destruct (i =? length (reg_agents (memory m)))%nat; [apply spec_modify|by apply spec_ret].
    split; [|by split]. split; [by apply slots_grow|apply (ci_agents _ _ Hr)|apply mode_grow; apply Hr]. }
  intros ? m1 (Hr1 & Hfree & Hl). destruct sock as [sock|].
  - apply spec_bind, spec_modify. rewrite <- Hl. apply spec_bind.
    assert (Hp : conn_inv n (place_agent i new (init_func sock) (memory m1))).
    { split; [apply slots_place; [apply Hr1|done]| |by apply mode_place; [apply Hr1| |]].
      intros id b Hb. apply place_at in Hb as [Hb|[-> ->]]; [by apply (ci_agents _ _ Hr1 id)|done]. }
    eapply spec_mono; [eapply (conn_interrupt_spec n); [exact Hp|apply place_at; by right]|]; cbn beta. intros ? m2 [Hr2 _]. by apply spec_ret.
  - apply spec_bind. eapply spec_mono; [by apply (release_spec n)|]; cbn beta. intros ? m2 Hr2. by apply spec_ret.
Qed.

Lemma conn_destroy_spec n id a (m : machine) : conn_inv n (memory m) -> 0 <= n -> agent_at (memory m) id a ->
  spec (conn_destroy id) m (fun _ m' => conn_inv n (memory m')).
Proof.
  intros Hr Hn Ha. unfold conn_destroy. apply spec_bind. apply (get_agent_spec id a); [done|]. apply spec_bind, spec_gets.
  change (Datatypes.id (memory m)) with (memory m). pose proof (ci_slots _ _ Hr) as Hs.
  destruct (mode_remove n _ id a (ci_mode _ _ Hr) Hs Ha) as (impl & E & Hm). apply spec_bind. eapply spec_defined; [exact E|]. cbn beta.
  pose proof (so_registered _ Hs id a Ha) as Hslot. destruct (so_count _ Hs) as [Hcount _]. pose proof (users_pos _ _ _ Hslot).
  rewrite bool_decide_true by done. rewrite (proj2 (Z.leb_gt _ _)) by lia. cbn [negb orb].
  apply spec_bind, spec_modify. apply release_spec; [|done]. cbn [memory].
  assert (Hs' : slots_ok (memory m <| reg_impl := impl |>)) by (by destruct Hs).
  split; [by apply slots_remove| |done]. intros id' b Hb. apply (remove_at (memory m <| reg_impl := impl |>)) in Hb as [Hb _]; [|done]. by apply (ci_agents _ _ Hr id').
Qed.

(** An agent has a connection and keeps its invariant when it is registered.
    The invariant contains that STUN and TURN servers are not configured together
    ([config_ok]), unless sockets are shared, when TURN servers are not used: agent.c
    does not check it, and the array of entries can overflow with both. *)
Definition conn_op_ok (op : conn_op) : Prop :=
  match op with
  | Create _ _ sock a => inv None a /\ connected a /\ socket_ok sock
  | Call _ op => forall c, adds_server op = false -> op_ok c op
  | _ => True
  end.

Lemma exists_agent_spec n id (x : prog (conn_registry C R) (conn_event X) unit) (m : machine) : conn_inv n (memory m) ->
  (forall a, agent_at (memory m) id a -> spec x m (fun _ m' => conn_inv n (memory m'))) ->
  spec (exists_agent id x) m (fun _ m' => conn_inv n (memory m')).
Proof.
  intros Hr Hx. unfold exists_agent. apply spec_bind, spec_gets. case_test; [|by apply spec_ret].
  apply bool_decide_eq_true in E as [a Ha]. by apply (Hx a), mjoin_at.
Qed.

Lemma conn_step_spec n op (m : machine) : conn_inv n (memory m) -> 0 <= n -> conn_op_ok op ->
  spec (conn_step op) m (fun _ m' => conn_inv n (memory m')).
Proof.
  intros Hr Hn Hop. destruct op as [acquired reallocated sock a|id|id|id op]; cbn [conn_op_ok conn_step] in *.
  - destruct Hop as (? & ? & ?). apply spec_bind. eapply spec_mono; [by apply (conn_create_spec n)|]; cbn beta. intros ? m1 Hr1. by apply spec_ret.
  - apply exists_agent_spec; [done|]. intros a Ha. by apply (conn_destroy_spec n id a).
  - apply exists_agent_spec; [done|]. intros a Ha. eapply spec_mono; [by apply (conn_interrupt_spec n id a)|]; cbn beta. by intros ? m1 [? _].
  - apply exists_agent_spec; [done|]. intros a Ha. eapply spec_mono; [apply (on_agent_spec n id a); [done..|]|]; cbn beta.
    + intros Hi Hc. apply connected_step_spec; [done..|]. by apply Hop.
    + by intros ? m1 [? _].
Qed.

Lemma conn_start_inv : conn_inv 0 (memory (conn_start : machine)).
Proof. split; [by apply slots_new| |by apply mode_new]. by intros id a Ha. Qed.
End Mode.
End Inv.
Arguments ConnModeLaws C R {ConnMode0}.
