(* ===== verification/ConnMux.v ===== *)
(** * conn_mux.c: many agents behind one socket

    The hash map from the addresses of peers to agents and the demultiplexing of
    what arrives, as a mode of the registry of Conn.v.  The thread appears as the
    calls it makes; each is made with the registry locked. *)

From S2P Require Import Prelude Machine CStdio Addr.
From S2P Require Import StunMsg StunWrite StunRead Turn Ice AgentState Agent AgentStep AgentApi Conn.

#[local] Open Scope machine_scope.

(** ** Data *)
Definition INITIAL_MAP_SIZE : Z := 16.

Inductive map_entry_type : Type := MAP_ENTRY_TYPE_EMPTY | MAP_ENTRY_TYPE_DELETED | MAP_ENTRY_TYPE_FULL.

#[export] Instance map_entry_type_eq_dec : EqDecision map_entry_type.
Proof. solve_decision. Defined.

Record map_entry := mkMapEntry { me_type : map_entry_type; me_agent : option nat; me_record : addr_record }.

(** The map of [registry_impl]; its size is the length. *)
Record agent_map := mkMap { map_entries : list map_entry; map_count : Z }.

Record conn_impl := mkConn { conn_next_timestamp : Z; conn_finished : bool }.

(** The state that the mode adds to the registry. *)
Record registry_impl := mkImpl { impl_map : agent_map; cb_mux_incoming : bool }.

#[export] Instance map_entry_expand : Expand map_entry := fun e => mkMapEntry (me_type e) (me_agent e) (me_record e).
#[export] Instance agent_map_expand : Expand agent_map := fun m => mkMap (map_entries m) (map_count m).
#[export] Instance conn_impl_expand : Expand conn_impl := fun c => mkConn (conn_next_timestamp c) (conn_finished c).
#[export] Instance registry_impl_expand : Expand registry_impl := fun i => mkImpl (impl_map i) (cb_mux_incoming i).

Definition map_entry_zero : map_entry := mkMapEntry MAP_ENTRY_TYPE_EMPTY None addr_record_zero.
Definition map_size (m : agent_map) : Z := lenZ (map_entries m).
Definition is_mtype (t : map_entry_type) (e : map_entry) : bool := bool_decide (me_type e = t).

Definition map_init : agent_map := mkMap (replicate (Z.to_nat INITIAL_MAP_SIZE) map_entry_zero) 0.

(** ** Calls that call themselves

    How a call ends that is followed to some depth: it leaves the language, it
    has not returned yet, or it returns. *)
Inductive call (A : Type) : Type :=
| Undefined
| Unreturned
| Returns (a : A).
Arguments Undefined {A}.
Arguments Unreturned {A}.
Arguments Returns {A} a.

Definition call_bind {A B} (m : call A) (f : A -> call B) : call B :=
  match m with
  | Undefined => Undefined
  | Unreturned => Unreturned
  | Returns a => f a
  end.

Notation "'let&' x := m 'in' k" := (call_bind m (fun x => k))
  (at level 10, x pattern, m at level 100, k at level 200) : c_scope.

(** A memory access. *)
Definition call_access {A} (o : option A) : call A := match o with Some a => Returns a | None => Undefined end.

(** What a caller has that goes on after the call. *)
Definition returned {A} (m : call A) : option A := match m with Returns a => Some a | _ => None end.

(** ** The map *)
Section Map.
Context `{Platform}.

(** The loop of [find_map_entry] from [pos], until it is back at [key]. *)
Fixpoint find_map_entry_loop (fuel : nat) (l : list map_entry) (record : addr_record) (allow_deleted : bool) (key pos : Z)
    : option (option nat) :=
  match fuel with
  | O => None
  | S fuel' =>
    let? e := l !! Z.to_nat pos in
    if is_mtype MAP_ENTRY_TYPE_EMPTY e || addr_record_is_equal (me_record e) record true ||
       (is_mtype MAP_ENTRY_TYPE_DELETED e && allow_deleted)
    then Some (Some (Z.to_nat pos))
    else
      let pos := u32 (pos + 1) `mod` lenZ l in
      if pos =? key then Some None else find_map_entry_loop fuel' l record allow_deleted key pos
  end.

(** [Some None] is NULL. *)
Definition find_map_entry (m : agent_map) (record : addr_record) (allow_deleted : bool) : option (option nat) :=
  if map_size m =? 0 then None
  else
    let key := addr_record_hash record false `mod` map_size m in
    find_map_entry_loop (length (map_entries m)) (map_entries m) record allow_deleted key key.

(** [calloc] of so many entries succeeds. *)
Variable map_fits : Z -> bool.

(** [grow_map], with the function that inserts. *)
Definition grow_map (insert : agent_map -> addr_record -> option nat -> call agent_map) (m : agent_map) (new_size : Z)
    : call agent_map :=
  if new_size <=? map_size m then Returns m
  else if negb (map_fits new_size) then Returns m
  else
    foldl (fun m e => let& m := m in
                      if is_mtype MAP_ENTRY_TYPE_FULL e then insert m (me_record e) (me_agent e) else Returns m)
      (Returns (mkMap (replicate (Z.to_nat new_size) map_entry_zero) 0)) (map_entries m).

Definition put_map_entry (m : agent_map) (i : nat) (record : addr_record) (agent : option nat) : agent_map :=
  m <| map_entries ::= <[i := mkMapEntry MAP_ENTRY_TYPE_FULL agent record]> |>.

(** The depth to which the calls are followed decreases. *)
Fixpoint insert_map_entry (depth : nat) (m : agent_map) (record : addr_record) (agent : option nat) : call agent_map :=
  match depth with
  | O => Unreturned
  | S depth' =>
    let& i := call_access (find_map_entry m record true) in
    let grow := let& m := grow_map (insert_map_entry depth') m (map_size m * 2) in insert_map_entry depth' m record agent in
    match i with
    | None => grow
    | Some i =>
      let& e := call_access (map_entries m !! i) in
      if is_mtype MAP_ENTRY_TYPE_FULL e then Returns (put_map_entry m i record agent)
      else if map_size m <=? map_count m * 2 then grow
      else Returns (put_map_entry m i record agent <| map_count ::= Z.succ |>)
    end
  end.

Definition points_to (agent : nat) (e : map_entry) : bool :=
  is_mtype MAP_ENTRY_TYPE_FULL e && bool_decide (me_agent e = Some agent).

Definition remove_map_entries (m : agent_map) (agent : nat) : option agent_map :=
  let count := lenZ (filter (fun e => points_to agent e = true) (map_entries m)) in
  if map_count m <? count then None
  else Some (mkMap ((fun e => if points_to agent e then e <| me_type := MAP_ENTRY_TYPE_DELETED |> <| me_agent := None |> else e)
                    <$> map_entries m) (map_count m - count)).
End Map.

(** ** The machine *)
Inductive mux_report : Type :=
| MuxIncoming (local_ufrag remote_ufrag host : list Z) (port : Z).

Abbreviation mux_agent := (conn_agent conn_impl).
Abbreviation mux_registry := (conn_registry conn_impl registry_impl).
Abbreviation mux_event := (conn_event mux_report).
Abbreviation mmachine := (process mux_registry mux_event).
Abbreviation registry := (memory (S := mux_registry) (E := mux_event)).
Abbreviation M := (prog mux_registry mux_event).

Definition reg_map (r : mux_registry) : agent_map := impl_map (reg_impl r).
Definition set_impl_map (m : agent_map) (r : mux_registry) : mux_registry := r <| reg_impl ::= fun i => i <| impl_map := m |> |>.
Definition set_listening (b : bool) (r : mux_registry) : mux_registry := r <| reg_impl ::= fun i => i <| cb_mux_incoming := b |> |>.

(** [conn_mux_init], which leaves the socket to the registry. *)
Definition conn_mux_init (sock : Z) : conn_impl := mkConn 0 false.

(** What [conn_mux_interrupt] does before it sends to its own socket. *)
Definition conn_mux_interrupt (now : Z) (c : conn_impl) : conn_impl := c <| conn_next_timestamp := now |>.

(** [conn_mux_cleanup] removes the agent from the map. *)
Definition conn_mux_cleanup (agent : nat) (i : registry_impl) : option registry_impl :=
  let? m := remove_map_entries (impl_map i) agent in Some (i <| impl_map := m |>).

Definition conn_mux_registry_init : registry_impl := mkImpl map_init false.

Definition conn_mux_can_release_registry (i : registry_impl) : bool := negb (cb_mux_incoming i).

#[export] Instance mux_mode : ConnMode conn_impl registry_impl := {
  registry_init_func := conn_mux_registry_init;
  init_func := conn_mux_init;
  interrupt_func := conn_mux_interrupt;
  cleanup_func := conn_mux_cleanup;
  can_release_registry_func := conn_mux_can_release_registry
}.

Section Mux.
Context `{Platform, Scan, Resolver, Hashes, AgentEnvironment}.
Variable map_fits : Z -> bool.

Definition is_ready (id : nat) : M bool := let* a := get_agent id in ret (negb (conn_finished (ca_conn a))).

(** The first ready agent for which [f] answers true. *)
Fixpoint first_ready (l : list (option nat)) (f : nat -> M bool) : M (option nat) :=
  match l with
  | [] => ret None
  | None :: l' => first_ready l' f
  | Some id :: l' =>
    let* ready := is_ready id in
    let* found := if ready : bool then f id else ret false in
    if found : bool then ret (Some id) else first_ready l' f
  end.

(** Something is done for every ready agent. *)
Definition each_ready (f : nat -> M unit) : M unit :=
  let* l := gets reg_agents in
  each l (fun slot => match slot with
                      | None => ret tt
                      | Some id => let* ready := is_ready id in if ready : bool then f id else ret tt
                      end).

(** ** Demultiplexing *)
Definition insert_address (src : addr_record) (id : nat) : M unit :=
  let* m := gets reg_map in
  let* m := defined (returned (insert_map_entry map_fits 2 m src (Some id))) in
  modify (set_impl_map m).

Definition has_ufrag (ufrag : list Z) (id : nat) : M bool :=
  let* a := get_agent id in ret (bool_decide (ufrag = ice_ufrag (a_local (ca_agent a)))).

(** A Binding request of a peer for the agent named [local_ufrag]. *)
Definition lookup_ufrag (local_ufrag remote_ufrag : list Z) (src : addr_record) : M (option nat) :=
  let* l := gets reg_agents in
  let* found := first_ready l (has_ufrag local_ufrag) in
  match found with
  | Some id => insert_address src id ;; ret (Some id)
  | None =>
    let* r := gets reg_impl in
    if cb_mux_incoming r then
      match getnameinfo src with
      | None => ret None
      | Some (host, _) => emit (FromMode (MuxIncoming local_ufrag remote_ufrag host (addr_get_port (addr src)))) ;; ret None
      end
    else ret None
  end.

Definition has_transaction (tid : list Z) (id : nat) : M bool :=
  let* entry := on_agent id (agent_find_entry_from_transaction_id tid) in ret (bool_decide (entry <> None)).

Definition lookup_message (msg : stun_message) (src : addr_record) : M (option nat) :=
  if (msg_class msg =? STUN_CLASS_REQUEST) && (msg_method msg =? STUN_METHOD_BINDING) && has_integrity msg then
    match split_username (username (credentials msg)) with
    | None => ret None
    | Some (local_ufrag, remote_ufrag) => lookup_ufrag local_ufrag remote_ufrag src
    end
  else if negb (STUN_IS_RESPONSE (msg_class msg)) then ret None
  else let* l := gets reg_agents in first_ready l (has_transaction (transaction_id msg)).

(** The agent the map has for an address. *)
Definition lookup_address (m : agent_map) (src : addr_record) : option (option nat) :=
  let? i := find_map_entry m src false in
  match i with
  | None => Some None
  | Some i => let? e := map_entries m !! i in Some (if is_mtype MAP_ENTRY_TYPE_FULL e then me_agent e else None)
  end.

(** The agent and the buffer. *)
Definition lookup_agent (buf : list Z) (len : Z) (src : addr_record) : M (option nat * list Z) :=
  let* m := gets reg_map in
  let* known := defined (lookup_address m src) in
  match known with
  | Some id => ret (Some id, buf)
  | None =>
    let* stun := defined (is_stun_datagram buf len) in
    if negb stun then ret (None, buf)
    else
      let* (buf, msg, result) := defined (stun_read buf len) in
      if result <? 0 then ret (None, buf)
      else let* found := lookup_message msg src in ret (found, buf)
  end.

(** The body of the loop of [conn_mux_process] over the datagrams. *)
Definition demultiplex (buf : list Z) (len : Z) (src : addr_record) : M unit :=
  let* (found, buf) := lookup_agent buf len src in
  match found with
  | None => ret tt
  | Some id =>
    let* ready := is_ready id in
    if negb ready then ret tt
    else
      let* result := on_agent id (agent_conn_recv buf len src) in
      if negb (result =? 0) then set_conn id (fun c => c <| conn_finished := true |>)
      else let* now := ask now_ms in set_conn id (fun c => c <| conn_next_timestamp := now |>)
  end.

Definition receive (datagram : list Z * addr_record) : M unit :=
  let '(payload, src) := datagram in
  match conn_recv payload src with
  | None => ret tt
  | Some src =>
    let* buffer := ask buffer_of in
    demultiplex (received_in payload buffer) (lenZ payload) src
  end.

Definition conn_mux_fail : M unit :=
  each_ready (fun id => on_agent id agent_conn_fail ;; set_conn id (fun c => c <| conn_finished := true |>)).

Definition update_agent (id : nat) : M unit :=
  let* a := get_agent id in
  let* now := ask now_ms in
  if conn_next_timestamp (ca_conn a) <=? now then
    let* next := on_agent id agent_conn_update in
    set_conn id (fun c => c <| conn_next_timestamp := next |>)
  else ret tt.

(** What [poll] and [recvfrom] report: an error, or the datagrams that are read
    and whether reading ends with an error. *)
Inductive poll_result : Type :=
| PollError
| PollIn (datagrams : list (list Z * addr_record)) (failed : bool).

(** Whether the thread goes on. *)
Definition conn_mux_process (r : poll_result) : M bool :=
  match r with
  | PollError => conn_mux_fail ;; ret false
  | PollIn datagrams failed =>
    each datagrams receive ;;
    if failed : bool then conn_mux_fail ;; ret false
    else each_ready update_agent ;; ret true
  end.

(** The next time, and the number of users of the registry. *)
Definition conn_mux_prepare : M (Z * Z) :=
  let* now := ask now_ms in
  let* r := gets id in
  let next := foldl (fun next slot => match mjoin ((fun id => mjoin (memory_of_agents r !! id)) <$> slot) with
                                      | Some a => if negb (conn_finished (ca_conn a)) && (conn_next_timestamp (ca_conn a) <? next)
                                                  then conn_next_timestamp (ca_conn a) else next
                                      | None => next
                                      end) (now + 60000) (reg_agents r) in
  ret (next, agents_count r + if cb_mux_incoming (reg_impl r) then 1 else 0).

(** ** Listening *)

(** [interrupted]: the datagram to itself was sent. *)
Definition conn_mux_stop_listen (interrupted : bool) : M Z :=
  modify (set_listening false) ;; ret (if interrupted then 0 else -1).

(** The argument says whether there is a callback. *)
Definition conn_mux_listen (cb interrupted : bool) : M Z :=
  if negb cb then conn_mux_stop_listen interrupted
  else
    let* r := gets reg_impl in
    if cb_mux_incoming r then ret (-1) else modify (set_listening true) ;; ret 0.

(** [juice_mux_listen]; a failure to listen is followed by the release as well. *)
Definition juice_mux_listen (acquired cb interrupted : bool) : M Z :=
  let* r := gets id in
  if can_release r && negb acquired then ret (-1)
  else
    let* result := conn_mux_listen cb interrupted in
    release_registry ;;
    ret (if negb (result =? 0) then -1 else 0).

(** ** Runs *)
Inductive mux_op : Type :=
| Process (r : poll_result)
| Listen (acquired cb interrupted : bool)
| Conn (op : conn_op).

Definition mux_step (op : mux_op) : M unit :=
  match op with
  | Process r => conn_mux_process r ;; ret tt
  | Listen acquired cb interrupted => juice_mux_listen acquired cb interrupted ;; ret tt
  | Conn op => conn_step op
  end.

Definition mux_steps (ops : list mux_op) : M unit := each ops mux_step.
End Mux.

Definition mux_start : mmachine := conn_start.
