(* ===== verification/ConnMuxMap.v ===== *)
(** * The map of conn_mux.c implements a finite map from addresses to agents

    Open addressing with deleted entries that keep their address: an address is
    found by probing, its entry before every deleted one that has the same
    address, at most half of the entries are in use, and growing places them
    anew. *)

From stdpp Require Import list gmap.
From S2P Require Import Prelude Machine Addr StunMsg Turn TurnTable ConnMux.
#[local] Open Scope Z_scope.

#[export] Instance sockaddr_countable : Countable sockaddr.
Proof.
  refine (inj_countable'
    (fun sa => match sa with sockaddr_in p a => inl (p, a) | sockaddr_in6 p a => inr (inl (p, a)) | sockaddr_other f => inr (inr f) end)
    (fun x => match x with inl (p, a) => sockaddr_in p a | inr (inl (p, a)) => sockaddr_in6 p a | inr (inr f) => sockaddr_other f end) _).
  by intros [].
Defined.

Section Map.
Context `{Platform}.

(** ** Addresses *)
Lemma equal_addr a b : addr_record_is_equal a b true = true -> addr a = addr b.
Proof. apply addr_is_equal_eq. Qed.

Lemma record_equal_inet r : inet r -> addr_record_is_equal r r true = true.
Proof. intros Hi. by apply addr_is_equal_refl. Qed.

Definition in_use (e : map_entry) : bool := is_mtype MAP_ENTRY_TYPE_FULL e.

(** In use for the address of [r]. *)
Definition full_for (r : addr_record) (e : map_entry) : bool := in_use e && addr_record_is_equal (me_record e) r true.

Lemma full_for_spec r e : inet r -> full_for r e = true <-> in_use e = true /\ addr (me_record e) = addr r.
Proof.
  intros Hi. unfold full_for. rewrite andb_true_iff. split; intros [Hf He]; (split; [done|]); [by apply equal_addr|].
  unfold addr_record_is_equal. rewrite He. by apply record_equal_inet.
Qed.

(** ** Probing *)
Definition mstops (allow_deleted : bool) (r : addr_record) (e : map_entry) : bool :=
  is_mtype MAP_ENTRY_TYPE_EMPTY e || addr_record_is_equal (me_record e) r true ||
  (is_mtype MAP_ENTRY_TYPE_DELETED e && allow_deleted).

Definition home (m : agent_map) (r : addr_record) : Z := addr_record_hash r false `mod` map_size m.

Lemma find_map_entry_probe m r ad : 0 < map_size m ->
  find_map_entry m r ad = probe (mstops ad r) (map_entries m) (length (map_entries m)) (home m r) (home m r).
Proof.
  intros Hs. unfold find_map_entry. rewrite (proj2 (Z.eqb_neq _ _)) by lia. cbv zeta. fold (home m r).
  generalize (home m r) at 2 4. intros pos. generalize (home m r) (length (map_entries m)). intros key fuel. revert pos.
  induction fuel as [|fuel IH]; intros pos; [done|]. cbn [find_map_entry_loop probe].
  destruct (map_entries m !! Z.to_nat pos) as [e|]; [|done]. cbn [mbind option_bind]. fold (mstops ad r e).
  case_match; [done|]. case_match; [done|]. apply IH.
Qed.

Lemma map_home_range m r : 0 < map_size m -> 0 <= home m r < lenZ (map_entries m).
Proof. intros Hs. unfold home. change (lenZ (map_entries m)) with (map_size m). apply Z.mod_pos_bound. lia. Qed.

Lemma find_first m r ad i : 0 < map_size m < 2 ^ 31 ->
  find_map_entry m r ad = Some (Some i) <-> exists k, probe_stops (mstops ad r) (map_entries m) (home m r) k /\ i = probe_slot (map_entries m) (home m r) k.
Proof. intros Hs. rewrite find_map_entry_probe by lia. apply probe_first; [apply map_home_range; lia|]. unfold map_size in Hs. lia. Qed.

Lemma find_total m r ad : 0 < map_size m < 2 ^ 31 ->
  (exists i e, find_map_entry m r ad = Some (Some i) /\ map_entries m !! i = Some e /\ mstops ad r e = true) \/
  (find_map_entry m r ad = Some None /\ forall i e, map_entries m !! i = Some e -> mstops ad r e = false).
Proof.
  intros Hs. rewrite find_map_entry_probe by lia.
  destruct (probe_spec (mstops ad r) (map_entries m) (home m r)) as [(k & (_ & (e & He & Hst) & _) & ->)|Hn]; [apply map_home_range; lia|unfold map_size in Hs; lia| |by right].
  left. by eexists _, e.
Qed.

(** ** The invariant *)
Definition fulls (l : list map_entry) : Z := lenZ (filter (fun e => in_use e = true) l).

Record map_ok (m : agent_map) : Prop := {
  mk_size : 16 <= map_size m < 2 ^ 31;
  mk_even : exists h, map_size m = 2 * h;
  mk_count : map_count m = fulls (map_entries m);
  mk_load : 2 * map_count m <= map_size m;
  mk_found : forall i e, map_entries m !! i = Some e -> in_use e = true -> find_map_entry m (me_record e) false = Some (Some i);
  mk_entries : forall i e, map_entries m !! i = Some e -> in_use e = true -> inet (me_record e) /\ is_Some (me_agent e)
}.

(** The abstract map. *)
Definition owner_in (l : list map_entry) (r : addr_record) : option nat := let? e := List.find (full_for r) l in me_agent e.
Definition owner (m : agent_map) (r : addr_record) : option nat := owner_in (map_entries m) r.

(** No address is in use twice. *)
Definition distinct (l : list map_entry) : Prop :=
  forall i j e e', l !! i = Some e -> l !! j = Some e' -> in_use e = true -> in_use e' = true ->
    addr (me_record e) = addr (me_record e') -> i = j.

Lemma find_same m r r' ad : addr r = addr r' -> find_map_entry m r ad = find_map_entry m r' ad.
Proof.
  intros E. unfold find_map_entry, addr_record_hash. rewrite E. case_match; [done|].
  generalize (addr_hash (addr r') false `mod` map_size m) at 2 4. intros pos. generalize (addr_hash (addr r') false `mod` map_size m).
  intros key. generalize (length (map_entries m)). intros fuel. revert pos.
  induction fuel as [|fuel IH]; intros pos; [done|]. cbn [find_map_entry_loop]. unfold addr_record_is_equal. rewrite E.
  destruct (map_entries m !! Z.to_nat pos); [|done]. cbn. by repeat case_match.
Qed.

Lemma map_distinct m : map_ok m -> distinct (map_entries m).
Proof.
  intros Hm i j e e' Hi Hj Hf Hf' E. pose proof (mk_found _ Hm i e Hi Hf) as F. pose proof (mk_found _ Hm j e' Hj Hf') as F'.
  rewrite (find_same _ _ _ _ E), F' in F. by injection F.
Qed.

Lemma owner_full l r i e : distinct l -> inet r -> l !! i = Some e -> full_for r e = true -> owner_in l r = me_agent e.
Proof.
  intros Hd Hr Hi Hf. unfold owner_in. destruct (List.find (full_for r) l) as [e'|] eqn:E.
  - apply List.find_some in E as [Hin Hf']. apply list_elem_of_In, list_elem_of_lookup in Hin as [j Hj].
    apply full_for_spec in Hf as [Hf Ha]; [|done]. apply full_for_spec in Hf' as [Hf' Ha']; [|done].
    assert (i = j) as <- by (apply (Hd i j e e'); congruence). assert (e = e') as <- by congruence. done.
  - pose proof (List.find_none _ _ E e (proj1 (list_elem_of_In _ _) (list_elem_of_lookup_2 _ _ _ Hi))) as En. congruence.
Qed.

Lemma map_owner_none l r : Forall (fun e => full_for r e = false) l -> owner_in l r = None.
Proof.
  intros Hl. unfold owner_in. destruct (List.find (full_for r) l) as [e|] eqn:E; [|done].
  apply List.find_some in E as [Hin Hf]. rewrite list.Forall_forall in Hl. apply list_elem_of_In, Hl in Hin. congruence.
Qed.

Lemma owner_unused m r : map_ok m -> owner m r = None -> Forall (fun e => full_for r e = false) (map_entries m).
Proof.
  intros Hm Ho. unfold owner, owner_in in Ho. destruct (List.find (full_for r) (map_entries m)) as [e|] eqn:E.
  - exfalso. apply List.find_some in E as [Hin Hf]. apply list_elem_of_In, list_elem_of_lookup in Hin as [i Hi].
    unfold full_for in Hf. apply andb_true_iff in Hf as [Hf _]. destruct (mk_entries _ Hm i e Hi Hf) as [_ [a Ea]]. cbn in Ho. congruence.
  - apply list.Forall_forall. intros e He. by apply (List.find_none _ _ E), list_elem_of_In.
Qed.

(** ** Lookup *)
Lemma lookup_owner m r : map_ok m -> inet r -> lookup_address m r = Some (owner m r).
Proof.
  intros Hm Hr. pose proof (mk_size _ Hm) as Hs. unfold lookup_address.
  assert (Hfound : forall j e', map_entries m !! j = Some e' -> full_for r e' = true -> find_map_entry m r false = Some (Some j)).
  { intros j e' Hj Hf. apply full_for_spec in Hf as [Hf Ha]; [|done]. rewrite <- (find_same m (me_record e') r) by done. by apply (mk_found _ Hm). }
  destruct (find_total m r false ltac:(lia)) as [(i & e & Ef & He & Hst)|[Ef Hn]]; rewrite Ef; cbn [mbind option_bind].
  - rewrite He. cbn. f_equal. unfold mstops in Hst. rewrite andb_false_r, orb_false_r in Hst. fold (in_use e).
    destruct (in_use e) eqn:Efull.
    + symmetry. apply (owner_full _ r i e (map_distinct _ Hm) Hr He). unfold full_for. rewrite Efull.
      unfold in_use, is_mtype in Efull. apply bool_decide_eq_true in Efull. unfold is_mtype in Hst. by rewrite bool_decide_false in Hst by congruence.
    + symmetry. apply map_owner_none, list.Forall_forall. intros e' Hin. apply not_true_iff_false. intros Hf.
      apply list_elem_of_lookup in Hin as [j Hj]. pose proof (Hfound j e' Hj Hf) as E. rewrite Ef in E. injection E as <-.
      assert (e' = e) as -> by congruence. apply full_for_spec in Hf as [Hf _]; [|done]. congruence.
  - f_equal. symmetry. apply map_owner_none, list.Forall_forall. intros e' Hin. apply not_true_iff_false. intros Hf.
    apply list_elem_of_lookup in Hin as [j Hj]. pose proof (Hfound j e' Hj Hf) as E. congruence.
Qed.

Lemma owner_iff l r a : distinct l -> inet r ->
  owner_in l r = Some a <-> exists i e, l !! i = Some e /\ in_use e = true /\ addr (me_record e) = addr r /\ me_agent e = Some a.
Proof.
  intros Hd Hr. split.
  - unfold owner_in. destruct (List.find (full_for r) l) as [e|] eqn:E; [|done]. cbn. intros Ea.
    apply List.find_some in E as [Hin Hf]. apply list_elem_of_In, list_elem_of_lookup in Hin as [i Hi]. apply full_for_spec in Hf as [Hf Hr']; [|done].
    by exists i, e.
  - intros (i & e & Hi & Hf & He & Ha). rewrite <- Ha. by apply (owner_full l r i e), full_for_spec.
Qed.

(** ** Writing an unused entry *)

(** The element at which a search ended is replaced. *)
Lemma probe_fill {T} (stop stop' : T -> bool) l key k i e' : probe_stops stop l key k -> i = probe_slot l key k ->
  stop' e' = true -> (forall e, stop e = false -> stop' e = false) -> probe_stops stop' (<[i := e']> l) key k.
Proof.
  intros (Hk & (e & He & Hse) & Hb) -> Hst Himp. pose proof (lookup_lt_Some _ _ _ He) as Hlt.
  unfold probe_stops, lenZ. rewrite length_insert. split; [done|]. split.
  - exists e'. rewrite (probe_slot_length _ l) by apply length_insert. by rewrite list_lookup_insert_eq.
  - intros j x Hj. rewrite (probe_slot_length _ l) by apply length_insert. intros Hx. apply list_lookup_insert_Some in Hx as [(E & _)|[_ Hx]].
    + rewrite E in He. by rewrite (Hb j e Hj He) in Hse.
    + by apply Himp, (Hb j).
Qed.

Lemma fulls_app l l' : fulls (l ++ l') = fulls l + fulls l'.
Proof. unfold fulls. by rewrite list.filter_app, lenZ_app. Qed.

Lemma fulls_one e : fulls [e] = if in_use e then 1 else 0.
Proof. unfold fulls. rewrite filter_cons, filter_nil. by destruct (in_use e). Qed.

Lemma fulls_bounds l : 0 <= fulls l <= lenZ l.
Proof. unfold fulls. pose proof (length_filter (fun e => in_use e = true) l). unfold lenZ. lia. Qed.

Lemma fulls_insert l i e e' : l !! i = Some e -> in_use e = false -> in_use e' = true -> fulls (<[i := e']> l) = fulls l + 1.
Proof.
  intros Hi Hf Hf'. pose proof (lookup_lt_Some _ _ _ Hi). rewrite insert_take_drop by done. rewrite <- (take_drop_middle l i e Hi) at 3.
  rewrite !fulls_app. change (?x :: ?l) with ([x] ++ l). rewrite (fulls_app [e']), (fulls_app [e]), !fulls_one, Hf, Hf'. lia.
Qed.

(** What an insertion makes of a map, and what it returns. *)
Record inserted (m : agent_map) (r : addr_record) (id : nat) (m' : agent_map) : Prop := {
  ins_ok : map_ok m';
  ins_owner : forall r', inet r' -> owner m' r' = if bool_decide (addr r' = addr r) then Some id else owner m r';
  ins_count : map_count m' = map_count m + 1;
  ins_size : map_size m' <= Z.max (map_size m) (4 * map_count m)
}.

Lemma map_size_insert m i e : map_size (m <| map_entries ::= <[i := e]> |>) = map_size m.
Proof. unfold map_size, lenZ. cbn. by rewrite length_insert. Qed.

Lemma put_new m r i e id : map_ok m -> inet r -> owner m r = None -> find_map_entry m r true = Some (Some i) -> map_entries m !! i = Some e ->
  in_use e = false -> map_count m * 2 < map_size m ->
  inserted m r id (put_map_entry m i r (Some id) <| map_count ::= Z.succ |>).
Proof.
  intros Hm Hr Ho Ef He Hf Hl. pose proof (mk_size _ Hm) as Hs. pose proof (lookup_lt_Some _ _ _ He) as Hlt.
  pose proof (owner_unused _ _ Hm Ho) as Hun. rewrite list.Forall_forall in Hun.
  set (new := mkMapEntry MAP_ENTRY_TYPE_FULL (Some id) r). set (m' := put_map_entry m i r (Some id) <| map_count ::= Z.succ |>).
  assert (Hsize : map_size m' = map_size m) by apply map_size_insert.
  assert (Hhome : forall r', home m' r' = home m r') by (intros r'; unfold home; by rewrite Hsize).
  assert (Hdiff : forall j x, map_entries m !! j = Some x -> in_use x = true -> addr (me_record x) <> addr r).
  { intros j x Hj Hx E. assert (full_for r x = false) as Hff by (by apply Hun, (list_elem_of_lookup_2 _ j)).
    assert (full_for r x = true) by by apply full_for_spec. congruence. }
  assert (Hok : map_ok m').
  { split.
    - by rewrite Hsize.
    - rewrite Hsize. apply (mk_even _ Hm).
    - cbn. rewrite (fulls_insert _ _ e) by done. rewrite (mk_count _ Hm). lia.
    - rewrite Hsize. change (map_count m') with (Z.succ (map_count m)). destruct (mk_even _ Hm). lia.
    - intros j x Hj Hx. apply find_first; [rewrite Hsize; lia|]. rewrite Hhome. apply list_lookup_insert_Some in Hj as [(<- & <- & _)|[Hij Hj]].
      + apply find_first in Ef as (k & (Hk & (ek & Hek & Hst) & Hb) & Ei); [|lia]. exists k.
        split; [|by rewrite (probe_slot_length _ (map_entries m)) by apply length_insert].
        apply (probe_fill (mstops true r)); [by split; [|split; [exists ek|]]|done| |].
        * unfold mstops. cbn. by rewrite record_equal_inet.
        * intros y Hy. unfold mstops in *. apply orb_false_iff in Hy as [Hy _]. cbn [me_record]. by rewrite Hy, andb_false_r.
      + pose proof (mk_found _ Hm j x Hj Hx) as Fj. apply find_first in Fj as (k & Hk & Ej); [|lia]. exists k.
        split; [|by rewrite (probe_slot_length _ (map_entries m)) by apply length_insert].
        apply (probe_insert _ _ _ _ i e); [done|done|congruence|]. intros _. right. unfold mstops. cbn.
        rewrite orb_false_r. apply not_true_iff_false. intros E. by apply (Hdiff j x Hj Hx), eq_sym, equal_addr.
    - intros j x Hj Hx. apply list_lookup_insert_Some in Hj as [(<- & <- & _)|[_ Hj]]; [by split|]. by apply (mk_entries _ Hm j). }
  split; [done| |cbn; lia|rewrite Hsize; lia]. intros r' Hr'. apply option_eq. intros a. unfold owner. pose proof (map_distinct _ Hok) as Hd'.
  rewrite (owner_iff _ r' a Hd' Hr'). case_bool_decide as Er.
  - split.
    + intros (j & x & Hj & Hx & Hax & <-). apply list_lookup_insert_Some in Hj as [(<- & <- & _)|[_ Hj]]; [done|].
      exfalso. apply (Hdiff j x Hj Hx). congruence.
    + intros [= <-]. exists i, new. split; [by apply list_lookup_insert_eq|]. by split_and!.
  - rewrite (owner_iff _ r' a (map_distinct _ Hm) Hr'). split; intros (j & x & Hj & Hx & Hax & Ha).
    + apply list_lookup_insert_Some in Hj as [(<- & <- & _)|[_ Hj]]; [by destruct Er|]. by exists j, x.
    + exists j, x. split; [|done]. apply list_lookup_insert_Some. right. split; [|done]. intros <-. congruence.
Qed.

(** ** Insertion *)
Context (map_fits : Z -> bool).

Lemma fulls_all l : Forall (fun e => in_use e = true) l -> fulls l = lenZ l.
Proof.
  induction 1 as [|e l He _ IH]; [done|]. change (e :: l) with ([e] ++ l). rewrite fulls_app, fulls_one, He, IH, lenZ_app. done.
Qed.

Lemma fulls_none l : Forall (fun e => in_use e = false) l -> fulls l = 0.
Proof.
  induction 1 as [|e l He _ IH]; [done|]. change (e :: l) with ([e] ++ l). by rewrite fulls_app, fulls_one, He, IH.
Qed.

(** The search for a place finds one. *)
Lemma find_place m r : map_ok m -> inet r -> owner m r = None ->
  exists i e, find_map_entry m r true = Some (Some i) /\ map_entries m !! i = Some e /\ in_use e = false.
Proof.
  intros Hm Hr Ho. pose proof (mk_size _ Hm) as Hs. pose proof (owner_unused _ _ Hm Ho) as Hun.
  destruct (find_total m r true ltac:(lia)) as [(i & e & Ef & He & Hst)|[_ Hn]].
  - exists i, e. split_and!; [done|done|]. rewrite list.Forall_forall in Hun. specialize (Hun e (list_elem_of_lookup_2 _ _ _ He)).
    unfold full_for, mstops, in_use, is_mtype in *. apply not_true_iff_false. intros E. rewrite E in Hun. apply bool_decide_eq_true in E.
    rewrite E, !bool_decide_false in Hst by done. cbn in Hst. rewrite orb_false_r in Hst. by rewrite Hst in Hun.
  - exfalso. assert (fulls (map_entries m) = lenZ (map_entries m)) as E.
    { apply fulls_all, list.Forall_forall. intros e Hin. apply list_elem_of_lookup in Hin as [i Hi].
      specialize (Hn i e Hi). unfold mstops, in_use, is_mtype in *. rewrite andb_true_r in Hn. by destruct (me_type e), (addr_record_is_equal _ _ _). }
    rewrite <- (mk_count _ Hm) in E. pose proof (mk_load _ Hm). unfold map_size in *. lia.
Qed.

Lemma put_in_room fuel m r id : map_ok m -> inet r -> owner m r = None -> map_count m * 2 < map_size m ->
  exists m', insert_map_entry map_fits (S fuel) m r (Some id) = Returns m' /\ inserted m r id m' /\ map_size m' = map_size m.
Proof.
  intros Hm Hr Ho Hl. destruct (find_place m r Hm Hr Ho) as (i & e & Ef & He & Hf). cbn [insert_map_entry].
  rewrite Ef. cbn [call_bind call_access]. rewrite He. cbn [call_bind call_access]. fold (in_use e).
  rewrite Hf, (proj2 (Z.leb_gt _ _)) by lia. eexists. split; [done|]. split; [by apply (put_new m r i e id)|apply map_size_insert].
Qed.

Lemma empty_map_ok n h : n = 2 * h -> 16 <= n < 2 ^ 31 -> map_ok (mkMap (replicate (Z.to_nat n) map_entry_zero) 0).
Proof.
  intros Hh Hn. assert (Hsize : map_size (mkMap (replicate (Z.to_nat n) map_entry_zero) 0) = n).
  { unfold map_size, lenZ. cbn. rewrite length_replicate. lia. }
  assert (Hzero : forall i e, replicate (Z.to_nat n) map_entry_zero !! i = Some e -> in_use e = true -> False).
  { intros i e Hi. apply lookup_replicate in Hi as [-> _]. done. }
  split; rewrite ?Hsize; cbn; try lia; [by exists h| |by intros i e Hi Hf; destruct (Hzero i e)..].
  by rewrite fulls_none by by apply Forall_replicate.
Qed.

Lemma distinct_cons e l : distinct (e :: l) ->
  distinct l /\ (in_use e = true -> Forall (fun e' => in_use e' = true -> addr (me_record e') <> addr (me_record e)) l).
Proof.
  intros Hd. split.
  - intros i j x y Hi Hj Hx Hy E. pose proof (Hd (S i) (S j) x y Hi Hj Hx Hy E). lia.
  - intros He. apply list.Forall_forall. intros e' Hin He' E. apply list_elem_of_lookup in Hin as [j Hj].
    pose proof (Hd 0%nat (S j) e e' eq_refl Hj He He' (eq_sym E)). lia.
Qed.

Definition entry_known (e : map_entry) : Prop := in_use e = true -> inet (me_record e) /\ is_Some (me_agent e).

(** The entries of [l] are placed in the new map [m]. *)
Lemma place_all fuel l m : map_ok m -> 2 * (map_count m + fulls l) <= map_size m -> distinct l -> Forall entry_known l ->
  Forall (fun e => in_use e = true -> owner m (me_record e) = None) l ->
  exists m', foldl (fun m e => let& m := m in if is_mtype MAP_ENTRY_TYPE_FULL e
                               then insert_map_entry map_fits (S fuel) m (me_record e) (me_agent e) else Returns m) (Returns m) l = Returns m' /\
    map_ok m' /\ map_size m' = map_size m /\ map_count m' = map_count m + fulls l /\
    forall r, inet r -> owner m' r = match owner_in l r with Some a => Some a | None => owner m r end.
Proof.
  revert m. induction l as [|e l IH]; intros m Hm Hl Hd Hk Ho; cbn [foldl].
  { exists m. change (fulls []) with 0. split_and!; try done. lia. }
  apply distinct_cons in Hd as [Hd He]. apply Forall_cons_1 in Hk as [Hke Hk]. apply Forall_cons_1 in Ho as [Hoe Ho].
  change (e :: l) with ([e] ++ l) in Hl. rewrite fulls_app, fulls_one in Hl. fold (in_use e).
  change (e :: l) with ([e] ++ l). rewrite fulls_app, fulls_one. cbn [app]. destruct (in_use e) eqn:Ef; rewrite ?Ef in Hl; cbn [call_bind call_access].
  - destruct (Hke Ef) as [Hr [id Hid]]. rewrite Hid. pose proof (fulls_bounds l).
    destruct (put_in_room fuel m (me_record e) id Hm Hr (Hoe eq_refl) ltac:(lia)) as (m1 & E1 & [Hm1 Ho1 Hc1 _] & Hs1). rewrite E1.
    specialize (He eq_refl). destruct (IH m1) as (m' & E' & Hm' & Hs' & Hc' & Ho'); try done.
    + rewrite Hs1, Hc1. lia.
    + apply list.Forall_forall. intros e' Hin Hf'. rewrite list.Forall_forall in He, Hk, Ho. destruct (Hk e' Hin Hf') as [Hr' _].
      rewrite Ho1, bool_decide_false by (done || by apply He). by apply Ho.
    + exists m'. split_and!; [done|done|congruence|lia|]. intros r' Hr'. rewrite Ho', Ho1 by done.
      unfold owner_in at 2. cbn [List.find]. case_bool_decide as Er.
      * rewrite (proj2 (full_for_spec r' e Hr')) by done. cbn. rewrite Hid, map_owner_none; [done|]. apply (list.Forall_impl _ _ _ He).
        intros e' He'. apply not_true_iff_false. intros Hf. apply full_for_spec in Hf as [Hf Ha]; [|done]. apply (He' Hf). congruence.
      * assert (full_for r' e = false) as ->; [|done]. apply not_true_iff_false. intros Hf. apply full_for_spec in Hf as [_ Ha]; [|done]. congruence.
  - destruct (IH m) as (m' & E' & Hm' & Hs' & Hc' & Ho'); try done. exists m'. split_and!; try done.
    intros r' Hr'. rewrite Ho' by done. unfold owner_in at 2. cbn [List.find]. unfold full_for at 1. by rewrite Ef.
Qed.

(** A map that grows has the same contents. *)
Lemma grow_map_spec fuel m : map_ok m -> map_size m < 2 ^ 30 -> map_fits (map_size m * 2) = true ->
  exists m', grow_map map_fits (insert_map_entry map_fits (S fuel)) m (map_size m * 2) = Returns m' /\
    map_ok m' /\ map_size m' = map_size m * 2 /\ map_count m' = map_count m /\ forall r, inet r -> owner m' r = owner m r.
Proof.
  intros Hm Hs Hfits. pose proof (mk_size _ Hm) as Hs16. pose proof (mk_load _ Hm) as Hl. pose proof (mk_count _ Hm) as Hc.
  unfold grow_map. rewrite (proj2 (Z.leb_gt _ _)), Hfits by lia. cbn [negb].
  pose proof (empty_map_ok (map_size m * 2) (map_size m) ltac:(lia) ltac:(lia)) as H0.
  assert (Hsize : map_size (mkMap (replicate (Z.to_nat (map_size m * 2)) map_entry_zero) 0) = map_size m * 2).
  { unfold map_size, lenZ. cbn. rewrite length_replicate. unfold map_size, lenZ in *. lia. }
  assert (Hnone : forall r, owner (mkMap (replicate (Z.to_nat (map_size m * 2)) map_entry_zero) 0) r = None).
  { intros r. apply map_owner_none, Forall_replicate. done. }
  destruct (place_all fuel (map_entries m) _ H0) as (m' & E & Hm' & Hs' & Hc' & Ho').
  - rewrite Hsize. cbn. lia.
  - by apply map_distinct.
  - apply list.Forall_forall. intros e Hin Hf. apply list_elem_of_lookup in Hin as [i Hi]. by apply (mk_entries _ Hm i).
  - apply list.Forall_forall. intros e _ _. apply Hnone.
  - exists m'. split_and!; try done; [congruence|rewrite Hc'; cbn; lia|]. intros r Hr. rewrite Ho', Hnone by done. unfold owner. by destruct (owner_in _ r).
Qed.

(** An address that is not in the map is added; at most one growth is needed. *)
Lemma insert_spec m r id : map_ok m -> inet r -> owner m r = None -> map_size m < 2 ^ 30 ->
  (map_size m <= map_count m * 2 -> map_fits (map_size m * 2) = true) ->
  exists m', insert_map_entry map_fits 2 m r (Some id) = Returns m' /\ inserted m r id m'.
Proof.
  intros Hm Hr Ho Hs Hfits. destruct (Z.lt_ge_cases (map_count m * 2) (map_size m)) as [Hl|Hl].
  { destruct (put_in_room 1 m r id Hm Hr Ho Hl) as (m' & E & Hi & _). by exists m'. }
  pose proof (mk_size _ Hm) as Hs16. pose proof (mk_load _ Hm) as Hload.
  destruct (grow_map_spec 0 m Hm Hs (Hfits Hl)) as (m1 & E1 & Hm1 & Hs1 & Hc1 & Ho1).
  destruct (put_in_room 0 m1 r id Hm1 Hr ltac:(by rewrite Ho1) ltac:(lia)) as (m' & E & [Hm' Ho' Hc' _] & Hs').
  exists m'. split; [|split; [done| |lia|lia]].
  - destruct (find_place m r Hm Hr Ho) as (i & e & Ef & He & Hf). remember 1%nat as one eqn:Eone. cbn [insert_map_entry].
    rewrite Ef. cbn [call_bind call_access]. rewrite He. cbn [call_bind call_access]. fold (in_use e). rewrite Hf, (proj2 (Z.leb_le _ _)) by lia.
    subst one. rewrite E1. exact E.
  - intros r' Hr'. rewrite Ho' by done. case_bool_decide; [done|]. by apply Ho1.
Qed.

(** *** Without memory *)

(** A map that has to grow and cannot is asked to grow again and again. *)
Lemma insert_stuck depth m r id : map_ok m -> inet r -> owner m r = None -> map_size m <= map_count m * 2 ->
  map_fits (map_size m * 2) = false -> insert_map_entry map_fits depth m r (Some id) = Unreturned.
Proof.
  intros Hm Hr Ho Hl Hfits. pose proof (mk_size _ Hm). destruct (find_place m r Hm Hr Ho) as (i & e & Ef & He & Hf).
  induction depth as [|depth IH]; [done|]. cbn [insert_map_entry]. rewrite Ef. cbn [call_bind call_access]. rewrite He. cbn [call_bind call_access].
  fold (in_use e). rewrite Hf, (proj2 (Z.leb_le _ _)) by lia. unfold grow_map. rewrite (proj2 (Z.leb_gt _ _)), Hfits by lia. exact IH.
Qed.

(** ** Removal *)
Definition forget (id : nat) (e : map_entry) : map_entry :=
  if points_to id e then e <| me_type := MAP_ENTRY_TYPE_DELETED |> <| me_agent := None |> else e.

Lemma forget_full id e : in_use (forget id e) = true -> in_use e = true /\ forget id e = e /\ me_agent e <> Some id.
Proof.
  unfold forget, points_to. fold (in_use e). destruct (in_use e) eqn:Ef; cbn [andb]; [|by rewrite Ef].
  case_bool_decide; [done|]. by rewrite Ef.
Qed.

Lemma forget_stops id r e : mstops false r (forget id e) = mstops false r e.
Proof.
  unfold forget, points_to. fold (in_use e). destruct (in_use e) eqn:Ef; [|done]. cbn [andb]. case_bool_decide; [|done].
  unfold mstops, in_use, is_mtype in *. apply bool_decide_eq_true in Ef. cbn. rewrite Ef, !bool_decide_false by done. by rewrite !andb_false_r.
Qed.

Lemma forget_one id e : (if in_use (forget id e) then 1 else 0) + lenZ (filter (fun e => points_to id e = true) [e]) = if in_use e then 1 else 0.
Proof.
  rewrite filter_cons, filter_nil. unfold forget, points_to. fold (in_use e). destruct (in_use e) eqn:Ef; cbn [andb].
  - destruct (bool_decide (me_agent e = Some id)); [done|]. by rewrite Ef.
  - by rewrite Ef.
Qed.

Lemma fulls_forget id l : fulls (forget id <$> l) + lenZ (filter (fun e => points_to id e = true) l) = fulls l.
Proof.
  induction l as [|e l IH]; [done|]. change (e :: l) with ([e] ++ l). rewrite fmap_app, list.filter_app, lenZ_app, !fulls_app, <- IH.
  change (forget id <$> [e]) with [forget id e]. rewrite !fulls_one. pose proof (forget_one id e). lia.
Qed.

Lemma remove_spec m id : map_ok m -> exists m', remove_map_entries m id = Some m' /\ map_ok m' /\
  map_size m' = map_size m /\ map_count m' <= map_count m /\
  forall r a, inet r -> owner m' r = Some a <-> owner m r = Some a /\ a <> id.
Proof.
  intros Hm. pose proof (mk_size _ Hm) as Hs. pose proof (fulls_forget id (map_entries m)) as Hf. rewrite <- (mk_count _ Hm) in Hf.
  pose proof (fulls_bounds (forget id <$> map_entries m)) as Hb. set (k := lenZ (filter (fun e => points_to id e = true) (map_entries m))) in *.
  assert (0 <= k) by apply lenZ_nonneg. unfold remove_map_entries. fold k. rewrite (proj2 (Z.ltb_ge _ _)) by lia.
  change (fun e => if points_to id e then _ else e) with (forget id). set (m' := mkMap _ _).
  assert (Hsize : map_size m' = map_size m) by (unfold map_size, lenZ; cbn; by rewrite length_fmap).
  assert (Hfind : forall r, find_map_entry m' r false = find_map_entry m r false).
  { intros r. rewrite !find_map_entry_probe by lia. unfold home. rewrite Hsize. cbn [map_entries m']. rewrite length_fmap.
    apply probe_fmap. intros e. apply forget_stops. }
  assert (Hfull : forall i e, map_entries m' !! i = Some e -> in_use e = true -> map_entries m !! i = Some e /\ me_agent e <> Some id).
  { intros i e Hi He. cbn in Hi. rewrite list_lookup_fmap in Hi. destruct (map_entries m !! i) as [e0|]; [|done]. cbn in Hi. injection Hi as <-.
    apply forget_full in He as (_ & E & Ha). by rewrite E. }
  assert (Hok : map_ok m').
  { split; rewrite ?Hsize; [done|apply (mk_even _ Hm)|cbn; lia|cbn; pose proof (mk_load _ Hm); lia| |].
    - intros i e Hi He. destruct (Hfull i e Hi He) as [Hi' _]. rewrite Hfind. by apply (mk_found _ Hm).
    - intros i e Hi He. destruct (Hfull i e Hi He) as [Hi' _]. by apply (mk_entries _ Hm i). }
  exists m'. split_and!; [done|done|done|cbn; lia|]. intros r a Hr. unfold owner.
  rewrite (owner_iff _ r a (map_distinct _ Hok) Hr), (owner_iff _ r a (map_distinct _ Hm) Hr). split.
  - intros (i & e & Hi & He & Har & Ha). destruct (Hfull i e Hi He) as [Hi' Hne]. split; [by exists i, e|congruence].
  - intros [(i & e & Hi & He & Har & Ha) Hne]. exists i, e. split; [|done]. cbn. rewrite list_lookup_fmap, Hi. cbn. f_equal.
    unfold forget, points_to. rewrite bool_decide_false by congruence. by rewrite andb_false_r.
Qed.

(** ** Runs *)

(** The operations of the demultiplexer: an agent is learnt for an address that
    is not known, an agent is forgotten. *)
Inductive map_op : Type :=
| Learn (r : addr_record) (id : nat)
| Forget (id : nat).

Definition map_step (m : agent_map) (op : map_op) : option agent_map :=
  match op with
  | Learn r id =>
    let? known := lookup_address m r in
    match known with
    | Some _ => Some m
    | None => returned (insert_map_entry map_fits 2 m r (Some id))
    end
  | Forget id => remove_map_entries m id
  end.

Fixpoint map_steps (m : agent_map) (ops : list map_op) : option agent_map :=
  match ops with
  | [] => Some m
  | op :: ops' => let? m := map_step m op in map_steps m ops'
  end.

(** The same on a finite map. *)
Definition spec_step (s : gmap sockaddr nat) (op : map_op) : gmap sockaddr nat :=
  match op with
  | Learn r id => match s !! addr r with Some _ => s | None => <[addr r := id]> s end
  | Forget id => filter (fun kv => kv.2 <> id) s
  end.

Definition op_inet (op : map_op) : Prop := match op with Learn r _ => inet r | Forget _ => True end.

Record represents (m : agent_map) (s : gmap sockaddr nat) : Prop := {
  rep_ok : map_ok m;
  rep_owner : forall r, inet r -> owner m r = s !! addr r
}.

(** The map has room for what [n] insertions can make of it. *)
Definition bounded (n : Z) (m : agent_map) : Prop := map_count m <= n /\ map_size m <= Z.max 16 (4 * n).

Lemma learn_represents m s r id n : represents m s -> bounded n m -> 0 <= n < 2 ^ 28 - 1 -> inet r -> s !! addr r = None ->
  (forall k, k <= 16 + 4 * (n + 1) -> map_fits k = true) ->
  exists m', insert_map_entry map_fits 2 m r (Some id) = Returns m' /\ represents m' (<[addr r := id]> s) /\ bounded (n + 1) m'.
Proof.
  intros [Hm Ho] [Hc Hs] Hn Hr Hs0 Hfits. destruct (insert_spec m r id Hm Hr) as (m' & E & [Hm' Ho' Hc' Hs']).
  - by rewrite Ho.
  - lia.
  - intros Hl. apply Hfits. lia.
  - exists m'. split; [done|]. split; [split; [done|]|split; lia]. intros r' Hr'. rewrite Ho' by done. case_bool_decide as E'.
    + by rewrite E', lookup_insert_eq.
    + by rewrite lookup_insert_ne, Ho by congruence.
Qed.

Lemma forget_represents m s id n : represents m s -> bounded n m ->
  exists m', remove_map_entries m id = Some m' /\ represents m' (filter (fun kv => kv.2 <> id) s) /\ bounded n m'.
Proof.
  intros [Hm Ho] [Hc Hs]. destruct (remove_spec m id Hm) as (m' & E & Hm' & Hs' & Hc' & Ho').
  exists m'. split; [done|]. split; [split; [done|]|split; lia]. intros r Hr. apply option_eq. intros a.
  rewrite (Ho' r a Hr), (Ho r Hr), map_lookup_filter_Some. done.
Qed.

Lemma init_represents : represents map_init ∅.
Proof. split; [by apply (empty_map_ok 16 8)|]. intros r _. rewrite lookup_empty. by apply map_owner_none, Forall_replicate. Qed.

Lemma map_steps_represents l m s n : represents m s -> bounded n m -> 0 <= n -> Forall op_inet l -> n + lenZ l < 2 ^ 28 - 1 ->
  (forall k, k <= 16 + 4 * (n + lenZ l) -> map_fits k = true) ->
  exists m', map_steps m l = Some m' /\ represents m' (foldl spec_step s l).
Proof.
  revert m s n. induction l as [|op l IH]; intros m s n Hm Hb Hn Hl Hlen Hfits; cbn [map_steps foldl]; [by exists m|].
  apply Forall_cons_1 in Hl as [Hop Hl]. rewrite lenZ_cons in *. pose proof (lenZ_nonneg l).
  assert (exists m1, map_step m op = Some m1 /\ represents m1 (spec_step s op) /\ bounded (n + 1) m1) as (m1 & E1 & Hm1 & Hb1).
  { assert (Hmono : forall m', bounded n m' -> bounded (n + 1) m') by (intros m' [? ?]; split; lia).
    destruct op as [r id|id]; cbn [map_step spec_step].
    - rewrite (lookup_owner m r (rep_ok _ _ Hm) Hop), (rep_owner _ _ Hm r Hop). cbn [mbind option_bind].
      destruct (s !! addr r) eqn:Er; [exists m; auto|].
      destruct (learn_represents m s r id n Hm Hb ltac:(lia) Hop Er) as (m1 & E1 & ? & ?); [intros k Hk; apply Hfits; lia|].
      exists m1. by rewrite E1.
    - destruct (forget_represents m s id n Hm Hb) as (m1 & E1 & Hm1 & Hb1). exists m1. auto. }
  rewrite E1. cbn [mbind option_bind]. apply (IH m1 _ (n + 1)); try done; [lia..|]. intros k Hk. apply Hfits. lia.
Qed.

(** C16: whatever agents are learnt and forgotten, the map of the registry is
    total and answers every lookup as a finite map from addresses with ports to
    agents does, provided memory suffices for four times as many entries as there
    are operations: tombstones and growth cannot be observed. *)
Theorem mux_map_refines ops :
  Forall op_inet ops -> lenZ ops < 2 ^ 28 - 1 -> (forall k, k <= 16 + 4 * lenZ ops -> map_fits k = true) ->
  exists m, map_steps map_init ops = Some m /\
    forall r, inet r -> lookup_address m r = Some (foldl spec_step ∅ ops !! addr r).
Proof.
  intros Hops Hlen Hfits.
  destruct (map_steps_represents ops map_init ∅ 0 init_represents) as (m & E & Hm); try done. exists m. split; [done|].
  intros r Hr. rewrite (lookup_owner m r (rep_ok _ _ Hm) Hr). f_equal. by apply (rep_owner _ _ Hm).
Qed.

(** C40: when a new address makes the map grow and there is no memory, inserting
    it never returns: the failure of [grow_map] is not looked at and the
    insertion calls itself with the map unchanged.  To whatever depth its calls are
    followed, every access is defined and it has not returned. *)
Theorem mux_insert_never_returns depth m s r id :
  represents m s -> inet r -> s !! addr r = None -> map_size m <= map_count m * 2 -> map_fits (map_size m * 2) = false ->
  insert_map_entry map_fits depth m r (Some id) = Unreturned.
Proof. intros [Hm Ho] Hr Hn Hl Hfits. apply insert_stuck; try done. by rewrite Ho. Qed.
End Map.
