(* ===== verification/ConnMuxCorrect.v ===== *)
(** * What the connection multiplexer does

    Every address of the map points to an agent that exists, which with the
    invariant of the registry is kept by each step of the thread and of the
    application; where a datagram goes; the time the thread waits for. *)

From S2P Require Import Prelude Machine CStdio Addr StunMsg StunWriteCorrect StunRead StunReadSafe StunReceived Turn TurnTable Ice ServerHandlers.
From S2P Require Import AgentState Agent AgentStep AgentApi AgentInv AgentTurn AgentSend AgentBinding AgentInput AgentAct AgentOps AgentCorrect.
From S2P Require Import Conn ConnInv ConnMux ConnMuxMap.
From stdpp Require Import list.
#[local] Open Scope Z_scope.
#[local] Open Scope machine_scope.

Abbreviation mux_inv := (conn_inv (C := conn_impl) (R := registry_impl)).

Section Inv.
Context `{Platform, Scan, Resolver, Hashes, !AgentEnvironment, !AgentLaws}.

(** ** The part of the mode *)
Record mux_part (n : Z) (r : mux_registry) : Prop := {
  mp_map : map_ok (reg_map r) /\ bounded n (reg_map r);
  mp_owners : forall src id, inet src -> owner (reg_map r) src = Some id -> exists a, agent_at r id a
}.

#[local] Obligation Tactic := idtac.
#[export] Program Instance mux_laws : ConnModeLaws conn_impl registry_impl := {
  mode_inv := mux_part;
  conn_keeps _ _ := True
}.
Next Obligation. done. Qed.
Next Obligation. done. Qed.
Next Obligation. intros n n' r [[Hm [Hc Hs]] Ho] Hn. split; [|done]. split; [done|]. split; lia. Qed.
Next Obligation.
  intros n l Hn _. split.
  - split; [apply (rep_ok _ _ init_represents)|]. split; [done|]. change (map_size (reg_map (new_registry l))) with 16. lia.
  - intros src id _ Ho. assert (owner map_init src = None) as E by by apply map_owner_none, Forall_replicate. cbn in Ho. congruence.
Qed.
Next Obligation.
  intros n r id a a' [Hm Ho] Ha _ _. split; [done|]. intros src id' Hs Hid. destruct (Ho src id' Hs Hid) as [b Hb].
  destruct (decide (id' = id)) as [->|Hne]; [exists a'|exists b]; apply (put_at r id a); try done; [by rewrite decide_True|by rewrite decide_False].
Qed.
Next Obligation. intros n r Hr _. by destruct Hr. Qed.
Next Obligation.
  intros n r i new sock [Hm Ho] _ _. split; [done|]. intros src id Hs Hid. destruct (Ho src id Hs Hid) as [b Hb]. exists b. apply place_at. by left.
Qed.
Next Obligation.
  intros n r id a [[Hm [Hc Hsz]] Ho] _ Ha. destruct (remove_spec (reg_map r) id Hm) as (m' & E & Hm' & Hs' & Hc' & Ho').
  cbn [cleanup_func mux_mode]. unfold conn_mux_cleanup. change (impl_map (reg_impl r)) with (reg_map r). rewrite E. cbn [mbind option_bind].
  eexists. split; [reflexivity|]. split; [split; [done|]; split; cbn; lia|].
  intros src id' Hs Hid. apply Ho' in Hid as [Hid Hd]; [|done]. destruct (Ho src id' Hs Hid) as [b Hb]. exists b. apply remove_at; done.
Qed.


Lemma mux_map_of n r : mux_inv n r -> map_ok (reg_map r) /\ bounded n (reg_map r).
Proof. intros Hr. apply (ci_mode _ _ Hr). Qed.

Lemma mux_owners n r src id : mux_inv n r -> inet src -> owner (reg_map r) src = Some id -> exists a, agent_at r id a.
Proof. intros Hr. apply (ci_mode _ _ Hr). Qed.

Lemma mux_slots n r i id : mux_inv n r -> reg_agents r !! i = Some (Some id) -> exists a, agent_at r id a.
Proof. intros Hr Hi. destruct (so_slots _ (ci_slots _ _ Hr) i id Hi) as (a & Ha & _). by exists a. Qed.

(** ** Parts of a step *)
Lemma is_ready_spec id a m Q : agent_at (registry m) id a -> Q (negb (conn_finished (ca_conn a))) m -> spec (is_ready id) m Q.
Proof. intros Ha HQ. unfold is_ready. apply spec_bind. by apply (get_agent_spec id a). Qed.

Lemma first_ready_spec n l f m : mux_inv n (registry m) ->
  (forall id m1, stays n m m1 -> (exists a, agent_at (registry m1) id a) -> spec (f id) m1 (fun _ m2 => stays n m1 m2)) ->
  (forall id, Some id ∈ l -> exists i, reg_agents (registry m) !! i = Some (Some id)) ->
  spec (first_ready l f) m (fun found m' => stays n m m' /\ match found with Some id => exists a, agent_at (registry m') id a | None => True end).
Proof.
  intros Hr Hf Hl. assert (Hgen : forall m1, stays n m m1 -> spec (first_ready l f) m1 (fun found m' => stays n m m' /\ match found with Some id => exists a, agent_at (registry m') id a | None => True end)); [|by apply Hgen, stays_refl].
  induction l as [|[id|] l IH]; intros m1 Hm1; cbn [first_ready]; [by apply spec_ret| |apply IH; [|done]; intros id' Hin; apply Hl; by right].
  destruct (Hl id ltac:(left)) as [i Hi]. destruct (stays_slot _ _ _ _ _ Hm1 Hi) as [a Ha].
  apply spec_bind. apply (is_ready_spec id a); [done|]. apply spec_bind.
  apply (spec_mono _ _ (fun _ m2 => stays n m m2)).
  { case_test; [|by apply spec_ret]. eapply spec_mono; [apply Hf; [done|by exists a]|]; cbn beta. intros ? m2. by apply (stays_trans n). }
  intros found m2 Hm2. case_test; [apply spec_ret; split; [done|]; by eapply stays_slot|]. apply IH; [|done]. intros id' Hin. apply Hl. by right.
Qed.

Lemma each_ready_spec n f m : mux_inv n (registry m) ->
  (forall id a m1, stays n m m1 -> agent_at (registry m1) id a -> spec (f id) m1 (fun _ m2 => stays n m1 m2)) ->
  spec (each_ready f) m (fun _ m' => stays n m m').
Proof.
  intros Hr Hf. unfold each_ready. apply spec_bind, spec_gets. apply (spec_each (fun m' => stays n m m')); [|by apply stays_refl].
  intros [id|] m1 Hin Hm1; [|by apply spec_ret]. destruct (registered n m id Hr Hin) as [i Hi].
  destruct (stays_slot _ _ _ _ _ Hm1 Hi) as [a Ha]. apply spec_bind. apply (is_ready_spec id a); [done|].
  case_test; [|by apply spec_ret]. eapply spec_mono; [by apply (Hf id a)|]; cbn beta. intros ? m2. by apply (stays_trans n).
Qed.

(** ** A datagram *)
Variable map_fits : Z -> bool.

(** Memory for what [n] addresses need. *)
Definition memory_for (n : Z) : Prop := n < 2 ^ 28 /\ forall k, k <= 16 + 4 * n -> map_fits k = true.

(** What is known of a source that the map does not have yet. *)
Definition unknown (m : mmachine) (src : addr_record) : Prop := inet src /\ owner (reg_map (registry m)) src = None.

Lemma insert_address_spec n src id a m : mux_inv n (registry m) -> 0 <= n -> memory_for (n + 1) -> agent_at (registry m) id a -> unknown m src ->
  spec (insert_address map_fits src id) m (fun _ m' => stays (n + 1) m m').
Proof.
  intros Hr Hn [Hmax Hfits] Ha [Hs Ho]. destruct (mux_map_of _ _ Hr) as [Hm [Hc Hsz]]. unfold insert_address. apply spec_bind, spec_gets, spec_bind.
  destruct (insert_spec map_fits (reg_map (registry m)) src id Hm Hs Ho) as (m' & E & [Hm' Ho' Hc' Hs']); [lia|intros Hl; apply Hfits; lia|].
  eapply spec_defined; [exact (f_equal returned E)|]. apply spec_modify. split; [|done]. cbn [memory]. apply (impl_inv n); [done|]. split.
  - split; [done|]. split; cbn; lia.
  - intros src' id' Hi' Ho1. change (owner m' src' = Some id') in Ho1. rewrite Ho' in Ho1 by done. revert Ho1. case_bool_decide; [|intros Ho1; by apply (mux_owners n (registry m) src')].
    intros [= <-]. by exists a.
Qed.

Lemma has_transaction_spec n id a tid m : mux_inv n (registry m) -> agent_at (registry m) id a -> is_tid tid ->
  spec (has_transaction tid id) m (fun _ m' => stays n m m').
Proof.
  intros Hr Ha Ht. unfold has_transaction. apply spec_bind. eapply spec_mono; [apply (on_agent_good n id a)|]; try done; cbn beta.
  - intros p Hi _. unfold agent_find_entry_from_transaction_id. apply spec_bind, spec_gets.
    eapply spec_mono; [apply (find_entry_tid_spec None); [done|done|lia]|]; cbn beta. by intros ? p' [[Hg _] _].
Qed.

(** An agent was found, and the map still does not have the source unless it was learnt. *)
Definition found_ok (m : mmachine) (found : option nat) : Prop := match found with Some id => exists a, agent_at (registry m) id a | None => True end.

Lemma lookup_ufrag_spec n l r src m : mux_inv n (registry m) -> 0 <= n -> memory_for (n + 1) -> unknown m src ->
  spec (lookup_ufrag map_fits l r src) m (fun found m' => stays (n + 1) m m' /\ found_ok m' found).
Proof.
  intros Hr Hn Hfits Hu. unfold lookup_ufrag. apply spec_bind, spec_gets, spec_bind.
  eapply (spec_mono _ _ (fun found m1 => m1 = m /\ found_ok m found)).
  { assert (Hl : forall id, Some id ∈ reg_agents (registry m) -> exists a, agent_at (registry m) id a).
    { intros id Hin. destruct (registered n m id Hr Hin) as [i Hi]. by apply (mux_slots n _ i). }
    induction (reg_agents (registry m)) as [|[id|] slots IH]; cbn [first_ready]; [by apply spec_ret| |apply IH; intros id' Hin; apply Hl; by right].
    destruct (Hl id ltac:(left)) as [a Ha]. apply spec_bind. apply (is_ready_spec id a); [done|]. apply spec_bind.
    eapply (spec_mono _ _ (fun _ m1 => m1 = m)).
    { case_test; [|by apply spec_ret]. unfold has_ufrag. apply spec_bind. by apply (get_agent_spec id a). }
    intros b ? ->. case_test; [apply spec_ret; split; [done|]; by exists a|]. apply IH. intros id' Hin. apply Hl. by right. }
  intros found ? [-> Hf]. destruct found as [id|].
  - destruct Hf as [a Ha]. apply spec_bind. eapply spec_mono; [by apply (insert_address_spec n src id a)|]; cbn beta. intros ? m1 Hm1.
    apply spec_ret. split; [done|]. pose proof (so_registered _ (ci_slots _ _ Hr) id a Ha) as Hslot. by eapply stays_slot.
  - assert (Hs : stays (n + 1) m m) by (split; [apply (inv_more n); [done|lia]|done]).
    apply spec_bind, spec_gets. case_test; [|by apply spec_ret]. destruct (getnameinfo src) as [[host service]|]; [|by apply spec_ret].
    apply spec_bind, spec_emit, spec_ret. by split.
Qed.

Lemma lookup_message_spec n msg src m : mux_inv n (registry m) -> 0 <= n -> memory_for (n + 1) -> unknown m src -> message_ok msg ->
  spec (lookup_message map_fits msg src) m (fun found m' => stays (n + 1) m m' /\ found_ok m' found).
Proof.
  intros Hr Hn Hfits Hu Hm. assert (Hs : stays (n + 1) m m) by (split; [apply (inv_more n); [done|lia]|done]). unfold lookup_message. case_test.
  - destruct (split_username _) as [[l r]|]; [|by apply spec_ret]. by apply lookup_ufrag_spec.
  - case_test; [by apply spec_ret|]. apply spec_bind, spec_gets. eapply spec_mono; [apply (first_ready_spec n); [done| |]|]; cbn beta.
    + intros id m1 [Hr1 _] [a Ha]. apply (has_transaction_spec n id a); [done..|]. apply (mo_tid _ Hm).
    + intros id Hin. by apply (registered n).
    + intros found m' [Hm' Hf]. split; [apply (stays_more n); [done|lia]|done].
Qed.

Lemma lookup_agent_spec n buf size src m : mux_inv n (registry m) -> 0 <= n -> memory_for (n + 1) -> inet src -> datagram buf size ->
  spec (lookup_agent map_fits buf size src) m (fun found m' => stays (n + 1) m m' /\ found_ok m' (fst found) /\ snd found = buf).
Proof.
  intros Hr Hn Hfits Hsrc [Hb Hs]. assert (Hst : stays (n + 1) m m) by (split; [apply (inv_more n); [done|lia]|done]).
  unfold lookup_agent. apply spec_bind, spec_gets, spec_bind.
  eapply spec_defined; [by apply lookup_owner, Hsrc; apply (mux_map_of _ _ Hr)|].
  destruct (owner (reg_map (registry m)) src) as [id|] eqn:Eo.
  { apply spec_ret. split_and!; [done| |done]. by eapply mux_owners. }
  destruct (is_stun_total buf size Hs) as [stun Est]. apply spec_bind. eapply spec_defined; [exact Est|].
  case_test; [by apply spec_ret|]. destruct (stun_read_total buf size Hb Hs) as (msg & result & Er & _).
  apply spec_bind. eapply spec_defined; [exact Er|]. cbn beta iota. case_test; [by apply spec_ret|].
  apply spec_bind. eapply spec_mono; [apply (lookup_message_spec n); [done..|by split|by eapply read_message_ok]|]; cbn beta.
  intros found m' [Hm' Hf]. by apply spec_ret.
Qed.

Lemma demultiplex_spec n buf size src m : mux_inv n (registry m) -> 0 <= n -> memory_for (n + 1) -> inet src -> record_wf src -> datagram buf size ->
  spec (demultiplex map_fits buf size src) m (fun _ m' => stays (n + 1) m m').
Proof.
  intros Hr Hn Hfits Hsrc Hwf Hd. unfold demultiplex. apply spec_bind. eapply spec_mono; [by apply (lookup_agent_spec n)|]; cbn beta.
  intros [found buf'] m1 (Hm1 & Hf & E). cbn in Hf, E. subst buf'. destruct found as [id|]; [|by apply spec_ret]. destruct Hf as [a Ha].
  apply spec_bind. apply (is_ready_spec id a); [done|]. case_test; [by apply spec_ret|].
  apply spec_bind. eapply spec_mono; [apply (on_agent_good (n + 1) id a); [apply Hm1|done|]|]; cbn beta.
  { intros p Hi _. by apply conn_recv_spec. }
  intros result m2 Hm2. pose proof (so_registered _ (ci_slots _ _ (proj1 Hm1)) id a Ha) as Hslot. destruct (stays_slot _ _ _ _ _ Hm2 Hslot) as [a2 Ha2].
  assert (Hm02 : stays (n + 1) m m2) by (by eapply stays_trans).
  case_test; [|apply spec_bind, spec_ask]; (eapply spec_mono; [by eapply set_conn_spec; [apply Hm2|exact Ha2|]|]); cbn beta;
    intros ? m3 Hm3; by apply (stays_trans (n + 1) _ _ _ _ Hm02).
Qed.

Lemma receive_spec n d m : mux_inv n (registry m) -> 0 <= n -> memory_for (n + 1) -> datagram_ok d ->
  spec (receive map_fits d) m (fun _ m' => stays (n + 1) m m').
Proof.
  intros Hr Hn Hfits Hd. destruct d as [payload src]. destruct (received_datagram payload src (asked m) Hd) as (Hdg & Hwf & Hi). unfold receive.
  rewrite conn_recv_unmapped. case_test; [apply spec_ret; split; [apply (inv_more n); [done|lia]|done]|].
  apply spec_bind, spec_ask. eapply spec_mono; [by apply (demultiplex_spec n)|]; cbn beta. intros ? m' Hm'. exact Hm'.
Qed.

(** ** A turn of the thread *)
Lemma conn_mux_fail_spec n m : mux_inv n (registry m) -> spec conn_mux_fail m (fun _ m' => stays n m m').
Proof.
  intros Hr. unfold conn_mux_fail. apply (each_ready_spec n); [done|]. intros id a m1 [Hr1 _] Ha.
  apply spec_bind. eapply spec_mono; [apply (on_agent_good n id a); [done..|]|]; cbn beta.
  { intros p Hi Hc. by apply conn_fail_spec. }
  intros ? m2 Hm2. destruct (stays_slot _ _ _ _ _ Hm2 (so_registered _ (ci_slots _ _ Hr1) id a Ha)) as [a2 Ha2].
  eapply spec_mono; [by eapply set_conn_spec; [apply Hm2|exact Ha2|]|]; cbn beta. intros ? m3. by apply (stays_trans n).
Qed.

Lemma update_agent_spec n id a m : mux_inv n (registry m) -> agent_at (registry m) id a ->
  spec (update_agent id) m (fun _ m' => stays n m m').
Proof.
  intros Hr Ha. unfold update_agent. apply spec_bind. apply (get_agent_spec id a); [done|]. apply spec_bind, spec_ask.
  set (m0 := mkMachine _ _ _). assert (Hm0 : stays n m m0) by by split. case_test; [|by apply spec_ret].
  apply spec_bind. eapply spec_mono; [apply (on_agent_good n id a); [done..|]|]; cbn beta.
  { intros p Hi Hc. by apply agent_bookkeeping_spec; [|apply Hc]. }
  intros next m1 Hm1. destruct (stays_slot _ _ _ _ _ Hm1 (so_registered _ (ci_slots _ _ Hr) id a Ha)) as [a1 Ha1].
  eapply spec_mono; [by eapply set_conn_spec; [apply Hm1|exact Ha1|]|]; cbn beta. intros ? m2. by apply (stays_trans n).
Qed.

Lemma receive_all_spec n ds m : mux_inv n (registry m) -> 0 <= n -> memory_for (n + lenZ ds) -> Forall datagram_ok ds ->
  spec (each ds (receive map_fits)) m (fun _ m' => stays (n + lenZ ds) m m').
Proof.
  intros Hr Hn Hfits Hds. revert n m Hr Hn Hfits. induction Hds as [|d ds Hd Hds IH]; intros n m Hr Hn Hfits; cbn [each].
  { apply spec_ret. split; [apply (inv_more n); [done|]|done]. change (lenZ (@nil (list Z * addr_record))) with 0. lia. }
  rewrite lenZ_cons in *. pose proof (lenZ_nonneg ds). destruct Hfits as [Hmax Hfits].
  apply spec_bind. eapply spec_mono; [apply (receive_spec n); [done|done| |done]|]; cbn beta.
  { split; [lia|]. intros k Hk. apply Hfits. lia. }
  intros ? m1 Hm1. eapply spec_mono; [apply (IH (n + 1)); [apply Hm1|lia|]|]; cbn beta.
  { split; [lia|]. intros k Hk. apply Hfits. lia. }
  intros ? m2 Hm2. apply (stays_more (n + 1 + lenZ ds)); [by eapply stays_trans|lia].
Qed.

(** The datagrams of a result of [poll]. *)
Definition received (r : poll_result) : list (list Z * addr_record) := match r with PollError => [] | PollIn ds _ => ds end.

Lemma conn_process_spec n r m : mux_inv n (registry m) -> 0 <= n -> memory_for (n + lenZ (received r)) -> Forall datagram_ok (received r) ->
  spec (conn_mux_process map_fits r) m (fun _ m' => stays (n + lenZ (received r)) m m').
Proof.
  intros Hr Hn Hfits Hds. destruct r as [|ds failed]; cbn [conn_mux_process received] in *.
  - apply spec_bind. eapply spec_mono; [by apply (conn_mux_fail_spec n)|]; cbn beta. intros ? m1 Hm1. apply spec_ret.
    apply (stays_more n); [done|]. unfold lenZ. cbn. lia.
  - apply spec_bind. eapply spec_mono; [by apply (receive_all_spec n)|]; cbn beta. intros ? m1 Hm1. pose proof (proj1 Hm1) as Hr1.
    case_test; apply spec_bind; (eapply spec_mono; [first [by apply conn_mux_fail_spec | apply (each_ready_spec (n + lenZ ds)); [done|]]|]); cbn beta.
    + intros ? m2 Hm2. apply spec_ret. by eapply stays_trans.
    + intros id b m2 [Hr2 _] Hb. by apply (update_agent_spec _ id b).
    + intros ? m2 Hm2. apply spec_ret. by eapply stays_trans.
Qed.

(** ** Runs *)

(** What the system delivers and the application does. *)
Definition mux_op_ok (op : mux_op) : Prop :=
  match op with
  | Process r => Forall datagram_ok (received r)
  | Conn op => conn_op_ok op
  | _ => True
  end.

(** The datagrams of a run, each of which can make an address known. *)
Definition received_by (op : mux_op) : Z := match op with Process r => lenZ (received r) | _ => 0 end.

Lemma listen_spec n acquired cb interrupted m : mux_inv n (registry m) -> 0 <= n ->
  spec (juice_mux_listen acquired cb interrupted) m (fun _ m' => mux_inv n (registry m')).
Proof.
  intros Hr Hn. assert (Hset : forall b, mux_inv n (set_listening b (registry m))).
  { intros b. apply (impl_inv n); [done|]. by destruct (ci_mode _ _ Hr). }
  unfold juice_mux_listen. apply spec_bind, spec_gets. case_test; [by apply spec_ret|]. apply spec_bind.
  apply (spec_mono _ _ (fun _ m1 => mux_inv n (registry m1))).
  - unfold conn_mux_listen, conn_mux_stop_listen. case_test; [apply spec_bind, spec_modify, spec_ret, Hset|].
    apply spec_bind, spec_gets. case_test; [by apply spec_ret|apply spec_bind, spec_modify, spec_ret, Hset].
  - intros result m1 Hr1. apply spec_bind. eapply spec_mono; [by apply (release_spec n)|]; cbn beta. intros ? m2 Hr2. by apply spec_ret.
Qed.

Lemma mux_step_spec n op m : mux_inv n (registry m) -> 0 <= n -> memory_for (n + received_by op) -> mux_op_ok op ->
  spec (mux_step map_fits op) m (fun _ m' => mux_inv (n + received_by op) (registry m')).
Proof.
  intros Hr Hn Hfits Hop. destruct op as [r|b1 cb b2|op]; cbn [mux_op_ok received_by mux_step] in *; rewrite ?Z.add_0_r.
  - apply spec_bind. eapply spec_mono; [by apply (conn_process_spec n)|]; cbn beta. intros ? m1 [Hr1 _]. by apply spec_ret.
  - apply spec_bind. eapply spec_mono; [by apply (listen_spec n)|]; cbn beta. intros ? m1 Hr1. by apply spec_ret.
  - by apply conn_step_spec.
Qed.

(** The number of datagrams of a run. *)
Definition all_received (ops : list mux_op) : Z := foldr (fun op n => received_by op + n) 0 ops.

Lemma received_by_nonneg op : 0 <= received_by op.
Proof. destruct op; cbn; [apply lenZ_nonneg|lia..]. Qed.

Lemma all_received_nonneg ops : 0 <= all_received ops.
Proof. induction ops as [|op ops IH]; [done|]. pose proof (received_by_nonneg op). cbn [all_received foldr]. unfold all_received in IH. lia. Qed.

Lemma mux_steps_spec n ops m : mux_inv n (registry m) -> 0 <= n -> memory_for (n + all_received ops) -> Forall mux_op_ok ops ->
  spec (mux_steps map_fits ops) m (fun _ m' => mux_inv (n + all_received ops) (registry m')).
Proof.
  intros Hr Hn Hfits Hops. revert n m Hr Hn Hfits. induction Hops as [|op ops Hop Hops IH]; intros n m Hr Hn Hfits.
  { apply spec_ret. cbn. by rewrite Z.add_0_r. }
  unfold mux_steps. cbn [each]. change (all_received (op :: ops)) with (received_by op + all_received ops) in *. pose proof (all_received_nonneg ops).
  pose proof (received_by_nonneg op). destruct Hfits as [Hmax Hfits].
  apply spec_bind. eapply spec_mono; [apply (mux_step_spec n); [done|done| |done]|]; cbn beta.
  { split; [lia|]. intros k Hk. apply Hfits. lia. }
  intros ? m1 Hm1. eapply spec_mono; [apply (IH (n + received_by op)); [done|lia|]|]; cbn beta.
  { split; [lia|]. intros k Hk. apply Hfits. lia. }
  intros ? m2. by rewrite Z.add_assoc.
Qed.

Lemma mux_start_inv : mux_inv 0 (registry mux_start).
Proof. apply conn_start_inv. Qed.

(** ** What becomes of a datagram *)

(** The registry after [agent_conn_recv] left the agent's machine [p]. *)
Definition delivered (r : mux_registry) (id : nat) (a : mux_agent) (p : amachine) : mux_registry :=
  r <| memory_of_agents ::= <[id := Some (mkConnAgent (agent p) (mkConn (now_ms (asked p)) false) (ca_conn_index a))]> |>.

(** From [m] on, agent [id] is handed the datagram and nothing else happens. *)
Definition delivers (buf : list Z) (size : Z) (src : addr_record) (id : nat) (a : mux_agent) (m m' : mmachine) : Prop :=
  exists p, agent_conn_recv buf size src (own_machine a m) = Some (0, p) /\ inv None (agent p) /\
    m' = mkMachine (delivered (registry m) id a p) (S (asked p)) ((FromAgent id <$> events p) ++ events m).

Lemma conn_recv_zero buf size src p v p' : agent_conn_recv buf size src p = Some (v, p') -> v = 0.
Proof. unfold agent_conn_recv, bind. destruct (agent_input _ _ _ _ p) as [[? ?]|]; [|done]. by intros [= <- _]. Qed.

Lemma demultiplex_found buf size src id a m m1 : lookup_agent map_fits buf size src m = Some ((Some id, buf), m1) ->
  agent_at (registry m1) id a ->
  inv None (ca_agent a) -> conn_finished (ca_conn a) = false -> record_wf src -> datagram buf size ->
  exists m', demultiplex map_fits buf size src m = Some (tt, m') /\ delivers buf size src id a m1 m'.
Proof.
  intros El Ha Hi Hf Hsrc Hd. pose proof (conn_recv_spec buf size src (own_machine a m1) Hd Hsrc Hi) as Hrun. unfold spec in Hrun.
  destruct (agent_conn_recv buf size src (own_machine a m1)) as [[v p]|] eqn:Er; [|done]. pose proof (conn_recv_zero _ _ _ _ _ _ Er) as ->.
  eexists. split; [|exists p; split_and!; [done|apply Hrun|reflexivity]].
  unfold demultiplex. unfold bind at 1. rewrite El. cbn beta iota. unfold bind at 1, is_ready. unfold bind at 1. rewrite (get_agent_at id a) by done.
  unfold ret at 1. rewrite Hf. cbn [negb]. unfold bind at 1, on_agent at 1. rewrite (get_agent_at id a) by done. fold (own_machine a m1). rewrite Er. cbn [Z.eqb negb].
  unfold bind at 1, ask. cbn [memory asked events]. unfold set_conn, bind at 1. pose proof (lookup_lt_Some _ _ _ Ha) as Hlt.
  rewrite (get_agent_at id (a <| ca_agent := agent p |>)) by (unfold agent_at; cbn; by apply list_lookup_insert_eq).
  unfold modify. cbn [memory asked events]. do 2 f_equal. f_equal. unfold delivered, put_agent. unfold upd, updater, expand; cbn.
  by rewrite Hf, list_insert_insert_eq.
Qed.

Lemma receive_run payload src (m : mmachine) : lenZ payload <> 0 ->
  receive map_fits (payload, src) m =
  demultiplex map_fits (received_in payload (buffer_of (asked m))) (lenZ payload) (unmapped src) (mkMachine (registry m) (S (asked m)) (events m)).
Proof. intros Hp. unfold receive. rewrite conn_recv_unmapped, (proj2 (Z.eqb_neq _ _)) by done. done. Qed.

(** [a] is the agent that a request for [ufrag] is for: the first of those that
    are ready and have this user fragment. *)
Definition first_named (r : mux_registry) (ufrag : list Z) (id : nat) (a : mux_agent) : Prop :=
  exists i, reg_agents r !! i = Some (Some id) /\ agent_at r id a /\ conn_finished (ca_conn a) = false /\ ice_ufrag (a_local (ca_agent a)) = ufrag /\
    forall j id' b, (j < i)%nat -> reg_agents r !! j = Some (Some id') -> agent_at r id' b ->
      conn_finished (ca_conn b) = true \/ ice_ufrag (a_local (ca_agent b)) <> ufrag.

Lemma has_ufrag_run ufrag id a m : agent_at (registry m) id a ->
  has_ufrag ufrag id m = Some (bool_decide (ufrag = ice_ufrag (a_local (ca_agent a))), m).
Proof. intros Ha. unfold has_ufrag, bind. by rewrite (get_agent_at id a). Qed.

Lemma first_ready_named n ufrag id a m : mux_inv n (registry m) -> first_named (registry m) ufrag id a ->
  first_ready (reg_agents (registry m)) (has_ufrag ufrag) m = Some (Some id, m).
Proof.
  intros Hr (i & Hi & Ha & Hf & Hu & Hbefore).
  assert (Hstep : forall id' b l, agent_at (registry m) id' b -> first_ready (Some id' :: l) (has_ufrag ufrag) m =
    if negb (conn_finished (ca_conn b)) && bool_decide (ufrag = ice_ufrag (a_local (ca_agent b))) then Some (Some id', m) else first_ready l (has_ufrag ufrag) m).
  { intros id' b l Hb. cbn [first_ready]. unfold bind at 1, is_ready, bind at 1. rewrite (get_agent_at id' b) by done. unfold ret at 1. unfold bind at 1.
    destruct (conn_finished (ca_conn b)); cbn [negb andb]; [done|]. rewrite (has_ufrag_run _ id' b) by done. by case_bool_decide. }
  assert (Hslots : forall j id', reg_agents (registry m) !! j = Some (Some id') -> exists b, agent_at (registry m) id' b).
  { intros j id'. by apply (mux_slots n). }
  revert i Hi Hbefore. induction (reg_agents (registry m)) as [|slot l IH]; intros i Hi Hbefore; [done|]. destruct i as [|i]; cbn in Hi.
  - injection Hi as ->. rewrite (Hstep id a) by done. rewrite Hf, bool_decide_true by done. done.
  - assert (Hl : first_ready l (has_ufrag ufrag) m = Some (Some id, m)).
    { apply (IH ltac:(intros j id'; apply (Hslots (S j))) i Hi). intros j id' b Hj. apply (Hbefore (S j)). lia. }
    destruct slot as [id'|]; [|exact Hl]. destruct (Hslots 0%nat id' eq_refl) as [b Hb]. rewrite (Hstep id' b) by done.
    destruct (Hbefore 0%nat id' b) as [Hx|Hx]; [lia|done|done| |].
    + by rewrite Hx.
    + rewrite bool_decide_false by congruence. by rewrite andb_false_r.
Qed.

(** ** The time to wait for *)

(** What the loop of [conn_mux_prepare] makes of a slot. *)
Definition earlier (r : mux_registry) (next : Z) (slot : option nat) : Z :=
  match mjoin ((fun id => mjoin (memory_of_agents r !! id)) <$> slot) with
  | Some a => if negb (conn_finished (ca_conn a)) && (conn_next_timestamp (ca_conn a) <? next) then conn_next_timestamp (ca_conn a) else next
  | None => next
  end.

(** A time some ready agent of the slots is due at. *)
Definition due_at (r : mux_registry) (slots : list (option nat)) (t : Z) : Prop :=
  exists id a, Some id ∈ slots /\ agent_at r id a /\ conn_finished (ca_conn a) = false /\ conn_next_timestamp (ca_conn a) = t.

Lemma earlier_spec r next slot : let t := earlier r next slot in
  t <= next /\ (t = next \/ due_at r [slot] t) /\ forall t', due_at r [slot] t' -> t <= t'.
Proof.
  unfold earlier, due_at. destruct slot as [id|]; cbn.
  - destruct (memory_of_agents r !! id) as [[a|]|] eqn:Ea; cbn.
    + destruct (conn_finished (ca_conn a)) eqn:Ef; cbn.
      * split_and!; [lia|by left|]. intros t' (id' & b & Hin & Hb & Hfb & _). apply list_elem_of_singleton in Hin. unfold agent_at in *. congruence.
      * split_and!.
        -- case_test; zify_bool; lia.
        -- case_test; [right|by left]. exists id, a. split_and!; try done. by apply list_elem_of_singleton.
        -- intros t' (id' & b & Hin & Hb & Hfb & <-). apply list_elem_of_singleton in Hin. unfold agent_at in *.
           assert (b = a) as -> by congruence. case_test; zify_bool; lia.
    + split_and!; [lia|by left|]. intros t' (id' & b & Hin & Hb & _). apply list_elem_of_singleton in Hin. unfold agent_at in *. congruence.
    + split_and!; [lia|by left|]. intros t' (id' & b & Hin & Hb & _). apply list_elem_of_singleton in Hin. unfold agent_at in *. congruence.
  - split_and!; [lia|by left|]. intros t' (id' & b & Hin & _). by apply list_elem_of_singleton in Hin.
Qed.

Lemma due_at_cons r slot slots t : due_at r (slot :: slots) t <-> due_at r [slot] t \/ due_at r slots t.
Proof.
  unfold due_at. split.
  - intros (id & a & Hin & Hx). apply elem_of_cons in Hin as [Hin|Hin]; [left|right]; exists id, a; (split; [|done]); [|done]. by apply list_elem_of_singleton.
  - intros [(id & a & Hin & Hx)|(id & a & Hin & Hx)]; exists id, a; (split; [|done]); [apply list_elem_of_singleton in Hin as <-; left|by right].
Qed.

Lemma earliest_spec r slots next : let t := foldl (earlier r) next slots in
  t <= next /\ (t = next \/ due_at r slots t) /\ forall t', due_at r slots t' -> t <= t'.
Proof.
  revert next. induction slots as [|slot slots IH]; intros next; cbn [foldl].
  { split_and!; [lia|by left|]. intros t' (id & a & Hin & _). by apply not_elem_of_nil in Hin. }
  destruct (earlier_spec r next slot) as (Hle & Heq & Hmin). destruct (IH (earlier r next slot)) as (Hle' & Heq' & Hmin').
  set (t := foldl _ _ slots) in *. split_and!; [lia| |].
  - destruct Heq' as [-> |Hd]; [|right; apply due_at_cons; by right]. destruct Heq as [-> |Hd]; [by left|right; apply due_at_cons; by left].
  - intros t' Hd. apply due_at_cons in Hd as [Hd|Hd]; [specialize (Hmin t' Hd); lia|by apply Hmin'].
Qed.

(** ** Theorems *)

(** C15: whatever the socket delivers, the application calls and agents come and
    go, no turn of the thread and no call leaves the language, provided memory
    suffices for four times as many addresses as there are datagrams: every agent
    keeps its own invariant, and every slot of the registry and every address of
    the map points to an agent that has not been destroyed. *)
Theorem mux_run_safe ops : Forall mux_op_ok ops -> memory_for (all_received ops) ->
  exists m, mux_steps map_fits ops mux_start = Some (tt, m) /\ mux_inv (all_received ops) (registry m).
Proof.
  intros Hops Hfits. pose proof (mux_steps_spec 0 ops mux_start mux_start_inv ltac:(lia) Hfits Hops) as Hs. unfold spec in Hs.
  destruct (mux_steps map_fits ops mux_start) as [[[] m]|]; [|done]. by exists m.
Qed.

(** C18: a datagram from an address the map has goes to the agent of that address
    and to no other, whatever it contains; when the agent has failed it is
    dropped.  The agent is then due at once. *)
Theorem mux_known_address n payload src id a m :
  mux_inv n (registry m) -> datagram_ok (payload, src) -> lenZ payload <> 0 ->
  owner (reg_map (registry m)) (unmapped src) = Some id -> agent_at (registry m) id a ->
  let m1 := mkMachine (registry m) (S (asked m)) (events m) in
  exists m', receive map_fits (payload, src) m = Some (tt, m') /\
    if conn_finished (ca_conn a) then m' = m1
    else delivers (received_in payload (buffer_of (asked m))) (lenZ payload) (unmapped src) id a m1 m'.
Proof.
  intros Hr Hd Hp Ho Ha m1. destruct (received_datagram payload src (asked m) Hd) as (Hdg & Hwf & Hi). rewrite receive_run by done. fold m1.
  assert (El : lookup_agent map_fits (received_in payload (buffer_of (asked m))) (lenZ payload) (unmapped src) m1 =
    Some ((Some id, received_in payload (buffer_of (asked m))), m1)).
  { unfold lookup_agent, bind at 1, gets. cbn [memory m1]. unfold bind at 1, defined at 1. rewrite lookup_owner by (done || apply (mux_map_of _ _ Hr)). by rewrite Ho. }
  destruct (conn_finished (ca_conn a)) eqn:Ef; [|apply demultiplex_found; try done; by apply (ci_agents _ _ Hr id)].
  exists m1. split; [|done]. unfold demultiplex, bind at 1. rewrite El. cbn beta iota. unfold bind at 1, is_ready, bind at 1.
  rewrite (get_agent_at id a) by done. unfold ret at 1. by rewrite Ef.
Qed.

(** C17: a Binding request from an address that is not known, with a
    MESSAGE-INTEGRITY attribute and a user name "ufrag:...", goes to the first
    agent that is ready and has this user fragment, and the map keeps the address
    for the agent, the others as they were.  What the attribute contains does not
    matter: the agent verifies it, but the address is kept even if that fails. *)
Theorem mux_request_learnt n payload src l r id a m msg ret' :
  mux_inv n (registry m) -> 0 <= n -> memory_for (n + 1) -> datagram_ok (payload, src) -> lenZ payload <> 0 ->
  let buf := received_in payload (buffer_of (asked m)) in
  owner (reg_map (registry m)) (unmapped src) = None ->
  is_stun_datagram buf (lenZ payload) = Some true -> stun_read buf (lenZ payload) = Some (buf, msg, ret') -> 0 <= ret' ->
  msg_class msg = STUN_CLASS_REQUEST -> msg_method msg = STUN_METHOD_BINDING -> has_integrity msg = true ->
  split_username (username (credentials msg)) = Some (l, r) -> first_named (registry m) l id a ->
  exists map' m', receive map_fits (payload, src) m = Some (tt, m') /\
    delivers buf (lenZ payload) (unmapped src) id a (mkMachine (set_impl_map map' (registry m)) (S (asked m)) (events m)) m' /\
    forall src', inet src' -> owner (reg_map (registry m')) src' = if bool_decide (addr src' = addr (unmapped src)) then Some id else owner (reg_map (registry m)) src'.
Proof.
  intros Hr Hn [Hmax Hfits] Hd Hp buf Ho Est Er Hret Hc Hmt Hin Hu Hfirst. destruct (received_datagram payload src (asked m) Hd) as (Hdg & Hwf & Hi).
  rewrite receive_run by done. fold buf. set (m1 := mkMachine (registry m) _ _).
  pose proof Hfirst as (i & Hslot & Ha & Hf & _). destruct (mux_map_of _ _ Hr) as [Hm [Hcount Hsz]].
  destruct (insert_spec map_fits (reg_map (registry m)) (unmapped src) id Hm Hi Ho) as (map' & E & [Hm' Ho' _ _]); [lia|intros Hl; apply Hfits; lia|].
  set (m2 := mkMachine (set_impl_map map' (registry m)) (S (asked m)) (events m)).
  assert (El : lookup_agent map_fits buf (lenZ payload) (unmapped src) m1 = Some ((Some id, buf), m2)).
  { unfold lookup_agent, bind at 1, gets. cbn [memory m1]. unfold bind at 1, defined at 1. rewrite lookup_owner by (done || apply (mux_map_of _ _ Hr)). rewrite Ho.
    unfold bind at 1, defined at 1. rewrite Est. cbn [negb]. unfold bind at 1, defined at 1. rewrite Er. cbn beta iota.
    rewrite (proj2 (Z.ltb_ge _ _)) by done. unfold bind at 1, lookup_message. rewrite Hc, Hmt, Hin, !Z.eqb_refl, Hu. cbn [andb].
    unfold lookup_ufrag, bind at 1, gets at 1. unfold bind at 1. cbn [memory m1]. change (registry m) with (registry m1).
    rewrite (first_ready_named n l id a m1) by done. unfold bind at 1, insert_address, bind at 1, gets at 1. cbn [memory m1].
    unfold bind at 1, defined at 1. by rewrite E. }
  destruct (demultiplex_found buf (lenZ payload) (unmapped src) id a m1 m2 El) as (m' & Erun & Hdel); try done; [by apply (ci_agents _ _ Hr id)|].
  exists map', m'. split_and!; [done|done|]. destruct Hdel as (p & _ & _ & ->). intros src' Hs'. apply (Ho' src' Hs').
Qed.

(** the thread waits until the first of the ready agents is due, a minute at
    most, and ends exactly when the registry can be released. *)
Theorem mux_waits_for_first n m : mux_inv n (registry m) ->
  exists next count m', conn_mux_prepare m = Some ((next, count), m') /\ registry m' = registry m /\ events m' = events m /\
    next <= now_ms (asked m) + 60000 /\
    (forall id a, agent_at (registry m) id a -> conn_finished (ca_conn a) = false -> next <= conn_next_timestamp (ca_conn a)) /\
    (next = now_ms (asked m) + 60000 \/
     exists id a, agent_at (registry m) id a /\ conn_finished (ca_conn a) = false /\ next = conn_next_timestamp (ca_conn a)) /\
    (0 < count <-> can_release (registry m) = false).
Proof.
  intros Hr. destruct (so_count _ (ci_slots _ _ Hr)) as [Hc _]. pose proof (users_nonneg (reg_agents (registry m))).
  destruct (earliest_spec (registry m) (reg_agents (registry m)) (now_ms (asked m) + 60000)) as (Hle & Heq & Hmin).
  unfold conn_mux_prepare, bind, ask, gets, ret. cbn [memory asked events]. cbv zeta.
  eexists _, _, _. split; [reflexivity|]. split; [done|]. split; [done|]. split; [exact Hle|]. split; [|split].
  - intros id a Ha Hf. apply Hmin. exists id, a. split; [|done]. apply (list_elem_of_lookup_2 _ (ca_conn_index a)). by apply (so_registered _ (ci_slots _ _ Hr)).
  - destruct Heq as [E|(id & a & _ & Ha & Hf & E)]; [by left|right]. by exists id, a.
  - unfold can_release. change (id (registry m)) with (registry m). rewrite Hc.
    cbn [can_release_registry_func mux_mode]. unfold conn_mux_can_release_registry. destruct (cb_mux_incoming (reg_impl (registry m))); cbn [negb].
    + rewrite andb_false_r. split; [done|]. intros _. lia.
    + rewrite andb_true_r, Z.add_0_r, Z.eqb_neq. lia.
Qed.
End Inv.
