(* ===== verification/ConnPoll.v ===== *)
(** * conn_poll.c and conn_thread.c: every agent has its own socket

    Two modes of conn.c.  In the first a thread polls the sockets of all agents
    of the registry: [conn_poll_prepare] lists them, [poll] reports on the list,
    and [conn_poll_process] hands the reports to the agents, with whatever the
    application did in between.  In the second every agent has a thread of its
    own and no registry.  The thread appears as the calls it makes; each is made
    with the registry, or the agent, locked. *)

From S2P Require Import Prelude Machine CStdio Addr.
From S2P Require Import StunMsg StunWrite StunRead Turn Ice AgentState Agent AgentStep AgentApi Conn.

#[local] Open Scope machine_scope.

Definition INVALID_SOCKET : Z := -1.

(** ** A socket that was polled *)

(** What [poll] reports, and what [recvfrom] then finds: the datagrams until it
    has no more, or fails. *)
Inductive poll_report : Type :=
| PollNothing
| PollInvalid
| PollReadable (datagrams : list (list Z * addr_record)) (failed : bool).

(** How the loop over the datagrams ends. *)
Inductive recv_end : Type := RecvDone | RecvError | RecvRefused.

Section Turn.
Context `{Platform, Scan, Resolver, Hashes, AgentEnvironment}.

(** The loop over the datagrams, with the number that is [left], if any limit is set. *)
Fixpoint receive_datagrams (left : option nat) (l : list (list Z * addr_record)) (failed : bool) : A recv_end :=
  match left, l with
  | Some O, _ => ret RecvDone
  | _, [] => ret (if failed then RecvError else RecvDone)
  | _, (payload, src) :: l' =>
    match conn_recv payload src with
    | None => receive_datagrams left l' failed
    | Some src =>
      let* buffer := ask buffer_of in
      let* result := agent_conn_recv (received_in payload buffer) (lenZ payload) src in
      if negb (result =? 0) then ret RecvRefused else receive_datagrams (Nat.pred <$> left) l' failed
    end
  end.

(** What an agent does about the report on its socket, when it is due at
    [next_timestamp]: the next time, unless it has finished. *)
Definition conn_turn (left : option nat) (next_timestamp : Z) (report : poll_report) : A (option Z) :=
  match report with
  | PollInvalid => agent_conn_fail ;; ret None
  | PollReadable datagrams failed =>
    let* ended := receive_datagrams left datagrams failed in
    match ended with
    | RecvRefused => ret None
    | RecvError => agent_conn_fail ;; ret None
    | RecvDone => let* next := agent_conn_update in ret (Some next)
    end
  | PollNothing =>
    let* now := ask now_ms in
    if next_timestamp <=? now then let* next := agent_conn_update in ret (Some next) else ret (Some next_timestamp)
  end.
End Turn.

(** ** conn_poll.c *)
Inductive conn_state : Type := CONN_STATE_NEW | CONN_STATE_READY | CONN_STATE_FINISHED.

#[export] Instance conn_state_eq_dec : EqDecision conn_state.
Proof. solve_decision. Defined.

Record poll_conn := mkPollConn { pc_state : conn_state; pc_sock : Z; pc_next_timestamp : Z }.

#[export] Instance poll_conn_expand : Expand poll_conn := fun c => mkPollConn (pc_state c) (pc_sock c) (pc_next_timestamp c).

Definition is_cstate (s : conn_state) (c : poll_conn) : bool := bool_decide (pc_state c = s).

(** The state that the thread keeps: the socket of every entry of [pfds] but the
    first, which interrupts. *)
Abbreviation pfds := (list Z).
Abbreviation poll_agent := (conn_agent poll_conn).
Abbreviation poll_registry := (conn_registry poll_conn pfds).
Abbreviation poll_event := (conn_event Empty_set).
Abbreviation pmachine := (process poll_registry poll_event).
Abbreviation P := (prog poll_registry poll_event).

(** [conn_poll_init] has created the socket. *)
Definition conn_poll_init (sock : Z) : poll_conn := mkPollConn CONN_STATE_NEW sock 0.

(** What [conn_poll_interrupt] does before it writes to the pipe. *)
Definition conn_poll_interrupt (now : Z) (c : poll_conn) : poll_conn := c <| pc_next_timestamp := now |>.

(** [pfds] is empty when the thread starts, and [conn_poll_cleanup] leaves it as it is. *)
#[export] Instance poll_mode : ConnMode poll_conn pfds := {
  registry_init_func := [];
  init_func := conn_poll_init;
  interrupt_func := conn_poll_interrupt;
  cleanup_func _ l := Some l;
  can_release_registry_func _ := true
}.

Section Poll.
Context `{Platform, Scan, Resolver, Hashes, AgentEnvironment}.

Definition set_pfd (i : nat) (fd : Z) : P unit := modify (fun r => r <| reg_impl ::= <[i := fd]> |>).

(** An entry of [pfds] for the agent in its slot, and the earliest time so far. *)
Definition prepare_pfd (i : nat) (slot : option nat) (next : Z) : P Z :=
  match slot with
  | None => set_pfd i INVALID_SOCKET ;; ret next
  | Some id =>
    let* a := get_agent id in
    if negb (is_cstate CONN_STATE_NEW (ca_conn a)) && negb (is_cstate CONN_STATE_READY (ca_conn a))
    then set_pfd i INVALID_SOCKET ;; ret next
    else
      set_conn id (fun c => c <| pc_state := CONN_STATE_READY |>) ;;
      set_pfd i (pc_sock (ca_conn a)) ;;
      ret (if pc_next_timestamp (ca_conn a) <? next then pc_next_timestamp (ca_conn a) else next)
  end.

Fixpoint prepare_pfds (i : nat) (slots : list (option nat)) (next : Z) : P Z :=
  match slots with
  | [] => ret next
  | slot :: slots' => let* next := prepare_pfd i slot next in prepare_pfds (S i) slots' next
  end.

(** The next time, and the number of agents, or -1.  [reallocated]: there was
    memory for [pfds], should its size change; what is new of it is written before
    it is read. *)
Definition conn_poll_prepare (reallocated : bool) : P (Z * Z) :=
  let* now := ask now_ms in
  let* r := gets id in
  let size := length (reg_agents r) in
  let same := (length (reg_impl r) =? size)%nat in
  if negb same && negb reallocated then ret (now + 60000, -1)
  else
    (if same then ret tt else modify (fun r => r <| reg_impl ::= resize size INVALID_SOCKET |>)) ;;
    let* next := prepare_pfds 0 (reg_agents r) (now + 60000) in
    ret (next, agents_count r).

(** What a turn of its agent leaves. *)
Definition after_turn (next : option Z) (c : poll_conn) : poll_conn :=
  match next with
  | None => c <| pc_state := CONN_STATE_FINISHED |>
  | Some next => c <| pc_next_timestamp := next |>
  end.

(** An entry of [pfds] with the report on it. *)
Definition process_pfd (i : nat) (fd : Z) (report : poll_report) : P unit :=
  if fd =? INVALID_SOCKET then ret tt
  else
    let* slots := gets reg_agents in
    let* slot := defined (slots !! i) in
    match slot with
    | None => ret tt
    | Some id =>
      let* a := get_agent id in
      if negb (pc_sock (ca_conn a) =? fd) || negb (is_cstate CONN_STATE_READY (ca_conn a)) then ret tt
      else
        let* next := on_agent id (conn_turn (Some 1000%nat) (pc_next_timestamp (ca_conn a)) report) in
        set_conn id (after_turn next)
    end.

Fixpoint process_pfds (i : nat) (l : pfds) (reports : nat -> poll_report) : P unit :=
  match l with
  | [] => ret tt
  | fd :: l' => process_pfd i fd (reports i) ;; process_pfds (S i) l' reports
  end.

(** [reports]: what [poll] said of each entry. *)
Definition conn_poll_process (reports : nat -> poll_report) : P unit :=
  let* l := gets reg_impl in process_pfds 0 l reports.

(** *** Runs *)
Inductive poll_op : Type :=
| PollPrepare (reallocated : bool)
| PollProcess (reports : nat -> poll_report)
| PollConn (op : conn_op).

Definition poll_step (op : poll_op) : P unit :=
  match op with
  | PollPrepare reallocated => conn_poll_prepare reallocated ;; ret tt
  | PollProcess reports => conn_poll_process reports
  | PollConn op => conn_step op
  end.

Definition poll_steps (ops : list poll_op) : P unit := each ops poll_step.
End Poll.

Definition poll_start : pmachine := conn_start.

(** ** conn_thread.c *)
Record thread_agent := mkThreadAgent { ta_agent : juice_agent; ta_next_timestamp : Z; ta_stopped : bool }.

#[export] Instance thread_agent_expand : Expand thread_agent := fun a => mkThreadAgent (ta_agent a) (ta_next_timestamp a) (ta_stopped a).

Abbreviation tmachine := (process thread_agent agent_event).
Abbreviation T := (prog thread_agent agent_event).

(** An agent's function runs on its state. *)
Definition in_thread {Y} (x : A Y) : T Y := fun m =>
  match x (mkMachine (ta_agent (memory m)) (asked m) (events m)) with
  | None => None
  | Some (r, p) => Some (r, mkMachine (memory m <| ta_agent := memory p |>) (asked p) (events p))
  end.

Section Thread.
Context `{Platform, Scan, Resolver, Hashes, AgentEnvironment}.

(** The time to wait for, or nothing when the agent was stopped. *)
Definition conn_thread_prepare : T (option Z) :=
  let* a := gets id in ret (if ta_stopped a then None else Some (ta_next_timestamp a)).

(** Whether the thread goes on. *)
Definition conn_thread_process (report : poll_report) : T bool :=
  let* a := gets id in
  if ta_stopped a then ret false
  else
    let* next := in_thread (conn_turn None (ta_next_timestamp a) report) in
    match next with
    | None => ret false
    | Some next => modify (fun a => a <| ta_next_timestamp := next |>) ;; ret true
    end.

Definition conn_thread_interrupt : T unit :=
  let* now := ask now_ms in modify (fun a => a <| ta_next_timestamp := now |>).

(** [conn_thread_cleanup] until the thread has ended. *)
Definition conn_thread_stop : T unit :=
  modify (fun a => a <| ta_stopped := true |>) ;; conn_thread_interrupt.

(** What the application does while the thread waits. *)
Inductive thread_op : Type :=
| ThreadStop
| ThreadInterrupt
| ThreadCall (op : agent_op).

Definition thread_step (op : thread_op) : T unit :=
  match op with
  | ThreadStop => conn_thread_stop
  | ThreadInterrupt => conn_thread_interrupt
  | ThreadCall op => in_thread (agent_step op)
  end.

(** How a call of [poll] ends; it may be interrupted. *)
Inductive poll_end : Type :=
| PollInterrupted
| PollFailed
| PollReported (report : poll_report).

(** [conn_thread_run]: each element is what the application does while the thread
    waits and how the wait ends.  The answer is whether the thread is still there
    when the list ends. *)
Fixpoint conn_thread_run (turns : list (list thread_op * poll_end)) : T bool :=
  match turns with
  | [] => ret true
  | (ops, ended) :: turns' =>
    let* next := conn_thread_prepare in
    match next with
    | None => ret false
    | Some _ =>
      each ops thread_step ;;
      match ended with
      | PollInterrupted => conn_thread_run turns'
      | PollFailed => ret false
      | PollReported report =>
        let* goes_on := conn_thread_process report in
        if goes_on : bool then conn_thread_run turns' else ret false
      end
    end
  end.
End Thread.
