(* ===== verification/ConnPollCorrect.v ===== *)
(** * What the thread that polls does

    An agent that is ready has its own socket in the list the thread polls, so
    that a report is never handed to an agent that was created since; a turn of
    the thread is a turn of every ready agent on its own, and leaves the others
    as they are. *)

From S2P Require Import Prelude Machine CStdio Addr StunMsg StunWriteCorrect StunRead StunReadSafe StunReceived Turn TurnTable Ice ServerHandlers.
From S2P Require Import AgentState Agent AgentStep AgentApi AgentInv AgentTurn AgentSend AgentBinding AgentInput AgentAct AgentOps AgentCorrect.
From S2P Require Import Conn ConnInv ConnPoll.
From stdpp Require Import list.
#[local] Open Scope Z_scope.
#[local] Open Scope machine_scope.

Abbreviation poll_inv := (conn_inv (C := poll_conn) (R := pfds)).

Definition ready (a : poll_agent) : bool := is_cstate CONN_STATE_READY (ca_conn a).
Definition finished (a : poll_agent) : bool := is_cstate CONN_STATE_FINISHED (ca_conn a).

Section Inv.
Context `{Platform, Scan, Resolver, Hashes, !AgentEnvironment, !AgentLaws}.

(** ** A turn of one agent *)
Definition report_ok (report : poll_report) : Prop :=
  match report with PollReadable l _ => Forall datagram_ok l | _ => True end.

Lemma receive_datagrams_spec left l failed p : Forall datagram_ok l -> inv None (agent p) -> alive p ->
  spec (receive_datagrams left l failed) p (fun _ p' => good None p p').
Proof.
  intros Hl. revert left p. induction Hl as [|[payload src] l Hd Hl IH]; intros left p Hi Ha.
  { destruct left as [[|k]|]; by apply spec_ret, good_refl. }
  destruct (received_datagram payload src (asked p) Hd) as (Hdg & Hwf & _).
  assert (Hrest : spec (match conn_recv payload src with
    | None => receive_datagrams left l failed
    | Some src =>
      let* buffer := ask buffer_of in
      let* result := agent_conn_recv (received_in payload buffer) (lenZ payload) src in
      if negb (result =? 0) then ret RecvRefused else receive_datagrams (Nat.pred <$> left) l failed
    end) p (fun _ p' => good None p p')).
  { rewrite conn_recv_unmapped. case_test; [by apply IH|]. apply spec_bind, spec_ask, spec_bind.
    eapply spec_mono; [by apply conn_recv_spec|]; cbn beta. intros result p1 Hg%good_from. case_test; [by apply spec_ret|].
    eapply spec_mono; [apply IH; [apply Hg|by eapply alive_good]|]; cbn beta. intros ? p2 Hg2. by eapply good_trans. }
  destruct left as [[|k]|]; cbn [receive_datagrams]; [by apply spec_ret, good_refl|exact Hrest..].
Qed.

Lemma conn_turn_spec left next report p : report_ok report -> inv None (agent p) -> alive p ->
  spec (conn_turn left next report) p (fun _ p' => good None p p').
Proof.
  intros Hr Hi Ha.
  assert (Hupdate : forall p1, good None p p1 -> spec (let* next := agent_conn_update in ret (Some next)) p1 (fun _ p' => good None p p')).
  { intros p1 Hg. apply spec_bind. eapply spec_mono; [apply agent_bookkeeping_spec; [apply Hg|by eapply alive_good]|]; cbn beta.
    intros ? p2 Hg2. apply spec_ret. by eapply good_trans. }
  assert (Hfail : forall p1, good None p p1 -> spec (agent_conn_fail ;; ret (@None Z)) p1 (fun _ p' => good None p p')).
  { intros p1 Hg. apply spec_bind. eapply spec_mono; [apply conn_fail_spec; [apply Hg|by eapply alive_good]|]; cbn beta.
    intros ? p2 Hg2. apply spec_ret. by eapply good_trans. }
  destruct report as [| |l failed]; cbn [conn_turn].
  - apply spec_bind, spec_ask. case_test; [|by apply spec_ret, good_asked]. by apply Hupdate, good_asked.
  - by apply Hfail, good_refl.
  - apply spec_bind. eapply spec_mono; [by apply receive_datagrams_spec|]; cbn beta. intros [] p1 Hg; [by apply Hupdate|by apply Hfail|by apply spec_ret].
Qed.

(** ** The part of the mode *)
Record poll_part (n : Z) (r : poll_registry) : Prop := {
  pp_ready : forall id a, agent_at r id a -> ready a = true -> reg_impl r !! ca_conn_index a = Some (pc_sock (ca_conn a));
  pp_sockets : forall id a, agent_at r id a -> 0 <= pc_sock (ca_conn a);
  pp_length : (length (reg_impl r) <= length (reg_agents r))%nat
}.

Definition poll_keeps (c c' : poll_conn) : Prop :=
  pc_sock c' = pc_sock c /\ (is_cstate CONN_STATE_READY c' = true -> is_cstate CONN_STATE_READY c = true).

Lemma poll_put n r id a a' : poll_part n r -> agent_at r id a -> ca_conn_index a' = ca_conn_index a -> poll_keeps (ca_conn a) (ca_conn a') ->
  poll_part n (put_agent id (Some a') r).
Proof.
  intros [Hr Hs Hl] Ha Hix [Es Ek]. split; [| |done]; intros id' b Hb; apply (put_at r id a) in Hb; try done; destruct (decide (id' = id)).
  - subst b. intros Hb%Ek. rewrite Hix, Es. by apply (Hr id).
  - by apply (Hr id').
  - subst b. rewrite Es. by apply (Hs id).
  - by apply (Hs id').
Qed.

#[local] Obligation Tactic := idtac.
#[export] Program Instance poll_laws : ConnModeLaws poll_conn pfds := {
  mode_inv := poll_part;
  conn_keeps := poll_keeps
}.
Next Obligation. by intros c. Qed.
Next Obligation. by intros now c. Qed.
Next Obligation. intros n n' r [Hr Hs Hl] _. by split. Qed.
Next Obligation.
  intros n l Hn Hl. assert (Hno : forall id a, ~ agent_at (C := poll_conn) (R := pfds) (new_registry l) id a).
  { intros id a Ha. apply mjoin_at in Ha. cbn in Ha. by rewrite Hl in Ha. }
  split; [intros id a Ha; by apply Hno in Ha..|]. cbn. lia.
Qed.
Next Obligation. intros n r id a a'. apply poll_put. Qed.
Next Obligation. intros n r [Hr Hs Hl] _. split; [done|done|]. cbn. rewrite length_app. lia. Qed.
Next Obligation.
  intros n r i new sock [Hr Hs Hl] _ Hsock. split; [| |cbn; by rewrite length_insert].
  - intros id b Hb. apply place_at in Hb as [Hb|[-> ->]]; [by apply (Hr id)|done].
  - intros id b Hb. apply place_at in Hb as [Hb|[-> ->]]; [by apply (Hs id)|done].
Qed.
Next Obligation.
  intros n r id a [Hr Hs Hl] _ Ha. exists (reg_impl r). split; [done|].
  assert (Hat : forall id' b, agent_at (remove_agent id a (r <| reg_impl := reg_impl r |>)) id' b -> agent_at r id' b).
  { intros id' b Hb. by apply (remove_at (r <| reg_impl := reg_impl r |>)) in Hb as [Hb _]. }
  split; [intros id' b Hb; by apply (Hr id'), Hat|intros id' b Hb; by apply (Hs id'), Hat|]. cbn. by rewrite length_insert.
Qed.
(** ** A turn of the thread *)
Definition own_events (id : nat) (es : list poll_event) : list agent_event :=
  omap (fun e => match e with FromAgent id' e => if decide (id' = id) then Some e else None | FromMode _ => None end) es.

Lemma own_events_app id es es' : own_events id (es ++ es') = own_events id es ++ own_events id es'.
Proof. apply omap_app. Qed.

Lemma own_events_of id id' es : own_events id (FromAgent id' <$> es) = if decide (id' = id) then es else [].
Proof.
  unfold own_events. induction es as [|e es IH]; cbn; [by destruct (decide (id' = id))|]. rewrite IH. by destruct (decide (id' = id)).
Qed.

(** The agent has taken its own turn, which caused these of the events [es]. *)
Definition takes_turn (report : poll_report) (id : nat) (a : poll_agent) (r : poll_registry) (es : list poll_event) : Prop :=
  exists k next p, conn_turn (Some 1000%nat) (pc_next_timestamp (ca_conn a)) report (mkMachine (ca_agent a) k []) = Some (next, p) /\
    agent_at r id (mkConnAgent (agent p) (after_turn next (ca_conn a)) (ca_conn_index a)) /\ own_events id es = events p.

Definition left_alone (id : nat) (a : poll_agent) (r : poll_registry) (es : list poll_event) : Prop :=
  agent_at r id a /\ own_events id es = [].

(** The entries [slots] of the list are processed. *)
Record processed (n : Z) (slots : nat -> bool) (reports : nat -> poll_report) (m m' : pmachine) (es : list poll_event) : Prop := {
  pr_stays : stays n m m';
  pr_pfds : reg_impl (memory m') = reg_impl (memory m);
  pr_events : events m' = es ++ events m;
  pr_turns : forall id a, agent_at (memory m) id a -> slots (ca_conn_index a) = true -> ready a = true ->
    takes_turn (reports (ca_conn_index a)) id a (memory m') es;
  pr_alone : forall id a, agent_at (memory m) id a -> slots (ca_conn_index a) && ready a = false -> left_alone id a (memory m') es
}.

Definition one_slot (i j : nat) : bool := (j =? i)%nat.

(** Nobody is ready there. *)
Lemma skips n i reports (m : pmachine) : poll_inv n (memory m) ->
  (forall id a, agent_at (memory m) id a -> ca_conn_index a = i -> ready a = false) -> processed n (one_slot i) reports m m [].
Proof.
  intros Hr Hno. split; [by apply stays_refl|done|done| |by split].
  intros id a Ha Hi%Nat.eqb_eq Hready. rewrite (Hno id a) in Hready; done.
Qed.

Lemma put_twice id a a' (r : poll_registry) : put_agent id a' (put_agent id a r) = put_agent id a' r.
Proof. unfold put_agent, upd, updater, expand; cbn. by rewrite list_insert_insert_eq. Qed.

(** The agents of different slots are different. *)
Lemma same_slot n r id id' a a' : poll_inv n r -> agent_at r id a -> agent_at r id' a' -> ca_conn_index a = ca_conn_index a' -> id = id' /\ a = a'.
Proof.
  intros Hr Ha Ha' E. pose proof (so_registered _ (ci_slots _ _ Hr) id a Ha) as Hs. pose proof (so_registered _ (ci_slots _ _ Hr) id' a' Ha') as Hs'.
  assert (id = id') as <- by congruence. split; [done|]. unfold agent_at in *. congruence.
Qed.

Lemma process_pfd_run n i fd reports (m : pmachine) : poll_inv n (memory m) -> reg_impl (memory m) !! i = Some fd -> report_ok (reports i) ->
  exists m' es, process_pfd i fd (reports i) m = Some (tt, m') /\ processed n (one_slot i) reports m m' es.
Proof.
  intros Hr Hfd Hrep. destruct (ci_mode _ _ Hr) as [Hown Hsock Hlen]. unfold process_pfd. case_test.
  { exists m, []. split; [done|]. apply skips; [done|]. intros id a Ha Hi. destruct (ready a) eqn:Er; [|done].
    pose proof (Hown id a Ha Er) as Ho. pose proof (Hsock id a Ha). subst i. unfold INVALID_SOCKET in *. zify_bool. rewrite Ho in Hfd. injection Hfd. lia. }
  destruct (lookup_lt_is_Some_2 (reg_agents (memory m)) i) as [slot Hslot]; [apply lookup_lt_Some in Hfd; lia|].
  unfold bind at 1, gets. unfold bind at 1, defined. rewrite Hslot. destruct slot as [id|].
  2: { exists m, []. split; [done|]. apply skips; [done|]. intros id a Ha Hi. pose proof (so_registered _ (ci_slots _ _ Hr) id a Ha). congruence. }
  destruct (so_slots _ (ci_slots _ _ Hr) i id Hslot) as (a & Ha & Hi). unfold bind at 1. rewrite (get_agent_at id a) by done. case_test.
  { exists m, []. split; [done|]. apply skips; [done|]. intros id' a' Ha' Hi'. destruct (same_slot n _ id id' a a' Hr Ha Ha') as [<- <-]; [congruence|].
    destruct (ready a) eqn:Er; [|done]. pose proof (Hown id a Ha Er) as Ho. assert (fd = pc_sock (ca_conn a)) as -> by congruence.
    unfold ready in Er. by rewrite Er, Z.eqb_refl in E0. }
  destruct (ci_agents _ _ Hr id a Ha) as [Hinv Hcon].
  pose proof (conn_turn_spec (Some 1000%nat) (pc_next_timestamp (ca_conn a)) (reports i) (own_machine a m) Hrep Hinv Hcon) as Hturn. unfold spec in Hturn.
  destruct (conn_turn _ _ _ (own_machine a m)) as [[next p]|] eqn:Et; [|done].
  unfold bind at 1. rewrite (on_agent_run id a _ m next p) by done. set (a1 := a <| ca_agent := agent p |>).
  rewrite (set_conn_run id a1) by (apply (put_at _ id a); [done|]; by rewrite decide_True). cbn [memory asked events]. rewrite put_twice.
  set (a2 := mkConnAgent (agent p) (after_turn next (ca_conn a)) (ca_conn_index a)). change (a1 <| ca_conn ::= _ |>) with a2.
  eexists _, _. split; [reflexivity|].
  assert (Hready : ready a = true) by (unfold ready; zify_bool; destruct (is_cstate _ _); [done|lia]).
  split; [| |reflexivity| |]; cbn [memory].
  - split; [|done]. cbn [memory]. apply (put_agent_inv n _ id a); try done; [|apply Hturn|exact (alive_good _ _ _ Hturn Hcon)].
    split; [by destruct next|]. by intros _.
  - done.
  - intros id' b Hb Hs%Nat.eqb_eq _. destruct (same_slot n _ id id' a b Hr Ha Hb) as [<- <-]; [congruence|].
    exists (asked m), next, p. split; [by rewrite Hs|]. split; [by apply (put_at _ id a); [|rewrite decide_True]|].
    rewrite own_events_of. by rewrite decide_True.
  - intros id' b Hb Hs. assert (id' <> id).
    { intros ->. assert (b = a) as -> by (unfold agent_at in *; congruence). unfold one_slot in Hs. by rewrite Hi, Nat.eqb_refl, Hready in Hs. }
    split; [by apply (put_at _ id a); [|rewrite decide_False]|]. rewrite own_events_of. by rewrite decide_False.
Qed.

Lemma processed_trans n s1 s2 reports m1 m2 m3 es1 es2 : (forall j, s1 j = true -> s2 j = false) ->
  processed n s1 reports m1 m2 es1 -> processed n s2 reports m2 m3 es2 -> processed n (fun j => s1 j || s2 j) reports m1 m3 (es2 ++ es1).
Proof.
  intros Hd [Hs1 Hp1 He1 Ht1 Ha1] [Hs2 Hp2 He2 Ht2 Ha2]. split; [by eapply stays_trans|congruence|by rewrite He2, He1, app_assoc| |].
  - intros id a Ha Hs Hr. destruct (s1 (ca_conn_index a)) eqn:E1.
    + destruct (Ht1 id a Ha E1 Hr) as (k & next & p & Et & Hat & Ho). destruct (Ha2 _ _ Hat) as [Hat2 Ho2]; [cbn; by rewrite Hd|].
      exists k, next, p. split; [done|]. split; [done|]. by rewrite own_events_app, Ho2, Ho.
    + destruct (Ha1 id a Ha) as [Hat Ho]; [by rewrite E1|]. destruct (Ht2 id a Hat Hs Hr) as (k & next & p & Et & Hat2 & Ho2).
      exists k, next, p. split; [done|]. split; [done|]. by rewrite own_events_app, Ho2, Ho, app_nil_r.
  - intros id a Ha Hs. destruct (Ha1 id a Ha) as [Hat Ho]; [by destruct (s1 _); [|done]|]. destruct (Ha2 id a Hat) as [Hat2 Ho2].
    { destruct (ready a); [|by rewrite andb_false_r]. rewrite andb_true_r in *. by destruct (s2 _); [rewrite orb_true_r in Hs|]. }
    split; [done|]. by rewrite own_events_app, Ho2, Ho.
Qed.

Lemma processed_ext n s s' reports m m' es : (forall j, s j = s' j) -> processed n s reports m m' es -> processed n s' reports m m' es.
Proof.
  intros E [Hs Hp He Ht Ha]. split; try done; intros id a Hat; rewrite <- (E (ca_conn_index a)); [by apply Ht|by apply Ha].
Qed.

Lemma process_pfds_run n l i reports (m : pmachine) : poll_inv n (memory m) -> drop i (reg_impl (memory m)) = l -> (forall j, report_ok (reports j)) ->
  exists m' es, process_pfds i l reports m = Some (tt, m') /\ processed n (fun j => (i <=? j)%nat) reports m m' es.
Proof.
  intros Hr Hl Hrep. revert i m Hr Hl. induction l as [|fd l IH]; intros i m Hr Hl; cbn [process_pfds].
  { exists m, []. split; [done|]. split; [by apply stays_refl|done|done| |by split]. intros id a Ha Hi%Nat.leb_le Hready.
    pose proof (pp_ready _ _ (ci_mode _ _ Hr) id a Ha Hready) as Hown. apply lookup_lt_Some in Hown.
    apply (f_equal length) in Hl. rewrite length_drop in Hl. cbn in Hl. lia. }
  assert (Hfd : reg_impl (memory m) !! i = Some fd) by (rewrite <- (Nat.add_0_r i), <- lookup_drop, Hl; done).
  destruct (process_pfd_run n i fd reports m Hr Hfd (Hrep i)) as (m1 & es1 & E1 & Hp1). unfold bind at 1. rewrite E1.
  destruct (IH (S i) m1) as (m2 & es2 & E2 & Hp2).
  - apply Hp1.
  - rewrite (pr_pfds _ _ _ _ _ _ Hp1). rewrite (drop_S _ fd i Hfd) in Hl. by injection Hl.
  - exists m2, (es2 ++ es1). split; [done|]. eapply processed_ext; [|eapply processed_trans; [|exact Hp1|exact Hp2]]; intros j; cbn beta; unfold one_slot.
    + destruct (Nat.eqb_spec j i), (Nat.leb_spec (S i) j), (Nat.leb_spec i j); cbn; (done || lia).
    + intros ->%Nat.eqb_eq. apply Nat.leb_gt. lia.
Qed.

(** ** The list of sockets *)
Definition prepared (a : poll_agent) : poll_agent :=
  if finished a then a else a <| ca_conn ::= fun c => c <| pc_state := CONN_STATE_READY |> |>.
Definition pfd_of (a : poll_agent) : Z := if finished a then INVALID_SOCKET else pc_sock (ca_conn a).

Lemma prepared_index a : ca_conn_index (prepared a) = ca_conn_index a.
Proof. unfold prepared. by destruct (finished a). Qed.

(** The entries [slots] of the list are written; [next] is [t] or what some agent
    there waits for, whichever is earliest. *)
Record listed (n : Z) (slots : nat -> bool) (t next : Z) (m m' : pmachine) : Prop := {
  li_stays : stays n m m';
  li_events : events m' = events m;
  li_length : length (reg_impl (memory m')) = length (reg_impl (memory m));
  li_others : forall j, slots j = false -> reg_impl (memory m') !! j = reg_impl (memory m) !! j;
  li_agents : forall id a, agent_at (memory m) id a -> agent_at (memory m') id (if slots (ca_conn_index a) then prepared a else a);
  li_pfds : forall id a, agent_at (memory m) id a -> slots (ca_conn_index a) = true -> reg_impl (memory m') !! ca_conn_index a = Some (pfd_of a);
  li_least : next <= t /\ forall id a, agent_at (memory m) id a -> slots (ca_conn_index a) = true -> finished a = false -> next <= pc_next_timestamp (ca_conn a);
  li_due : next = t \/ exists id a, agent_at (memory m) id a /\ finished a = false /\ next = pc_next_timestamp (ca_conn a)
}.

(** An entry is written, for an agent that may have changed. *)
Lemma pfd_part n (r r1 : poll_registry) i fd : poll_part n r -> reg_agents r1 = reg_agents r -> reg_impl r1 = reg_impl r ->
  (i < length (reg_impl r))%nat ->
  (forall id a, agent_at r1 id a -> ca_conn_index a <> i -> agent_at r id a) ->
  (forall id a, agent_at r1 id a -> ca_conn_index a = i -> 0 <= pc_sock (ca_conn a) /\ (ready a = true -> pc_sock (ca_conn a) = fd)) ->
  poll_part n (r1 <| reg_impl ::= <[i := fd]> |>).
Proof.
  intros [Hr Hs Hl] Ea Ei Hi Hne Heq. split; cbn; rewrite ?Ea, ?Ei, ?length_insert; try done; intros id a Ha; change (agent_at r1 id a) in Ha.
  - intros Hready. destruct (decide (ca_conn_index a = i)) as [E|E].
    + rewrite E, list_lookup_insert_eq by done. destruct (Heq id a Ha E) as [_ Hfd]. by rewrite Hfd.
    + rewrite list_lookup_insert_ne by done. by apply (Hr id), Hready; apply Hne.
  - destruct (decide (ca_conn_index a = i)) as [E|E]; [by apply (Heq id)|by apply (Hs id), Hne].
Qed.

Lemma skip_pfd n i t (m : pmachine) : poll_inv n (memory m) -> (i < length (reg_impl (memory m)))%nat ->
  (forall id a, agent_at (memory m) id a -> ca_conn_index a = i -> finished a = true) ->
  exists next m', (set_pfd i INVALID_SOCKET ;; ret t) m = Some (next, m') /\ listed n (one_slot i) t next m m'.
Proof.
  intros Hr Hi Hfin. pose proof (ci_mode _ _ Hr) as Hpart. eexists t, _. split; [reflexivity|]. split; cbn [memory events]; try done.
  - split; [|done]. cbn [memory]. apply (impl_inv n); [done|]. apply (pfd_part n (memory m)); try done.
    intros id a Ha Hix. split; [by apply (pp_sockets _ _ Hpart id)|]. specialize (Hfin id a Ha Hix). unfold ready, finished, is_cstate in *.
    apply bool_decide_eq_true in Hfin. rewrite Hfin. done.
  - cbn. by rewrite length_insert.
  - intros j Hj%Nat.eqb_neq. cbn. by rewrite list_lookup_insert_ne.
  - intros id a Ha. case_match eqn:E; [|done]. apply Nat.eqb_eq in E. unfold prepared. by rewrite (Hfin id a).
  - intros id a Ha E%Nat.eqb_eq. unfold pfd_of. rewrite (Hfin id a) by done. cbn. rewrite E. by rewrite list_lookup_insert_eq.
  - split; [lia|]. intros id a Ha E%Nat.eqb_eq. by rewrite (Hfin id a).
  - by left.
Qed.

Lemma prepare_pfd_run n i slot t (m : pmachine) : poll_inv n (memory m) -> reg_agents (memory m) !! i = Some slot ->
  (i < length (reg_impl (memory m)))%nat ->
  exists next m', prepare_pfd i slot t m = Some (next, m') /\ listed n (one_slot i) t next m m'.
Proof.
  intros Hr Hslot Hi. pose proof (ci_mode _ _ Hr) as Hpart.
  destruct slot as [id|]; cbn [prepare_pfd].
  2: { apply skip_pfd; [done..|]. intros id a Ha Hix. pose proof (so_registered _ (ci_slots _ _ Hr) id a Ha). congruence. }
  destruct (so_slots _ (ci_slots _ _ Hr) i id Hslot) as (a & Ha & Hix). unfold bind at 1. rewrite (get_agent_at id a) by done.
  case_test; [apply skip_pfd; [done..|]|].
  - intros id' a' Ha' Hix'. destruct (same_slot n _ id id' a a' Hr Ha Ha') as [<- <-]; [congruence|].
    unfold finished, is_cstate in *. destruct (pc_state (ca_conn a)); [done..|]. done.
  - assert (Hf : finished a = false) by (unfold finished, is_cstate in *; by destruct (pc_state (ca_conn a))).
    unfold bind at 1. rewrite (set_conn_run id a) by done. set (a' := a <| ca_conn ::= _ |>).
    assert (Ea : prepared a = a') by (unfold prepared; by rewrite Hf).
    assert (Hat : forall id' b, agent_at (put_agent id (Some a') (memory m)) id' b <-> if decide (id' = id) then b = a' else agent_at (memory m) id' b).
    { intros id' b. by apply (put_at _ id a). }
    assert (Hother : forall id' b, agent_at (memory m) id' b -> id' <> id -> ca_conn_index b <> i).
    { intros id' b Hb Hd E1. destruct (same_slot n _ id id' a b Hr Ha Hb) as [? _]; congruence. }
    eexists _, _. split; [reflexivity|]. split; cbn [memory events]; try done.
    + split; [|done]. cbn [memory]. split.
      * destruct (slots_put (memory m) id a a' (ci_slots _ _ Hr) Ha eq_refl). by split.
      * intros id' b Hb. apply Hat in Hb. destruct (decide (id' = id)); [subst b; exact (ci_agents _ _ Hr id a Ha)|by apply (ci_agents _ _ Hr id')].
      * apply (pfd_part n (memory m)); try done; intros id' b Hb; apply Hat in Hb.
        -- destruct (decide (id' = id)); [by subst b|done].
        -- destruct (decide (id' = id)); [subst b; intros _; split; [exact (pp_sockets _ _ Hpart id a Ha)|done]|]. intros E1. by destruct (Hother id' b Hb).
    + cbn. by rewrite length_insert.
    + intros j Hj%Nat.eqb_neq. cbn. by rewrite list_lookup_insert_ne.
    + intros id' b Hb. apply Hat. destruct (decide (id' = id)) as [->|Hd].
      * assert (b = a) as -> by (unfold agent_at in *; congruence). unfold one_slot. by rewrite Hix, Nat.eqb_refl.
      * unfold one_slot. rewrite (proj2 (Nat.eqb_neq _ _)) by (by apply (Hother id')). done.
    + intros id' b Hb E1%Nat.eqb_eq. destruct (same_slot n _ id id' a b Hr Ha Hb) as [<- <-]; [congruence|].
      unfold pfd_of. rewrite Hf, Hix. cbn. by rewrite list_lookup_insert_eq.
    + split; [case_match; zify_bool; lia|]. intros id' b Hb E1%Nat.eqb_eq _. destruct (same_slot n _ id id' a b Hr Ha Hb) as [<- <-]; [congruence|].
      case_match; zify_bool; lia.
    + case_match; [right|by left]. by exists id, a.
Qed.

Lemma prepared_finished a : finished (prepared a) = finished a /\ pc_next_timestamp (ca_conn (prepared a)) = pc_next_timestamp (ca_conn a).
Proof. unfold prepared. destruct (finished a) eqn:E; done. Qed.

(** No agent comes with the list. *)
Lemma listed_back n s t next (m m' : pmachine) id b : poll_inv n (memory m) -> listed n s t next m m' -> agent_at (memory m') id b ->
  exists a, agent_at (memory m) id a /\ finished b = finished a /\ pc_next_timestamp (ca_conn b) = pc_next_timestamp (ca_conn a).
Proof.
  intros Hr Hl Hb. destruct (li_stays _ _ _ _ _ _ Hl) as [Hr' Es]. pose proof (so_registered _ (ci_slots _ _ Hr') id b Hb) as Hs. rewrite Es in Hs.
  destruct (so_slots _ (ci_slots _ _ Hr) _ _ Hs) as (a & Ha & _). exists a. split; [done|]. pose proof (li_agents _ _ _ _ _ _ Hl id a Ha) as Hb'.
  assert (b = if s (ca_conn_index a) then prepared a else a) as -> by (unfold agent_at in *; congruence).
  destruct (s _); [apply prepared_finished|done].
Qed.

Lemma listed_trans n s1 s2 t1 t2 t3 m1 m2 m3 : poll_inv n (memory m1) -> (forall j, s1 j = true -> s2 j = false) ->
  listed n s1 t1 t2 m1 m2 -> listed n s2 t2 t3 m2 m3 -> listed n (fun j => s1 j || s2 j) t1 t3 m1 m3.
Proof.
  intros Hr Hd Hl1 Hl2. pose proof Hl1 as [Hs1 He1 Hn1 Ho1 Ha1 Hf1 [Hle1 Hmin1] Hdue1]. destruct Hl2 as [Hs2 He2 Hn2 Ho2 Ha2 Hf2 [Hle2 Hmin2] Hdue2].
  split; [by eapply stays_trans|congruence|congruence| | | | |].
  - intros j [E1 E2]%orb_false_iff. by rewrite Ho2, Ho1.
  - intros id a Ha. specialize (Ha1 id a Ha). destruct (s1 (ca_conn_index a)) eqn:E1; [|exact (Ha2 id a Ha1)].
    specialize (Ha2 _ _ Ha1). rewrite prepared_index, Hd in Ha2 by done. exact Ha2.
  - intros id a Ha Hs. destruct (s1 (ca_conn_index a)) eqn:E1; [rewrite Ho2 by (by apply Hd); by apply (Hf1 id)|].
    apply (Hf2 id); [|done]. specialize (Ha1 id a Ha). by rewrite E1 in Ha1.
  - split; [lia|]. intros id a Ha Hs Hf. destruct (s1 (ca_conn_index a)) eqn:E1; [pose proof (Hmin1 id a Ha E1 Hf); lia|].
    apply (Hmin2 id); [|done|done]. specialize (Ha1 id a Ha). by rewrite E1 in Ha1.
  - destruct Hdue2 as [->|(id & b & Hb & Hf & ->)]; [done|right].
    destruct (listed_back n s1 t1 t2 m1 m2 id b Hr Hl1 Hb) as (a & Ha & Ef & Et). exists id, a. split; [done|]. split; [by rewrite <- Ef|done].
Qed.

Lemma listed_ext n s s' t next m m' : (forall j, s j = s' j) -> listed n s t next m m' -> listed n s' t next m m'.
Proof.
  intros E [Hs He Hl Ho Ha Hf [Hle Hmin] Hd]. split; try done.
  - intros j Hj. apply Ho. by rewrite E.
  - intros id a Hat. rewrite <- E. by apply Ha.
  - intros id a Hat Hj. apply (Hf id); [done|by rewrite E].
  - split; [done|]. intros id a Hat Hj. apply (Hmin id); [done|by rewrite E].
Qed.

Lemma prepare_pfds_run n slots i t (m : pmachine) : poll_inv n (memory m) -> drop i (reg_agents (memory m)) = slots ->
  length (reg_impl (memory m)) = length (reg_agents (memory m)) ->
  exists next m', prepare_pfds i slots t m = Some (next, m') /\ listed n (fun j => (i <=? j)%nat && (j <? length (reg_agents (memory m)))%nat) t next m m'.
Proof.
  intros Hr Hd Hlen. revert i t m Hr Hd Hlen. induction slots as [|slot slots IH]; intros i t m Hr Hd Hlen; cbn [prepare_pfds].
  { assert (Hi : (length (reg_agents (memory m)) <= i)%nat) by (apply (f_equal length) in Hd; rewrite length_drop in Hd; cbn in Hd; lia).
    assert (Hno : forall j, (i <=? j)%nat && (j <? length (reg_agents (memory m)))%nat = false).
    { intros j. destruct (Nat.leb_spec i j), (Nat.ltb_spec j (length (reg_agents (memory m)))); cbn; (done || lia). }
    eexists t, m. split; [reflexivity|]. split; try done; [intros id a; by rewrite Hno|intros id a _; by rewrite Hno| |by left].
    split; [done|]. intros id a _. by rewrite Hno. }
  assert (Hslot : reg_agents (memory m) !! i = Some slot) by (rewrite <- (Nat.add_0_r i), <- lookup_drop, Hd; done).
  pose proof (lookup_lt_Some _ _ _ Hslot) as Hi.
  destruct (prepare_pfd_run n i slot t m Hr Hslot) as (t1 & m1 & E1 & Hl1); [lia|]. unfold bind at 1. rewrite E1.
  pose proof (li_stays _ _ _ _ _ _ Hl1) as [Hr1 Es]. destruct (IH (S i) t1 m1 Hr1) as (t2 & m2 & E2 & Hl2).
  - rewrite Es. rewrite (drop_S _ slot i Hslot) in Hd. by injection Hd.
  - by rewrite (li_length _ _ _ _ _ _ Hl1), Es.
  - exists t2, m2. split; [done|]. rewrite Es in Hl2.
    eapply listed_ext; [|eapply listed_trans; [done| |exact Hl1|exact Hl2]]; intros j; cbn beta; unfold one_slot.
    + destruct (Nat.eqb_spec j i), (Nat.leb_spec (S i) j), (Nat.leb_spec i j), (Nat.ltb_spec j (length (reg_agents (memory m)))); cbn; (done || lia).
    + intros ->%Nat.eqb_eq. apply andb_false_iff. left. apply Nat.leb_gt. lia.
Qed.

Lemma prepare_all_run n t (m : pmachine) : poll_inv n (memory m) -> length (reg_impl (memory m)) = length (reg_agents (memory m)) ->
  exists next m', prepare_pfds 0 (reg_agents (memory m)) t m = Some (next, m') /\ listed n (fun _ => true) t next m m'.
Proof.
  intros Hr Hlen. destruct (prepare_pfds_run n (reg_agents (memory m)) 0 t m Hr eq_refl Hlen) as (next & m' & E & [Hs He Hl _ Ha Hf [Hle Hmin] Hd]).
  exists next, m'. split; [done|].
  assert (Hall : forall id a, agent_at (memory m) id a -> ((0 <=? ca_conn_index a)%nat && (ca_conn_index a <? length (reg_agents (memory m)))%nat) = true).
  { intros id a Hid. pose proof (lookup_lt_Some _ _ _ (so_registered _ (ci_slots _ _ Hr) id a Hid)). by apply Nat.ltb_lt. }
  split; try done.
  - intros id a Hid. specialize (Ha id a Hid). by rewrite (Hall id a) in Ha.
  - intros id a Hid _. by apply (Hf id), (Hall id).
  - split; [done|]. intros id a Hid _. by apply (Hmin id), (Hall id).
Qed.

(** The list takes the size of the registry. *)
Lemma resize_inv n r : poll_inv n r -> poll_inv n (r <| reg_impl ::= resize (length (reg_agents r)) INVALID_SOCKET |>).
Proof.
  intros Hr. destruct (ci_mode _ _ Hr) as [Hown Hsock Hlen]. apply (impl_inv n); [done|]. split; [|done|].
  - intros id a Ha Hready. pose proof (Hown id a Ha Hready) as E. cbn. rewrite lookup_resize; [done| |by eapply lookup_lt_Some].
    apply lookup_lt_Some in E. lia.
  - cbn. by rewrite length_resize.
Qed.

(** What [conn_poll_prepare] leaves. *)
Record prepared_all (m m' : pmachine) (next count : Z) : Prop := {
  pa_agents : forall id a, agent_at (memory m) id a -> agent_at (memory m') id (prepared a);
  pa_pfds : forall id a, agent_at (memory m) id a -> reg_impl (memory m') !! ca_conn_index a = Some (pfd_of a);
  pa_length : length (reg_impl (memory m')) = length (reg_agents (memory m'));
  pa_least : forall id a, agent_at (memory m) id a -> finished a = false -> next <= pc_next_timestamp (ca_conn a);
  pa_minute : next <= now_ms (asked m) + 60000;
  pa_due : next = now_ms (asked m) + 60000 \/
    exists id a, agent_at (memory m) id a /\ finished a = false /\ next = pc_next_timestamp (ca_conn a);
  pa_count : count = users (reg_agents (memory m))
}.

Lemma conn_poll_prepare_run n reallocated (m : pmachine) : poll_inv n (memory m) ->
  exists next count m', conn_poll_prepare reallocated m = Some ((next, count), m') /\ stays n m m' /\ events m' = events m /\
    if reallocated || (length (reg_impl (memory m)) =? length (reg_agents (memory m)))%nat then prepared_all m m' next count
    else count = -1 /\ memory m' = memory m.
Proof.
  intros Hr. unfold conn_poll_prepare. unfold bind at 1, ask. unfold bind at 1, gets. cbn [memory asked events]. change (id (memory m)) with (memory m).
  set (t := now_ms (asked m) + 60000). set (same := (length (reg_impl (memory m)) =? length (reg_agents (memory m)))%nat).
  set (m0 := mkMachine (memory m) (S (asked m)) (events m)).
  destruct (negb same && negb reallocated) eqn:E.
  { apply andb_true_iff in E as [E1%negb_true_iff E2%negb_true_iff]. rewrite E1, E2. exists t, (-1), m0. by split_and!. }
  set (r1 := if same then memory m else memory m <| reg_impl ::= resize (length (reg_agents (memory m))) INVALID_SOCKET |>).
  assert (Em : (if same then ret tt else modify (fun r => r <| reg_impl ::= resize (length (reg_agents (memory m))) INVALID_SOCKET |>)) m0 =
    Some (tt, mkMachine r1 (S (asked m)) (events m))) by (unfold r1; by destruct same).
  unfold bind at 1. rewrite Em. set (m1 := mkMachine r1 _ _).
  assert (Hr1 : poll_inv n (memory m1)) by (cbn [m1 memory]; unfold r1; destruct same; [done|by apply resize_inv]).
  assert (Es : reg_agents (memory m1) = reg_agents (memory m)) by (cbn [m1 memory]; unfold r1; by destruct same).
  assert (Hl : length (reg_impl (memory m1)) = length (reg_agents (memory m1))).
  { rewrite Es. cbn [m1 memory]. unfold r1. destruct same eqn:E1; [by apply Nat.eqb_eq|]. cbn. by rewrite length_resize. }
  assert (Hat : forall id a, agent_at (memory m1) id a <-> agent_at (memory m) id a) by (intros id a; cbn [m1 memory]; unfold r1; by destruct same).
  destruct (prepare_all_run n t m1 Hr1 Hl) as (next & m2 & E2 & Hl2). rewrite Es in E2. unfold bind at 1. rewrite E2.
  destruct Hl2 as [[Hr2 Es2] He Hn _ Ha Hf [Hle Hmin] Hdue]. exists next, (agents_count (memory m)), m2. split; [done|]. split; [split; [done|congruence]|].
  split; [done|]. replace (reallocated || same) with true by (destruct reallocated, same; done). split.
  - intros id a Hid%Hat. by apply (Ha id a).
  - intros id a Hid%Hat. by apply (Hf id).
  - by rewrite Hn, Es2.
  - intros id a Hid%Hat. by apply (Hmin id).
  - exact Hle.
  - destruct Hdue as [->|(id & a & Hid%Hat & Hx)]; [by left|right]. by exists id, a.
  - apply (so_count _ (ci_slots _ _ Hr)).
Qed.

Lemma conn_poll_process_run n reports (m : pmachine) : poll_inv n (memory m) -> (forall j, report_ok (reports j)) ->
  exists m' es, conn_poll_process reports m = Some (tt, m') /\ processed n (fun _ => true) reports m m' es.
Proof. intros Hr Hrep. apply (process_pfds_run n _ 0); done. Qed.

(** ** Runs *)

(** Agents that do not use STUN and TURN servers together are registered
    ([conn_op_ok]). *)
Definition poll_op_ok (op : poll_op) : Prop :=
  match op with
  | PollPrepare _ => True
  | PollProcess reports => forall j, report_ok (reports j)
  | PollConn op => conn_op_ok op
  end.

Lemma poll_step_spec op (m : pmachine) : poll_inv 0 (memory m) -> poll_op_ok op -> spec (poll_step op) m (fun _ m' => poll_inv 0 (memory m')).
Proof.
  intros Hr Hop. destruct op as [reallocated|reports|op]; cbn [poll_step poll_op_ok] in *.
  - apply spec_bind. destruct (conn_poll_prepare_run 0 reallocated m Hr) as (next & count & m' & E & [Hr' _] & _). unfold spec at 1. by rewrite E.
  - destruct (conn_poll_process_run 0 reports m Hr Hop) as (m' & es & E & Hp). unfold spec. rewrite E. apply Hp.
  - by apply conn_step_spec.
Qed.

Lemma poll_steps_spec ops (m : pmachine) : poll_inv 0 (memory m) -> Forall poll_op_ok ops -> spec (poll_steps ops) m (fun _ m' => poll_inv 0 (memory m')).
Proof.
  intros Hr Hops. unfold poll_steps. apply (spec_each (fun m => poll_inv 0 (memory m))); [|done].
  intros op m1 Hin Hr1. apply poll_step_spec; [done|]. rewrite list.Forall_forall in Hops. by apply Hops.
Qed.

(** ** The limit *)

(** The datagrams until [k] were not empty, and how many are not. *)
Fixpoint within (k : nat) (l : list (list Z * addr_record)) : list (list Z * addr_record) :=
  match k, l with
  | S k', d :: l' => d :: within (if lenZ (fst d) =? 0 then k else k') l'
  | _, _ => []
  end.

Fixpoint not_empty (l : list (list Z * addr_record)) : nat :=
  match l with
  | [] => 0
  | d :: l' => if lenZ (fst d) =? 0 then not_empty l' else S (not_empty l')
  end.

Lemma receive_limited k l failed p :
  receive_datagrams (Some k) l failed p = receive_datagrams None (within k l) (failed && (not_empty l <? k)%nat) p.
Proof.
  revert k p. induction l as [|[payload src] l IH]; intros k p; destruct k as [|k]; cbn [receive_datagrams within not_empty fst]; rewrite ?andb_false_r, ?andb_true_r; try done.
  rewrite conn_recv_unmapped. destruct (lenZ payload =? 0); [apply IH|]. unfold bind, ask. destruct (agent_conn_recv _ _ _ _) as [[result p1]|]; [|done].
  destruct (negb (result =? 0)); [done|]. cbn [fmap option_fmap option_map Nat.pred]. rewrite IH. by destruct k.
Qed.

(** ** The agent with a thread of its own *)
Definition thread_inv (a : thread_agent) : Prop := inv None (ta_agent a) /\ connected (ta_agent a).

Lemma in_thread_spec {Y} (x : A Y) (m : tmachine) : thread_inv (memory m) ->
  (forall p, inv None (agent p) -> alive p -> spec x p (fun _ p' => steps_ok p p')) -> spec (in_thread x) m (fun _ m' => thread_inv (memory m')).
Proof.
  intros [Hi Hc] Hx. unfold in_thread, spec. set (p := mkMachine _ _ _). specialize (Hx p Hi Hc). unfold spec in Hx.
  destruct (x p) as [[r p']|]; [|done]. destruct Hx as [Hk Hp]. split; [apply Hk|]. cbn.
  assert (Hcr : conn_created (agent p') = true) by (apply (kp_created _ _ Hk); apply Hc). split; [done|]. unfold phase in Hp. by rewrite Hcr in Hp.
Qed.

Lemma conn_thread_process_spec report (m : tmachine) : thread_inv (memory m) -> report_ok report ->
  spec (conn_thread_process report) m (fun _ m' => thread_inv (memory m')).
Proof.
  intros Hi Hr. unfold conn_thread_process. apply spec_bind, spec_gets. case_test; [by apply spec_ret|]. apply spec_bind.
  eapply spec_mono; [apply in_thread_spec; [done|]|]; cbn beta.
  - intros p Hp Ha. eapply spec_mono; [by apply conn_turn_spec|]; cbn beta. intros ? p' Hg. apply good_ok; [done|]. unfold phase. by destruct Ha as [-> ?].
  - intros [next|] m1 Hm1; [|by apply spec_ret]. by apply spec_bind, spec_modify, spec_ret.
Qed.

Definition thread_op_ok (op : thread_op) : Prop :=
  match op with ThreadCall op => forall c, adds_server op = false -> op_ok c op | _ => True end.

Lemma thread_step_spec op (m : tmachine) : thread_inv (memory m) -> thread_op_ok op -> spec (thread_step op) m (fun _ m' => thread_inv (memory m')).
Proof.
  intros Hi Hop. destruct op as [| |op]; cbn [thread_step].
  - by apply spec_bind, spec_modify, spec_bind, spec_ask, spec_modify.
  - by apply spec_bind, spec_ask, spec_modify.
  - apply in_thread_spec; [done|]. intros p Hp Ha. apply connected_step_spec; [done..|]. by apply Hop.
Qed.

Definition turn_ok (turn : list thread_op * poll_end) : Prop :=
  Forall thread_op_ok (fst turn) /\ match snd turn with PollReported report => report_ok report | _ => True end.

Lemma conn_thread_run_spec turns (m : tmachine) : thread_inv (memory m) -> Forall turn_ok turns ->
  spec (conn_thread_run turns) m (fun _ m' => thread_inv (memory m')).
Proof.
  intros Hi Ht. revert m Hi. induction Ht as [|[ops ended] turns [Hops Hend] Ht IH]; intros m Hi; cbn [conn_thread_run]; [by apply spec_ret|].
  apply spec_bind. unfold conn_thread_prepare. apply spec_bind, spec_gets, spec_ret.
  destruct (ta_stopped (id (memory m))); [by apply spec_ret|]. apply spec_bind. eapply spec_mono; [apply (spec_each (fun m => thread_inv (memory m))); [|done]|]; cbn beta.
  { intros op m1 Hin Hm1. apply thread_step_spec; [done|]. cbn in Hops. rewrite list.Forall_forall in Hops. by apply Hops. }
  intros ? m1 Hm1. destruct ended as [| |report]; [by apply IH|by apply spec_ret|]. apply spec_bind.
  eapply spec_mono; [by apply conn_thread_process_spec|]; cbn beta. intros goes_on m2 Hm2. case_test; [by apply IH|by apply spec_ret].
Qed.

(** ** Theorems *)

(** C20: in the mode with one thread for all sockets, with agents that do not use
    STUN and TURN servers together ([conn_op_ok]; with both, an agent's array of
    entries can overflow), whatever the sockets deliver, the application calls and
    agents come and go, between any two calls of the thread: no call leaves the language, every agent keeps its invariant, and an
    agent that is ready has its own socket in the list that is polled. *)
Theorem poll_run_safe ops : Forall poll_op_ok ops -> exists m, poll_steps ops poll_start = Some (tt, m) /\ poll_inv 0 (memory m).
Proof.
  intros Hops. pose proof (poll_steps_spec ops poll_start conn_start_inv Hops) as Hs. unfold spec in Hs.
  destruct (poll_steps ops poll_start) as [[[] m]|]; [|done]. by exists m.
Qed.

(** C19: [conn_poll_process] is one turn of every agent that is ready, on its own
    state and on what its own socket delivered; agents that finished, or were
    created since the list was made, are left as they are, even when they have the
    slot or the number of a socket of one that is gone.  *)
Theorem poll_process_turns n reports (m : pmachine) : poll_inv n (memory m) -> (forall j, report_ok (reports j)) ->
  exists m' es, conn_poll_process reports m = Some (tt, m') /\ poll_inv n (memory m') /\ events m' = es ++ events m /\
    forall id a, agent_at (memory m) id a ->
      if ready a then takes_turn (reports (ca_conn_index a)) id a (memory m') es else left_alone id a (memory m') es.
Proof.
  intros Hr Hrep. destruct (conn_poll_process_run n reports m Hr Hrep) as (m' & es & E & [[Hr' _] _ He Ht Ha]). exists m', es.
  split; [done|]. split; [done|]. split; [done|]. intros id a Hid. destruct (ready a) eqn:Er; [by apply (Ht id)|by apply (Ha id)].
Qed.

(** [conn_poll_prepare] makes every agent that has not finished ready and
    lists its socket at its slot, and the thread waits until the first of them is
    due, a minute at most; unless there is no memory for a longer list, when it
    ends and nothing changes. *)
Theorem poll_prepare_lists n reallocated (m : pmachine) : poll_inv n (memory m) ->
  exists next count m', conn_poll_prepare reallocated m = Some ((next, count), m') /\ events m' = events m /\
    if reallocated || (length (reg_impl (memory m)) =? length (reg_agents (memory m)))%nat then prepared_all m m' next count
    else count = -1 /\ memory m' = memory m.
Proof.
  intros Hr. destruct (conn_poll_prepare_run n reallocated m Hr) as (next & count & m' & E & _ & He & Hx). by exists next, count, m'.
Qed.

(** C21: a turn that takes at most [k] datagrams is a turn without a limit, as the
    mode with a thread for every agent makes it, on the first [k] that are not
    empty; an error of the socket is noticed only when fewer come before it. *)
Theorem poll_limit k next l failed p :
  conn_turn (Some k) next (PollReadable l failed) p = conn_turn None next (PollReadable (within k l) (failed && (not_empty l <? k)%nat)) p.
Proof. cbn [conn_turn]. unfold bind at 1. rewrite receive_limited. done. Qed.

(** in the mode with a thread for every agent, with an agent that does not use
    STUN and TURN servers together ([thread_inv] contains it), whatever the socket delivers and
    the application calls while the thread waits, the thread does not leave the
    language and the agent keeps its invariant, until it is stopped or fails. *)
Theorem thread_run_safe turns (m : tmachine) : thread_inv (memory m) -> Forall turn_ok turns ->
  exists goes_on m', conn_thread_run turns m = Some (goes_on, m') /\ thread_inv (memory m').
Proof.
  intros Hi Ht. pose proof (conn_thread_run_spec turns m Hi Ht) as Hs. unfold spec in Hs.
  destruct (conn_thread_run turns m) as [[goes_on m']|]; [|done]. by exists goes_on, m'.
Qed.
End Inv.
