(* ===== verification/ConnExamples.v ===== *)
(** * A registry with one agent

    The theorems on the connection multiplexer at the agent of the concrete
    session, which is registered once it has completed. *)

From Stdlib Require Import Strings.String.
From stdpp Require Import list gmap.
From S2P Require Import Prelude Machine CStdio Addr Ice IceWf StunMsg StunHashes StunWrite StunCodec StunWriteCorrect StunRead.
From S2P Require Import Turn TurnTable ServerHandlers AgentState AgentOrder Agent AgentStep AgentApi AgentInv AgentAct AgentInput AgentOps.
From S2P Require Import AgentCorrect AgentAuth AgentExamples Conn ConnInv ConnMux ConnMuxMap ConnMuxCorrect ConnPoll ConnPollCorrect.
#[local] Open Scope Z_scope.

#[local] Existing Instances lwip newlib two_hosts agent_environment agent_laws.

(** ** The map *)
Definition plenty (_ : Z) : bool := true.

Lemma agent_record_inet port : inet (agent_record port).
Proof. by intros f. Qed.

Definition three_ops : list map_op := [Learn (agent_record 1) 0; Learn (agent_record 2) 1; Forget 0].

Lemma mux_map_refines_witness :
  exists m, map_steps plenty map_init three_ops = Some m /\
    forall r, inet r -> lookup_address m r = Some (foldl spec_step ∅ three_ops !! addr r).
Proof.
  apply (mux_map_refines plenty three_ops).
  - constructor; [apply agent_record_inet|constructor; [apply agent_record_inet|by constructor]].
  - vm_compute. reflexivity.
  - reflexivity.
Defined.

(** Half of the first map is in use. *)
Definition eight_ops : list map_op := (fun i => Learn (agent_record (Z.of_nat i)) i) <$> seq 0 8.
Definition eight_map : agent_map := default map_init (map_steps plenty map_init eight_ops).

Lemma eight_represents : represents eight_map (foldl spec_step ∅ eight_ops).
Proof.
  pose proof (map_steps_represents plenty eight_ops map_init ∅ 0 init_represents) as Hrun.
  specialize (Hrun ltac:(split; vm_compute; discriminate) ltac:(lia)). unfold eight_map. destruct Hrun as (m & -> & Hm).
  - apply Forall_fmap, list.Forall_forall. intros i _. apply agent_record_inet.
  - vm_compute. reflexivity.
  - reflexivity.
  - exact Hm.
Qed.

Lemma mux_insert_never_returns_witness :
  insert_map_entry (fun k => k <=? 16) 1000 eight_map (agent_record 8) (Some 0%nat) = Unreturned.
Proof.
  apply (mux_insert_never_returns (fun k => k <=? 16) 1000 eight_map (foldl spec_step ∅ eight_ops) (agent_record 8) 0).
  - exact eight_represents.
  - apply agent_record_inet.
  - vm_compute. reflexivity.
  - vm_compute. discriminate.
  - vm_compute. reflexivity.
Defined.

(** ** A run *)
#[local] Opaque example_machine.

(** A request for the agent with a signature that is not its. *)
Definition forged_text : list Z := Eval vm_compute in stun_encode (peer_request 0 77) (Some (lit "forged")) [0; 0].
Definition forged_message : stun_message :=
  Eval vm_compute in from_option (fun r => snd (fst r)) stun_message_zero (stun_read (received_in forged_text (buffer_of 0)) (lenZ forged_text)).

Definition registered_ops : list mux_op := [Conn (Create true true (Some 7) (agent example_machine))].
Definition mux_ops : list mux_op := registered_ops ++ [Listen true true true; Process (PollIn [(forged_text, peer_record)] false)].
Definition later_ops : list mux_op :=
  mux_ops ++ [Conn (Interrupt 0); Conn (Call 0 ConnUpdate); Process (PollIn [([], peer_record); (peer_text, peer_record)] false); Conn (Destroy 0); Process PollError].

Definition mux_example (ops : list mux_op) : mmachine :=
  match mux_steps plenty ops mux_start with
  | Some (_, m) => m
  | None => mux_start
  end.

Lemma example_connected : connected (agent example_machine).
Proof. assert (conn_created (agent example_machine) = true /\ a_state (agent example_machine) = JUICE_STATE_COMPLETED) as [? E] by (vm_compute; by split). split; [done|]. by rewrite E. Qed.

Lemma all_bytes l : forallb is_byteb l = true -> bytes_ok l.
Proof. intros Hl. apply List.Forall_forall. rewrite forallb_forall in Hl. intros b Hin. specialize (Hl b Hin). unfold is_byteb in Hl. zify_bool. unfold is_byte. lia. Qed.

Lemma from_peer text : forallb is_byteb text && (lenZ text <=? AgentState.BUFFER_SIZE) = true -> datagram_ok (text, peer_record).
Proof.
  intros Ht. apply andb_true_iff in Ht as [Hb Hl]. split_and!; [by apply all_bytes|by apply Z.leb_le|split; [done|]; split; [done|]; by repeat constructor|by intros f].
Qed.

Lemma later_ops_ok : Forall mux_op_ok later_ops.
Proof.
  unfold later_ops, mux_ops, registered_ops. cbn [app]. apply Forall_cons_2.
  { split; [exact example_agent_inv|]. split; [exact example_connected|by vm_compute]. }
  apply Forall_cons_2; [exact I|]. apply Forall_cons_2.
  { apply Forall_cons_2; [|apply Forall_nil_2]. apply from_peer. vm_compute. reflexivity. }
  apply Forall_cons_2; [exact I|]. apply Forall_cons_2; [by intros c _|]. apply Forall_cons_2.
  { apply Forall_cons_2; [apply from_peer; vm_compute; reflexivity|]. apply Forall_cons_2; [|apply Forall_nil_2]. apply from_peer. vm_compute. reflexivity. }
  apply Forall_cons_2; [exact I|]. apply Forall_cons_2; [apply Forall_nil_2|apply Forall_nil_2].
Qed.

Lemma plenty_memory n : n < 2 ^ 28 -> memory_for plenty n.
Proof. by split. Qed.

Lemma mux_run_safe_witness :
  exists m, mux_steps plenty later_ops mux_start = Some (tt, m) /\ mux_inv (all_received later_ops) (registry m).
Proof. apply (mux_run_safe plenty later_ops); [exact later_ops_ok|apply plenty_memory; vm_compute; reflexivity]. Defined.

Lemma mux_example_inv k : mux_inv (all_received (take k later_ops)) (registry (mux_example (take k later_ops))).
Proof.
  pose proof (mux_steps_spec plenty 0 (take k later_ops) mux_start mux_start_inv ltac:(lia)) as Hs. unfold spec in Hs. unfold mux_example.
  assert (Hm : memory_for plenty (0 + all_received (take k later_ops))).
  { apply plenty_memory. cbn [Z.add]. do 9 (destruct k as [|k]; [vm_compute; reflexivity|]). vm_compute. reflexivity. }
  specialize (Hs Hm ltac:(apply Forall_take, later_ops_ok)).
  destruct (mux_steps plenty (take k later_ops) mux_start) as [[[] m]|]; [exact Hs|done].
Qed.

(** The agent is registered; later the address of its peer is known. *)
Definition registered_machine : mmachine := Eval vm_compute in mux_example (take 1 later_ops).
Definition known_machine : mmachine := Eval vm_compute in mux_example (take 3 later_ops).

Lemma registered_inv : mux_inv 0 (registry registered_machine).
Proof. assert (registered_machine = mux_example (take 1 later_ops)) as -> by (vm_compute; reflexivity). exact (mux_example_inv 1). Qed.

Lemma known_inv : mux_inv 1 (registry known_machine).
Proof. assert (known_machine = mux_example (take 3 later_ops)) as -> by (vm_compute; reflexivity). exact (mux_example_inv 3). Qed.

Definition first_agent (m : mmachine) : mux_agent :=
  default (mkConnAgent (agent example_machine) (mkConn 0 false) 0) (mjoin (memory_of_agents (registry m) !! 0%nat)).
Definition has_first (m : mmachine) : bool := match mjoin (memory_of_agents (registry m) !! 0%nat) with Some _ => true | None => false end.

Lemma first_agent_at m : has_first m = true -> agent_at (registry m) 0 (first_agent m).
Proof. unfold has_first, agent_at, first_agent. by destruct (memory_of_agents (registry m) !! 0%nat) as [[a|]|]. Qed.

#[local] Opaque registered_machine known_machine forged_text peer_text.

Lemma peer_unmapped : unmapped peer_record = peer_record.
Proof. reflexivity. Qed.

Lemma mux_known_address_witness :
  let m := known_machine in let m1 := mkMachine (registry m) (S (asked m)) (events m) in
  exists m', receive plenty (peer_text, peer_record) m = Some (tt, m') /\
    if conn_finished (ca_conn (first_agent m)) then m' = m1
    else delivers (received_in peer_text (buffer_of (asked m))) (lenZ peer_text) (unmapped peer_record) 0 (first_agent m) m1 m'.
Proof.
  apply (mux_known_address plenty 1 peer_text peer_record 0 (first_agent known_machine) known_machine).
  - exact known_inv.
  - apply from_peer. vm_compute. reflexivity.
  - vm_compute. discriminate.
  - vm_compute. reflexivity.
  - apply first_agent_at. vm_compute. reflexivity.
Defined.

Lemma mux_request_learnt_witness :
  let m := registered_machine in let buf := received_in forged_text (buffer_of (asked m)) in
  exists map' m', receive plenty (forged_text, peer_record) m = Some (tt, m') /\
    delivers buf (lenZ forged_text) (unmapped peer_record) 0 (first_agent m) (mkMachine (set_impl_map map' (registry m)) (S (asked m)) (events m)) m' /\
    forall src', inet src' -> owner (reg_map (registry m')) src' =
      if bool_decide (addr src' = addr (unmapped peer_record)) then Some 0%nat else owner (reg_map (registry m)) src'.
Proof.
  apply (mux_request_learnt plenty 0 forged_text peer_record (lit "HHHH") (lit "peer") 0 (first_agent registered_machine)
    registered_machine forged_message (lenZ forged_text)).
  - exact registered_inv.
  - vm_compute. discriminate.
  - apply plenty_memory. vm_compute. reflexivity.
  - apply from_peer. vm_compute. reflexivity.
  - vm_compute. discriminate.
  - vm_compute. reflexivity.
  - vm_compute. reflexivity.
  - vm_compute. reflexivity.
  - vm_compute. discriminate.
  - vm_compute. reflexivity.
  - vm_compute. reflexivity.
  - vm_compute. reflexivity.
  - vm_compute. reflexivity.
  - exists 0%nat. split; [vm_compute; reflexivity|]. split; [apply first_agent_at; vm_compute; reflexivity|].
    split; [vm_compute; reflexivity|]. split; [vm_compute; reflexivity|]. intros j id' b Hj. lia.
Defined.

Lemma mux_waits_for_first_witness :
  let m := known_machine in
  exists next count m', conn_mux_prepare m = Some ((next, count), m') /\ registry m' = registry m /\ events m' = events m /\
    next <= now_ms (asked m) + 60000 /\
    (forall id a, agent_at (registry m) id a -> conn_finished (ca_conn a) = false -> next <= conn_next_timestamp (ca_conn a)) /\
    (next = now_ms (asked m) + 60000 \/
     exists id a, agent_at (registry m) id a /\ conn_finished (ca_conn a) = false /\ next = conn_next_timestamp (ca_conn a)) /\
    (0 < count <-> can_release (registry m) = false).
Proof. apply (mux_waits_for_first 1 known_machine). exact known_inv. Defined.

(** ** Sockets of its own *)
Definition created : conn_op := Create true true (Some 7) (agent example_machine).

(** What one socket has for its agent. *)
Definition one_report (slot : nat) : poll_report := if (slot =? 0)%nat then PollReadable [([], peer_record); (forged_text, peer_record)] false else PollNothing.
Definition broken_report (slot : nat) : poll_report := PollInvalid.

Definition listed_ops : list poll_op := [PollConn created; PollPrepare true].

(** The agent is gone when the report comes, and another has its slot and the
    number of its socket. *)
Definition stale_ops : list poll_op :=
  listed_ops ++ [PollProcess one_report; PollConn (Destroy 0); PollConn created; PollProcess broken_report].

Lemma created_ok : conn_op_ok created.
Proof. split; [exact example_agent_inv|]. split; [exact example_connected|by vm_compute]. Qed.

Lemma one_report_ok slot : report_ok (one_report slot).
Proof.
  destruct slot as [|slot]; [|exact I]. apply Forall_cons_2; [apply from_peer; vm_compute; reflexivity|].
  apply Forall_cons_2; [apply from_peer; vm_compute; reflexivity|apply Forall_nil_2].
Qed.

Lemma listed_ops_ok : Forall poll_op_ok listed_ops.
Proof. apply Forall_cons_2; [exact created_ok|]. by apply Forall_cons_2; [|apply Forall_nil_2]. Qed.

Lemma stale_ops_ok : Forall poll_op_ok stale_ops.
Proof.
  apply Forall_app_2; [exact listed_ops_ok|]. apply Forall_cons_2; [exact one_report_ok|]. apply Forall_cons_2; [exact I|].
  apply Forall_cons_2; [exact created_ok|]. by apply Forall_cons_2; [|apply Forall_nil_2].
Qed.

Lemma poll_run_safe_witness : exists m, poll_steps stale_ops poll_start = Some (tt, m) /\ poll_inv 0 (memory m).
Proof. apply (poll_run_safe stale_ops). exact stale_ops_ok. Defined.

Definition poll_example (ops : list poll_op) : pmachine :=
  match poll_steps ops poll_start with
  | Some (_, m) => m
  | None => poll_start
  end.

Lemma poll_example_inv ops : Forall poll_op_ok ops -> poll_inv 0 (memory (poll_example ops)).
Proof.
  intros Hops. pose proof (poll_steps_spec ops poll_start conn_start_inv Hops) as Hs. unfold spec in Hs. unfold poll_example.
  destruct (poll_steps ops poll_start) as [[[] m]|]; [exact Hs|done].
Qed.

Definition is_ready_at (m : pmachine) (id : nat) : bool :=
  match memory_of_agents (memory m) !! id with Some (Some a) => ready a | _ => false end.

Lemma poll_process_turns_witness :
  let m := poll_example listed_ops in is_ready_at m 0 = true /\
  exists m' es, conn_poll_process one_report m = Some (tt, m') /\ poll_inv 0 (memory m') /\ events m' = es ++ events m /\
    forall id a, agent_at (memory m) id a ->
      if ready a then takes_turn (one_report (ca_conn_index a)) id a (memory m') es else left_alone id a (memory m') es.
Proof.
  split; [vm_compute; reflexivity|]. apply (poll_process_turns 0 one_report (poll_example listed_ops)).
  - apply poll_example_inv. exact listed_ops_ok.
  - exact one_report_ok.
Defined.

Lemma poll_prepare_lists_witness :
  let m := poll_example [PollConn created] in
  exists next count m', conn_poll_prepare true m = Some ((next, count), m') /\ events m' = events m /\ prepared_all m m' next count.
Proof.
  apply (poll_prepare_lists 0 true (poll_example [PollConn created])).
  apply poll_example_inv. apply Forall_cons_2; [exact created_ok|apply Forall_nil_2].
Defined.

(** ** A thread of its own *)
Definition thread_machine : tmachine := mkMachine (mkThreadAgent (agent example_machine) 0 false) 0 [].
Definition thread_turns : list (list thread_op * poll_end) :=
  [([ThreadCall ConnUpdate], PollReported (one_report 0)); ([ThreadInterrupt], PollInterrupted); ([ThreadStop], PollReported PollNothing)].

Lemma thread_run_safe_witness : exists goes_on m', conn_thread_run thread_turns thread_machine = Some (goes_on, m') /\ thread_inv (memory m').
Proof.
  apply (thread_run_safe thread_turns thread_machine).
  - split; [exact example_agent_inv|exact example_connected].
  - apply Forall_cons_2; [split; [|exact (one_report_ok 0)]|].
    { apply Forall_cons_2; [by intros c _|apply Forall_nil_2]. }
    apply Forall_cons_2; [split; [by apply Forall_cons_2; [|apply Forall_nil_2]|exact I]|].
    apply Forall_cons_2; [split; [by apply Forall_cons_2; [|apply Forall_nil_2]|exact I]|apply Forall_nil_2].
Defined.
